(* ===== verification/_CoqProject ===== *)
-Q . S2P
Prelude.v
Effects.v
Utf8.v
Der.v
Principal.v
Keytab.v
Spnego.v
KrbAes.v
Acceptor.v
Kdc.v
Valkey.v
AppState.v
Sessions.v
RefreshTokens.v
AuthCodes.v
DeviceCodes.v
RateLimit.v
Cbor.v
AuditLog.v
KeyCustody.v
MasterKey.v
Credentials.v
Totp.v
Mfa.v
Webauthn.v
Passkeys.v
ApiErrors.v
Models.v
Profile.v
Users.v
Server.v
Otp.v
Risk.v
Passwords.v
SelfService.v
Claims.v
SigningKeys.v
AccessTokens.v
Scopes.v
TokenEndpoint.v
Access.v
Flows.v
Authorize.v
ClientAuth.v
Requests.v
