(* ===== verification/Prelude.v ===== *)
(** * rIDM in Rocq: a verification library for the rIDM identity server

    rIDM is a multi-tenant identity provider in Rust: OpenID Connect, SAML,
    Kerberos sign-on, sessions, second factors and administration over a
    PostgreSQL database and a Valkey (Redis) cache. This library models the
    parts below as Rocq functions and proves what makes them correct. Paths are
    under [src/]; [api/] and [crates/] are the two halves of the workspace.

    ** Files

    - [Prelude]: results, bytes and machine integers, shared lemmas, tactics.
    - Kerberos sign-on ([api/src/kerberos/]). [Utf8] is the standard library's
      UTF-8; [Der] is der.rs (DER read and written), [Principal] principal.rs,
      [Keytab] keytab.rs, [Spnego] spnego.rs, [KrbAes] aes.rs (the AES
      encryption types of RFC 3962 and RFC 8009), [Acceptor] acceptor.rs and
      crypto.rs (the check of an AP-REQ), [Kdc] testing.rs (the in-process KDC
      and client). A token goes from SPNEGO to the acceptor, which decrypts the
      ticket with a keytab key and reads it with DER.
    - Sessions and tokens. [Valkey] is the cache as a class of commands with
      laws, the key names of cache/keys.rs and the helpers of
      cache/commands.rs. [AppState] is the database tables the token services
      share and their repositories. [Sessions] is services/sessions.rs with the
      parts of logout.rs and impersonation.rs it calls, [RefreshTokens]
      services/refresh_tokens.rs, [AuthCodes] services/auth_codes.rs,
      [DeviceCodes] services/device_codes.rs (RFC 8628), [RateLimit]
      services/rate_limit.rs with its Lua scripts.
    - [Cbor] is webauthn/cbor.rs.
    - [AuditLog] is crates/ridm-core/src/audit_chain.rs, services/audit.rs and
      the repositories they use: the hash chain of audit rows.
    - [KeyCustody] is key_custody/envelope.rs, generations.rs and the blob
      format of crates/ridm-core/src/providers/key_encryptor.rs; [MasterKey]
      services/master_key.rs on top of it.
    - Effects. [Effects] is the state and error monad ([let!], [do!], [guard],
      [lift], [transaction]) in which the services below are written.
    - Second factors and passkeys. [Credentials] is credential_secrets.rs and
      repos/credentials.rs behind the class [KeyEncryptor] that [KeyCustody]
      implements; [Totp] the RFC 6238 arithmetic and [Mfa] the handlers of
      services/totp.rs; [Webauthn] webauthn/ceremony.rs, cose.rs and stored.rs,
      [Passkeys] services/passkeys.rs.
    - Accounts. [ApiErrors] is error.rs, [Models] models/, [Profile]
      services/profile_schema.rs, [Users] services/users.rs with
      repos/users.rs, [Server] the state the sign-in services share.
      [Otp] is passwordless.rs and otp_factors.rs, [Risk] risk.rs,
      trusted_devices.rs and consents.rs, [Passwords] password.rs,
      [SelfService] registration.rs, recovery.rs and contact_changes.rs.
    - Tokens. [Claims] is services/claims.rs, [SigningKeys] keys.rs,
      [AccessTokens] tokens.rs, opaque_tokens.rs, denylist.rs and features.rs,
      [Scopes] scopes.rs and oidc/pkce.rs, [TokenEndpoint] oidc/token.rs with
      all its grants over the services above.
    - Administration. [Access] is roles, groups, permissions and the checks of
      the admin API: services/roles.rs, groups.rs, admin_access.rs,
      middleware/admin.rs and the handlers of routes/admin/ that change them.
    - Sign-in. [Flows] is services/login_flows.rs and flows.rs, every step of
      a login flow; [Authorize] the decision of oidc/authorize.rs, what a
      session owes, and the end of a flow in routes/flows.rs.
    - Clients. [ClientAuth] is oidc/client_auth.rs, oidc/dpop.rs and the
      binding checks of oidc/mtls.rs: who the client of a request is and which
      key a token may be used with. [Requests] is the validation of
      oidc/authorize.rs, redirect_uri.rs, jar.rs and par.rs, up to the
      decision of [Authorize].

    ** How the code is translated

    Pure functions are functions; fallible ones return [result] with the
    source's error constructors, and [let?] is Rust's [?]. Handlers that change
    state take the state (cache, tables, node) and return the new one beside
    their answer; each takes the time it runs at as an argument ([now]) and the
    random bytes it draws. Operations are steps of a relation or elements of a
    list of operations, and invariants are proved over every history of them. A
    database transaction is one step; where the code reads in one transaction
    and writes in another, the two are separate definitions ([poll_loaded],
    [bind_device], [read_batch]/[update_row], [load_flow]/[finish_loaded], ...), so that what comes between
    can be stated. Machine integers are [Z] with their width written out
    ([wrap_u], [wrap_s], [fits_u]); bytes are [list Z]; times are milliseconds
    in the Valkey services and in key custody, nanoseconds in Kerberos and the
    audit log.

    Code that is not in the repository is a class: [Chrono] (calendar), [AwsLc]
    and [Aead] (ciphers, HMAC, HKDF), [Valkey] and [Counters] (the cache),
    [Serde] and [JsonBytes] (JSON of a record), [UuidDisplay], [Printers] (text
    of times and JSON), [KeyWrapper] (an HSM or KMS), [UrlLib], [Signatures],
    [Jwts] (jsonwebtoken), [TextLib] and [CharLib] (Unicode and syntax),
    [HashLib] (argon2, pbkdf2 and digests), [Geo] (distances). [PasswordHasher]
    is a trait of the code itself, as a class. Lookups in tables a file does
    not model are records of functions ([Directory], [Directories],
    [Lookups], [ClientLookups]). The laws of the classes ([ValkeyLaws],
    [JwtsPayload], ...) are what the libraries document; each has a concrete
    instance in the file that declares it or in the example of the file that
    uses it, and the witnesses of the theorems run on those instances.
    SHA-256, base64 and similar functions without laws are section variables.

    ** Fuel

    Loops that are not structural carry fuel, and the theorems show the fuel is
    enough: the bytes left for DER and principals, 17 levels for CBOR
    ([MAX_DEPTH] 16), three turns for the carry of n-fold (any input, see
    [nfold_terminates]), one more than the number of rows for the audit walk,
    retention and rotation.

    ** What the theorems show

    - Kerberos: an accepted AP-REQ was made with a key of the keytab, for the
      service, in time, by the client named in the ticket ([accept_sound]); the
      tokens our own client side makes are accepted and answered
      ([negotiate_accepted]); the ciphers round-trip and detect tampering;
      readers and writers of DER, keytabs, principals and SPNEGO agree.
    - Tokens: a refresh token is spent once, a reuse kills its family, a family
      has one live token, redemption refines a contract; an authorization code
      and a device code are exchanged once; a revoked session is not found
      again unless a request that held it writes it back; the session cap
      holds; device-code guesses and client requests stay below their limits
      in any topology of the cache, but for requests Valkey failed for.
    - Audit log: whatever writer, retention and scheduled check do, every chain
      verifies (months dropped in the order of the chains); two records of a chain with one final hash are one record or a
      SHA-256 collision; retention deletes what it says.
    - Key custody: what a node sealed stays readable by it and, under a custody
      backend, by every node; new generations are fresh; rotation keeps every
      secret and, without failures, reaches every row.
    - Second factors: a TOTP step is accepted once and a recovery code, one
      request after the other, once; an assertion is accepted exactly when it
      is what the specification asks for ([authentication_iff]), for the user
      it is registered to; a challenge is answered once; what a passkey
      registered can sign in.
    - Accounts: no two live accounts share a name, an address (in any spelling)
      or an external id; attributes keep to the schema and to who may edit them; ending an
      account, and a password reset, sign the user out everywhere; a
      registration adds one account or none; passwords the server keeps are
      not reused;
      guesses at a code run out; an enrolled destination was proved; revoked
      devices stay revoked; more signals are never treated more leniently.
    - Tokens: each is bound to the key its request proved, a code is
      exchanged by the client it was issued to with its verifier, refreshing
      and exchanging only narrow (audience mappers apart), replaying a code
      revokes what it gave; keys rotate without a gap and hand the signing
      over; no mapper sets a protected claim but adds to [aud].
    - Administration: no sequence of requests gives anybody a permission that
      neither they nor the administrator had ([no_escalation]).
    - Sign-in: by rule induction over all handlers of a flow, in any
      interleaving, a second factor that was asked for is not skipped
      ([second_factor_not_skipped]); a code is for the user, session and
      request its flow was for, and a flow that was deleted gives no other
      ([finish_binds_code]).
    - Clients: a client is who it is registered as, by the method it is
      registered with; a proof of possession is used once and a client
      assertion once while it is remembered; a bound token needs its key; a code goes only to a registered
      redirect URI, for a request that passed the checks; a pushed request is
      used once, by its client ([code_goes_to_registered_uri],
      [pushed_request_sound]).
    - What the code does not do, as theorems about concrete runs and
      interleavings: [bind_device_revives], [poll_loses_approval],
      [device_code_spent_twice], [issue_unclaimed_code], [rotation_loses_write],
      [truncation_verifies], [month_drop_breaks], [recovery_spent_twice],
      [denied_jwt_accepted_again], [exchange_drops_actor],
      [parallel_guesses_uncounted], [enrolment_race], [risk_score_wraps],
      [revoked_consent_returns], [empty_grant_fails], [stale_upgrade_restores],
      [identifier_ambiguous], [required_locked], [unsent_dropped],
      [registration_sets_admin_attributes], [verification_follows_account],
      [changed_address_keeps_verified], [group_move_escalates],
      [enrolment_bypasses_factor], [preferred_class_settled],
      [abandoned_terms_get_code], [finished_twice], [proof_accepted_twice],
      [assertion_accepted_twice].

    ** Not modelled

    The HTTP layer (routes, middleware, OpenAPI) apart from the handlers named
    above, SAML, LDAP and brokering, SCIM, tenants, organizations and clients,
    tenant configuration, messaging, webhooks and statistics, the command line
    and the web UI: glue, database CRUD, or protocols through third-party
    libraries. Of modelled files, listings for the consoles, metrics, logging,
    status reports and what a page shows are left out. SQL runs as documented
    by PostgreSQL at READ COMMITTED; a failing database or cache, other than
    where an error is modelled, is not. *)

From stdpp Require Export base list gmap strings pretty.
From Stdlib Require Export ZArith Lia.

#[global] Open Scope Z_scope.

(** ** Rust's [Result] *)

Inductive result (E A : Type) : Type :=
| Ok (a : A)
| Err (e : E).
Arguments Ok {E A} a.
Arguments Err {E A} e.

Declare Scope rust_scope.
Delimit Scope rust_scope with rust.
#[global] Open Scope rust_scope.

(** [let? p := e in k] is Rust's [let p = e?; k]. *)
Notation "'let?' p ':=' e 'in' k" :=
  (match e with Ok p => k | Err err => Err err end)
  (at level 10, p pattern, e at level 200, k at level 200,
   format "'[v' 'let?'  p  ':='  e  'in' '/' k ']'") : rust_scope.

#[export] Instance result_eq_dec {E A} `{EqDecision E, EqDecision A} :
  EqDecision (result E A).
Proof. solve_decision. Defined.

(** [Option::ok_or]. *)
Definition ok_or {E A} (o : option A) (e : E) : result E A :=
  match o with Some a => Ok a | None => Err e end.

(** [Result::map_err]: the [From] conversions of [?]. *)
Definition map_err {E E' A} (f : E -> E') (r : result E A) : result E' A :=
  match r with Ok a => Ok a | Err e => Err (f e) end.

(** [Result::map]. *)
Definition result_map {E A B} (f : A -> B) (r : result E A) : result E B :=
  match r with Ok a => Ok (f a) | Err e => Err e end.

(** [.map(f).transpose()?] on an [Option]. *)
Definition transpose {E A B} (f : A -> result E B) (o : option A) : result E (option B) :=
  match o with
  | Some a => let? b := f a in Ok (Some b)
  | None => Ok None
  end.

Definition is_ok {E A} (r : result E A) : bool :=
  match r with Ok _ => true | Err _ => false end.

(** ** Proof automation *)

(** Case analysis on the matches of hypothesis [H], keeping only the
    consistent branches. *)
Ltac step_match H :=
  match type of H with
  | context [ match ?x with _ => _ end ] =>
      lazymatch x with
      | context [ match _ with _ => _ end ] => fail
      | _ => let E := fresh "E" in destruct x eqn:E; simplify_eq H
      end
  end.

Ltac inv_result :=
  repeat match goal with
  | H : Ok _ = Ok _ |- _ => injection H as H; subst
  | H : Err _ = Err _ |- _ => injection H as H; subst
  | H : Ok _ = Err _ |- _ => discriminate H
  | H : Err _ = Ok _ |- _ => discriminate H
  end.

(** Walk through a chain of [let?] and [if] in [H : e = Ok _]. *)
Ltac chain H :=
  repeat (match type of H with
  | (match ?x with _ => _ end) = _ =>
      let E := fresh "E" in destruct x eqn:E; try discriminate H
  end); inv_result.

(** Boolean tests of the code as propositions. *)
Ltac bool_hyps :=
  repeat match goal with
  | H : andb _ _ = true |- _ => apply andb_true_iff in H as [? ?]
  | H : orb _ _ = false |- _ => apply orb_false_iff in H as [? ?]
  | H : negb _ = true |- _ => apply negb_true_iff in H
  | H : negb _ = false |- _ => apply negb_false_iff in H
  | H : bool_decide _ = true |- _ => apply bool_decide_eq_true in H
  | H : bool_decide _ = false |- _ => apply bool_decide_eq_false in H
  | H : Z.leb _ _ = true |- _ => apply Z.leb_le in H
  | H : Z.ltb _ _ = true |- _ => apply Z.ltb_lt in H
  | H : Z.ltb _ _ = false |- _ => apply Z.ltb_ge in H
  | H : Z.leb _ _ = false |- _ => apply Z.leb_gt in H
  | H : Z.eqb _ _ = true |- _ => apply Z.eqb_eq in H
  | H : Z.eqb _ _ = false |- _ => apply Z.eqb_neq in H
  end.

Ltac split_andb :=
  repeat match goal with H : _ && _ = true |- _ => apply andb_true_iff in H as [? ?] end.

(** Closed decidable facts, by evaluation. *)
Ltac decide_now := apply (bool_decide_unpack _); vm_compute; exact I.

Create HintDb rust.
Create HintDb bytes.
Create Rewrite HintDb bytes.

(** ** Bytes and machine integers *)

Definition is_byte (b : Z) : Prop := 0 <= b < 256.
Definition bytes_ok (l : list Z) : Prop := Forall is_byte l.

#[export] Instance is_byte_dec b : Decision (is_byte b).
Proof. unfold is_byte. apply _. Defined.
#[export] Instance bytes_ok_dec l : Decision (bytes_ok l) | 100.
Proof. unfold bytes_ok. apply _. Defined.

Definition wrap_u (w : Z) (v : Z) : Z := v mod 2 ^ w.
Definition wrap_s (w : Z) (v : Z) : Z :=
  (v + 2 ^ (w - 1)) mod 2 ^ w - 2 ^ (w - 1).
Abbreviation as_u8 := (wrap_u 8).
Abbreviation as_u16 := (wrap_u 16).
Abbreviation as_u32 := (wrap_u 32).
Abbreviation as_i32 := (wrap_s 32).
Abbreviation as_i64 := (wrap_s 64).

Definition u32_max : Z := 2 ^ 32 - 1.
Definition u64_max : Z := 2 ^ 64 - 1.

Definition fits_u (w v : Z) : Prop := 0 <= v < 2 ^ w.
Definition fits_s (w v : Z) : Prop := - 2 ^ (w - 1) <= v < 2 ^ (w - 1).

(** [v.to_be_bytes()] of an [n]-byte integer, two's complement. *)
Fixpoint be_bytes (n : nat) (v : Z) : list Z :=
  match n with
  | O => []
  | S n => be_bytes n (v / 256) ++ [v mod 256]
  end.

(** [from_be_bytes] of an unsigned integer. *)
Definition be_val (l : list Z) : Z := foldl (fun acc b => acc * 256 + b) 0 l.

(** [from_le_bytes] of an unsigned integer. *)
Definition le_val (l : list Z) : Z := be_val (reverse l).

Definition zlen {A} (l : list A) : Z := Z.of_nat (length l).

(** ASCII text as bytes ([b"..."]). *)
Definition ascii_bytes (s : string) : list Z :=
  (fun a => Z.of_nat (Ascii.nat_of_ascii a)) <$> String.list_ascii_of_string s.

(** *** Lemmas on machine integers *)

Lemma wrap_s_id w v : 0 < w -> fits_s w v -> wrap_s w v = v.
Proof.
  intros Hw [Hl Hh]. unfold wrap_s.
  assert (2 ^ w = 2 * 2 ^ (w - 1)) as Hp.
  { rewrite <- Z.pow_succ_r by lia. f_equal. lia. }
  rewrite Z.mod_small by lia. lia.
Qed.

Lemma wrap_s_fits w v : 0 < w -> fits_s w (wrap_s w v).
Proof.
  intros Hw. unfold wrap_s, fits_s.
  assert (2 ^ w = 2 * 2 ^ (w - 1)) as Hp.
  { rewrite <- Z.pow_succ_r by lia. f_equal. lia. }
  pose proof (Z.mod_pos_bound (v + 2 ^ (w - 1)) (2 ^ w)
                (Z.pow_pos_nonneg 2 w ltac:(lia) ltac:(lia))). lia.
Qed.

(** [wrap_s] only depends on the value modulo [2 ^ w]. *)
Lemma wrap_s_mod w v : wrap_s w (v mod 2 ^ w) = wrap_s w v.
Proof. unfold wrap_s. by rewrite Zplus_mod_idemp_l. Qed.

(** *** Lemmas on byte lists *)

Lemma bytes_ok_app l k : bytes_ok (l ++ k) <-> bytes_ok l /\ bytes_ok k.
Proof. apply Forall_app. Qed.

Lemma bytes_ok_cons b l : bytes_ok (b :: l) <-> is_byte b /\ bytes_ok l.
Proof. apply Forall_cons. Qed.

Lemma bytes_ok_nil : bytes_ok [].
Proof. constructor. Qed.

Lemma bytes_ok_take n l : bytes_ok l -> bytes_ok (take n l).
Proof. apply Forall_take. Qed.

Lemma bytes_ok_drop n l : bytes_ok l -> bytes_ok (drop n l).
Proof. apply Forall_drop. Qed.

Lemma be_bytes_length n v : length (be_bytes n v) = n.
Proof.
  revert v. induction n as [|n IH]; intros v; [done|]. cbn [be_bytes].
  rewrite length_app, IH. simpl. lia.
Qed.

Lemma be_bytes_ok n v : bytes_ok (be_bytes n v).
Proof.
  revert v. induction n as [|n IH]; intros v; [constructor|]. cbn [be_bytes].
  apply bytes_ok_app. split; [apply IH|]. constructor; [|constructor].
  unfold is_byte. apply Z.mod_pos_bound. lia.
Qed.

Lemma be_val_app l k : be_val (l ++ k) = be_val l * 256 ^ zlen k + be_val k.
Proof.
  unfold be_val, zlen. revert l. induction k as [|b k IH] using rev_ind; intros l.
  - rewrite app_nil_r. simpl. lia.
  - rewrite app_assoc, (foldl_app _ (l ++ k)), IH, (foldl_app _ k). cbn [foldl].
    rewrite length_app. cbn [length].
    replace (Z.of_nat (length k + 1)) with (Z.succ (Z.of_nat (length k))) by lia.
    rewrite Z.pow_succ_r by lia. lia.
Qed.

Lemma be_val_bound l : bytes_ok l -> 0 <= be_val l < 256 ^ zlen l.
Proof.
  induction l as [|b l IH] using rev_ind; intros Hl; [by vm_compute|].
  apply bytes_ok_app in Hl as [Hl Hb]. apply Forall_cons in Hb as [Hb _].
  specialize (IH Hl). unfold is_byte in Hb. rewrite be_val_app.
  unfold zlen in *. rewrite length_app. cbn [length].
  replace (Z.of_nat (length l + 1)) with (Z.succ (Z.of_nat (length l))) by lia.
  rewrite Z.pow_succ_r by lia.
  change (be_val [b]) with b. change (Z.of_nat 1) with 1. rewrite Z.pow_1_r. lia.
Qed.

Lemma be_val_be_bytes n v : be_val (be_bytes n v) = v mod 256 ^ Z.of_nat n.
Proof.
  revert v. induction n as [|n IH]; intros v; cbn [be_bytes].
  - rewrite Z.mod_1_r. done.
  - rewrite be_val_app, IH. change (zlen [v mod 256]) with 1.
    change (be_val [v mod 256]) with (v mod 256). rewrite Z.pow_1_r.
    replace (Z.of_nat (S n)) with (Z.succ (Z.of_nat n)) by lia.
    rewrite Z.pow_succ_r by lia.
    rewrite Z.rem_mul_r by lia. lia.
Qed.

Lemma be_bytes_be_val l : bytes_ok l -> be_bytes (length l) (be_val l) = l.
Proof.
  induction l as [|b l IH] using rev_ind; intros Hl; [done|].
  apply bytes_ok_app in Hl as [Hl Hb]. apply Forall_cons in Hb as [Hb _].
  unfold is_byte in Hb. rewrite length_app, Nat.add_1_r. cbn [be_bytes].
  rewrite be_val_app. change (be_val [b]) with b. change (zlen [b]) with 1.
  rewrite Z.pow_1_r, Z.div_add_l, (Z.div_small b), Z.add_0_r by lia.
  rewrite IH by done. f_equal. f_equal.
  rewrite Z.add_comm, Z.mod_add by lia. apply Z.mod_small. lia.
Qed.

Lemma be_bytes_split n m v :
  be_bytes (n + m) v = be_bytes n (v / 256 ^ Z.of_nat m) ++ be_bytes m v.
Proof.
  revert v. induction m as [|m IH]; intros v.
  - rewrite Nat.add_0_r. simpl. by rewrite app_nil_r, Z.div_1_r.
  - rewrite Nat.add_succ_r. cbn [be_bytes]. rewrite IH, <- app_assoc.
    replace (Z.of_nat (S m)) with (Z.succ (Z.of_nat m)) by lia.
    rewrite Z.pow_succ_r, Z.div_div by lia. done.
Qed.

Lemma be_bytes_0 n : be_bytes n 0 = replicate n 0.
Proof.
  induction n as [|n IH]; [done|]. cbn [be_bytes].
  rewrite Z.div_0_l, IH by lia.
  change [0 mod 256] with (replicate 1 0). rewrite <- replicate_add.
  f_equal. lia.
Qed.

(** Shifting a byte in, as the readers' loops write it. *)
Lemma shift_in_byte acc b : is_byte b -> Z.lor (Z.shiftl acc 8) b = acc * 256 + b.
Proof.
  intros Hb. unfold is_byte in Hb.
  assert (Z.land (Z.shiftl acc 8) b = 0) as H0.
  { apply Z.bits_inj'. intros i Hi. rewrite Z.land_spec, Z.bits_0.
    destruct (decide (i < 8)).
    - rewrite Z.shiftl_spec_low by lia. done.
    - destruct (decide (b = 0)) as [->|]; [by rewrite Z.bits_0, andb_false_r|].
      rewrite (Z.bits_above_log2 b i), andb_false_r; [done|lia|].
      apply Z.log2_lt_pow2; [lia|]. apply Z.lt_le_trans with (2 ^ 8); [lia|].
      apply Z.pow_le_mono_r; lia. }
  rewrite <- Z.lxor_lor by done. rewrite <- Z.add_nocarry_lxor by done.
  rewrite Z.shiftl_mul_pow2 by lia. done.
Qed.

Lemma take_app_length' {A} (l k : list A) n : n = length l -> take n (l ++ k) = l.
Proof. intros ->. apply take_app_length. Qed.

Lemma drop_app_length' {A} (l k : list A) n : n = length l -> drop n (l ++ k) = k.
Proof. intros ->. apply drop_app_length. Qed.

Lemma zlen_nonneg {A} (l : list A) : 0 <= zlen l.
Proof. unfold zlen. lia. Qed.

Lemma zlen_app {A} (l k : list A) : zlen (l ++ k) = zlen l + zlen k.
Proof. unfold zlen. rewrite length_app. lia. Qed.

Lemma zlen_cons {A} (x : A) (l : list A) : zlen (x :: l) = 1 + zlen l.
Proof. unfold zlen. cbn [length]. lia. Qed.

Lemma zlen_to_nat {A} (l : list A) : Z.to_nat (zlen l) = length l.
Proof. unfold zlen. lia. Qed.

Lemma forallb_Forall {A} (f : A -> bool) l :
  forallb f l = true <-> Forall (fun x => f x = true) l.
Proof.
  induction l as [|x l IH]; simpl; [by split; [constructor|]|].
  by rewrite andb_true_iff, Forall_cons, IH.
Qed.

#[export] Hint Resolve be_bytes_ok bytes_ok_nil bytes_ok_take bytes_ok_drop : bytes.
#[export] Hint Rewrite @length_app @be_bytes_length @length_take @length_drop : bytes.

(** *** Filters *)

Lemma filter_none {A} (P : A -> Prop) `{forall x, Decision (P x)} l :
  Forall (fun x => ~ P x) l -> filter P l = [].
Proof. induction 1; [done|]. by rewrite filter_cons_False. Qed.

Lemma filter_all {A} (P : A -> Prop) `{forall x, Decision (P x)} l :
  Forall P l -> filter P l = l.
Proof. induction 1 as [|x l Hx _ IH]; [done|]. by rewrite filter_cons_True, IH. Qed.

Lemma filter_ext_in {A} (P Q : A -> Prop) `{forall x, Decision (P x)} `{forall x, Decision (Q x)} (l : list A) :
  (forall x, x ∈ l -> P x <-> Q x) -> filter P l = filter Q l.
Proof.
  induction l as [|a l IH]; intros Hl; [done|].
  rewrite !filter_cons, IH by (intros x Hx; apply Hl; by apply list_elem_of_further).
  pose proof (Hl a ltac:(apply list_elem_of_here)) as Ha. by destruct (decide (P a)), (decide (Q a)); try tauto.
Qed.

(** *** Rows told apart by a key *)

Lemma nodup_key_inj {A B} (f : A -> B) (l : list A) x y :
  NoDup (f <$> l) -> x ∈ l -> y ∈ l -> f x = f y -> x = y.
Proof.
  intros Hn Hx Hy E. induction l as [|a l IH]; [by apply not_elem_of_nil in Hx|].
  rewrite fmap_cons in Hn. apply NoDup_cons in Hn as [Ha Hn].
  apply elem_of_cons in Hx as [->|Hx]; apply elem_of_cons in Hy as [->|Hy]; [done|..|by apply IH];
    destruct Ha; [rewrite E|rewrite <- E]; by apply list_elem_of_fmap_2.
Qed.

(** ** Histories *)

(** What every step preserves holds along every history. *)
Lemma rtc_invariant {A} (R : relation A) (P : A -> Prop) a b :
  (forall x y, R x y -> P x -> P y) -> rtc R a b -> P a -> P b.
Proof. intros HR. induction 1; eauto. Qed.
