(* ===== verification/Effects.v ===== *)
(** * State and errors

    A handler that writes as it goes and may stop with an error: what it wrote
    before stays written. [let!] is [let x = f().await?;], [transaction] a
    database transaction, which an error rolls back. *)

From S2P Require Import Prelude.

Definition M (S E A : Type) : Type := S -> result E A * S.

Section effects.
Context {S E : Type}.

Definition ret {A} (a : A) : M S E A := fun s => (Ok a, s).
Definition throw {A} (e : E) : M S E A := fun s => (Err e, s).
Definition bind {A B} (m : M S E A) (k : A -> M S E B) : M S E B := fun s =>
  match m s with
  | (Ok a, s) => k a s
  | (Err e, s) => (Err e, s)
  end.
(** Reading the state and replacing it. *)
Definition gets {A} (f : S -> A) : M S E A := fun s => (Ok (f s), s).
Definition modify (f : S -> S) : M S E unit := fun s => (Ok tt, f s).
Definition lift {A} (r : result E A) : M S E A := fun s => (r, s).
(** An early return with [Err] when [b]. *)
Definition guard (b : bool) (e : E) : M S E unit := if b then throw e else ret tt.

(** [for x in l { body(x)?; }] *)
Fixpoint each {A} (l : list A) (body : A -> M S E unit) : M S E unit :=
  match l with
  | [] => ret tt
  | x :: l => bind (body x) (fun _ => each l body)
  end.

Definition transaction {A} (m : M S E A) : M S E A := fun s =>
  match m s with
  | (Ok a, s') => (Ok a, s')
  | (Err e, _) => (Err e, s)
  end.
End effects.

Notation "'let!' x ':=' m 'in' k" := (bind m (fun x => k))
  (at level 10, x pattern, m at level 200, k at level 200,
   format "'[v' 'let!'  x  ':='  m  'in' '/' k ']'") : rust_scope.
Notation "'do!' m 'in' k" := (bind m (fun _ => k))
  (at level 10, m at level 200, k at level 200,
   format "'[v' 'do!'  m  'in' '/' k ']'") : rust_scope.

(** ** Runs *)

Section runs.
Context {S E : Type}.

Lemma bind_ok {A B} (m : M S E A) (k : A -> M S E B) s b s' :
  bind m k s = (Ok b, s') <-> exists a s1, m s = (Ok a, s1) /\ k a s1 = (Ok b, s').
Proof.
  unfold bind. destruct (m s) as [[a|e] s1]; split.
  - intros Hk. by exists a, s1.
  - by intros (? & ? & [= <- <-] & ?).
  - done.
  - by intros (? & ? & ? & ?).
Qed.

Lemma guard_ok b (e : E) (s : S) s' x : guard b e s = (Ok x, s') <-> b = false /\ s' = s.
Proof.
  unfold guard. destruct b, x; cbn; split; [done|by intros []|by intros [= <-]|by intros [_ ->]].
Qed.

Lemma lift_ok {A} (r : result E A) (s : S) s' x : lift r s = (Ok x, s') <-> r = Ok x /\ s' = s.
Proof. unfold lift. split; [by intros [= -> ->]|by intros [-> ->]]. Qed.

Lemma ok_or_ok {A} (o : option A) (e : E) x : ok_or o e = Ok x <-> o = Some x.
Proof. destruct o; cbn; split; congruence. Qed.

(** What every step preserves, whether it ends well or not. *)
Definition preserves {A} (P : S -> Prop) (m : M S E A) : Prop := forall s, P s -> P (m s).2.

Lemma preserves_ret {A} P (a : A) : preserves P (ret a : M S E A).
Proof. by intros s. Qed.
Lemma preserves_throw {A} P (e : E) : preserves P (throw e : M S E A).
Proof. by intros s. Qed.
Lemma preserves_gets {A} P (f : S -> A) : preserves P (gets f : M S E A).
Proof. by intros s. Qed.
Lemma preserves_lift {A} P (r : result E A) : preserves P (lift r : M S E A).
Proof. by intros s. Qed.
Lemma preserves_guard P b (e : E) : preserves P (guard b e : M S E unit).
Proof. by destruct b; intros s. Qed.
Lemma preserves_modify (P : S -> Prop) f : (forall s, P s -> P (f s)) -> preserves P (modify f : M S E unit).
Proof. intros Hf s. apply Hf. Qed.
Lemma preserves_bind {A B} P (m : M S E A) (k : A -> M S E B) :
  preserves P m -> (forall a, preserves P (k a)) -> preserves P (bind m k).
Proof.
  intros Hm Hk s Hs. specialize (Hm s Hs). unfold bind.
  destruct (m s) as [[a|e] s1]; cbn [snd] in *; [by apply Hk|done].
Qed.
Lemma preserves_each {A} P (l : list A) (body : A -> M S E unit) :
  (forall x, x ∈ l -> preserves P (body x)) -> preserves P (each l body).
Proof.
  induction l as [|x l IH]; intros Hb; [by apply preserves_ret|]. cbn [each].
  apply preserves_bind; [apply Hb, list_elem_of_here|].
  intros _. apply IH. intros y Hy. apply Hb. by apply list_elem_of_further.
Qed.
Lemma preserves_transaction {A} P (m : M S E A) : preserves P m -> preserves P (transaction m).
Proof. intros Hm s Hs. specialize (Hm s Hs). unfold transaction. by destruct (m s) as [[a|e] s1]. Qed.
End runs.

Create HintDb effects.
#[export] Hint Resolve preserves_ret preserves_throw preserves_gets preserves_lift preserves_guard
  preserves_bind preserves_each preserves_transaction : effects.

(** Follow a run that ended well, step by step. *)
Ltac inv_run :=
  repeat match goal with
  | E : bind _ _ _ = (Ok _, _) |- _ => apply bind_ok in E as (? & ? & ? & E)
  | E : lift _ _ = (Ok _, _) |- _ => apply lift_ok in E as [E ->]
  | E : guard _ _ _ = (Ok _, _) |- _ => apply guard_ok in E as [E ->]
  | E : throw _ _ = (Ok _, _) |- _ => discriminate E
  | E : ret _ _ = (Ok _, _) |- _ => injection E as <- <-
  | E : gets _ _ = (Ok _, _) |- _ => injection E as <- <-
  | E : ok_or ?o _ = Ok _ |- _ => apply ok_or_ok in E; try (is_var o; subst o)
  end.
