(* ===== verification/Utf8.v ===== *)
(** * Rust strings

    What the source uses of [str] and [char]: a string is the list of its
    Unicode scalar values, [as_bytes] is its UTF-8 encoding and
    [String::from_utf8] the decoder, which refuses overlong forms,
    surrogates and values past U+10FFFF exactly as the standard library
    does. The two are inverse to each other ([utf8_decode_encode],
    [utf8_encode_decode]), which the parsers' round trips rest on. *)

From S2P Require Import Prelude.

(** A [char]. *)
Definition is_scalar (c : Z) : Prop := 0 <= c < 0xD800 \/ 0xE000 <= c < 0x110000.
Definition str_ok (s : list Z) : Prop := Forall is_scalar s.

#[export] Instance is_scalar_dec c : Decision (is_scalar c).
Proof. unfold is_scalar. apply _. Defined.
#[export] Instance str_ok_dec s : Decision (str_ok s) | 100.
Proof. unfold str_ok. apply _. Defined.

Definition utf8_char (c : Z) : list Z :=
  if c <? 0x80 then [c]
  else if c <? 0x800 then [0xC0 + c / 64; 0x80 + c mod 64]
  else if c <? 0x10000 then
    [0xE0 + c / 4096; 0x80 + c / 64 mod 64; 0x80 + c mod 64]
  else
    [0xF0 + c / 262144; 0x80 + c / 4096 mod 64; 0x80 + c / 64 mod 64; 0x80 + c mod 64].

(** [str::as_bytes]. *)
Definition utf8_encode (s : list Z) : list Z := s ≫= utf8_char.

Definition within (lo hi b : Z) : bool := (lo <=? b) && (b <=? hi).

(** The allowed second bytes of a three- or four-byte sequence. *)
Definition second3 (b0 b1 : Z) : bool :=
  if b0 =? 0xE0 then within 0xA0 0xBF b1
  else if b0 =? 0xED then within 0x80 0x9F b1
  else within 0x80 0xBF b1.
Definition second4 (b0 b1 : Z) : bool :=
  if b0 =? 0xF0 then within 0x90 0xBF b1
  else if b0 =? 0xF4 then within 0x80 0x8F b1
  else within 0x80 0xBF b1.

(** [String::from_utf8]. *)
Fixpoint utf8_decode (l : list Z) : option (list Z) :=
  match l with
  | [] => Some []
  | b0 :: l0 =>
      if b0 <? 0x80 then cons b0 <$> utf8_decode l0
      else if within 0xC2 0xDF b0 then
        match l0 with
        | b1 :: l1 =>
            if within 0x80 0xBF b1
            then cons ((b0 - 0xC0) * 64 + (b1 - 0x80)) <$> utf8_decode l1
            else None
        | _ => None
        end
      else if within 0xE0 0xEF b0 then
        match l0 with
        | b1 :: b2 :: l2 =>
            if second3 b0 b1 && within 0x80 0xBF b2
            then cons ((b0 - 0xE0) * 4096 + (b1 - 0x80) * 64 + (b2 - 0x80))
                   <$> utf8_decode l2
            else None
        | _ => None
        end
      else if within 0xF0 0xF4 b0 then
        match l0 with
        | b1 :: b2 :: b3 :: l3 =>
            if second4 b0 b1 && within 0x80 0xBF b2 && within 0x80 0xBF b3
            then cons ((b0 - 0xF0) * 262144 + (b1 - 0x80) * 4096
                       + (b2 - 0x80) * 64 + (b3 - 0x80)) <$> utf8_decode l3
            else None
        | _ => None
        end
      else None
  end.

(** [str::len]: the length in bytes. *)
Definition str_len (s : list Z) : Z := zlen (utf8_encode s).

(** A string literal of the source (ASCII). *)
Definition lit (s : string) : list Z := ascii_bytes s.

(** [char::is_control]: general category Cc. *)
Definition is_control (c : Z) : bool := (c <? 32) || ((127 <=? c) && (c <? 160)).

(** [char::is_whitespace]: the White_Space property. *)
Definition is_whitespace (c : Z) : bool :=
  within 9 13 c || (c =? 32) || (c =? 0x85) || (c =? 0xA0) || (c =? 0x1680)
  || within 0x2000 0x200A c || (c =? 0x2028) || (c =? 0x2029) || (c =? 0x202F)
  || (c =? 0x205F) || (c =? 0x3000).

Fixpoint trim_start (s : list Z) : list Z :=
  match s with
  | c :: s' => if is_whitespace c then trim_start s' else s
  | [] => []
  end.

(** [str::trim]. *)
Definition trim (s : list Z) : list Z := reverse (trim_start (reverse (trim_start s))).

(** The same on a [string] that holds the bytes; those of a [str] are always
    UTF-8. *)
Definition str_of_bytes (l : list Z) : string :=
  String.string_of_list_ascii ((fun b => Ascii.ascii_of_nat (Z.to_nat b)) <$> l).
Definition trim_str (s : string) : string :=
  match utf8_decode (ascii_bytes s) with
  | Some chars => str_of_bytes (utf8_encode (trim chars))
  | None => s
  end.
Definition chars_of (s : string) : list Z := default [] (utf8_decode (ascii_bytes s)).

(** [to_ascii_lowercase], [to_ascii_uppercase], [eq_ignore_ascii_case]. *)
Definition ascii_lower (c : Z) : Z := if within 65 90 c then c + 32 else c.
Definition ascii_upper (c : Z) : Z := if within 97 122 c then c - 32 else c.
Definition eq_ignore_ascii_case (a b : list Z) : bool :=
  bool_decide (ascii_lower <$> a = ascii_lower <$> b).

(** ** Lemmas *)

Ltac bool_lia :=
  unfold second3, second4 in *; unfold within in *;
  repeat match goal with
  | |- context [Z.ltb ?a ?b] => destruct (Z.ltb_spec a b)
  | |- context [Z.leb ?a ?b] => destruct (Z.leb_spec a b)
  | |- context [Z.eqb ?a ?b] => destruct (Z.eqb_spec a b)
  end; simpl; try lia.

Ltac same_char c :=
  lazymatch goal with
  | |- cons ?x <$> _ = _ =>
      replace x with c by (Z.to_euclidean_division_equations; lia); reflexivity
  end.

Lemma utf8_char_ok c : is_scalar c -> bytes_ok (utf8_char c).
Proof.
  unfold is_scalar, utf8_char, bytes_ok, is_byte. intros Hc.
  repeat case_match; repeat constructor; Z.to_euclidean_division_equations; lia.
Qed.

Lemma utf8_encode_ok s : str_ok s -> bytes_ok (utf8_encode s).
Proof.
  induction 1 as [|c s Hc _ IH]; [constructor|].
  unfold utf8_encode in *. cbn. apply bytes_ok_app. split; [by apply utf8_char_ok|done].
Qed.

Lemma utf8_encode_cons c s : utf8_encode (c :: s) = utf8_char c ++ utf8_encode s.
Proof. done. Qed.

Lemma utf8_encode_app s t : utf8_encode (s ++ t) = utf8_encode s ++ utf8_encode t.
Proof. apply bind_app. Qed.

Lemma utf8_decode_char c l :
  is_scalar c -> utf8_decode (utf8_char c ++ l) = cons c <$> utf8_decode l.
Proof.
  intros Hc. unfold is_scalar in Hc. unfold utf8_char.
  destruct (Z.ltb_spec c 0x80); [|destruct (Z.ltb_spec c 0x800);
    [|destruct (Z.ltb_spec c 0x10000)]]; cbn [app utf8_decode].
  - destruct (Z.ltb_spec c 0x80); [done|lia].
  - assert (2 <= c / 64 < 32) by (Z.to_euclidean_division_equations; lia).
    assert (0 <= c mod 64 < 64) by (Z.to_euclidean_division_equations; lia).
    rewrite (proj2 (Z.ltb_ge _ _)) by lia. unfold within.
    rewrite !(proj2 (Z.leb_le _ _)) by lia. simpl.
    same_char c.
  - assert (0 <= c / 4096 < 16) by (Z.to_euclidean_division_equations; lia).
    assert (0 <= c / 64 mod 64 < 64) by (Z.to_euclidean_division_equations; lia).
    assert (0 <= c mod 64 < 64) by (Z.to_euclidean_division_equations; lia).
    assert (second3 (224 + c / 4096) (128 + c / 64 mod 64) = true) as ->.
    { bool_lia; try reflexivity; exfalso; Z.to_euclidean_division_equations; lia. }
    rewrite (proj2 (Z.ltb_ge _ _)) by lia. unfold within.
    rewrite (proj2 (Z.leb_gt (224 + c / 4096) 223)) by lia.
    rewrite andb_false_r.
    rewrite !(proj2 (Z.leb_le _ _)) by lia. simpl.
    same_char c.
  - assert (0 <= c / 262144 < 5) by (Z.to_euclidean_division_equations; lia).
    assert (0 <= c / 4096 mod 64 < 64) by (Z.to_euclidean_division_equations; lia).
    assert (0 <= c / 64 mod 64 < 64) by (Z.to_euclidean_division_equations; lia).
    assert (0 <= c mod 64 < 64) by (Z.to_euclidean_division_equations; lia).
    assert (second4 (240 + c / 262144) (128 + c / 4096 mod 64) = true) as ->.
    { bool_lia; try reflexivity; exfalso; Z.to_euclidean_division_equations; lia. }
    rewrite (proj2 (Z.ltb_ge _ _)) by lia. unfold within.
    rewrite (proj2 (Z.leb_gt (240 + c / 262144) 223)) by lia.
    rewrite (proj2 (Z.leb_gt (240 + c / 262144) 239)) by lia.
    rewrite !andb_false_r.
    rewrite !(proj2 (Z.leb_le _ _)) by lia. simpl.
    same_char c.
Qed.

Lemma utf8_decode_encode s : str_ok s -> utf8_decode (utf8_encode s) = Some s.
Proof.
  induction 1 as [|c s Hc _ IH]; [done|].
  rewrite utf8_encode_cons, utf8_decode_char by done. by rewrite IH.
Qed.

Lemma utf8_char_2 b0 b1 (c := (b0 - 0xC0) * 64 + (b1 - 0x80)) :
  within 0xC2 0xDF b0 = true -> within 0x80 0xBF b1 = true ->
  utf8_char c = [b0; b1] /\ is_scalar c.
Proof.
  unfold within. intros H0 H1. bool_hyps. unfold utf8_char, is_scalar.
  rewrite (proj2 (Z.ltb_ge c 0x80)), (proj2 (Z.ltb_lt c 0x800)) by (subst c; lia).
  split; [repeat f_equal|]; subst c; Z.to_euclidean_division_equations; lia.
Qed.

Lemma utf8_char_3 b0 b1 b2 (c := (b0 - 0xE0) * 4096 + (b1 - 0x80) * 64 + (b2 - 0x80)) :
  within 0xE0 0xEF b0 = true -> second3 b0 b1 = true -> within 0x80 0xBF b2 = true ->
  utf8_char c = [b0; b1; b2] /\ is_scalar c.
Proof.
  unfold second3, within. intros H0 H1 H2. bool_hyps.
  assert (0x80 <= b1 <= 0xBF /\ (b0 = 0xE0 -> 0xA0 <= b1) /\ (b0 = 0xED -> b1 <= 0x9F))
    as (? & ? & ?) by (repeat case_match; bool_hyps; lia).
  assert (0x800 <= c < 0x10000) by (subst c; lia).
  unfold utf8_char, is_scalar.
  rewrite !(proj2 (Z.ltb_ge c _)), (proj2 (Z.ltb_lt c _)) by lia.
  split; [repeat f_equal|]; subst c; Z.to_euclidean_division_equations; lia.
Qed.

Lemma utf8_char_4 b0 b1 b2 b3
    (c := (b0 - 0xF0) * 262144 + (b1 - 0x80) * 4096 + (b2 - 0x80) * 64 + (b3 - 0x80)) :
  within 0xF0 0xF4 b0 = true -> second4 b0 b1 = true ->
  within 0x80 0xBF b2 = true -> within 0x80 0xBF b3 = true ->
  utf8_char c = [b0; b1; b2; b3] /\ is_scalar c.
Proof.
  unfold second4, within. intros H0 H1 H2 H3. bool_hyps.
  assert (0x80 <= b1 <= 0xBF /\ (b0 = 0xF0 -> 0x90 <= b1) /\ (b0 = 0xF4 -> b1 <= 0x8F))
    as (? & ? & ?) by (repeat case_match; bool_hyps; lia).
  assert (0x10000 <= c < 0x110000) by (subst c; lia).
  unfold utf8_char, is_scalar. rewrite !(proj2 (Z.ltb_ge c _)) by lia.
  split; [repeat f_equal|]; subst c; Z.to_euclidean_division_equations; lia.
Qed.

Lemma utf8_encode_decode l s :
  bytes_ok l -> utf8_decode l = Some s -> utf8_encode s = l /\ str_ok s.
Proof.
  remember (length l) as n eqn:Hn. revert l s Hn.
  induction (lt_wf n) as [n _ IH]. intros l s -> Hl Hs.
  destruct l as [|b0 l]; [by simplify_eq/=; repeat constructor|].
  cbn [utf8_decode] in Hs. inversion Hl as [|? ? Hb0 Hl']; subst. unfold is_byte in Hb0.
  assert (forall c k, utf8_char c ++ k = b0 :: l -> is_scalar c -> bytes_ok k ->
            (length k < length (b0 :: l))%nat ->
            cons c <$> utf8_decode k = Some s -> utf8_encode s = b0 :: l /\ str_ok s)
    as step.
  { intros c k Hc Hsc Hk Hlen Hd.
    apply fmap_Some in Hd as (s' & Hd & ->).
    destruct (IH _ Hlen k s' eq_refl Hk Hd) as [<- Hok].
    rewrite utf8_encode_cons. by split; [|constructor]. }
  repeat (case_match; try discriminate).
  - eapply (step b0 l); eauto; bool_hyps; [|left; lia].
    unfold utf8_char. by rewrite (proj2 (Z.ltb_lt b0 _)) by lia.
  - subst. inversion Hl' as [|? ? ? Hl2]; subst.
    destruct (utf8_char_2 b0 z) as [Hc ?]; [done..|].
    eapply step; eauto; [by rewrite Hc|simpl; lia].
  - subst. inversion Hl' as [|? ? ? Hl2]; inversion Hl2; subst.
    split_andb.
    destruct (utf8_char_3 b0 z z0) as [Hc ?]; [done..|].
    eapply step; eauto; [by rewrite Hc|simpl; lia].
  - subst. inversion Hl' as [|? ? ? Hl2]; inversion Hl2 as [|? ? ? Hl3]; inversion Hl3; subst.
    split_andb.
    destruct (utf8_char_4 b0 z z0 z1) as [Hc ?]; [done..|].
    eapply step; eauto; [by rewrite Hc|simpl; lia].
Qed.

Lemma eq_ignore_ascii_case_refl a : eq_ignore_ascii_case a a = true.
Proof. unfold eq_ignore_ascii_case. by rewrite bool_decide_eq_true. Qed.

Lemma eq_ignore_ascii_case_iff a b :
  eq_ignore_ascii_case a b = true <-> ascii_lower <$> a = ascii_lower <$> b.
Proof. unfold eq_ignore_ascii_case. by rewrite bool_decide_eq_true. Qed.

(** *** Trimming *)

Lemma trim_start_id s : (forall c, head s = Some c -> is_whitespace c = false) -> trim_start s = s.
Proof. destruct s as [|c s]; [done|]. intros H. simpl. by rewrite (H c). Qed.

Lemma trim_id s :
  (forall c, head s = Some c -> is_whitespace c = false) ->
  (forall c, last s = Some c -> is_whitespace c = false) -> trim s = s.
Proof.
  intros Hh Hl. unfold trim. rewrite (trim_start_id s Hh).
  rewrite trim_start_id; [apply reverse_involutive|].
  intros c Hc. apply Hl. by rewrite <- head_reverse.
Qed.

Lemma trim_plain s : Forall (fun c => is_whitespace c = false) s -> trim s = s.
Proof.
  intros Hs. apply trim_id; intros c Hc; rewrite Forall_forall in Hs; apply Hs.
  - by apply head_Some_elem_of.
  - by apply last_Some_elem_of.
Qed.

(** *** Text kept as bytes *)

Lemma ascii_bytes_append s t : ascii_bytes (s ++ t) = ascii_bytes s ++ ascii_bytes t.
Proof.
  induction s as [|c s IH]; [done|].
  change (Z.of_nat (Ascii.nat_of_ascii c) :: ascii_bytes (s ++ t) = Z.of_nat (Ascii.nat_of_ascii c) :: ascii_bytes s ++ ascii_bytes t).
  by rewrite IH.
Qed.

Lemma ascii_bytes_bytes s : bytes_ok (ascii_bytes s).
Proof.
  unfold ascii_bytes. induction s as [|c s IH]; [constructor|]. cbn. constructor; [|exact IH].
  unfold is_byte. pose proof (Ascii.nat_ascii_bounded c). lia.
Qed.

Lemma str_of_ascii_bytes s : str_of_bytes (ascii_bytes s) = s.
Proof.
  unfold str_of_bytes, ascii_bytes. induction s as [|c s IH]; [done|]. cbn.
  rewrite Nat2Z.id, Ascii.ascii_nat_embedding. f_equal. exact IH.
Qed.

Lemma utf8_ascii_id l : Forall (fun b => 0 <= b < 128) l -> utf8_encode l = l /\ utf8_decode l = Some l.
Proof.
  intros Hl. assert (utf8_encode l = l) as E.
  { induction Hl as [|b l Hb _ IH]; [done|]. rewrite utf8_encode_cons, IH. unfold utf8_char.
    by rewrite (proj2 (Z.ltb_lt b _)) by lia. }
  split; [done|]. rewrite <- E at 1. apply utf8_decode_encode. eapply Forall_impl; [exact Hl|].
  intros b Hb. unfold is_scalar. cbn in Hb. lia.
Qed.

Lemma ascii_bytes_of_bytes l : bytes_ok l -> ascii_bytes (str_of_bytes l) = l.
Proof.
  unfold str_of_bytes, ascii_bytes. induction 1 as [|b l Hb _ IH]; [done|]. unfold is_byte in Hb. cbn.
  rewrite Ascii.nat_ascii_embedding by lia. rewrite Z2Nat.id by lia. f_equal. exact IH.
Qed.

Lemma trim_start_suffix s : exists w, s = w ++ trim_start s /\ Forall (fun c => is_whitespace c = true) w.
Proof.
  induction s as [|c s (w & Hs & Hw)]; [by exists []|]. cbn [trim_start]. destruct (is_whitespace c) eqn:E.
  - exists (c :: w). split; [by rewrite Hs at 1|by constructor].
  - by exists [].
Qed.

Lemma trim_start_head s c : head (trim_start s) = Some c -> is_whitespace c = false.
Proof.
  induction s as [|x s IH]; [done|]. cbn [trim_start]. destruct (is_whitespace x) eqn:E; [done|]. by intros [= ->].
Qed.

Lemma trim_ends s :
  (forall c, head (trim s) = Some c -> is_whitespace c = false) /\ (forall c, last (trim s) = Some c -> is_whitespace c = false).
Proof.
  unfold trim. split; intros c.
  - rewrite head_reverse. intros Hl. destruct (trim_start_suffix (reverse (trim_start s))) as (w & Hs & _).
    apply (trim_start_head s). rewrite <- last_reverse, Hs. by rewrite last_app, Hl.
  - rewrite last_reverse. apply trim_start_head.
Qed.

Lemma trim_idem s : trim (trim s) = trim s.
Proof. apply trim_id; apply trim_ends. Qed.

Lemma trim_elem s c : c ∈ trim s -> c ∈ s.
Proof.
  unfold trim. rewrite elem_of_reverse. intros Hc.
  destruct (trim_start_suffix (reverse (trim_start s))) as (w & Hs & _).
  destruct (trim_start_suffix s) as (w' & Hs' & _). rewrite Hs', elem_of_app. right.
  apply elem_of_reverse. rewrite Hs, elem_of_app. by right.
Qed.

Lemma trim_str_idem s : trim_str (trim_str s) = trim_str s.
Proof.
  unfold trim_str. destruct (utf8_decode (ascii_bytes s)) as [chars|] eqn:E; [|by rewrite E].
  destruct (utf8_encode_decode _ _ (ascii_bytes_bytes s) E) as [_ Hok].
  assert (str_ok (trim chars)) as Ht.
  { apply Forall_forall. intros c Hc%trim_elem. by apply (proj1 (Forall_forall _ _) Hok). }
  rewrite ascii_bytes_of_bytes by by apply utf8_encode_ok. rewrite utf8_decode_encode by done. by rewrite trim_idem.
Qed.
