(* ===== verification/Der.v ===== *)
(** * The DER reader and writer of the Kerberos acceptor

    Models [api/src/kerberos/der.rs]. A [Reader] is the slice it has left;
    a method that takes [&mut self] returns what it read together with the
    slice left afterwards. A failed read ends every caller with [?], so the
    reader left behind by an error is never looked at and is not modelled.
    Dates go through the chrono crate, which is the interface [Chrono]. *)

From S2P Require Import Prelude Utf8.

Definition INTEGER : Z := 0x02.
Definition BIT_STRING : Z := 0x03.
Definition OCTET_STRING : Z := 0x04.
Definition OID : Z := 0x06.
Definition ENUMERATED : Z := 0x0a.
Definition GENERALIZED_TIME : Z := 0x18.
Definition GENERAL_STRING : Z := 0x1b.
Definition SEQUENCE : Z := 0x30.

(** [[n]] constructed, context-specific. *)
Definition ctx (n : Z) : Z := Z.lor 0xa0 n.

(** [[APPLICATION n]] constructed. *)
Definition der_app (n : Z) : Z := Z.lor 0x60 n.

(** [DerError(&'static str)]. *)
Inductive DerError := mkDerError (msg : string).
#[export] Instance DerError_eq_dec : EqDecision DerError.
Proof. solve_decision. Defined.
Definition derr {A} (msg : string) : result DerError A := Err (mkDerError msg).

(** ** Reading *)

Definition is_empty (buf : list Z) : bool := match buf with [] => true | _ => false end.

Definition peek_tag (buf : list Z) : option Z := head buf.

(** The value of the long-form length bytes. *)
Definition long_len (bs : list Z) : Z :=
  foldl (fun len b => Z.lor (Z.shiftl len 8) b) 0 bs.

(** [Reader::item]: the next item's tag and content, and what follows. *)
Definition item (buf : list Z) : result DerError (Z * list Z * list Z) :=
  match buf with
  | [] => derr "truncated"
  | tag :: rest =>
      if Z.land tag 0x1f =? 0x1f then derr "multi-byte tag" else
      match rest with
      | [] => derr "truncated length"
      | first :: rest =>
          let? (len, rest) :=
            if first <? 0x80 then Ok (first, rest)
            else
              let n := Z.land first 0x7f in
              if n =? 0 then derr "indefinite length"
              else if (3 <? n) || (zlen rest <? n) then derr "length out of range"
              else Ok (long_len (take (Z.to_nat n) rest), drop (Z.to_nat n) rest) in
          if zlen rest <? len then derr "content runs past the end"
          else Ok (tag, take (Z.to_nat len) rest, drop (Z.to_nat len) rest)
      end
  end.

(** [Reader::expect]. *)
Definition expect (tag : Z) (buf : list Z) : result DerError (list Z * list Z) :=
  let? (t, content, rest) := item buf in
  if t =? tag then Ok (content, rest) else derr "unexpected tag".

(** [Reader::optional]. *)
Definition optional (tag : Z) (buf : list Z) : result DerError (option (list Z) * list Z) :=
  if bool_decide (peek_tag buf = Some tag) then
    let? (content, rest) := expect tag buf in Ok (Some content, rest)
  else Ok (None, buf).

(** The content of the one item [buf] holds, which must carry [tag]. *)
Definition single (buf : list Z) (tag : Z) : result DerError (list Z) :=
  let? (content, rest) := expect tag buf in
  if negb (is_empty rest) then derr "trailing data" else Ok content.

(** [Reader::explicit]: [[n] EXPLICIT inner]. *)
Definition explicit (n inner : Z) (buf : list Z) : result DerError (list Z * list Z) :=
  let? (wrapped, rest) := expect (ctx n) buf in
  let? content := single wrapped inner in Ok (content, rest).

(** [Reader::explicit_opt]. *)
Definition explicit_opt (n inner : Z) (buf : list Z)
    : result DerError (option (list Z) * list Z) :=
  let? (o, rest) := optional (ctx n) buf in
  match o with
  | Some wrapped => let? content := single wrapped inner in Ok (Some content, rest)
  | None => Ok (None, rest)
  end.

(** [Reader::skip_until]: the loop, with the bytes left as its bound. *)
Fixpoint skip_until_loop (fuel : nat) (until : Z) (buf : list Z) : result DerError (list Z) :=
  match fuel with
  | O => Ok buf
  | S fuel =>
      match peek_tag buf with
      | Some tag =>
          if (ctx until <=? tag) || negb (Z.land tag 0xe0 =? 0xa0) then Ok buf
          else let? (_, _, rest) := item buf in skip_until_loop fuel until rest
      | None => Ok buf
      end
  end.
Definition skip_until (until : Z) (buf : list Z) : result DerError (list Z) :=
  skip_until_loop (length buf) until buf.

(** An INTEGER's content as an [i64]. *)
Definition int_step (v b : Z) : Z := Z.lor (as_i64 (Z.shiftl v 8)) b.
Definition int (content : list Z) : result DerError Z :=
  match content with
  | [] => derr "integer out of range"
  | b0 :: _ =>
      if 8 <? zlen content then derr "integer out of range"
      else Ok (foldl int_step (if negb (Z.land b0 0x80 =? 0) then -1 else 0) content)
  end.

(** A KerberosString, accepted as UTF-8. *)
Definition der_string (content : list Z) : result DerError (list Z) :=
  if 1024 <? zlen content then derr "string too long"
  else ok_or (utf8_decode content) (mkDerError "string is not UTF-8").

(** Bit [i] of a BIT STRING's content (bit 0 is the first byte's top bit). *)
Definition bit (content : list Z) (i : nat) : bool :=
  match content !! (1 + i / 8)%nat with
  | Some b => negb (Z.land b (Z.shiftr 0x80 (Z.of_nat (i mod 8))) =? 0)
  | None => false
  end.

(** What the reader uses of chrono: a proleptic Gregorian date, refused when
    it does not exist, and a time of day on it; a [DateTime<Utc>] is its
    number of nanoseconds since the epoch. *)
Class Chrono := {
  NaiveDate : Type;
  from_ymd_opt : Z -> Z -> Z -> option NaiveDate;
  and_hms_opt : NaiveDate -> Z -> Z -> Z -> option Z;
  (** [format("%Y%m%d%H%M%SZ")] *)
  format_time : Z -> list Z
}.

(** [n] decimal digits of [v], in ASCII. *)
Fixpoint dec_digits (n : nat) (v : Z) : list Z :=
  match n with O => [] | S n => dec_digits n (v / 10) ++ [48 + v mod 10] end.

Definition NANOS : Z := 1000000000.

(** A time without its fraction of a second. *)
Definition whole (t : Z) : Z := t / NANOS * NANOS.

(** What chrono documents of them: a time between 1970 and the end of 9999 is
    formatted as the zero-padded fields of a date and a time of day from
    which the constructors rebuild it to the second; the format shows no
    fraction. *)
Class ChronoLaws `{Chrono} := {
  format_time_spec t :
    0 <= t < 253402300800 * NANOS ->
    exists y mo d h mi s date,
      format_time t = dec_digits 4 y ++ dec_digits 2 mo ++ dec_digits 2 d
                      ++ dec_digits 2 h ++ dec_digits 2 mi ++ dec_digits 2 s ++ [90]
      /\ 0 <= y < 10000 /\ 0 <= mo < 100 /\ 0 <= d < 100
      /\ 0 <= h < 100 /\ 0 <= mi < 100 /\ 0 <= s < 100
      /\ from_ymd_opt y mo d = Some date /\ and_hms_opt date h mi s = Some (whole t);
  format_time_whole t : 0 <= t < 253402300800 * NANOS -> format_time (whole t) = format_time t
}.

Definition is_digit (b : Z) : bool := (48 <=? b) && (b <=? 57).

(** A KerberosTime: [YYYYMMDDHHMMSSZ], no fractions. *)
Definition digits (content : list Z) (a b : nat) : Z :=
  foldl (fun acc d => acc * 10 + (d - 48)) 0 (take (b - a) (drop a content)).
Definition time `{Chrono} (content : list Z) : result DerError Z :=
  let n := digits content in
  if negb (zlen content =? 15)
     || negb (bool_decide (content !! 14%nat = Some 90))
     || negb (forallb is_digit (take 14 content))
  then derr "bad KerberosTime"
  else
    let? date := ok_or (from_ymd_opt (n 0 4)%nat (n 4 6)%nat (n 6 8)%nat)
                   (mkDerError "bad date") in
    ok_or (and_hms_opt date (n 8 10)%nat (n 10 12)%nat (n 12 14)%nat)
      (mkDerError "bad time").

(** ** Writing *)

Fixpoint skip_zeros (l : list Z) : list Z :=
  match l with
  | b :: l' => if b =? 0 then skip_zeros l' else l
  | [] => []
  end.

(** The length octets, short or long form. *)
Definition len_octets (len : Z) : list Z :=
  if len <? 0x80 then [as_u8 len]
  else
    let bytes := skip_zeros (be_bytes 8 len) in
    as_u8 (Z.lor 0x80 (zlen bytes)) :: bytes.

(** One item. *)
Definition tlv (tag : Z) (content : list Z) : list Z :=
  tag :: len_octets (zlen content) ++ content.

(** Several items one after another. *)
Definition der_concat (items : list (list Z)) : list Z := concat items.

(** The loop of [enc_int]: [&bytes[start..]]. *)
Fixpoint int_strip (bytes : list Z) : list Z :=
  match bytes with
  | b :: ((next :: _) as rest) =>
      if ((b =? 0) && (Z.land next 0x80 =? 0))
         || ((b =? 0xff) && negb (Z.land next 0x80 =? 0))
      then int_strip rest else bytes
  | _ => bytes
  end.
Definition enc_int (v : Z) : list Z := tlv INTEGER (int_strip (be_bytes 8 v)).

Definition enc_time `{Chrono} (t : Z) : list Z := tlv GENERALIZED_TIME (format_time t).

(** [[n] EXPLICIT] around an encoded item. *)
Definition enc_explicit (n : Z) (inner : list Z) : list Z := tlv (ctx n) inner.

(** ** Lemmas *)

(** A tag the reader accepts: one byte, low five bits not all set. *)
Definition tag_ok (tag : Z) : Prop := is_byte tag /\ Z.land tag 0x1f <> 0x1f.

#[export] Instance tag_ok_dec tag : Decision (tag_ok tag).
Proof. unfold tag_ok. apply _. Defined.

Lemma long_len_be_val bs : bytes_ok bs -> long_len bs = be_val bs.
Proof.
  unfold long_len, be_val. generalize 0.
  induction bs as [|b bs IH]; intros acc Hbs; [done|].
  apply bytes_ok_cons in Hbs as [Hb Hbs]. cbn [foldl].
  by rewrite shift_in_byte, IH.
Qed.

(** *** What [item] reads *)

Lemma item_inv buf t c rest :
  item buf = Ok (t, c, rest) ->
  exists hdr, buf = t :: hdr ++ c ++ rest /\ (1 <= length hdr <= 4)%nat
              /\ Z.land t 0x1f <> 0x1f.
Proof.
  unfold item, derr. intros H. chain H; bool_hyps; simplify_eq.
  all: match goal with E : (if _ then _ else _) = Ok _ |- _ => chain E end; bool_hyps; simplify_eq.
  - eexists [_]. simpl. rewrite take_drop. repeat split; (done || lia).
  - match goal with
    | |- context [take (Z.to_nat (Z.land ?f 127)) ?r] =>
        exists (f :: take (Z.to_nat (Z.land f 127)) r)
    end.
    split; [by cbn [app]; rewrite !take_drop|]. cbn [length]. rewrite length_take. unfold zlen in *.
    split; [|done]. lia.
Qed.

Lemma item_shorter buf t c rest :
  item buf = Ok (t, c, rest) -> (length rest + 2 <= length buf)%nat.
Proof.
  intros (hdr & -> & Hl & _)%item_inv. simpl. rewrite !length_app. lia.
Qed.

Lemma item_bytes_ok buf t c rest :
  bytes_ok buf -> item buf = Ok (t, c, rest) -> is_byte t /\ bytes_ok c /\ bytes_ok rest.
Proof.
  intros Hb (hdr & -> & _)%item_inv.
  apply bytes_ok_cons in Hb as [? Hb]. apply bytes_ok_app in Hb as [_ Hb].
  apply bytes_ok_app in Hb as [? ?]. done.
Qed.

(** *** Writing, then reading *)

Lemma skip_zeros_replicate n l : skip_zeros (replicate n 0 ++ l) = skip_zeros l.
Proof. induction n as [|n IH]; [done|]. simpl. exact IH. Qed.

Lemma skip_zeros_be_val l : be_val (skip_zeros l) = be_val l.
Proof.
  induction l as [|b l IH]; [done|]. cbn [skip_zeros].
  destruct (Z.eqb_spec b 0) as [->|]; [|done]. rewrite IH.
  change (0 :: l) with ([0] ++ l). rewrite be_val_app. done.
Qed.

Lemma skip_zeros_length l : (length (skip_zeros l) <= length l)%nat.
Proof. induction l as [|b l IH]; simpl; [lia|]. case_match; simpl; lia. Qed.

Lemma skip_zeros_ok l : bytes_ok l -> bytes_ok (skip_zeros l).
Proof. induction 1; simpl; [constructor|]. case_match; [done|]. by constructor. Qed.

(** The long form of a length below [2 ^ 24] has one to three bytes. *)
Lemma len_bytes_short len :
  0x80 <= len < 2 ^ 24 -> (1 <= length (skip_zeros (be_bytes 8 len)) <= 3)%nat.
Proof.
  intros Hlen. split.
  - assert (be_val (skip_zeros (be_bytes 8 len)) = len) as Hv.
    { rewrite skip_zeros_be_val, be_val_be_bytes. apply Z.mod_small.
      change (256 ^ Z.of_nat 8) with (2 ^ 64). lia. }
    destruct (skip_zeros (be_bytes 8 len)); [|simpl; lia].
    change (be_val []) with 0 in Hv. lia.
  - change 8%nat with (5 + 3)%nat. rewrite be_bytes_split.
    change (256 ^ Z.of_nat 3) with (2 ^ 24).
    rewrite Z.div_small, be_bytes_0, skip_zeros_replicate by lia.
    etransitivity; [apply skip_zeros_length|]. by rewrite be_bytes_length.
Qed.

(** A length of [2 ^ 24] or more takes at least four. *)
Lemma len_bytes_long len :
  2 ^ 24 <= len < 2 ^ 64 -> (4 <= length (skip_zeros (be_bytes 8 len)) <= 8)%nat.
Proof.
  intros Hlen. split.
  - pose proof (be_val_bound (skip_zeros (be_bytes 8 len)) (skip_zeros_ok _ (be_bytes_ok _ _)))
      as Hb.
    rewrite skip_zeros_be_val, be_val_be_bytes in Hb.
    rewrite Z.mod_small in Hb by (change (256 ^ Z.of_nat 8) with (2 ^ 64); lia).
    unfold zlen in Hb.
    destruct (le_lt_dec 4 (length (skip_zeros (be_bytes 8 len)))); [done|exfalso].
    assert (256 ^ Z.of_nat (length (skip_zeros (be_bytes 8 len))) <= 256 ^ 3)
      by (apply Z.pow_le_mono_r; lia). lia.
  - etransitivity; [apply skip_zeros_length|]. by rewrite be_bytes_length.
Qed.

Lemma len_head n : (1 <= n <= 8)%nat ->
  as_u8 (Z.lor 0x80 (Z.of_nat n)) = 0x80 + Z.of_nat n
  /\ Z.land (0x80 + Z.of_nat n) 0x7f = Z.of_nat n.
Proof. intros Hn. do 9 (destruct n as [|n]; [by (split; reflexivity) || lia|]). lia. Qed.

Lemma item_tlv tag content rest :
  tag_ok tag -> zlen content < 2 ^ 24 ->
  item (tlv tag content ++ rest) = Ok (tag, content, rest).
Proof.
  intros [Ht Ht'] Hlen. pose proof (zlen_nonneg content) as Hpos.
  unfold tlv, len_octets, item. cbn [app].
  rewrite (proj2 (Z.eqb_neq _ _) Ht').
  destruct (Z.ltb_spec (zlen content) 0x80) as [Hs|Hs].
  - cbn [app]. unfold wrap_u. rewrite Z.mod_small by lia.
    rewrite (proj2 (Z.ltb_lt _ _)) by lia. rewrite zlen_app.
    rewrite (proj2 (Z.ltb_ge _ _)) by (pose proof (zlen_nonneg rest); lia).
    by rewrite zlen_to_nat, take_app_length, drop_app_length.
  - pose proof (len_bytes_short (zlen content) ltac:(lia)) as Hn.
    assert (be_val (skip_zeros (be_bytes 8 (zlen content))) = zlen content) as Hv.
    { rewrite skip_zeros_be_val, be_val_be_bytes. apply Z.mod_small.
      change (256 ^ Z.of_nat 8) with (2 ^ 64). lia. }
    pose proof (skip_zeros_ok _ (be_bytes_ok 8 (zlen content))) as Hok.
    set (bs := skip_zeros (be_bytes 8 (zlen content))) in *.
    destruct (len_head (length bs)) as [Hh Hl]; [lia|].
    change (Z.of_nat (length bs)) with (zlen bs) in Hh, Hl. rewrite Hh.
    cbn [app]. rewrite (proj2 (Z.ltb_ge _ 0x80)) by (unfold zlen; lia).
    rewrite Hl. rewrite (proj2 (Z.eqb_neq _ _)) by (unfold zlen; lia).
    rewrite (proj2 (Z.ltb_ge 3 _)) by (unfold zlen; lia).
    rewrite (proj2 (Z.ltb_ge _ (zlen bs)))
      by (rewrite !zlen_app; pose proof (zlen_nonneg content); pose proof (zlen_nonneg rest); lia).
    cbn [orb]. rewrite zlen_to_nat, <- !app_assoc.
    rewrite take_app_length, drop_app_length, long_len_be_val, Hv by done.
    rewrite (proj2 (Z.ltb_ge _ _)) by (rewrite zlen_app; pose proof (zlen_nonneg rest); lia).
    by rewrite zlen_to_nat, take_app_length, drop_app_length.
Qed.

Lemma item_tlv_too_long tag content rest :
  tag_ok tag -> 2 ^ 24 <= zlen content < 2 ^ 64 ->
  item (tlv tag content ++ rest) = derr "length out of range".
Proof.
  intros [Ht Ht'] Hlen. unfold tlv, len_octets, item. cbn [app].
  rewrite (proj2 (Z.eqb_neq _ _) Ht').
  rewrite (proj2 (Z.ltb_ge (zlen content) 0x80)) by lia.
  pose proof (len_bytes_long (zlen content) Hlen) as Hn.
  set (bs := skip_zeros (be_bytes 8 (zlen content))) in *.
  destruct (len_head (length bs)) as [Hh Hl]; [lia|].
  change (Z.of_nat (length bs)) with (zlen bs) in Hh, Hl. rewrite Hh.
  cbn [app]. rewrite (proj2 (Z.ltb_ge _ 0x80)) by (unfold zlen; lia).
  rewrite Hl. rewrite (proj2 (Z.eqb_neq _ _)) by (unfold zlen; lia).
  rewrite (proj2 (Z.ltb_lt 3 _)) by (unfold zlen; lia). done.
Qed.

Lemma len_octets_length len : (1 <= length (len_octets len) <= 9)%nat.
Proof.
  unfold len_octets. case_match; cbn [length]; [lia|].
  pose proof (skip_zeros_length (be_bytes 8 len)) as Hl.
  rewrite be_bytes_length in Hl. lia.
Qed.

(** An encoded item is at most ten bytes longer than its content. *)
Lemma tlv_length tag content :
  zlen content + 2 <= zlen (tlv tag content) <= zlen content + 10.
Proof.
  pose proof (len_octets_length (zlen content)) as Hl.
  unfold tlv. rewrite zlen_cons, zlen_app. unfold zlen in *. lia.
Qed.

Lemma tlv_ok tag content : is_byte tag -> bytes_ok content -> bytes_ok (tlv tag content).
Proof.
  intros Ht Hc. unfold tlv. apply bytes_ok_cons. split; [done|].
  apply bytes_ok_app. split; [|done]. unfold len_octets. case_match.
  - constructor; [|constructor]. apply Z.mod_pos_bound. lia.
  - constructor; [apply Z.mod_pos_bound; lia|]. apply skip_zeros_ok, be_bytes_ok.
Qed.

Lemma tlv_cons tag content : exists k, tlv tag content = tag :: k.
Proof. eexists. reflexivity. Qed.

Lemma peek_tlv tag content rest : peek_tag (tlv tag content ++ rest) = Some tag.
Proof. done. Qed.

Lemma expect_tlv tag content rest :
  tag_ok tag -> zlen content < 2 ^ 24 ->
  expect tag (tlv tag content ++ rest) = Ok (content, rest).
Proof. intros. unfold expect. rewrite item_tlv by done. by rewrite Z.eqb_refl. Qed.

Lemma single_tlv tag content :
  tag_ok tag -> zlen content < 2 ^ 24 -> single (tlv tag content) tag = Ok content.
Proof.
  intros. unfold single. rewrite <- (app_nil_r (tlv tag content)).
  by rewrite expect_tlv.
Qed.

Lemma optional_tlv tag content rest :
  tag_ok tag -> zlen content < 2 ^ 24 ->
  optional tag (tlv tag content ++ rest) = Ok (Some content, rest).
Proof.
  intros. unfold optional. rewrite peek_tlv, bool_decide_eq_true_2, expect_tlv by done. done.
Qed.

Lemma optional_other tag tag' content rest :
  tag' <> tag ->
  optional tag (tlv tag' content ++ rest) = Ok (None, tlv tag' content ++ rest).
Proof.
  intros. unfold optional. rewrite peek_tlv, bool_decide_eq_false_2; [done|]. congruence.
Qed.

Lemma optional_nil tag : optional tag [] = Ok (None, []).
Proof. done. Qed.

Definition small (content : list Z) : Prop := zlen content < 2 ^ 24 - 16.

Lemma tlv_small tag content : small content -> zlen (tlv tag content) < 2 ^ 24.
Proof. unfold small. intros. pose proof (tlv_length tag content). lia. Qed.

(** Bounds the size of nested encodings. *)
Ltac der_size :=
  unfold small, enc_explicit, enc_int, der_concat in *; cbn [concat] in *;
  repeat (rewrite ?zlen_app, ?zlen_cons in *;
    match goal with
    | |- context [zlen (tlv ?t ?c)] =>
        pose proof (tlv_length t c); generalize dependent (zlen (tlv t c)); intros
    | H : context [zlen (tlv ?t ?c)] |- _ =>
        pose proof (tlv_length t c); generalize dependent (zlen (tlv t c)); intros
    end);
  rewrite ?zlen_app, ?zlen_cons in *; change (@zlen Z []) with 0 in *; lia.

Lemma ctx_ok n : 0 <= n < 31 -> tag_ok (ctx n).
Proof.
  intros Hn. unfold tag_ok, is_byte, ctx.
  assert (n ∈ seqZ 0 31) as Hin by (apply elem_of_seqZ; lia).
  revert Hin.
  let l := eval vm_compute in (seqZ 0 31) in change (seqZ 0 31) with l.
  intros Hin. repeat (apply elem_of_cons in Hin as [->|Hin]; [vm_compute; intuition congruence|]).
  by apply elem_of_nil in Hin.
Qed.

Lemma explicit_enc n inner content rest :
  0 <= n < 31 -> tag_ok inner -> small content ->
  explicit n inner (enc_explicit n (tlv inner content) ++ rest) = Ok (content, rest).
Proof.
  intros Hn Hi Hs. unfold explicit, enc_explicit.
  rewrite expect_tlv by (by apply ctx_ok || by apply tlv_small).
  rewrite single_tlv; [done..|]. unfold small in Hs. lia.
Qed.

Lemma explicit_opt_enc n inner content rest :
  0 <= n < 31 -> tag_ok inner -> small content ->
  explicit_opt n inner (enc_explicit n (tlv inner content) ++ rest) = Ok (Some content, rest).
Proof.
  intros Hn Hi Hs. unfold explicit_opt, enc_explicit.
  rewrite optional_tlv by (by apply ctx_ok || by apply tlv_small).
  rewrite single_tlv; [done..|]. unfold small in Hs. lia.
Qed.

Lemma explicit_opt_other n inner tag content rest :
  tag <> ctx n ->
  explicit_opt n inner (tlv tag content ++ rest) = Ok (None, tlv tag content ++ rest).
Proof. intros. unfold explicit_opt. by rewrite optional_other. Qed.

(** *** Readers never read past their input *)

Lemma expect_inv tag buf c rest :
  expect tag buf = Ok (c, rest) -> item buf = Ok (tag, c, rest).
Proof.
  unfold expect. intros H. destruct (item buf) as [[[t c'] r']|e]; [|done].
  destruct (Z.eqb_spec t tag) as [->|]; [|done]. by inv_result.
Qed.

Lemma single_inv buf tag c : single buf tag = Ok c -> item buf = Ok (tag, c, []).
Proof.
  unfold single. intros H. destruct (expect tag buf) as [[c' r]|e] eqn:E; [|done].
  destruct r; simpl in H; [|done]. inv_result. by apply expect_inv.
Qed.

Lemma explicit_inv n inner buf c rest :
  explicit n inner buf = Ok (c, rest) ->
  exists w, item buf = Ok (ctx n, w, rest) /\ item w = Ok (inner, c, []).
Proof.
  unfold explicit. intros H. destruct (expect (ctx n) buf) as [[w r]|e] eqn:E; [|done].
  destruct (single w inner) eqn:E2; [|done]. inv_result.
  exists w. split; [by apply expect_inv|by apply single_inv].
Qed.

(** *** [skip_until] *)

Lemma skip_until_loop_enough f f' until buf :
  (length buf <= f)%nat -> (length buf <= f')%nat ->
  skip_until_loop f until buf = skip_until_loop f' until buf.
Proof.
  revert f' buf. induction f as [|f IH]; intros f' buf Hf Hf'.
  - destruct buf; [|simpl in Hf; lia]. by destruct f'.
  - destruct f' as [|f']; [destruct buf; [done|simpl in Hf'; lia]|].
    cbn [skip_until_loop]. destruct (peek_tag buf) as [tag|]; [|done].
    destruct (_ || _); [done|].
    destruct (item buf) as [[[t c] rest]|e] eqn:E; [|done].
    apply item_shorter in E. apply IH; lia.
Qed.

Lemma skip_until_unfold until buf :
  skip_until until buf =
  match peek_tag buf with
  | Some tag =>
      if (ctx until <=? tag) || negb (Z.land tag 0xe0 =? 0xa0) then Ok buf
      else let? (_, _, rest) := item buf in skip_until until rest
  | None => Ok buf
  end.
Proof.
  unfold skip_until. destruct buf as [|b buf]; [done|].
  cbn [length skip_until_loop]. cbn [peek_tag head].
  destruct (_ || _); [done|].
  destruct (item (b :: buf)) as [[[t c] rest]|e] eqn:E; [|done].
  apply item_shorter in E. apply skip_until_loop_enough; simpl in *; lia.
Qed.

(** *** INTEGER contents *)

(** The two's-complement value of a byte string. *)
Definition sval (l : list Z) : Z :=
  be_val l - (if 128 <=? hd 0 l then 256 ^ zlen l else 0).

Lemma land_0x80 b : is_byte b -> Z.land b 0x80 = if 128 <=? b then 128 else 0.
Proof.
  intros Hb. change 0x80 with (2 ^ 7) at 1.
  apply Z.bits_inj'. intros i Hi. rewrite Z.land_spec, Z.pow2_bits_eqb by lia.
  unfold is_byte in Hb.
  destruct (Z.eqb_spec 7 i) as [<-|Hne].
  - rewrite andb_true_r. rewrite Z.testbit_odd, Z.shiftr_div_pow2 by lia.
    change (2 ^ 7) with 128.
    destruct (Z.leb_spec 128 b).
    + replace (b / 128) with 1 by (Z.to_euclidean_division_equations; lia). done.
    + by rewrite Z.div_small by lia.
  - rewrite andb_false_r. destruct (128 <=? b); [|by rewrite Z.bits_0].
    change 128 with (2 ^ 7). rewrite Z.pow2_bits_eqb by lia.
    symmetry. by apply Z.eqb_neq.
Qed.

Lemma land_0x80_zero b : is_byte b -> (Z.land b 0x80 =? 0) = negb (128 <=? b).
Proof. intros Hb. rewrite land_0x80 by done. by destruct (128 <=? b). Qed.

Lemma wrap_shift8 v : as_i64 (v * 256) = wrap_s 56 v * 256.
Proof.
  unfold wrap_s. change (2 ^ (64 - 1)) with (2 ^ (56 - 1) * 256).
  change (2 ^ 64) with (2 ^ 56 * 256).
  rewrite <- Z.mul_add_distr_r, Z.mul_mod_distr_r by lia. lia.
Qed.

Lemma as_i64_cong a b : a mod 2 ^ 64 = b mod 2 ^ 64 -> as_i64 a = as_i64 b.
Proof. intros H. by rewrite <- wrap_s_mod, H, wrap_s_mod. Qed.

Lemma as_i64_mod a : as_i64 a mod 2 ^ 64 = a mod 2 ^ 64.
Proof. unfold wrap_s. rewrite Zminus_mod_idemp_l. f_equal. lia. Qed.

(** A step of the loop is [v * 256 + b] at 64 bits. *)
Lemma int_step_spec v b : is_byte b -> int_step v b = as_i64 (v * 256 + b).
Proof.
  intros Hb. unfold int_step. rewrite Z.shiftl_mul_pow2 by lia. change (2 ^ 8) with 256.
  rewrite wrap_shift8.
  assert (Z.lor (wrap_s 56 v * 256) b = wrap_s 56 v * 256 + b) as ->.
  { rewrite <- shift_in_byte by done. by rewrite Z.shiftl_mul_pow2 by lia. }
  rewrite <- wrap_shift8.
  pose proof (wrap_s_fits 56 v ltac:(lia)) as Hf. rewrite wrap_shift8.
  unfold fits_s in Hf. unfold is_byte in Hb.
  rewrite <- (wrap_s_id 64 (wrap_s 56 v * 256 + b)); [|lia|].
  2: { unfold fits_s. change (2 ^ (64 - 1)) with (2 ^ (56 - 1) * 256). lia. }
  rewrite <- wrap_shift8. apply as_i64_cong.
  by rewrite <- Zplus_mod_idemp_l, as_i64_mod, Zplus_mod_idemp_l.
Qed.

Lemma foldl_int_step v l :
  bytes_ok l -> as_i64 v = v ->
  foldl int_step v l = as_i64 (v * 256 ^ zlen l + be_val l).
Proof.
  intros Hl Hv. induction l as [|b l IH] using rev_ind.
  - simpl. change (be_val []) with 0. by rewrite Z.mul_1_r, Z.add_0_r.
  - apply bytes_ok_app in Hl as [Hl Hb]. apply Forall_cons in Hb as [Hb _].
    rewrite foldl_app. cbn [foldl]. rewrite int_step_spec, IH, be_val_app by done.
    rewrite zlen_app. change (zlen [b]) with 1. change (be_val [b]) with b.
    rewrite Z.pow_add_r, Z.pow_1_r by (pose proof (zlen_nonneg l); lia).
    apply as_i64_cong. rewrite <- Zplus_mod_idemp_l, <- Zmult_mod_idemp_l, as_i64_mod,
      Zmult_mod_idemp_l, Zplus_mod_idemp_l. f_equal. lia.
Qed.

Lemma sval_range l : bytes_ok l -> l <> [] -> - 256 ^ zlen l <= 2 * sval l < 256 ^ zlen l.
Proof.
  intros Hl Hne. destruct l as [|b l]; [done|].
  apply bytes_ok_cons in Hl as [Hb Hl]. unfold sval. cbn [hd].
  change (b :: l) with ([b] ++ l). rewrite be_val_app, zlen_app.
  change (zlen [b]) with 1. change (be_val [b]) with b.
  rewrite Z.pow_add_r, Z.pow_1_r by (pose proof (zlen_nonneg l); lia).
  pose proof (be_val_bound l Hl). unfold is_byte in Hb.
  destruct (Z.leb_spec 128 b); nia.
Qed.

(** [int] reads the two's-complement value of one to eight bytes. *)
Lemma int_sval l : bytes_ok l -> (1 <= length l <= 8)%nat -> int l = Ok (sval l).
Proof.
  intros Hl Hlen.
  assert (fits_s 64 (sval l)) as Hfit.
  { pose proof (sval_range l Hl) as Hr. destruct l; [simpl in Hlen; lia|].
    specialize (Hr ltac:(done)).
    assert (256 ^ zlen (z :: l) <= 256 ^ 8)
      by (apply Z.pow_le_mono_r; unfold zlen in *; lia).
    unfold fits_s. change (2 ^ (64 - 1)) with 9223372036854775808.
    change (256 ^ 8) with 18446744073709551616 in *. lia. }
  destruct l as [|b l]; [simpl in Hlen; lia|]. unfold int.
  rewrite (proj2 (Z.ltb_ge 8 _)) by (unfold zlen; lia). f_equal.
  assert (is_byte b) as Hb by (by inversion Hl).
  rewrite land_0x80_zero, negb_involutive by done.
  rewrite foldl_int_step; [|done|by case_match].
  rewrite <- (wrap_s_id 64 (sval (b :: l))) by done || lia.
  f_equal. unfold sval. cbn [hd]. case_match; lia.
Qed.

Lemma int_strip_step b next l :
  int_strip (b :: next :: l) =
  if ((b =? 0) && (Z.land next 0x80 =? 0))
     || ((b =? 0xff) && negb (Z.land next 0x80 =? 0))
  then int_strip (next :: l) else b :: next :: l.
Proof. done. Qed.

Lemma int_strip_spec l :
  bytes_ok l -> l <> [] ->
  sval (int_strip l) = sval l /\ bytes_ok (int_strip l)
  /\ (1 <= length (int_strip l) <= length l)%nat.
Proof.
  induction l as [|b l IH]; intros Hl Hne; [done|].
  destruct l as [|next l]; [by repeat split|].
  apply bytes_ok_cons in Hl as [Hb Hl]. rewrite int_strip_step.
  assert (is_byte next) as Hn by (by inversion Hl).
  destruct (_ || _) eqn:E; [|by repeat split; [constructor|simpl; lia..]].
  destruct (IH Hl ltac:(done)) as (IH1 & IH2 & IH3).
  split; [|split; [done|simpl in *; lia]]. rewrite IH1.
  rewrite land_0x80_zero, negb_involutive in E by done.
  unfold sval. cbn [hd]. change (b :: next :: l) with ([b] ++ next :: l).
  rewrite be_val_app, zlen_app. change (zlen [b]) with 1. change (be_val [b]) with b.
  rewrite Z.pow_add_r, Z.pow_1_r by (pose proof (zlen_nonneg (next :: l)); lia).
  unfold is_byte in Hb.
  destruct (Z.eqb_spec b 0), (Z.eqb_spec b 0xff), (Z.leb_spec 128 next),
    (Z.leb_spec 128 b); simpl in E; try done; lia.
Qed.

Lemma sval_be_bytes n v :
  (0 < n)%nat -> fits_s (8 * Z.of_nat n) v -> sval (be_bytes n v) = v.
Proof.
  intros Hn [Hl Hh]. unfold sval.
  assert (bytes_ok (be_bytes n v)) as Hok by apply be_bytes_ok.
  assert (2 ^ (8 * Z.of_nat n) = 256 ^ Z.of_nat n) as Hp
    by (rewrite Z.pow_mul_r by lia; done).
  assert (2 * 2 ^ (8 * Z.of_nat n - 1) = 256 ^ Z.of_nat n) as Hp2
    by (rewrite <- Hp, <- Z.pow_succ_r by lia; f_equal; lia).
  rewrite be_val_be_bytes. unfold zlen. rewrite be_bytes_length.
  destruct n as [|n]; [lia|].
  replace (S n) with (1 + n)%nat at 2 by lia. rewrite be_bytes_split. cbn [be_bytes app hd].
  replace (Z.of_nat (S n)) with (Z.succ (Z.of_nat n)) in * by lia.
  rewrite Z.pow_succ_r in * by lia.
  set (p := 256 ^ Z.of_nat n) in *. assert (0 < p) by (apply Z.pow_pos_nonneg; lia).
  set (h := 2 ^ (8 * Z.succ (Z.of_nat n) - 1)) in *.
  assert (-128 <= v / p < 128) as Hq.
  { split; [apply Z.div_le_lower_bound; lia|apply Z.div_lt_upper_bound; lia]. }
  destruct (Z.lt_ge_cases v 0) as [Hneg|Hpos].
  - assert (v / p < 0) by (apply Z.div_lt_upper_bound; lia).
    rewrite <- (Z.mod_add (v / p) 1), (Z.mod_small (v / p + 1 * 256)) by lia.
    rewrite (proj2 (Z.leb_le _ _)) by lia.
    rewrite <- (Z.mod_add v 1), Z.mul_1_l, Z.mod_small by lia. lia.
  - assert (0 <= v / p) by (apply Z.div_pos; lia).
    rewrite (Z.mod_small (v / p)) by lia.
    rewrite (proj2 (Z.leb_gt _ _)) by lia. rewrite Z.mod_small by lia. lia.
Qed.

(** *** Times *)

Lemma is_digit_mod v : is_digit (48 + v mod 10) = true.
Proof.
  unfold is_digit. pose proof (Z.mod_pos_bound v 10 ltac:(lia)).
  rewrite !(proj2 (Z.leb_le _ _)) by lia. done.
Qed.

Lemma dec4 v : 0 <= v < 10000 ->
  exists a b c d, dec_digits 4 v = [a; b; c; d]
    /\ is_digit a = true /\ is_digit b = true /\ is_digit c = true /\ is_digit d = true
    /\ (((a - 48) * 10 + (b - 48)) * 10 + (c - 48)) * 10 + (d - 48) = v.
Proof.
  intros Hv. do 4 eexists. split; [reflexivity|].
  repeat (split; [apply is_digit_mod|]). Z.to_euclidean_division_equations; lia.
Qed.

Lemma dec2 v : 0 <= v < 100 ->
  exists a b, dec_digits 2 v = [a; b] /\ is_digit a = true /\ is_digit b = true
    /\ (a - 48) * 10 + (b - 48) = v.
Proof.
  intros Hv. do 2 eexists. split; [reflexivity|].
  repeat (split; [apply is_digit_mod|]). Z.to_euclidean_division_equations; lia.
Qed.

Lemma time_format `{Chrono} `{!ChronoLaws} t :
  0 <= t < 253402300800 * NANOS ->
  time (format_time t) = Ok (whole t) /\ zlen (format_time t) = 15 /\ bytes_ok (format_time t).
Proof.
  intros Ht. destruct (format_time_spec t Ht) as
    (y & mo & d & h & mi & s & date & -> & Hy & Hmo & Hd & Hh & Hmi & Hs & Hdate & Htime).
  destruct (dec4 y Hy) as (y1 & y2 & y3 & y4 & -> & ? & ? & ? & ? & Ey).
  destruct (dec2 mo Hmo) as (m1 & m2 & -> & ? & ? & Em).
  destruct (dec2 d Hd) as (d1 & d2 & -> & ? & ? & Ed).
  destruct (dec2 h Hh) as (h1 & h2 & -> & ? & ? & Eh).
  destruct (dec2 mi Hmi) as (i1 & i2 & -> & ? & ? & Ei).
  destruct (dec2 s Hs) as (s1 & s2 & -> & ? & ? & Es).
  cbn [app]. split; [|split; [done|]].
  - unfold time, digits. cbn [zlen length]. cbn [take drop Nat.sub foldl lookup list_lookup].
    rewrite bool_decide_eq_true_2 by done. cbn [negb orb].
    cbn [forallb]. repeat match goal with Hd : is_digit _ = true |- _ => rewrite Hd; clear Hd end.
    change (negb (zlen ?l =? 15)) with false. cbn [negb andb orb].
    replace ((((0 * 10 + (y1 - 48)) * 10 + (y2 - 48)) * 10 + (y3 - 48)) * 10 + (y4 - 48)) with y by lia.
    replace ((0 * 10 + (m1 - 48)) * 10 + (m2 - 48)) with mo by lia.
    replace ((0 * 10 + (d1 - 48)) * 10 + (d2 - 48)) with d by lia.
    replace ((0 * 10 + (h1 - 48)) * 10 + (h2 - 48)) with h by lia.
    replace ((0 * 10 + (i1 - 48)) * 10 + (i2 - 48)) with mi by lia.
    replace ((0 * 10 + (s1 - 48)) * 10 + (s2 - 48)) with s by lia.
    rewrite Hdate. cbn [ok_or]. by rewrite Htime.
  - unfold is_digit in *. bool_hyps. repeat constructor; unfold is_byte; lia.
Qed.

Definition minimal (c : list Z) : Prop :=
  match c with
  | b :: n :: _ => ~ (b = 0 /\ n < 128) /\ ~ (b = 255 /\ 128 <= n)
  | _ => True
  end.

Lemma int_strip_minimal l : bytes_ok l -> minimal (int_strip l).
Proof.
  induction l as [|b l IH]; intros Hl; [done|]. destruct l as [|n l]; [done|].
  apply bytes_ok_cons in Hl as [Hb Hl]. rewrite int_strip_step.
  assert (is_byte n) as Hn by (by inversion Hl).
  destruct (_ || _) eqn:E; [by apply IH|].
  rewrite land_0x80_zero, negb_involutive in E by done. unfold minimal.
  destruct (Z.eqb_spec b 0), (Z.eqb_spec b 0xff), (Z.leb_spec 128 n); simpl in E; try done; lia.
Qed.

(** An encoded INTEGER, read back. *)
Lemma int_content v :
  fits_s 64 v ->
  bytes_ok (int_strip (be_bytes 8 v)) /\ (1 <= length (int_strip (be_bytes 8 v)) <= 8)%nat
  /\ int (int_strip (be_bytes 8 v)) = Ok v.
Proof.
  intros Hv. destruct (int_strip_spec (be_bytes 8 v) (be_bytes_ok 8 v)) as (Hs & Hb & Hl).
  { intros Hn. apply (f_equal length) in Hn. by rewrite be_bytes_length in Hn. }
  rewrite be_bytes_length in Hl. split; [done|]. split; [done|].
  rewrite int_sval, Hs by done. f_equal. by apply sval_be_bytes; [lia|].
Qed.

(** ** Theorems *)

(** an encoded item is read back, whatever follows it, when its content is
    shorter than [2 ^ 24] bytes; a longer one is refused, never misread. *)
Theorem item_of_tlv (tag : Z) (content rest : list Z) :
  tag_ok tag -> zlen content < 2 ^ 64 ->
  item (tlv tag content ++ rest) =
  if zlen content <? 2 ^ 24 then Ok (tag, content, rest) else derr "length out of range".
Proof.
  intros Ht Hl. destruct (Z.ltb_spec (zlen content) (2 ^ 24)).
  - by apply item_tlv.
  - by apply item_tlv_too_long.
Qed.

Lemma item_of_tlv_witness :
  item (tlv OCTET_STRING (replicate 200 7) ++ [1; 2]) = Ok (OCTET_STRING, replicate 200 7, [1; 2]).
Proof.
  apply (item_of_tlv OCTET_STRING (replicate 200 7) [1; 2]); [decide_now|vm_compute; reflexivity].
Defined.

(** every [i64] survives the DER INTEGER encoding, which is minimal: the
    written item reads back to the same number and carries no redundant
    leading byte. *)
Theorem int_of_enc_int (v : Z) :
  fits_s 64 v ->
  exists c, single (enc_int v) INTEGER = Ok c /\ int c = Ok v /\ minimal c.
Proof.
  intros Hv. destruct (int_content v Hv) as (Hb & Hl & Hi).
  exists (int_strip (be_bytes 8 v)).
  split; [|split; [done|apply int_strip_minimal, be_bytes_ok]].
  apply single_tlv; [decide_now|]. unfold zlen. lia.
Qed.

Lemma int_of_enc_int_witness :
  exists c, single (enc_int (-129)) INTEGER = Ok c /\ int c = Ok (-129) /\ minimal c.
Proof. apply (int_of_enc_int (-129)). unfold fits_s. lia. Defined.

(** the reader stays within its input. On any bytes, an item that is read
    is its tag, one to four length bytes and its content, taken from the
    front of the input, and exactly the remainder is left for the next read,
    so every read consumes at least two bytes. *)
Theorem item_within (buf : list Z) (t : Z) (c rest : list Z) :
  item buf = Ok (t, c, rest) ->
  exists hdr, buf = t :: hdr ++ c ++ rest /\ (1 <= length hdr <= 4)%nat
              /\ (length rest + 2 <= length buf)%nat.
Proof.
  intros Hi. destruct (item_inv _ _ _ _ Hi) as (hdr & Hb & Hl & _).
  exists hdr. split; [done|]. split; [done|]. by apply item_shorter in Hi.
Qed.

Lemma item_within_witness :
  exists hdr, [0x30; 0x81; 2; 7; 8; 9] = 0x30 :: hdr ++ [7; 8] ++ [9]
              /\ (1 <= length hdr <= 4)%nat
              /\ (length [9] + 2 <= length [0x30; 0x81; 2; 7; 8; 9])%nat.
Proof. apply (item_within [0x30; 0x81; 2; 7; 8; 9] 0x30 [7; 8] [9]). vm_compute. reflexivity. Defined.
