(* ===== verification/Principal.v ===== *)
(** * Kerberos principal names

    Models [api/src/kerberos/principal.rs]: the parser of [a/b@REALM] with
    its backslash escapes, the printer ([Display]) and the case-insensitive
    comparison. [normalize_realm] needs Unicode upper-casing tables and is
    left out. *)

From S2P Require Import Prelude Utf8.

Record Principal := mkPrincipal {
  components : list (list Z);
  realm : list Z
}.

#[export] Instance Principal_eq_dec : EqDecision Principal.
Proof. solve_decision. Defined.

(** Longest principal accepted anywhere (text form). *)
Definition MAX_LEN : Z := 512.

Definition SLASH : Z := 47.
Definition AT : Z := 64.
Definition BACKSLASH : Z := 92.

(** [components.last_mut().expect("never empty").push(ch)]. *)
Fixpoint push_last (l : list (list Z)) (ch : Z) : list (list Z) :=
  match l with
  | [] => []
  | [c] => [c ++ [ch]]
  | c :: l' => c :: push_last l' ch
  end.

(** The loop of [Principal::parse] over the characters, with the components
    and the realm read so far. *)
Fixpoint parse_loop (chars : list Z) (comps : list (list Z)) (rlm : option (list Z))
    : result string (list (list Z) * option (list Z)) :=
  match chars with
  | [] => Ok (comps, rlm)
  | c :: rest =>
      if c =? BACKSLASH then
        match rest with
        | [] => Err "ends with a lone backslash"
        | ch :: rest' =>
            if is_control ch then Err "contains a control character"
            else match rlm with
                 | Some r => parse_loop rest' comps (Some (r ++ [ch]))
                 | None => parse_loop rest' (push_last comps ch) None
                 end
        end
      else if (c =? SLASH) && bool_decide (rlm = None) then
        parse_loop rest (comps ++ [[]]) rlm
      else if c =? AT then
        match rlm with
        | None => parse_loop rest comps (Some [])
        | Some _ => Err "has more than one unescaped @"
        end
      else if is_control c then Err "contains a control character"
      else match rlm with
           | Some r => parse_loop rest comps (Some (r ++ [c]))
           | None => parse_loop rest (push_last comps c) None
           end
  end.

Definition nonempty {A} (l : list A) : bool := match l with [] => false | _ => true end.

(** [Principal::parse]. *)
Definition parse (raw : list Z) : result string Principal :=
  let raw := trim raw in
  if negb (nonempty raw) || (MAX_LEN <? str_len raw) then Err "must be 1-512 characters"
  else
    let? (comps, rlm) := parse_loop raw [[]] None in
    let? rlm := ok_or rlm "needs a realm: name@REALM" in
    if negb (nonempty rlm) then Err "has an empty realm"
    else if negb (forallb nonempty comps) then Err "has an empty name component"
    else Ok (mkPrincipal comps rlm).

(** The name without the realm, components joined by [/]. *)
Fixpoint join_slash (l : list (list Z)) : list Z :=
  match l with
  | [] => []
  | [c] => c
  | c :: l' => c ++ SLASH :: join_slash l'
  end.
Definition name (p : Principal) : list Z := join_slash (components p).

(** [eq_ignore_case]. *)
Fixpoint all_eq_ignore_case (a b : list (list Z)) : bool :=
  match a, b with
  | x :: a', y :: b' => eq_ignore_ascii_case x y && all_eq_ignore_case a' b'
  | _, _ => true
  end.
Definition eq_ignore_case (p q : Principal) : bool :=
  eq_ignore_ascii_case (realm p) (realm q)
  && (length (components p) =? length (components q))%nat
  && all_eq_ignore_case (components p) (components q).

(** [escape]. *)
Definition special (c : Z) : bool := (c =? SLASH) || (c =? AT) || (c =? BACKSLASH).
Definition escape (s : list Z) : list Z :=
  s ≫= (fun c => if special c then [BACKSLASH; c] else [c]).

(** [Display::fmt]. *)
Definition to_string (p : Principal) : list Z :=
  join_slash (escape <$> components p) ++ AT :: escape (realm p).

(** ** Lemmas *)

(** What [parse] guarantees of the principals it returns. *)
Definition plain (s : list Z) : Prop := s <> [] /\ Forall (fun c => is_control c = false) s.
Definition principal_ok (p : Principal) : Prop :=
  components p <> [] /\ Forall plain (components p) /\ plain (realm p).

Lemma push_last_snoc l c ch : push_last (l ++ [c]) ch = l ++ [c ++ [ch]].
Proof.
  induction l as [|x l IH]; [done|]. destruct l as [|y l]; [done|].
  change ((x :: y :: l) ++ [c]) with (x :: (y :: l) ++ [c]). cbn [push_last].
  by rewrite IH.
Qed.

(** Where the loop puts a character. *)
Definition put (ch : Z) (comps : list (list Z)) (rlm : option (list Z))
    : list (list Z) * option (list Z) :=
  match rlm with
  | Some r => (comps, Some (r ++ [ch]))
  | None => (push_last comps ch, None)
  end.

Lemma special_cases c :
  special c = false -> c <> SLASH /\ c <> AT /\ c <> BACKSLASH.
Proof. unfold special. intros. bool_hyps. done. Qed.

Lemma parse_loop_escaped_char c rest comps rlm :
  is_control c = false ->
  parse_loop ((if special c then [BACKSLASH; c] else [c]) ++ rest) comps rlm
  = parse_loop rest (put c comps rlm).1 (put c comps rlm).2.
Proof.
  intros Hc. destruct (special c) eqn:E; cbn [app parse_loop].
  - rewrite Z.eqb_refl, Hc. by destruct rlm.
  - destruct (special_cases c E) as (H1 & H2 & H3).
    rewrite !(proj2 (Z.eqb_neq _ _)) by done. cbn [andb]. rewrite Hc. by destruct rlm.
Qed.

Lemma parse_loop_escape_realm s rest comps r :
  Forall (fun c => is_control c = false) s ->
  parse_loop (escape s ++ rest) comps (Some r) = parse_loop rest comps (Some (r ++ s)).
Proof.
  intros Hs. revert r. induction Hs as [|c s Hc _ IH]; intros r; [by rewrite app_nil_r|].
  unfold escape in *. rewrite bind_cons, <- app_assoc.
  rewrite parse_loop_escaped_char by done. cbn [put fst snd].
  rewrite IH. by rewrite <- app_assoc.
Qed.

Lemma parse_loop_escape_comp s rest comps cur :
  Forall (fun c => is_control c = false) s ->
  parse_loop (escape s ++ rest) (comps ++ [cur]) None
  = parse_loop rest (comps ++ [cur ++ s]) None.
Proof.
  intros Hs. revert cur. induction Hs as [|c s Hc _ IH]; intros cur; [by rewrite app_nil_r|].
  unfold escape in *. rewrite bind_cons, <- app_assoc.
  rewrite parse_loop_escaped_char by done. cbn [put fst snd].
  rewrite push_last_snoc, IH. by rewrite <- app_assoc.
Qed.

Lemma parse_loop_slash rest comps :
  parse_loop (SLASH :: rest) comps None = parse_loop rest (comps ++ [[]]) None.
Proof. done. Qed.

Lemma parse_loop_at rest comps :
  parse_loop (AT :: rest) comps None = parse_loop rest comps (Some []).
Proof. done. Qed.

Lemma parse_loop_comps l rest comps :
  l <> [] -> Forall (Forall (fun c => is_control c = false)) l ->
  parse_loop (join_slash (escape <$> l) ++ rest) (comps ++ [[]]) None
  = parse_loop rest (comps ++ l) None.
Proof.
  intros Hne Hl. revert comps Hne. induction Hl as [|s l Hs Hl IH]; intros comps Hne; [done|].
  destruct l as [|s' l].
  - change (join_slash (escape <$> [s])) with (escape s).
    by rewrite parse_loop_escape_comp.
  - change (join_slash (escape <$> s :: s' :: l))
      with (escape s ++ SLASH :: join_slash (escape <$> s' :: l)).
    rewrite <- app_assoc, parse_loop_escape_comp by done. cbn [app].
    rewrite parse_loop_slash, IH by done. by rewrite <- app_assoc.
Qed.

Lemma parse_loop_to_string p :
  components p <> [] -> Forall (Forall (fun c => is_control c = false)) (components p) ->
  Forall (fun c => is_control c = false) (realm p) ->
  parse_loop (to_string p) [[]] None = Ok (components p, Some (realm p)).
Proof.
  intros Hne Hc Hr. unfold to_string.
  change [[]] with (([] : list (list Z)) ++ [[]]).
  rewrite parse_loop_comps by done. rewrite parse_loop_at.
  rewrite <- (app_nil_r (escape (realm p))), parse_loop_escape_realm by done. done.
Qed.

(** *** Trimming *)

Lemma head_to_string p c :
  components p <> [] -> Forall plain (components p) ->
  head (to_string p) = Some c ->
  c = BACKSLASH \/ exists s l, components p = s :: l /\ head s = Some c.
Proof.
  intros Hne Hc Hh. unfold to_string in Hh.
  destruct (components p) as [|s l]; [done|].
  apply Forall_cons in Hc as [[Hs _] _].
  destruct s as [|ch s]; [done|].
  assert (exists k, join_slash (escape <$> (ch :: s) :: l) =
            (if special ch then [BACKSLASH; ch] else [ch]) ++ k) as [k Hk].
  { destruct l as [|s' l]; [by eexists|].
    eexists. change (join_slash (escape <$> (ch :: s) :: s' :: l))
      with (escape (ch :: s) ++ SLASH :: join_slash (escape <$> s' :: l)).
    unfold escape at 1. rewrite bind_cons, <- app_assoc. reflexivity. }
  rewrite Hk in Hh. destruct (special ch); simpl in Hh; simplify_eq; [by left|].
  right. by exists (c :: s), l.
Qed.

Lemma last_escape s c : s <> [] -> last (escape s) = Some c -> last s = Some c.
Proof.
  intros Hs. destruct s as [|x s _] using rev_ind; [done|].
  unfold escape. rewrite bind_app, bind_cons, app_nil_r, !last_app.
  by destruct (special x).
Qed.

(** No white space at the ends, where parsing would trim it. *)
Definition untrimmed (p : Principal) : Prop :=
  (forall s c, head (components p) = Some s -> head s = Some c -> is_whitespace c = false)
  /\ (forall c, last (realm p) = Some c -> is_whitespace c = false).

Lemma trim_to_string p : principal_ok p -> untrimmed p -> trim (to_string p) = to_string p.
Proof.
  intros (Hne & Hc & Hr & Hrc) [Hf Hl]. apply trim_id.
  - intros c Hh. destruct (head_to_string p c Hne Hc Hh) as [->|(s & l & Hs & Hh')]; [done|].
    apply (Hf s c); [by rewrite Hs|done].
  - intros c Hlast. apply Hl. unfold to_string in Hlast.
    rewrite last_app_cons, last_cons in Hlast.
    destruct (last (escape (realm p))) eqn:E; simplify_eq.
    + by apply last_escape.
    + apply last_None in E. destruct (realm p); [done|].
      unfold escape in E. rewrite bind_cons in E. by destruct (special z).
Qed.

(** *** What the loop builds *)

Definition clean (s : list Z) : Prop := Forall (fun c => is_control c = false) s.
Definition loop_inv (comps : list (list Z)) (rlm : option (list Z)) : Prop :=
  comps <> [] /\ Forall clean comps /\ (forall r, rlm = Some r -> clean r).

Lemma push_last_inv comps ch :
  comps <> [] -> Forall clean comps -> is_control ch = false ->
  push_last comps ch <> [] /\ Forall clean (push_last comps ch).
Proof.
  intros Hne Hc Hch. destruct comps as [|c l _] using rev_ind; [done|].
  rewrite push_last_snoc. apply Forall_app in Hc as [Hl Hx]. apply Forall_cons in Hx as [Hx _].
  split; [by destruct l|]. apply Forall_app. split; [done|]. constructor; [|constructor].
  apply Forall_app. split; [done|]. by constructor.
Qed.

Lemma put_inv ch comps rlm :
  loop_inv comps rlm -> is_control ch = false ->
  loop_inv (put ch comps rlm).1 (put ch comps rlm).2.
Proof.
  intros (Hne & Hc & Hr) Hch. destruct rlm as [r|]; simpl.
  - split; [done|]. split; [done|]. intros r' [= <-].
    apply Forall_app. split; [by apply Hr|]. by constructor.
  - destruct (push_last_inv comps ch) as [? ?]; [done..|]. by split.
Qed.

Lemma parse_loop_inv chars comps rlm comps' rlm' :
  loop_inv comps rlm -> parse_loop chars comps rlm = Ok (comps', rlm') ->
  loop_inv comps' rlm'.
Proof.
  remember (length chars) as n eqn:Hn. revert chars comps rlm Hn.
  induction (lt_wf n) as [n _ IH]. intros chars comps rlm -> Hinv H.
  destruct chars as [|c rest]; [by simplify_eq/=|]. cbn [parse_loop] in H.
  assert (forall ch k, is_control ch = false -> (length k < length (c :: rest))%nat ->
    match rlm with
    | Some r => parse_loop k comps (Some (r ++ [ch]))
    | None => parse_loop k (push_last comps ch) None
    end = Ok (comps', rlm') -> loop_inv comps' rlm') as Hput.
  { intros ch k Hch Hlen Hk. eapply (IH _ Hlen k _ _ eq_refl);
      [apply (put_inv ch); [exact Hinv|done]|]. by destruct rlm. }
  destruct (c =? BACKSLASH).
  { destruct rest as [|ch rest]; [done|]. destruct (is_control ch) eqn:Ech; [done|].
    eapply Hput; eauto. simpl. lia. }
  destruct (_ && _) eqn:Esl.
  { apply (IH (length rest) ltac:(simpl; lia) rest _ _ eq_refl) in H; [done|].
    destruct Hinv as (? & ? & ?). split; [by destruct comps|]. split; [|done].
    apply Forall_app. split; [done|]. repeat constructor. }
  destruct (c =? AT).
  { destruct rlm; [done|].
    apply (IH (length rest) ltac:(simpl; lia) rest _ _ eq_refl) in H; [done|].
    destruct Hinv as (? & ? & ?). split; [done|]. split; [done|].
    intros r [= <-]. constructor. }
  destruct (is_control c) eqn:Ec; [done|]. eapply Hput; eauto.
  simpl. lia.
Qed.

(** ** Theorems *)

(** parsing inverts printing. A principal whose parts are not empty and
    hold no control character, with no white space at its ends and at most
    512 bytes in text form, is read back exactly from its text form. *)
Theorem parse_to_string (p : Principal) :
  principal_ok p -> untrimmed p -> str_len (to_string p) <= MAX_LEN ->
  parse (to_string p) = Ok p.
Proof.
  intros Hok Hut Hlen. unfold parse. rewrite trim_to_string by done.
  rewrite (proj2 (Z.ltb_ge _ _)) by done.
  destruct Hok as (Hne & Hc & Hr & Hrc).
  assert (nonempty (to_string p) = true) as ->.
  { unfold to_string. by destruct (join_slash _). }
  cbn [negb orb]. rewrite parse_loop_to_string; [|done| |done].
  2: { eapply Forall_impl; [exact Hc|]. by intros s [_ ?]. }
  cbn [ok_or]. destruct (realm p) eqn:Er; [done|]. cbn [nonempty negb].
  assert (forallb nonempty (components p) = true) as ->.
  { apply forallb_Forall. eapply Forall_impl; [exact Hc|]. by intros [|] [? _]. }
  destruct p; simpl in *. by subst.
Qed.

Definition example_principal : Principal :=
  mkPrincipal [lit "HTTP"; lit "sso/a.example.com"] (lit "EXAMPLE.COM").

Lemma parse_to_string_witness : parse (to_string example_principal) = Ok example_principal.
Proof.
  apply (parse_to_string example_principal).
  - repeat split; try discriminate; repeat (constructor; try discriminate).
  - split; [by intros s c [= <-] [= <-]|by intros c [= <-]].
  - vm_compute. discriminate.
Defined.

(** every principal [parse] returns has at least one name component, and
    no component nor the realm is empty or holds a control character. *)
Theorem principal_parse_sound (raw : list Z) (p : Principal) :
  parse raw = Ok p -> principal_ok p.
Proof.
  unfold parse. intros H. destruct (_ || _); [done|].
  destruct (parse_loop (trim raw) [[]] None) as [[comps rlm]|e] eqn:E; [|done].
  destruct rlm as [r|]; [|done]. cbn [ok_or] in H.
  destruct r as [|x r]; [done|]. cbn [nonempty negb] in H.
  destruct (forallb nonempty comps) eqn:Ef; [|done]. cbn [negb] in H. inv_result.
  apply parse_loop_inv in E as (Hne & Hc & Hr); [|by repeat constructor].
  split; [done|]. cbn [components Principal.realm].
  split; [|split; [done|by apply Hr]].
  apply forallb_Forall in Ef. rewrite Forall_forall in *. intros s Hs.
  specialize (Ef s Hs). split; [by destruct s|by apply Hc].
Qed.

Lemma principal_parse_sound_witness : principal_ok example_principal.
Proof. apply (principal_parse_sound (lit " HTTP/sso\/a.example.com@EXAMPLE.COM ")). vm_compute. reflexivity. Defined.
