(* ===== verification/Keytab.v ===== *)
(** * MIT keytab files

    Models [api/src/kerberos/keytab.rs]: the cursor, the parser of a keytab
    file (format 0x0502) with its holes and limits, and the writer. The
    encryption-type tables are here too. *)

From S2P Require Import Prelude Utf8 Principal.

Definition MAX_KEYTAB_BYTES : Z := 64 * 1024.
Definition MAX_ENTRIES : Z := 256.

Definition ETYPE_AES128 : Z := 17.
Definition ETYPE_AES256 : Z := 18.
Definition ETYPE_AES128_SHA256 : Z := 19.
Definition ETYPE_AES256_SHA384 : Z := 20.

(** The key length an encryption type needs. *)
Definition etype_key_len (etype : Z) : option Z :=
  if (etype =? ETYPE_AES128) || (etype =? ETYPE_AES128_SHA256) then Some 16
  else if (etype =? ETYPE_AES256) || (etype =? ETYPE_AES256_SHA384) then Some 32
  else None.

Definition etype_supported (etype : Z) : bool := bool_decide (is_Some (etype_key_len etype)).

Definition etype_name (etype : Z) : string :=
  if etype =? 1 then "des-cbc-crc"
  else if etype =? 3 then "des-cbc-md5"
  else if etype =? 16 then "des3-cbc-sha1"
  else if etype =? ETYPE_AES128 then "aes128-cts-hmac-sha1-96"
  else if etype =? ETYPE_AES256 then "aes256-cts-hmac-sha1-96"
  else if etype =? ETYPE_AES128_SHA256 then "aes128-cts-hmac-sha256-128"
  else if etype =? ETYPE_AES256_SHA384 then "aes256-cts-hmac-sha384-192"
  else if etype =? 23 then "rc4-hmac"
  else if etype =? 24 then "rc4-hmac-exp"
  else if etype =? 25 then "camellia128-cts-cmac"
  else if etype =? 26 then "camellia256-cts-cmac"
  else "etype " +:+ pretty etype.

(** One key. *)
Record KeytabEntry := mkKeytabEntry {
  principal : Principal;
  kvno : Z;
  etype : Z;
  key : list Z
}.

#[export] Instance KeytabEntry_eq_dec : EqDecision KeytabEntry.
Proof. solve_decision. Defined.

(** What a keytab entry says, without its key. *)
Record KeytabEntryInfo := mkKeytabEntryInfo {
  info_principal : list Z;
  info_kvno : Z;
  info_etype : Z;
  info_etype_name : string;
  info_supported : bool
}.

Definition info (e : KeytabEntry) : KeytabEntryInfo :=
  mkKeytabEntryInfo (to_string (principal e)) (kvno e) (etype e)
    (etype_name (etype e)) (etype_supported (etype e)).

(** ** The cursor *)

Definition cur_take (n : Z) (buf : list Z) : result string (list Z * list Z) :=
  if zlen buf <? n then Err "truncated entry"
  else Ok (take (Z.to_nat n) buf, drop (Z.to_nat n) buf).

Definition cur_u8 (buf : list Z) : result string (Z * list Z) :=
  let? (b, buf) := cur_take 1 buf in Ok (be_val b, buf).

Definition cur_u16 (buf : list Z) : result string (Z * list Z) :=
  let? (b, buf) := cur_take 2 buf in Ok (be_val b, buf).

Definition cur_u32 (buf : list Z) : result string (Z * list Z) :=
  let? (b, buf) := cur_take 4 buf in Ok (be_val b, buf).

Definition cur_counted (buf : list Z) : result string (list Z * list Z) :=
  let? (n, buf) := cur_u16 buf in cur_take n buf.

Definition cur_text (buf : list Z) : result string (list Z * list Z) :=
  let? (raw, buf) := cur_counted buf in
  if (zlen raw =? 0) || (255 <? zlen raw)
  then Err "a principal name part is empty or too long"
  else let? s := ok_or (utf8_decode raw) "a principal name is not UTF-8" in Ok (s, buf).

(** ** Parsing *)

(** [for _ in 0..count { components.push(c.text()?) }]. *)
Fixpoint cur_texts (count : nat) (buf : list Z) : result string (list (list Z) * list Z) :=
  match count with
  | O => Ok ([], buf)
  | S count =>
      let? (s, buf) := cur_text buf in
      let? (ss, buf) := cur_texts count buf in Ok (s :: ss, buf)
  end.

Definition parse_entry (record : list Z) : result string KeytabEntry :=
  let? (count, c) := cur_u16 record in
  if (count =? 0) || (8 <? count) then Err "a principal has no or too many name parts"
  else
    let? (rlm, c) := cur_text c in
    let? (comps, c) := cur_texts (Z.to_nat count) c in
    let? (_, c) := cur_u32 c in
    let? (_, c) := cur_u32 c in
    let? (vno8, c) := cur_u8 c in
    let? (ety, c) := cur_u16 c in
    let? (k, c) := cur_counted c in
    if (zlen k =? 0) || (64 <? zlen k) then Err "a key has an impossible length"
    else
      let? kv :=
        if 4 <=? zlen c then
          let? (v, _) := cur_u32 c in Ok (if v =? 0 then vno8 else v)
        else Ok vno8 in
      match etype_key_len ety with
      | Some want =>
          if negb (zlen k =? want)
          then Err ("a " +:+ etype_name ety +:+ " key must be " +:+ pretty want +:+ " bytes")
          else Ok (mkKeytabEntry (mkPrincipal comps rlm) kv ety k)
      | None => Ok (mkKeytabEntry (mkPrincipal comps rlm) kv ety k)
      end.

(** The loop of [parse_keytab] over the records; [fuel] bounds it by the
    bytes left (every turn takes at least four). *)
Fixpoint parse_records (fuel : nat) (rest : list Z) (out : list KeytabEntry)
    : result string (list KeytabEntry) :=
  match fuel with
  | O => Ok out
  | S fuel =>
      match rest with
      | [] => Ok out
      | _ =>
          if zlen rest <? 4 then Err "truncated entry"
          else
            let size := as_i32 (be_val (take 4 rest)) in
            let rest := drop 4 rest in
            if size =? 0 then Ok out
            else
              let len := Z.abs size in
              if zlen rest <? len then Err "an entry runs past the end of the file"
              else
                let record := take (Z.to_nat len) rest in
                let rest := drop (Z.to_nat len) rest in
                if size <? 0 then parse_records fuel rest out
                else if zlen out =? MAX_ENTRIES
                then Err ("a keytab holds at most " +:+ pretty MAX_ENTRIES +:+ " keys")
                else
                  let? e := parse_entry record in
                  parse_records fuel rest (out ++ [e])
      end
  end.

(** Every entry of a keytab file. *)
Definition parse_keytab (bytes : list Z) : result string (list KeytabEntry) :=
  if MAX_KEYTAB_BYTES <? zlen bytes
  then Err ("a keytab is at most " +:+ pretty (MAX_KEYTAB_BYTES / 1024) +:+ " KiB")
  else
    match bytes with
    | 5 :: 2 :: rest => parse_records (length rest) rest []
    | 5 :: 1 :: _ => Err "keytab format 0x0501 (native byte order) is not supported"
    | _ => Err "not a keytab file"
    end.

(** ** Writing *)

Definition w_counted (b : list Z) : list Z := be_bytes 2 (as_u16 (zlen b)) ++ b.

(** The record of one entry. *)
Definition w_record (e : KeytabEntry) : list Z :=
  be_bytes 2 (as_u16 (zlen (components (principal e))))
  ++ w_counted (utf8_encode (realm (principal e)))
  ++ concat (w_counted ∘ utf8_encode <$> components (principal e))
  ++ be_bytes 4 1
  ++ be_bytes 4 0
  ++ [as_u8 (Z.land (kvno e) 0xff)]
  ++ be_bytes 2 (as_u16 (etype e))
  ++ w_counted (key e)
  ++ be_bytes 4 (kvno e).

(** The record behind its length. *)
Definition w_entry (e : KeytabEntry) : list Z :=
  be_bytes 4 (as_i32 (zlen (w_record e))) ++ w_record e.

Definition write_keytab (entries : list KeytabEntry) : list Z :=
  [5; 2] ++ concat (w_entry <$> entries).

(** ** Lemmas *)

Definition part_ok (s : list Z) : Prop := str_ok s /\ 1 <= str_len s <= 255.

#[export] Instance part_ok_dec s : Decision (part_ok s) | 100.
Proof. unfold part_ok. apply _. Defined.

(** The entries a keytab file can hold: what [parse_entry] returns. *)
Record entry_ok (e : KeytabEntry) : Prop := {
  eo_count : 1 <= zlen (components (principal e)) <= 8;
  eo_comps : Forall part_ok (components (principal e));
  eo_realm : part_ok (realm (principal e));
  eo_kvno : 0 <= kvno e < 2 ^ 32;
  eo_etype : 0 <= etype e < 2 ^ 16;
  eo_key : bytes_ok (key e) /\ 1 <= zlen (key e) <= 64;
  eo_key_len : forall want, etype_key_len (etype e) = Some want -> zlen (key e) = want
}.

Lemma cur_take_app a b n : n = zlen a -> cur_take n (a ++ b) = Ok (a, b).
Proof.
  intros ->. unfold cur_take. rewrite zlen_app.
  rewrite (proj2 (Z.ltb_ge _ _)) by (pose proof (zlen_nonneg b); lia).
  by rewrite zlen_to_nat, take_app_length, drop_app_length.
Qed.

Lemma be_val_small n v : 0 <= v < 256 ^ Z.of_nat n -> be_val (be_bytes n v) = v.
Proof. intros. rewrite be_val_be_bytes. by apply Z.mod_small. Qed.

Lemma zlen_be_bytes n v : zlen (be_bytes n v) = Z.of_nat n.
Proof. unfold zlen. by rewrite be_bytes_length. Qed.

Lemma cur_u8_app v b : 0 <= v < 256 -> cur_u8 (v :: b) = Ok (v, b).
Proof. intros. unfold cur_u8. by rewrite (cur_take_app [v] b). Qed.

Lemma cur_u16_app v b : 0 <= v < 2 ^ 16 -> cur_u16 (be_bytes 2 v ++ b) = Ok (v, b).
Proof.
  intros. unfold cur_u16. rewrite cur_take_app by (by rewrite zlen_be_bytes).
  by rewrite be_val_small.
Qed.

Lemma cur_u32_app v b : 0 <= v < 2 ^ 32 -> cur_u32 (be_bytes 4 v ++ b) = Ok (v, b).
Proof.
  intros. unfold cur_u32. rewrite cur_take_app by (by rewrite zlen_be_bytes).
  by rewrite be_val_small.
Qed.

Lemma cur_counted_app a b : zlen a < 2 ^ 16 -> cur_counted (w_counted a ++ b) = Ok (a, b).
Proof.
  intros Ha. pose proof (zlen_nonneg a). unfold cur_counted, w_counted, wrap_u.
  rewrite Z.mod_small by lia. rewrite <- app_assoc, cur_u16_app by lia.
  by apply cur_take_app.
Qed.

Lemma cur_text_app s b : part_ok s -> cur_text (w_counted (utf8_encode s) ++ b) = Ok (s, b).
Proof.
  intros [Hs Hlen]. unfold str_len in Hlen. unfold cur_text.
  rewrite cur_counted_app by lia.
  rewrite (proj2 (Z.eqb_neq _ _)), (proj2 (Z.ltb_ge _ _)) by lia. cbn [orb].
  by rewrite utf8_decode_encode.
Qed.

Lemma cur_texts_app ss b :
  Forall part_ok ss ->
  cur_texts (length ss) (concat (w_counted ∘ utf8_encode <$> ss) ++ b) = Ok (ss, b).
Proof.
  induction 1 as [|s ss Hs _ IH]; [done|]. cbn [length cur_texts fmap list_fmap concat].
  cbn [compose]. rewrite <- app_assoc, cur_text_app by done. by rewrite IH.
Qed.

Lemma land_0xff v : Z.land v 0xff = v mod 256.
Proof. change 0xff with (Z.ones 8). by rewrite Z.land_ones by lia. Qed.

Lemma parse_entry_w_record e : entry_ok e -> parse_entry (w_record e) = Ok e.
Proof.
  intros [Hn Hc Hr Hv Ht [Hk Hkl] Hwant]. unfold parse_entry, w_record.
  unfold wrap_u. rewrite land_0xff.
  rewrite !(Z.mod_small (zlen _)), (Z.mod_small (etype e)) by lia.
  rewrite Z.mod_mod by lia.
  rewrite cur_u16_app by lia.
  rewrite (proj2 (Z.eqb_neq _ _)), (proj2 (Z.ltb_ge 8 _)) by lia. cbn [orb].
  rewrite cur_text_app by done. rewrite zlen_to_nat, cur_texts_app by done.
  rewrite !cur_u32_app by lia. cbn [app].
  rewrite cur_u8_app by (apply Z.mod_pos_bound; lia).
  rewrite cur_u16_app by lia. rewrite cur_counted_app by lia.
  rewrite (proj2 (Z.eqb_neq (zlen _) _)), (proj2 (Z.ltb_ge _ _)) by lia. cbn [orb].
  rewrite zlen_be_bytes. change (4 <=? Z.of_nat 4) with true. cbn iota.
  rewrite <- (app_nil_r (be_bytes 4 (kvno e))), cur_u32_app by lia.
  assert ((if kvno e =? 0 then kvno e mod 2 ^ 8 else kvno e) = kvno e) as ->.
  { destruct (Z.eqb_spec (kvno e) 0) as [->|]; done. }
  destruct e as [[comps rlm] v t k]. cbn in *.
  destruct (etype_key_len t) as [want|] eqn:E; [|done].
  rewrite (Hwant want eq_refl), Z.eqb_refl. done.
Qed.

Lemma zlen_w_counted b : zlen (w_counted b) = 2 + zlen b.
Proof. unfold w_counted. rewrite zlen_app, zlen_be_bytes. done. Qed.

Lemma w_record_pos e : 0 < zlen (w_record e).
Proof. unfold w_record. rewrite zlen_app, zlen_be_bytes. pose proof (zlen_nonneg (A := Z)).
  match goal with |- context [zlen ?l] => pose proof (zlen_nonneg l); lia end.
Qed.

(** The bound on the loop is enough: more fuel changes nothing. *)
Lemma parse_records_enough f f' rest out :
  (length rest <= f)%nat -> (length rest <= f')%nat ->
  parse_records f rest out = parse_records f' rest out.
Proof.
  revert f' rest out. induction f as [|f IH]; intros f' rest out Hf Hf'.
  - destruct rest; [|simpl in Hf; lia]. by destruct f'.
  - destruct f' as [|f']; [destruct rest; [done|simpl in Hf'; lia]|].
    cbn [parse_records]. destruct rest as [|b rest]; [done|].
    destruct (Z.ltb_spec (zlen (b :: rest)) 4) as [|H4]; [done|].
    cbn zeta. destruct (_ =? 0); [done|]. destruct (_ <? _); [done|].
    unfold zlen in H4.
    assert (forall m, (length (drop m (drop 4 (b :: rest))) <= f)%nat
                   /\ (length (drop m (drop 4 (b :: rest))) <= f')%nat) as Hd.
    { intros m. rewrite !length_drop. simpl in *. lia. }
    destruct (_ <? _); [by apply IH; apply Hd|].
    destruct (_ =? _); [done|].
    destruct (parse_entry _); [|done]. apply IH; apply Hd.
Qed.

(** One written record is read as one entry. *)
Lemma parse_records_step fuel e rest out :
  entry_ok e -> zlen (w_record e) < 2 ^ 31 -> zlen out < MAX_ENTRIES ->
  parse_records (S fuel) (be_bytes 4 (as_i32 (zlen (w_record e))) ++ w_record e ++ rest) out
  = parse_records fuel rest (out ++ [e]).
Proof.
  intros He Hlen Hout. pose proof (w_record_pos e) as Hpos. cbn [parse_records].
  destruct (be_bytes 4 _ ++ _) as [|b0 l0] eqn:El.
  { apply (f_equal length) in El. rewrite length_app, be_bytes_length in El. simpl in El. lia. }
  rewrite <- El. clear b0 l0 El.
  rewrite wrap_s_id by (unfold fits_s; lia).
  rewrite !zlen_app, zlen_be_bytes.
  rewrite (proj2 (Z.ltb_ge _ 4)) by (pose proof (zlen_nonneg rest); lia). cbn zeta.
  rewrite take_app_length', drop_app_length' by (by rewrite be_bytes_length).
  rewrite be_val_be_bytes. change (256 ^ Z.of_nat 4) with (2 ^ 32).
  rewrite Z.mod_small by lia. rewrite wrap_s_id by (unfold fits_s; lia).
  rewrite (proj2 (Z.eqb_neq _ 0)) by lia. rewrite Z.abs_eq by lia.
  rewrite zlen_app, (proj2 (Z.ltb_ge _ (zlen (w_record e)))) by (pose proof (zlen_nonneg rest); lia).
  rewrite zlen_to_nat, take_app_length, drop_app_length.
  rewrite (proj2 (Z.ltb_ge _ 0)), (proj2 (Z.eqb_neq _ MAX_ENTRIES)) by lia.
  by rewrite parse_entry_w_record.
Qed.

Lemma parse_records_write entries out fuel :
  Forall entry_ok entries -> zlen out + zlen entries <= MAX_ENTRIES ->
  zlen (concat (w_entry <$> entries)) < 2 ^ 31 ->
  (length entries <= fuel)%nat ->
  parse_records fuel (concat (w_entry <$> entries)) out = Ok (out ++ entries).
Proof.
  intros He. revert out fuel. induction He as [|e es He Hes IH]; intros out fuel Hn Hlen Hf.
  - rewrite app_nil_r. by destruct fuel.
  - destruct fuel as [|fuel]; [simpl in Hf; lia|].
    cbn [fmap list_fmap concat] in *. unfold w_entry at 1. unfold w_entry at 1 in Hlen.
    rewrite !zlen_app, zlen_be_bytes in Hlen.
    pose proof (zlen_nonneg (concat (w_entry <$> es))). pose proof (w_record_pos e).
    rewrite zlen_cons in Hn. pose proof (zlen_nonneg es).
    rewrite <- app_assoc, parse_records_step by (done || lia).
    rewrite IH; [by rewrite <- app_assoc|rewrite zlen_app; change (zlen [e]) with 1; lia
      |lia|simpl in Hf; lia].
Qed.

Lemma write_length entries : (length entries <= length (concat (w_entry <$> entries)))%nat.
Proof.
  induction entries as [|e es IH]; [done|]. cbn [fmap list_fmap concat length].
  rewrite length_app. unfold w_entry at 1. rewrite length_app, be_bytes_length. lia.
Qed.

(** *** What the parser returns *)

Lemma cur_take_inv n buf a b :
  cur_take n buf = Ok (a, b) -> 0 <= n -> buf = a ++ b /\ zlen a = n.
Proof.
  unfold cur_take. intros H Hn. destruct (Z.ltb_spec (zlen buf) n); [done|].
  inv_result. simplify_eq. rewrite take_drop. split; [done|].
  unfold zlen in *. rewrite length_take. lia.
Qed.

Lemma cur_uint_inv n buf v b :
  bytes_ok buf -> 0 <= n ->
  (let? (x, r) := cur_take n buf in @Ok string _ (be_val x, r)) = Ok (v, b) ->
  0 <= v < 256 ^ n /\ bytes_ok b.
Proof.
  intros Hb Hn H. destruct (cur_take n buf) as [[x r]|] eqn:E; [|done].
  inv_result. simplify_eq. apply cur_take_inv in E as [-> Hx]; [|done].
  apply bytes_ok_app in Hb as [Hx' Hr]. pose proof (be_val_bound x Hx'). by rewrite Hx in *.
Qed.

Lemma cur_u8_inv buf v b :
  bytes_ok buf -> cur_u8 buf = Ok (v, b) -> 0 <= v < 2 ^ 8 /\ bytes_ok b.
Proof. intros Hb H. by apply (cur_uint_inv 1 buf v b Hb). Qed.

Lemma cur_u16_inv buf v b :
  bytes_ok buf -> cur_u16 buf = Ok (v, b) -> 0 <= v < 2 ^ 16 /\ bytes_ok b.
Proof. intros Hb H. by apply (cur_uint_inv 2 buf v b Hb). Qed.

Lemma cur_u32_inv buf v b :
  bytes_ok buf -> cur_u32 buf = Ok (v, b) -> 0 <= v < 2 ^ 32 /\ bytes_ok b.
Proof. intros Hb H. by apply (cur_uint_inv 4 buf v b Hb). Qed.

Lemma cur_counted_inv buf a b :
  bytes_ok buf -> cur_counted buf = Ok (a, b) -> bytes_ok a /\ bytes_ok b.
Proof.
  unfold cur_counted. intros Hb H. destruct (cur_u16 buf) as [[n r]|] eqn:E; [|done].
  apply cur_u16_inv in E as [Hn Hr]; [|done].
  apply cur_take_inv in H as [-> _]; [|lia]. by apply bytes_ok_app in Hr.
Qed.

Lemma cur_text_inv buf s b :
  bytes_ok buf -> cur_text buf = Ok (s, b) -> part_ok s /\ bytes_ok b.
Proof.
  unfold cur_text. intros Hb H. destruct (cur_counted buf) as [[raw r]|] eqn:E; [|done].
  apply cur_counted_inv in E as [Hraw Hr]; [|done].
  destruct (_ || _) eqn:El; [done|]. bool_hyps.
  destruct (utf8_decode raw) as [s'|] eqn:Ed; [|done]. cbn [ok_or] in H. inv_result. simplify_eq.
  apply utf8_encode_decode in Ed as [Henc Hs]; [|done].
  split; [|done]. split; [done|]. unfold str_len. rewrite Henc.
  pose proof (zlen_nonneg raw). lia.
Qed.

Lemma cur_texts_inv n buf ss b :
  bytes_ok buf -> cur_texts n buf = Ok (ss, b) ->
  Forall part_ok ss /\ length ss = n /\ bytes_ok b.
Proof.
  revert buf ss. induction n as [|n IH]; intros buf ss Hb H; cbn [cur_texts] in H.
  - inv_result. simplify_eq. by repeat split.
  - destruct (cur_text buf) as [[s r]|] eqn:E; [|done].
    apply cur_text_inv in E as [Hs Hr]; [|done].
    destruct (cur_texts n r) as [[ss' r']|] eqn:E2; [|done]. inv_result. simplify_eq.
    apply IH in E2 as (? & ? & ?); [|done]. split; [by constructor|]. split; [simpl; lia|done].
Qed.

Lemma parse_entry_ok record e :
  bytes_ok record -> parse_entry record = Ok e -> entry_ok e.
Proof.
  unfold parse_entry. intros Hb H.
  destruct (cur_u16 record) as [[count c1]|] eqn:E1; [|done].
  apply cur_u16_inv in E1 as [Hcount Hc1]; [|done].
  destruct (_ || _) eqn:Ec; [done|]. bool_hyps.
  destruct (cur_text c1) as [[rlm c2]|] eqn:E2; [|done].
  apply cur_text_inv in E2 as [Hrlm Hc2]; [|done].
  destruct (cur_texts _ c2) as [[comps c3]|] eqn:E3; [|done].
  apply cur_texts_inv in E3 as (Hcomps & Hlen & Hc3); [|done].
  destruct (cur_u32 c3) as [[nt c4]|] eqn:E4; [|done]. apply cur_u32_inv in E4 as [_ Hc4]; [|done].
  destruct (cur_u32 c4) as [[ts c5]|] eqn:E5; [|done]. apply cur_u32_inv in E5 as [_ Hc5]; [|done].
  destruct (cur_u8 c5) as [[vno8 c6]|] eqn:E6; [|done]. apply cur_u8_inv in E6 as [Hv8 Hc6]; [|done].
  destruct (cur_u16 c6) as [[ety c7]|] eqn:E7; [|done]. apply cur_u16_inv in E7 as [Hety Hc7]; [|done].
  destruct (cur_counted c7) as [[k c8]|] eqn:E8; [|done].
  apply cur_counted_inv in E8 as [Hk Hc8]; [|done].
  destruct (_ || _) eqn:Ek; [done|]. bool_hyps.
  destruct (if 4 <=? zlen c8 then _ else _) as [kv|] eqn:E9; [|done].
  assert (0 <= kv < 2 ^ 32) as Hkv.
  { destruct (4 <=? zlen c8); [|inv_result; lia].
    destruct (cur_u32 c8) as [[v c9]|] eqn:E10; [|done].
    apply cur_u32_inv in E10 as [Hv _]; [|done]. inv_result. destruct (v =? 0); lia. }
  pose proof (zlen_nonneg k).
  assert (e = mkKeytabEntry (mkPrincipal comps rlm) kv ety k /\
          forall want, etype_key_len ety = Some want -> zlen k = want) as [-> Hw].
  { destruct (etype_key_len ety) as [want|]; [|by inv_result].
    destruct (Z.eqb_spec (zlen k) want); [|done]. cbn [negb] in H. inv_result.
    split; [done|]. by intros ? [= <-]. }
  split; simpl; try done; [unfold zlen; lia|].
  split; [done|lia].
Qed.

Lemma parse_records_ok fuel rest out es :
  bytes_ok rest -> Forall entry_ok out -> zlen out <= MAX_ENTRIES ->
  parse_records fuel rest out = Ok es -> Forall entry_ok es /\ zlen es <= MAX_ENTRIES.
Proof.
  revert rest out. induction fuel as [|fuel IH]; intros rest out Hb Ho Hn H;
    cbn [parse_records] in H; [by inv_result|].
  destruct rest as [|b rest]; [by inv_result|]. set (r := b :: rest) in *.
  destruct (_ <? 4); [done|]. cbn zeta in H.
  destruct (_ =? 0); [by inv_result|]. destruct (_ <? _); [done|].
  destruct (_ <? 0); [by eapply IH; [|done..|exact H]; auto with bytes|].
  destruct (Z.eqb_spec (zlen out) MAX_ENTRIES) as [|Hlt]; [done|].
  destruct (parse_entry _) as [e|] eqn:E; [|done].
  eapply IH; [| |  |exact H]; [auto with bytes| |].
  - apply Forall_app. split; [done|]. constructor; [|constructor].
    eapply parse_entry_ok; [|exact E]. auto with bytes.
  - rewrite zlen_app. change (zlen [e]) with 1. lia.
Qed.

(** ** Theorems *)

(** a keytab file is read back. Up to 256 entries, each of them one a
    keytab can hold, whose file is at most 64 KiB, are recovered from the
    written file in order. *)
Theorem parse_write_keytab (entries : list KeytabEntry) :
  Forall entry_ok entries -> zlen entries <= MAX_ENTRIES ->
  zlen (write_keytab entries) <= MAX_KEYTAB_BYTES ->
  parse_keytab (write_keytab entries) = Ok entries.
Proof.
  intros He Hn Hlen. unfold parse_keytab.
  rewrite (proj2 (Z.ltb_ge _ _)) by done. unfold write_keytab. cbn [app].
  unfold write_keytab in Hlen. rewrite zlen_app in Hlen. change (zlen [5; 2]) with 2 in Hlen.
  unfold MAX_KEYTAB_BYTES in Hlen.
  rewrite parse_records_write; [done|done|done|lia|apply write_length].
Qed.

Definition example_entry : KeytabEntry :=
  mkKeytabEntry (mkPrincipal [lit "HTTP"; lit "sso.example.com"] (lit "EXAMPLE.COM"))
    7 ETYPE_AES128 (replicate 16 9).

Lemma parse_write_keytab_witness :
  parse_keytab (write_keytab [example_entry]) = Ok [example_entry].
Proof.
  apply (parse_write_keytab [example_entry]).
  - constructor; [|constructor].
    split; try decide_now. by intros want [= <-].
  - vm_compute. discriminate.
  - vm_compute. discriminate.
Defined.

(** what the keytab parser accepts. Whatever bytes are uploaded, every
    entry returned has one to eight name parts of 1 to 255 bytes of valid
    UTF-8, a 32-bit key version, a 16-bit encryption type and a key of 1 to
    64 bytes, of exactly the length its type needs when the type is an AES
    one; and there are at most 256 entries. *)
Theorem parse_keytab_sound (bytes : list Z) (entries : list KeytabEntry) :
  bytes_ok bytes -> parse_keytab bytes = Ok entries ->
  Forall entry_ok entries /\ zlen entries <= MAX_ENTRIES.
Proof.
  unfold parse_keytab. intros Hb H. destruct (_ <? _); [done|].
  repeat (case_match; try discriminate). subst.
  apply bytes_ok_cons in Hb as [_ Hb]. apply bytes_ok_cons in Hb as [_ Hb].
  eapply parse_records_ok; [exact Hb| | |exact H]; [constructor|by vm_compute].
Qed.

(** A file with a hole (a record of negative length) before its entry. *)
Definition example_file : list Z :=
  [5; 2] ++ be_bytes 4 (-3) ++ [1; 2; 3] ++ w_entry example_entry.

Lemma parse_keytab_sound_witness :
  Forall entry_ok [example_entry] /\ zlen [example_entry] <= MAX_ENTRIES.
Proof.
  apply (parse_keytab_sound example_file); [|vm_compute; reflexivity].
  decide_now.
Defined.
