(* ===== verification/Spnego.v ===== *)
(** * SPNEGO and Kerberos GSS-API tokens

    Models [api/src/kerberos/spnego.rs]: reading the initiator's
    [Authorization: Negotiate] token, the acceptor's answer, and the
    initiator's side of both ([wrap_ap_req], [ap_rep_of_answer]). *)

From S2P Require Import Prelude Utf8 Der.

Definition OID_SPNEGO : list Z := [0x2b; 0x06; 0x01; 0x05; 0x05; 0x02].
Definition OID_KRB5 : list Z := [0x2a; 0x86; 0x48; 0x86; 0xf7; 0x12; 0x01; 0x02; 0x02].
Definition OID_MS_KRB5 : list Z := [0x2a; 0x86; 0x48; 0x82; 0xf7; 0x12; 0x01; 0x02; 0x02].
Definition OID_NTLM : list Z := [0x2b; 0x06; 0x01; 0x04; 0x01; 0x82; 0x37; 0x02; 0x02; 0x0a].

Definition TOK_AP_REQ : list Z := [0x01; 0x00].
Definition TOK_AP_REP : list Z := [0x02; 0x00].

(** The OID the initiator named Kerberos by, echoed in the answer. *)
Inductive Mech := Krb5 | MsKrb5.
#[export] Instance Mech_eq_dec : EqDecision Mech.
Proof. solve_decision. Defined.

Definition oid (m : Mech) : list Z :=
  match m with Krb5 => OID_KRB5 | MsKrb5 => OID_MS_KRB5 end.

(** A Kerberos AP-REQ the browser offered. *)
Record Offer := mkOffer { ap_req : list Z; mech : Mech; spnego : bool }.

(** What an [Authorization: Negotiate] token holds. *)
Inductive Negotiated :=
| Kerberos (o : Offer)
| Ntlm
| Unsupported (why : string).

(** [b"NTLMSSP\0"]. *)
Definition NTLMSSP : list Z := ascii_bytes "NTLMSSP" ++ [0].

Fixpoint starts_with (l prefix : list Z) : bool :=
  match prefix, l with
  | [], _ => true
  | p :: prefix', x :: l' => (x =? p) && starts_with l' prefix'
  | _ :: _, [] => false
  end.

Definition mech_of (o : list Z) : option Mech :=
  if bool_decide (o = OID_KRB5) then Some Krb5
  else if bool_decide (o = OID_MS_KRB5) then Some MsKrb5
  else None.

(** [[APPLICATION 0] IMPLICIT SEQUENCE { thisMech OID, innerToken ANY }]. *)
Definition gss_frame (token : list Z) : result DerError (list Z * list Z) :=
  let? content := single token (der_app 0) in
  let? (o, rest) := expect OID content in
  Ok (o, rest).

(** The AP-REQ inside a Kerberos GSS token's inner part. *)
Definition ap_req_of (inner : list Z) : result DerError (list Z) :=
  match inner with
  | a :: b :: rest =>
      if bool_decide ([a; b] = TOK_AP_REQ) then
        let? _ := single rest (der_app 14) in Ok rest
      else derr "not a Kerberos AP-REQ token"
  | _ => derr "not a Kerberos AP-REQ token"
  end.

(** [NegotiationToken ::= CHOICE { negTokenInit [0] NegTokenInit, ... }]. *)
Definition parse_spnego (inner : list Z) : result DerError Negotiated :=
  let? init := single inner (ctx 0) in
  let? r := single init SEQUENCE in
  let? (mech_list, r) := explicit 0 SEQUENCE r in
  let? (first, _) := expect OID mech_list in
  let? (_, r) := optional (ctx 1) r in
  let? (token, _) := explicit_opt 2 OCTET_STRING r in
  match mech_of first with
  | None =>
      Ok (if bool_decide (first = OID_NTLM) then Ntlm
          else Unsupported "Kerberos is not the browser's first choice")
  | Some m =>
      match token with
      | None => Ok (Unsupported "no Kerberos token was sent")
      | Some token =>
          let? (o, inner) := gss_frame token in
          match mech_of o with
          | None => Ok (Unsupported "the token is not for the mechanism it was offered as")
          | Some _ => let? req := ap_req_of inner in Ok (Kerberos (mkOffer req m true))
          end
      end
  end.

(** Read the initiator's token. *)
Definition parse (token : list Z) : result DerError Negotiated :=
  if starts_with token NTLMSSP then Ok Ntlm
  else
    let? (o, inner) := gss_frame token in
    if bool_decide (o = OID_SPNEGO) then parse_spnego inner
    else
      match mech_of o with
      | Some m => let? req := ap_req_of inner in Ok (Kerberos (mkOffer req m false))
      | None =>
          if bool_decide (o = OID_NTLM) then Ok Ntlm
          else Ok (Unsupported "the token is not SPNEGO or Kerberos")
      end.

(** The acceptor's answer: [accept-completed], with the AP-REP when there is
    one; nothing for a bare Kerberos initiator that did not ask. *)
Definition answer (offer : Offer) (ap_rep : option (list Z)) : option (list Z) :=
  let krb_token :=
    (fun rep => tlv (der_app 0) (tlv OID OID_KRB5 ++ TOK_AP_REP ++ rep)) <$> ap_rep in
  if negb (spnego offer) then krb_token
  else
    let fields :=
      [enc_explicit 0 (tlv ENUMERATED [0]); enc_explicit 1 (tlv OID (oid (mech offer)))]
      ++ match krb_token with
         | Some t => [enc_explicit 2 (tlv OCTET_STRING t)]
         | None => []
         end in
    Some (tlv (ctx 1) (tlv SEQUENCE (der_concat fields))).

(** Wrap an AP-REQ the way a browser does. *)
Definition wrap_ap_req (req : list Z) (m : Mech) (sp : bool) : list Z :=
  let krb := tlv (der_app 0) (tlv OID OID_KRB5 ++ TOK_AP_REQ ++ req) in
  if negb sp then krb
  else
    let mechs := tlv OID (oid m) ++ tlv OID OID_KRB5 ++ tlv OID OID_NTLM in
    let init :=
      tlv SEQUENCE (der_concat [enc_explicit 0 (tlv SEQUENCE mechs);
                                enc_explicit 2 (tlv OCTET_STRING krb)]) in
    tlv (der_app 0) (tlv OID OID_SPNEGO ++ tlv (ctx 0) init).

(** The AP-REP inside an acceptor's answer. *)
Definition ap_rep_of_answer (ans : list Z) : result DerError (option (list Z)) :=
  let? krb :=
    if bool_decide (head ans = Some (ctx 1)) then
      let? resp := single ans (ctx 1) in
      let? r := single resp SEQUENCE in
      let? (st, r) := explicit 0 ENUMERATED r in
      if negb (bool_decide (st = [0])) then derr "negotiation not complete"
      else
        let? (_, r) := optional (ctx 1) r in
        let? (t, _) := explicit_opt 2 OCTET_STRING r in Ok t
    else Ok (Some ans) in
  match krb with
  | None => Ok None
  | Some krb =>
      let? (o, inner) := gss_frame krb in
      match mech_of o with
      | None => derr "not a Kerberos token"
      | Some _ =>
          match inner with
          | a :: b :: rest =>
              if bool_decide ([a; b] = TOK_AP_REP) then Ok (Some rest)
              else derr "not an AP-REP token"
          | _ => derr "not an AP-REP token"
          end
      end
  end.

(** ** Lemmas *)

Lemma tag_ok_consts :
  tag_ok OID /\ tag_ok SEQUENCE /\ tag_ok OCTET_STRING /\ tag_ok ENUMERATED
  /\ tag_ok (der_app 0) /\ tag_ok (ctx 0) /\ tag_ok (ctx 1) /\ tag_ok (ctx 2).
Proof. decide_now. Qed.

Lemma oid_cases m : mech_of (oid m) = Some m /\ zlen (oid m) = 9.
Proof. by destruct m. Qed.

Lemma gss_frame_tlv o inner :
  zlen o + zlen inner < 2 ^ 24 - 16 ->
  gss_frame (tlv (der_app 0) (tlv OID o ++ inner)) = Ok (o, inner).
Proof.
  intros Hlen. destruct tag_ok_consts as (Hoid & _ & _ & _ & Happ & _).
  pose proof (zlen_nonneg inner). pose proof (zlen_nonneg o).
  unfold gss_frame. rewrite single_tlv; [|done|der_size].
  rewrite expect_tlv; [done|done|lia].
Qed.

(** An AP-REQ: exactly one [[APPLICATION 14]] item. *)
Definition is_ap_req (req : list Z) : Prop := exists c, single req (der_app 14) = Ok c.

Lemma ap_req_of_tok req : is_ap_req req -> ap_req_of (TOK_AP_REQ ++ req) = Ok req.
Proof. intros [c Hc]. unfold ap_req_of, TOK_AP_REQ. cbn [app]. by rewrite Hc. Qed.

Lemma ap_req_of_inv inner req :
  ap_req_of inner = Ok req -> inner = TOK_AP_REQ ++ req /\ is_ap_req req.
Proof.
  unfold ap_req_of. intros H. destruct inner as [|a [|b rest]]; [done..|].
  destruct (bool_decide _) eqn:E; [|done]. bool_hyps.
  destruct (single rest (der_app 14)) eqn:Es; [|done]. inv_result.
  split; [by rewrite <- E|]. by eexists.
Qed.

(** [sub] occurs as a contiguous part of [l]. *)
Definition part_of (sub l : list Z) : Prop := exists a b, l = a ++ sub ++ b.

Lemma part_of_refl l : part_of l l.
Proof. exists [], []. by rewrite app_nil_r. Qed.

Lemma part_of_trans a b c : part_of a b -> part_of b c -> part_of a c.
Proof.
  intros (x & y & ->) (u & v & ->). exists (u ++ x), (y ++ v). by rewrite <- !app_assoc.
Qed.

Lemma item_part buf t c rest : item buf = Ok (t, c, rest) -> part_of c buf /\ part_of rest buf.
Proof.
  intros (hdr & -> & _)%item_inv. split; [by exists (t :: hdr), rest|].
  exists (t :: hdr ++ c), []. rewrite app_nil_r. cbn [app]. by rewrite <- app_assoc.
Qed.

Lemma gss_frame_part token o inner :
  gss_frame token = Ok (o, inner) -> part_of inner token.
Proof.
  unfold gss_frame. intros H. destruct (single token (der_app 0)) as [c|] eqn:E; [|done].
  apply single_inv, item_part in E as [Hc _].
  destruct (expect OID c) as [[o' r]|] eqn:E2; [|done]. inv_result. simplify_eq.
  apply expect_inv, item_part in E2 as [_ Hr]. by eapply part_of_trans.
Qed.

Lemma explicit_opt_part n inner buf c rest :
  explicit_opt n inner buf = Ok (Some c, rest) -> part_of c buf.
Proof.
  unfold explicit_opt, optional. intros H. destruct (bool_decide _); [|done].
  destruct (expect (ctx n) buf) as [[w r]|] eqn:E; [|done].
  apply expect_inv, item_part in E as [Hw _].
  destruct (single w inner) as [c'|] eqn:E2; [|done]. inv_result. simplify_eq.
  apply single_inv, item_part in E2 as [Hc _]. by eapply part_of_trans.
Qed.

Lemma optional_part tag buf o rest : optional tag buf = Ok (o, rest) -> part_of rest buf.
Proof.
  unfold optional. intros H. destruct (bool_decide _); [|simplify_eq; apply part_of_refl].
  destruct (expect tag buf) as [[c r]|] eqn:E; [|done]. inv_result. simplify_eq.
  by apply expect_inv, item_part in E as [_ ?].
Qed.

Lemma parse_spnego_inv inner o :
  parse_spnego inner = Ok (Kerberos o) ->
  spnego o = true /\ is_ap_req (ap_req o) /\ part_of (TOK_AP_REQ ++ ap_req o) inner.
Proof.
  unfold parse_spnego. intros H.
  destruct (single inner (ctx 0)) as [init|] eqn:E1; [|done].
  apply single_inv, item_part in E1 as [H1 _].
  destruct (single init SEQUENCE) as [r|] eqn:E2; [|done].
  apply single_inv, item_part in E2 as [H2 _].
  destruct (explicit 0 SEQUENCE r) as [[ml r2]|] eqn:E3; [|done].
  apply explicit_inv in E3 as (w & [_ H3]%item_part & _).
  destruct (expect OID ml) as [[first x]|]; [|done].
  destruct (optional (ctx 1) r2) as [[fl r3]|] eqn:E4; [|done]. apply optional_part in E4.
  destruct (explicit_opt 2 OCTET_STRING r3) as [[token y]|] eqn:E5; [|done].
  destruct (mech_of first) as [m|]; [|destruct (bool_decide _); discriminate].
  destruct token as [token|]; [|done]. apply explicit_opt_part in E5.
  destruct (gss_frame token) as [[o' i']|] eqn:E6; [|done]. apply gss_frame_part in E6.
  destruct (mech_of o'); [|done].
  destruct (ap_req_of i') as [req|] eqn:E7; [|done]. inv_result. simplify_eq. simpl.
  apply ap_req_of_inv in E7 as [-> Hreq].
  split; [done|]. split; [done|].
  eapply part_of_trans; [exact E6|]. eapply part_of_trans; [exact E5|].
  eapply part_of_trans; [exact E4|]. eapply part_of_trans; [exact H3|].
  by eapply part_of_trans; [exact H2|].
Qed.

Lemma parse_spnego_wrap req m :
  is_ap_req req -> zlen req < 2 ^ 24 - 256 ->
  let krb := tlv (der_app 0) (tlv OID OID_KRB5 ++ TOK_AP_REQ ++ req) in
  let mechs := tlv OID (oid m) ++ tlv OID OID_KRB5 ++ tlv OID OID_NTLM in
  parse_spnego (tlv (ctx 0)
    (tlv SEQUENCE (der_concat [enc_explicit 0 (tlv SEQUENCE mechs);
                               enc_explicit 2 (tlv OCTET_STRING krb)])))
  = Ok (Kerberos (mkOffer req m true)).
Proof.
  intros Hreq Hlen krb mechs.
  destruct tag_ok_consts as (Hoid & Hseq & Hoct & Henum & Happ & Hc0 & Hc1 & Hc2).
  destruct (oid_cases m) as [Hm Hml]. pose proof (zlen_nonneg req).
  assert (zlen OID_KRB5 = 9) as Hk by done. assert (zlen OID_NTLM = 10) as Hn by done.
  assert (zlen krb < 2 ^ 24 - 200) as Hkrb.
  { subst krb. unfold TOK_AP_REQ. der_size. }
  assert (zlen mechs < 100) as Hmechs by (subst mechs; der_size).
  assert (gss_frame krb = Ok (OID_KRB5, TOK_AP_REQ ++ req)) as Hg.
  { apply gss_frame_tlv. unfold TOK_AP_REQ. der_size. }
  assert (expect OID mechs = Ok (oid m, tlv OID OID_KRB5 ++ tlv OID OID_NTLM)) as He.
  { apply expect_tlv; [done|lia]. }
  pose proof (zlen_nonneg krb). pose proof (zlen_nonneg mechs).
  clearbody krb mechs.
  unfold parse_spnego. rewrite single_tlv by (done || der_size).
  rewrite single_tlv by (done || der_size).
  unfold der_concat. cbn [concat]. rewrite app_nil_r.
  rewrite explicit_enc by (done || lia || (unfold small; lia)).
  rewrite He.
  rewrite <- (app_nil_r (enc_explicit 2 _)). unfold enc_explicit at 1.
  rewrite optional_other by done. fold (enc_explicit 2 (tlv OCTET_STRING krb)).
  rewrite explicit_opt_enc by (done || lia || (unfold small; lia)).
  rewrite Hm, Hg. cbn [mech_of]. rewrite ap_req_of_tok by done. done.
Qed.

Lemma krb_answer_token rep :
  zlen rep < 2 ^ 24 - 256 ->
  let krb := tlv (der_app 0) (tlv OID OID_KRB5 ++ TOK_AP_REP ++ rep) in
  gss_frame krb = Ok (OID_KRB5, TOK_AP_REP ++ rep) /\ 0 <= zlen krb < 2 ^ 24 - 200.
Proof.
  intros Hlen krb. assert (zlen OID_KRB5 = 9) as Hk by done. pose proof (zlen_nonneg rep).
  split; [apply gss_frame_tlv; unfold TOK_AP_REP; der_size|].
  subst krb. unfold TOK_AP_REP. der_size.
Qed.

(** The answer without the optional token. *)
Lemma ap_rep_of_spnego m (tok : option (list Z)) :
  (forall t, tok = Some t -> zlen t < 2 ^ 24 - 200) ->
  let fields :=
    [enc_explicit 0 (tlv ENUMERATED [0]); enc_explicit 1 (tlv OID (oid m))]
    ++ match tok with Some t => [enc_explicit 2 (tlv OCTET_STRING t)] | None => [] end in
  let ans := tlv (ctx 1) (tlv SEQUENCE (der_concat fields)) in
  (let? resp := single ans (ctx 1) in
   let? r := single resp SEQUENCE in
   let? (st, r) := explicit 0 ENUMERATED r in
   if negb (bool_decide (st = [0])) then derr "negotiation not complete"
   else
     let? (_, r) := optional (ctx 1) r in
     let? (t, _) := explicit_opt 2 OCTET_STRING r in Ok t) = Ok tok.
Proof.
  intros Htok. cbn zeta.
  destruct tag_ok_consts as (Hoid & Hseq & Hoct & Henum & Happ & Hc0 & Hc1 & Hc2).
  destruct (oid_cases m) as [Hm Hml]. pose proof (zlen_nonneg (oid m)).
  assert (forall t, 0 <= zlen t) as Hpos by (intros; apply (zlen_nonneg (A := Z))).
  set (tl := match tok with Some t => [enc_explicit 2 (tlv OCTET_STRING t)] | None => [] end).
  assert (0 <= zlen (concat tl) < 2 ^ 24 - 150) as Htl.
  { subst tl. destruct tok as [t|]; [|by vm_compute].
    specialize (Htok t eq_refl). specialize (Hpos t). der_size. }
  unfold der_concat. rewrite concat_app. cbn [concat]. rewrite app_nil_r, <- app_assoc.
  rewrite single_tlv; [|done|der_size]. rewrite single_tlv; [|done|der_size].
  rewrite explicit_enc by (done || lia). cbn [negb].
  rewrite bool_decide_eq_true_2 by done. cbn [negb].
  unfold enc_explicit at 1. rewrite optional_tlv; [|done|der_size].
  subst tl. destruct tok as [t|]; [|done]. specialize (Htok t eq_refl). specialize (Hpos t).
  cbn [concat]. rewrite explicit_opt_enc by (done || lia || (unfold small; lia)). done.
Qed.

Lemma parse_wrap (req : list Z) (m : Mech) (sp : bool) :
  is_ap_req req -> zlen req < 2 ^ 24 - 256 ->
  parse (wrap_ap_req req m sp) = Ok (Kerberos (mkOffer req (if sp then m else Krb5) sp)).
Proof.
  intros Hreq Hlen. unfold wrap_ap_req, parse. pose proof (zlen_nonneg req).
  destruct (oid_cases m) as [_ Hml].
  assert (zlen OID_KRB5 = 9) as Hk by done. assert (zlen OID_NTLM = 10) as Hn by done.
  assert (zlen OID_SPNEGO = 6) as Hs by done.
  destruct sp; cbn [negb]; cbn zeta.
  - change (starts_with (tlv (der_app 0) ?x) NTLMSSP) with false.
    rewrite gss_frame_tlv by (unfold TOK_AP_REQ; der_size).
    rewrite bool_decide_eq_true_2 by done. by apply parse_spnego_wrap.
  - change (starts_with (tlv (der_app 0) ?x) NTLMSSP) with false.
    rewrite gss_frame_tlv by (unfold TOK_AP_REQ; der_size).
    rewrite bool_decide_eq_false_2 by done.
    change (mech_of OID_KRB5) with (Some Krb5). cbn iota. by rewrite ap_req_of_tok.
Qed.

(** ** Theorems *)

(** the acceptor reads what a browser sends. A token built around an
    AP-REQ, bare or in SPNEGO with Kerberos (by either OID) listed first, is
    read as an offer of exactly that AP-REQ, naming the mechanism the
    browser listed first. *)
Theorem parse_wrap_ap_req (req : list Z) (m : Mech) (sp : bool) :
  is_ap_req req -> zlen req < 2 ^ 24 - 256 ->
  parse (wrap_ap_req req m sp) = Ok (Kerberos (mkOffer req (if sp then m else Krb5) sp)).
Proof. apply parse_wrap. Qed.

Definition example_ap_req : list Z := tlv (der_app 14) (tlv SEQUENCE [1; 2; 3]).

Lemma parse_wrap_ap_req_witness :
  parse (wrap_ap_req example_ap_req MsKrb5 true)
  = Ok (Kerberos (mkOffer example_ap_req MsKrb5 true)).
Proof.
  apply (parse_wrap_ap_req example_ap_req MsKrb5 true).
  - eexists. vm_compute. reflexivity.
  - vm_compute. reflexivity.
Defined.

(** the initiator reads the acceptor's answer. [answer] is absent exactly
    for a bare initiator that asked for no mutual authentication; otherwise
    the AP-REP that went in comes out, and an answer without one reads as
    none. *)
Theorem ap_rep_of_answer_answer (offer : Offer) (rep : option (list Z)) :
  (forall r, rep = Some r -> zlen r < 2 ^ 24 - 256) ->
  match answer offer rep with
  | Some ans => ap_rep_of_answer ans = Ok rep
  | None => rep = None /\ spnego offer = false
  end.
Proof.
  intros Hrep. unfold answer.
  assert (forall r, rep = Some r ->
            forall krb, krb = tlv (der_app 0) (tlv OID OID_KRB5 ++ TOK_AP_REP ++ r) ->
            gss_frame krb = Ok (OID_KRB5, TOK_AP_REP ++ r) /\ 0 <= zlen krb < 2 ^ 24 - 200)
    as Hkrb by (intros r Hr krb ->; apply krb_answer_token; by apply Hrep).
  destruct (spnego offer); cbn [negb]; cbn zeta.
  - unfold ap_rep_of_answer. rewrite bool_decide_eq_true_2 by done.
    rewrite (ap_rep_of_spnego (mech offer)
      ((fun rep => tlv (der_app 0) (tlv OID OID_KRB5 ++ TOK_AP_REP ++ rep)) <$> rep)).
    + destruct rep as [r|]; [|done]. cbn [fmap option_fmap option_map].
      destruct (Hkrb r eq_refl _ eq_refl) as [-> _]. done.
    + intros t (r & Hr & ->)%fmap_Some. eapply Hkrb; done.
  - destruct rep as [r|]; [|done]. cbn [fmap option_fmap option_map].
    unfold ap_rep_of_answer. rewrite bool_decide_eq_false_2 by done.
    destruct (Hkrb r eq_refl _ eq_refl) as [-> _]. done.
Qed.

Lemma ap_rep_of_answer_witness :
  answer (mkOffer [] MsKrb5 true) (Some [7; 8; 9]) <> None
  /\ match answer (mkOffer [] MsKrb5 true) (Some [7; 8; 9]) with
     | Some ans => ap_rep_of_answer ans = Ok (Some [7; 8; 9])
     | None => Some [7; 8; 9] = None /\ true = false
     end.
Proof.
  split; [vm_compute; discriminate|].
  apply (ap_rep_of_answer_answer (mkOffer [] MsKrb5 true) (Some [7; 8; 9])).
  intros r [= <-]. vm_compute. reflexivity.
Defined.

(** what the acceptor is offered. Whatever bytes a client sends, an
    offered AP-REQ is exactly one [[APPLICATION 14]] item with nothing after
    it, taken verbatim from the token behind the AP-REQ token id. *)
Theorem spnego_parse_sound (token : list Z) (o : Offer) :
  parse token = Ok (Kerberos o) ->
  is_ap_req (ap_req o) /\ part_of (TOK_AP_REQ ++ ap_req o) token.
Proof.
  unfold parse. intros H. destruct (starts_with _ _); [done|].
  destruct (gss_frame token) as [[oi inner]|] eqn:E; [|done]. apply gss_frame_part in E.
  destruct (bool_decide (oi = OID_SPNEGO)).
  - apply parse_spnego_inv in H as (_ & Hr & Hp). split; [done|]. by eapply part_of_trans.
  - destruct (mech_of oi) as [m|]; [|destruct (bool_decide _); discriminate].
    destruct (ap_req_of inner) as [req|] eqn:E2; [|done]. inv_result. simplify_eq.
    apply ap_req_of_inv in E2 as [-> Hr]. done.
Qed.

Lemma spnego_parse_sound_witness :
  is_ap_req example_ap_req
  /\ part_of (TOK_AP_REQ ++ example_ap_req) (wrap_ap_req example_ap_req Krb5 false).
Proof.
  apply (spnego_parse_sound (wrap_ap_req example_ap_req Krb5 false)
           (mkOffer example_ap_req Krb5 false)).
  vm_compute. reflexivity.
Defined.
