(* ===== verification/KrbAes.v ===== *)
(** * The Kerberos AES encryption types

    Models [api/src/kerberos/aes.rs]: the four profiles, their key
    derivations (RFC 3961 DK over n-fold, RFC 8009's SP 800-108 KDF), CBC
    with ciphertext stealing, and authenticated encryption and decryption.
    The block cipher and the HMACs are aws-lc-rs's: the interface [AwsLc]
    lists the operations used and [AwsLcLaws] what is documented of them
    (AES is a permutation of blocks, the CBC mode chains it, the HMACs have
    their output sizes). *)

From S2P Require Import Prelude.

Definition BLOCK : nat := 16.
Definition CONFOUNDER_LEN : nat := BLOCK.

Inductive Algorithm := HMAC_SHA1_FOR_LEGACY_USE_ONLY | HMAC_SHA256 | HMAC_SHA384.

Inductive Kind :=
| Sha1
| Sha2 (alg : Algorithm) (ki_len tag_len : nat).

(** One encryption type's parameters. *)
Record Profile := mkProfile { p_key_len : nat; kind : Kind }.

Record UsageKeys := mkUsageKeys { ke : list Z; ki : list Z }.

Inductive Failed := mkFailed.

Definition xor_bytes (a b : list Z) : list Z := zip_with Z.lxor a b.
Definition zero_block : list Z := replicate BLOCK 0.

Definition block_ok (b : list Z) : Prop := length b = BLOCK /\ bytes_ok b.

(** The cipher block chaining mode over a block permutation. *)
Fixpoint cbc_enc (E : list Z -> list Z) (iv : list Z) (blocks : list (list Z)) : list (list Z) :=
  match blocks with
  | [] => []
  | b :: bs => let c := E (xor_bytes b iv) in c :: cbc_enc E c bs
  end.
Fixpoint cbc_dec (D : list Z -> list Z) (iv : list Z) (blocks : list (list Z)) : list (list Z) :=
  match blocks with
  | [] => []
  | c :: cs => xor_bytes (D c) iv :: cbc_dec D c cs
  end.

(** The aws-lc-rs operations used: AES in ECB and CBC mode (zero IV) over
    whole blocks, and HMAC. *)
Class AwsLc := {
  aes_ecb_encrypt : list Z -> list Z -> list Z;
  aes_ecb_decrypt : list Z -> list Z -> list Z;
  aes_cbc_encrypt : list Z -> list Z -> list Z;
  aes_cbc_decrypt : list Z -> list Z -> list Z;
  hmac_sign : Algorithm -> list Z -> list Z -> list Z
}.

Definition hmac_len (alg : Algorithm) : nat :=
  match alg with
  | HMAC_SHA1_FOR_LEGACY_USE_ONLY => 20
  | HMAC_SHA256 => 32
  | HMAC_SHA384 => 48
  end.

Definition aes_key_len (n : nat) : Prop := n = 16%nat \/ n = 32%nat.

Class AwsLcLaws `{AwsLc} := {
  ecb_encrypt_block k b :
    aes_key_len (length k) -> block_ok b -> block_ok (aes_ecb_encrypt k b);
  ecb_decrypt_encrypt k b :
    aes_key_len (length k) -> block_ok b -> aes_ecb_decrypt k (aes_ecb_encrypt k b) = b;
  cbc_encrypt_blocks k bs :
    aes_key_len (length k) -> Forall block_ok bs ->
    aes_cbc_encrypt k (concat bs) = concat (cbc_enc (aes_ecb_encrypt k) zero_block bs);
  cbc_decrypt_blocks k bs :
    aes_key_len (length k) -> Forall block_ok bs ->
    aes_cbc_decrypt k (concat bs) = concat (cbc_dec (aes_ecb_decrypt k) zero_block bs);
  hmac_sign_length alg k m : length (hmac_sign alg k m) = hmac_len alg;
  hmac_sign_bytes alg k m : bytes_ok (hmac_sign alg k m)
}.

Section aes.
Context `{AwsLc}.

(** [Profile::of]. *)
Definition Profile_of (etype : Z) : option Profile :=
  if etype =? 17 then Some (mkProfile 16 Sha1)
  else if etype =? 18 then Some (mkProfile 32 Sha1)
  else if etype =? 19 then Some (mkProfile 16 (Sha2 HMAC_SHA256 16 16))
  else if etype =? 20 then Some (mkProfile 32 (Sha2 HMAC_SHA384 24 24))
  else None.

Definition tag_len (p : Profile) : nat :=
  match kind p with Sha1 => 12 | Sha2 _ _ tl => tl end.

Definition hmac_parts (alg : Algorithm) (key : list Z) (parts : list (list Z)) : list Z :=
  hmac_sign alg key (concat parts).

(** [cipher_key]: only AES-128 and AES-256 keys. *)
Definition cipher_key (key : list Z) : result Failed unit :=
  if ((length key =? 16) || (length key =? 32))%nat then Ok tt else Err mkFailed.

Definition ecb_encrypt (key blocks : list Z) : result Failed (list Z) :=
  let? _ := cipher_key key in Ok (aes_ecb_encrypt key blocks).
Definition ecb_decrypt (key blocks : list Z) : result Failed (list Z) :=
  let? _ := cipher_key key in Ok (aes_ecb_decrypt key blocks).
Definition cbc_encrypt (key blocks : list Z) : result Failed (list Z) :=
  let? _ := cipher_key key in Ok (aes_cbc_encrypt key blocks).
Definition cbc_decrypt (key blocks : list Z) : result Failed (list Z) :=
  let? _ := cipher_key key in Ok (aes_cbc_decrypt key blocks).

(** [len.div_ceil(BLOCK)]. *)
Definition div_ceil (a b : nat) : nat := ((a + b - 1) / b)%nat.

(** CBC with ciphertext stealing, zero IV, at least one block. *)
Definition cts_encrypt (key plain : list Z) : result Failed (list Z) :=
  let len := length plain in
  if (len <? BLOCK)%nat then Err mkFailed
  else
    let blocks := div_ceil len BLOCK in
    let buf := plain ++ replicate (blocks * BLOCK - len) 0 in
    let? buf := cbc_encrypt key buf in
    if (blocks =? 1)%nat then Ok buf
    else
      let tail := (len - (blocks - 1) * BLOCK)%nat in
      let head := take (BLOCK * (blocks - 2)) buf in
      let last_two := drop (BLOCK * (blocks - 2)) buf in
      Ok (head ++ drop BLOCK last_two ++ take tail last_two).

Definition cts_decrypt (key cipher : list Z) : result Failed (list Z) :=
  let len := length cipher in
  if (len <? BLOCK)%nat then Err mkFailed
  else
    let blocks := div_ceil len BLOCK in
    if (blocks =? 1)%nat then cbc_decrypt key cipher
    else
      let tail := (len - (blocks - 1) * BLOCK)%nat in
      let head := take (BLOCK * (blocks - 2)) cipher in
      let last := take BLOCK (drop (BLOCK * (blocks - 2)) cipher) in
      let partial := drop (BLOCK * (blocks - 1)) cipher in
      let? x := ecb_decrypt key last in
      let before_last := partial ++ drop tail x in
      let last_plain := xor_bytes (take tail x) (take tail before_last) in
      let? buf := cbc_decrypt key (head ++ before_last) in
      Ok (buf ++ last_plain).

(** ** Key derivation *)

(** [gcd]. *)
Fixpoint gcd_loop (fuel a b : nat) : nat :=
  match fuel with
  | O => a
  | S fuel => if (b =? 0)%nat then a else gcd_loop fuel b (a mod b)
  end.
Definition gcd (a b : nat) : nat := gcd_loop (S b) a b.

(** One turn of n-fold's sum at byte [i] of the stream. *)
Definition nfold_step (input : list Z) (out_len : nat) (st : list Z * Z) (i : nat) : list Z * Z :=
  let '(out, carry) := st in
  let in_len := length input in
  let in_bits := (in_len * 8)%nat in
  let msbit :=
    (((in_bits - 1) + (in_bits + 13) * (i / in_len) + (in_len - i mod in_len) * 8)
       mod in_bits)%nat in
  let hi := nth ((in_len - 1 - msbit / 8) mod in_len) input 0 in
  let lo := nth ((in_len - msbit / 8) mod in_len) input 0 in
  let carry :=
    carry + Z.land (Z.shiftr (Z.lor (Z.shiftl hi 8) lo) (Z.of_nat (msbit mod 8 + 1))) 0xff in
  let carry := carry + nth (i mod out_len) out 0 in
  (<[(i mod out_len)%nat := Z.land carry 0xff]> out, Z.shiftr carry 8).

(** One pass of the end-around carry, from the last byte to the first. *)
Fixpoint carry_pass (rev_out : list Z) (carry : Z) : list Z * Z :=
  match rev_out with
  | [] => ([], carry)
  | b :: rest =>
      let carry := carry + b in
      let '(rest', c) := carry_pass rest (Z.shiftr carry 8) in
      (Z.land carry 0xff :: rest', c)
  end.

(** [while carry != 0 { ... }]. *)
Fixpoint carry_loop (fuel : nat) (rev_out : list Z) (carry : Z) : list Z * Z :=
  match fuel with
  | O => (rev_out, carry)
  | S fuel =>
      if carry =? 0 then (rev_out, carry)
      else let '(o, c) := carry_pass rev_out carry in carry_loop fuel o c
  end.

Definition nfold_sum (input : list Z) (out_len : nat) : list Z * Z :=
  let lcm := (out_len / gcd out_len (length input) * length input)%nat in
  foldl (nfold_step input out_len) (replicate out_len 0, 0) (reverse (seq 0 lcm)).

(** RFC 3961 section 5.1 n-fold. The carry loop runs at most twice
    ([nfold_terminates]); the third turn of the fuel sees it finished. *)
Definition nfold (input : list Z) (out_len : nat) : list Z :=
  let '(out, carry) := nfold_sum input out_len in
  reverse (carry_loop 3 (reverse out) carry).1.

(** [while out.len() < len { ecb_encrypt(base, &mut block)?; out.extend(&block) }];
    every turn adds a block, so [len] turns are more than enough. *)
Fixpoint dk_loop (fuel : nat) (base block out : list Z) (len : nat) : result Failed (list Z) :=
  match fuel with
  | O => Ok out
  | S fuel =>
      if (length out <? len)%nat then
        let? block := ecb_encrypt base block in
        dk_loop fuel base block (out ++ block) len
      else Ok out
  end.

Definition dk (base constant : list Z) (len : nat) : result Failed (list Z) :=
  let block := nfold constant BLOCK in
  let? out := dk_loop len base block [] len in
  Ok (take len out).

(** RFC 8009 section 3 KDF-HMAC-SHA2. *)
Fixpoint kdf_loop (fuel : nat) (alg : Algorithm) (key label bits out : list Z) (len : nat)
    (counter : Z) : list Z :=
  match fuel with
  | O => out
  | S fuel =>
      if (length out <? len)%nat then
        kdf_loop fuel alg key label bits
          (out ++ hmac_parts alg key [be_bytes 4 counter; label; [0]; bits]) len (counter + 1)
      else out
  end.

Definition kdf_hmac_sha2 (alg : Algorithm) (key label : list Z) (len : nat) : list Z :=
  let bits := be_bytes 4 (Z.of_nat (len * 8)) in
  take len (kdf_loop len alg key label bits [] len 1).

(** [Ke] and [Ki] for [usage]. *)
Definition keys (p : Profile) (base : list Z) (usage : Z) : result Failed UsageKeys :=
  let constant (suffix : Z) := be_bytes 4 usage ++ [suffix] in
  match kind p with
  | Sha1 =>
      let? e := dk base (constant 0xAA) (p_key_len p) in
      let? i := dk base (constant 0x55) (p_key_len p) in
      Ok (mkUsageKeys e i)
  | Sha2 alg ki_len _ =>
      Ok (mkUsageKeys (kdf_hmac_sha2 alg base (constant 0xAA) (p_key_len p))
            (kdf_hmac_sha2 alg base (constant 0x55) ki_len))
  end.

(** ** Encryption and decryption *)

Definition encrypt_with (p : Profile) (key : list Z) (usage : Z) (confounder data : list Z)
    : result Failed (list Z) :=
  if negb (length key =? p_key_len p)%nat then Err mkFailed
  else
    let? uk := keys p key usage in
    let plain := confounder ++ data in
    let? out := cts_encrypt (ke uk) plain in
    let tag :=
      match kind p with
      | Sha1 => hmac_parts HMAC_SHA1_FOR_LEGACY_USE_ONLY (ki uk) [plain]
      | Sha2 alg _ _ => hmac_parts alg (ki uk) [zero_block; out]
      end in
    Ok (out ++ take (tag_len p) tag).

Definition decrypt (p : Profile) (key : list Z) (usage : Z) (data : list Z)
    : result Failed (list Z) :=
  let tl := tag_len p in
  if negb (length key =? p_key_len p)%nat || (length data <? CONFOUNDER_LEN + tl)%nat
  then Err mkFailed
  else
    let? uk := keys p key usage in
    let cipher := take (length data - tl) data in
    let tag := drop (length data - tl) data in
    let? _ :=
      match kind p with
      | Sha2 alg _ _ =>
          let expected := hmac_parts alg (ki uk) [zero_block; cipher] in
          if negb (bool_decide (take tl expected = tag)) then Err mkFailed else Ok tt
      | Sha1 => Ok tt
      end in
    let? plain := cts_decrypt (ke uk) cipher in
    let? _ :=
      match kind p with
      | Sha1 =>
          let expected := hmac_parts HMAC_SHA1_FOR_LEGACY_USE_ONLY (ki uk) [plain] in
          if negb (bool_decide (take tl expected = tag)) then Err mkFailed else Ok tt
      | Sha2 _ _ _ => Ok tt
      end in
    Ok (drop CONFOUNDER_LEN plain).

End aes.

(** ** Lemmas *)

Lemma is_byte_lxor a b : is_byte a -> is_byte b -> is_byte (Z.lxor a b).
Proof.
  unfold is_byte. intros Ha Hb.
  assert (0 <= Z.lxor a b) by (apply Z.lxor_nonneg; lia). split; [done|].
  destruct (decide (Z.lxor a b = 0)) as [->|]; [done|].
  change 256 with (2 ^ 8). apply Z.log2_lt_pow2; [lia|].
  pose proof (Z.log2_lxor a b ltac:(lia) ltac:(lia)).
  assert (forall x, 0 <= x < 256 -> Z.log2 x < 8) as Hl.
  { intros x Hx. destruct (decide (x = 0)) as [->|]; [done|].
    apply Z.log2_lt_pow2; [lia|]. done || (change (2 ^ 8) with 256; lia). }
  specialize (Hl a Ha) as H1. specialize (Hl b Hb) as H2. lia.
Qed.

Lemma xor_bytes_length a b : length a = length b -> length (xor_bytes a b) = length a.
Proof. intros. unfold xor_bytes. rewrite length_zip_with. lia. Qed.

Lemma xor_bytes_ok a b : bytes_ok a -> bytes_ok b -> bytes_ok (xor_bytes a b).
Proof.
  intros Ha. revert b. induction Ha as [|x a Hx _ IH]; intros b Hb; [constructor|].
  destruct Hb as [|y b Hy Hb]; [constructor|]. constructor; [by apply is_byte_lxor|by apply IH].
Qed.

Lemma xor_bytes_cancel a b : length a = length b -> xor_bytes (xor_bytes a b) b = a.
Proof.
  revert b. induction a as [|x a IH]; intros [|y b] Hl; simplify_eq/=; [done|].
  f_equal; [|by apply IH]. by rewrite Z.lxor_assoc, Z.lxor_nilpotent, Z.lxor_0_r.
Qed.

Lemma xor_bytes_take n a b : take n (xor_bytes a b) = xor_bytes (take n a) (take n b).
Proof. apply zip_with_take. Qed.

Lemma xor_bytes_drop n a b : drop n (xor_bytes a b) = xor_bytes (drop n a) (drop n b).
Proof. apply zip_with_drop. Qed.

Lemma xor_bytes_zeros n b : length b = n -> xor_bytes (replicate n 0) b = b.
Proof.
  revert n. induction b as [|y b IH]; intros [|n] Hl; simplify_eq/=; [done|].
  f_equal. by apply IH.
Qed.

Lemma block_ok_xor a b : block_ok a -> block_ok b -> block_ok (xor_bytes a b).
Proof.
  intros [Ha Ha'] [Hb Hb']. split; [rewrite xor_bytes_length; lia|by apply xor_bytes_ok].
Qed.

Lemma zero_block_ok : block_ok zero_block.
Proof. split; [done|]. decide_now. Qed.

Lemma concat_blocks_length bs : Forall block_ok bs -> length (concat bs) = (BLOCK * length bs)%nat.
Proof.
  induction 1 as [|b bs [Hb _] _ IH]; [done|]. simpl concat. simpl length.
  rewrite length_app, IH, Hb. lia.
Qed.

Lemma concat_blocks_ok bs : Forall block_ok bs -> bytes_ok (concat bs).
Proof. induction 1 as [|b bs [_ Hb] _ IH]; [constructor|]. by apply bytes_ok_app. Qed.

(** Any whole number of blocks splits into blocks. *)
Lemma blocks_of n l :
  bytes_ok l -> length l = (BLOCK * n)%nat ->
  exists bs, l = concat bs /\ length bs = n /\ Forall block_ok bs.
Proof.
  revert l. induction n as [|n IH]; intros l Hl Hlen.
  - exists []. destruct l; [by repeat split|simpl in Hlen; lia].
  - destruct (IH (drop BLOCK l)) as (bs & Hbs & Hn & Hok).
    + by apply bytes_ok_drop.
    + rewrite length_drop. unfold BLOCK in *. lia.
    + exists (take BLOCK l :: bs). simpl concat. rewrite <- Hbs, take_drop.
      split; [done|]. split; [simpl; lia|]. constructor; [|done].
      split; [rewrite length_take; unfold BLOCK in *; lia|by apply bytes_ok_take].
Qed.

Section cbc.
Context (E D : list Z -> list Z).
Hypothesis E_ok : forall b, block_ok b -> block_ok (E b).
Hypothesis DE : forall b, block_ok b -> D (E b) = b.

Lemma cbc_enc_ok iv bs :
  block_ok iv -> Forall block_ok bs ->
  Forall block_ok (cbc_enc E iv bs) /\ length (cbc_enc E iv bs) = length bs.
Proof.
  intros Hiv Hbs. revert iv Hiv. induction Hbs as [|b bs Hb _ IH]; intros iv Hiv; [done|].
  cbn [cbc_enc]. destruct (IH (E (xor_bytes b iv))) as [IH1 IH2].
  { by apply E_ok, block_ok_xor. }
  split; [|simpl; lia]. constructor; [by apply E_ok, block_ok_xor|done].
Qed.

Lemma cbc_dec_enc iv bs :
  block_ok iv -> Forall block_ok bs -> cbc_dec D iv (cbc_enc E iv bs) = bs.
Proof.
  intros Hiv Hbs. revert iv Hiv. induction Hbs as [|b bs Hb _ IH]; intros iv Hiv; [done|].
  cbn [cbc_enc cbc_dec]. rewrite DE by (by apply block_ok_xor).
  rewrite xor_bytes_cancel by (destruct Hb, Hiv; lia).
  rewrite IH; [done|]. by apply E_ok, block_ok_xor.
Qed.

(** The chaining value after some blocks. *)
Definition chain_iv (iv : list Z) (cs : list (list Z)) : list Z := default iv (last cs).

Lemma cbc_enc_app iv a b :
  cbc_enc E iv (a ++ b) = cbc_enc E iv a ++ cbc_enc E (chain_iv iv (cbc_enc E iv a)) b.
Proof.
  revert iv. induction a as [|x a IH]; intros iv; [done|].
  cbn [cbc_enc app]. rewrite IH. do 2 f_equal. unfold chain_iv.
  rewrite last_cons. by destruct (last _).
Qed.

Lemma chain_iv_ok iv bs :
  block_ok iv -> Forall block_ok bs -> block_ok (chain_iv iv (cbc_enc E iv bs)).
Proof.
  intros Hiv Hbs. destruct (cbc_enc_ok iv bs Hiv Hbs) as [Hok _]. unfold chain_iv.
  destruct (last (cbc_enc E iv bs)) as [c|] eqn:El; [|done]. simpl.
  apply last_Some in El as [l' El]. rewrite El in Hok.
  apply Forall_app in Hok as [_ Hok]. by inversion Hok.
Qed.
End cbc.

Section cts.
Context `{AL : AwsLc} `{!AwsLcLaws}.
Context (key : list Z) (Hkey : aes_key_len (length key)).

Abbreviation E := (aes_ecb_encrypt key).
Abbreviation D := (aes_ecb_decrypt key).

Lemma cipher_key_ok : cipher_key key = Ok tt.
Proof. unfold cipher_key. by destruct Hkey as [-> | ->]. Qed.

Lemma E_block b : block_ok b -> block_ok (E b).
Proof. by apply ecb_encrypt_block. Qed.

Lemma D_E b : block_ok b -> D (E b) = b.
Proof. by apply ecb_decrypt_encrypt. Qed.

Lemma cbc_encrypt_concat bs :
  Forall block_ok bs -> cbc_encrypt key (concat bs) = Ok (concat (cbc_enc E zero_block bs)).
Proof. intros. unfold cbc_encrypt. by rewrite cipher_key_ok, cbc_encrypt_blocks. Qed.

Lemma cbc_decrypt_concat bs :
  Forall block_ok bs ->
  cbc_decrypt key (concat (cbc_enc E zero_block bs)) = Ok (concat bs).
Proof.
  intros Hbs. unfold cbc_decrypt.
  pose proof (cbc_enc_ok E E_block zero_block bs zero_block_ok Hbs) as [Hok _].
  rewrite cipher_key_ok, cbc_decrypt_blocks by done.
  by rewrite (cbc_dec_enc E D E_block D_E) by (done || apply zero_block_ok).
Qed.

(** How [len] bytes fall into blocks. *)
Lemma div_ceil_blocks len :
  (BLOCK <= len)%nat ->
  exists n tail, div_ceil len BLOCK = S n /\ len = (n * BLOCK + tail)%nat
                 /\ (1 <= tail <= BLOCK)%nat.
Proof.
  intros Hlen. unfold div_ceil, BLOCK in *.
  exists ((len - 1) / 16)%nat, (len - (len - 1) / 16 * 16)%nat.
  pose proof (Nat.div_mod_eq (len - 1) 16). pose proof (Nat.mod_upper_bound (len - 1) 16).
  split; [|lia].
  replace (len + 16 - 1)%nat with ((len - 1) + 1 * 16)%nat by lia.
  rewrite Nat.div_add by lia. lia.
Qed.

(** The two-block step at the heart of ciphertext stealing: from the last
    cipher block and the kept part of the one before it, both the missing
    part of the latter and the last plaintext bytes come back. *)
Lemma steal_back p2 c1 (tail := length p2) (pad := p2 ++ replicate (BLOCK - length p2) 0)
    (x := D (E (xor_bytes pad c1))) :
  bytes_ok p2 -> (tail <= BLOCK)%nat -> block_ok c1 ->
  take tail c1 ++ drop tail x = c1 /\ xor_bytes (take tail x) (take tail c1) = p2.
Proof.
  intros Hp Ht Hc1.
  assert (block_ok pad) as Hpad.
  { split; [subst pad; rewrite length_app, length_replicate; fold tail; lia|].
    apply bytes_ok_app. split; [done|]. apply Forall_replicate. unfold is_byte. lia. }
  assert (x = xor_bytes pad c1) as -> by (apply D_E; by apply block_ok_xor).
  rewrite xor_bytes_take, xor_bytes_drop. subst pad tail.
  rewrite take_app_length, drop_app_length.
  rewrite xor_bytes_zeros by (destruct Hc1; rewrite length_drop; lia).
  split; [apply take_drop|]. apply xor_bytes_cancel.
  destruct Hc1. rewrite length_take. lia.
Qed.

Lemma cts_encrypt_blocks pre p1 p2 :
  Forall block_ok pre -> block_ok p1 -> bytes_ok p2 -> (1 <= length p2 <= BLOCK)%nat ->
  let pad := p2 ++ replicate (BLOCK - length p2) 0 in
  let cs := cbc_enc E zero_block pre in
  let c1 := E (xor_bytes p1 (chain_iv zero_block cs)) in
  let c2 := E (xor_bytes pad c1) in
  cts_encrypt key (concat pre ++ p1 ++ p2) = Ok (concat cs ++ c2 ++ take (length p2) c1)
  /\ block_ok c1 /\ block_ok c2 /\ Forall block_ok cs /\ length cs = length pre.
Proof.
  intros Hpre Hp1 Hp2 Hl pad cs c1 c2.
  assert (block_ok pad) as Hpad.
  { split; [subst pad; rewrite length_app, length_replicate; lia|].
    apply bytes_ok_app. split; [done|]. apply Forall_replicate. unfold is_byte. lia. }
  destruct (cbc_enc_ok E E_block zero_block pre zero_block_ok Hpre) as [Hcs Hcsl].
  fold cs in Hcs, Hcsl.
  assert (block_ok c1) as Hc1.
  { apply E_block, block_ok_xor; [done|].
    by apply (chain_iv_ok E E_block); [apply zero_block_ok|]. }
  assert (block_ok c2) as Hc2 by (apply E_block, block_ok_xor; done).
  split; [|done].
  pose proof (concat_blocks_length pre Hpre) as Hlpre. destruct Hp1 as [Hp1l Hp1b].
  unfold cts_encrypt.
  assert (length (concat pre ++ p1 ++ p2) = (BLOCK * (length pre + 1) + length p2)%nat) as Hlen
    by (rewrite !length_app; lia).
  rewrite Hlen.
  rewrite (proj2 (Nat.ltb_ge _ _)) by lia.
  destruct (div_ceil_blocks (BLOCK * (length pre + 1) + length p2)) as (n & tail & Hd & He & Ht);
    [lia|].
  assert (n = length pre + 1 /\ tail = length p2)%nat as [-> ->] by (unfold BLOCK in *; lia).
  rewrite Hd. cbn zeta.
  replace (S (length pre + 1) * BLOCK - (BLOCK * (length pre + 1) + length p2))%nat
    with (BLOCK - length p2)%nat by lia.
  replace ((concat pre ++ p1 ++ p2) ++ replicate (BLOCK - length p2) 0)
    with (concat (pre ++ [p1; pad])).
  2: { rewrite concat_app. simpl concat. rewrite app_nil_r. subst pad. by rewrite <- !app_assoc. }
  rewrite cbc_encrypt_concat.
  2: { apply Forall_app. split; [done|]. repeat constructor; done || apply Hpad. }
  rewrite (proj2 (Nat.eqb_neq _ _)) by lia.
  rewrite cbc_enc_app. fold cs. cbn [cbc_enc]. fold c1. fold c2.
  rewrite concat_app. simpl concat. rewrite app_nil_r.
  replace (S (length pre + 1) - 2)%nat with (length cs) by lia.
  rewrite <- concat_blocks_length by done.
  rewrite take_app_length, drop_app_length.
  destruct Hc1 as [Hc1l _]. rewrite drop_app_length' by (by rewrite Hc1l).
  rewrite take_app_le by (rewrite Hc1l; lia).
  do 4 f_equal. lia.
Qed.

Lemma cts_decrypt_blocks pre p1 p2 :
  Forall block_ok pre -> block_ok p1 -> bytes_ok p2 -> (1 <= length p2 <= BLOCK)%nat ->
  let pad := p2 ++ replicate (BLOCK - length p2) 0 in
  let cs := cbc_enc E zero_block pre in
  let c1 := E (xor_bytes p1 (chain_iv zero_block cs)) in
  let c2 := E (xor_bytes pad c1) in
  cts_decrypt key (concat cs ++ c2 ++ take (length p2) c1) = Ok (concat pre ++ p1 ++ p2).
Proof.
  intros Hpre Hp1 Hp2 Hl pad cs c1 c2.
  destruct (cts_encrypt_blocks pre p1 p2 Hpre Hp1 Hp2 Hl) as (_ & Hc1 & Hc2 & Hcs & Hcsl).
  fold cs in Hcs, Hcsl. fold cs c1 in Hc1. fold pad cs c1 c2 in Hc2.
  pose proof (concat_blocks_length cs Hcs) as Hlcs.
  unfold cts_decrypt.
  assert (length (concat cs ++ c2 ++ take (length p2) c1)
          = (BLOCK * (length pre + 1) + length p2)%nat) as Hlen.
  { rewrite !length_app, length_take, Hlcs. destruct Hc1, Hc2. lia. }
  rewrite Hlen. rewrite (proj2 (Nat.ltb_ge _ _)) by lia.
  destruct (div_ceil_blocks (BLOCK * (length pre + 1) + length p2)) as (n & tail & Hd & He & Ht);
    [lia|].
  assert (n = length pre + 1 /\ tail = length p2)%nat as [-> ->] by (unfold BLOCK in *; lia).
  rewrite Hd. cbn zeta. rewrite (proj2 (Nat.eqb_neq _ _)) by lia.
  replace (BLOCK * (length pre + 1) + length p2 - (S (length pre + 1) - 1) * BLOCK)%nat
    with (length p2) by lia.
  replace (BLOCK * (S (length pre + 1) - 2))%nat with (length (concat cs)) by lia.
  replace (BLOCK * (S (length pre + 1) - 1))%nat with (length (concat cs ++ c2))
    by (rewrite length_app; destruct Hc2; lia).
  rewrite (app_assoc (concat cs)), drop_app_length.
  rewrite <- (app_assoc (concat cs)), take_app_length, drop_app_length.
  rewrite take_app_length' by (by destruct Hc2).
  unfold ecb_decrypt. rewrite cipher_key_ok.
  destruct (steal_back p2 c1 Hp2 ltac:(lia) Hc1) as [Hs1 Hs2].
  fold pad in Hs1, Hs2. fold c2 in Hs1, Hs2. rewrite Hs1, Hs2.
  replace (concat cs ++ c1) with (concat (cbc_enc E zero_block (pre ++ [p1]))).
  2: { rewrite cbc_enc_app. fold cs. cbn [cbc_enc]. rewrite concat_app. simpl concat.
       by rewrite app_nil_r. }
  rewrite cbc_decrypt_concat by (apply Forall_app; split; [done|by apply Forall_singleton]).
  rewrite concat_app. simpl concat. rewrite app_nil_r. by rewrite <- app_assoc.
Qed.

(** How a plaintext of at least one block is cut. *)
Lemma cut_plain plain :
  bytes_ok plain -> (BLOCK < length plain)%nat ->
  exists pre p1 p2, plain = concat pre ++ p1 ++ p2 /\ Forall block_ok pre /\ block_ok p1
                    /\ bytes_ok p2 /\ (1 <= length p2 <= BLOCK)%nat.
Proof.
  intros Hb Hlen. destruct (div_ceil_blocks (length plain) ltac:(lia)) as (n & tail & _ & He & Ht).
  destruct n as [|n]; [lia|].
  destruct (blocks_of n (take (BLOCK * n) plain)) as (pre & Hpre & Hpl & Hok).
  - by apply bytes_ok_take.
  - rewrite length_take. lia.
  - exists pre, (take BLOCK (drop (BLOCK * n) plain)), (drop BLOCK (drop (BLOCK * n) plain)).
    rewrite <- Hpre, !take_drop. split; [done|]. split; [done|].
    split; [split; [rewrite length_take, length_drop; lia|by apply bytes_ok_take, bytes_ok_drop]|].
    split; [by do 2 apply bytes_ok_drop|]. rewrite !length_drop. lia.
Qed.

Lemma cts_roundtrip plain :
  bytes_ok plain -> (BLOCK <= length plain)%nat ->
  exists c, cts_encrypt key plain = Ok c /\ length c = length plain /\ bytes_ok c
            /\ cts_decrypt key c = Ok plain.
Proof.
  intros Hb Hlen. destruct (decide (length plain = BLOCK)) as [H1|H1].
  - assert (Forall block_ok [plain]) as Hf by (by apply Forall_singleton).
    exists (concat (cbc_enc E zero_block [plain])).
    destruct (cbc_enc_ok E E_block zero_block [plain] zero_block_ok Hf) as [Hok Hl].
    assert (cts_encrypt key plain = Ok (concat (cbc_enc E zero_block [plain]))) as Henc.
    { unfold cts_encrypt. rewrite H1. simpl. rewrite app_nil_r.
      rewrite <- (app_nil_r plain) at 1. change (plain ++ []) with (concat [plain]).
      by rewrite cbc_encrypt_concat. }
    split; [done|]. rewrite concat_blocks_length by done. rewrite Hl.
    split; [by rewrite H1|]. split; [by apply concat_blocks_ok|].
    unfold cts_decrypt. rewrite concat_blocks_length by done. rewrite Hl.
    change (length [plain]) with 1%nat. cbn -[cbc_decrypt cbc_enc concat].
    rewrite cbc_decrypt_concat by done. simpl. by rewrite app_nil_r.
  - destruct (cut_plain plain Hb ltac:(lia)) as (pre & p1 & p2 & -> & Hpre & Hp1 & Hp2 & Hl).
    destruct (cts_encrypt_blocks pre p1 p2 Hpre Hp1 Hp2 Hl) as (Henc & Hc1 & Hc2 & Hcs & Hcsl).
    eexists. split; [exact Henc|].
    pose proof (concat_blocks_length _ Hcs) as Hlcs.
    pose proof (concat_blocks_length pre Hpre) as Hlpre.
    split; [|split].
    + destruct Hp1 as [Hp1 _], Hc1 as [Hc1 _], Hc2 as [Hc2 _].
      rewrite !length_app, length_take, Hlcs, Hlpre. lia.
    + apply bytes_ok_app. split; [by apply concat_blocks_ok|].
      apply bytes_ok_app. split; [apply Hc2|]. apply bytes_ok_take, Hc1.
    + by apply cts_decrypt_blocks.
Qed.

End cts.

(** *** n-fold *)

Lemma land_ff v : Z.land v 0xff = v mod 256.
Proof. change 0xff with (Z.ones 8). by rewrite Z.land_ones by lia. Qed.

Lemma shiftr_8 v : Z.shiftr v 8 = v / 256.
Proof. by rewrite Z.shiftr_div_pow2 by lia. Qed.

Lemma nth_is_byte i l : bytes_ok l -> is_byte (nth i l 0).
Proof.
  intros Hl. destruct (nth_in_or_default i l 0) as [Hin| ->]; [|unfold is_byte; lia].
  rewrite <- list_elem_of_In in Hin. unfold bytes_ok in Hl. rewrite Forall_forall in Hl.
  by apply Hl.
Qed.

Definition sum_inv (n : nat) (st : list Z * Z) : Prop :=
  length st.1 = n /\ bytes_ok st.1 /\ 0 <= st.2 <= 1.

Lemma nfold_step_inv input n st i : sum_inv n st -> sum_inv n (nfold_step input n st i).
Proof.
  destruct st as [out carry]. intros (Hl & Hb & Hc). unfold nfold_step. cbn [fst snd] in *.
  cbn zeta. set (x := Z.land (Z.shiftr _ _) 0xff).
  assert (0 <= x < 256) as Hx by (subst x; rewrite land_ff; apply Z.mod_pos_bound; lia).
  pose proof (nth_is_byte (i mod n) out Hb) as Ho. unfold is_byte in Ho.
  split; [|split]; cbn [fst snd].
  - by rewrite length_insert.
  - apply Forall_insert; [done|]. rewrite land_ff. apply Z.mod_pos_bound. lia.
  - rewrite shiftr_8. Z.to_euclidean_division_equations; lia.
Qed.

Lemma nfold_sum_inv input n : sum_inv n (nfold_sum input n).
Proof.
  unfold nfold_sum.
  assert (sum_inv n (replicate n 0, 0)) as H0.
  { split; [apply length_replicate|]. split; [|simpl; lia].
    apply Forall_replicate. unfold is_byte. lia. }
  revert H0. generalize (replicate n 0, 0). generalize (reverse (seq 0
    (n / gcd n (length input) * length input))).
  intros l. induction l as [|i l IH]; intros st Hst; [done|].
  cbn [foldl]. apply IH. by apply nfold_step_inv.
Qed.

Lemma le_val_cons b l : le_val (b :: l) = b + 256 * le_val l.
Proof.
  unfold le_val. rewrite reverse_cons, be_val_app. change (zlen [b]) with 1.
  change (be_val [b]) with b. lia.
Qed.

Lemma le_val_bound l : bytes_ok l -> 0 <= le_val l < 256 ^ zlen l.
Proof.
  intros Hl. unfold le_val. pose proof (be_val_bound (reverse l)) as Hb.
  unfold zlen in *. rewrite length_reverse in Hb. apply Hb.
  unfold bytes_ok. by rewrite Forall_reverse.
Qed.

(** A pass adds the carry and keeps the number, with its overflow. *)
Lemma carry_pass_spec l c l' c' :
  0 <= c -> bytes_ok l -> carry_pass l c = (l', c') ->
  length l' = length l /\ bytes_ok l' /\ 0 <= c'
  /\ le_val l' + c' * 256 ^ zlen l = le_val l + c.
Proof.
  intros Hc Hl. revert c l' c' Hc. induction Hl as [|b l Hb _ IH]; intros c l' c' Hc H.
  - cbn [carry_pass] in H. simplify_eq. split; [done|]. split; [constructor|]. split; [done|].
    change (zlen []) with 0. rewrite Z.pow_0_r. change (le_val []) with 0. lia.
  - cbn [carry_pass] in H. unfold is_byte in Hb.
    destruct (carry_pass l (Z.shiftr (c + b) 8)) as [r c1] eqn:Er. simplify_eq.
    rewrite shiftr_8 in Er. rewrite land_ff.
    apply IH in Er as (Hlen & Hok & Hc1 & Hv); [|apply Z.div_pos; lia].
    split; [simpl; lia|]. split; [constructor; [apply Z.mod_pos_bound; lia|done]|].
    split; [done|]. rewrite !le_val_cons, zlen_cons, Z.pow_add_r, Z.pow_1_r
      by (pose proof (zlen_nonneg l); lia).
    pose proof (Z.div_mod (c + b) 256 ltac:(lia)). lia.
Qed.

Lemma carry_loop_done l c f :
  bytes_ok l -> l <> [] -> 0 <= c <= 1 ->
  exists l', carry_loop (3 + f) l c = (l', 0) /\ length l' = length l /\ bytes_ok l'.
Proof.
  intros Hl Hne Hc.
  assert (256 <= 256 ^ zlen l) as Hpow.
  { destruct l as [|b l]; [done|]. rewrite zlen_cons, Z.pow_add_r, Z.pow_1_r
      by (pose proof (zlen_nonneg l); lia).
    pose proof (Z.pow_pos_nonneg 256 (zlen l) ltac:(lia) (zlen_nonneg l)). lia. }
  pose proof (le_val_bound l Hl) as Hv.
  cbn [Nat.add carry_loop].
  destruct (Z.eqb_spec c 0) as [->|Hc0]; [by exists l|]. assert (c = 1) as -> by lia.
  destruct (carry_pass l 1) as [l1 c1] eqn:E1.
  apply carry_pass_spec in E1 as (Hl1 & Hb1 & Hc1 & Hv1); [|lia|done].
  pose proof (le_val_bound l1 Hb1) as Hv1'.
  assert (zlen l1 = zlen l) as Hz1 by (unfold zlen; lia). rewrite Hz1 in Hv1'.
  destruct (Z.eqb_spec c1 0) as [->|Hc10]; [by exists l1|].
  assert (c1 = 1) as -> by nia.
  destruct (carry_pass l1 1) as [l2 c2] eqn:E2.
  apply carry_pass_spec in E2 as (Hl2 & Hb2 & Hc2 & Hv2); [|lia|done].
  rewrite Hz1 in Hv2. pose proof (le_val_bound l2 Hb2) as Hv2'.
  assert (c2 = 0) as -> by nia.
  exists l2. split; [by destruct f|]. split; [lia|done].
Qed.

Lemma nfold_ok input n : (0 < n)%nat -> length (nfold input n) = n /\ bytes_ok (nfold input n).
Proof.
  intros Hn. unfold nfold. pose proof (nfold_sum_inv input n) as Hinv.
  destruct (nfold_sum input n) as [out carry]. destruct Hinv as (Hl & Hb & Hc). cbn in Hl, Hb, Hc.
  destruct (carry_loop_done (reverse out) carry 0) as (l' & Hcl & Hl' & Hb').
  - unfold bytes_ok. by rewrite Forall_reverse.
  - intros Hr. apply (f_equal length) in Hr. rewrite length_reverse in Hr. simpl in Hr. lia.
  - done.
  - cbn [Nat.add] in Hcl. rewrite Hcl. cbn [fst].
    rewrite length_reverse, Hl', length_reverse. split; [done|].
    unfold bytes_ok. by rewrite Forall_reverse.
Qed.

(** *** Key derivation *)

Section derivation.
Context `{AL : AwsLc} `{!AwsLcLaws}.

Lemma dk_loop_spec fuel base block out len :
  aes_key_len (length base) -> block_ok block -> (len <= fuel + length out)%nat ->
  exists r, dk_loop fuel base block out len = Ok r /\ (len <= length r)%nat.
Proof.
  intros Hb. revert block out. induction fuel as [|fuel IH]; intros block out Hbl Hf; cbn [dk_loop].
  - exists out. split; [done|lia].
  - destruct (Nat.ltb_spec (length out) len); [|by exists out].
    unfold ecb_encrypt. rewrite cipher_key_ok by done.
    assert (block_ok (aes_ecb_encrypt base block)) as Hok by (by apply ecb_encrypt_block).
    apply IH; [done|]. rewrite length_app. destruct Hok as [-> _]. unfold BLOCK. lia.
Qed.

Lemma dk_ok base constant len :
  aes_key_len (length base) ->
  exists k, dk base constant len = Ok k /\ length k = len.
Proof.
  intros Hb. unfold dk.
  destruct (nfold_ok constant BLOCK ltac:(unfold BLOCK; lia)) as [Hl Hok].
  destruct (dk_loop_spec len base (nfold constant BLOCK) [] len Hb) as (r & -> & Hr);
    [done|lia|].
  exists (take len r). split; [done|]. rewrite length_take. lia.
Qed.

Lemma kdf_loop_length fuel alg key label bits out len counter :
  (len <= fuel + length out)%nat ->
  (len <= length (kdf_loop fuel alg key label bits out len counter))%nat.
Proof.
  revert out counter. induction fuel as [|fuel IH]; intros out counter Hf; cbn [kdf_loop]; [lia|].
  destruct (Nat.ltb_spec (length out) len); [|lia].
  apply IH. rewrite length_app. unfold hmac_parts. rewrite hmac_sign_length.
  destruct alg; simpl; lia.
Qed.

Lemma kdf_length alg key label len : length (kdf_hmac_sha2 alg key label len) = len.
Proof.
  unfold kdf_hmac_sha2. rewrite length_take. apply Nat.min_l, kdf_loop_length. simpl. lia.
Qed.

(** The derived encryption key is an AES key of the profile's size. *)
Lemma keys_ok etype p key usage :
  Profile_of etype = Some p -> length key = p_key_len p ->
  aes_key_len (p_key_len p)
  /\ exists uk, keys p key usage = Ok uk /\ length (ke uk) = p_key_len p.
Proof.
  intros Hp Hk.
  assert (aes_key_len (p_key_len p)) as Hlen.
  { unfold Profile_of in Hp. repeat case_match; simplify_eq; simpl; unfold aes_key_len; lia. }
  split; [done|]. unfold keys. destruct (kind p) as [|alg kl tl].
  - destruct (dk_ok key (be_bytes 4 usage ++ [0xAA]) (p_key_len p)) as (e & -> & He);
      [by rewrite Hk|].
    destruct (dk_ok key (be_bytes 4 usage ++ [0x55]) (p_key_len p)) as (i & -> & Hi);
      [by rewrite Hk|].
    eexists. split; [done|]. done.
  - eexists. split; [done|]. cbn [ke]. apply kdf_length.
Qed.

Lemma tag_take_length etype p alg k m :
  Profile_of etype = Some p ->
  (kind p = Sha1 /\ alg = HMAC_SHA1_FOR_LEGACY_USE_ONLY
   \/ exists kl tl, kind p = Sha2 alg kl tl) ->
  length (take (tag_len p) (hmac_parts alg k m)) = tag_len p.
Proof.
  intros Hp Hk. rewrite length_take. unfold hmac_parts. rewrite hmac_sign_length.
  apply Nat.min_l. unfold Profile_of in Hp.
  repeat case_match; simplify_eq; destruct Hk as [[? ->]|(? & ? & ?)]; simplify_eq/=;
    unfold tag_len; simpl; lia.
Qed.

End derivation.

(** ** A small instance

    A toy cipher that satisfies the interface: its block permutation
    reverses a block, and its HMAC repeats a checksum of key and message. *)

Fixpoint chunks (n : nat) (l : list Z) : list (list Z) :=
  match n with O => [] | S n => take BLOCK l :: chunks n (drop BLOCK l) end.

Definition toy_sum (k m : list Z) : Z := foldl (fun a b => (a * 33 + b) mod 256) 7 (k ++ 0 :: m).

Definition toy_aws : AwsLc := {|
  aes_ecb_encrypt _ b := reverse b;
  aes_ecb_decrypt _ b := reverse b;
  aes_cbc_encrypt _ l := concat (cbc_enc reverse zero_block (chunks (length l / BLOCK) l));
  aes_cbc_decrypt _ l := concat (cbc_dec reverse zero_block (chunks (length l / BLOCK) l));
  hmac_sign alg k m := replicate (hmac_len alg) (toy_sum k m)
|}.

Lemma chunks_concat bs : Forall block_ok bs -> chunks (length (concat bs) / BLOCK) (concat bs) = bs.
Proof.
  intros Hbs. rewrite concat_blocks_length by done.
  replace (BLOCK * length bs / BLOCK)%nat with (length bs)
    by (rewrite Nat.mul_comm, Nat.div_mul; done).
  induction Hbs as [|b bs [Hb _] _ IH]; [done|]. simpl concat. cbn [length chunks].
  rewrite take_app_length', drop_app_length' by done. by rewrite IH.
Qed.

Lemma block_ok_reverse b : block_ok b -> block_ok (reverse b).
Proof.
  intros [Hl Hb]. split; [by rewrite length_reverse|]. unfold bytes_ok. by rewrite Forall_reverse.
Qed.

Lemma toy_sum_byte k m : is_byte (toy_sum k m).
Proof.
  unfold toy_sum. assert (is_byte 7) as H7 by (unfold is_byte; lia). revert H7.
  generalize 7. generalize (k ++ 0 :: m). intros l. induction l as [|b l IH]; intros a Ha; [done|].
  cbn [foldl]. apply IH. apply Z.mod_pos_bound. lia.
Qed.

Lemma toy_aws_laws : @AwsLcLaws toy_aws.
Proof.
  split; intros; cbn [aes_ecb_encrypt aes_ecb_decrypt aes_cbc_encrypt aes_cbc_decrypt
    hmac_sign toy_aws].
  - by apply block_ok_reverse.
  - apply reverse_involutive.
  - by rewrite chunks_concat.
  - by rewrite chunks_concat.
  - apply length_replicate.
  - apply Forall_replicate, toy_sum_byte.
Qed.

(** Encryption succeeds, adds a confounder and a tag, and is undone. *)
Lemma encrypt_roundtrip `{AL : AwsLc} `{!AwsLcLaws}
    (etype : Z) (p : Profile) (key : list Z) (usage : Z) (confounder data : list Z) :
  Profile_of etype = Some p -> length key = p_key_len p ->
  block_ok confounder -> bytes_ok data ->
  exists c, encrypt_with p key usage confounder data = Ok c
            /\ length c = (BLOCK + length data + tag_len p)%nat
            /\ decrypt p key usage c = Ok data.
Proof.
  intros Hp Hk [Hcl Hcb] Hd.
  destruct (keys_ok etype p key usage Hp Hk) as [Hal (uk & Huk & Hke)].
  unfold encrypt_with, decrypt. rewrite Hk, Nat.eqb_refl. cbn [negb orb]. rewrite Huk.
  assert (aes_key_len (length (ke uk))) as Hkel by (by rewrite Hke).
  destruct (cts_roundtrip (ke uk) Hkel (confounder ++ data)) as (c & Henc & Hlen & _ & Hdec).
  { by apply bytes_ok_app. }
  { rewrite length_app. lia. }
  rewrite Henc. rewrite length_app in Hlen.
  set (tag := take (tag_len p) _).
  assert (length tag = tag_len p) as Htl.
  { subst tag. destruct (kind p) eqn:Ek; (eapply tag_take_length; [done|]);
      [by left|right; eauto]. }
  eexists. split; [reflexivity|].
  split; [rewrite length_app, Htl, Hlen, Hcl; unfold BLOCK; lia|].
  rewrite length_app, Htl.
  rewrite (proj2 (Nat.ltb_ge _ _)) by (unfold CONFOUNDER_LEN; lia).
  replace (length c + tag_len p - tag_len p)%nat with (length c) by lia.
  rewrite take_app_length, drop_app_length. subst tag.
  destruct (kind p) eqn:Ek.
  - rewrite Hdec. rewrite bool_decide_eq_true_2 by done. cbn [negb].
    by rewrite drop_app_length' by (by rewrite Hcl).
  - rewrite bool_decide_eq_true_2 by done. cbn [negb]. rewrite Hdec.
    by rewrite drop_app_length' by (by rewrite Hcl).
Qed.

(** ** Theorems *)

(** ciphertext stealing is inverted. For an AES key and any plaintext of
    at least one block, of any length, [cts_encrypt] succeeds with a
    ciphertext of the same length and [cts_decrypt] returns the plaintext. *)
Theorem cts_decrypt_encrypt `{AL : AwsLc} `{!AwsLcLaws} (key plain : list Z) :
  aes_key_len (length key) -> bytes_ok plain -> (BLOCK <= length plain)%nat ->
  exists c, cts_encrypt key plain = Ok c /\ length c = length plain
            /\ cts_decrypt key c = Ok plain.
Proof.
  intros Hk Hb Hl. destruct (cts_roundtrip key Hk plain Hb Hl) as (c & ? & ? & _ & ?).
  by exists c.
Qed.

(** every supported encryption type decrypts what it encrypted. With a key
    of the type's length, for any usage, confounder and data, encryption
    succeeds and decryption under the same key and usage returns the data. *)
Theorem decrypt_encrypt `{AL : AwsLc} `{!AwsLcLaws}
    (etype : Z) (p : Profile) (key : list Z) (usage : Z) (confounder data : list Z) :
  Profile_of etype = Some p -> length key = p_key_len p ->
  block_ok confounder -> bytes_ok data ->
  exists c, encrypt_with p key usage confounder data = Ok c
            /\ decrypt p key usage c = Ok data.
Proof.
  intros Hp Hk Hc Hd.
  destruct (encrypt_roundtrip etype p key usage confounder data Hp Hk Hc Hd) as (c & ? & _ & ?).
  by exists c.
Qed.

Lemma cts_decrypt_encrypt_witness :
  exists c, @cts_encrypt toy_aws (replicate 16 1) (seqZ 0 37) = Ok c /\ length c = 37%nat
            /\ @cts_decrypt toy_aws (replicate 16 1) c = Ok (seqZ 0 37).
Proof.
  apply (@cts_decrypt_encrypt toy_aws toy_aws_laws (replicate 16 1) (seqZ 0 37)).
  - left. reflexivity.
  - decide_now.
  - vm_compute. lia.
Defined.

Lemma decrypt_encrypt_witness :
  exists c, @encrypt_with toy_aws (mkProfile 32 (Sha2 HMAC_SHA384 24 24)) (replicate 32 3) 11
              (seqZ 100 16) (seqZ 0 21) = Ok c
            /\ @decrypt toy_aws (mkProfile 32 (Sha2 HMAC_SHA384 24 24)) (replicate 32 3) 11 c
               = Ok (seqZ 0 21).
Proof.
  apply (@decrypt_encrypt toy_aws toy_aws_laws 20 (mkProfile 32 (Sha2 HMAC_SHA384 24 24))).
  - reflexivity.
  - reflexivity.
  - split; [reflexivity|decide_now].
  - decide_now.
Defined.

(** nothing unauthenticated is decrypted. Whatever the bytes, when
    decryption succeeds the ciphertext ends with the profile's tag: the
    truncated HMAC, under the integrity key derived for that usage, of the
    confounder and plaintext (RFC 3962) or of the zero IV and the rest of the
    ciphertext (RFC 8009). *)
Theorem decrypt_authentic `{AL : AwsLc} (p : Profile) (key : list Z) (usage : Z)
    (data plain : list Z) :
  decrypt p key usage data = Ok plain ->
  exists uk cipher confounder,
    keys p key usage = Ok uk
    /\ cts_decrypt (ke uk) cipher = Ok (confounder ++ plain)
    /\ data = cipher ++ take (tag_len p)
         match kind p with
         | Sha1 => hmac_parts HMAC_SHA1_FOR_LEGACY_USE_ONLY (ki uk) [confounder ++ plain]
         | Sha2 alg _ _ => hmac_parts alg (ki uk) [zero_block; cipher]
         end.
Proof.
  unfold decrypt. intros H. destruct (_ || _); [done|].
  destruct (keys p key usage) as [uk|] eqn:Ek; [|done].
  set (cipher := take (length data - tag_len p) data) in *.
  set (tag := drop (length data - tag_len p) data) in *.
  assert (data = cipher ++ tag) as Hdata by (symmetry; apply take_drop).
  exists uk, cipher.
  destruct (kind p) as [|alg kl tl] eqn:Ekind.
  - destruct (cts_decrypt (ke uk) cipher) as [pl|] eqn:Ed; [|done].
    destruct (bool_decide _) eqn:Eb; [|done]. bool_hyps. cbn [negb] in H.
    assert (plain = drop CONFOUNDER_LEN pl) as -> by congruence. exists (take CONFOUNDER_LEN pl). rewrite take_drop. split; [done|]. split; [done|].
    by rewrite Eb.
  - destruct (bool_decide _) eqn:Eb; [|done]. bool_hyps. cbn [negb] in H.
    destruct (cts_decrypt (ke uk) cipher) as [pl|] eqn:Ed; [|done].
    assert (plain = drop CONFOUNDER_LEN pl) as -> by congruence. exists (take CONFOUNDER_LEN pl). rewrite take_drop. split; [done|]. split; [done|].
    by rewrite Eb.
Qed.

Lemma decrypt_authentic_witness :
  exists uk cipher confounder,
    @keys toy_aws (mkProfile 16 Sha1) (replicate 16 3) 2 = Ok uk
    /\ @cts_decrypt toy_aws (ke uk) cipher = Ok (confounder ++ [1; 2; 3])
    /\ default [] (match @encrypt_with toy_aws (mkProfile 16 Sha1) (replicate 16 3) 2
                           (replicate 16 5) [1; 2; 3] with Ok c => Some c | Err _ => None end)
       = cipher ++ take (tag_len (mkProfile 16 Sha1))
           (@hmac_parts toy_aws HMAC_SHA1_FOR_LEGACY_USE_ONLY (ki uk) [confounder ++ [1; 2; 3]]).
Proof.
  apply (@decrypt_authentic toy_aws (mkProfile 16 Sha1) (replicate 16 3) 2
    (default [] (match @encrypt_with toy_aws (mkProfile 16 Sha1) (replicate 16 3) 2
       (replicate 16 5) [1; 2; 3] with Ok c => Some c | Err _ => None end)) [1; 2; 3]).
  vm_compute. reflexivity.
Defined.

(** n-fold terminates and fills its output. For any input and any positive
    output length, the end-around-carry loop has stopped after three turns
    (the carry is zero, and more turns change nothing), and the result is
    [out_len] bytes. *)
Theorem nfold_terminates (input : list Z) (out_len extra : nat) :
  (0 < out_len)%nat ->
  let '(out, carry) := nfold_sum input out_len in
  (carry_loop (3 + extra) (reverse out) carry).2 = 0
  /\ length (nfold input out_len) = out_len /\ bytes_ok (nfold input out_len).
Proof.
  intros Hn. destruct (nfold_ok input out_len Hn) as [Hl Hb].
  pose proof (nfold_sum_inv input out_len) as Hinv.
  destruct (nfold_sum input out_len) as [out carry]. destruct Hinv as (Hol & Hob & Hc).
  cbn in Hol, Hob, Hc.
  destruct (carry_loop_done (reverse out) carry extra) as (l' & -> & _ & _).
  - unfold bytes_ok. by rewrite Forall_reverse.
  - intros Hr. apply (f_equal length) in Hr. rewrite length_reverse in Hr. simpl in Hr. lia.
  - done.
  - done.
Qed.

Lemma nfold_terminates_witness :
  let '(out, carry) := nfold_sum (ascii_bytes "password") 7 in
  (carry_loop (3 + 0) (reverse out) carry).2 = 0
  /\ length (nfold (ascii_bytes "password") 7) = 7%nat
  /\ bytes_ok (nfold (ascii_bytes "password") 7).
Proof. apply (nfold_terminates (ascii_bytes "password") 7 0). lia. Defined.

(** The vectors of RFC 3961 appendix A.1 that the source tests. *)
Example nfold_password : nfold (ascii_bytes "password") 7 = be_bytes 7 0x78a07b6caf85fa.
Proof. vm_compute. reflexivity. Qed.
Example nfold_mit :
  nfold (ascii_bytes "MASSACHVSETTS INSTITVTE OF TECHNOLOGY") 24
  = be_bytes 24 0xdb3b0d8f0b061e603282b308a50841229ad798fab9540c1b.
Proof. vm_compute. reflexivity. Qed.
Example nfold_kerberos :
  nfold (ascii_bytes "kerberos") 16 = be_bytes 16 0x6b65726265726f737b9b5b2b93132b93.
Proof. vm_compute. reflexivity. Qed.
