(* ===== verification/Acceptor.v ===== *)
(** * Accepting a Kerberos AP-REQ

    Models [api/src/kerberos/acceptor.rs] and [api/src/kerberos/crypto.rs]
    (the build with the [kerberos] feature). The clock, SHA-256 and the
    random numbers of an AP-REP are arguments. *)

From S2P Require Import Prelude Utf8 Der Principal Keytab KrbAes.

(** ** [crypto.rs] *)

Inductive CryptoError := Unavailable | Etype (etype : Z) | Integrity.

Section crypto.
Context `{AwsLc}.

Definition cipher (etype : Z) : result CryptoError Profile :=
  ok_or (Profile_of etype) (Etype etype).

Definition crypto_decrypt (etype : Z) (key : list Z) (usage : Z) (data : list Z)
    : result CryptoError (list Z) :=
  if negb (etype_supported etype) then Err (Etype etype)
  else
    let? c := cipher etype in
    if negb (length key =? p_key_len c)%nat then Err Integrity
    else map_err (fun _ => Integrity) (decrypt c key usage data).

(** The confounder is drawn by the caller of the model. *)
Definition crypto_encrypt (etype : Z) (key : list Z) (usage : Z) (confounder data : list Z)
    : result CryptoError (list Z) :=
  if negb (etype_supported etype) then Err (Etype etype)
  else
    let? c := cipher etype in
    if negb (length key =? p_key_len c)%nat then Err Integrity
    else map_err (fun _ => Integrity) (encrypt_with c key usage confounder data).
End crypto.

(** ** [acceptor.rs] *)

Definition USAGE_TICKET : Z := 2.
Definition USAGE_AUTHENTICATOR : Z := 11.
Definition USAGE_AP_REP : Z := 12.
Definition CKSUM_GSSAPI : Z := 0x8003.
Definition GSS_C_MUTUAL_FLAG : Z := 0x02.

(** What the ticket has to satisfy. Times and the skew are in nanoseconds. *)
Record Acceptor := mkAcceptor {
  a_keys : list KeytabEntry;
  a_service : Principal;
  a_realms : list (list Z);
  a_max_skew : Z;
  a_now : Z
}.

(** A client the ticket proves. *)
Record Accepted := mkAccepted {
  client : Principal;
  auth_time : Z;
  end_time : Z;
  replay_key : list Z;
  ap_rep : option (list Z)
}.

Inductive AcceptError :=
| Malformed (e : DerError)
| Version
| UserToUser
| WrongService (name : list Z)
| NoKey (etype : string) (kvno : option Z)
| Ticket (e : CryptoError)
| Authenticator (e : CryptoError)
| NotYetValid
| Expired
| Invalid
| RealmRefused (realm : list Z)
| ClientMismatch
| Skew.

Record EncryptedData := mkEncryptedData {
  ed_etype : Z;
  ed_kvno : option Z;
  ed_cipher : list Z
}.

(** [i32::try_from]. *)
Definition i32_try (v : Z) : option Z :=
  if (- 2 ^ 31 <=? v) && (v <? 2 ^ 31) then Some v else None.

Definition encrypted_data (content : list Z) : result DerError EncryptedData :=
  let? (e, r) := explicit 0 INTEGER content in
  let? ety := int e in
  let? (kv, r) := explicit_opt 1 INTEGER r in
  let? kv := transpose int kv in
  let? (c, _) := explicit 2 OCTET_STRING r in
  let? ety := ok_or (i32_try ety) (mkDerError "etype out of range") in
  Ok (mkEncryptedData ety kv c).

(** The loop over the name components; the bytes left bound it. *)
Fixpoint principal_names (fuel : nat) (names : list Z) (comps : list (list Z))
    : result DerError (list (list Z)) :=
  match fuel with
  | O => Ok comps
  | S fuel =>
      if is_empty names then Ok comps
      else if (length comps =? 8)%nat then derr "too many name components"
      else
        let? (c, names) := expect GENERAL_STRING names in
        let? s := der_string c in
        if negb (nonempty s) then derr "empty name component"
        else principal_names fuel names (comps ++ [s])
  end.

(** [PrincipalName] plus the realm it lives in. *)
Definition der_principal (content rlm : list Z) : result DerError Principal :=
  let? (_, r) := explicit 0 INTEGER content in
  let? (names, _) := explicit 1 SEQUENCE r in
  let? comps := principal_names (length names) names [] in
  if negb (nonempty comps) || negb (nonempty rlm) then derr "empty principal name"
  else Ok (mkPrincipal comps rlm).

(** [struct Key]. *)
Record SessionKey := mkSessionKey { sk_etype : Z; sk_value : list Z }.

Definition encryption_key (content : list Z) : result DerError SessionKey :=
  let? (e, r) := explicit 0 INTEGER content in
  let? ety := int e in
  let? (v, _) := explicit 1 OCTET_STRING r in
  let? ety := ok_or (i32_try ety) (mkDerError "key type out of range") in
  Ok (mkSessionKey ety v).

(** The service an AP-REQ's ticket is for; nothing is checked. *)
Definition service_of (req : list Z) : result DerError Principal :=
  let? c := single req (der_app 14) in
  let? r := single c SEQUENCE in
  let? r := skip_until 3 r in
  let? (t, _) := expect (ctx 3) r in
  let? ticket := single t (der_app 1) in
  let? t := single ticket SEQUENCE in
  let? (_, t) := explicit 0 INTEGER t in
  let? (rl, t) := explicit 1 GENERAL_STRING t in
  let? rl := der_string rl in
  let? (pn, _) := explicit 2 SEQUENCE t in
  der_principal pn rl.

Section acceptor.
Context `{AwsLc} `{Chrono}.
Context (sha256 : list Z -> list Z).

(** The random numbers one AP-REP draws. *)
Context (rng_seq : Z) (rng_confounder : list Z).

(** [AP-REP] echoing the authenticator's time, encrypted in the session key. *)
Definition make_ap_rep (session : SessionKey) (ctime_raw : list Z) (cusec : Z)
    : result CryptoError (list Z) :=
  let seq_number := Z.land rng_seq 0x3fffffff in
  let part :=
    tlv (der_app 27)
      (tlv SEQUENCE
         (der_concat
            [enc_explicit 0 (tlv GENERALIZED_TIME ctime_raw);
             enc_explicit 1 (enc_int cusec);
             enc_explicit 3 (enc_int seq_number)])) in
  let? c := crypto_encrypt (sk_etype session) (sk_value session) USAGE_AP_REP
              rng_confounder part in
  let enc :=
    tlv SEQUENCE
      (der_concat
         [enc_explicit 0 (enc_int (sk_etype session));
          enc_explicit 2 (tlv OCTET_STRING c)]) in
  Ok (tlv (der_app 15)
        (tlv SEQUENCE
           (der_concat
              [enc_explicit 0 (enc_int 5); enc_explicit 1 (enc_int 15); enc_explicit 2 enc]))).

(** The keytab entries a ticket may have been encrypted under. *)
Definition candidates (a : Acceptor) (enc : EncryptedData) : list KeytabEntry :=
  filter (fun k =>
    (etype k =? ed_etype enc)
    && eq_ignore_case (principal k) (a_service a)
    && match ed_kvno enc with None => true | Some v => kvno k =? v end) (a_keys a).

(** The loop over the candidates: the first key that opens the ticket. *)
Fixpoint try_keys (ety : Z) (c : list Z) (plain : result CryptoError (list Z))
    (ks : list KeytabEntry) : result CryptoError (list Z) :=
  match ks with
  | [] => plain
  | k :: ks =>
      let plain := crypto_decrypt ety (key k) USAGE_TICKET c in
      if is_ok plain then plain else try_keys ety c plain ks
  end.

(** The GSS-API checksum's flags. *)
Definition gss_flags_of (cksum : list Z) : result DerError Z :=
  let? (k, c) := explicit 0 INTEGER cksum in
  let? kind := int k in
  let? (value, _) := explicit 1 OCTET_STRING c in
  if kind =? CKSUM_GSSAPI then
    if (zlen value <? 24) || negb (bool_decide (take 4 value = [16; 0; 0; 0]))
    then derr "malformed GSS-API checksum"
    else Ok (le_val (take 4 (drop 20 value)))
  else Ok 0.

Abbreviation m := (map_err Malformed).

(** The part of a ticket encrypted for the service (EncTicketPart). *)
Record TicketPart := mkTicketPart {
  tp_flags : list Z;
  tp_session : SessionKey;
  tp_client : Principal;
  tp_auth_time : Z;
  tp_start_time : option Z;
  tp_end_time : Z
}.

Definition read_ticket_part (plain : list Z) : result DerError TicketPart :=
  let? p := single plain (der_app 3) in
  let? p := single p SEQUENCE in
  let? (flags, p) := explicit 0 BIT_STRING p in
  let? (sk, p) := explicit 1 SEQUENCE p in
  let? session := encryption_key sk in
  let? (cr, p) := explicit 2 GENERAL_STRING p in
  let? crealm := der_string cr in
  let? (cn, p) := explicit 3 SEQUENCE p in
  let? cl := der_principal cn crealm in
  let? (_, p) := expect (ctx 4) p in
  let? (at_, p) := explicit 5 GENERALIZED_TIME p in
  let? at_ := time at_ in
  let? (st, p) := explicit_opt 6 GENERALIZED_TIME p in
  let? st := transpose time st in
  let? (et, _) := explicit 7 GENERALIZED_TIME p in
  let? et := time et in
  Ok (mkTicketPart flags session cl at_ st et).

(** The authenticator's version and the client it names. *)
Definition read_auth_client (auth_plain : list Z) : result AcceptError (Principal * list Z) :=
  let? au := m (single auth_plain (der_app 2)) in
  let? au := m (single au SEQUENCE) in
  let? (v, au) := m (explicit 0 INTEGER au) in
  let? v := m (int v) in
  if negb (v =? 5) then Err Version else
  let? (ar, au) := m (explicit 1 GENERAL_STRING au) in
  let? a_realm := m (der_string ar) in
  let? (an, au) := m (explicit 2 SEQUENCE au) in
  let? a_client := m (der_principal an a_realm) in
  Ok (a_client, au).

(** The rest of the authenticator: the GSS-API flags, the microseconds and the
    time, as sent and as read. *)
Definition read_auth_rest (au : list Z) : result AcceptError (Z * Z * list Z * Z) :=
  let? (ck, au) := m (explicit_opt 3 SEQUENCE au) in
  let? gss_flags :=
    match ck with Some cksum => m (gss_flags_of cksum) | None => Ok 0 end in
  let? (cu, au) := m (explicit 4 INTEGER au) in
  let? cusec := m (int cu) in
  if negb ((0 <=? cusec) && (cusec <=? 999999))
  then Err (Malformed (mkDerError "microseconds out of range")) else
  let? (ctime_raw, _) := m (explicit 5 GENERALIZED_TIME au) in
  let? ctime := m (time ctime_raw) in
  Ok (gss_flags, cusec, ctime_raw, ctime).

(** The checks of [Acceptor::accept] on a ticket that decrypted. *)
Definition accept_ticket (a : Acceptor) (mutual_required : bool) (authenticator : EncryptedData)
    (tp : TicketPart) : result AcceptError Accepted :=
  let session := tp_session tp in
  let cl := tp_client tp in
  if bit (tp_flags tp) 7 then Err Invalid else
  if a_now a <? default (tp_auth_time tp) (tp_start_time tp) - a_max_skew a
  then Err NotYetValid else
  if tp_end_time tp + a_max_skew a <? a_now a then Err Expired else
  if negb (existsb (fun r => eq_ignore_ascii_case r (realm cl)) (a_realms a))
  then Err (RealmRefused (realm cl)) else
  if negb (etype_supported (sk_etype session))
     || negb (bool_decide (etype_key_len (sk_etype session) = Some (zlen (sk_value session))))
     || negb (ed_etype authenticator =? sk_etype session)
  then Err (Authenticator (Etype (ed_etype authenticator))) else
  (* The authenticator, under the session key. *)
  let? auth_plain :=
    map_err Authenticator
      (crypto_decrypt (sk_etype session) (sk_value session) USAGE_AUTHENTICATOR
         (ed_cipher authenticator)) in
  let? (a_client, au) := read_auth_client auth_plain in
  if negb (bool_decide (a_client = cl)) then Err ClientMismatch else
  let? (gss_flags, cusec, ctime_raw, ctime) := read_auth_rest au in
  if a_max_skew a <? Z.abs (ctime - a_now a) then Err Skew else
  let mutual := mutual_required || negb (Z.land gss_flags GSS_C_MUTUAL_FLAG =? 0) in
  let? rep :=
    if mutual
    then map_err Authenticator (let? x := make_ap_rep session ctime_raw cusec in Ok (Some x))
    else Ok None in
  Ok (mkAccepted cl (tp_auth_time tp) (tp_end_time tp) (sha256 (ed_cipher authenticator)) rep).

(** The AP-REQ's outer fields: whether it asks for mutual authentication, the
    ticket and the encrypted authenticator. *)
Definition read_ap_req (req : list Z) : result AcceptError (bool * list Z * EncryptedData) :=
  let? c := m (single req (der_app 14)) in
  let? r := m (single c SEQUENCE) in
  let? (v, r) := m (explicit 0 INTEGER r) in
  let? v := m (int v) in
  if negb (v =? 5) then Err Version else
  let? (t, r) := m (explicit 1 INTEGER r) in
  let? t := m (int t) in
  if negb (t =? 14) then Err Version else
  let? (options, r) := m (explicit 2 BIT_STRING r) in
  if bit options 1 then Err UserToUser else
  let mutual_required := bit options 2 in
  let? (t, r) := m (expect (ctx 3) r) in
  let? ticket := m (single t (der_app 1)) in
  let? (au, _) := m (explicit 4 SEQUENCE r) in
  let? authenticator := m (encrypted_data au) in
  Ok (mutual_required, ticket, authenticator).

(** The ticket's clear part, for this service; its encrypted part. *)
Definition read_ticket (service : Principal) (ticket : list Z) : result AcceptError EncryptedData :=
  let? t := m (single ticket SEQUENCE) in
  let? (v, t) := m (explicit 0 INTEGER t) in
  let? v := m (int v) in
  if negb (v =? 5) then Err Version else
  let? (sr, t) := m (explicit 1 GENERAL_STRING t) in
  let? srealm := m (der_string sr) in
  let? (sn, t) := m (explicit 2 SEQUENCE t) in
  let? sname := m (der_principal sn srealm) in
  if negb (eq_ignore_case sname service) then Err (WrongService (to_string sname)) else
  let? (e, _) := m (explicit 3 SEQUENCE t) in
  m (encrypted_data e).

(** [Acceptor::accept]: check an AP-REQ (DER). *)
Definition accept (a : Acceptor) (req : list Z) : result AcceptError Accepted :=
  let? (mutual_required, ticket, authenticator) := read_ap_req req in
  let? enc := read_ticket (a_service a) ticket in
  let ks := candidates a enc in
  if negb (nonempty ks) || negb (etype_supported (ed_etype enc))
  then Err (NoKey (etype_name (ed_etype enc)) (ed_kvno enc)) else
  let? plain := map_err Ticket (try_keys (ed_etype enc) (ed_cipher enc) (Err Integrity) ks) in
  let? tp := m (read_ticket_part plain) in
  accept_ticket a mutual_required authenticator tp.

End acceptor.

(** ** Lemmas *)

Lemma map_err_Ok {E E' A} (f : E -> E') (r : result E A) x : map_err f r = Ok x -> r = Ok x.
Proof. by destruct r; intros [=->]. Qed.

Section soundness.
Context `{AwsLc} `{Chrono}.

Lemma try_keys_Ok ety c plain0 ks plain :
  try_keys ety c plain0 ks = Ok plain -> plain0 = Err Integrity \/ ks <> [] ->
  plain0 = Ok plain \/ exists k, k ∈ ks /\ crypto_decrypt ety (key k) USAGE_TICKET c = Ok plain.
Proof.
  revert plain0. induction ks as [|k ks IH]; intros plain0 Hp Hk; cbn [try_keys] in Hp; [by left|].
  destruct (crypto_decrypt ety (key k) USAGE_TICKET c) as [p|e] eqn:Ed; cbn [is_ok] in Hp.
  - right. exists k. split; [by constructor|]. congruence.
  - destruct ks as [|k' ks'].
    + cbn [try_keys] in Hp. congruence.
    + apply IH in Hp as [?|(k2 & Hin & Hd)]; [congruence| |by right].
      right. exists k2. split; [by constructor|done].
Qed.

Lemma candidates_spec a enc k :
  k ∈ candidates a enc ->
  k ∈ a_keys a /\ etype k = ed_etype enc /\ eq_ignore_case (principal k) (a_service a) = true
  /\ (forall v, ed_kvno enc = Some v -> kvno k = v).
Proof.
  unfold candidates. intros [Hp Hin]%list_elem_of_filter.
  apply Is_true_true in Hp. bool_hyps. repeat split; try done.
  intros v Hv. rewrite Hv in *. by apply Z.eqb_eq.
Qed.
End soundness.

(** ** Theorems *)

(** What accepting an AP-REQ has established: [enc] is the encrypted part of
    the ticket in it and [au] its authenticator, [k] the service key that
    opened the ticket, [tp] what the ticket says and [ctime] the
    authenticator's time. *)
Definition proven `{AwsLc} `{Chrono} (sha256 : list Z -> list Z) (a : Acceptor) (req : list Z)
    (acc : Accepted) (enc au : EncryptedData) (k : KeytabEntry) (tp : TicketPart) (ctime : Z) : Prop :=
  (* the request carries a ticket for the service, and an authenticator *)
  (exists mutual ticket, read_ap_req req = Ok (mutual, ticket, au)
                         /\ read_ticket (a_service a) ticket = Ok enc)
  (* the ticket decrypts under a key of this service, the one it names *)
  /\ k ∈ a_keys a /\ eq_ignore_case (principal k) (a_service a) = true
  /\ etype k = ed_etype enc /\ (forall v, ed_kvno enc = Some v -> kvno k = v)
  /\ etype_supported (etype k) = true
  /\ (exists plain, crypto_decrypt (etype k) (key k) USAGE_TICKET (ed_cipher enc) = Ok plain
                    /\ read_ticket_part plain = Ok tp)
  (* it is valid now, and not marked invalid *)
  /\ bit (tp_flags tp) 7 = false
  /\ default (tp_auth_time tp) (tp_start_time tp) - a_max_skew a <= a_now a
  /\ a_now a <= tp_end_time tp + a_max_skew a
  (* the client comes from an allowed realm *)
  /\ (exists r, r ∈ a_realms a /\ eq_ignore_ascii_case r (realm (tp_client tp)) = true)
  (* the authenticator decrypts under the session key, names the client and
     was made about now *)
  /\ (exists auth_plain rest flags cusec raw,
        crypto_decrypt (sk_etype (tp_session tp)) (sk_value (tp_session tp))
          USAGE_AUTHENTICATOR (ed_cipher au) = Ok auth_plain
        /\ read_auth_client auth_plain = Ok (tp_client tp, rest)
        /\ read_auth_rest rest = Ok (flags, cusec, raw, ctime))
  /\ Z.abs (ctime - a_now a) <= a_max_skew a
  (* and that is what is reported *)
  /\ client acc = tp_client tp /\ auth_time acc = tp_auth_time tp
  /\ end_time acc = tp_end_time tp /\ replay_key acc = sha256 (ed_cipher au).

(** Takes the [Ok] branch of the next [let?], or the branch of the next [if]
    that does not end in an error. *)
Ltac next H E :=
  lazymatch type of H with
  | match ?x with Ok _ => _ | Err _ => _ end = Ok _ =>
      destruct x eqn:E; [|discriminate H]; try apply map_err_Ok in E
  | (if ?x then _ else _) = Ok _ =>
      (destruct x eqn:E; [discriminate H|]) || (destruct x eqn:E; [|discriminate H])
  | (let (_, _) := ?x in _) = Ok _ => destruct x as [? ?]
  end.
Ltac nexts H := repeat (let E := fresh "E" in next H E).

(** C11: an accepted client is proven. When [accept] succeeds, on whatever
    bytes, they hold a ticket for the configured service which a key of its
    keytab opened, the ticket is within its validity window and not marked
    invalid, its client is of an allowed realm, the authenticator in the
    request decrypted under the ticket's session key, names the same client
    and is no further from now than the allowed skew, and the client, the
    times and the replay key reported are the ticket's and the
    authenticator's. *)
Theorem accept_sound `{AwsLc} `{Chrono} (sha256 : list Z -> list Z)
    (rng_seq : Z) (rng_confounder : list Z) (a : Acceptor) (req : list Z) (acc : Accepted) :
  accept sha256 rng_seq rng_confounder a req = Ok acc ->
  exists enc au k tp ctime, proven sha256 a req acc enc au k tp ctime.
Proof.
  unfold accept, accept_ticket. cbv zeta. intros HA.
  destruct (read_ap_req req) as [[[mutual ticket] au]|] eqn:Ereq; [|done].
  destruct (read_ticket (a_service a) ticket) as [enc|] eqn:Etkt; [|done].
  nexts HA. injection HA as <-. bool_hyps.
  match goal with Ek : try_keys ?e ?c _ _ = Ok ?pl |- _ =>
    apply try_keys_Ok in Ek as [|(k & Hin & Hdec)]; [discriminate| |by left] end.
  apply candidates_spec in Hin as (Hk & Hety & Hsvc & Hkv).
  match goal with
  | Et : read_ticket_part ?pl = Ok ?tp,
    Ec : read_auth_rest _ = Ok (_, _, _, ?ct), Er : existsb _ _ = true |- _ =>
      apply existsb_exists in Er as (r & Hr & Hre);
      exists enc, au, k, tp, ct
  end.
  unfold proven. rewrite Hety. subst.
  split; [eauto|]. repeat split; try done; [by eexists| |].
  - exists r. split; [by apply list_elem_of_In|done].
  - eauto 10.
Qed.
