(* ===== verification/Kdc.v ===== *)
(** * The issuing side of Kerberos, and the protocol end to end

    Models [api/src/kerberos/testing.rs], the source's key distribution
    center in miniature (a ticket in the service key, an authenticator in
    the session key), and proves that what it issues is accepted by the
    acceptor of [Acceptor.v], read from the browser's token by [Spnego.v],
    under the key that [Keytab.v] reads from the service's keytab file, and
    that the client can check the AP-REP it gets back. *)

From S2P Require Import Prelude Utf8 Der Principal Keytab KrbAes Acceptor.
From S2P Require Spnego.

(** A service with its long-term key. *)
Record Kdc := mkKdc {
  k_service : Principal;
  k_kvno : Z;
  k_etype : Z;
  k_key : list Z
}.

(** Everything about one AP-REQ. *)
Record Request := mkRequest {
  q_client : Principal;
  q_authenticator_client : option Principal;
  q_auth_time : Z;
  q_start_time : option Z;
  q_end_time : Z;
  q_ctime : Z;
  q_mutual : bool;
  q_invalid : bool;
  q_ticket_key : option (list Z);
  q_sname : option Principal;
  q_kvno : option Z
}.

(** A request's AP-REQ and the session key the client holds. *)
Record Issued := mkIssued {
  i_ap_req : list Z;
  i_session_key : list Z;
  i_ctime : Z
}.

(** The random bytes one [issue] draws: the session key and a confounder for
    each of the two encryptions. *)
Record KdcRng := mkKdcRng {
  rng_session_key : list Z;
  rng_ticket_confounder : list Z;
  rng_auth_confounder : list Z
}.

Definition name_items (p : Principal) : list (list Z) :=
  (fun c => tlv GENERAL_STRING (utf8_encode c)) <$> components p.

(** The content of [principal_name]. *)
Definition principal_body (p : Principal) : list Z :=
  der_concat
    [enc_explicit 0 (enc_int (if (1 <? length (components p))%nat then 2 else 1));
     enc_explicit 1 (tlv SEQUENCE (der_concat (name_items p)))].
Definition principal_name (p : Principal) : list Z := tlv SEQUENCE (principal_body p).

Definition encrypted_body (ety : Z) (kv : option Z) (c : list Z) : list Z :=
  der_concat
    ([enc_explicit 0 (enc_int ety)]
     ++ match kv with Some v => [enc_explicit 1 (enc_int v)] | None => [] end
     ++ [enc_explicit 2 (tlv OCTET_STRING c)]).
Definition encrypted (ety : Z) (kv : option Z) (c : list Z) : list Z :=
  tlv SEQUENCE (encrypted_body ety kv c).

Definition bits (first : Z) : list Z := tlv BIT_STRING [0; first; 0; 0; 0].

Definition entry (k : Kdc) : KeytabEntry :=
  mkKeytabEntry (k_service k) (k_kvno k) (k_etype k) (k_key k).

Definition keytab (k : Kdc) : list Z := write_keytab [entry k].

Section kdc.
Context `{AwsLc} `{Chrono}.

(** The plaintext of the ticket. *)
Definition enc_part (req : Request) (session_key : list Z) : list Z :=
  let part :=
    [enc_explicit 0 (bits (if q_invalid req then 0x01 else 0x40));
     enc_explicit 1
       (tlv SEQUENCE
          (der_concat [enc_explicit 0 (enc_int ETYPE_AES256);
                       enc_explicit 1 (tlv OCTET_STRING session_key)]));
     enc_explicit 2 (tlv GENERAL_STRING (utf8_encode (realm (q_client req))));
     enc_explicit 3 (principal_name (q_client req));
     enc_explicit 4
       (tlv SEQUENCE
          (der_concat [enc_explicit 0 (enc_int 1);
                       enc_explicit 1 (tlv OCTET_STRING [])]));
     enc_explicit 5 (enc_time (q_auth_time req))]
    ++ match q_start_time req with Some s => [enc_explicit 6 (enc_time s)] | None => [] end
    ++ [enc_explicit 7 (enc_time (q_end_time req))] in
  tlv (der_app 3) (tlv SEQUENCE (der_concat part)).

Definition make_ticket (k : Kdc) (sname : Principal) (kv : option Z) (c : list Z) : list Z :=
  tlv (der_app 1)
    (tlv SEQUENCE
       (der_concat
          [enc_explicit 0 (enc_int 5);
           enc_explicit 1 (tlv GENERAL_STRING (utf8_encode (realm sname)));
           enc_explicit 2 (principal_name sname);
           enc_explicit 3 (encrypted (k_etype k) kv c)])).

Definition checksum (mutual : bool) : list Z :=
  let flags := Z.lor (Z.lor 0x20 0x10) (if mutual then 0x02 else 0) in
  [16; 0; 0; 0] ++ replicate 16 0 ++ reverse (be_bytes 4 flags).

Definition make_authenticator (req : Request) (who : Principal) : list Z :=
  tlv (der_app 2)
    (tlv SEQUENCE
       (der_concat
          [enc_explicit 0 (enc_int 5);
           enc_explicit 1 (tlv GENERAL_STRING (utf8_encode (realm who)));
           enc_explicit 2 (principal_name who);
           enc_explicit 3
             (tlv SEQUENCE
                (der_concat [enc_explicit 0 (enc_int 0x8003);
                             enc_explicit 1 (tlv OCTET_STRING (checksum (q_mutual req)))]));
           enc_explicit 4 (enc_int 123456);
           enc_explicit 5 (enc_time (q_ctime req));
           enc_explicit 7 (enc_int 42)])).

Definition make_ap_req (ticket auth_cipher : list Z) : list Z :=
  tlv (der_app 14)
    (tlv SEQUENCE
       (der_concat
          [enc_explicit 0 (enc_int 5);
           enc_explicit 1 (enc_int 14);
           enc_explicit 2 (bits 0);
           enc_explicit 3 ticket;
           enc_explicit 4 (encrypted ETYPE_AES256 None auth_cipher)])).

(** [Kdc::issue]: build the AP-REQ. *)
Definition issue (k : Kdc) (rng : KdcRng) (req : Request) : result CryptoError Issued :=
  let session_key := rng_session_key rng in
  let ticket_key := default (k_key k) (q_ticket_key req) in
  let? ticket_cipher :=
    crypto_encrypt (k_etype k) ticket_key USAGE_TICKET (rng_ticket_confounder rng)
      (enc_part req session_key) in
  let sname := default (k_service k) (q_sname req) in
  let ticket := make_ticket k sname (q_kvno req) ticket_cipher in
  let who := default (q_client req) (q_authenticator_client req) in
  let? auth_cipher :=
    crypto_encrypt ETYPE_AES256 session_key USAGE_AUTHENTICATOR (rng_auth_confounder rng)
      (make_authenticator req who) in
  Ok (mkIssued (make_ap_req ticket auth_cipher) session_key (q_ctime req)).

(** The [Authorization: Negotiate] token a browser would send. *)
Definition negotiate_token (k : Kdc) (rng : KdcRng) (req : Request)
    : result CryptoError (list Z * Issued) :=
  let? issued := issue k rng req in
  Ok (Spnego.wrap_ap_req (i_ap_req issued) Spnego.MsKrb5 true, issued).

Definition ok {E A} (r : result E A) : option A :=
  match r with Ok a => Some a | Err _ => None end.

(** Check an acceptor's AP-REP the way the client does. *)
Definition verify_ap_rep (rep : list Z) (issued : Issued) : bool :=
  default false
    (rep0 ← ok (single rep (der_app 15));
     r ← ok (single rep0 SEQUENCE);
     '(_, r) ← ok (explicit 0 INTEGER r);
     '(_, r) ← ok (explicit 1 INTEGER r);
     '(e, _) ← ok (explicit 2 SEQUENCE r);
     '(t, e) ← ok (explicit 0 INTEGER e);
     ety ← ok (int t);
     '(_, e) ← ok (explicit_opt 1 INTEGER e);
     '(c, _) ← ok (explicit 2 OCTET_STRING e);
     plain ← ok (crypto_decrypt (as_i32 ety) (i_session_key issued) USAGE_AP_REP c);
     part ← ok (single plain (der_app 27));
     p ← ok (single part SEQUENCE);
     '(ct, p) ← ok (explicit 0 GENERALIZED_TIME p);
     ctime ← ok (time ct);
     '(cu, _) ← ok (explicit 1 INTEGER p);
     cusec ← ok (int cu);
     Some (bool_decide (format_time ctime = format_time (i_ctime issued)) && (cusec =? 123456))).

End kdc.

(** ** Lemmas *)

Definition word_ok (s : list Z) : Prop := s <> [] /\ str_ok s /\ str_len s <= 1024.
Definition wf_principal (p : Principal) : Prop :=
  (1 <= length (components p) <= 8)%nat /\ Forall word_ok (components p) /\ word_ok (realm p).

Lemma word_size s : word_ok s -> 0 <= zlen (utf8_encode s) <= 1024.
Proof. intros (_ & _ & Hl). unfold str_len in Hl. pose proof (zlen_nonneg (utf8_encode s)). lia. Qed.

Lemma der_string_encode s : word_ok s -> der_string (utf8_encode s) = Ok s.
Proof.
  intros (_ & Hs & Hl). unfold der_string, str_len in *.
  rewrite (proj2 (Z.ltb_ge _ _)) by done. by rewrite utf8_decode_encode.
Qed.

Lemma names_size l :
  Forall word_ok l ->
  0 <= zlen (concat ((fun c => tlv GENERAL_STRING (utf8_encode c)) <$> l)) <= 1034 * zlen l.
Proof.
  induction 1 as [|s l Hs _ IH]; [by vm_compute|].
  cbn [fmap list_fmap concat]. rewrite zlen_app, zlen_cons.
  pose proof (word_size s Hs). pose proof (tlv_length GENERAL_STRING (utf8_encode s)). lia.
Qed.

Lemma principal_names_items l comps fuel :
  Forall word_ok l -> (length comps + length l <= 8)%nat ->
  (length (concat ((fun c => tlv GENERAL_STRING (utf8_encode c)) <$> l)) <= fuel)%nat ->
  principal_names fuel (concat ((fun c => tlv GENERAL_STRING (utf8_encode c)) <$> l)) comps
  = Ok (comps ++ l).
Proof.
  intros Hl. revert comps fuel. induction Hl as [|s l Hs _ IH]; intros comps fuel Hn Hf.
  - rewrite app_nil_r. by destruct fuel.
  - cbn [fmap list_fmap concat] in *. rewrite length_app in Hf.
    pose proof (tlv_length GENERAL_STRING (utf8_encode s)) as Hlen.
    pose proof (word_size s Hs) as Hws. unfold zlen in Hlen, Hws.
    destruct fuel as [|fuel]; [lia|]. cbn [principal_names].
    rewrite (proj2 (Nat.eqb_neq _ _)) by (simpl in Hn; lia).
    change (is_empty (tlv GENERAL_STRING (utf8_encode s) ++ ?r)) with false. cbn iota.
    rewrite expect_tlv; [|decide_now|unfold zlen; lia].
    rewrite der_string_encode by done.
    assert (nonempty s = true) as -> by (destruct Hs as [? _]; by destruct s).
    cbn [negb]. rewrite IH; [by rewrite <- app_assoc| |lia].
    rewrite length_app. simpl in *. lia.
Qed.

Lemma explicit_int n v rest :
  0 <= n < 31 -> fits_s 64 v ->
  explicit n INTEGER (enc_explicit n (enc_int v) ++ rest) = Ok (int_strip (be_bytes 8 v), rest).
Proof.
  intros Hn Hv. destruct (int_content v Hv) as (_ & Hl & _).
  apply explicit_enc; [done|decide_now|]. unfold small, zlen. lia.
Qed.

Lemma explicit_opt_int n v rest :
  0 <= n < 31 -> fits_s 64 v ->
  explicit_opt n INTEGER (enc_explicit n (enc_int v) ++ rest)
  = Ok (Some (int_strip (be_bytes 8 v)), rest).
Proof.
  intros Hn Hv. destruct (int_content v Hv) as (_ & Hl & _).
  apply explicit_opt_enc; [done|decide_now|]. unfold small, zlen. lia.
Qed.

Lemma int_read v : fits_s 64 v -> int (int_strip (be_bytes 8 v)) = Ok v.
Proof. intros Hv. by destruct (int_content v Hv) as (_ & _ & ?). Qed.

Lemma enc_int_size v : fits_s 64 v -> 0 <= zlen (enc_int v) <= 18.
Proof.
  intros Hv. destruct (int_content v Hv) as (_ & Hl & _). unfold enc_int.
  pose proof (tlv_length INTEGER (int_strip (be_bytes 8 v))). unfold zlen in *. lia.
Qed.

Lemma enc_int_ok v : fits_s 64 v -> bytes_ok (enc_int v).
Proof.
  intros Hv. destruct (int_content v Hv) as (Hb & _ & _). apply tlv_ok; [decide_now|done].
Qed.

Lemma fits_small v : - 2 ^ 31 <= v < 2 ^ 32 -> fits_s 64 v.
Proof. unfold fits_s. lia. Qed.

(** Principal names, as written and read. *)
Lemma principal_body_size p : wf_principal p -> 0 <= zlen (principal_body p) <= 9000.
Proof.
  intros (Hn & Hc & _). unfold principal_body, name_items, der_concat. cbn [concat].
  pose proof (names_size (components p) Hc) as Hs.
  set (nm := concat _) in *. unfold enc_explicit. rewrite !zlen_app.
  pose proof (enc_int_size (if (1 <? length (components p))%nat then 2 else 1)
    ltac:(case_match; unfold fits_s; lia)) as Hi.
  pose proof (tlv_length (ctx 0) (enc_int (if (1 <? length (components p))%nat then 2 else 1))).
  pose proof (tlv_length (ctx 1) (tlv SEQUENCE nm)). pose proof (tlv_length SEQUENCE nm).
  change (@zlen Z []) with 0. change (zlen (components p)) with (Z.of_nat (length (components p))) in Hs.
  lia.
Qed.

Lemma der_principal_body p : wf_principal p -> der_principal (principal_body p) (realm p) = Ok p.
Proof.
  intros (Hn & Hc & Hr). unfold der_principal, principal_body, name_items, der_concat.
  cbn [concat]. pose proof (names_size (components p) Hc) as Hs.
  change (zlen (components p)) with (Z.of_nat (length (components p))) in Hs.
  rewrite explicit_int by (lia || (case_match; unfold fits_s; lia)).
  rewrite explicit_enc; [|lia|decide_now|unfold small; lia].
  rewrite principal_names_items; [|done|simpl; lia|done]. cbn [app].
  assert (nonempty (components p) = true) as -> by (by destruct (components p); simpl in *; [lia|]).
  assert (nonempty (realm p) = true) as -> by (destruct Hr as [? _]; by destruct (realm p)).
  by destruct p.
Qed.

Lemma word_bytes s : word_ok s -> bytes_ok (utf8_encode s).
Proof. intros (_ & Hs & _). by apply utf8_encode_ok. Qed.

Lemma bytes_ok_concat ls : Forall bytes_ok ls -> bytes_ok (concat ls).
Proof. induction 1; [constructor|]. by apply bytes_ok_app. Qed.

Lemma principal_body_ok p : wf_principal p -> bytes_ok (principal_body p).
Proof.
  intros (_ & Hc & _). unfold principal_body, der_concat. apply bytes_ok_concat.
  constructor; [|constructor; [|constructor]].
  - apply tlv_ok; [decide_now|]. apply enc_int_ok. case_match; unfold fits_s; lia.
  - apply tlv_ok; [decide_now|]. apply tlv_ok; [decide_now|]. apply bytes_ok_concat.
    unfold name_items. apply Forall_fmap. eapply Forall_impl; [exact Hc|].
    intros s Hs. cbn [compose]. apply tlv_ok; [decide_now|]. by apply word_bytes.
Qed.

(** The readers on what the KDC writes. *)
Lemma explicit_seq n content rest :
  0 <= n < 31 -> small content ->
  explicit n SEQUENCE (enc_explicit n (tlv SEQUENCE content) ++ rest) = Ok (content, rest).
Proof. intros. apply explicit_enc; [done|decide_now|done]. Qed.

Lemma explicit_opt_seq n content rest :
  0 <= n < 31 -> small content ->
  explicit_opt n SEQUENCE (enc_explicit n (tlv SEQUENCE content) ++ rest) = Ok (Some content, rest).
Proof. intros. apply explicit_opt_enc; [done|decide_now|done]. Qed.

Lemma explicit_opt_absent n n' inner x rest :
  ctx n' <> ctx n ->
  explicit_opt n inner (enc_explicit n' x ++ rest) = Ok (None, enc_explicit n' x ++ rest).
Proof. intros. by apply explicit_opt_other. Qed.

Lemma expect_explicit n x rest :
  0 <= n < 31 -> zlen x < 2 ^ 24 -> expect (ctx n) (enc_explicit n x ++ rest) = Ok (x, rest).
Proof. intros. apply expect_tlv; [by apply ctx_ok|done]. Qed.

Lemma explicit_octets n content rest :
  0 <= n < 31 -> small content ->
  explicit n OCTET_STRING (enc_explicit n (tlv OCTET_STRING content) ++ rest) = Ok (content, rest).
Proof. intros. apply explicit_enc; [done|decide_now|done]. Qed.

Lemma explicit_word n s rest :
  0 <= n < 31 -> word_ok s ->
  explicit n GENERAL_STRING (enc_explicit n (tlv GENERAL_STRING (utf8_encode s)) ++ rest)
  = Ok (utf8_encode s, rest).
Proof.
  intros Hn Hs. pose proof (word_size s Hs). apply explicit_enc; [done|decide_now|].
  unfold small. lia.
Qed.

Lemma explicit_bits n f rest :
  0 <= n < 31 ->
  explicit n BIT_STRING (enc_explicit n (bits f) ++ rest) = Ok ([0; f; 0; 0; 0], rest).
Proof. intros Hn. apply explicit_enc; [done|decide_now|]. unfold small, zlen. cbn [length]. lia. Qed.

Lemma explicit_principal n p rest :
  0 <= n < 31 -> wf_principal p ->
  explicit n SEQUENCE (enc_explicit n (principal_name p) ++ rest) = Ok (principal_body p, rest).
Proof. intros Hn Hp. pose proof (principal_body_size p Hp). apply explicit_seq; unfold small; lia. Qed.

Definition time_ok (t : Z) : Prop := 0 <= t < 253402300800 * NANOS.

Section times.
Context `{Chrono} `{!ChronoLaws}.

Lemma explicit_time n t rest :
  0 <= n < 31 -> time_ok t ->
  explicit n GENERALIZED_TIME (enc_explicit n (enc_time t) ++ rest) = Ok (format_time t, rest).
Proof.
  intros Hn Ht. destruct (time_format t Ht) as (_ & Hl & _).
  apply explicit_enc; [done|decide_now|]. unfold small. lia.
Qed.

Lemma explicit_opt_time n t rest :
  0 <= n < 31 -> time_ok t ->
  explicit_opt n GENERALIZED_TIME (enc_explicit n (enc_time t) ++ rest)
  = Ok (Some (format_time t), rest).
Proof.
  intros Hn Ht. destruct (time_format t Ht) as (_ & Hl & _).
  apply explicit_opt_enc; [done|decide_now|]. unfold small. lia.
Qed.

Lemma time_read t : time_ok t -> time (format_time t) = Ok (whole t).
Proof. intros Ht. by destruct (time_format t Ht) as (? & _). Qed.

Lemma time_size t : time_ok t -> zlen (format_time t) = 15.
Proof. intros Ht. by destruct (time_format t Ht) as (_ & ? & _). Qed.

Lemma time_bytes t : time_ok t -> bytes_ok (format_time t).
Proof. intros Ht. by destruct (time_format t Ht) as (_ & _ & ?). Qed.
Lemma enc_time_size t : time_ok t -> 0 <= zlen (enc_time t) <= 25.
Proof.
  intros Ht. pose proof (time_size t Ht) as Hs. unfold enc_time.
  pose proof (tlv_length GENERALIZED_TIME (format_time t)). lia.
Qed.

Lemma enc_time_bytes t : time_ok t -> bytes_ok (enc_time t).
Proof. intros Ht. apply tlv_ok; [decide_now|by apply time_bytes]. Qed.

End times.

(** Bounds the size of nested encodings whose leaves have a known size. *)
Ltac enc_size :=
  unfold enc_explicit, principal_name, bits, der_concat in *; cbn [app concat] in *;
  repeat (rewrite ?zlen_app, ?zlen_cons in *;
    match goal with
    | |- context [zlen (tlv ?t ?c)] =>
        pose proof (tlv_length t c); generalize dependent (zlen (tlv t c)); intros
    | H : context [zlen (tlv ?t ?c)] |- _ =>
        pose proof (tlv_length t c); generalize dependent (zlen (tlv t c)); intros
    end);
  rewrite ?zlen_app, ?zlen_cons in *; change (@zlen Z []) with 0 in *; lia.

(** Reads the next field with the lemma for its kind. *)
Ltac read_with tac :=
  first [ rewrite explicit_int by tac | rewrite int_read by tac
        | rewrite explicit_octets by tac | rewrite explicit_bits by tac
        | rewrite explicit_word by tac | rewrite der_string_encode by tac
        | rewrite explicit_principal by tac | rewrite der_principal_body by tac
        | rewrite explicit_time by tac | rewrite time_read by tac
        | rewrite explicit_opt_time by tac
        | rewrite explicit_opt_absent by done
        | rewrite explicit_seq by tac ].
Ltac field_ok := first [lia | done | by unfold fits_s; lia | by unfold small; lia].

(** Closes [bytes_ok] of nested encodings. *)
Ltac enc_bytes :=
  repeat lazymatch goal with
    | |- bytes_ok (enc_int _) =>
        first [assumption | apply enc_int_ok; unfold fits_s, ETYPE_AES256; lia]
    | |- bytes_ok (enc_time _) => by apply enc_time_bytes
    | |- bytes_ok (principal_body _) => by apply principal_body_ok
    | |- bytes_ok (utf8_encode _) => by apply word_bytes
    | |- bytes_ok (tlv _ _) => apply tlv_ok; [decide_now|]
    | |- bytes_ok [] => apply Forall_nil_2
    | |- bytes_ok (der_concat _) => apply bytes_ok_concat
    | |- Forall _ (_ :: _) => apply Forall_cons_2
    | |- Forall _ [] => apply Forall_nil_2
    | |- _ => done
    end.

Lemma encrypted_data_body ety kv c :
  - 2 ^ 31 <= ety < 2 ^ 31 -> (forall v, kv = Some v -> fits_s 64 v) -> zlen c < 2 ^ 20 ->
  encrypted_data (encrypted_body ety kv c) = Ok (mkEncryptedData ety kv c).
Proof.
  intros He Hk Hc. unfold encrypted_data, encrypted_body, der_concat.
  assert (i32_try ety = Some ety) as Hi.
  { unfold i32_try. by rewrite (proj2 (Z.leb_le _ _)), (proj2 (Z.ltb_lt _ _)) by lia. }
  destruct kv as [v|]; cbn [app concat].
  - rewrite explicit_int, int_read by (lia || unfold fits_s; lia).
    rewrite explicit_opt_int by (lia || auto). cbn [transpose].
    rewrite int_read by auto.
    rewrite explicit_octets by (unfold small; lia). by rewrite Hi.
  - rewrite explicit_int, int_read by (lia || unfold fits_s; lia).
    rewrite explicit_opt_absent by done. cbn [transpose].
    rewrite explicit_octets by (unfold small; lia). by rewrite Hi.
Qed.

(** A request whose fields the protocol can carry. *)
Record wf_request (req : Request) : Prop := {
  wr_client : wf_principal (q_client req);
  wr_auth_time : time_ok (q_auth_time req);
  wr_start_time : forall s, q_start_time req = Some s -> time_ok s;
  wr_end_time : time_ok (q_end_time req);
  wr_ctime : time_ok (q_ctime req);
  wr_kvno : forall v, q_kvno req = Some v -> fits_s 64 v
}.

(** What the ticket of a request says; its times are to the second. *)
Definition ticket_part (req : Request) (session_key : list Z) : TicketPart :=
  mkTicketPart [0; (if q_invalid req then 0x01 else 0x40); 0; 0; 0]
    (mkSessionKey ETYPE_AES256 session_key) (q_client req) (whole (q_auth_time req))
    (whole <$> q_start_time req) (whole (q_end_time req)).

Section tickets.
Context `{Chrono} `{!ChronoLaws}.

Lemma encryption_key_read sk :
  zlen sk = 32 ->
  encryption_key (der_concat [enc_explicit 0 (enc_int ETYPE_AES256);
                              enc_explicit 1 (tlv OCTET_STRING sk)])
  = Ok (mkSessionKey ETYPE_AES256 sk).
Proof.
  intros Hk. unfold encryption_key, der_concat. cbn [concat].
  rewrite explicit_int, int_read by (unfold fits_s, ETYPE_AES256; lia).
  rewrite explicit_octets by (unfold small; lia). reflexivity.
Qed.

Lemma enc_part_size req sk :
  wf_request req -> zlen sk = 32 -> zlen (enc_part req sk) <= 15000.
Proof.
  intros [Hc Hat Hst Het Hct _] Hk.
  pose proof (principal_body_size _ Hc). pose proof (word_size _ (proj2 (proj2 Hc))).
  pose proof (enc_int_size 1 ltac:(unfold fits_s; lia)).
  pose proof (enc_int_size ETYPE_AES256 ltac:(unfold fits_s, ETYPE_AES256; lia)).
  pose proof (enc_time_size _ Hat). pose proof (enc_time_size _ Het).
  unfold enc_part. destruct (q_start_time req) as [s|]; [pose proof (enc_time_size s (Hst s eq_refl))|];
    clear Hst; enc_size.
Qed.

Lemma key_body_size sk :
  zlen sk = 32 ->
  small (der_concat [enc_explicit 0 (enc_int ETYPE_AES256); enc_explicit 1 (tlv OCTET_STRING sk)]).
Proof.
  intros Hk. pose proof (enc_int_size ETYPE_AES256 ltac:(unfold fits_s, ETYPE_AES256; lia)).
  unfold small. enc_size.
Qed.

Lemma read_ticket_part_enc req sk :
  wf_request req -> zlen sk = 32 ->
  read_ticket_part (enc_part req sk) = Ok (ticket_part req sk).
Proof.
  intros Hr Hk. pose proof (enc_part_size req sk Hr Hk) as Hsz.
  destruct Hr as [Hc Hat Hst Het Hct _].
  unfold read_ticket_part, enc_part, ticket_part in *. set (body := der_concat _) in *.
  pose proof (tlv_length (der_app 3) (tlv SEQUENCE body)). pose proof (tlv_length SEQUENCE body).
  rewrite !single_tlv by (lia || decide_now). subst body. unfold der_concat at 1.
  pose proof (key_body_size sk Hk). pose proof (proj2 (proj2 Hc)).
  destruct (q_start_time req) as [s|]; cbn [app concat];
    repeat read_with field_ok; rewrite encryption_key_read by done;
    repeat read_with field_ok;
    rewrite expect_explicit by (lia || reflexivity);
    repeat read_with ltac:(first [field_ok | by apply Hst]);
    cbn [transpose]; by repeat read_with ltac:(first [field_ok | by apply Hst]).
Qed.
Lemma enc_part_bytes req sk : wf_request req -> bytes_ok sk -> bytes_ok (enc_part req sk).
Proof.
  intros [Hc Hat Hst Het Hct _] Hk. pose proof (proj2 (proj2 Hc)).
  assert (bytes_ok [0; (if q_invalid req then 1 else 64); 0; 0; 0])
    by (destruct (q_invalid req); decide_now).
  unfold enc_part. destruct (q_start_time req) as [s|]; cbn [app]; [pose proof (Hst s eq_refl)|];
    unfold enc_explicit, bits, principal_name; enc_bytes.
Qed.

(** The fields of an authenticator after the client's name. *)
Definition auth_rest (req : Request) : list Z :=
  der_concat
    [enc_explicit 3
       (tlv SEQUENCE
          (der_concat [enc_explicit 0 (enc_int 0x8003);
                       enc_explicit 1 (tlv OCTET_STRING (checksum (q_mutual req)))]));
     enc_explicit 4 (enc_int 123456);
     enc_explicit 5 (enc_time (q_ctime req));
     enc_explicit 7 (enc_int 42)].

Lemma checksum_size m : zlen (checksum m) = 24.
Proof. by destruct m. Qed.

Lemma checksum_body_size m :
  0 <= zlen (der_concat [enc_explicit 0 (enc_int 0x8003); enc_explicit 1 (tlv OCTET_STRING (checksum m))]) <= 100.
Proof.
  pose proof (enc_int_size 0x8003 ltac:(unfold fits_s; lia)). pose proof (checksum_size m).
  split; [apply zlen_nonneg|]. enc_size.
Qed.

Lemma authenticator_size req who :
  wf_principal who -> time_ok (q_ctime req) -> zlen (make_authenticator req who) <= 15000.
Proof.
  intros Hw Ht. pose proof (principal_body_size _ Hw). pose proof (word_size _ (proj2 (proj2 Hw))).
  pose proof (enc_int_size 5 ltac:(unfold fits_s; lia)).
  pose proof (enc_int_size 42 ltac:(unfold fits_s; lia)).
  pose proof (enc_int_size 123456 ltac:(unfold fits_s; lia)).
  pose proof (enc_time_size _ Ht). pose proof (checksum_body_size (q_mutual req)).
  unfold make_authenticator. set (ck := der_concat [enc_explicit 0 (enc_int 0x8003); _]) in *. 
  clearbody ck. enc_size.
Qed.

Lemma authenticator_bytes req who :
  wf_principal who -> time_ok (q_ctime req) -> bytes_ok (make_authenticator req who).
Proof.
  intros Hw Ht. pose proof (proj2 (proj2 Hw)).
  assert (bytes_ok (checksum (q_mutual req))) by (destruct (q_mutual req); decide_now).
  unfold make_authenticator, enc_explicit, principal_name. enc_bytes.
Qed.

Lemma read_auth_client_enc req who :
  wf_principal who -> time_ok (q_ctime req) ->
  read_auth_client (make_authenticator req who) = Ok (who, auth_rest req).
Proof.
  intros Hw Ht. pose proof (authenticator_size req who Hw Ht) as Hsz.
  unfold read_auth_client, make_authenticator in *. set (body := der_concat _) in *.
  pose proof (tlv_length (der_app 2) (tlv SEQUENCE body)). pose proof (tlv_length SEQUENCE body).
  do 2 (rewrite single_tlv by (lia || decide_now); cbn [map_err]). subst body.
  unfold der_concat at 1. pose proof (proj2 (proj2 Hw)). cbn [concat].
  repeat (read_with field_ok; cbn [map_err]). reflexivity.
Qed.
Lemma gss_flags_checksum m :
  exists f, gss_flags_of (der_concat [enc_explicit 0 (enc_int 0x8003);
                                      enc_explicit 1 (tlv OCTET_STRING (checksum m))]) = Ok f
            /\ negb (Z.land f GSS_C_MUTUAL_FLAG =? 0) = m.
Proof.
  exists (if m then 0x32 else 0x30). split; [|by destruct m].
  pose proof (checksum_size m) as Hs. unfold gss_flags_of, der_concat. cbn [concat].
  repeat read_with field_ok. by destruct m.
Qed.

Lemma read_auth_rest_enc req :
  time_ok (q_ctime req) ->
  exists f, read_auth_rest (auth_rest req)
            = Ok (f, 123456, format_time (q_ctime req), whole (q_ctime req))
            /\ negb (Z.land f GSS_C_MUTUAL_FLAG =? 0) = q_mutual req.
Proof.
  intros Hct. destruct (gss_flags_checksum (q_mutual req)) as (f & Hg & Hf). exists f. split; [|done].
  unfold read_auth_rest, auth_rest, der_concat at 1. cbn [concat].
  pose proof (checksum_body_size (q_mutual req)).
  rewrite explicit_opt_seq by field_ok. cbn [map_err]. rewrite Hg. cbn [map_err].
  repeat (read_with field_ok; cbn [map_err]).
  cbn [Z.leb Z.compare Pos.compare Pos.compare_cont andb negb].
  by repeat (read_with field_ok; cbn [map_err]).
Qed.
End tickets.

(** Encryption under a supported type, through [crypto.rs]. *)
Lemma crypto_roundtrip `{AwsLc} `{!AwsLcLaws} ety key usage confounder data :
  etype_key_len ety = Some (zlen key) -> block_ok confounder -> bytes_ok data ->
  exists c, crypto_encrypt ety key usage confounder data = Ok c
            /\ zlen c <= zlen data + 64
            /\ crypto_decrypt ety key usage c = Ok data.
Proof.
  intros Hk Hc Hd.
  assert (exists p, Profile_of ety = Some p /\ length key = p_key_len p /\ (tag_len p <= 24)%nat)
    as (p & Hp & Hl & Ht).
  { assert (ety = 17 \/ ety = 18 \/ ety = 19 \/ ety = 20) as Hety.
    { unfold etype_key_len, ETYPE_AES128, ETYPE_AES256, ETYPE_AES128_SHA256, ETYPE_AES256_SHA384 in Hk.
      repeat case_match; bool_hyps; simplify_eq; lia. }
    destruct Hety as [->|[->|[->| ->]]]; cbn in Hk; injection Hk as Hk; unfold zlen in Hk;
      eexists; (split; [reflexivity|]); unfold tag_len; simpl; lia. }
  destruct (encrypt_roundtrip ety p key usage confounder data Hp Hl Hc Hd) as (c & He & Hcl & Hdec).
  exists c. unfold crypto_encrypt, crypto_decrypt, cipher, etype_supported.
  rewrite bool_decide_eq_true_2 by (by rewrite Hk). cbn [negb]. rewrite Hp. cbn [ok_or].
  rewrite Hl, Nat.eqb_refl. cbn [negb]. rewrite He, Hdec.
  repeat split; try done. unfold zlen, BLOCK in *. lia.
Qed.

Section completeness.
Context `{AwsLc} `{!AwsLcLaws} `{Chrono} `{!ChronoLaws}.

Lemma try_keys_same ety c key0 p plain0 ks :
  (forall e, e ∈ ks -> key e = key0) -> ks <> [] ->
  crypto_decrypt ety key0 USAGE_TICKET c = Ok p ->
  try_keys ety c plain0 ks = Ok p.
Proof.
  intros Hks Hne Hd. destruct ks as [|e ks]; [done|]. cbn [try_keys].
  rewrite (Hks e) by constructor. rewrite Hd. done.
Qed.

(** The AP-REP an acceptor makes is the one the client checks. *)
Lemma make_ap_rep_verifies rng_seq rng_confounder sk ct issued :
  zlen sk = 32 -> time_ok ct -> block_ok rng_confounder ->
  i_session_key issued = sk -> i_ctime issued = ct ->
  exists rep,
    make_ap_rep rng_seq rng_confounder (mkSessionKey ETYPE_AES256 sk) (format_time ct) 123456
    = Ok rep
    /\ verify_ap_rep rep issued = true.
Proof.
  intros Hsk Hct Hconf Eik Eic. unfold make_ap_rep. cbn [sk_etype sk_value].
  set (sn := Z.land rng_seq 0x3fffffff).
  assert (fits_s 64 sn) as Hsn.
  { subst sn. change 0x3fffffff with (Z.ones 30). rewrite Z.land_ones by lia.
    pose proof (Z.mod_pos_bound rng_seq (2 ^ 30)). unfold fits_s. lia. }
  set (body := der_concat [enc_explicit 0 (tlv GENERALIZED_TIME _); _; _]).
  assert (zlen body <= 100) as Hbody.
  { subst body. pose proof (enc_int_size 123456 ltac:(unfold fits_s; lia)).
    pose proof (enc_int_size sn Hsn). pose proof (time_size ct Hct). enc_size. }
  destruct (crypto_roundtrip ETYPE_AES256 sk USAGE_AP_REP rng_confounder
    (tlv (der_app 27) (tlv SEQUENCE body))) as (c & -> & Hcl & Hdec).
  { by rewrite Hsk. }
  { done. }
  { subst body. pose proof (enc_int_ok sn Hsn). pose proof (time_bytes ct Hct).
    unfold enc_explicit. enc_bytes. }
  eexists. split; [reflexivity|].
  pose proof (tlv_length (der_app 27) (tlv SEQUENCE body)). pose proof (tlv_length SEQUENCE body).
  set (ebody := der_concat [enc_explicit 0 (enc_int ETYPE_AES256); _]).
  pose proof (enc_int_size 5 ltac:(unfold fits_s; lia)).
  pose proof (enc_int_size 15 ltac:(unfold fits_s; lia)).
  pose proof (enc_int_size ETYPE_AES256 ltac:(unfold fits_s, ETYPE_AES256; lia)).
  assert (zlen ebody <= 1000) as Heb by (subst ebody; clear Hdec; clearbody body; enc_size).
  unfold verify_ap_rep. set (rbody := der_concat [enc_explicit 0 (enc_int 5); _; _]).
  assert (zlen rbody <= 2000) as Hrb
    by (subst rbody; clear Hdec; clearbody body ebody; enc_size).
  pose proof (tlv_length SEQUENCE rbody).
  do 2 (rewrite single_tlv by (lia || decide_now); cbn [ok mbind option_bind]).
  subst rbody. unfold der_concat at 1. cbn [concat].
  repeat (read_with field_ok; cbn [ok mbind option_bind]).
  subst ebody. unfold der_concat at 1. cbn [concat].
  repeat (read_with field_ok; cbn [ok mbind option_bind]).
  rewrite Eik. change (as_i32 ETYPE_AES256) with ETYPE_AES256. rewrite Hdec.
  cbn [ok mbind option_bind].
  do 2 (rewrite single_tlv by (lia || decide_now); cbn [ok mbind option_bind]).
  subst body. unfold der_concat at 1. cbn [concat]. fold (enc_time ct).
  repeat (read_with field_ok; cbn [ok mbind option_bind]).
  cbn [default]. rewrite Eic, format_time_whole, bool_decide_eq_true_2 by done. reflexivity.
Qed.
(** A request of an honest client, presented in time to an acceptor that holds
    the service's key: the key is of a supported type and the only one the
    keytab has for that type, version and service, the client is of an allowed
    realm, and the ticket and the authenticator are valid now. *)
Record honest (a : Acceptor) (k : Kdc) (rng : KdcRng) (req : Request) : Prop := {
  ho_wf : wf_request req;
  ho_service : wf_principal (k_service k);
  ho_names : eq_ignore_case (k_service k) (a_service a) = true;
  ho_key : etype_key_len (k_etype k) = Some (zlen (k_key k));
  ho_installed : entry k ∈ a_keys a;
  ho_only e :
    e ∈ a_keys a -> etype e = k_etype k -> eq_ignore_case (principal e) (a_service a) = true ->
    (forall v, q_kvno req = Some v -> kvno e = v) -> key e = k_key k;
  ho_kvno : q_kvno req = None \/ q_kvno req = Some (k_kvno k);
  ho_plain : q_authenticator_client req = None /\ q_invalid req = false
             /\ q_ticket_key req = None /\ q_sname req = None;
  ho_rng : zlen (rng_session_key rng) = 32 /\ bytes_ok (rng_session_key rng)
           /\ block_ok (rng_ticket_confounder rng) /\ block_ok (rng_auth_confounder rng);
  ho_realm : exists r, r ∈ a_realms a /\ eq_ignore_ascii_case r (realm (q_client req)) = true;
  ho_started :
    default (whole (q_auth_time req)) (whole <$> q_start_time req) - a_max_skew a <= a_now a;
  ho_ends : a_now a <= whole (q_end_time req) + a_max_skew a;
  ho_skew : Z.abs (whole (q_ctime req) - a_now a) <= a_max_skew a
}.

Lemma etype_key_len_range ety n : etype_key_len ety = Some n -> 17 <= ety <= 20.
Proof.
  unfold etype_key_len, ETYPE_AES128, ETYPE_AES256, ETYPE_AES128_SHA256, ETYPE_AES256_SHA384.
  intros. repeat case_match; bool_hyps; simplify_eq; lia.
Qed.

Lemma candidates_honest a k rng req c :
  honest a k rng req ->
  candidates a (mkEncryptedData (k_etype k) (q_kvno req) c) <> []
  /\ forall e, e ∈ candidates a (mkEncryptedData (k_etype k) (q_kvno req) c) -> key e = k_key k.
Proof.
  intros Hh. split.
  - assert (entry k ∈ candidates a (mkEncryptedData (k_etype k) (q_kvno req) c)) as Hin.
    { apply list_elem_of_filter. split; [|by destruct Hh].
      cbn [ed_etype ed_kvno entry etype principal kvno]. rewrite Z.eqb_refl, (ho_names _ _ _ _ Hh).
      destruct (ho_kvno _ _ _ _ Hh) as [->| ->]; cbn [andb]; [done|]. by rewrite Z.eqb_refl. }
    intros E. by rewrite E in Hin; apply not_elem_of_nil in Hin.
  - intros e (Hin & He & Hs & Hv)%candidates_spec. by apply (ho_only _ _ _ _ Hh).
Qed.
Lemma make_ticket_size k sname kv tc :
  wf_principal sname -> 17 <= k_etype k <= 20 -> (forall v, kv = Some v -> fits_s 64 v) ->
  0 <= zlen tc <= 20000 ->
  zlen (encrypted_body (k_etype k) kv tc) <= 20100 /\ zlen (make_ticket k sname kv tc) <= 40000.
Proof.
  intros Hs He Hk Htc.
  pose proof (principal_body_size _ Hs). pose proof (word_size _ (proj2 (proj2 Hs))).
  pose proof (enc_int_size 5 ltac:(unfold fits_s; lia)).
  pose proof (enc_int_size (k_etype k) ltac:(unfold fits_s; lia)).
  assert (zlen (encrypted_body (k_etype k) kv tc) <= 20100) as Heb.
  { unfold encrypted_body. destruct kv as [v|]; [pose proof (enc_int_size v (Hk v eq_refl))|];
      clear Hk; enc_size. }
  split; [done|]. clear Hk. unfold make_ticket, encrypted. 
  set (eb := encrypted_body _ _ _) in *. clearbody eb. enc_size.
Qed.

Lemma make_ap_req_size ticket ac :
  zlen ticket <= 40000 -> 0 <= zlen ac <= 20000 ->
  zlen (encrypted_body ETYPE_AES256 None ac) <= 21000
  /\ zlen (make_ap_req ticket ac) <= 100000.
Proof.
  intros Ht Hac.
  pose proof (enc_int_size ETYPE_AES256 ltac:(unfold fits_s, ETYPE_AES256; lia)).
  assert (zlen (encrypted_body ETYPE_AES256 None ac) <= 21000) as Hab
    by (unfold encrypted_body; enc_size).
  split; [done|]. pose proof (enc_int_size 5 ltac:(unfold fits_s; lia)).
  pose proof (enc_int_size 14 ltac:(unfold fits_s; lia)).
  unfold make_ap_req, encrypted. set (eb := encrypted_body ETYPE_AES256 _ _) in *. clearbody eb.
  enc_size.
Qed.

Lemma read_ap_req_made ticket tbody ac :
  ticket = tlv (der_app 1) tbody -> zlen ticket <= 40000 -> 0 <= zlen ac <= 20000 ->
  read_ap_req (make_ap_req ticket ac) = Ok (false, tbody, mkEncryptedData ETYPE_AES256 None ac).
Proof.
  intros Et Htk Hac. destruct (make_ap_req_size _ ac Htk Hac) as [Hab Hb].
  unfold read_ap_req, make_ap_req in *.
  set (body := der_concat _) in *. pose proof (tlv_length (der_app 14) (tlv SEQUENCE body)).
  pose proof (tlv_length SEQUENCE body).
  do 2 (rewrite single_tlv by (lia || decide_now); cbn [map_err]).
  subst body. unfold der_concat at 1. cbn [concat].
  repeat (read_with field_ok; cbn [map_err]). cbn [negb Z.eqb Pos.eqb].
  change (bit [0; 0; 0; 0; 0] 1) with false. change (bit [0; 0; 0; 0; 0] 2) with false. cbn iota.
  rewrite expect_explicit by lia. cbn [map_err]. subst ticket.
  pose proof (tlv_length (der_app 1) tbody).
  rewrite single_tlv by (lia || decide_now). cbn [map_err]. unfold encrypted.
  read_with field_ok. cbn [map_err].
  by rewrite encrypted_data_body by (done || unfold ETYPE_AES256; lia).
Qed.

Lemma read_ticket_made service k sname kv tc :
  wf_principal sname -> eq_ignore_case sname service = true ->
  17 <= k_etype k <= 20 -> (forall v, kv = Some v -> fits_s 64 v) -> 0 <= zlen tc <= 20000 ->
  exists tbody, make_ticket k sname kv tc = tlv (der_app 1) tbody
    /\ read_ticket service tbody = Ok (mkEncryptedData (k_etype k) kv tc).
Proof.
  intros Hs Hn Hety Hkv Htc.
  destruct (make_ticket_size k sname kv tc Hs Hety Hkv Htc) as [Heb Htk].
  eexists. split; [reflexivity|].
  unfold read_ticket, make_ticket, encrypted in *. set (tbody := der_concat _) in *.
  pose proof (tlv_length (der_app 1) (tlv SEQUENCE tbody)). pose proof (tlv_length SEQUENCE tbody).
  rewrite single_tlv by (lia || decide_now). cbn [map_err].
  subst tbody. unfold der_concat at 1. cbn [concat]. pose proof (proj2 (proj2 Hs)).
  repeat (read_with field_ok; cbn [map_err]). cbn [negb Z.eqb Pos.eqb].
  repeat (read_with field_ok; cbn [map_err]). rewrite Hn. cbn [negb].
  repeat (read_with field_ok; cbn [map_err]).
  by rewrite encrypted_data_body by (try apply Hkv; lia).
Qed.

(** [accept] on the bytes [issue] writes, up to the ticket's own checks. *)
Lemma accept_reaches sha256 rng_seq rng_confounder a k rng req tc ac :
  honest a k rng req -> 0 <= zlen tc <= 20000 -> 0 <= zlen ac <= 20000 ->
  crypto_decrypt (k_etype k) (k_key k) USAGE_TICKET tc
  = Ok (enc_part req (rng_session_key rng)) ->
  accept sha256 rng_seq rng_confounder a
    (make_ap_req (make_ticket k (k_service k) (q_kvno req) tc) ac)
  = accept_ticket sha256 rng_seq rng_confounder a false (mkEncryptedData ETYPE_AES256 None ac)
      (ticket_part req (rng_session_key rng)).
Proof.
  intros Hh Htc Hac Hdt. pose proof (candidates_honest a k rng req tc Hh) as [Hne Hks].
  destruct Hh as [Hr Hsvc Hnames Hkey _ _ Hkv _ (Hsk & _) _ _ _ _].
  pose proof (etype_key_len_range _ _ Hkey) as Hety.
  destruct (make_ticket_size k (k_service k) (q_kvno req) tc Hsvc Hety (wr_kvno _ Hr) Htc) as [_ Htk].
  destruct (read_ticket_made (a_service a) k (k_service k) (q_kvno req) tc Hsvc Hnames Hety
    (wr_kvno _ Hr) Htc) as (tbody & Et & Hread).
  unfold accept. rewrite (read_ap_req_made _ tbody ac Et Htk Hac), Hread.
  cbn [ed_etype ed_kvno ed_cipher].
  assert (nonempty (candidates a (mkEncryptedData (k_etype k) (q_kvno req) tc)) = true) as ->
    by (by destruct (candidates a _)).
  assert (etype_supported (k_etype k) = true) as ->
    by (unfold etype_supported; by rewrite bool_decide_eq_true_2 by (by rewrite Hkey)).
  cbn [negb orb]. erewrite try_keys_same by done. cbn [map_err].
  by rewrite read_ticket_part_enc.
Qed.

(** [accept] on the bytes [issue] writes, up to the AP-REP. *)
Lemma accept_made sha256 rng_seq rng_confounder a k rng req tc ac :
  honest a k rng req -> 0 <= zlen tc <= 20000 -> 0 <= zlen ac <= 20000 ->
  crypto_decrypt (k_etype k) (k_key k) USAGE_TICKET tc
  = Ok (enc_part req (rng_session_key rng)) ->
  crypto_decrypt ETYPE_AES256 (rng_session_key rng) USAGE_AUTHENTICATOR ac
  = Ok (make_authenticator req (q_client req)) ->
  accept sha256 rng_seq rng_confounder a
    (make_ap_req (make_ticket k (k_service k) (q_kvno req) tc) ac)
  = let? rep :=
      if q_mutual req
      then map_err Authenticator
             (let? x := make_ap_rep rng_seq rng_confounder
                          (mkSessionKey ETYPE_AES256 (rng_session_key rng))
                          (format_time (q_ctime req)) 123456 in Ok (Some x))
      else Ok None in
    Ok (mkAccepted (q_client req) (whole (q_auth_time req)) (whole (q_end_time req)) (sha256 ac) rep).
Proof.
  intros Hh Htc Hac Hdt Hda. erewrite accept_reaches by done.
  destruct Hh as [Hr _ _ _ _ _ _ (_ & Hinv & _ & _) (Hsk & _) (r & Hrin & Hreq) Hst Hend Hskew].
  destruct Hr as [Hc Hat Hstt Het Hct _].
  unfold accept_ticket, ticket_part.
  cbn [tp_session tp_client tp_flags tp_auth_time tp_start_time tp_end_time sk_etype sk_value
       ed_etype ed_cipher].
  rewrite Hinv. change (bit [0; 64; 0; 0; 0] 7) with false. cbn iota.
  rewrite (proj2 (Z.ltb_ge _ _)) by lia. rewrite (proj2 (Z.ltb_ge _ _)) by lia.
  assert (existsb (fun r0 => eq_ignore_ascii_case r0 (realm (q_client req))) (a_realms a) = true) as ->
    by (apply existsb_exists; exists r; by rewrite <- list_elem_of_In).
  rewrite Hsk. change (etype_supported ETYPE_AES256) with true.
  rewrite (bool_decide_eq_true_2 (etype_key_len _ = _)) by done. rewrite Z.eqb_refl. cbn [negb orb].
  rewrite Hda. cbn [map_err]. rewrite read_auth_client_enc by done.
  rewrite bool_decide_eq_true_2 by done. cbn [negb].
  destruct (read_auth_rest_enc req Hct) as (f & -> & Hf).
  rewrite (proj2 (Z.ltb_ge _ _)) by lia. by rewrite Hf.
Qed.
Lemma issue_accepted sha256 rng_seq rng_confounder a k rng req :
  honest a k rng req -> block_ok rng_confounder ->
  exists i acc,
    issue k rng req = Ok i
    /\ Spnego.is_ap_req (i_ap_req i) /\ zlen (i_ap_req i) <= 200000
    /\ accept sha256 rng_seq rng_confounder a (i_ap_req i) = Ok acc
    /\ client acc = q_client req /\ auth_time acc = whole (q_auth_time req)
    /\ end_time acc = whole (q_end_time req)
    /\ match ap_rep acc with
       | Some rep => q_mutual req = true /\ verify_ap_rep rep i = true
       | None => q_mutual req = false
       end.
Proof.
  intros Hh Hconf. pose proof Hh as
    [Hr Hsvc _ Hkey _ _ Hkv (Hac & _ & Htk & Hsn) (Hsk & Hskb & Htconf & Haconf) _ _ _ _].
  pose proof (wr_client _ Hr) as Hc. pose proof (wr_ctime _ Hr) as Hct.
  set (sk := rng_session_key rng) in *.
  destruct (crypto_roundtrip (k_etype k) (k_key k) USAGE_TICKET (rng_ticket_confounder rng)
    (enc_part req sk) Hkey Htconf (enc_part_bytes req sk Hr Hskb)) as (tc & Het & Htl & Hdt).
  destruct (crypto_roundtrip ETYPE_AES256 sk USAGE_AUTHENTICATOR (rng_auth_confounder rng)
    (make_authenticator req (q_client req))) as (ac & Hea & Hal & Hda);
    [by rewrite Hsk|done|by apply authenticator_bytes|].
  pose proof (enc_part_size req sk Hr Hsk). pose proof (authenticator_size req (q_client req) Hc Hct).
  pose proof (zlen_nonneg tc). pose proof (zlen_nonneg ac).
  eexists. unfold issue. rewrite Htk, Hsn, Hac. cbn [default]. fold sk. rewrite Het, Hea.
  destruct (make_ticket_size k (k_service k) (q_kvno req) tc Hsvc (etype_key_len_range _ _ Hkey)
    (wr_kvno _ Hr)) as [_ Hts]; [lia|].
  destruct (make_ap_req_size _ ac Hts) as [_ Hrs]; [lia|].
  destruct (make_ap_rep_verifies rng_seq rng_confounder sk (q_ctime req)
    (mkIssued (make_ap_req (make_ticket k (k_service k) (q_kvno req) tc) ac) sk (q_ctime req))
    Hsk Hct Hconf eq_refl eq_refl) as (rep & Hrep & Hver).
  exists (mkAccepted (q_client req) (whole (q_auth_time req)) (whole (q_end_time req)) (sha256 ac)
    (if q_mutual req then Some rep else None)).
  split; [reflexivity|]. cbn [i_ap_req client auth_time end_time ap_rep].
  split; [|split; [lia|]].
  { eexists. apply single_tlv; [decide_now|]. unfold make_ap_req in Hrs.
    match goal with |- zlen ?c < _ => pose proof (tlv_length (der_app 14) c) end. lia. }
  split; [|by destruct (q_mutual req)].
  erewrite (accept_made sha256 rng_seq rng_confounder a k rng req tc ac Hh) by (done || lia).
  fold sk. rewrite Hrep. by destruct (q_mutual req).
Qed.
End completeness.

(** ** A small instance of chrono

    A calendar with a hundred days a month and a hundred hours a day, in which
    every combination of fields is a date. *)

Definition toy_chrono : Chrono := {|
  NaiveDate := Z;
  from_ymd_opt y m d := Some (y * 10000 + m * 100 + d);
  and_hms_opt date h m s := Some ((date * 1000000 + h * 10000 + m * 100 + s) * NANOS);
  format_time t := dec_digits 14 (t / NANOS) ++ [90]
|}.

Lemma dec_digits_split n m v :
  dec_digits (n + m) v = dec_digits n (v / 10 ^ Z.of_nat m) ++ dec_digits m v.
Proof.
  revert v. induction m as [|m IH]; intros v.
  - rewrite Nat.add_0_r, app_nil_r. by rewrite Z.div_1_r.
  - rewrite Nat.add_succ_r. cbn [dec_digits]. rewrite IH, app_assoc.
    replace (10 ^ Z.of_nat (S m)) with (10 * 10 ^ Z.of_nat m)
      by (rewrite Nat2Z.inj_succ, Z.pow_succ_r by lia; lia).
    by rewrite Z.div_div by lia.
Qed.

Lemma dec_digits_mod n v : dec_digits n v = dec_digits n (v mod 10 ^ Z.of_nat n).
Proof.
  revert v. induction n as [|n IH]; intros v; [done|]. cbn [dec_digits].
  replace (10 ^ Z.of_nat (S n)) with (10 * 10 ^ Z.of_nat n)
    by (rewrite Nat2Z.inj_succ, Z.pow_succ_r by lia; lia).
  rewrite (Z.rem_mul_r v 10) by lia.
  rewrite IH, (IH ((_ + _) / 10)).
  replace (v mod 10 + 10 * ((v / 10) mod 10 ^ Z.of_nat n))
    with ((v / 10) mod 10 ^ Z.of_nat n * 10 + v mod 10) by lia.
  rewrite Z.div_add_l by lia. rewrite (Z.div_small (v mod 10)) by (apply Z.mod_pos_bound; lia).
  rewrite Z.add_0_r, Z.mod_mod by lia.
  by rewrite (Z.add_comm (_ * 10)), Z.mod_add, Z.mod_mod by lia.
Qed.

Lemma toy_chrono_laws : @ChronoLaws toy_chrono.
Proof.
  split; intros t0 Ht; [|by cbn [format_time toy_chrono]; unfold whole; rewrite Z.div_mul].
  assert (0 <= t0 / NANOS < 253402300800) as Ht'.
  { split; [apply Z.div_pos; unfold NANOS in *; lia|].
    apply Z.div_lt_upper_bound; unfold NANOS in *; lia. }
  unfold whole. cbn [format_time from_ymd_opt and_hms_opt toy_chrono].
  generalize dependent (t0 / NANOS). clear t0 Ht. intros t Ht.
  exists (t / 10000000000), (t / 100000000 mod 100), (t / 1000000 mod 100),
    (t / 10000 mod 100), (t / 100 mod 100), (t mod 100), (t / 1000000).
  cbn [format_time from_ymd_opt and_hms_opt toy_chrono].
  split.
  - change 14%nat with (4 + (2 + (2 + (2 + (2 + 2)))))%nat.
    rewrite !dec_digits_split, <- !app_assoc. cbn [Nat.add].
    rewrite (dec_digits_mod 2 (t / 10 ^ Z.of_nat 8)), (dec_digits_mod 2 (t / 10 ^ Z.of_nat 6)),
      (dec_digits_mod 2 (t / 10 ^ Z.of_nat 4)), (dec_digits_mod 2 (t / 10 ^ Z.of_nat 2)),
      (dec_digits_mod 2 t).
    reflexivity.
  - assert ((t / 1000000) * 1000000 + t / 10000 mod 100 * 10000 + t / 100 mod 100 * 100 + t mod 100 = t)
      as Hsum by (Z.to_euclidean_division_equations; lia).
    rewrite Hsum. clear Hsum. Z.to_euclidean_division_equations. repeat split; try lia; f_equal; lia.
Qed.

(** ** Theorems *)

(** single sign-on works end to end. For an honest client's request, made
    while its ticket and authenticator are valid, the browser's token is
    built, is read as an offer of that AP-REQ, and the acceptor that holds
    the service's key accepts it, reporting the ticket's client and its times
    to the second; it answers with an AP-REP exactly when the client asked for
    mutual authentication, and then the client's own check of the AP-REP
    succeeds. *)
Theorem negotiate_accepted `{AwsLc} `{!AwsLcLaws} `{Chrono} `{!ChronoLaws}
    (sha256 : list Z -> list Z) (rng_seq : Z) (rng_confounder : list Z)
    (a : Acceptor) (k : Kdc) (rng : KdcRng) (req : Request) :
  honest a k rng req -> block_ok rng_confounder ->
  exists tok i acc,
    negotiate_token k rng req = Ok (tok, i)
    /\ Spnego.parse tok = Ok (Spnego.Kerberos (Spnego.mkOffer (i_ap_req i) Spnego.MsKrb5 true))
    /\ accept sha256 rng_seq rng_confounder a (i_ap_req i) = Ok acc
    /\ client acc = q_client req /\ auth_time acc = whole (q_auth_time req)
    /\ end_time acc = whole (q_end_time req)
    /\ match ap_rep acc with
       | Some rep => q_mutual req = true /\ verify_ap_rep rep i = true
       | None => q_mutual req = false
       end.
Proof.
  intros Hh Hc.
  destruct (issue_accepted sha256 rng_seq rng_confounder a k rng req Hh Hc)
    as (i & acc & Hi & Hreq & Hsz & Hacc).
  eexists _, i, acc. unfold negotiate_token. rewrite Hi. split; [reflexivity|].
  split; [|done]. apply Spnego.parse_wrap; [done|lia].
Qed.

Definition example_principal : Principal :=
  mkPrincipal [lit "HTTP"; lit "sso.example.com"] (lit "EXAMPLE.COM").
Definition example_kdc : Kdc := mkKdc example_principal 3 ETYPE_AES128_SHA256 (replicate 16 9).
Definition example_client : Principal := mkPrincipal [lit "alice"] (lit "EXAMPLE.COM").
Definition example_request : Request :=
  mkRequest example_client None (1000 * NANOS) None (2000 * NANOS) (1500 * NANOS + 5) true false None None (Some 3).
Definition example_rng : KdcRng := mkKdcRng (seqZ 1 32) (replicate 16 5) (replicate 16 6).
Definition example_acceptor : Acceptor :=
  mkAcceptor [entry example_kdc] example_principal [lit "example.com"] (300 * NANOS) (1510 * NANOS).

Lemma example_honest : honest example_acceptor example_kdc example_rng example_request.
Proof.
  assert (wf_principal example_client) by (repeat split; try decide_now).
  split; try decide_now; try done.
  - split; try decide_now; try done. by intros v [= <-].
  - cbn. intros e ->%list_elem_of_singleton. done.
  - exists (lit "example.com"). split; [by apply list_elem_of_singleton|reflexivity].
Qed.

Lemma negotiate_accepted_witness :
  honest example_acceptor example_kdc example_rng example_request
  /\ exists tok i acc,
    @negotiate_token toy_aws toy_chrono example_kdc example_rng example_request = Ok (tok, i)
    /\ Spnego.parse tok = Ok (Spnego.Kerberos (Spnego.mkOffer (i_ap_req i) Spnego.MsKrb5 true))
    /\ @accept toy_aws toy_chrono (take 4) 7 (replicate 16 4) example_acceptor (i_ap_req i) = Ok acc
    /\ client acc = example_client /\ auth_time acc = whole (1000 * NANOS) /\ end_time acc = whole (2000 * NANOS)
    /\ match ap_rep acc with
       | Some rep => true = true /\ @verify_ap_rep toy_aws toy_chrono rep i = true
       | None => true = false
       end.
Proof.
  split; [exact example_honest|].
  apply (@negotiate_accepted toy_aws toy_aws_laws toy_chrono toy_chrono_laws (take 4) 7
    (replicate 16 4) example_acceptor example_kdc example_rng example_request).
  - exact example_honest.
  - split; [reflexivity|decide_now].
Defined.

(** The same exchange, evaluated. *)
Definition example_exchange : result AcceptError Accepted :=
  match @issue toy_aws toy_chrono example_kdc example_rng example_request with
  | Ok i => @accept toy_aws toy_chrono (take 4) 7 (replicate 16 4) example_acceptor (i_ap_req i)
  | Err e => Err (Ticket e)
  end.
Definition example_ap_req_bytes : list Z :=
  match @issue toy_aws toy_chrono example_kdc example_rng example_request with
  | Ok i => i_ap_req i
  | Err _ => []
  end.
Definition example_accepted : Accepted :=
  match example_exchange with
  | Ok acc => acc
  | Err _ => mkAccepted example_client 0 0 [] None
  end.

Lemma accept_sound_witness :
  exists enc au k tp ctime,
    @proven toy_aws toy_chrono (take 4) example_acceptor example_ap_req_bytes example_accepted
      enc au k tp ctime.
Proof.
  apply (@accept_sound toy_aws toy_chrono (take 4) 7 (replicate 16 4) example_acceptor
    example_ap_req_bytes example_accepted).
  vm_compute. reflexivity.
Defined.

(** The acceptor's refusals, on variations of that exchange. *)
Definition exchange (k : Kdc) (a : Acceptor) (req : Request) : option AcceptError :=
  match @issue toy_aws toy_chrono k example_rng req with
  | Ok i =>
      match @accept toy_aws toy_chrono (take 4) 7 (replicate 16 4) a (i_ap_req i) with
      | Ok _ => None
      | Err e => Some e
      end
  | Err _ => Some Version
  end.

Example refused_expired :
  exchange example_kdc (mkAcceptor [entry example_kdc] example_principal [lit "EXAMPLE.COM"]
    (300 * NANOS) (2300 * NANOS + 1))
    example_request = Some Expired.
Proof. vm_compute. reflexivity. Qed.

Example refused_skew :
  exchange example_kdc (mkAcceptor [entry example_kdc] example_principal [lit "EXAMPLE.COM"]
    (300 * NANOS) (1800 * NANOS + 1))
    example_request = Some Skew.
Proof. vm_compute. reflexivity. Qed.

Example refused_key :
  exchange example_kdc example_acceptor
    (mkRequest example_client None (1000 * NANOS) None (2000 * NANOS) (1500 * NANOS) true false (Some (8 :: replicate 15 9)) None None)
  = Some (Ticket Integrity).
Proof. vm_compute. reflexivity. Qed.

Example refused_client :
  exchange example_kdc example_acceptor
    (mkRequest example_client (Some (mkPrincipal [lit "bob"] (lit "EXAMPLE.COM"))) (1000 * NANOS) None (2000 * NANOS) (1500 * NANOS)
       true false None None None)
  = Some ClientMismatch.
Proof. vm_compute. reflexivity. Qed.
