(* ===== verification/Valkey.v ===== *)
(** * The Valkey store and its keys

    Valkey is a service: its commands are the operations of the class
    [Valkey], and what the code relies on of them is the class [ValkeyLaws],
    with a small instance over finite maps. Times are in milliseconds, the
    resolution of its clock; every command says when it runs. The key names
    are those of [api/src/cache/keys.rs], the JSON codec is [serde_json]'s. *)

From Stdlib Require Import Ascii.
From stdpp Require Import gmap strings.
From S2P Require Import Prelude.

(** ** Commands *)

(** The conditions of [EXPIRE]: none, only where there is no expiry, or only
    where the new one is later. *)
Inductive ExpireOpt := Always | NX | GT.

Class Valkey := {
  raw : Type;                    (* a stored string *)
  vdb : Type;                    (* the whole store *)
  vget (now : Z) (k : string) (db : vdb) : option raw;
  (** [SET k v PX ttl] *)
  vset_px (now : Z) (k : string) (v : raw) (ttl : Z) (db : vdb) : vdb;
  (** [SET k v KEEPTTL] *)
  vset_keepttl (now : Z) (k : string) (v : raw) (db : vdb) : vdb;
  vdel (now : Z) (k : string) (db : vdb) : vdb;
  (** [PEXPIRE k ttl NX|GT] *)
  vexpire (o : ExpireOpt) (now : Z) (k : string) (ttl : Z) (db : vdb) : vdb;
  (** [SMEMBERS], [SADD], [SREM] *)
  vsmembers (now : Z) (k : string) (db : vdb) : list string;
  vsadd (now : Z) (k : string) (m : string) (db : vdb) : vdb;
  vsrem (now : Z) (k : string) (ms : list string) (db : vdb) : vdb
}.

(** What Valkey documents of them. *)
Class ValkeyLaws `{Valkey} := {
  vget_set now now' k v ttl db :
    now <= now' -> 0 < ttl ->
    vget now' k (vset_px now k v ttl db) = if now' <? now + ttl then Some v else None;
  vget_set_ne now now' k k' v ttl db :
    k <> k' -> vget now' k' (vset_px now k v ttl db) = vget now' k' db;
  (** a live key keeps its expiry *)
  vget_keepttl now now' k v v0 db :
    now <= now' -> vget now k db = Some v0 ->
    vget now' k (vset_keepttl now k v db)
    = match vget now' k db with Some _ => Some v | None => None end;
  vget_keepttl_now now k v db : vget now k (vset_keepttl now k v db) = Some v;
  vget_keepttl_ne now now' k k' v db :
    k <> k' -> vget now' k' (vset_keepttl now k v db) = vget now' k' db;
  vget_del now now' k db : vget now' k (vdel now k db) = None;
  vget_del_ne now now' k k' db : k <> k' -> vget now' k' (vdel now k db) = vget now' k' db;
  (** time only removes entries *)
  vget_earlier now now' k v db :
    now <= now' -> vget now' k db = Some v -> vget now k db = Some v;
  vget_expire_ne o now now' k k' ttl db :
    k <> k' -> vget now' k' (vexpire o now k ttl db) = vget now' k' db;
  (** an expiry in the future changes nothing now *)
  vget_expire_now o now k ttl db : 0 < ttl -> vget now k (vexpire o now k ttl db) = vget now k db;
  vget_sadd now now' k k' m db :
    k <> k' -> vget now' k' (vsadd now k m db) = vget now' k' db;
  vget_srem now now' k k' ms db :
    k <> k' -> vget now' k' (vsrem now k ms db) = vget now' k' db;
  (** a set command never makes or changes a string *)
  vget_sadd_own now now' k m db :
    now <= now' -> vget now' k (vsadd now k m db) = vget now' k db;
  vget_srem_own now now' k ms db :
    now <= now' -> vget now' k (vsrem now k ms db) = vget now' k db;
  vsmembers_nodup now k db : NoDup (vsmembers now k db);
  (** on a key that holds no string *)
  vsmembers_sadd now k m m' db :
    vget now k db = None ->
    m' ∈ vsmembers now k (vsadd now k m db) <-> m' = m \/ m' ∈ vsmembers now k db;
  vsmembers_expire_now o now k ttl db :
    0 < ttl -> vsmembers now k (vexpire o now k ttl db) = vsmembers now k db;
  vsmembers_expire_ne o now now' k k' ttl db :
    k <> k' -> vsmembers now' k' (vexpire o now k ttl db) = vsmembers now' k' db;
  vsmembers_srem now k m' ms db :
    m' ∈ vsmembers now k (vsrem now k ms db) <-> m' ∈ vsmembers now k db /\ m' ∉ ms;
  vsmembers_set now now' k k' v ttl db :
    k <> k' -> vsmembers now' k' (vset_px now k v ttl db) = vsmembers now' k' db;
  vsmembers_del now now' k k' db :
    k <> k' -> vsmembers now' k' (vdel now k db) = vsmembers now' k' db;
  vsmembers_sadd_ne now now' k k' m db :
    k <> k' -> vsmembers now' k' (vsadd now k m db) = vsmembers now' k' db;
  vsmembers_srem_ne now now' k k' ms db :
    k <> k' -> vsmembers now' k' (vsrem now k ms db) = vsmembers now' k' db
}.

(** A record stored as JSON. *)
Class Serde `{Valkey} (A : Type) := {
  to_json : A -> raw;
  from_json : raw -> option A;
  from_to_json a : from_json (to_json a) = Some a
}.

(** Counters: keys that only [INCR], [PEXPIRE] and [PTTL] touch. [vcount] is
    what such a key holds, its count and when its window ends. *)
Class Counters := {
  cdb : Type;
  vcount (now : Z) (k : string) (db : cdb) : option (Z * option Z);
  vincr (now : Z) (k : string) (db : cdb) : Z * cdb;
  vpexpire (now : Z) (k : string) (ttl : Z) (db : cdb) : cdb;
  vpttl (now : Z) (k : string) (db : cdb) : Z
}.

Class CountersLaws `{Counters} := {
  vincr_value now k db :
    (vincr now k db).1 = match vcount now k db with Some (n, _) => n + 1 | None => 1 end;
  vincr_count now k db :
    vcount now k (vincr now k db).2
    = match vcount now k db with Some (n, x) => Some (n + 1, x) | None => Some (1, None) end;
  vincr_ne now now' k k' db : k <> k' -> vcount now' k' (vincr now k db).2 = vcount now' k' db;
  vpexpire_count now k ttl n x db :
    0 < ttl -> vcount now k db = Some (n, x) ->
    vcount now k (vpexpire now k ttl db) = Some (n, Some (now + ttl));
  vpexpire_ne now now' k k' ttl db :
    k <> k' -> vcount now' k' (vpexpire now k ttl db) = vcount now' k' db;
  vpttl_count now k db :
    vpttl now k db = match vcount now k db with
                     | Some (_, Some x) => x - now | Some (_, None) => -1 | None => -2 end;
  (** time only ends windows *)
  vcount_later now now' k db :
    now <= now' ->
    vcount now' k db = match vcount now k db with
                       | Some (n, Some x) => if now' <? x then Some (n, Some x) else None
                       | o => o end
}.

Section derived.
Context `{Valkey}.

(** [GETDEL k] *)
Definition vgetdel (now : Z) (k : string) (db : vdb) : option raw * vdb :=
  (vget now k db, vdel now k db).

(** [SET k v NX EX ttl]: [true] when the key was claimed. *)
Definition vset_nx (now : Z) (k : string) (v : raw) (ttl : Z) (db : vdb) : bool * vdb :=
  match vget now k db with
  | Some _ => (false, db)
  | None => (true, vset_px now k v ttl db)
  end.

(** [commands::add_to_set_for_at_least]: add to the set at [k] and keep it at
    least [ttl] seconds, never shortening a longer life. One atomic pipeline. *)
Definition add_to_set_for_at_least (now : Z) (k m : string) (ttl : Z) (db : vdb) : vdb :=
  vexpire GT now k (ttl * 1000) (vexpire NX now k (ttl * 1000) (vsadd now k m db)).

(** [conn.get(k)] decoded, an undecodable value counting as absent. *)
Definition load_json {A} `{!Serde A} (now : Z) (k : string) (db : vdb) : option A :=
  vget now k db ≫= from_json.
End derived.

Section add_to_set.
Context `{ValkeyLaws}.

Lemma vget_add_ne now now' k k' m ttl db :
  k <> k' -> vget now' k' (add_to_set_for_at_least now k m ttl db) = vget now' k' db.
Proof. intros Hk. unfold add_to_set_for_at_least. by rewrite !vget_expire_ne, vget_sadd. Qed.

Lemma vget_add_own now k m ttl db :
  0 < ttl -> vget now k (add_to_set_for_at_least now k m ttl db) = vget now k db.
Proof. intros Ht. unfold add_to_set_for_at_least. by rewrite !vget_expire_now, vget_sadd_own by lia. Qed.

Lemma vsmembers_add now k m m' ttl db :
  vget now k db = None -> 0 < ttl ->
  m' ∈ vsmembers now k (add_to_set_for_at_least now k m ttl db) <-> m' = m \/ m' ∈ vsmembers now k db.
Proof.
  intros Hg Ht. unfold add_to_set_for_at_least. rewrite !vsmembers_expire_now by lia.
  by apply vsmembers_sadd.
Qed.
End add_to_set.

Lemma load_json_set `{ValkeyLaws} `{!Serde A} now now' k (v : A) ttl db :
  now <= now' -> 0 < ttl ->
  load_json now' k (vset_px now k (to_json v) ttl db) = if now' <? now + ttl then Some v else None.
Proof.
  intros. unfold load_json. rewrite vget_set by done. case_match; [|done]. apply from_to_json.
Qed.

(** ** Names of keys *)

Abbreviation Uuid := Z.

Fixpoint colonless (s : string) : bool :=
  match s with
  | EmptyString => true
  | String c s => negb (bool_decide (c = ":"%char)) && colonless s
  end.

(** The [uuid] crate prints an id as hexadecimal digits and dashes. *)
Class UuidDisplay := {
  uuid_str : Uuid -> string;
  uuid_str_colonless u : colonless (uuid_str u) = true;
  uuid_str_inj u v : uuid_str u = uuid_str v -> u = v;
  parse_str : string -> option Uuid;
  parse_uuid_str u : parse_str (uuid_str u) = Some u
}.

Section keys.
Context `{UuidDisplay}.
Local Open Scope string_scope.

Definition PREFIX : string := "ridm".

Definition sso_session (tenant_id session_id : Uuid) : string :=
  PREFIX ++ ":t:" ++ uuid_str tenant_id ++ ":session:" ++ uuid_str session_id.
Definition auth_code (tenant_id : Uuid) (code_hash : string) : string :=
  PREFIX ++ ":t:" ++ uuid_str tenant_id ++ ":code:" ++ code_hash.
Definition session_clients (tenant_id session_id : Uuid) : string :=
  PREFIX ++ ":t:" ++ uuid_str tenant_id ++ ":session:" ++ uuid_str session_id ++ ":clients".
Definition user_sessions (tenant_id user_id : Uuid) : string :=
  PREFIX ++ ":t:" ++ uuid_str tenant_id ++ ":user:" ++ uuid_str user_id ++ ":sessions".
Definition device_code (tenant_id : Uuid) (device_hash : string) : string :=
  PREFIX ++ ":t:" ++ uuid_str tenant_id ++ ":device:" ++ device_hash.
Definition device_user_code (tenant_id : Uuid) (user_code : string) : string :=
  PREFIX ++ ":t:" ++ uuid_str tenant_id ++ ":device:user:" ++ user_code.
Definition device_guesses (tenant_id : Uuid) (ip : string) : string :=
  PREFIX ++ ":t:" ++ uuid_str tenant_id ++ ":device:guesses:" ++ ip.
Definition jti_denied (tenant_id : Uuid) (jti : string) : string :=
  PREFIX ++ ":t:" ++ uuid_str tenant_id ++ ":jti:" ++ jti.
Definition opaque_access_token (token_hash : string) : string := PREFIX ++ ":at:" ++ token_hash.
Definition opaque_access_token_claims (tenant_id : Uuid) (token_hash : string) : string :=
  PREFIX ++ ":t:" ++ uuid_str tenant_id ++ ":at:" ++ token_hash.
Definition code_family (tenant_id : Uuid) (code_hash : string) : string :=
  PREFIX ++ ":t:" ++ uuid_str tenant_id ++ ":code_family:" ++ code_hash.
End keys.

(** An id ends where the next colon stands. *)
Lemma colonless_app_inj s1 s2 t1 t2 :
  colonless s1 = true -> colonless s2 = true ->
  (s1 ++ String ":" t1)%string = (s2 ++ String ":" t2)%string -> s1 = s2 /\ t1 = t2.
Proof.
  revert s2. induction s1 as [|a s1 IH]; intros [|b s2] Ha Hb E; simpl in *; bool_hyps; simplify_eq.
  - done.
  - edestruct IH as [-> ->]; done.
Qed.

Lemma colonless_app_inj_lit s1 s2 t1 t2 r1 r2 :
  colonless s1 = true -> colonless s2 = true ->
  (s1 ++ (String ":" t1 ++ r1))%string = (s2 ++ (String ":" t2 ++ r2))%string ->
  s1 = s2 /\ (t1 ++ r1)%string = (t2 ++ r2)%string.
Proof. apply colonless_app_inj. Qed.

(** Takes a key equation apart at its ids. *)
Ltac key_inv :=
  unfold sso_session, auth_code, session_clients, user_sessions, device_code, device_user_code,
    device_guesses, jti_denied, opaque_access_token, opaque_access_token_claims, code_family, PREFIX in *;
  repeat match goal with
    | H : (String _ _ ++ _)%string = (String _ _ ++ _)%string |- _ =>
        first [discriminate H | injection H as H]
    | H : (EmptyString ++ ?x)%string = ?y |- _ => change (EmptyString ++ x)%string with x in H
    | H : ?y = (EmptyString ++ ?x)%string |- _ => change (EmptyString ++ x)%string with x in H
    | H : (uuid_str ?u ++ _)%string = (uuid_str ?v ++ _)%string |- _ =>
        first [ apply colonless_app_inj_lit in H as [? H]; [|apply uuid_str_colonless..]
              | apply colonless_app_inj in H as [? H]; [|apply uuid_str_colonless..] ]
    | H : uuid_str _ = uuid_str _ |- _ => apply uuid_str_inj in H
    end; simplify_eq.

Section key_lemmas.
Context `{UuidDisplay}.

Lemma sso_session_inj t s t' s' : sso_session t s = sso_session t' s' -> t = t' /\ s = s'.
Proof. intros E. by key_inv. Qed.

Lemma sso_session_user_sessions t s t' u : sso_session t s <> user_sessions t' u.
Proof. intros E. by key_inv. Qed.

Lemma user_sessions_inj t u t' u' : user_sessions t u = user_sessions t' u' -> t = t' /\ u = u'.
Proof. intros E. by key_inv. Qed.

Lemma auth_code_inj t h t' h' : auth_code t h = auth_code t' h' -> t = t' /\ h = h'.
Proof. intros E. by key_inv. Qed.

Lemma device_code_inj t h t' h' : device_code t h = device_code t' h' -> t = t' /\ h = h'.
Proof. intros E. by key_inv. Qed.
End key_lemmas.

(** ** A small instance

    A finite map from keys to entries with an optional expiry. *)

Section instance.
Context {R : Type}.

Inductive Entry := EStr (r : R) | ESet (ms : gset string).

Abbreviation Store := (gmap string (Entry * option Z)).

Definition unexpired (now : Z) (x : option Z) : bool :=
  match x with Some x => now <? x | None => true end.

(** The live entry at a key. *)
Definition entry_at (now : Z) (k : string) (db : Store) : option (Entry * option Z) :=
  match db !! k with
  | Some (e, x) => if unexpired now x then Some (e, x) else None
  | None => None
  end.

Definition store_get (now : Z) (k : string) (db : Store) : option R :=
  match entry_at now k db with Some (EStr r, _) => Some r | _ => None end.

Definition store_members (now : Z) (k : string) (db : Store) : list string :=
  match entry_at now k db with Some (ESet ms, _) => elements ms | _ => [] end.

(** Whether [EXPIRE] with an option sets the expiry [y] over [x]. *)
Definition applies (o : ExpireOpt) (x : option Z) (y : Z) : bool :=
  match o, x with
  | Always, _ | NX, None => true
  | GT, Some x => x <? y
  | _, _ => false
  end.

Definition map_valkey : Valkey := {|
  raw := R;
  vdb := Store;
  vget := store_get;
  vset_px now k v ttl db := <[k := (EStr v, Some (now + ttl))]> db;
  vset_keepttl now k v db :=
    <[k := (EStr v, match entry_at now k db with Some (_, x) => x | None => None end)]> db;
  vdel now k db := delete k db;
  vsmembers := store_members;
  vexpire o now k ttl db :=
    match entry_at now k db with
    | Some (e, x) => if applies o x (now + ttl) then <[k := (e, Some (now + ttl))]> db else db
    | None => db
    end;
  vsadd now k m db :=
    match entry_at now k db with
    | Some (EStr _, _) => db
    | Some (ESet ms, x) => <[k := (ESet ({[m]} ∪ ms), x)]> db
    | None => <[k := (ESet {[m]}, None)]> db
    end;
  vsrem now k ms db :=
    match entry_at now k db with
    | Some (ESet old, x) => <[k := (ESet (old ∖ list_to_set ms), x)]> db
    | _ => db
    end
|}.

Lemma unexpired_earlier now now' x :
  now <= now' -> unexpired now' x = true -> unexpired now x = true.
Proof. destruct x as [x|]; simpl; [|done]. intros ? ?%Z.ltb_lt. apply Z.ltb_lt. lia. Qed.

Lemma entry_at_insert now k e x db :
  entry_at now k (<[k := (e, x)]> db) = if unexpired now x then Some (e, x) else None.
Proof. unfold entry_at. by rewrite lookup_insert_eq. Qed.

Lemma entry_at_insert_ne now k k' e db :
  k <> k' -> entry_at now k' (<[k := e]> db) = entry_at now k' db.
Proof. intros. unfold entry_at. by rewrite lookup_insert_ne. Qed.

Lemma entry_at_delete now k db : entry_at now k (delete k db) = None.
Proof. unfold entry_at. by rewrite lookup_delete_eq. Qed.

Lemma entry_at_delete_ne now k k' db :
  k <> k' -> entry_at now k' (delete k db) = entry_at now k' db.
Proof. intros. unfold entry_at. by rewrite lookup_delete_ne. Qed.

Lemma entry_at_time now now' k db e x :
  now <= now' -> entry_at now k db = Some (e, x) ->
  entry_at now' k db = if unexpired now' x then Some (e, x) else None.
Proof.
  unfold entry_at. intros Hn E. destruct (db !! k) as [[e' x']|]; [|done].
  by destruct (unexpired now x'); simplify_eq.
Qed.

Lemma entry_at_unexpired now k db e x : entry_at now k db = Some (e, x) -> unexpired now x = true.
Proof.
  unfold entry_at. intros E. destruct (db !! k) as [[e' x']|]; [|done].
  by destruct (unexpired now x') eqn:?; simplify_eq.
Qed.

Lemma entry_at_none now now' k db :
  now <= now' -> entry_at now k db = None -> entry_at now' k db = None.
Proof.
  unfold entry_at. intros Hn E. destruct (db !! k) as [[e x]|]; [|done].
  destruct (unexpired now' x) eqn:Ex; [|done].
  by rewrite (unexpired_earlier now now' x Hn Ex) in E.
Qed.

(** An entry now, after an expiry is set in the future. *)
Lemma entry_at_expire o now k ttl (db : Store) :
  0 < ttl ->
  exists x', entry_at now k (@vexpire map_valkey o now k ttl db)
             = match entry_at now k db with Some (e, x) => Some (e, x' x) | None => None end.
Proof.
  intros Ht. cbn [vexpire map_valkey].
  destruct (entry_at now k db) as [[e x]|] eqn:E; [|exists id; by rewrite E].
  destruct (applies o x (now + ttl)); [|exists id; by rewrite E].
  exists (fun _ => Some (now + ttl)). rewrite entry_at_insert. unfold unexpired.
  by rewrite (proj2 (Z.ltb_lt _ _)) by lia.
Qed.

Lemma entry_at_expire_ne o now now' k k' ttl (db : Store) :
  k <> k' -> entry_at now' k' (@vexpire map_valkey o now k ttl db) = entry_at now' k' db.
Proof. intros Hk. cbn [vexpire map_valkey]. repeat case_match; by rewrite ?entry_at_insert_ne. Qed.

Lemma map_valkey_laws : @ValkeyLaws map_valkey.
Proof.
  split; cbn [vget vset_px vset_keepttl vdel vsmembers vsadd vsrem map_valkey];
    unfold store_get, store_members.
  - intros now now' k v ttl db Hn Ht. rewrite entry_at_insert. unfold unexpired.
    by destruct (now' <? now + ttl).
  - intros now now' k k' v ttl db Hk. by rewrite entry_at_insert_ne.
  - intros now now' k v v0 db Hn Hl.
    destruct (entry_at now k db) as [[[r|ms] x]|] eqn:E; simplify_eq.
    rewrite entry_at_insert, (entry_at_time now now' k db _ _ Hn E).
    by destruct (unexpired now' x).
  - intros now k v db. rewrite entry_at_insert.
    destruct (entry_at now k db) as [[e x]|] eqn:E; [|done].
    by rewrite (entry_at_unexpired _ _ _ _ _ E).
  - intros now now' k k' v db Hk. by rewrite entry_at_insert_ne.
  - intros now now' k db. by rewrite entry_at_delete.
  - intros now now' k k' db Hk. by rewrite entry_at_delete_ne.
  - intros now now' k v db Hn Hl. unfold entry_at in *. cbn [raw vdb map_valkey] in *.
    destruct (db !! k) as [[e x]|]; [|done].
    destruct (unexpired now' x) eqn:Ex; [|by destruct e].
    by rewrite (unexpired_earlier now now' x Hn Ex).
  - intros o now now' k k' ttl db Hk. by rewrite entry_at_expire_ne.
  - intros o now k ttl db Ht. destruct (entry_at_expire o now k ttl db Ht) as [x' ->].
    by destruct (entry_at now k db) as [[[r|ms] x]|].
  - intros now now' k k' m db Hk.
    destruct (entry_at now k db) as [[[r|ms] x]|]; by rewrite ?entry_at_insert_ne.
  - intros now now' k k' ms db Hk.
    destruct (entry_at now k db) as [[[r|old] x]|]; by rewrite ?entry_at_insert_ne.
  - intros now now' k m db Hn. destruct (entry_at now k db) as [[[r|ms] x]|] eqn:E; [done| |].
    + rewrite entry_at_insert, (entry_at_time now now' k db _ _ Hn E). by destruct (unexpired now' x).
    + by rewrite entry_at_insert, (entry_at_none now now' k db Hn E).
  - intros now now' k ms db Hn. destruct (entry_at now k db) as [[[r|old] x]|] eqn:E; [done| |done].
    rewrite entry_at_insert, (entry_at_time now now' k db _ _ Hn E). by destruct (unexpired now' x).
  - intros now k db. destruct (entry_at now k db) as [[[r|ms] x]|];
      [apply NoDup_nil_2|apply NoDup_elements|apply NoDup_nil_2].
  - intros now k m m' db Hg.
    destruct (entry_at now k db) as [[[r|ms] x]|] eqn:E; [done| |].
    + rewrite entry_at_insert, (entry_at_unexpired _ _ _ _ _ E). set_solver.
    + rewrite entry_at_insert. cbn [unexpired].
      rewrite elem_of_elements, elem_of_singleton, elem_of_nil. tauto.
  - intros o now k ttl db Ht. destruct (entry_at_expire o now k ttl db Ht) as [x' ->].
    by destruct (entry_at now k db) as [[[r|ms] x]|].
  - intros o now now' k k' ttl db Hk. by rewrite entry_at_expire_ne.
  - intros now k m' ms db.
    destruct (entry_at now k db) as [[[r|old] x]|] eqn:E; rewrite ?E;
      [rewrite elem_of_nil; tauto| |rewrite elem_of_nil; tauto].
    rewrite entry_at_insert, (entry_at_unexpired _ _ _ _ _ E). set_solver.
  - intros now now' k k' v ttl db Hk. by rewrite entry_at_insert_ne.
  - intros now now' k k' db Hk. by rewrite entry_at_delete_ne.
  - intros now now' k k' m db Hk.
    destruct (entry_at now k db) as [[[r|ms] x]|]; by rewrite ?entry_at_insert_ne.
  - intros now now' k k' ms db Hk.
    destruct (entry_at now k db) as [[[r|old] x]|]; by rewrite ?entry_at_insert_ne.
Qed.
End instance.
Arguments Entry : clear implicits.

(** Ids in unary, with a sign. *)
Fixpoint unary (n : nat) : string := match n with O => EmptyString | S n => String "1" (unary n) end.

Lemma unary_length n : String.length (unary n) = n.
Proof. induction n as [|n IH]; [done|]. cbn. by rewrite IH. Qed.

Lemma unary_colonless n : colonless (unary n) = true.
Proof. induction n as [|n IH]; [done|]. exact IH. Qed.

Definition toy_parse (s : string) : option Uuid :=
  match s with
  | String c s => Some (if bool_decide (c = "-"%char) then - Z.of_nat (String.length s)
                        else Z.of_nat (String.length s))
  | EmptyString => None
  end.
Definition toy_uuid_str (u : Uuid) : string :=
  String (if Z.ltb u 0 then "-" else "+")%char (unary (Z.to_nat (Z.abs u))).

Lemma toy_parse_str u : toy_parse (toy_uuid_str u) = Some u.
Proof.
  unfold toy_parse, toy_uuid_str. rewrite unary_length. destruct (Z.ltb_spec u 0).
  - rewrite bool_decide_eq_true_2 by done. f_equal. lia.
  - rewrite bool_decide_eq_false_2 by done. f_equal. lia.
Qed.

Definition toy_uuid : UuidDisplay.
Proof.
  refine {| uuid_str := toy_uuid_str; parse_str := toy_parse; parse_uuid_str := toy_parse_str |}.
  - intros u. unfold toy_uuid_str. cbn [colonless].
    rewrite unary_colonless. by case_match.
  - intros u v E. apply (inj Some). by rewrite <- !toy_parse_str, E.
Defined.

(** *** Counters over a finite map *)

Definition counter_at (now : Z) (k : string) (db : gmap string (Z * option Z))
    : option (Z * option Z) :=
  match db !! k with
  | Some (n, x) => if unexpired now x then Some (n, x) else None
  | None => None
  end.

Definition map_counters : Counters := {|
  cdb := gmap string (Z * option Z);
  vcount := counter_at;
  vincr now k db :=
    let '(n, x) := match counter_at now k db with Some (n, x) => (n + 1, x) | None => (1, None) end in
    (n, <[k := (n, x)]> db);
  vpexpire now k ttl db :=
    match counter_at now k db with Some (n, _) => <[k := (n, Some (now + ttl))]> db | None => db end;
  vpttl now k db := match counter_at now k db with
                    | Some (_, Some x) => x - now | Some (_, None) => -1 | None => -2 end
|}.

Lemma counter_at_unexpired now k db n x : counter_at now k db = Some (n, x) -> unexpired now x = true.
Proof.
  unfold counter_at. intros E. destruct (db !! k) as [[n' x']|]; [|done].
  by destruct (unexpired now x') eqn:?; simplify_eq.
Qed.

Lemma map_counters_laws : @CountersLaws map_counters.
Proof.
  split; cbn [vcount vincr vpexpire vpttl map_counters cdb].
  - intros now k db. by destruct (counter_at now k db) as [[n x]|].
  - intros now k db. destruct (counter_at now k db) as [[n x]|] eqn:E; cbn [snd]; unfold counter_at;
      rewrite lookup_insert_eq; [|done]. by rewrite (counter_at_unexpired _ _ _ _ _ E).
  - intros now now' k k' db Hk. destruct (counter_at now k db) as [[n x]|]; cbn [snd];
      unfold counter_at; by rewrite lookup_insert_ne.
  - intros now k ttl n x db Ht E. rewrite E. unfold counter_at. rewrite lookup_insert_eq.
    unfold unexpired. by rewrite (proj2 (Z.ltb_lt _ _)) by lia.
  - intros now now' k k' ttl db Hk. destruct (counter_at now k db) as [[n x]|]; [|done].
    unfold counter_at. by rewrite lookup_insert_ne.
  - done.
  - intros now now' k db Hn. unfold counter_at. destruct (db !! k) as [[n [x|]]|]; [|done..].
    unfold unexpired. destruct (Z.ltb_spec now x); [done|]. by rewrite (proj2 (Z.ltb_ge _ _)) by lia.
Qed.
