(* ===== verification/AppState.v ===== *)
(** * Shared state of the token and session services

    The records of [api/src/models/refresh_token.rs], [models/session.rs]
    and [services/sessions.rs], and the statements of
    [api/src/repos/refresh_tokens.rs] and [repos/sessions.rs] as functions on
    the tables' rows. A statement runs inside a transaction that commits as a
    whole; times are in milliseconds. *)

From stdpp Require Import gmap strings sorting.
From S2P Require Import Prelude Valkey.

(** ** Records *)

Record RefreshToken := mkRefreshToken {
  rt_id : Uuid;
  rt_tenant_id : Uuid;
  rt_family_id : Uuid;
  rt_client_id : string;
  rt_user_id : option Uuid;
  rt_session_id : option Uuid;
  rt_token_hash : list Z;
  rt_scopes : list string;
  rt_audiences : list string;
  rt_auth_time : option Z;
  rt_amr : list string;
  rt_acr : option string;
  rt_org_id : option Uuid;
  rt_act : option string;              (* the JSON text *)
  rt_expires_at : Z;
  rt_dpop_jkt : option string;
  rt_mtls_x5t : option string;
  rt_consumed_at : option Z;
  rt_revoked_at : option Z;
  rt_created_at : Z
}.

(** Granted [offline_access]: the family may outlive its SSO session. *)
Definition is_offline (t : RefreshToken) : bool :=
  existsb (fun s => bool_decide (s = "offline_access"%string)) (rt_scopes t).

Definition is_usable (t : RefreshToken) (now : Z) : bool :=
  bool_decide (rt_consumed_at t = None) && bool_decide (rt_revoked_at t = None)
  && (now <? rt_expires_at t).

Record SessionPolicy := mkSessionPolicy {
  idle_timeout_secs : Z;
  absolute_timeout_secs : Z;
  max_concurrent : Z
}.
(** [SessionPolicy::default], of the fields the services here read. *)
Definition default_policy : SessionPolicy := mkSessionPolicy (30 * 60) (12 * 60 * 60) 0.

Record Impersonator := mkImpersonator {
  imp_user_id : Uuid;
  imp_tenant_id : Uuid;
  imp_username : string
}.

Record SsoSession := mkSsoSession {
  s_id : Uuid;
  s_tenant_id : Uuid;
  s_user_id : Uuid;
  s_auth_time : Z;
  s_amr : list string;
  s_acr : option string;
  s_ip : option string;
  s_user_agent : option string;
  s_device_id : option Uuid;
  s_org_id : option Uuid;
  s_impersonator : option Impersonator;
  s_created_at : Z;
  s_last_seen_at : Z;
  s_expires_at : Z;
  s_idle_expires_at : Z
}.

(** [SsoSession::is_live]. *)
Definition is_live (s : SsoSession) (now : Z) : bool :=
  (now <? s_expires_at s) && (now <? s_idle_expires_at s).

(** The Postgres mirror of a session. *)
Record SessionRow := mkSessionRow {
  sr_session : SsoSession;
  sr_impersonation_reason : option string;
  sr_revoked_at : option Z
}.
Definition sr_id (r : SessionRow) : Uuid := s_id (sr_session r).
Definition sr_tenant_id (r : SessionRow) : Uuid := s_tenant_id (sr_session r).

(** ** Audit events the services publish *)

Inductive Actor := ActUser (id : Uuid) | ActAdmin (id : Uuid) | ActClient (id : Uuid) | ActSystem.
Inductive EventKind :=
| SessionCreated (session_id user_id : Uuid)
| SessionRevoked (session_id user_id : Uuid)
| ImpersonationEnded (user_id session_id impersonator_id : Uuid)
| TokensRevoked (user_id session_id : option Uuid) (count : Z)
| RefreshTokenReuseDetected (family_id : Uuid) (client_id : string) (user_id : option Uuid)
| UserCreated (user_id : Uuid)
| UserUpdated (user_id : Uuid)
| UserDeleted (user_id : Uuid)
| UserRegistered (user_id : Uuid) (verified : bool)
| EmailVerified (user_id : Uuid)
| EmailChanged (user_id : Uuid) (old_email new_email : option string)
| PasswordChanged (user_id : Uuid) (by_user : bool)
| PasswordHashUpgraded (user_id : Uuid) (from_algo : string)
| PasswordResetRequested (user_id : Uuid)
| PasswordResetCompleted (user_id : Uuid)
| UserLocked (user_id : Uuid) (until_secs : Z)
| TermsAccepted (user_id : Uuid)
| LoginSucceeded (user_id : Uuid) (method : string)
| LoginFailed (identifier reason : string)
| NewDeviceLogin (user_id session_id : Uuid)
| TrustedDeviceAdded (user_id device_id : Uuid)
| TrustedDeviceRevoked (user_id device_id : Uuid)
| PasswordlessSent (user_id : Uuid) (method : string)
| MfaChanged (user_id : Uuid) (change : string)
| ConsentGranted (user_id client_id : Uuid) (scopes : list string)
| ConsentRevoked (user_id client_id : Uuid)
| RiskStepUp (user_id : Uuid) (score : Z) (signals : list string) (country : option string)
| RiskBlocked (user_id : Uuid) (score : Z) (signals : list string) (country : option string)
| AuthorizationGranted (user_id client_id : Uuid) (scopes : list string)
| OrganizationCreated (org_id : Uuid)
| OrganizationUpdated (org_id : Uuid)
| OrganizationDeleted (org_id : Uuid)
| OrganizationMemberAdded (org_id user_id : Uuid)
| OrganizationMemberRemoved (org_id user_id : Uuid)
| OrganizationDomainAdded (org_id domain_id : Uuid)
| OrganizationDomainVerified (org_id domain_id : Uuid)
| OrganizationDomainRemoved (org_id domain_id : Uuid).
Record Event := mkEvent { ev_tenant : Uuid; ev_actor : Actor; ev_kind : EventKind }.

(** ** The statements *)

(** [UPDATE ... SET ... WHERE p]: the new rows and [rows_affected]. *)
Definition update {A} (p : A -> bool) (f : A -> A) (rows : list A) : list A * Z :=
  ((fun r => if p r then f r else r) <$> rows, zlen (filter (fun r => Is_true (p r)) rows)).

Module RefreshRepo.
(** [insert]: refused by the unique constraints on (tenant, id) and
    (tenant, token_hash), the columns [consumed_at] and [revoked_at] null,
    [created_at] the statement's time. *)
Definition insert (now : Z) (t : RefreshToken) (rows : list RefreshToken)
    : option (RefreshToken * list RefreshToken) :=
  if existsb (fun r => (rt_id r =? rt_id t)
                       || ((rt_tenant_id r =? rt_tenant_id t)
                           && bool_decide (rt_token_hash r = rt_token_hash t))) rows
  then None
  else
    let stored :=
      mkRefreshToken (rt_id t) (rt_tenant_id t) (rt_family_id t) (rt_client_id t) (rt_user_id t)
        (rt_session_id t) (rt_token_hash t) (rt_scopes t) (rt_audiences t) (rt_auth_time t)
        (rt_amr t) (rt_acr t) (rt_org_id t) (rt_act t) (rt_expires_at t) (rt_dpop_jkt t)
        (rt_mtls_x5t t) None None now in
    Some (stored, rows ++ [stored]).

Definition find_by_hash (tenant_id : Uuid) (token_hash : list Z) (rows : list RefreshToken)
    : option RefreshToken :=
  List.find (fun r => (rt_tenant_id r =? tenant_id)
                      && bool_decide (rt_token_hash r = token_hash)) rows.

Definition set_consumed (at_ : Z) (t : RefreshToken) : RefreshToken :=
  mkRefreshToken (rt_id t) (rt_tenant_id t) (rt_family_id t) (rt_client_id t) (rt_user_id t)
    (rt_session_id t) (rt_token_hash t) (rt_scopes t) (rt_audiences t) (rt_auth_time t)
    (rt_amr t) (rt_acr t) (rt_org_id t) (rt_act t) (rt_expires_at t) (rt_dpop_jkt t)
    (rt_mtls_x5t t) (Some at_) (rt_revoked_at t) (rt_created_at t).
Definition set_revoked (at_ : Z) (t : RefreshToken) : RefreshToken :=
  mkRefreshToken (rt_id t) (rt_tenant_id t) (rt_family_id t) (rt_client_id t) (rt_user_id t)
    (rt_session_id t) (rt_token_hash t) (rt_scopes t) (rt_audiences t) (rt_auth_time t)
    (rt_amr t) (rt_acr t) (rt_org_id t) (rt_act t) (rt_expires_at t) (rt_dpop_jkt t)
    (rt_mtls_x5t t) (rt_consumed_at t) (Some at_) (rt_created_at t).

Definition mark_consumed (now : Z) (tenant_id id : Uuid) (rows : list RefreshToken)
    : list RefreshToken :=
  fst (update (fun r => (rt_tenant_id r =? tenant_id) && (rt_id r =? id)) (set_consumed now) rows).

(** The four [UPDATE ... SET revoked_at = now() WHERE ... AND revoked_at IS
    NULL] statements. *)
Definition revoke_where (now : Z) (p : RefreshToken -> bool) (rows : list RefreshToken)
    : list RefreshToken * Z :=
  update (fun r => p r && bool_decide (rt_revoked_at r = None)) (set_revoked now) rows.

Definition revoke_by_id (now : Z) (tenant_id id : Uuid) :=
  revoke_where now (fun r => (rt_tenant_id r =? tenant_id) && (rt_id r =? id)).
Definition revoke_family (now : Z) (tenant_id family_id : Uuid) :=
  revoke_where now (fun r => (rt_tenant_id r =? tenant_id) && (rt_family_id r =? family_id)).
Definition revoke_for_user (now : Z) (tenant_id user_id : Uuid) (client_id : option string) :=
  revoke_where now (fun r =>
    (rt_tenant_id r =? tenant_id) && bool_decide (rt_user_id r = Some user_id)
    && match client_id with None => true | Some c => bool_decide (rt_client_id r = c) end).
Definition revoke_for_session (now : Z) (tenant_id session_id : Uuid) :=
  revoke_where now (fun r =>
    (rt_tenant_id r =? tenant_id) && bool_decide (rt_session_id r = Some session_id)).

(** Live tokens of a user, newest first. *)
Definition newer (a b : RefreshToken) : Prop := rt_created_at b <= rt_created_at a.
#[export] Instance newer_dec a b : Decision (newer a b).
Proof. unfold newer. apply _. Defined.
Definition list_live_for_user (now : Z) (tenant_id user_id : Uuid) (rows : list RefreshToken)
    : list RefreshToken :=
  merge_sort newer
    (filter (fun r => Is_true ((rt_tenant_id r =? tenant_id)
       && bool_decide (rt_user_id r = Some user_id) && is_usable r now)) rows).
End RefreshRepo.

Module SessionRepo.
(** [ON CONFLICT (id) DO NOTHING]. *)
Definition insert (s : SsoSession) (rows : list SessionRow) : list SessionRow :=
  if existsb (fun r => sr_id r =? s_id s) rows then rows
  else rows ++ [mkSessionRow s None None].

Definition at_row (tenant_id id : Uuid) (r : SessionRow) : bool :=
  (sr_tenant_id r =? tenant_id) && (sr_id r =? id).

Definition set_session (r : SessionRow) (s : SsoSession) : SessionRow :=
  mkSessionRow s (sr_impersonation_reason r) (sr_revoked_at r).

(** [last_seen_at], [idle_expires_at], [auth_time], [amr], [acr]. *)
Definition touch (s : SsoSession) (rows : list SessionRow) : list SessionRow :=
  fst (update (at_row (s_tenant_id s) (s_id s))
         (fun r => let o := sr_session r in
            set_session r
              (mkSsoSession (s_id o) (s_tenant_id o) (s_user_id o) (s_auth_time s) (s_amr s)
                 (s_acr s) (s_ip o) (s_user_agent o) (s_device_id o) (s_org_id o)
                 (s_impersonator o) (s_created_at o) (s_last_seen_at s) (s_expires_at o)
                 (s_idle_expires_at s))) rows).

Definition set_device (tenant_id id device_id : Uuid) (rows : list SessionRow) : list SessionRow :=
  fst (update (at_row tenant_id id)
         (fun r => let o := sr_session r in
            set_session r
              (mkSsoSession (s_id o) (s_tenant_id o) (s_user_id o) (s_auth_time o) (s_amr o)
                 (s_acr o) (s_ip o) (s_user_agent o) (Some device_id) (s_org_id o)
                 (s_impersonator o) (s_created_at o) (s_last_seen_at o) (s_expires_at o)
                 (s_idle_expires_at o))) rows).

Definition set_impersonation (tenant_id id : Uuid) (imp : Impersonator) (reason : string)
    (rows : list SessionRow) : list SessionRow :=
  fst (update (at_row tenant_id id)
         (fun r => let o := sr_session r in
            mkSessionRow
              (mkSsoSession (s_id o) (s_tenant_id o) (s_user_id o) (s_auth_time o) (s_amr o)
                 (s_acr o) (s_ip o) (s_user_agent o) (s_device_id o) (s_org_id o)
                 (Some imp) (s_created_at o) (s_last_seen_at o) (s_expires_at o)
                 (s_idle_expires_at o)) (Some reason) (sr_revoked_at r)) rows).

Definition set_organization (tenant_id id org_id : Uuid) (rows : list SessionRow)
    : list SessionRow :=
  fst (update (at_row tenant_id id)
         (fun r => let o := sr_session r in
            set_session r
              (mkSsoSession (s_id o) (s_tenant_id o) (s_user_id o) (s_auth_time o) (s_amr o)
                 (s_acr o) (s_ip o) (s_user_agent o) (s_device_id o) (Some org_id)
                 (s_impersonator o) (s_created_at o) (s_last_seen_at o) (s_expires_at o)
                 (s_idle_expires_at o))) rows).

Definition mark_revoked (now : Z) (tenant_id id : Uuid) (rows : list SessionRow)
    : list SessionRow :=
  fst (update (fun r => at_row tenant_id id r && bool_decide (sr_revoked_at r = None))
         (fun r => mkSessionRow (sr_session r) (sr_impersonation_reason r) (Some now)) rows).

(** A row already purged counts as not revoked. *)
Definition is_revoked (tenant_id id : Uuid) (rows : list SessionRow) : bool :=
  match List.find (at_row tenant_id id) rows with
  | Some r => bool_decide (sr_revoked_at r <> None)
  | None => false
  end.
End SessionRepo.

(** ** The state *)

(** The parts of the deployment the two services read and write. The policy
    of a tenant is what [tenants::get_cached] answers. *)
Record AppState `{Valkey} := mkAppState {
  redis : vdb;
  refresh_rows : list RefreshToken;
  session_rows : list SessionRow;
  tenant_policy : gmap Uuid SessionPolicy;
  events : list Event
}.

Section setters.
Context `{Valkey}.
Definition with_redis (st : AppState) (db : vdb) : AppState :=
  mkAppState _ db (refresh_rows st) (session_rows st) (tenant_policy st) (events st).
Definition with_refresh (st : AppState) (rows : list RefreshToken) : AppState :=
  mkAppState _ (redis st) rows (session_rows st) (tenant_policy st) (events st).
Definition with_sessions (st : AppState) (rows : list SessionRow) : AppState :=
  mkAppState _ (redis st) (refresh_rows st) rows (tenant_policy st) (events st).
Definition publish (st : AppState) (tenant : Uuid) (a : Actor) (k : EventKind) : AppState :=
  mkAppState _ (redis st) (refresh_rows st) (session_rows st) (tenant_policy st)
    (events st ++ [mkEvent tenant a k]).
End setters.

(** ** Lemmas on the statements *)

Lemma update_elem {A} (p : A -> bool) f (rows : list A) r' :
  r' ∈ (update p f rows).1 <-> exists r, r ∈ rows /\ r' = (if p r then f r else r).
Proof. unfold update. cbn [fst]. rewrite list_elem_of_fmap. split; intros (r & ? & ?); by exists r. Qed.

(** A row the predicate selects is revoked afterwards, the others are kept. *)
Lemma revoke_where_elem now p rows r' :
  r' ∈ (RefreshRepo.revoke_where now p rows).1 <->
  exists r, r ∈ rows
    /\ r' = if p r && bool_decide (rt_revoked_at r = None) then RefreshRepo.set_revoked now r else r.
Proof. apply update_elem. Qed.

Lemma revoke_where_keeps now p rows r :
  r ∈ rows -> p r = false -> r ∈ (RefreshRepo.revoke_where now p rows).1.
Proof. intros Hr Hp. apply revoke_where_elem. exists r. by rewrite Hp. Qed.

(** [p] looks at columns that revoking does not change. *)
Definition stable_pred (p : RefreshToken -> bool) : Prop :=
  forall now r, p (RefreshRepo.set_revoked now r) = p r.

Lemma revoke_where_revokes now p rows r' :
  stable_pred p -> r' ∈ (RefreshRepo.revoke_where now p rows).1 -> p r' = true ->
  is_Some (rt_revoked_at r').
Proof.
  intros Hs (r & Hr & ->)%revoke_where_elem Hp.
  destruct (p r) eqn:E; cbn [andb] in *.
  - case_bool_decide as Hn; cbn [rt_revoked_at RefreshRepo.set_revoked]; [by eexists|].
    by apply not_eq_None_Some.
  - by rewrite E in Hp.
Qed.

Lemma revoked_unusable r n : is_Some (rt_revoked_at r) -> is_usable r n = false.
Proof.
  intros [x E]. unfold is_usable. rewrite E. rewrite (bool_decide_eq_false_2 (Some x = None)) by done.
  by rewrite andb_false_r.
Qed.
