(* ===== verification/Sessions.v ===== *)
(** * Browser SSO sessions

    Models [api/src/services/sessions.rs] (less the list of a session's
    clients) with [services/refresh_tokens.rs]'s [revoke_for_session],
    [services/impersonation.rs]'s [announce_end] and the part of
    [services/logout.rs] that ends sessions: a session lives in Valkey under
    its idle and absolute timeouts and is mirrored to Postgres. *)

From stdpp Require Import gmap strings sorting.
From S2P Require Import Prelude Valkey AppState.

(** [Duration::num_seconds] of a difference of times. *)
Definition num_seconds (ms : Z) : Z := Z.quot ms 1000.

(** [DateTime::timestamp]. *)
Definition timestamp (t : Z) : Z := t / 1000.

Inductive AppError := NotFound (what : string) | Conflict.

Section sessions.
Context `{Valkey} `{UuidDisplay} `{!Serde SsoSession}.

(** [store]: the entry lives as long as the session. *)
Definition store (now : Z) (st : AppState) (s : SsoSession) : AppState :=
  let ttl_ms := Z.min (s_expires_at s) (s_idle_expires_at s) - now in
  if ttl_ms <=? 0 then st
  else with_redis st (vset_px now (sso_session (s_tenant_id s) (s_id s)) (to_json s) ttl_ms (redis st)).

(** [track]: the set of the user's sessions. *)
Definition track (now : Z) (st : AppState) (s : SsoSession) : AppState :=
  let ttl := Z.max (num_seconds (s_expires_at s - now)) 60 in
  with_redis st (add_to_set_for_at_least now (user_sessions (s_tenant_id s) (s_user_id s))
                   (uuid_str (s_id s)) ttl (redis st)).

Definition untrack (now : Z) (st : AppState) (tenant_id user_id session_id : Uuid) : AppState :=
  with_redis st (vsrem now (user_sessions tenant_id user_id) [uuid_str session_id] (redis st)).

Definition mirror_touch (st : AppState) (s : SsoSession) : AppState :=
  with_sessions st (SessionRepo.touch s (session_rows st)).

Definition mirror_interval (policy : SessionPolicy) : Z :=
  Z.min (Z.max (Z.quot (idle_timeout_secs policy) 4) 60) (15 * 60).

(** The session with its idle window slid to [now]. *)
Definition slid (now : Z) (policy : SessionPolicy) (s : SsoSession) : SsoSession :=
  mkSsoSession (s_id s) (s_tenant_id s) (s_user_id s) (s_auth_time s) (s_amr s) (s_acr s)
    (s_ip s) (s_user_agent s) (s_device_id s) (s_org_id s) (s_impersonator s) (s_created_at s)
    now (s_expires_at s)
    (Z.min (now + idle_timeout_secs policy * 1000) (s_expires_at s)).

(** [get]: load a live session, sliding its idle window at most once a
    minute; the database copy follows once per mirror interval. *)
Definition get (now : Z) (st : AppState) (tenant_id session_id : Uuid) (policy : SessionPolicy)
    : option SsoSession * AppState :=
  match vget now (sso_session tenant_id session_id) (redis st) with
  | None => (None, st)
  | Some r =>
      match from_json r with
      | None => (None, st)
      | Some s =>
          if negb (is_live s now) then (None, st)
          else if 60 <=? num_seconds (now - s_last_seen_at s) then
            let before := s_last_seen_at s in
            let s := slid now policy s in
            let st := store now st s in
            let every := mirror_interval policy in
            let st :=
              if negb (timestamp before / every =? timestamp now / every)
              then mirror_touch st s else st in
            (Some s, st)
          else (Some s, st)
      end
  end.

(** [refresh_tokens::revoke_for_session]. *)
Definition revoke_for_session (now : Z) (st : AppState) (tenant_id : Uuid) (actor : Actor)
    (session_id : Uuid) : AppState * Z :=
  let '(rows, count) := RefreshRepo.revoke_for_session now tenant_id session_id (refresh_rows st) in
  let st := with_refresh st rows in
  ((if 0 <? count then publish st tenant_id actor (TokensRevoked None (Some session_id) count)
    else st), count).

(** [impersonation::announce_end]; [acting] is the administrator the current
    request acts for. *)
Definition announce_end (st : AppState) (acting : option Uuid) (s : SsoSession) : AppState :=
  match s_impersonator s with
  | None => st
  | Some imp =>
      let actor := if bool_decide (acting = Some (imp_user_id imp))
                   then ActAdmin (imp_user_id imp) else ActSystem in
      publish st (s_tenant_id s) actor
        (ImpersonationEnded (s_user_id s) (s_id s) (imp_user_id imp))
  end.

(** [revoke]: end one session and the refresh tokens issued in it. *)
Definition revoke (now : Z) (acting : option Uuid) (st : AppState) (tenant_id session_id : Uuid)
    : bool * AppState :=
  let '(raw_, db) := vgetdel now (sso_session tenant_id session_id) (redis st) in
  let live := bool_decide (is_Some raw_) in
  let st := with_redis st db in
  let st := with_sessions st (SessionRepo.mark_revoked now tenant_id session_id (session_rows st)) in
  let ended := raw_ ≫= from_json in
  let owner := s_user_id <$> ended in
  let st := match ended with Some s => announce_end st acting s | None => st end in
  let st :=
    match owner with
    | Some user_id =>
        publish (untrack now st tenant_id user_id session_id) tenant_id (ActUser user_id)
          (SessionRevoked session_id user_id)
    | None => st
    end in
  let actor := match owner with Some id => ActUser id | None => ActSystem end in
  (live, fst (revoke_for_session now st tenant_id actor session_id)).

(** Sessions ordered by creation, then by id. *)
Definition older (a b : SsoSession) : Prop :=
  s_created_at a < s_created_at b \/ (s_created_at a = s_created_at b /\ s_id a <= s_id b).
#[global] Instance older_dec a b : Decision (older a b).
Proof. unfold older. apply _. Defined.

(** [list_live_for_user]: live sessions, oldest first; ids whose session
    ended are pruned from the set. *)
Definition live_of (now : Z) (user_id : Uuid) (r : option raw) : option SsoSession :=
  match r ≫= from_json with
  | Some s => if is_live s now && (s_user_id s =? user_id) then Some s else None
  | None => None
  end.
Definition list_live_for_user (now : Z) (st : AppState) (tenant_id user_id : Uuid)
    : list SsoSession * AppState :=
  let set_key := user_sessions tenant_id user_id in
  let ids := vsmembers now set_key (redis st) in
  if bool_decide (ids = []) then ([], st)
  else
    let session_keys := sso_session tenant_id <$> omap parse_str ids in
    let raws := (fun k => vget now k (redis st)) <$> session_keys in
    let pairs := zip ids raws in
    let live := omap (fun '(_, r) => live_of now user_id r) pairs in
    let stale := omap (fun '(id, r) => match live_of now user_id r with
                                       | Some _ => None | None => Some id end) pairs in
    let st := if bool_decide (stale = []) then st
              else with_redis st (vsrem now set_key stale (redis st)) in
    (merge_sort older live, st).

(** The state changes of [logout::end_session]. *)
Definition end_session (now : Z) (acting : option Uuid) (policy : SessionPolicy) (st : AppState)
    (tenant_id session_id : Uuid) : bool * AppState :=
  let '(_, st) := get now st tenant_id session_id policy in
  revoke now acting st tenant_id session_id.

Definition end_sessions (now : Z) (acting : option Uuid) (policy : SessionPolicy)
    (tenant_id : Uuid) (st : AppState) (olds : list SsoSession) : AppState :=
  foldl (fun st s => snd (end_session now acting policy st tenant_id (s_id s))) st olds.

(** [logout::end_sessions_for_user]. *)
Definition end_sessions_for_user (now : Z) (acting : option Uuid) (policy : SessionPolicy)
    (st : AppState) (tenant_id user_id : Uuid) (keep : option Uuid) : Z * AppState :=
  let '(live, st) := list_live_for_user now st tenant_id user_id in
  foldl (fun '(ended, st) s =>
    if bool_decide (Some (s_id s) = keep) then (ended, st)
    else
      let '(e, st) := end_session now acting policy st tenant_id (s_id s) in
      (if e then ended + 1 else ended, st)) (0, st) live.

Record NewSession := mkNewSession {
  n_user_id : Uuid;
  n_amr : list string;
  n_acr : option string;
  n_ip : option string;
  n_user_agent : option string;
  n_device_id : option Uuid;
  n_policy : SessionPolicy
}.

(** Make room for one more session of the user: the oldest are ended so that
    the cap holds after it. *)
Definition make_room (now : Z) (acting : option Uuid) (st : AppState) (tenant_id user_id : Uuid)
    (max : Z) : result AppError AppState :=
  let '(live, st) := list_live_for_user now st tenant_id user_id in
  let excess := Z.to_nat (zlen live + 1 - max) in
  if (0 <? excess)%nat then
    let? policy := ok_or (tenant_policy st !! tenant_id) (NotFound "tenant") in
    Ok (end_sessions now acting policy tenant_id st (take excess live))
  else Ok st.

(** [create] with the fresh id [id]. *)
Definition create (now : Z) (id : Uuid) (acting : option Uuid) (st : AppState) (tenant_id : Uuid)
    (req : NewSession) : result AppError (SsoSession * AppState) :=
  let max := max_concurrent (n_policy req) in
  let? st := if 0 <? max then make_room now acting st tenant_id (n_user_id req) max else Ok st in
  let s :=
    mkSsoSession id tenant_id (n_user_id req) now (n_amr req) (n_acr req) (n_ip req)
      (n_user_agent req) (n_device_id req) None None now now
      (now + absolute_timeout_secs (n_policy req) * 1000)
      (now + idle_timeout_secs (n_policy req) * 1000) in
  let st := with_sessions st (SessionRepo.insert s (session_rows st)) in
  let st := store now st s in
  let st := track now st s in
  Ok (s, publish st tenant_id (ActUser (n_user_id req)) (SessionCreated id (n_user_id req))).

(** [create_impersonated], its lifetime in milliseconds. *)
Definition create_impersonated (now : Z) (id : Uuid) (st : AppState) (tenant_id : Uuid)
    (policy : SessionPolicy) (user_id : Uuid) (imp : Impersonator) (reason : string)
    (lifetime : Z) (ip user_agent : option string) : SsoSession * AppState :=
  let expires_at := now + Z.min lifetime (absolute_timeout_secs policy * 1000) in
  let s :=
    mkSsoSession id tenant_id user_id now [] None ip user_agent None None (Some imp) now now
      expires_at (Z.min (now + idle_timeout_secs policy * 1000) expires_at) in
  let st := with_sessions st
    (SessionRepo.set_impersonation tenant_id id imp reason
       (SessionRepo.insert s (session_rows st))) in
  let st := store now st s in
  (s, track now st s).

(** [refresh_auth] on a session the caller holds. *)
Definition refresh_auth (now : Z) (st : AppState) (s : SsoSession) (amr : list string)
    (acr : option string) : SsoSession * AppState :=
  let s :=
    mkSsoSession (s_id s) (s_tenant_id s) (s_user_id s) now amr acr (s_ip s) (s_user_agent s)
      (s_device_id s) (s_org_id s) (s_impersonator s) (s_created_at s) (s_last_seen_at s)
      (s_expires_at s) (s_idle_expires_at s) in
  (s, mirror_touch (store now st s) s).

Definition bind_organization (now : Z) (st : AppState) (s : SsoSession) (org_id : Uuid)
    : SsoSession * AppState :=
  if bool_decide (s_org_id s = Some org_id) then (s, st)
  else
    let s :=
      mkSsoSession (s_id s) (s_tenant_id s) (s_user_id s) (s_auth_time s) (s_amr s) (s_acr s)
        (s_ip s) (s_user_agent s) (s_device_id s) (Some org_id) (s_impersonator s)
        (s_created_at s) (s_last_seen_at s) (s_expires_at s) (s_idle_expires_at s) in
    let st := store now st s in
    (s, with_sessions st
          (SessionRepo.set_organization (s_tenant_id s) (s_id s) org_id (session_rows st))).

Definition bind_device (now : Z) (st : AppState) (s : SsoSession) (device_id : Uuid)
    : SsoSession * AppState :=
  let s :=
    mkSsoSession (s_id s) (s_tenant_id s) (s_user_id s) (s_auth_time s) (s_amr s) (s_acr s)
      (s_ip s) (s_user_agent s) (Some device_id) (s_org_id s) (s_impersonator s)
      (s_created_at s) (s_last_seen_at s) (s_expires_at s) (s_idle_expires_at s) in
  let st := store now st s in
  (s, with_sessions st
        (SessionRepo.set_device (s_tenant_id s) (s_id s) device_id (session_rows st))).

End sessions.

(** ** Lemmas *)

Lemma is_live_iff s now : is_live s now = true <-> now < s_expires_at s /\ now < s_idle_expires_at s.
Proof. unfold is_live. rewrite andb_true_iff, !Z.ltb_lt. done. Qed.

Section lemmas.
Context `{ValkeyLaws} `{UuidDisplay} `{!Serde SsoSession}.

(** From [now] on, the record under a session's key is that session's. *)
Definition keyed (now : Z) (st : AppState) : Prop :=
  forall now' t sid r s,
    now <= now' -> vget now' (sso_session t sid) (redis st) = Some r -> from_json r = Some s ->
    s_tenant_id s = t /\ s_id s = sid.

(** No session under this key, now or later. *)
Definition gone (t sid : Uuid) (now : Z) (st : AppState) : Prop :=
  forall now', now <= now' -> vget now' (sso_session t sid) (redis st) = None.

Lemma sso_session_ne t sid t' sid' :
  (t, sid) <> (t', sid') -> sso_session t sid <> sso_session t' sid'.
Proof. intros Hne E. apply sso_session_inj in E as [-> ->]. done. Qed.

Lemma vget_store now now' st s t sid :
  (s_tenant_id s, s_id s) <> (t, sid) ->
  vget now' (sso_session t sid) (redis (store now st s)) = vget now' (sso_session t sid) (redis st).
Proof.
  intros Hne. unfold store. case_match; [done|]. cbn [redis with_redis].
  apply vget_set_ne. by apply sso_session_ne.
Qed.

Lemma vget_store_own now now' st s :
  now <= now' ->
  vget now' (sso_session (s_tenant_id s) (s_id s)) (redis (store now st s))
  = if now <? Z.min (s_expires_at s) (s_idle_expires_at s)
    then if now' <? Z.min (s_expires_at s) (s_idle_expires_at s) then Some (to_json s) else None
    else vget now' (sso_session (s_tenant_id s) (s_id s)) (redis st).
Proof.
  intros Hn. unfold store. destruct (Z.leb_spec (Z.min (s_expires_at s) (s_idle_expires_at s) - now) 0).
  - rewrite (proj2 (Z.ltb_ge _ _)) by lia. done.
  - rewrite (proj2 (Z.ltb_lt _ _)) by lia. cbn [redis with_redis]. rewrite vget_set by lia.
    replace (now + (Z.min (s_expires_at s) (s_idle_expires_at s) - now))
      with (Z.min (s_expires_at s) (s_idle_expires_at s)) by lia. done.
Qed.

Lemma vget_track now now' st s t sid :
  vget now' (sso_session t sid) (redis (track now st s)) = vget now' (sso_session t sid) (redis st).
Proof. apply vget_add_ne. apply not_eq_sym, sso_session_user_sessions. Qed.

Lemma vget_untrack now now' st t u sid0 t' sid :
  vget now' (sso_session t' sid) (redis (untrack now st t u sid0))
  = vget now' (sso_session t' sid) (redis st).
Proof. apply vget_srem. apply not_eq_sym, sso_session_user_sessions. Qed.

Lemma redis_announce st acting s : redis (announce_end st acting s) = redis st.
Proof. unfold announce_end. by case_match. Qed.

Lemma redis_revoke_for_session now st t actor sid :
  redis (fst (revoke_for_session now st t actor sid)) = redis st.
Proof.
  unfold revoke_for_session. destruct (RefreshRepo.revoke_for_session _ _ _ _) as [rows count].
  cbn [fst]. by case_match.
Qed.

Lemma vget_revoke now now' acting st t sid t' sid' :
  vget now' (sso_session t' sid') (redis (snd (revoke now acting st t sid)))
  = if decide ((t, sid) = (t', sid')) then None
    else vget now' (sso_session t' sid') (redis st).
Proof.
  unfold revoke, vgetdel. cbn [snd]. rewrite redis_revoke_for_session.
  set (s1 := with_sessions _ _).
  assert (vget now' (sso_session t' sid') (redis s1)
    = if decide ((t, sid) = (t', sid')) then None else vget now' (sso_session t' sid') (redis st)) as Hs1.
  { subst s1. cbn [redis with_sessions with_redis]. destruct (decide _) as [E|E].
    - injection E as -> ->. apply vget_del.
    - by apply vget_del_ne, sso_session_ne. }
  rewrite <- Hs1. destruct (vget now (sso_session t sid) (redis st) ≫= from_json) as [s|]; cbn [fmap option_fmap option_map].
  - cbn [redis publish]. rewrite vget_untrack. by rewrite redis_announce.
  - done.
Qed.

Lemma revoke_tables now acting st t sid :
  refresh_rows (revoke now acting st t sid).2
  = (RefreshRepo.revoke_for_session now t sid (refresh_rows st)).1
  /\ session_rows (revoke now acting st t sid).2
     = SessionRepo.mark_revoked now t sid (session_rows st).
Proof.
  unfold revoke, vgetdel. cbn [snd].
  set (s1 := with_sessions _ _).
  assert (forall st2 actor, refresh_rows st2 = refresh_rows st -> session_rows st2 = session_rows s1 ->
    refresh_rows (revoke_for_session now st2 t actor sid).1
    = (RefreshRepo.revoke_for_session now t sid (refresh_rows st)).1
    /\ session_rows (revoke_for_session now st2 t actor sid).1 = session_rows s1) as Hr.
  { intros st2 actor E1 E2. unfold revoke_for_session. rewrite E1.
    destruct (RefreshRepo.revoke_for_session now t sid (refresh_rows st)) as [rows count].
    cbn [fst]. by case_match. }
  destruct (vget now (sso_session t sid) (redis st) ≫= from_json) as [s|];
    cbn [fmap option_fmap option_map]; apply Hr; try done;
    unfold announce_end; by destruct (s_impersonator s).
Qed.

Lemma mark_revoked_revokes now t sid rows row :
  row ∈ rows -> SessionRepo.at_row t sid row = true ->
  SessionRepo.is_revoked t sid (SessionRepo.mark_revoked now t sid rows) = true.
Proof.
  unfold SessionRepo.is_revoked, SessionRepo.mark_revoked, update. cbn [fst].
  match goal with |- context [fmap ?g rows] => set (f := g) end.
  assert (forall r, SessionRepo.at_row t sid (f r) = SessionRepo.at_row t sid r) as Hf.
  { intros r. subst f. cbn beta. by case_match. }
  intros Hin Hat. induction rows as [|x rows IH]; [by apply not_elem_of_nil in Hin|].
  cbn [fmap list_fmap List.find]. rewrite Hf.
  destruct (SessionRepo.at_row t sid x) eqn:Ex.
  - apply bool_decide_eq_true_2. subst f. cbn beta. rewrite Ex. cbn [andb].
    case_bool_decide; by cbn.
  - apply IH. apply elem_of_cons in Hin as [->|?]; [congruence|done].
Qed.

Lemma vget_list_live now now' st t u t' sid :
  vget now' (sso_session t' sid) (redis (snd (list_live_for_user now st t u)))
  = vget now' (sso_session t' sid) (redis st).
Proof.
  unfold list_live_for_user. case_match; [done|]. cbn [snd]. case_match; [done|].
  apply vget_srem. apply not_eq_sym, sso_session_user_sessions.
Qed.
Lemma keyed_store now st s : keyed now st -> keyed now (store now st s).
Proof.
  intros Hk now' t sid r s' Hn. 
  destruct (decide ((s_tenant_id s, s_id s) = (t, sid))) as [[= <- <-]|Hne].
  - rewrite vget_store_own by done. repeat case_match; [|done|by apply Hk].
    intros [= <-]. rewrite from_to_json. by intros [= ->].
  - rewrite vget_store by done. by apply Hk.
Qed.

Lemma gone_store now st s t sid :
  gone t sid now st -> (s_tenant_id s, s_id s) <> (t, sid) -> gone t sid now (store now st s).
Proof. intros Hg Hne now' Hn. rewrite vget_store by done. by apply Hg. Qed.

(** Keyed, with the session [sid] of tenant [t] gone. *)
Definition ended (t sid : Uuid) (now : Z) (st : AppState) : Prop := keyed now st /\ gone t sid now st.

Lemma ended_same_redis t sid now st st' :
  redis st' = redis st -> ended t sid now st -> ended t sid now st'.
Proof. unfold ended, keyed, gone. by intros ->. Qed.

Lemma ended_later t sid now now' st : now <= now' -> ended t sid now st -> ended t sid now' st.
Proof.
  intros Hn [Hk Hg]. split.
  - intros n t' sid' r s Hn'. apply Hk. lia.
  - intros n Hn'. apply Hg. lia.
Qed.

Lemma ended_store t sid now st s :
  ended t sid now st -> (s_tenant_id s, s_id s) <> (t, sid) -> ended t sid now (store now st s).
Proof. intros [Hk Hg] Hne. split; [by apply keyed_store|by apply gone_store]. Qed.

Lemma ended_revoke t sid now acting st t' sid' :
  keyed now st -> (t, sid) = (t', sid') \/ gone t sid now st ->
  ended t sid now (snd (revoke now acting st t' sid')).
Proof.
  intros Hk Hor. split.
  - intros n t2 sid2 r s Hn. rewrite vget_revoke. case_match; [done|]. by apply Hk.
  - intros n Hn. rewrite vget_revoke. case_match; [done|].
    destruct Hor as [[= -> ->]|Hg]; [done|by apply Hg].
Qed.

Lemma get_cases now st t sid pol :
  (get now st t sid pol).2 = st
  \/ exists r s, vget now (sso_session t sid) (redis st) = Some r /\ from_json r = Some s
      /\ is_live s now = true
      /\ redis (get now st t sid pol).2 = redis (store now st (slid now pol s)).
Proof.
  unfold get. destruct (vget now (sso_session t sid) (redis st)) as [r|]; [|by left].
  destruct (from_json r) as [s|] eqn:Ef; [|by left].
  destruct (is_live s now) eqn:El; cbn [negb]; [|by left].
  case_match; [|by left]. right. exists r, s. cbn [snd]. repeat split; try done. by case_match.
Qed.

Lemma keyed_get now st t sid pol : keyed now st -> keyed now (get now st t sid pol).2.
Proof.
  intros Hk. destruct (get_cases now st t sid pol) as [->|(r & s & _ & _ & _ & E)]; [done|].
  unfold keyed. rewrite E. by apply keyed_store.
Qed.

Lemma ended_get t sid now st t' sid' pol :
  ended t sid now st -> ended t sid now (get now st t' sid' pol).2.
Proof.
  intros [Hk Hg]. destruct (get_cases now st t' sid' pol) as [->|(r & s & Hv & Hf & _ & E)]; [done|].
  eapply ended_same_redis; [exact E|]. apply ended_store; [done|].
  destruct (Hk now t' sid' r s ltac:(lia) Hv Hf) as [<- <-]. cbn [s_tenant_id s_id slid].
  intros [= Et Es]. rewrite Et, Es, Hg in Hv by lia. done.
Qed.

Lemma ended_end_session t sid now acting pol st t' sid' :
  keyed now st -> (t, sid) = (t', sid') \/ gone t sid now st ->
  ended t sid now (end_session now acting pol st t' sid').2.
Proof.
  intros Hk Hor. unfold end_session.
  destruct (get now st t' sid' pol) as [o st1] eqn:E. apply ended_revoke.
  - pose proof (keyed_get now st t' sid' pol Hk) as Hk'. by rewrite E in Hk'.
  - destruct Hor as [?|Hg]; [by left|right].
    pose proof (ended_get t sid now st t' sid' pol (conj Hk Hg)) as [_ Hg']. by rewrite E in Hg'.
Qed.

Lemma ended_list_live t sid now st t' u :
  ended t sid now st -> ended t sid now (list_live_for_user now st t' u).2.
Proof.
  intros [Hk Hg]. split.
  - intros n t2 sid2 r s Hn. rewrite vget_list_live. by apply Hk.
  - intros n Hn. rewrite vget_list_live. by apply Hg.
Qed.

Lemma ended_end_sessions t sid now acting pol t' st olds :
  ended t sid now st -> ended t sid now (end_sessions now acting pol t' st olds).
Proof.
  unfold end_sessions. revert st. induction olds as [|s olds IH]; intros st He; [done|].
  cbn [foldl]. apply IH. destruct He as [Hk Hg]. apply ended_end_session; [done|by right].
Qed.
Lemma ended_end_all t sid now acting pol st t' u keep :
  ended t sid now st -> ended t sid now (end_sessions_for_user now acting pol st t' u keep).2.
Proof.
  intros He. unfold end_sessions_for_user. pose proof (ended_list_live t sid now st t' u He) as He'.
  destruct (list_live_for_user now st t' u) as [live st1]. cbn [snd] in He'.
  generalize 0. clear He. revert st1 He'. induction live as [|s live IH]; intros st1 He n; [done|].
  cbn [foldl]. case_bool_decide; [by apply IH|].
  pose proof (ended_end_session t sid now acting pol st1 t' (s_id s) (proj1 He) (or_intror (proj2 He))) as He'.
  destruct (end_session now acting pol st1 t' (s_id s)) as [e st2]. by apply IH.
Qed.

Lemma ended_make_room t sid now acting st t' u max st' :
  ended t sid now st -> make_room now acting st t' u max = Ok st' -> ended t sid now st'.
Proof.
  intros He Hm. unfold make_room in Hm.
  pose proof (ended_list_live t sid now st t' u He) as He'.
  destruct (list_live_for_user now st t' u) as [live st1]. cbn [snd] in He'.
  case_match; [|by inv_result].
  destruct (tenant_policy st1 !! t') as [p|]; cbn [ok_or] in Hm; [|done].
  inv_result. by apply ended_end_sessions.
Qed.

Lemma ended_create t sid now id acting st t' req s st' :
  ended t sid now st -> (t', id) <> (t, sid) ->
  create now id acting st t' req = Ok (s, st') -> ended t sid now st'.
Proof.
  intros He Hne Hc. unfold create in Hc.
  destruct (if 0 <? max_concurrent (n_policy req) then _ else _) as [st1|e] eqn:E; [|done].
  inv_result.
  assert (ended t sid now st1) as He1.
  { case_match; [by eapply ended_make_room|by inv_result]. }
  set (s0 := mkSsoSession id _ _ _ _ _ _ _ _ _ _ _ _ _ _).
  assert (ended t sid now (store now (with_sessions st1 (SessionRepo.insert s0 (session_rows st1))) s0)) as [Hk Hg].
  { apply ended_store; [by eapply ended_same_redis|done]. }
  split.
  - intros n t2 sid2 r s Hn. cbn [redis publish]. rewrite vget_track. by apply Hk.
  - intros n Hn. cbn [redis publish]. rewrite vget_track. by apply Hg.
Qed.

Lemma ended_create_impersonated t sid now id st t' pol u imp reason life ip ua :
  ended t sid now st -> (t', id) <> (t, sid) ->
  ended t sid now (create_impersonated now id st t' pol u imp reason life ip ua).2.
Proof.
  intros He Hne. unfold create_impersonated. cbn [snd].
  set (s0 := mkSsoSession id _ _ _ _ _ _ _ _ _ _ _ _ _ _).
  set (st1 := with_sessions _ _).
  assert (ended t sid now (store now st1 s0)) as [Hk Hg].
  { apply ended_store; [by eapply ended_same_redis|done]. }
  split.
  - intros n t2 sid2 r s Hn. rewrite vget_track. by apply Hk.
  - intros n Hn. rewrite vget_track. by apply Hg.
Qed.
End lemmas.

(** *** The user's live sessions *)

Section cap.
Context `{ValkeyLaws} `{UuidDisplay} `{!Serde SsoSession}.
Context (now : Z) (t u : Uuid).

Definition members (st : AppState) : list string := vsmembers now (user_sessions t u) (redis st).

(** The set of the user's sessions is a set of ids, and sessions are keyed. *)
Definition tracked (st : AppState) : Prop :=
  keyed now st /\ vget now (user_sessions t u) (redis st) = None
  /\ forall m, m ∈ members st -> exists x, m = uuid_str x.

Definition live_at (st : AppState) (x : Uuid) : option SsoSession :=
  live_of now u (vget now (sso_session t x) (redis st)).

Lemma omap_parse_members (ids : list string) :
  (forall m, m ∈ ids -> exists x, m = uuid_str x) ->
  exists xs, ids = uuid_str <$> xs /\ omap parse_str ids = xs.
Proof.
  induction ids as [|m ids IH]; intros Hm; [by exists []|].
  destruct (Hm m) as [x ->]; [left|]. destruct IH as (xs & -> & Ho).
  { intros m' ?. apply Hm. by right. }
  exists (x :: xs). split; [done|]. cbn [omap list_omap]. rewrite parse_uuid_str. cbn. by rewrite Ho.
Qed.

Lemma list_live_spec st :
  tracked st ->
  exists xs, members st = uuid_str <$> xs /\ NoDup xs
    /\ (list_live_for_user now st t u).1 ≡ₚ omap (live_at st) xs.
Proof.
  intros (_ & _ & Hm). destruct (omap_parse_members _ Hm) as (xs & Hids & Ho).
  pose proof (vsmembers_nodup now (user_sessions t u) (redis st)) as Hnd. fold (members st) in Hnd.
  exists xs. split; [done|]. split.
  { rewrite Hids in Hnd. by apply NoDup_fmap_1 in Hnd. }
  unfold list_live_for_user. fold (members st). rewrite Ho. case_bool_decide as Hnil.
  { rewrite Hids in Hnil. apply fmap_nil_inv in Hnil as ->. done. }
  cbn [fst]. rewrite merge_sort_Permutation. rewrite Hids. clear.
  unfold live_at. induction xs as [|x xs IH]; [done|]. cbn. case_match; by rewrite IH.
Qed.

Definition live_ids (st : AppState) : list Uuid := s_id <$> (list_live_for_user now st t u).1.

Lemma list_live_redis st st' :
  redis st' = redis st -> (list_live_for_user now st' t u).1 = (list_live_for_user now st t u).1.
Proof. intros E. unfold list_live_for_user. rewrite E. by case_match. Qed.

Lemma live_at_keyed st x s : keyed now st -> live_at st x = Some s -> s_id s = x.
Proof.
  intros Hk. unfold live_at, live_of.
  destruct (vget now (sso_session t x) (redis st)) as [r|] eqn:E; cbn; [|done].
  destruct (from_json r) as [s'|] eqn:Ef; [|done]. case_match; [|done]. intros [= ->].
  by destruct (Hk now t x r s ltac:(lia) E Ef).
Qed.

Lemma live_ids_spec st :
  tracked st ->
  NoDup (live_ids st)
  /\ forall x, x ∈ live_ids st <-> uuid_str x ∈ members st /\ is_Some (live_at st x).
Proof.
  intros Ht. destruct (list_live_spec st Ht) as (xs & Hm & Hnd & Hp). destruct Ht as (Hk & _ & _).
  unfold live_ids.
  assert (s_id <$> omap (live_at st) xs = filter (fun x => is_Some (live_at st x)) xs) as Hf.
  { clear Hnd Hp Hm. induction xs as [|x xs IH]; [done|]. cbn [omap list_omap].
    rewrite filter_cons. destruct (live_at st x) as [s|] eqn:E.
    - rewrite decide_True by done. cbn. rewrite IH. by rewrite (live_at_keyed st x s Hk E).
    - rewrite decide_False by (by intros [? ?]). done. }
  split; [rewrite Hp, Hf; by apply NoDup_filter|]. intros x. rewrite Hp, Hf, list_elem_of_filter, Hm. split.
  - intros [Hs Hin]. split; [by apply list_elem_of_fmap_2|done].
  - intros [(y & E%uuid_str_inj & Hin)%list_elem_of_fmap Hs]. subst. done.
Qed.
Lemma user_sessions_sso t' sid u' : user_sessions t u' <> sso_session t' sid.
Proof. apply not_eq_sym, sso_session_user_sessions. Qed.

(** What the other operations leave of the user's set. *)
Definition shrinks (st st' : AppState) : Prop :=
  vget now (user_sessions t u) (redis st') = vget now (user_sessions t u) (redis st)
  /\ forall m, m ∈ members st' -> m ∈ members st.

Lemma shrinks_trans st1 st2 st3 : shrinks st1 st2 -> shrinks st2 st3 -> shrinks st1 st3.
Proof. intros [E1 H1'] [E2 H2']. split; [congruence|eauto]. Qed.

Lemma shrinks_same st st' : redis st' = redis st -> shrinks st st'.
Proof. unfold shrinks, members. by intros ->. Qed.

Lemma shrinks_store st s : shrinks st (store now st s).
Proof.
  unfold store. case_match; [by apply shrinks_same|]. split; cbn [redis with_redis].
  - apply vget_set_ne, not_eq_sym, user_sessions_sso.
  - unfold members. cbn [redis with_redis]. intros m.
    by rewrite vsmembers_set by (apply not_eq_sym, user_sessions_sso).
Qed.

Lemma shrinks_untrack st t' u' sid : shrinks st (untrack now st t' u' sid).
Proof.
  unfold shrinks, members, untrack. cbn [redis with_redis].
  destruct (decide (user_sessions t' u' = user_sessions t u)) as [->|Hne].
  - split; [by apply vget_srem_own|]. by intros m [? _]%vsmembers_srem.
  - split; [by apply vget_srem|]. intros m. by rewrite vsmembers_srem_ne.
Qed.

Lemma shrinks_get st t' sid pol : shrinks st (get now st t' sid pol).2.
Proof.
  destruct (get_cases now st t' sid pol) as [->|(r & s & _ & _ & _ & E)]; [by apply shrinks_same|].
  eapply shrinks_trans; [apply shrinks_store|]. by apply shrinks_same.
Qed.

Lemma shrinks_revoke st acting t' sid : shrinks st (revoke now acting st t' sid).2.
Proof.
  unfold revoke, vgetdel. cbn [snd].
  set (s1 := with_sessions _ _).
  assert (shrinks st s1) as Hs1.
  { split; cbn [redis with_redis with_sessions s1]; unfold members.
    - apply vget_del_ne, not_eq_sym, user_sessions_sso.
    - intros m. cbn [redis with_redis with_sessions s1].
      by rewrite vsmembers_del by (apply not_eq_sym, user_sessions_sso). }
  eapply shrinks_trans; [|by apply shrinks_same, redis_revoke_for_session].
  destruct (vget now (sso_session t' sid) (redis st) ≫= from_json) as [s|];
    cbn [fmap option_fmap option_map]; [|done].
  eapply shrinks_trans; [exact Hs1|]. eapply shrinks_trans.
  - by apply (shrinks_same _ (announce_end s1 acting s)), redis_announce.
  - eapply shrinks_trans; [apply shrinks_untrack|]. by apply shrinks_same.
Qed.

Lemma shrinks_list_live st : shrinks st (list_live_for_user now st t u).2.
Proof.
  unfold list_live_for_user. case_match; [by apply shrinks_same|]. cbn [snd].
  case_match; [by apply shrinks_same|]. unfold shrinks, members. cbn [redis with_redis].
  split; [by apply vget_srem_own|]. by intros m [? _]%vsmembers_srem.
Qed.

Lemma tracked_shrinks st st' : tracked st -> keyed now st' -> shrinks st st' -> tracked st'.
Proof. intros (_ & Hv & Hm) Hk [E Hs]. split; [done|split; [congruence|eauto]]. Qed.

(** Nothing new appears in the user's live sessions. *)
Lemma live_ids_shrink st st' (P : Uuid -> Prop) :
  tracked st -> tracked st' -> shrinks st st' ->
  (forall x s, live_at st' x = Some s -> P x /\ live_at st x = Some s) ->
  forall x, x ∈ live_ids st' -> x ∈ live_ids st /\ P x.
Proof.
  intros Ht Ht' [_ Hs] Hl x. destruct (live_ids_spec st Ht) as [_ Hx].
  destruct (live_ids_spec st' Ht') as [_ Hx']. intros [Hm [s E]]%Hx'.
  apply Hl in E as [? E]. split; [|done]. apply Hx. eauto.
Qed.

Lemma vget_get_other st sid sid' pol :
  keyed now st -> sid <> sid' ->
  vget now (sso_session t sid') (redis (get now st t sid pol).2)
  = vget now (sso_session t sid') (redis st).
Proof.
  intros Hk Hne. destruct (get_cases now st t sid pol) as [->|(r & s & Hv & Hf & _ & E)]; [done|].
  rewrite E. apply vget_store. destruct (Hk now t sid r s ltac:(lia) Hv Hf) as [<- <-].
  cbn [s_tenant_id s_id slid]. congruence.
Qed.

Lemma end_session_live st acting pol sid :
  tracked st ->
  tracked (end_session now acting pol st t sid).2
  /\ forall x, x ∈ live_ids (end_session now acting pol st t sid).2 -> x ∈ live_ids st /\ x <> sid.
Proof.
  intros Ht. destruct (ended_end_session t sid now acting pol st t sid (proj1 Ht)) as [Hk' Hg];
    [by left|].
  assert (shrinks st (end_session now acting pol st t sid).2) as Hs.
  { unfold end_session. pose proof (shrinks_get st t sid pol) as Hg1.
    destruct (get now st t sid pol) as [o st1]. eapply shrinks_trans; [exact Hg1|apply shrinks_revoke]. }
  assert (tracked (end_session now acting pol st t sid).2) as Ht' by (by eapply tracked_shrinks).
  split; [done|]. eapply live_ids_shrink; [done..|]. intros x s E.
  assert (x <> sid) as Hne.
  { intros ->. unfold live_at in E. by rewrite Hg in E. }
  split; [done|]. revert E. unfold live_at, end_session.
  pose proof (vget_get_other st sid x pol (proj1 Ht) ltac:(congruence)) as Hv.
  destruct (get now st t sid pol) as [o st1]. cbn [snd] in Hv.
  rewrite vget_revoke, decide_False by congruence. by rewrite Hv.
Qed.

Lemma end_sessions_live acting pol st olds :
  tracked st ->
  tracked (end_sessions now acting pol t st olds)
  /\ forall x, x ∈ live_ids (end_sessions now acting pol t st olds) ->
       x ∈ live_ids st /\ x ∉ s_id <$> olds.
Proof.
  unfold end_sessions. revert st. induction olds as [|s olds IH]; intros st Ht; cbn [foldl fmap list_fmap].
  - split; [done|]. intros x Hx. split; [done|]. apply not_elem_of_nil.
  - destruct (end_session_live st acting pol (s_id s) Ht) as [Ht1 Hl1].
    destruct (IH _ Ht1) as [Ht2 Hl2]. split; [done|]. intros x Hx.
    apply Hl2 in Hx as [Hx Hn]. apply Hl1 in Hx as [Hx Hne].
    split; [done|]. apply not_elem_of_cons. done.
Qed.

Lemma nodup_subset_length (l l' : list Uuid) :
  NoDup l -> (forall x, x ∈ l -> x ∈ l') -> (length l <= length l')%nat.
Proof. intros Hn Hs. apply submseteq_length, NoDup_submseteq; done. Qed.

(** Making room leaves at most [max - 1] live sessions. *)
Lemma make_room_live st acting max st' :
  tracked st -> 0 < max -> make_room now acting st t u max = Ok st' ->
  tracked st' /\ Z.of_nat (length (live_ids st')) <= max - 1.
Proof.
  intros Ht Hmax Hm. unfold make_room in Hm.
  pose proof (shrinks_list_live st) as Hs1.
  assert (keyed now (list_live_for_user now st t u).2) as Hk1.
  { intros n t2 sid2 r s Hn. rewrite vget_list_live. by apply Ht. }
  destruct (live_ids_spec st Ht) as [Hnd _].
  assert (forall x, x ∈ live_ids (list_live_for_user now st t u).2 -> x ∈ live_ids st) as Hsub.
  { intros x Hx. eapply (live_ids_shrink st _ (fun _ => True)); [done| |done| |done].
    - by eapply tracked_shrinks.
    - intros y s E. split; [done|]. revert E. unfold live_at. by rewrite vget_list_live. }
  assert (tracked (list_live_for_user now st t u).2) as Ht1 by (by eapply tracked_shrinks).
  unfold live_ids at 2 in Hsub. unfold live_ids in Hnd.
  destruct (list_live_for_user now st t u) as [live st1]. cbn [fst snd] in *.
  destruct (live_ids_spec st1 Ht1) as [Hnd1 _].
  case_match eqn:Eex.
  - destruct (tenant_policy st1 !! t) as [p|]; cbn [ok_or] in Hm; [|done]. inv_result.
    set (k := Z.to_nat (zlen live + 1 - max)) in *.
    destruct (end_sessions_live acting p st1 (take k live) Ht1) as [Ht2 Hl2]. split; [done|].
    destruct (live_ids_spec _ Ht2) as [Hnd2 _].
    assert (length (live_ids (end_sessions now acting p t st1 (take k live))) <= length (drop k live))%nat as Hlen.
    { rewrite <- (length_fmap s_id). apply nodup_subset_length; [done|]. intros x Hx.
      apply Hl2 in Hx as [Hx Hn]. apply Hsub in Hx.
      rewrite <- (take_drop k live), fmap_app, elem_of_app in Hx. by destruct Hx. }
    rewrite length_drop in Hlen. unfold zlen in *. lia.
  - inv_result. split; [done|].
    assert (length (live_ids st') <= length live)%nat as Hlen.
    { rewrite <- (length_fmap s_id live). by apply nodup_subset_length. }
    apply Nat.ltb_ge in Eex. unfold zlen in *. lia.
Qed.

(** Storing and tracking a session adds at most its own id. *)
Lemma store_track_live st s :
  tracked st -> s_tenant_id s = t -> s_user_id s = u ->
  tracked (track now (store now st s) s)
  /\ forall x, x ∈ live_ids (track now (store now st s) s) -> x = s_id s \/ x ∈ live_ids st.
Proof.
  intros Ht Et Eu. destruct (shrinks_store st s) as [Hv1 Hm1].
  set (ttl := Z.max (num_seconds (s_expires_at s - now)) 60).
  assert (0 < ttl) as Httl by (subst ttl; lia).
  assert (vget now (user_sessions t u) (redis (store now st s)) = None) as Hv2
    by (rewrite Hv1; apply Ht).
  assert (forall m, m ∈ members (track now (store now st s) s) -> m = uuid_str (s_id s) \/ m ∈ members st) as Hm2.
  { intros m. unfold members, track. cbn [redis with_redis]. fold ttl. rewrite Et, Eu.
    rewrite vsmembers_add by (done || lia). intros [->|Hm]; [by left|]. right. by apply Hm1. }
  assert (tracked (track now (store now st s) s)) as Ht'.
  { split; [|split].
    - intros n t2 sid2 r s2 Hn. rewrite vget_track. by apply keyed_store; [apply Ht|].
    - unfold track. cbn [redis with_redis]. rewrite Et, Eu, vget_add_own by lia. done.
    - intros m [->|Hm]%Hm2; [eauto|]. by apply Ht. }
  split; [done|]. intros x. destruct (live_ids_spec _ Ht') as [_ Hx'].
  destruct (live_ids_spec st Ht) as [_ Hx]. intros [Hm [s2 E]]%Hx'.
  destruct (decide (x = s_id s)) as [->|Hne]; [by left|right]. apply Hx. split.
  - apply Hm2 in Hm as [E2%uuid_str_inj|?]; done.
  - revert E. unfold live_at. rewrite vget_track, vget_store by congruence. eauto.
Qed.
End cap.

(** ** Histories of operations

    One service operation after another, with time passing; a new session's id
    is never [sid], an id once handed out. The operations that write back a
    session their request loaded earlier ([refresh_auth], [bind_organization],
    [bind_device], and [get] when it slides the window, [S_slide]) may do so on
    any session, however long ago it was loaded, but not on [sid] itself: a
    request that loaded [sid] before it was ended and writes it afterwards is
    left out here, and is what [bind_device_revives] is about. *)
Inductive step `{Valkey} `{UuidDisplay} `{!Serde SsoSession} (t sid : Uuid)
    : Z * AppState -> Z * AppState -> Prop :=
| S_time now now' st : now <= now' -> step t sid (now, st) (now', st)
| S_get now st t' sid' pol : step t sid (now, st) (now, (get now st t' sid' pol).2)
| S_revoke now acting st t' sid' : step t sid (now, st) (now, (revoke now acting st t' sid').2)
| S_end now acting pol st t' sid' :
    step t sid (now, st) (now, (end_session now acting pol st t' sid').2)
| S_end_all now acting pol st t' u keep :
    step t sid (now, st) (now, (end_sessions_for_user now acting pol st t' u keep).2)
| S_list now st t' u : step t sid (now, st) (now, (list_live_for_user now st t' u).2)
| S_create now id acting st t' req s st' :
    id <> sid -> create now id acting st t' req = Ok (s, st') -> step t sid (now, st) (now, st')
| S_impersonate now id st t' pol u imp reason life ip ua :
    id <> sid ->
    step t sid (now, st) (now, (create_impersonated now id st t' pol u imp reason life ip ua).2)
| S_refresh now st s amr acr :
    (s_tenant_id s, s_id s) <> (t, sid) -> step t sid (now, st) (now, (refresh_auth now st s amr acr).2)
| S_organization now st s org :
    (s_tenant_id s, s_id s) <> (t, sid) -> step t sid (now, st) (now, (bind_organization now st s org).2)
| S_device now st s device :
    (s_tenant_id s, s_id s) <> (t, sid) -> step t sid (now, st) (now, (bind_device now st s device).2)
| S_slide now st s :
    (s_tenant_id s, s_id s) <> (t, sid) -> step t sid (now, st) (now, mirror_touch (store now st s) s).

Lemma ended_step `{ValkeyLaws} `{UuidDisplay} `{!Serde SsoSession} t sid a b :
  step t sid a b -> ended t sid a.1 a.2 -> ended t sid b.1 b.2.
Proof.
  destruct 1; cbn [fst snd]; intros He.
  - by eapply ended_later.
  - by apply ended_get.
  - destruct He. apply ended_revoke; [done|by right].
  - destruct He. apply ended_end_session; [done|by right].
  - by apply ended_end_all.
  - by apply ended_list_live.
  - eapply ended_create; [done| |done]. congruence.
  - apply ended_create_impersonated; [done|]. congruence.
  - by refine (ended_same_redis t sid now _ _ _ (ended_store t sid now st _ He _)).
  - unfold bind_organization. case_bool_decide; [done|]. by refine (ended_same_redis t sid now _ _ _ (ended_store t sid now st _ He _)).
  - by refine (ended_same_redis t sid now _ _ _ (ended_store t sid now st _ He _)).
  - by refine (ended_same_redis t sid now _ _ _ (ended_store t sid now st _ He _)).
Qed.

(** A sign-in keeps the user's set well-formed and within the cap. *)
Lemma create_live `{ValkeyLaws} `{UuidDisplay} `{!Serde SsoSession}
    (now : Z) (id : Uuid) (acting : option Uuid) (st : AppState) (t : Uuid) (req : NewSession)
    (s : SsoSession) (st' : AppState) :
  tracked now t (n_user_id req) st -> 0 < max_concurrent (n_policy req) ->
  create now id acting st t req = Ok (s, st') ->
  tracked now t (n_user_id req) st' /\
  zlen (list_live_for_user now st' t (n_user_id req)).1 <= max_concurrent (n_policy req).
Proof.
  intros Ht Hmax Hc. unfold create in Hc.
  rewrite (proj2 (Z.ltb_lt _ _) Hmax) in Hc.
  destruct (make_room _ _ _ _ _ _) as [st1|e] eqn:E; [|done].
  destruct (make_room_live now t (n_user_id req) st acting _ st1 Ht Hmax E) as [Ht1 Hl1].
  set (s0 := mkSsoSession id _ _ _ _ _ _ _ _ _ _ _ _ _ _) in Hc. inv_result.
  set (st2 := with_sessions st1 _).
  destruct (store_track_live now t (n_user_id req) st2 s0) as [Ht3 Hl3]; [exact Ht1|done..|].
  split; [exact Ht3|].
  unfold st2 in Ht3, Hl3. cbn [fst].
  rewrite (list_live_redis _ _ _ (track now (store now st2 s0) s0)) by reflexivity.
  destruct (live_ids_spec now t (n_user_id req) _ Ht3) as [Hnd _].
  fold st2 in Ht3, Hl3, Hnd.
  assert (length (live_ids now t (n_user_id req) (track now (store now st2 s0) s0))
          <= length (id :: live_ids now t (n_user_id req) st2))%nat as Hlen.
  { apply nodup_subset_length; [done|]. intros x [->|Hx]%Hl3; [left|right; exact Hx]. }
  unfold live_ids in Hlen, Hl1. rewrite (list_live_redis _ _ _ st1 st2 eq_refl) in Hlen.
  cbn [length] in Hlen. rewrite !length_fmap in *. unfold zlen. lia.
Qed.

(** ** Theorems *)

(** C12: signing out is final. After a session is revoked, whatever service
    operations follow one another, at whatever times and for whatever sessions
    - reads, sign-ins, sign-outs, impersonations, and the write-backs of other
    sessions that requests loaded earlier - it is never found again. Only a
    request that had loaded this very session before it was revoked, and
    writes it back afterwards, could bring it back. *)
Theorem revoked_never_live `{ValkeyLaws} `{UuidDisplay} `{!Serde SsoSession}
    (t sid : Uuid) (now : Z) (acting : option Uuid) (st : AppState)
    (now' : Z) (st' : AppState) (pol : SessionPolicy) :
  keyed now st ->
  rtc (step t sid) (now, (revoke now acting st t sid).2) (now', st') ->
  get now' st' t sid pol = (None, st').
Proof.
  intros Hk Hs.
  assert (ended t sid now' st') as [_ Hg].
  { refine (rtc_invariant _ (fun a => ended t sid a.1 a.2) _ _ _ Hs _).
    - apply ended_step.
    - apply ended_revoke; [done|by left]. }
  unfold get. by rewrite Hg.
Qed.

(** the cap on concurrent sessions holds. After a sign-in under a policy
    with a cap, the user has at most that many live sessions, however many
    there were before. *)
Theorem create_cap `{ValkeyLaws} `{UuidDisplay} `{!Serde SsoSession}
    (now : Z) (id : Uuid) (acting : option Uuid) (st : AppState) (t : Uuid) (req : NewSession)
    (s : SsoSession) (st' : AppState) :
  tracked now t (n_user_id req) st -> 0 < max_concurrent (n_policy req) ->
  create now id acting st t req = Ok (s, st') ->
  zlen (list_live_for_user now st' t (n_user_id req)).1 <= max_concurrent (n_policy req).
Proof. intros Ht Hm Hc. by destruct (create_live now id acting st t req s st' Ht Hm Hc). Qed.

(** a write of a session the request loaded earlier undoes a sign-out.
    [store] writes unconditionally: when a session that was still live when a
    request loaded it is revoked and the request then binds a device to it,
    the session is found again. *)
Theorem bind_device_revives `{ValkeyLaws} `{UuidDisplay} `{!Serde SsoSession}
    (now : Z) (acting : option Uuid) (st : AppState) (s : SsoSession) (device_id : Uuid)
    (pol : SessionPolicy) :
  is_live s now = true -> 0 < idle_timeout_secs pol ->
  exists s' st',
    get now (bind_device now (revoke now acting st (s_tenant_id s) (s_id s)).2 s device_id).2
      (s_tenant_id s) (s_id s) pol = (Some s', st')
    /\ s_id s' = s_id s /\ is_live s' now = true.
Proof.
  intros Hl Hp. unfold bind_device. set (s1 := mkSsoSession _ _ _ _ _ _ _ _ _ _ _ _ _ _ _).
  pose proof (vget_store_own now now (revoke now acting st (s_tenant_id s) (s_id s)).2 s1
    ltac:(lia)) as Hv.
  apply is_live_iff in Hl as [He Hi]. cbn [s_tenant_id s_id s_expires_at s_idle_expires_at s1] in Hv.
  rewrite (proj2 (Z.ltb_lt _ _)) in Hv by lia.
  unfold get. cbn [snd redis with_sessions s_tenant_id s_id s1]. rewrite Hv, from_to_json.
  assert (is_live s1 now = true) as Hl1 by (by apply is_live_iff).
  rewrite Hl1. cbn [negb]. case_match; (eexists _, _; split; [reflexivity|]); (split; [done|]);
    [|done]. apply is_live_iff. cbn [s_expires_at s_idle_expires_at slid s1]. lia.
Qed.

(** what [get] returns is live and never outlives its absolute end. The
    session found is the stored one, unexpired and not idle, with at most its
    idle window slid: the absolute end, the user and the way they signed in
    are unchanged, and a slid window ends a full idle timeout from now, or at
    the absolute end if that comes first. *)
Theorem get_sound `{ValkeyLaws} `{UuidDisplay} `{!Serde SsoSession}
    (now : Z) (st st' : AppState) (t sid : Uuid) (pol : SessionPolicy) (s : SsoSession) :
  get now st t sid pol = (Some s, st') ->
  exists s0, load_json now (sso_session t sid) (redis st) = Some s0
    /\ is_live s0 now = true
    /\ s_expires_at s = s_expires_at s0 /\ s_user_id s = s_user_id s0
    /\ s_auth_time s = s_auth_time s0 /\ s_amr s = s_amr s0
    /\ (s = s0 /\ st' = st
        \/ 60000 <= now - s_last_seen_at s0 /\ s_last_seen_at s = now
           /\ s_idle_expires_at s = Z.min (now + idle_timeout_secs pol * 1000) (s_expires_at s0)).
Proof.
  unfold get, load_json. destruct (vget now (sso_session t sid) (redis st)) as [r|]; [|done].
  cbn [mbind option_bind]. destruct (from_json r) as [s0|]; [|done].
  destruct (is_live s0 now) eqn:El; cbn [negb]; [|done].
  case_match eqn:Es; intros [= <- <-]; exists s0; repeat (split; [done|]).
  - right. split; [|done]. apply Z.leb_le in Es. unfold num_seconds in Es.
    destruct (Z.le_gt_cases 0 (now - s_last_seen_at s0)).
    + rewrite Z.quot_div_nonneg in Es by lia. Z.to_euclidean_division_equations. lia.
    + pose proof (Z.quot_opp_l (s_last_seen_at s0 - now) 1000 ltac:(lia)) as Hq.
      replace (- (s_last_seen_at s0 - now)) with (now - s_last_seen_at s0) in Hq by lia.
      pose proof (Z.quot_pos (s_last_seen_at s0 - now) 1000). lia.
  - left. done.
Qed.

(** ending a session ends what was issued in it. After [revoke], no refresh
    token of the session is usable at any time, every other refresh token is
    as it was, and the session's database copy, when there is one, is marked
    revoked. *)
Theorem revoke_ends_tokens `{Valkey} `{UuidDisplay} `{!Serde SsoSession}
    (now : Z) (acting : option Uuid) (st : AppState) (t sid : Uuid) :
  let st' := (revoke now acting st t sid).2 in
  (forall r n, r ∈ refresh_rows st' -> rt_tenant_id r = t -> rt_session_id r = Some sid ->
     is_usable r n = false)
  /\ (forall r, r ∈ refresh_rows st -> ~ (rt_tenant_id r = t /\ rt_session_id r = Some sid) ->
        r ∈ refresh_rows st')
  /\ (forall row, row ∈ session_rows st -> SessionRepo.at_row t sid row = true ->
        SessionRepo.is_revoked t sid (session_rows st') = true).
Proof.
  cbv zeta. destruct (revoke_tables now acting st t sid) as [-> ->]. split; [|split].
  - intros r n Hr Ht Hs. apply revoked_unusable. eapply revoke_where_revokes; [| exact Hr |].
    + by intros now' r'.
    + cbn beta. rewrite Ht, Z.eqb_refl. by rewrite bool_decide_eq_true_2.
  - intros r Hr Hn. apply revoke_where_keeps; [done|].
    apply andb_false_iff. destruct (Z.eqb_spec (rt_tenant_id r) t); [right|by left].
    apply bool_decide_eq_false_2. tauto.
  - intros row Hin Hat. by eapply mark_revoked_revokes.
Qed.

(** The database copy was last written in the same mirror interval as the
    session was last seen in. *)
Definition synced (pol : SessionPolicy) (s : SsoSession) (row : SessionRow) : Prop :=
  timestamp (s_last_seen_at (sr_session row)) / mirror_interval pol
  = timestamp (s_last_seen_at s) / mirror_interval pol.

Lemma synced_lag pol s row :
  synced pol s row ->
  Z.abs (s_last_seen_at s - s_last_seen_at (sr_session row)) < mirror_interval pol * 1000.
Proof.
  unfold synced, timestamp. assert (0 < mirror_interval pol) by (unfold mirror_interval; lia).
  rewrite !Z.div_div by lia. intros E.
  pose proof (Z.mod_pos_bound (s_last_seen_at s) (1000 * mirror_interval pol) ltac:(lia)).
  pose proof (Z.mod_pos_bound (s_last_seen_at (sr_session row)) (1000 * mirror_interval pol) ltac:(lia)).
  pose proof (Z.div_mod (s_last_seen_at s) (1000 * mirror_interval pol) ltac:(lia)).
  pose proof (Z.div_mod (s_last_seen_at (sr_session row)) (1000 * mirror_interval pol) ltac:(lia)).
  rewrite E in *. lia.
Qed.

(** the database copy trails by less than a mirror interval. Whenever a
    session is read, its copy stays in the mirror interval the session was
    last seen in, so the copy's last-seen time is less than one interval (at
    most fifteen minutes) behind the session's. *)
Theorem mirror_trails `{ValkeyLaws} `{UuidDisplay} `{!Serde SsoSession}
    (now : Z) (st st' : AppState) (t sid : Uuid) (pol : SessionPolicy) (s0 s : SsoSession) :
  keyed now st ->
  load_json now (sso_session t sid) (redis st) = Some s0 ->
  (forall row, row ∈ session_rows st -> SessionRepo.at_row t sid row = true -> synced pol s0 row) ->
  get now st t sid pol = (Some s, st') ->
  forall row, row ∈ session_rows st' -> SessionRepo.at_row t sid row = true ->
    synced pol s row
    /\ Z.abs (s_last_seen_at s - s_last_seen_at (sr_session row)) < mirror_interval pol * 1000.
Proof.
  intros Hk Hl Hsync Hg row Hin Hat.
  assert (synced pol s row) as Hs; [|by split; [|apply synced_lag]].
  revert Hg. unfold get, load_json in *.
  destruct (vget now (sso_session t sid) (redis st)) as [r|] eqn:Ev; [|done].
  cbn [mbind option_bind] in Hl. rewrite Hl. destruct (Hk now t sid r s0 ltac:(lia) Ev Hl) as [Et Es].
  destruct (is_live s0 now); cbn [negb]; [|done].
  case_match; [|intros [= <- <-]; by apply Hsync].
  intros [= <- <-]. revert Hin.
  assert (session_rows (store now st (slid now pol s0)) = session_rows st) as Est
    by (unfold store; by case_match).
  destruct (Z.eqb_spec (timestamp (s_last_seen_at s0) / mirror_interval pol)
              (timestamp now / mirror_interval pol)) as [Eb|Eb]; cbn [negb].
  - rewrite Est. intros Hin. unfold synced. cbn [s_last_seen_at slid]. rewrite <- Eb. by apply Hsync.
  - cbn [session_rows mirror_touch with_sessions]. rewrite Est.
    intros (row0 & Hin0 & ->)%update_elem. cbn [s_tenant_id s_id slid] in *. rewrite Et, Es in *.
    destruct (SessionRepo.at_row t sid row0) eqn:E0; [done|congruence].
Qed.

(** ** Keys of other services *)

Section foreign.
Context `{ValkeyLaws} `{UuidDisplay} `{!Serde SsoSession}.

(** A key that neither names a session nor a user's set of them. *)
Definition foreign (k : string) : Prop :=
  (forall t s, sso_session t s <> k) /\ (forall t u, user_sessions t u <> k).
(** The step leaves every such key as it was. *)
Definition frames (st st' : AppState) : Prop :=
  forall k, foreign k -> forall n, vget n k (redis st') = vget n k (redis st).

Lemma frames_refl st : frames st st.
Proof. done. Qed.
Lemma frames_trans st1 st2 st3 : frames st1 st2 -> frames st2 st3 -> frames st1 st3.
Proof. intros Ha Hb k Hk n. by rewrite (Hb k Hk), (Ha k Hk). Qed.
Lemma frames_same st st' : redis st' = redis st -> frames st st'.
Proof. intros E k _ n. by rewrite E. Qed.

Lemma frames_store now st s : frames st (store now st s).
Proof. intros k [Hs _] n. unfold store. case_match; [done|]. apply vget_set_ne, Hs. Qed.
Lemma frames_track now st s : frames st (track now st s).
Proof. intros k [_ Hu] n. apply vget_add_ne, Hu. Qed.
Lemma frames_untrack now st t u sid : frames st (untrack now st t u sid).
Proof. intros k [_ Hu] n. apply vget_srem, Hu. Qed.

Lemma frames_get now st t sid pol : frames st (get now st t sid pol).2.
Proof.
  destruct (get_cases now st t sid pol) as [->|(r & s & _ & _ & _ & E)]; [done|].
  intros k Hk n. rewrite E. by apply frames_store.
Qed.

Lemma frames_revoke now acting st t sid : frames st (revoke now acting st t sid).2.
Proof.
  intros k Hk n. unfold revoke, vgetdel. cbn [snd]. rewrite redis_revoke_for_session.
  assert (vget n k (vdel now (sso_session t sid) (redis st)) = vget n k (redis st)) as Hd by apply vget_del_ne, Hk.
  destruct (vget now (sso_session t sid) (redis st) ≫= from_json) as [s|]; cbn [fmap option_fmap option_map]; [|exact Hd].
  cbn [redis publish]. rewrite (frames_untrack _ _ _ _ _ k Hk), redis_announce. exact Hd.
Qed.

Lemma frames_list_live now st t u : frames st (list_live_for_user now st t u).2.
Proof.
  intros k [_ Hu] n. unfold list_live_for_user. case_match; [done|]. cbn [snd]. case_match; [done|]. apply vget_srem, Hu.
Qed.

Lemma frames_end_session now acting pol st t sid : frames st (end_session now acting pol st t sid).2.
Proof.
  unfold end_session. pose proof (frames_get now st t sid pol) as Hg. destruct (get now st t sid pol) as [o st1].
  eapply frames_trans; [exact Hg|]. apply frames_revoke.
Qed.

Lemma frames_end_all now acting pol st t u keep : frames st (end_sessions_for_user now acting pol st t u keep).2.
Proof.
  unfold end_sessions_for_user. pose proof (frames_list_live now st t u) as Hl.
  destruct (list_live_for_user now st t u) as [live st1]. cbn [snd] in Hl. eapply frames_trans; [exact Hl|]. clear Hl.
  generalize 0. revert st1. induction live as [|s live IH]; intros st1 n; [apply frames_refl|]. cbn [foldl].
  case_bool_decide; [apply IH|]. pose proof (frames_end_session now acting pol st1 t (s_id s)) as He.
  destruct (end_session _ _ _ _ _ _) as [e st2]. eapply frames_trans; [exact He|]. apply IH.
Qed.

Lemma frames_create now id acting st t req s st' : create now id acting st t req = Ok (s, st') -> frames st st'.
Proof.
  unfold create, make_room. intros Hc.
  assert (forall olds pol st1, frames st1 (end_sessions now acting pol t st1 olds)) as Hend.
  { intros olds pol. unfold end_sessions. induction olds as [|o olds IH]; intros st1; [apply frames_refl|]. cbn [foldl].
    eapply frames_trans; [apply frames_end_session|apply IH]. }
  pose proof (frames_list_live now st t (n_user_id req)) as Hl.
  destruct (list_live_for_user now st t (n_user_id req)) as [live st1]. cbn [snd] in Hl.
  assert (forall st2, frames st st2 -> forall s2, frames st
    (publish (track now (store now (with_sessions st2 (SessionRepo.insert s2 (session_rows st2))) s2) s2) t (ActUser (n_user_id req))
       (SessionCreated id (n_user_id req)))) as Hall.
  { intros st2 H2 s2 k Hk n. cbn [redis publish]. rewrite (frames_track _ _ _ k Hk), (frames_store _ _ _ k Hk). by apply H2. }
  destruct (0 <? max_concurrent (n_policy req)).
  - destruct (_ <? _)%nat.
    + destruct (tenant_policy st1 !! t) as [pol|]; cbn [ok_or] in Hc; [|done]. injection Hc as <- <-. apply Hall.
      eapply frames_trans; [exact Hl|apply Hend].
    + injection Hc as <- <-. by apply Hall.
  - injection Hc as <- <-. apply Hall, frames_refl.
Qed.

Lemma frames_refresh_auth now st s amr acr : frames st (refresh_auth now st s amr acr).2.
Proof. intros k Hk n. apply (frames_store now st _ k Hk). Qed.
Lemma frames_bind_organization now st s org : frames st (bind_organization now st s org).2.
Proof.
  unfold bind_organization. case_bool_decide; [apply frames_refl|]. intros k Hk n. apply (frames_store now st _ k Hk).
Qed.
Lemma frames_bind_device now st s d : frames st (bind_device now st s d).2.
Proof. intros k Hk n. apply (frames_store now st _ k Hk). Qed.
End foreign.

(** ** Witnesses: a deployment with one user *)

Definition ex_valkey : Valkey := map_valkey (R := SsoSession).
Definition ex_serde : @Serde ex_valkey SsoSession :=
  {| to_json s := s : @raw ex_valkey; from_json r := Some r; from_to_json _ := eq_refl |}.
Definition ex_policy : SessionPolicy := mkSessionPolicy 1800 43200 1.
Definition ex_state : @AppState ex_valkey := mkAppState ex_valkey (∅ : gmap string _) [] [] {[ 1 := ex_policy ]} [].
Definition ex_login : NewSession := mkNewSession 5 ["pwd"%string] None None None None ex_policy.
(** Two sign-ins of user 5 of tenant 1: session 10, then session 11. *)
Definition ex_create (now : Z) (id : Uuid) (st : @AppState ex_valkey) : @AppState ex_valkey :=
  match @create ex_valkey toy_uuid ex_serde now id None st 1 ex_login with
  | Ok (_, st') => st'
  | Err _ => st
  end.
Definition ex_one : @AppState ex_valkey := ex_create 0 10 ex_state.

Lemma ex_empty_get now k : @vget ex_valkey now k (redis ex_state) = None.
Proof. done. Qed.

Lemma ex_keyed : @keyed ex_valkey toy_uuid ex_serde 0 ex_state.
Proof. intros n t sid r s _ Hv. by rewrite ex_empty_get in Hv. Qed.

Lemma ex_tracked : @tracked ex_valkey toy_uuid ex_serde 0 1 5 ex_state.
Proof.
  split; [exact ex_keyed|]. split; [apply ex_empty_get|].
  intros m Hm. change (m ∈ @nil string) in Hm. by apply not_elem_of_nil in Hm.
Qed.

(** A sign-in that succeeds leads to [ex_create]'s state. *)
Lemma ex_create_eq now id st :
  is_ok (@create ex_valkey toy_uuid ex_serde now id None st 1 ex_login) = true ->
  exists s, @create ex_valkey toy_uuid ex_serde now id None st 1 ex_login = Ok (s, ex_create now id st).
Proof. unfold ex_create. destruct (create _ _ _ _ _ _) as [[s st']|]; [eauto|done]. Qed.

Lemma ex_tracked_one : @tracked ex_valkey toy_uuid ex_serde 0 1 5 ex_one.
Proof.
  destruct (ex_create_eq 0 10 ex_state) as [s Hs]; [vm_compute; reflexivity|].
  eapply (@create_live ex_valkey map_valkey_laws toy_uuid ex_serde 0 10 None ex_state 1 ex_login);
    [exact ex_tracked|done|exact Hs].
Qed.

Lemma create_cap_witness :
  zlen (@list_live_for_user ex_valkey toy_uuid ex_serde 0 (ex_create 0 11 ex_one) 1 5).1 <= 1.
Proof.
  destruct (ex_create_eq 0 11 ex_one) as [s Hs]; [vm_compute; reflexivity|].
  eapply (@create_cap ex_valkey map_valkey_laws toy_uuid ex_serde 0 11 None ex_one 1 ex_login).
  - exact ex_tracked_one.
  - reflexivity.
  - exact Hs.
Defined.

Lemma revoked_never_live_witness :
  @get ex_valkey toy_uuid ex_serde 5000
    (@revoke ex_valkey toy_uuid ex_serde 0 None ex_one 1 10).2 1 10 ex_policy
  = (None, (@revoke ex_valkey toy_uuid ex_serde 0 None ex_one 1 10).2).
Proof.
  apply (@revoked_never_live ex_valkey map_valkey_laws toy_uuid ex_serde 1 10 0 None ex_one).
  - exact (proj1 ex_tracked_one).
  - eapply rtc_l; [|apply rtc_refl]. apply S_time. lia.
Defined.

(** Session 10 as signed in, and as read 500 seconds later. *)
Definition ex_session : SsoSession :=
  mkSsoSession 10 1 5 0 ["pwd"%string] None None None None None None 0 0 43200000 1800000.

Lemma bind_device_revives_witness :
  exists s' st',
    @get ex_valkey toy_uuid ex_serde 5000
      (@bind_device ex_valkey toy_uuid ex_serde 5000
         (@revoke ex_valkey toy_uuid ex_serde 5000 None ex_one 1 10).2 ex_session 77).2
      1 10 ex_policy = (Some s', st')
    /\ s_id s' = 10 /\ is_live s' 5000 = true.
Proof.
  apply (@bind_device_revives ex_valkey map_valkey_laws toy_uuid ex_serde 5000 None ex_one
    ex_session 77 ex_policy); reflexivity.
Defined.

(** The read of it 500 seconds after the sign-in. *)
Lemma ex_read :
  @get ex_valkey toy_uuid ex_serde 500000 ex_one 1 10 ex_policy
  = (Some (slid 500000 ex_policy ex_session),
     (@get ex_valkey toy_uuid ex_serde 500000 ex_one 1 10 ex_policy).2).
Proof.
  assert ((@get ex_valkey toy_uuid ex_serde 500000 ex_one 1 10 ex_policy).1
          = Some (slid 500000 ex_policy ex_session)) as <- by (vm_compute; reflexivity).
  by destruct (get _ _ _ _ _).
Qed.

Lemma get_sound_witness :
  exists s0, @load_json ex_valkey SsoSession ex_serde 500000 (@sso_session toy_uuid 1 10) (redis ex_one)
             = Some s0
    /\ is_live s0 500000 = true
    /\ 43200000 = s_expires_at s0 /\ 5 = s_user_id s0
    /\ 0 = s_auth_time s0 /\ ["pwd"%string] = s_amr s0
    /\ (slid 500000 ex_policy ex_session = s0
        /\ (@get ex_valkey toy_uuid ex_serde 500000 ex_one 1 10 ex_policy).2 = ex_one
        \/ 60000 <= 500000 - s_last_seen_at s0 /\ 500000 = 500000
           /\ 2300000 = Z.min (500000 + 1800 * 1000) (s_expires_at s0)).
Proof.
  apply (@get_sound ex_valkey map_valkey_laws toy_uuid ex_serde 500000 ex_one
    (@get ex_valkey toy_uuid ex_serde 500000 ex_one 1 10 ex_policy).2 1 10 ex_policy
    (slid 500000 ex_policy ex_session)).
  exact ex_read.
Defined.

Lemma mirror_trails_witness :
  Forall (fun row => Z.abs (500000 - s_last_seen_at (sr_session row)) < 450 * 1000)
    (session_rows (@get ex_valkey toy_uuid ex_serde 500000 ex_one 1 10 ex_policy).2).
Proof.
  apply Forall_forall. intros row Hin.
  refine (proj2 (@mirror_trails ex_valkey map_valkey_laws toy_uuid ex_serde 500000 ex_one
    (@get ex_valkey toy_uuid ex_serde 500000 ex_one 1 10 ex_policy).2 1 10 ex_policy ex_session
    (slid 500000 ex_policy ex_session) _ _ _ _ row Hin _)).
  - intros n t sid r s Hn. apply (proj1 ex_tracked_one). lia.
  - vm_compute. reflexivity.
  - intros row0 Hin0 _. revert row0 Hin0. apply Forall_forall. vm_compute.
    repeat constructor.
  - exact ex_read.
  - revert row Hin. apply Forall_forall. vm_compute. repeat constructor.
Defined.
