(* ===== verification/RefreshTokens.v ===== *)
(** * Refresh tokens with rotation and reuse detection

    Models [api/src/services/refresh_tokens.rs]: the client gets [rt_] and
    random text, only its SHA-256 is stored; redeeming a token consumes it
    and issues the next of its family, and redeeming a consumed token revokes
    the family. Each operation is one transaction on the primary, with the
    token's row locked. *)

From stdpp Require Import gmap strings sorting.
From S2P Require Import Prelude Valkey AppState Sessions.

Definition RT_PREFIX : string := "rt_".

Record IssueRequest := mkIssueRequest {
  ir_client_id : string;
  ir_user_id : option Uuid;
  ir_session_id : option Uuid;
  ir_scopes : list string;
  ir_audiences : list string;
  ir_ttl : Z;
  ir_dpop_jkt : option string;
  ir_mtls_x5t : option string;
  ir_auth_time : option Z;
  ir_amr : list string;
  ir_acr : option string;
  ir_org_id : option Uuid;
  ir_act : option string
}.

Record RtIssued := mkRtIssued { is_token : string; is_record : RefreshToken }.

(** [tokens::SenderProof]. *)
Record SenderProof := mkSenderProof { p_jkt : option string; p_x5t : option string }.

Inductive OAuthErrorCode :=
| InvalidRequest | InvalidClient | InvalidGrant | UnauthorizedClient | UnsupportedGrantType | InvalidScope
| AccessDenied | UnsupportedResponseType | ServerError | TemporarilyUnavailable | InvalidToken | InsufficientScope
| InteractionRequired | LoginRequired | ConsentRequired | AccountSelectionRequired | InvalidRequestUri
| InvalidRequestObject | RequestNotSupported | RequestUriNotSupported | RegistrationNotSupported
| AuthorizationPending | SlowDown | ExpiredToken | InvalidRedirectUri | InvalidClientMetadata | InvalidDpopProof
| UseDpopNonce | InvalidTarget | UnknownUserId | InvalidBindingMessage.
Record OAuthError := mkOAuthError { oe_code : OAuthErrorCode; oe_description : string }.

(** What one issuance draws: 32 random bytes and a fresh row id. *)
Record RtRng := mkRtRng { rr_bytes : list Z; rr_id : Uuid }.

Section refresh.
Context `{Valkey} `{UuidDisplay} `{!Serde SsoSession}.

(** SHA-256 and base64url without padding. *)
Context (sha256 : string -> list Z) (b64 : list Z -> string).

Definition hash (token : string) : list Z := sha256 token.

Definition random_token (bytes : list Z) : string := (RT_PREFIX ++ b64 bytes)%string.

(** [insert_in]: [None] when a unique constraint refuses the row. *)
Definition insert_in (now : Z) (rng : RtRng) (rows : list RefreshToken) (tenant_id family_id : Uuid)
    (req : IssueRequest) (expires_at : Z) : option (RtIssued * list RefreshToken) :=
  let token := random_token (rr_bytes rng) in
  let row :=
    mkRefreshToken (rr_id rng) tenant_id family_id (ir_client_id req) (ir_user_id req)
      (ir_session_id req) (hash token) (ir_scopes req) (ir_audiences req) (ir_auth_time req)
      (ir_amr req) (ir_acr req) (ir_org_id req) (ir_act req) expires_at (ir_dpop_jkt req)
      (ir_mtls_x5t req) None None now in
  '(record, rows) ← RefreshRepo.insert now row rows;
  Some (mkRtIssued token record, rows).

(** [issue]: start a new family. *)
Definition issue (now : Z) (rng : RtRng) (family_id : Uuid) (st : AppState) (tenant_id : Uuid)
    (req : IssueRequest) : result AppError (RtIssued * AppState) :=
  match insert_in now rng (refresh_rows st) tenant_id family_id req (now + ir_ttl req) with
  | Some (issued, rows) => Ok (issued, with_refresh st rows)
  | None => Err Conflict
  end.

(** The checks of [redeem] on an unconsumed token, in order; [None] when it
    passes them. *)
Definition check_current (now : Z) (proof : SenderProof) (resources : list string)
    (scopes : option (list string)) (current : RefreshToken) : option OAuthError :=
  if bool_decide (is_Some (rt_revoked_at current))
  then Some (mkOAuthError InvalidGrant "refresh token revoked")
  else if rt_expires_at current <=? now
  then Some (mkOAuthError InvalidGrant "refresh token expired")
  else if match rt_dpop_jkt current with
          | Some bound => negb (bool_decide (p_jkt proof = Some bound)) | None => false end
  then Some (mkOAuthError InvalidGrant "refresh token is bound to another DPoP key")
  else if match rt_mtls_x5t current with
          | Some bound => negb (bool_decide (p_x5t proof = Some bound)) | None => false end
  then Some (mkOAuthError InvalidGrant "refresh token is bound to another client certificate")
  else match List.find (fun r => negb (bool_decide (r ∈ rt_audiences current))) resources with
  | Some extra =>
      Some (mkOAuthError InvalidTarget
              ("resource `" ++ extra ++ "` was not part of the original grant"))
  | None =>
      match List.find (fun s => negb (bool_decide (s ∈ rt_scopes current))) (default [] scopes) with
      | Some extra => Some (mkOAuthError InvalidScope ("scope `" ++ extra ++ "` was not granted"))
      | None => None
      end
  end.

(** Did the sign-in the token belongs to end? An [offline_access] token only
    ends with a sign-out; another needs its session live, and touches it. *)
Definition session_ended (now : Z) (st : AppState) (tenant_id : Uuid) (current : RefreshToken)
    : bool * AppState :=
  match rt_session_id current with
  | None => (false, st)
  | Some sid =>
      if is_offline current then (SessionRepo.is_revoked tenant_id sid (session_rows st), st)
      else
        let policy := default default_policy (tenant_policy st !! tenant_id) in
        let '(s, st) := get now st tenant_id sid policy in
        (bool_decide (s = None), st)
  end.

(** The request [redeem] builds for the next token of the family. *)
Definition next_request (client_id : string) (current : RefreshToken) : IssueRequest :=
  mkIssueRequest client_id (rt_user_id current) (rt_session_id current) (rt_scopes current)
    (rt_audiences current) 0 (rt_dpop_jkt current) (rt_mtls_x5t current) (rt_auth_time current)
    (rt_amr current) (rt_acr current) (rt_org_id current) (rt_act current).

Definition redeem (now : Z) (rng : RtRng) (st : AppState) (tenant_id : Uuid) (client_id presented : string)
    (proof : SenderProof) (resources : list string) (scopes : option (list string))
    (rotate : bool) : result OAuthError RtIssued * AppState :=
  if negb (String.prefix RT_PREFIX presented) || (256 <? Z.of_nat (String.length presented))
  then (Err (mkOAuthError InvalidGrant "invalid refresh token"), st)
  else
  match RefreshRepo.find_by_hash tenant_id (hash presented) (refresh_rows st) with
  | None => (Err (mkOAuthError InvalidGrant "invalid refresh token"), st)
  | Some current =>
      let revoke_family st :=
        with_refresh st
          (RefreshRepo.revoke_family now tenant_id (rt_family_id current) (refresh_rows st)).1 in
      if negb (bool_decide (rt_client_id current = client_id))
      then (Err (mkOAuthError InvalidGrant "refresh token was not issued to this client"), st)
      else if bool_decide (is_Some (rt_consumed_at current)) then
        (Err (mkOAuthError InvalidGrant "refresh token reuse detected"),
         publish (revoke_family st) tenant_id (ActClient 0)
           (RefreshTokenReuseDetected (rt_family_id current) client_id (rt_user_id current)))
      else
      match check_current now proof resources scopes current with
      | Some e => (Err e, st)
      | None =>
          let '(ended, st) := session_ended now st tenant_id current in
          if ended then
            (Err (mkOAuthError InvalidGrant "the session this token was issued in has ended"),
             revoke_family st)
          else if negb rotate then (Ok (mkRtIssued presented current), st)
          else
            let rows := RefreshRepo.mark_consumed now tenant_id (rt_id current) (refresh_rows st) in
            match insert_in now rng rows tenant_id (rt_family_id current)
                    (next_request client_id current) (rt_expires_at current) with
            | Some (issued, rows) => (Ok issued, with_refresh st rows)
            | None => (Err (mkOAuthError InvalidRequest "already exists"), st)
            end
      end
  end.

Definition rotate (now : Z) (rng : RtRng) (st : AppState) (tenant_id : Uuid)
    (client_id presented : string) (proof : SenderProof) (resources : list string)
    (scopes : option (list string)) : result OAuthError RtIssued * AppState :=
  redeem now rng st tenant_id client_id presented proof resources scopes true.

(** [revoke]: a token and its family, by its secret. *)
Definition revoke_token (now : Z) (st : AppState) (tenant_id : Uuid) (client_id presented : string)
    : AppState :=
  match RefreshRepo.find_by_hash tenant_id (hash presented) (refresh_rows st) with
  | Some t =>
      if bool_decide (rt_client_id t = client_id)
      then with_refresh st
             (RefreshRepo.revoke_family now tenant_id (rt_family_id t) (refresh_rows st)).1
      else st
  | None => st
  end.

Definition revoke_for_user (now : Z) (st : AppState) (tenant_id : Uuid) (actor : Actor)
    (user_id : Uuid) (client_id : option string) : Z * AppState :=
  let '(rows, count) :=
    RefreshRepo.revoke_for_user now tenant_id user_id client_id (refresh_rows st) in
  let st := with_refresh st rows in
  (count, if 0 <? count
          then publish st tenant_id actor (TokensRevoked (Some user_id) None count) else st).

Definition find (st : AppState) (tenant_id : Uuid) (presented : string) : option RefreshToken :=
  RefreshRepo.find_by_hash tenant_id (hash presented) (refresh_rows st).

Definition list_live (now : Z) (st : AppState) (tenant_id user_id : Uuid) : list RefreshToken :=
  RefreshRepo.list_live_for_user now tenant_id user_id (refresh_rows st).
End refresh.

(** ** Lemmas *)

(** A row as it was, or the same row revoked. *)
Definition row_le (r r' : RefreshToken) : Prop :=
  r' = r \/ (rt_revoked_at r = None /\ exists n, r' = RefreshRepo.set_revoked n r).
Definition rows_le : list RefreshToken -> list RefreshToken -> Prop := Forall2 row_le.

#[export] Instance row_le_preorder : PreOrder row_le.
Proof.
  split; [by left|]. intros r1 r2 r3 [->|(Hn & n & ->)]; [done|].
  intros [->|(Hn' & _)]; [by right; eauto|done].
Qed.

#[export] Instance rows_le_preorder : PreOrder rows_le := _.

Lemma revoke_where_le now p rows : rows_le rows (RefreshRepo.revoke_where now p rows).1.
Proof.
  unfold RefreshRepo.revoke_where, update. cbn [fst]. apply Forall2_fmap_r, Forall_Forall2_diag.
  apply Forall_forall. intros r _. unfold compose.
  destruct (p r && bool_decide (rt_revoked_at r = None)) eqn:E; [|by left].
  bool_hyps. right. eauto.
Qed.

Lemma rows_le_elem rows rows' r' :
  rows_le rows rows' -> r' ∈ rows' -> exists r, r ∈ rows /\ row_le r r'.
Proof.
  intros Hle Hin. apply list_elem_of_lookup in Hin as [i Hi].
  destruct (Forall2_lookup_r _ _ _ _ _ Hle Hi) as (r & Hr & ?).
  exists r. split; [by eapply list_elem_of_lookup_2|done].
Qed.

Lemma rows_le_elem_l rows rows' r :
  rows_le rows rows' -> r ∈ rows -> exists r', r' ∈ rows' /\ row_le r r'.
Proof.
  intros Hle Hin. apply list_elem_of_lookup in Hin as [i Hi].
  destruct (Forall2_lookup_l _ _ _ _ _ Hle Hi) as (r' & Hr & ?).
  exists r'. split; [by eapply list_elem_of_lookup_2|done].
Qed.

Section sessions_le.
Context `{Valkey} `{UuidDisplay} `{!Serde SsoSession}.

Lemma get_refresh now st t sid pol : refresh_rows (get now st t sid pol).2 = refresh_rows st.
Proof.
  unfold get. repeat case_match; try done; cbn [refresh_rows mirror_touch with_sessions];
    unfold store; by case_match.
Qed.

Lemma revoke_le now acting st t sid : rows_le (refresh_rows st) (refresh_rows (revoke now acting st t sid).2).
Proof. destruct (revoke_tables now acting st t sid) as [-> _]. apply revoke_where_le. Qed.

Lemma end_session_le now acting pol st t sid :
  rows_le (refresh_rows st) (refresh_rows (end_session now acting pol st t sid).2).
Proof.
  unfold end_session. pose proof (get_refresh now st t sid pol) as E.
  destruct (get now st t sid pol) as [o st1]. cbn [snd] in E. rewrite <- E. apply revoke_le.
Qed.

Lemma list_live_refresh now st t u :
  refresh_rows (Sessions.list_live_for_user now st t u).2 = refresh_rows st.
Proof. unfold Sessions.list_live_for_user. repeat case_match; done. Qed.

Lemma end_sessions_le now acting pol t st olds :
  rows_le (refresh_rows st) (refresh_rows (end_sessions now acting pol t st olds)).
Proof.
  unfold end_sessions. revert st. induction olds as [|s olds IH]; intros st; [done|].
  cbn [foldl]. etrans; [apply end_session_le|apply IH].
Qed.

Lemma end_all_le now acting pol st t u keep :
  rows_le (refresh_rows st) (refresh_rows (end_sessions_for_user now acting pol st t u keep).2).
Proof.
  unfold end_sessions_for_user. rewrite <- (list_live_refresh now st t u).
  destruct (Sessions.list_live_for_user now st t u) as [live st1]. cbn [snd].
  generalize 0. revert st1. induction live as [|s live IH]; intros st1 n; [done|].
  cbn [foldl]. case_bool_decide; [apply IH|].
  pose proof (end_session_le now acting pol st1 t (s_id s)) as Hle.
  destruct (end_session now acting pol st1 t (s_id s)) as [e st2]. etrans; [exact Hle|apply IH].
Qed.

Lemma store_refresh now st s : refresh_rows (store now st s) = refresh_rows st.
Proof. unfold store. by case_match. Qed.

Lemma create_le now id acting st t req s st' :
  create now id acting st t req = Ok (s, st') -> rows_le (refresh_rows st) (refresh_rows st').
Proof.
  unfold create. intros Hc.
  destruct (if 0 <? _ then _ else _) as [st1|] eqn:E; [|done]. inv_result.
  cbn [refresh_rows publish track with_redis]. rewrite store_refresh. cbn [refresh_rows with_sessions].
  case_match; [|by inv_result]. unfold make_room in E.
  rewrite <- (list_live_refresh now st t (n_user_id req)).
  destruct (Sessions.list_live_for_user now st t (n_user_id req)) as [live st2]. cbn [snd].
  case_match; [|by inv_result].
  destruct (tenant_policy st2 !! t) as [p|]; cbn [ok_or] in E; [|done]. inv_result.
  apply end_sessions_le.
Qed.

(** A session operation only ever revokes refresh tokens. *)
Lemma session_step_le t sid a b : step t sid a b -> rows_le (refresh_rows a.2) (refresh_rows b.2).
Proof.
  destruct 1; cbn [snd]; [done|by rewrite get_refresh|apply revoke_le|apply end_session_le
    |apply end_all_le|by rewrite list_live_refresh|by eapply create_le|..];
    unfold create_impersonated, refresh_auth, bind_organization, bind_device, mirror_touch; repeat case_match;
    cbn [snd refresh_rows track with_redis with_sessions]; by rewrite ?store_refresh.
Qed.
End sessions_le.

(** *** Families *)

Definition in_family (t f : Uuid) (r : RefreshToken) : Prop := rt_tenant_id r = t /\ rt_family_id r = f.
Definition unspent (r : RefreshToken) : Prop := rt_consumed_at r = None /\ rt_revoked_at r = None.

(** A family has at most one unspent token. *)
Definition one_live (rows : list RefreshToken) : Prop :=
  forall t f r1 r2, r1 ∈ rows -> r2 ∈ rows -> in_family t f r1 -> in_family t f r2 ->
    unspent r1 -> unspent r2 -> r1 = r2.

(** A family exists, and every token of it is revoked. *)
Definition family_dead (t f : Uuid) (rows : list RefreshToken) : Prop :=
  (exists r, r ∈ rows /\ in_family t f r)
  /\ forall r, r ∈ rows -> in_family t f r -> is_Some (rt_revoked_at r).

(** The next token of a family. *)
Definition successor (now : Z) (id : Uuid) (token_hash : list Z) (r : RefreshToken) : RefreshToken :=
  mkRefreshToken id (rt_tenant_id r) (rt_family_id r) (rt_client_id r) (rt_user_id r)
    (rt_session_id r) token_hash (rt_scopes r) (rt_audiences r) (rt_auth_time r)
    (rt_amr r) (rt_acr r) (rt_org_id r) (rt_act r) (rt_expires_at r) (rt_dpop_jkt r)
    (rt_mtls_x5t r) None None now.

Lemma row_le_family t f r r' : row_le r r' -> in_family t f r' <-> in_family t f r.
Proof. by intros [->|(_ & n & ->)]. Qed.

Lemma row_le_unspent r r' : row_le r r' -> unspent r' -> r' = r.
Proof. intros [->|(_ & n & ->)]; [done|]. by intros [_ ?]. Qed.

Lemma one_live_le rows rows' : rows_le rows rows' -> one_live rows -> one_live rows'.
Proof.
  intros Hle H1 t f r1' r2' Hin1 Hin2 Hf1 Hf2 Hu1 Hu2.
  destruct (rows_le_elem _ _ _ Hle Hin1) as (r1 & Hr1 & Hle1).
  destruct (rows_le_elem _ _ _ Hle Hin2) as (r2 & Hr2 & Hle2).
  apply row_le_unspent in Hle1 as ->; [|done]. apply row_le_unspent in Hle2 as ->; [|done].
  by apply (H1 t f).
Qed.

Lemma family_dead_le t f rows rows' : rows_le rows rows' -> family_dead t f rows -> family_dead t f rows'.
Proof.
  intros Hle [(r & Hr & Hf) Hd]. split.
  - destruct (rows_le_elem_l _ _ _ Hle Hr) as (r' & Hr' & Hle').
    exists r'. split; [done|]. by rewrite (row_le_family t f r r' Hle').
  - intros r' Hr' Hf'. destruct (rows_le_elem _ _ _ Hle Hr') as (r0 & Hr0 & Hle0).
    rewrite (row_le_family t f r0 r' Hle0) in Hf'. specialize (Hd r0 Hr0 Hf').
    destruct Hle0 as [->|(Hn & _)]; [done|]. rewrite Hn in Hd. by destruct Hd.
Qed.

Lemma revoke_family_dead now t f rows r :
  r ∈ rows -> in_family t f r -> family_dead t f (RefreshRepo.revoke_family now t f rows).1.
Proof.
  intros Hr Hf. split.
  - assert (rows_le rows (RefreshRepo.revoke_family now t f rows).1) as Hall by apply revoke_where_le.
    destruct (rows_le_elem_l _ _ _ Hall Hr) as (r' & Hr' & Hle).
    exists r'. split; [exact Hr'|]. by rewrite (row_le_family t f r r' Hle).
  - intros r' Hr' [Ht Hf']. eapply revoke_where_revokes; [|exact Hr'|].
    + by intros n x.
    + cbn beta. by rewrite Ht, Hf', !Z.eqb_refl.
Qed.

Lemma find_by_hash_spec t h rows r :
  RefreshRepo.find_by_hash t h rows = Some r ->
  r ∈ rows /\ rt_tenant_id r = t /\ rt_token_hash r = h.
Proof.
  intros [Hin Hp]%find_some. apply list_elem_of_In in Hin. bool_hyps. done.
Qed.

Lemma mark_consumed_elem now t id rows r' :
  r' ∈ RefreshRepo.mark_consumed now t id rows <->
  exists r, r ∈ rows /\ r' = if (rt_tenant_id r =? t) && (rt_id r =? id)
                             then RefreshRepo.set_consumed now r else r.
Proof. apply update_elem. Qed.

Lemma mark_consumed_unspent now t id rows r' :
  r' ∈ RefreshRepo.mark_consumed now t id rows -> unspent r' ->
  r' ∈ rows /\ ~ (rt_tenant_id r' = t /\ rt_id r' = id).
Proof.
  intros (r & Hr & ->)%mark_consumed_elem.
  destruct ((rt_tenant_id r =? t) && (rt_id r =? id)) eqn:E; [by intros [? _]|].
  intros _. split; [done|]. intros [<- <-]. by rewrite !Z.eqb_refl in E.
Qed.

(** Rotation keeps one unspent token per family. *)
Lemma one_live_rotate now t cur new rows :
  one_live rows -> cur ∈ rows -> rt_tenant_id cur = t -> unspent cur ->
  in_family t (rt_family_id cur) new ->
  one_live (RefreshRepo.mark_consumed now t (rt_id cur) rows ++ [new]).
Proof.
  intros H1 Hcur Ht Hu Hnew.
  assert (forall r, r ∈ RefreshRepo.mark_consumed now t (rt_id cur) rows ->
    in_family t (rt_family_id cur) r -> unspent r -> False) as Hnone.
  { intros r Hr Hf Hur. apply mark_consumed_unspent in Hr as [Hr Hne]; [|done].
    rewrite (H1 t (rt_family_id cur) r cur) in Hne; try done. by apply Hne. }
  intros t' f r1 r2 [Hr1|Hr1]%elem_of_app [Hr2|Hr2]%elem_of_app Hf1 Hf2 Hu1 Hu2.
  - apply mark_consumed_unspent in Hr1 as [Hr1 _]; [|done].
    apply mark_consumed_unspent in Hr2 as [Hr2 _]; [|done]. by eapply (H1 t' f).
  - apply list_elem_of_singleton in Hr2 as ->. destruct (Hnone r1 Hr1); [|done].
    destruct Hf1, Hf2, Hnew. split; congruence.
  - apply list_elem_of_singleton in Hr1 as ->. destruct (Hnone r2 Hr2); [|done].
    destruct Hf1, Hf2, Hnew. split; congruence.
  - apply list_elem_of_singleton in Hr1 as ->. by apply list_elem_of_singleton in Hr2 as ->.
Qed.

Lemma family_dead_rotate now t f cur new rows :
  family_dead t f rows -> cur ∈ rows -> unspent cur ->
  in_family (rt_tenant_id cur) (rt_family_id cur) new ->
  family_dead t f (RefreshRepo.mark_consumed now (rt_tenant_id cur) (rt_id cur) rows ++ [new]).
Proof.
  intros [(r & Hr & Hf) Hd] Hcur [_ Hrv] [Ht Hfm]. split.
  - eexists. split; [apply elem_of_app; left; apply mark_consumed_elem; by exists r|].
    by case_match.
  - intros r' [(r0 & Hr0 & ->)%mark_consumed_elem|Hr']%elem_of_app Hf'.
    + assert (in_family t f r0) as Hf0 by (by case_match). specialize (Hd r0 Hr0 Hf0). by case_match.
    + apply list_elem_of_singleton in Hr' as ->. destruct Hf' as [Ht' Hf''].
      assert (in_family t f cur) as Hc by (split; congruence).
      specialize (Hd cur Hcur Hc). rewrite Hrv in Hd. by destruct Hd.
Qed.

Section redeem_lemmas.
Context `{Valkey} `{UuidDisplay} `{!Serde SsoSession}.
Context (sha256 : string -> list Z) (b64 : list Z -> string).

Lemma insert_in_spec now rng rows t f req exp issued rows' :
  insert_in sha256 b64 now rng rows t f req exp = Some (issued, rows') ->
  is_token issued = random_token b64 (rr_bytes rng)
  /\ is_record issued
     = mkRefreshToken (rr_id rng) t f (ir_client_id req) (ir_user_id req) (ir_session_id req)
         (sha256 (is_token issued)) (ir_scopes req) (ir_audiences req) (ir_auth_time req)
         (ir_amr req) (ir_acr req) (ir_org_id req) (ir_act req) exp (ir_dpop_jkt req)
         (ir_mtls_x5t req) None None now
  /\ rows' = rows ++ [is_record issued]
  /\ (forall r, r ∈ rows -> rt_id r <> rr_id rng
        /\ ~ (rt_tenant_id r = t /\ rt_token_hash r = sha256 (is_token issued))).
Proof.
  unfold insert_in, RefreshRepo.insert. cbn [rt_id rt_tenant_id rt_token_hash].
  destruct (existsb _ rows) eqn:Ex; [done|]. cbn. intros [= <- <-]. repeat split; try done.
  - intros Hid. apply not_true_iff_false in Ex. apply Ex, existsb_exists. exists r.
    split; [by apply list_elem_of_In|]. by rewrite Hid, Z.eqb_refl.
  - intros [Ht Hh]. apply not_true_iff_false in Ex. apply Ex, existsb_exists. exists r.
    split; [by apply list_elem_of_In|]. unfold hash. cbn [is_token] in Hh.
    rewrite Ht, Z.eqb_refl, bool_decide_eq_true_2 by done. by rewrite orb_true_r.
Qed.

Lemma session_ended_refresh now st t cur :
  refresh_rows (session_ended now st t cur).2 = refresh_rows st.
Proof.
  unfold session_ended. destruct (rt_session_id cur) as [sid|]; [|done].
  destruct (is_offline cur); [done|].
  pose proof (get_refresh now st t sid (default default_policy (tenant_policy st !! t))) as E.
  by destruct (get now st t sid _).
Qed.

(** What a token passed when [redeem] went on to its session. *)
Record passes (now : Z) (client_id : string) (proof : SenderProof) (resources : list string)
    (scopes : option (list string)) (cur : RefreshToken) : Prop := {
  pa_client : rt_client_id cur = client_id;
  pa_unspent : unspent cur;
  pa_expiry : now < rt_expires_at cur;
  pa_dpop : forall k, rt_dpop_jkt cur = Some k -> p_jkt proof = Some k;
  pa_mtls : forall k, rt_mtls_x5t cur = Some k -> p_x5t proof = Some k;
  pa_resources : forall r, r ∈ resources -> r ∈ rt_audiences cur;
  pa_scopes : forall l s, scopes = Some l -> s ∈ l -> s ∈ rt_scopes cur
}.

Lemma find_none_elem {A} (p : A -> bool) (l : list A) x :
  List.find p l = None -> x ∈ l -> p x = false.
Proof. intros Hf Hx. apply (find_none _ _ Hf). by apply list_elem_of_In. Qed.

Lemma check_current_passes now proof resources scopes cur :
  check_current now proof resources scopes cur = None -> rt_consumed_at cur = None ->
  passes now (rt_client_id cur) proof resources scopes cur.
Proof.
  unfold check_current. intros Hc Hn.
  repeat match goal with
    | Hc : (if ?b then _ else _) = None |- _ => destruct b eqn:?; [discriminate Hc|]
    | Hc : match List.find ?p ?l with Some _ => _ | None => _ end = None |- _ =>
        destruct (List.find p l) eqn:?; [discriminate Hc|]
    end.
  bool_hyps. split.
  - done.
  - split; [done|]. by apply eq_None_not_Some.
  - lia.
  - intros k E. rewrite E in *. by bool_hyps.
  - intros k E. rewrite E in *. by bool_hyps.
  - intros r Hr. match goal with Hf : List.find _ resources = None |- _ =>
      apply (find_none_elem _ _ _ Hf) in Hr end. by bool_hyps.
  - intros l s -> Hs. match goal with Hf : List.find _ (default [] _) = None |- _ =>
      apply (find_none_elem _ _ s Hf) in Hs end. by bool_hyps.
Qed.
End redeem_lemmas.

(** ** The contract of a redemption *)

Section contract.
Context `{Valkey} `{UuidDisplay} `{!Serde SsoSession}.
Context (sha256 : string -> list Z) (b64 : list Z -> string).

(** What redeeming may answer, and what it does to the table of tokens:
    refuse and leave it alone, revoke the family on a reuse or when the
    sign-in ended, hand the token back, or consume it and add its successor. *)
Inductive redeemed (now : Z) (rng : RtRng) (st : AppState) (t : Uuid) (client_id presented : string)
    (proof : SenderProof) (resources : list string) (scopes : option (list string))
    : bool -> result OAuthError RtIssued -> list RefreshToken -> Prop :=
| O_refused rot e : redeemed now rng st t client_id presented proof resources scopes rot
    (Err e) (refresh_rows st)
| O_reuse rot e cur :
    RefreshRepo.find_by_hash t (sha256 presented) (refresh_rows st) = Some cur ->
    rt_client_id cur = client_id -> is_Some (rt_consumed_at cur) -> oe_code e = InvalidGrant ->
    redeemed now rng st t client_id presented proof resources scopes rot
      (Err e) (RefreshRepo.revoke_family now t (rt_family_id cur) (refresh_rows st)).1
| O_ended rot e cur :
    RefreshRepo.find_by_hash t (sha256 presented) (refresh_rows st) = Some cur ->
    passes now client_id proof resources scopes cur ->
    (session_ended now st t cur).1 = true -> oe_code e = InvalidGrant ->
    redeemed now rng st t client_id presented proof resources scopes rot
      (Err e) (RefreshRepo.revoke_family now t (rt_family_id cur) (refresh_rows st)).1
| O_kept cur :
    RefreshRepo.find_by_hash t (sha256 presented) (refresh_rows st) = Some cur ->
    passes now client_id proof resources scopes cur ->
    (session_ended now st t cur).1 = false ->
    redeemed now rng st t client_id presented proof resources scopes false
      (Ok (mkRtIssued presented cur)) (refresh_rows st)
| O_rotated cur token :
    RefreshRepo.find_by_hash t (sha256 presented) (refresh_rows st) = Some cur ->
    passes now client_id proof resources scopes cur ->
    (session_ended now st t cur).1 = false ->
    token = random_token b64 (rr_bytes rng) ->
    (forall r, r ∈ refresh_rows st -> rt_id r <> rr_id rng
       /\ ~ (rt_tenant_id r = t /\ rt_token_hash r = sha256 token)) ->
    redeemed now rng st t client_id presented proof resources scopes true
      (Ok (mkRtIssued token (successor now (rr_id rng) (sha256 token) cur)))
      (RefreshRepo.mark_consumed now t (rt_id cur) (refresh_rows st)
       ++ [successor now (rr_id rng) (sha256 token) cur]).

Lemma redeem_redeemed now rng st t client_id presented proof resources scopes rot :
  let o := redeem sha256 b64 now rng st t client_id presented proof resources scopes rot in
  redeemed now rng st t client_id presented proof resources scopes rot o.1 (refresh_rows o.2).
Proof.
  cbv zeta. unfold redeem.
  destruct (negb (String.prefix RT_PREFIX presented) || _); [apply O_refused|].
  unfold hash. destruct (RefreshRepo.find_by_hash _ _ _) as [cur|] eqn:Ef; [|apply O_refused].
  destruct (bool_decide (rt_client_id cur = client_id)) eqn:Ecl; cbn [negb]; [|apply O_refused].
  destruct (bool_decide (is_Some (rt_consumed_at cur))) eqn:Eco.
  { bool_hyps. by eapply O_reuse. }
  destruct (check_current now proof resources scopes cur) as [e|] eqn:Ec; [apply O_refused|].
  bool_hyps. assert (rt_consumed_at cur = None) as Hn by (by apply eq_None_not_Some).
  pose proof (check_current_passes now proof resources scopes cur Ec Hn) as Hp.
  pose proof (session_ended_refresh now st t cur) as Er.
  destruct (session_ended now st t cur) as [ended st1] eqn:Es. cbn [snd] in Er.
  replace ended with (session_ended now st t cur).1 by (by rewrite Es).
  destruct (session_ended now st t cur).1 eqn:Ee.
  { cbn [fst snd refresh_rows with_refresh]. rewrite Er. subst. by eapply O_ended. }
  destruct rot; cbn [negb]; cycle 1.
  { cbn [fst snd]. rewrite Er. subst. by eapply O_kept. }
  rewrite Er. destruct (insert_in _ _ _ _ _ _ _ _ _) as [[issued rows]|] eqn:Ei; cbn [fst snd];
    [|rewrite Er; apply O_refused].
  apply insert_in_spec in Ei as (Et & Erec & -> & Hfresh). cbn [refresh_rows with_refresh].
  destruct (find_by_hash_spec _ _ _ _ Ef) as (Hin & Htn & _).
  assert (issued = mkRtIssued (is_token issued)
            (successor now (rr_id rng) (sha256 (is_token issued)) cur)) as ->.
  { destruct issued as [tok rec]. cbn in *. subst. done. }
  cbn [is_token is_record] in *. subst. eapply O_rotated; try done.
  intros r Hr. destruct (Hfresh (if (rt_tenant_id r =? rt_tenant_id cur) && (rt_id r =? rt_id cur)
    then RefreshRepo.set_consumed now r else r)) as [Hid Hh];
    [apply mark_consumed_elem; by exists r|]. by case_match.
Qed.
End contract.

(** ** Histories *)

(** One operation of the token or session services, or time passing; a new
    family's id is fresh in its tenant. *)
Inductive rstep `{Valkey} `{UuidDisplay} `{!Serde SsoSession}
    (sha256 : string -> list Z) (b64 : list Z -> string) : Z * AppState -> Z * AppState -> Prop :=
| R_session t sid a b : step t sid a b -> rstep sha256 b64 a b
| R_issue now rng fam st t req issued st' :
    (forall r, r ∈ refresh_rows st -> ~ in_family t fam r) ->
    issue sha256 b64 now rng fam st t req = Ok (issued, st') ->
    rstep sha256 b64 (now, st) (now, st')
| R_redeem now rng st t client_id presented proof resources scopes rot :
    rstep sha256 b64 (now, st)
      (now, (redeem sha256 b64 now rng st t client_id presented proof resources scopes rot).2)
| R_revoke now st t client_id presented :
    rstep sha256 b64 (now, st) (now, revoke_token sha256 now st t client_id presented)
| R_revoke_user now st t actor user client :
    rstep sha256 b64 (now, st) (now, (revoke_for_user now st t actor user client).2).

Section histories.
Context `{Valkey} `{UuidDisplay} `{!Serde SsoSession}.
Context (sha256 : string -> list Z) (b64 : list Z -> string).

(** How a step changes the table of tokens. *)
Lemma rstep_cases a b :
  rstep sha256 b64 a b ->
  rows_le (refresh_rows a.2) (refresh_rows b.2)
  \/ (exists t fam new, (forall r, r ∈ refresh_rows a.2 -> ~ in_family t fam r)
        /\ in_family t fam new /\ refresh_rows b.2 = refresh_rows a.2 ++ [new])
  \/ (exists now cur new, cur ∈ refresh_rows a.2 /\ unspent cur
        /\ in_family (rt_tenant_id cur) (rt_family_id cur) new
        /\ refresh_rows b.2
           = RefreshRepo.mark_consumed now (rt_tenant_id cur) (rt_id cur) (refresh_rows a.2) ++ [new]).
Proof.
  destruct 1 as [t sid a b Hs|now rng fam st t req issued st' Hfresh Hi|now rng st t c p pr rs sc rot
    |now st t c p|now st t actor user client]; cbn [snd].
  - left. by eapply session_step_le.
  - right; left. unfold issue in Hi.
    destruct (insert_in _ _ _ _ _ _ _ _ _) as [[iss rows]|] eqn:Ei; [|done]. inv_result.
    apply insert_in_spec in Ei as (_ & Er & -> & _). exists t, fam, (is_record issued).
    split; [done|]. split; [by rewrite Er|done].
  - pose proof (redeem_redeemed sha256 b64 now rng st t c p pr rs sc rot) as Ho. cbv zeta in Ho.
    destruct (redeem _ _ _ _ _ _ _ _ _ _ _) as [res st']. cbn [fst snd] in *.
    destruct Ho as [? ?|? ? ? ? ? ? ?|? ? ? ? ? ? ?|? ? ? ?|cur tok Hf Hp Hs Ht Hfr];
      [by left|left; apply revoke_where_le|left; apply revoke_where_le|by left|].
    right; right. destruct (find_by_hash_spec _ _ _ _ Hf) as (Hin & Htn & _). subst t.
    exists now, cur, (successor now (rr_id rng) (sha256 tok) cur). by destruct Hp.
  - left. unfold revoke_token. repeat case_match; try done. apply revoke_where_le.
  - left. unfold revoke_for_user.
    assert (rows_le (refresh_rows st) (RefreshRepo.revoke_for_user now t user client (refresh_rows st)).1)
      as Hle by apply revoke_where_le.
    destruct (RefreshRepo.revoke_for_user now t user client (refresh_rows st)) as [rows count].
    cbn [snd fst] in *. by case_match.
Qed.

Lemma one_live_step a b :
  rstep sha256 b64 a b -> one_live (refresh_rows a.2) -> one_live (refresh_rows b.2).
Proof.
  intros [Hle|[(t & fam & new & Hfresh & Hnew & ->)|(now & cur & new & Hin & Hu & Hnew & ->)]]%rstep_cases H1'.
  - by eapply one_live_le.
  - assert (forall t' f r, r ∈ refresh_rows a.2 -> in_family t' f r -> in_family t' f new -> False) as Hno.
    { intros t' f r Hr [? ?] [? ?]. destruct Hnew. apply (Hfresh r Hr). split; congruence. }
    intros t' f r1 r2 [Hr1|Hr1]%elem_of_app [Hr2|Hr2]%elem_of_app Hf1 Hf2 Hu1 Hu2.
    + by apply (H1' t' f).
    + apply list_elem_of_singleton in Hr2 as ->. by destruct (Hno t' f r1).
    + apply list_elem_of_singleton in Hr1 as ->. by destruct (Hno t' f r2).
    + apply list_elem_of_singleton in Hr1 as ->. by apply list_elem_of_singleton in Hr2 as ->.
  - by apply one_live_rotate.
Qed.

Lemma family_dead_step t f a b :
  rstep sha256 b64 a b -> family_dead t f (refresh_rows a.2) -> family_dead t f (refresh_rows b.2).
Proof.
  intros [Hle|[(t' & fam & new & Hfresh & Hnew & ->)|(now & cur & new & Hin & Hu & Hnew & ->)]]%rstep_cases Hd.
  - by eapply family_dead_le.
  - destruct Hd as [(r & Hr & Hf) Hd]. split.
    + exists r. split; [apply elem_of_app; by left|done].
    + intros r' [Hr'|Hr']%elem_of_app Hf'; [by apply Hd|].
      apply list_elem_of_singleton in Hr' as ->. destruct (Hfresh r Hr).
      destruct Hf, Hf', Hnew. split; congruence.
  - by apply family_dead_rotate.
Qed.

(** No token of a dead family is redeemed. *)
Lemma family_dead_redeem t f now rng st client_id presented proof resources scopes rot cur :
  family_dead t f (refresh_rows st) ->
  RefreshRepo.find_by_hash t (sha256 presented) (refresh_rows st) = Some cur ->
  rt_family_id cur = f ->
  exists e, (redeem sha256 b64 now rng st t client_id presented proof resources scopes rot).1 = Err e.
Proof.
  intros [_ Hd] Hf Efam. destruct (find_by_hash_spec _ _ _ _ Hf) as (Hin & Htn & _).
  specialize (Hd cur Hin (conj Htn Efam)).
  pose proof (redeem_redeemed sha256 b64 now rng st t client_id presented proof resources scopes rot)
    as Ho. cbv zeta in Ho.
  assert (forall c, RefreshRepo.find_by_hash t (sha256 presented) (refresh_rows st) = Some c ->
    passes now client_id proof resources scopes c -> False) as Hno.
  { intros c Hc [_ [_ Hu] _ _ _ _ _]. assert (c = cur) as -> by congruence.
    rewrite Hu in Hd. by destruct Hd. }
  destruct Ho; eauto; by destruct (Hno cur0).
Qed.
End histories.

(** A consumed token's secret finds it consumed. *)
Lemma find_mark_consumed now t h rows tail cur :
  RefreshRepo.find_by_hash t h rows = Some cur ->
  RefreshRepo.find_by_hash t h (RefreshRepo.mark_consumed now t (rt_id cur) rows ++ tail)
  = Some (RefreshRepo.set_consumed now cur).
Proof.
  unfold RefreshRepo.find_by_hash, RefreshRepo.mark_consumed, update. cbn [fst].
  induction rows as [|r rows IH]; [done|]. cbn [fmap list_fmap app List.find].
  destruct ((rt_tenant_id r =? t) && bool_decide (rt_token_hash r = h)) eqn:E.
  - intros [= ->]. apply andb_true_iff in E as [Et Eh]. rewrite Et, Z.eqb_refl. cbn [andb].
    cbn [rt_tenant_id rt_token_hash RefreshRepo.set_consumed]. by rewrite Et, Eh.
  - intros Hf. rewrite <- (IH Hf).
    assert ((rt_tenant_id (if (rt_tenant_id r =? t) && (rt_id r =? rt_id cur)
               then RefreshRepo.set_consumed now r else r) =? t)
            && bool_decide (rt_token_hash (if (rt_tenant_id r =? t) && (rt_id r =? rt_id cur)
               then RefreshRepo.set_consumed now r else r) = h) = false) as ->; [|done].
    by case_match.
Qed.

(** Redeeming a consumed token, by its own client, kills its family. *)
Lemma redeem_consumed `{Valkey} `{UuidDisplay} `{!Serde SsoSession} sha256 b64
    now rng st t presented proof resources scopes rot cur :
  String.prefix RT_PREFIX presented = true -> Z.of_nat (String.length presented) <= 256 ->
  RefreshRepo.find_by_hash t (sha256 presented) (refresh_rows st) = Some cur ->
  is_Some (rt_consumed_at cur) ->
  let o := redeem sha256 b64 now rng st t (rt_client_id cur) presented proof resources scopes rot in
  (exists d, o.1 = Err (mkOAuthError InvalidGrant d))
  /\ family_dead t (rt_family_id cur) (refresh_rows o.2).
Proof.
  intros Hp Hl Hf Hc. unfold redeem. rewrite Hp, (proj2 (Z.ltb_ge _ _) Hl). cbn [negb orb].
  unfold hash. rewrite Hf. rewrite bool_decide_eq_true_2 by done. cbn [negb].
  rewrite bool_decide_eq_true_2 by done. cbn [fst snd refresh_rows publish with_refresh].
  split; [eauto|]. destruct (find_by_hash_spec _ _ _ _ Hf) as (Hin & Ht & _).
  by eapply revoke_family_dead.
Qed.

Lemma redeem_ok_guard `{Valkey} `{UuidDisplay} `{!Serde SsoSession} sha256 b64
    now rng st t client_id presented proof resources scopes rot issued st1 :
  redeem sha256 b64 now rng st t client_id presented proof resources scopes rot = (Ok issued, st1) ->
  String.prefix RT_PREFIX presented = true /\ Z.of_nat (String.length presented) <= 256.
Proof. unfold redeem. intros Hr. case_match eqn:E; [done|]. bool_hyps. done. Qed.

Lemma redeemed_rotated `{Valkey} `{UuidDisplay} `{!Serde SsoSession} sha256 b64
    now rng st t client_id presented proof resources scopes issued rows :
  redeemed sha256 b64 now rng st t client_id presented proof resources scopes true (Ok issued) rows ->
  exists cur,
    RefreshRepo.find_by_hash t (sha256 presented) (refresh_rows st) = Some cur
    /\ rt_client_id cur = client_id
    /\ issued = mkRtIssued (random_token b64 (rr_bytes rng))
                  (successor now (rr_id rng) (sha256 (random_token b64 (rr_bytes rng))) cur)
    /\ rows = RefreshRepo.mark_consumed now t (rt_id cur) (refresh_rows st) ++ [is_record issued]
    /\ (forall r, r ∈ refresh_rows st -> rt_id r <> rr_id rng
         /\ ~ (rt_tenant_id r = t /\ rt_token_hash r = sha256 (random_token b64 (rr_bytes rng)))).
Proof.
  intros Ho. inv Ho. exists cur.
  by match goal with Hp : passes _ _ _ _ _ _ |- _ => destruct Hp end.
Qed.

(** ** Theorems *)

(** C2: reuse of a refresh token kills its family for good. When a consumed
    token is presented by its client, the answer is [invalid_grant], and
    from then on, after any sequence of operations of the token and session
    services, no token of that family is ever redeemed. *)
Theorem reuse_kills_family `{Valkey} `{UuidDisplay} `{!Serde SsoSession}
    (sha256 : string -> list Z) (b64 : list Z -> string)
    (now : Z) (rng : RtRng) (st : AppState) (t : Uuid) (presented : string) (proof : SenderProof)
    (resources : list string) (scopes : option (list string)) (rot : bool) (cur : RefreshToken) :
  String.prefix RT_PREFIX presented = true -> Z.of_nat (String.length presented) <= 256 ->
  RefreshRepo.find_by_hash t (sha256 presented) (refresh_rows st) = Some cur ->
  is_Some (rt_consumed_at cur) ->
  let o := redeem sha256 b64 now rng st t (rt_client_id cur) presented proof resources scopes rot in
  (exists d, o.1 = Err (mkOAuthError InvalidGrant d))
  /\ forall now' st', rtc (rstep sha256 b64) (now, o.2) (now', st') ->
     forall rng' client' presented' proof' resources' scopes' rot' cur',
       RefreshRepo.find_by_hash t (sha256 presented') (refresh_rows st') = Some cur' ->
       rt_family_id cur' = rt_family_id cur ->
       exists e, (redeem sha256 b64 now' rng' st' t client' presented' proof' resources' scopes' rot').1
                 = Err e.
Proof.
  intros Hp Hl Hf Hc. cbv zeta.
  destruct (redeem_consumed sha256 b64 now rng st t presented proof resources scopes rot cur Hp Hl Hf Hc)
    as [He Hd]. split; [exact He|]. intros now' st' Hr rng' c' p' pr' rs' sc' rot' cur' Hf' Efam.
  eapply family_dead_redeem; [|exact Hf'|exact Efam].
  refine (rtc_invariant _ (fun a => family_dead t (rt_family_id cur) (refresh_rows a.2)) _ _ _ Hr Hd).
  intros x y Hxy. by apply (family_dead_step sha256 b64).
Qed.

(** at most one token of a family is live. Along any history of the token
    and session services, two tokens of one family that are neither consumed
    nor revoked are the same token. *)
Theorem family_one_live `{Valkey} `{UuidDisplay} `{!Serde SsoSession}
    (sha256 : string -> list Z) (b64 : list Z -> string) (a b : Z * AppState) :
  one_live (refresh_rows a.2) -> rtc (rstep sha256 b64) a b -> one_live (refresh_rows b.2).
Proof.
  intros Ha Hr. refine (rtc_invariant _ (fun s => one_live (refresh_rows s.2)) _ _ _ Hr Ha).
  intros x y Hxy. by apply (one_live_step sha256 b64).
Qed.

(** C20: redeeming meets its contract. Whatever is presented, [redeem] refuses
    and leaves the table of tokens as it was, or revokes the family of a
    consumed token or of one whose sign-in ended, or succeeds: then the token
    is the client's own, unconsumed, unrevoked, unexpired, its sender
    constraints are met, scopes and resources stay within the grant and the
    sign-in has not ended; without rotation it is handed back, with rotation
    it is consumed and its one successor carries the same grant, bindings and
    expiry under a fresh secret. *)
Theorem redeem_contract `{Valkey} `{UuidDisplay} `{!Serde SsoSession}
    (sha256 : string -> list Z) (b64 : list Z -> string)
    (now : Z) (rng : RtRng) (st : AppState) (t : Uuid) (client_id presented : string)
    (proof : SenderProof) (resources : list string) (scopes : option (list string)) (rot : bool) :
  let o := redeem sha256 b64 now rng st t client_id presented proof resources scopes rot in
  redeemed sha256 b64 now rng st t client_id presented proof resources scopes rot
    o.1 (refresh_rows o.2).
Proof. apply redeem_redeemed. Qed.

(** a stolen token is useless once either party has refreshed. After a
    rotation, presenting the old secret again is answered [invalid_grant] and
    the secret issued by the rotation is refused from then on too. *)
Theorem replay_after_rotation `{Valkey} `{UuidDisplay} `{!Serde SsoSession}
    (sha256 : string -> list Z) (b64 : list Z -> string)
    (now : Z) (rng : RtRng) (st st1 : AppState) (t : Uuid) (client_id presented : string)
    (proof : SenderProof) (resources : list string) (scopes : option (list string))
    (issued : RtIssued) :
  redeem sha256 b64 now rng st t client_id presented proof resources scopes true = (Ok issued, st1) ->
  forall now2 rng2 proof2 resources2 scopes2 rot2,
  let o := redeem sha256 b64 now2 rng2 st1 t client_id presented proof2 resources2 scopes2 rot2 in
  (exists d, o.1 = Err (mkOAuthError InvalidGrant d))
  /\ forall now3 rng3 client3 proof3 resources3 scopes3 rot3, exists e,
       (redeem sha256 b64 now3 rng3 o.2 t client3 (is_token issued) proof3 resources3 scopes3 rot3).1
       = Err e.
Proof.
  intros Hr now2 rng2 proof2 resources2 scopes2 rot2. cbv zeta.
  destruct (redeem_ok_guard _ _ _ _ _ _ _ _ _ _ _ _ _ _ Hr) as [Hp Hl].
  pose proof (redeem_redeemed sha256 b64 now rng st t client_id presented proof resources scopes true)
    as Ho. cbv zeta in Ho. rewrite Hr in Ho. cbn [fst snd] in Ho.
  apply redeemed_rotated in Ho as (cur & Hf & <- & -> & Hrows & Hfresh). cbn [is_token].
  set (tok := random_token b64 (rr_bytes rng)) in *.
  destruct (redeem_consumed sha256 b64 now2 rng2 st1 t presented proof2 resources2 scopes2 rot2
    (RefreshRepo.set_consumed now cur) Hp Hl) as [He Hd]; [|by eexists|].
  { rewrite Hrows. by apply find_mark_consumed. }
  split; [exact He|]. intros now3 rng3 client3 proof3 resources3 scopes3 rot3.
  set (o := redeem _ _ now2 _ _ _ _ _ _ _ _ _) in *.
  destruct (RefreshRepo.find_by_hash t (sha256 tok) (refresh_rows o.2)) as [c3|] eqn:Ef3.
  - eapply family_dead_redeem; [exact Hd|exact Ef3|].
    destruct (find_by_hash_spec _ _ _ _ Ef3) as (Hin3 & Ht3 & Hh3).
    assert (rows_le (refresh_rows st1) (refresh_rows o.2)) as Hle.
    { subst o. unfold redeem. rewrite Hp, (proj2 (Z.ltb_ge _ _) Hl). cbn [negb orb]. unfold hash.
      rewrite Hrows, (find_mark_consumed now t (sha256 presented) (refresh_rows st) _ cur Hf).
      rewrite bool_decide_eq_true_2 by done. cbn [negb].
      rewrite bool_decide_eq_true_2 by (by eexists). rewrite <- Hrows. apply revoke_where_le. }
    destruct (rows_le_elem _ _ _ Hle Hin3) as (r & Hinr & Hler). rewrite Hrows in Hinr.
    assert (rt_tenant_id r = t /\ rt_token_hash r = sha256 tok /\ rt_family_id c3 = rt_family_id r)
      as (Htr & Hhr & ->) by (destruct Hler as [->|(_ & n & ->)]; done).
    apply elem_of_app in Hinr as [(r0 & Hr0 & ->)%mark_consumed_elem|Hn].
    + destruct (proj2 (Hfresh r0 Hr0)). by case_match.
    + by apply list_elem_of_singleton in Hn as ->.
  - unfold redeem. case_match; [eauto|]. unfold hash. rewrite Ef3. eauto.
Qed.

(** ** Witnesses: one grant, rotated once *)

Definition ex_sha (s : string) : list Z :=
  (fun a => Z.of_nat (Ascii.nat_of_ascii a)) <$> String.list_ascii_of_string s.
Definition ex_b64 (bytes : list Z) : string :=
  String.string_of_list_ascii ((fun b => Ascii.ascii_of_nat (Z.to_nat b)) <$> bytes).
Definition ex_grant : IssueRequest :=
  mkIssueRequest "spa" (Some 5) None ["openid"; "offline_access"] ["https://api.example"] 3600000
    (Some "key-thumbprint") None None [] None None None.
Definition ex_proof : SenderProof := mkSenderProof (Some "key-thumbprint"%string) None.

Definition ex_issued : @AppState ex_valkey :=
  match @issue ex_valkey ex_sha ex_b64 0 (mkRtRng [65] 1001) 100 ex_state 1 ex_grant with
  | Ok (_, st) => st
  | Err _ => ex_state
  end.
Definition ex_redeem (now : Z) (rng : RtRng) (st : @AppState ex_valkey) (presented : string) :=
  @redeem ex_valkey toy_uuid ex_serde ex_sha ex_b64 now rng st 1 "spa" presented ex_proof []
    (Some ["openid"%string]) true.
Definition ex_rotated : @AppState ex_valkey := (ex_redeem 1000 (mkRtRng [66] 1002) ex_issued "rt_A").2.
Definition ex_old_row : RefreshToken :=
  mkRefreshToken 1001 1 100 "spa" (Some 5) None (ex_sha "rt_A") ["openid"; "offline_access"]
    ["https://api.example"] None [] None None None 3600000 (Some "key-thumbprint"%string) None
    (Some 1000) None 0.

Lemma pair_eq_1 {A B} (p : A * B) x : p.1 = x -> p = (x, p.2).
Proof. intros <-. by destruct p. Qed.

Lemma replay_after_rotation_witness :
  let o := ex_redeem 2000 (mkRtRng [67] 1003) ex_rotated "rt_A" in
  (exists d, o.1 = Err (mkOAuthError InvalidGrant d))
  /\ exists e, (ex_redeem 3000 (mkRtRng [68] 1004) o.2 "rt_B").1 = Err e.
Proof.
  pose proof (@replay_after_rotation ex_valkey toy_uuid ex_serde ex_sha ex_b64 1000 (mkRtRng [66] 1002)
    ex_issued ex_rotated 1 "spa" "rt_A" ex_proof [] (Some ["openid"%string])
    (mkRtIssued "rt_B" (successor 1000 1002 (ex_sha "rt_B")
       (mkRefreshToken 1001 1 100 "spa" (Some 5) None (ex_sha "rt_A") ["openid"; "offline_access"]
          ["https://api.example"] None [] None None None 3600000 (Some "key-thumbprint"%string) None
          None None 0)))) as Hr.
  assert ((ex_redeem 1000 (mkRtRng [66] 1002) ex_issued "rt_A").1
          = Ok (mkRtIssued "rt_B" (successor 1000 1002 (ex_sha "rt_B")
       (mkRefreshToken 1001 1 100 "spa" (Some 5) None (ex_sha "rt_A") ["openid"; "offline_access"]
          ["https://api.example"] None [] None None None 3600000 (Some "key-thumbprint"%string) None
          None None 0)))) as E by (vm_compute; reflexivity).
  destruct (Hr (pair_eq_1 _ _ E) 2000 (mkRtRng [67] 1003) ex_proof [] (Some ["openid"%string]) true)
    as [Hd He].
  split; [exact Hd|]. exact (He 3000 (mkRtRng [68] 1004) "spa"%string ex_proof [] (Some ["openid"%string]) true).
Defined.

Lemma reuse_kills_family_witness :
  exists d, (ex_redeem 2000 (mkRtRng [67] 1003) ex_rotated "rt_A").1 = Err (mkOAuthError InvalidGrant d).
Proof.
  refine (proj1 (@reuse_kills_family ex_valkey toy_uuid ex_serde ex_sha ex_b64 2000 (mkRtRng [67] 1003)
    ex_rotated 1 "rt_A" ex_proof [] (Some ["openid"%string]) true ex_old_row _ _ _ _)).
  - reflexivity.
  - vm_compute. discriminate.
  - vm_compute. reflexivity.
  - by eexists.
Defined.

Lemma family_one_live_witness : one_live (refresh_rows ex_rotated).
Proof.
  refine (@family_one_live ex_valkey toy_uuid ex_serde ex_sha ex_b64 (1000, ex_issued) (1000, ex_rotated) _ _).
  - intros t f r1 r2 Hr1 Hr2 _ _ _ _. vm_compute in Hr1, Hr2.
    apply list_elem_of_singleton in Hr1 as ->. by apply list_elem_of_singleton in Hr2 as ->.
  - eapply rtc_l; [|apply rtc_refl]. apply R_redeem.
Defined.
