(* ===== verification/AuthCodes.v ===== *)
(** * Authorization codes

    Models [api/src/services/auth_codes.rs]: a random code is stored hashed,
    with everything [/token] must check, for a minute, and taken with one
    [GETDEL]. *)

From stdpp Require Import gmap strings.
From S2P Require Import Prelude Valkey.

Definition CODE_TTL_SECS : Z := 60.

(** [impersonation::Acting]. *)
Record Acting := mkActing { act_claim : string; act_until : Z }.

Record AuthCode := mkAuthCode {
  c_tenant_id : Uuid;
  c_client_id : Uuid;
  c_client_public_id : string;
  c_user_id : Uuid;
  c_session_id : Uuid;
  c_redirect_uri : string;
  c_scopes : list string;
  c_audiences : list string;
  c_nonce : option string;
  c_code_challenge : option string;
  c_auth_time : Z;
  c_amr : list string;
  c_acr : option string;
  c_org_id : option Uuid;
  c_acting : option Acting;
  c_claims : option string;
  c_issued_at : Z
}.

Section codes.
Context `{Valkey} `{UuidDisplay} `{!Serde AuthCode}.

(** SHA-256 and base64url without padding. *)
Context (sha256 : string -> list Z) (b64 : list Z -> string).

Definition code_hash (code : string) : string := b64 (sha256 code).

(** [issue], with the 32 random bytes it draws. *)
Definition issue_code (now : Z) (bytes : list Z) (db : vdb) (record : AuthCode) : string * vdb :=
  let code := b64 bytes in
  (code, vset_px now (auth_code (c_tenant_id record) (code_hash code)) (to_json record)
           (CODE_TTL_SECS * 1000) db).

(** [consume]. *)
Definition consume (now : Z) (db : vdb) (tenant_id : Uuid) (code : string) : option AuthCode * vdb :=
  if bool_decide (code = ""%string) || (128 <? Z.of_nat (String.length code)) then (None, db)
  else
    let '(r, db) := vgetdel now (auth_code tenant_id (code_hash code)) db in
    (r ≫= from_json, db).

(** Operations in the order the store executes them, each with its time. *)
Inductive CodeOp := OpIssue (bytes : list Z) (record : AuthCode) | OpConsume (tenant_id : Uuid) (code : string).

Definition run_op (now : Z) (op : CodeOp) (db : vdb) : option AuthCode * vdb :=
  match op with
  | OpIssue bytes record => (None, (issue_code now bytes db record).2)
  | OpConsume t code => consume now db t code
  end.

(** How often the code [code] of tenant [t] is exchanged along a history. *)
Fixpoint exchanges (t : Uuid) (code : string) (ops : list (Z * CodeOp)) (db : vdb) : nat :=
  match ops with
  | [] => 0
  | (now, op) :: ops =>
      let '(r, db) := run_op now op db in
      (match op, r with
       | OpConsume t' code', Some _ => if bool_decide (t' = t /\ code' = code) then 1 else 0
       | _, _ => 0
       end + exchanges t code ops db)%nat
  end.
End codes.

(** ** Lemmas *)

Section lemmas.
Context `{ValkeyLaws} `{UuidDisplay} `{!Serde AuthCode}.
Context (sha256 : string -> list Z) (b64 : list Z -> string).

Abbreviation key t code := (auth_code t (code_hash sha256 b64 code)).

(** No later operation issues this code again. *)
Definition not_reissued (t : Uuid) (code : string) (op : CodeOp) : Prop :=
  match op with
  | OpIssue bytes record => key (c_tenant_id record) (b64 bytes) <> key t code
  | OpConsume _ _ => True
  end.

Definition absent (t : Uuid) (code : string) (db : vdb) : Prop := forall now, vget now (key t code) db = None.

Lemma absent_run t code now op db :
  absent t code db -> not_reissued t code op -> absent t code (run_op sha256 b64 now op db).2.
Proof.
  intros Ha Hn n. destruct op as [bytes record|t' code']; cbn [run_op].
  - cbn [issue_code snd]. by rewrite vget_set_ne.
  - unfold consume, vgetdel. case_match; [by apply Ha|]. cbn [snd].
    destruct (decide (key t' code' = key t code)) as [->|Hne]; [apply vget_del|].
    rewrite vget_del_ne by done. apply Ha.
Qed.

Lemma consume_absent now t code db : absent t code db -> consume sha256 b64 now db t code = (None, (consume sha256 b64 now db t code).2).
Proof. intros Ha. unfold consume, vgetdel. case_match; [done|]. by rewrite Ha. Qed.

Lemma absent_exchanges t code ops db :
  absent t code db -> Forall (fun o => not_reissued t code o.2) ops ->
  exchanges sha256 b64 t code ops db = 0%nat.
Proof.
  intros Ha Hops. revert db Ha. induction Hops as [|[now op] ops Hn _ IH]; intros db Ha; [done|].
  cbn [exchanges]. pose proof (absent_run t code now op db Ha Hn) as Ha'.
  destruct (run_op sha256 b64 now op db) as [r db'] eqn:E. cbn [snd] in Ha'. rewrite (IH _ Ha').
  destruct op as [|t' code']; [done|]. destruct r as [rec|]; [|done].
  case_bool_decide as Hb; [|done]. destruct Hb as [-> ->]. cbn [run_op] in E.
  rewrite consume_absent in E by done. done.
Qed.

Lemma consume_makes_absent now t code db :
  code <> ""%string -> Z.of_nat (String.length code) <= 128 ->
  absent t code (consume sha256 b64 now db t code).2.
Proof.
  intros Hne Hl n. unfold consume, vgetdel. rewrite bool_decide_eq_false_2 by done.
  rewrite (proj2 (Z.ltb_ge _ _) Hl). cbn [orb snd]. apply vget_del.
Qed.
End lemmas.

(** ** Theorems *)

(** an authorization code is exchanged at most once. Along any history of
    issues and exchanges, of this and of other codes, in which the code is
    not drawn a second time, at most one exchange of it succeeds. *)
Theorem code_single_use `{ValkeyLaws} `{UuidDisplay} `{!Serde AuthCode}
    (sha256 : string -> list Z) (b64 : list Z -> string) (t : Uuid) (code : string)
    (ops : list (Z * CodeOp)) (db : vdb) :
  Forall (fun o => not_reissued sha256 b64 t code o.2) ops ->
  (exchanges sha256 b64 t code ops db <= 1)%nat.
Proof.
  intros Hops. revert db. induction Hops as [|[now op] ops Hn Hops IH]; intros db; [cbn; lia|].
  cbn [exchanges]. destruct op as [bytes rec|t' code']; [apply IH|].
  destruct (run_op sha256 b64 now (OpConsume t' code') db) as [[rec|] db'] eqn:E; [|apply IH].
  case_bool_decide as Hb; [|apply IH]. destruct Hb as [-> ->]. cbn [run_op] in E.
  assert (absent sha256 b64 t code db') as Ha.
  { replace db' with (consume sha256 b64 now db t code).2 by (by rewrite E).
    unfold consume in E. case_match eqn:Eg; [done|]. bool_hyps. by apply consume_makes_absent. }
  rewrite absent_exchanges by done. lia.
Qed.

(** a code carries what it was issued for, for a minute. An exchange less
    than sixty seconds after the issue returns the record issued; later it
    returns nothing. *)
Theorem code_round_trip `{ValkeyLaws} `{UuidDisplay} `{!Serde AuthCode}
    (sha256 : string -> list Z) (b64 : list Z -> string) (now now' : Z) (bytes : list Z)
    (db : vdb) (record : AuthCode) :
  b64 bytes <> ""%string -> Z.of_nat (String.length (b64 bytes)) <= 128 -> now <= now' ->
  (consume sha256 b64 now' (issue_code sha256 b64 now bytes db record).2 (c_tenant_id record)
     (issue_code sha256 b64 now bytes db record).1).1
  = if now' <? now + 60000 then Some record else None.
Proof.
  intros Hne Hl Hn. unfold consume, issue_code. cbn [fst snd].
  rewrite bool_decide_eq_false_2 by done. rewrite (proj2 (Z.ltb_ge _ _) Hl). cbn [orb vgetdel fst].
  unfold vgetdel. rewrite vget_set by done. change (now + CODE_TTL_SECS * 1000) with (now + 60000).
  case_match; [|done]. cbn. by rewrite from_to_json.
Qed.

(** ** Witnesses *)

Definition ac_valkey : Valkey := map_valkey (R := AuthCode).
Definition ac_serde : @Serde ac_valkey AuthCode :=
  {| to_json s := s : @raw ac_valkey; from_json r := Some r; from_to_json _ := eq_refl |}.
Definition ac_sha (s : string) : list Z := [Z.of_nat (String.length s)].
Definition ac_b64 (bytes : list Z) : string := unary (Z.to_nat (foldl Z.add 1 bytes)).
Definition ac_record : AuthCode :=
  mkAuthCode 1 2 "web" 5 10 "https://app.example/cb" ["openid"%string] [] None None 0 [] None None None None 0.

Definition ac_history : list (Z * CodeOp) :=
  [(0, OpIssue [7] ac_record); (5, OpConsume 1 (ac_b64 [4])); (9, OpConsume 1 (ac_b64 [4]))].

Lemma code_single_use_witness :
  le (@exchanges ac_valkey toy_uuid ac_serde ac_sha ac_b64 1 (ac_b64 [4]) ac_history
       (@issue_code ac_valkey toy_uuid ac_serde ac_sha ac_b64 0 [4] (∅ : gmap string _) ac_record).2) 1.
Proof.
  apply (@code_single_use ac_valkey map_valkey_laws toy_uuid ac_serde ac_sha ac_b64).
  repeat constructor. cbn [not_reissued snd]. vm_compute. discriminate.
Defined.

Lemma code_round_trip_witness :
  (@consume ac_valkey toy_uuid ac_serde ac_sha ac_b64 59999
     (@issue_code ac_valkey toy_uuid ac_serde ac_sha ac_b64 0 [4] (∅ : gmap string _) ac_record).2 1
     (ac_b64 [4])).1 = if 59999 <? 60000 then Some ac_record else None.
Proof.
  apply (@code_round_trip ac_valkey map_valkey_laws toy_uuid ac_serde ac_sha ac_b64 0 59999 [4]
    (∅ : gmap string _) ac_record); [done|vm_compute; discriminate|lia].
Defined.
