(* ===== verification/DeviceCodes.v ===== *)
(** * The device authorization grant

    Models [api/src/services/device_codes.rs] and
    [api/src/repos/device_codes.rs]: a pending code lives in Valkey under the
    hash of the device's secret, a short user code points at it, approval or
    denial rewrites the record in place and the device's next poll takes it.
    An operation is a sequence of commands: the record it loads and what it
    does with it are separate definitions, so that other requests can run in
    between. *)

From Stdlib Require Import Ascii Sorted.
From stdpp Require Import gmap strings.
From S2P Require Import Prelude Valkey AppState AuthCodes.

Definition DEVICE_CODE_TTL_SECS : Z := 10 * 60.
Definition INTERVAL_SECS : Z := 5.
Definition SLOW_DOWN_STEP_SECS : Z := 5.
Definition USER_CODE_ALPHABET : list ascii := String.list_ascii_of_string "BCDFGHJKLMNPQRSTVWXZ".
Definition USER_CODE_LEN : nat := 8.
Definition GUESS_LIMIT : Z := 10.
Definition GUESS_WINDOW_SECS : Z := 10 * 60.

Record Approval := mkApproval {
  ap_user_id : Uuid;
  ap_session_id : Uuid;
  ap_auth_time : Z;
  ap_amr : list string;
  ap_acr : option string;
  ap_org_id : option Uuid;
  ap_acting : option Acting;
  ap_scopes : list string
}.

Inductive Status := Pending | Approved (a : Approval) | Denied.

Record DeviceRecord := mkDeviceRecord {
  d_id : Uuid;
  d_tenant_id : Uuid;
  d_client_id : Uuid;
  d_client_public_id : string;
  d_scopes : list string;
  d_audiences : list string;
  d_user_code : string;
  d_interval_secs : Z;
  d_issued_at : Z;
  d_expires_at : Z;
  d_status : Status;
  d_last_poll_at : option Z
}.

Definition is_expired (r : DeviceRecord) (now : Z) : bool := d_expires_at r <=? now.

Definition is_pending (r : DeviceRecord) : bool :=
  match d_status r with Pending => true | _ => false end.

Definition with_status (r : DeviceRecord) (s : Status) : DeviceRecord :=
  mkDeviceRecord (d_id r) (d_tenant_id r) (d_client_id r) (d_client_public_id r) (d_scopes r)
    (d_audiences r) (d_user_code r) (d_interval_secs r) (d_issued_at r) (d_expires_at r) s
    (d_last_poll_at r).
Definition with_poll (r : DeviceRecord) (interval now : Z) : DeviceRecord :=
  mkDeviceRecord (d_id r) (d_tenant_id r) (d_client_id r) (d_client_public_id r) (d_scopes r)
    (d_audiences r) (d_user_code r) interval (d_issued_at r) (d_expires_at r) (d_status r)
    (Some now).

(** ** User codes *)

Definition is_ascii_alphanumeric (c : ascii) : bool :=
  let n := nat_of_ascii c in
  ((48 <=? n) && (n <=? 57) || (65 <=? n) && (n <=? 90) || (97 <=? n) && (n <=? 122))%nat.
Definition to_ascii_uppercase (c : ascii) : ascii :=
  let n := nat_of_ascii c in
  if ((97 <=? n) && (n <=? 122))%nat then ascii_of_nat (n - 32) else c.

(** [XXXX-XXXX]. *)
Definition dashed (letters : list ascii) : string :=
  String.string_of_list_ascii (take 4 letters ++ "-"%char :: drop 4 letters).

(** [random_user_code], with the eight indices it draws below 20. *)
Definition random_user_code (picks : list nat) : string :=
  dashed ((fun i => nth i USER_CODE_ALPHABET "B"%char) <$> picks).

Definition normalize_user_code (raw_ : string) : option string :=
  let letters := to_ascii_uppercase <$>
    filter (fun c => Is_true (is_ascii_alphanumeric c)) (String.list_ascii_of_string raw_) in
  if negb (length letters =? USER_CODE_LEN)%nat
     || negb (forallb (fun c => bool_decide (c ∈ USER_CODE_ALPHABET)) letters)
  then None else Some (dashed letters).

(** ** Audit rows *)

Inductive RowStatus := RPending | RApproved | RDenied | RConsumed.
#[export] Instance row_status_dec : EqDecision RowStatus.
Proof. solve_decision. Defined.

Record DeviceRow := mkDeviceRow {
  dr_id : Uuid;
  dr_tenant_id : Uuid;
  dr_client_id : Uuid;
  dr_user_code : string;
  dr_scopes : list string;
  dr_status : RowStatus;
  dr_user_id : option Uuid
}.

Module DeviceRepo.
Definition insert (tenant_id id client_id : Uuid) (user_code : string) (scopes : list string)
    (rows : list DeviceRow) : list DeviceRow :=
  rows ++ [mkDeviceRow id tenant_id client_id user_code scopes RPending None].
Definition decide_row (tenant_id id : Uuid) (status : RowStatus) (user_id : option Uuid)
    (rows : list DeviceRow) : list DeviceRow :=
  (update (fun r => (dr_tenant_id r =? tenant_id) && (dr_id r =? id)
                    && bool_decide (dr_status r = RPending))
     (fun r => mkDeviceRow (dr_id r) (dr_tenant_id r) (dr_client_id r) (dr_user_code r)
                 (dr_scopes r) status user_id) rows).1.
Definition consume_row (tenant_id id : Uuid) (rows : list DeviceRow) : list DeviceRow :=
  (update (fun r => (dr_tenant_id r =? tenant_id) && (dr_id r =? id)
                    && bool_decide (dr_status r = RApproved))
     (fun r => mkDeviceRow (dr_id r) (dr_tenant_id r) (dr_client_id r) (dr_user_code r)
                 (dr_scopes r) RConsumed (dr_user_id r)) rows).1.
End DeviceRepo.

(** ** The operations *)

Inductive Poll :=
| PollApproved (rec : DeviceRecord) (a : Approval)
| PollPending
| PollSlowDown
| PollDenied
| PollExpired.

Inductive DeviceError := DeviceNotFound | RateLimited (retry_after_secs : Z).

Section device.
Context `{Valkey} `{Counters} `{UuidDisplay} `{!Serde DeviceRecord} `{!Serde string}.
Context (sha256 : string -> list Z) (b64 : list Z -> string).

Record DevState := mkDevState {
  dv_redis : vdb;
  dv_guesses : cdb;
  dv_rows : list DeviceRow
}.
Definition dv_with_redis (st : DevState) (db : vdb) : DevState :=
  mkDevState db (dv_guesses st) (dv_rows st).
Definition dv_with_rows (st : DevState) (rows : list DeviceRow) : DevState :=
  mkDevState (dv_redis st) (dv_guesses st) rows.

Definition device_hash (code : string) : string := b64 (sha256 code).

Definition store_rec (now : Z) (st : DevState) (key : string) (rec : DeviceRecord) (keep_ttl : bool)
    : DevState :=
  dv_with_redis st
    (if keep_ttl then vset_keepttl now key (to_json rec) (dv_redis st)
     else vset_px now key (to_json rec) (DEVICE_CODE_TTL_SECS * 1000) (dv_redis st)).

Definition load_rec (now : Z) (st : DevState) (key : string) : option DeviceRecord :=
  load_json now key (dv_redis st).

(** The loop of [issue] that claims a user code, [supply i] the [i]-th drawn:
    at most [n] attempts. *)
Fixpoint claim (n i : nat) (now : Z) (tenant_id : Uuid) (hash : string) (supply : nat -> string)
    (db : vdb) : string * vdb :=
  match n with
  | O => (supply i, db)
  | S n =>
      let '(claimed, db) :=
        vset_nx now (device_user_code tenant_id (supply i)) (to_json hash)
          (DEVICE_CODE_TTL_SECS * 1000) db in
      if claimed then (supply i, db) else claim n (S i) now tenant_id hash supply db
  end.

(** [issue]: the device code, the user code and the state after. *)
Definition issue_device (now : Z) (bytes : list Z) (supply : nat -> string) (id : Uuid)
    (st : DevState) (tenant_id client_id : Uuid) (client_public_id : string)
    (scopes audiences : list string) : string * string * DevState :=
  let code := b64 bytes in
  let hash := device_hash code in
  let '(user_code, db) := claim 8 0 now tenant_id hash supply (dv_redis st) in
  let st := dv_with_redis st db in
  let rec :=
    mkDeviceRecord id tenant_id client_id client_public_id scopes audiences user_code
      INTERVAL_SECS now (now + DEVICE_CODE_TTL_SECS * 1000) Pending None in
  let st := store_rec now st (device_code tenant_id hash) rec false in
  let st := dv_with_rows st
    (DeviceRepo.insert tenant_id id client_id user_code scopes (dv_rows st)) in
  (code, user_code, st).

(** [find_by_user_code]. *)
Definition find_by_user_code (now : Z) (st : DevState) (tenant_id : Uuid) (raw_ : string)
    (ip : option string) : result DeviceError (option (string * DeviceRecord)) * DevState :=
  let guess_key := device_guesses tenant_id (default "unknown"%string ip) in
  let '(guesses, cd) := vincr now guess_key (dv_guesses st) in
  let cd := if guesses =? 1 then vpexpire now guess_key (GUESS_WINDOW_SECS * 1000) cd else cd in
  let st := mkDevState (dv_redis st) cd (dv_rows st) in
  if GUESS_LIMIT <? guesses then (Err (RateLimited GUESS_WINDOW_SECS), st)
  else
    let found :=
      code ← normalize_user_code raw_;
      hash ← load_json now (device_user_code tenant_id code) (dv_redis st);
      rec ← load_rec now st (device_code tenant_id hash);
      if is_pending rec && negb (is_expired rec now) then Some (hash, rec) else None in
    (Ok found, st).

(** [approve]: what it does with the record it loaded. *)
Definition approve_store (now : Z) (st : DevState) (tenant_id : Uuid) (hash : string)
    (session : SsoSession) (acting : option Acting) (scopes : list string) (rec : DeviceRecord)
    : DeviceRecord * DevState :=
  let rec := with_status rec
    (Approved (mkApproval (s_user_id session) (s_id session) (s_auth_time session)
                 (s_amr session) (s_acr session) (s_org_id session) acting scopes)) in
  let st := store_rec now st (device_code tenant_id hash) rec true in
  (rec, dv_with_rows st
          (DeviceRepo.decide_row tenant_id (d_id rec) RApproved (Some (s_user_id session)) (dv_rows st))).

Definition approve (now : Z) (st : DevState) (tenant_id : Uuid) (hash : string)
    (session : SsoSession) (acting : option Acting) (scopes : list string)
    : result DeviceError DeviceRecord * DevState :=
  match load_rec now st (device_code tenant_id hash) with
  | Some rec =>
      if is_pending rec && negb (is_expired rec now) then
        let '(rec, st) := approve_store now st tenant_id hash session acting scopes rec in (Ok rec, st)
      else (Err DeviceNotFound, st)
  | None => (Err DeviceNotFound, st)
  end.

(** [deny]. *)
Definition deny (now : Z) (st : DevState) (tenant_id : Uuid) (hash : string) : DevState :=
  match load_rec now st (device_code tenant_id hash) with
  | Some rec =>
      if is_pending rec then
        let st := store_rec now st (device_code tenant_id hash) (with_status rec Denied) true in
        dv_with_rows st (DeviceRepo.decide_row tenant_id (d_id rec) RDenied None (dv_rows st))
      else st
  | None => st
  end.

(** [poll] from the record it loaded on: [now] is the time it read, [at_] the
    time its commands reach the store. *)
Definition poll_loaded (now at_ : Z) (st : DevState) (tenant_id : Uuid) (hash : string)
    (rec : DeviceRecord) : option Poll * DevState :=
  let key := device_code tenant_id hash in
  let user_key := device_user_code tenant_id (d_user_code rec) in
  if is_expired rec now then
    (Some PollExpired, dv_with_redis st (vdel at_ user_key (vdel at_ key (dv_redis st))))
  else if match d_last_poll_at rec with
          | Some last => Z.quot (now - last) 1000 <? d_interval_secs rec | None => false end
  then
    (Some PollSlowDown,
     store_rec at_ st key (with_poll rec (d_interval_secs rec + SLOW_DOWN_STEP_SECS) now) true)
  else match d_status rec with
  | Pending => (Some PollPending, store_rec at_ st key (with_poll rec (d_interval_secs rec) now) true)
  | Denied =>
      (Some PollDenied, dv_with_redis st (vdel at_ user_key (vdel at_ key (dv_redis st))))
  | Approved a =>
      let '(taken, db) := vgetdel at_ key (dv_redis st) in
      if bool_decide (taken = None) then (None, dv_with_redis st db)
      else
        let st := dv_with_redis st (vdel at_ user_key db) in
        (Some (PollApproved rec a),
         dv_with_rows st (DeviceRepo.consume_row tenant_id (d_id rec) (dv_rows st)))
  end.

(** [poll]: one poll by [client_id] with [device_code]. *)
Definition poll (now : Z) (st : DevState) (tenant_id client_id : Uuid) (code : string)
    : option Poll * DevState :=
  if bool_decide (code = ""%string) || (128 <? Z.of_nat (String.length code)) then (None, st)
  else
    let hash := device_hash code in
    match load_rec now st (device_code tenant_id hash) with
    | None => (None, st)
    | Some rec =>
        if negb (d_client_id rec =? client_id) then (None, st)
        else poll_loaded now now st tenant_id hash rec
    end.
End device.

(** ** Lemmas *)

Lemma alphabet_spec c :
  c ∈ USER_CODE_ALPHABET -> is_ascii_alphanumeric c = true /\ to_ascii_uppercase c = c.
Proof.
  intros Hc%list_elem_of_In.
  assert (forallb (fun c => is_ascii_alphanumeric c && bool_decide (to_ascii_uppercase c = c))
            USER_CODE_ALPHABET = true) as Hall by (vm_compute; reflexivity).
  rewrite forallb_forall in Hall. specialize (Hall c Hc). bool_hyps. done.
Qed.

Lemma filter_letters letters :
  Forall (.∈ USER_CODE_ALPHABET) letters ->
  to_ascii_uppercase <$> filter (fun c => Is_true (is_ascii_alphanumeric c)) letters = letters.
Proof.
  induction 1 as [|c l Hc _ IH]; [done|]. destruct (alphabet_spec c Hc) as [Ha Hu].
  rewrite filter_cons_True by (by apply Is_true_true). cbn [fmap list_fmap]. by rewrite Hu, IH.
Qed.

Lemma normalize_dashed letters :
  Forall (.∈ USER_CODE_ALPHABET) letters -> length letters = USER_CODE_LEN ->
  normalize_user_code (dashed letters) = Some (dashed letters).
Proof.
  intros Hl Hn. unfold normalize_user_code.
  assert (to_ascii_uppercase <$> filter (fun c => Is_true (is_ascii_alphanumeric c))
            (String.list_ascii_of_string (dashed letters)) = letters) as ->.
  { unfold dashed. rewrite String.list_ascii_of_string_of_list_ascii.
    rewrite filter_app. rewrite filter_cons_False by (vm_compute; tauto). rewrite <- filter_app, take_drop.
    by apply filter_letters. }
  rewrite Hn, Nat.eqb_refl. cbn [negb orb].
  assert (forallb (fun c => bool_decide (c ∈ USER_CODE_ALPHABET)) letters = true) as ->; [|done].
  apply forallb_forall. intros c Hc. apply bool_decide_eq_true_2.
  rewrite Forall_forall in Hl. apply Hl. by apply list_elem_of_In.
Qed.

(** *** Histories of whole operations *)

Inductive DevOp :=
| DIssue (bytes : list Z) (supply : nat -> string) (id tenant_id client_id : Uuid)
    (client_public_id : string) (scopes audiences : list string)
| DFind (tenant_id : Uuid) (typed : string) (ip : option string)
| DApprove (tenant_id : Uuid) (hash : string) (session : SsoSession) (acting : option Acting)
    (scopes : list string)
| DDeny (tenant_id : Uuid) (hash : string)
| DPoll (tenant_id client_id : Uuid) (code : string).

Section histories.
Context `{ValkeyLaws} `{Counters} `{UuidDisplay} `{!Serde DeviceRecord} `{!Serde string}.
Context (sha256 : string -> list Z) (b64 : list Z -> string).
(** The base64url alphabet has no colon. *)
Context (b64_colonless : forall l, colonless (b64 l) = true).

Definition run_dev (now : Z) (op : DevOp) (st : DevState) : option Poll * DevState :=
  match op with
  | DIssue bytes supply id t c pub scopes aud =>
      (None, (issue_device sha256 b64 now bytes supply id st t c pub scopes aud).2)
  | DFind t typed ip => (None, (find_by_user_code now st t typed ip).2)
  | DApprove t h s acting scopes => (None, (approve now st t h s acting scopes).2)
  | DDeny t h => (None, deny now st t h)
  | DPoll t c code => poll sha256 b64 now st t c code
  end.

(** How often the device code [code] of tenant [t] earns tokens. *)
Definition earned (t : Uuid) (code : string) (op : DevOp) (r : option Poll) : nat :=
  match op, r with
  | DPoll t' _ code', Some (PollApproved _ _) => if bool_decide (t' = t /\ code' = code) then 1 else 0
  | _, _ => 0
  end%nat.
Fixpoint grants (t : Uuid) (code : string) (ops : list (Z * DevOp)) (st : DevState) : nat :=
  match ops with
  | [] => 0
  | (now, op) :: ops =>
      (earned t code op (run_dev now op st).1 + grants t code ops (run_dev now op st).2)%nat
  end.

Abbreviation key t code := (device_code t (device_hash sha256 b64 code)).

Definition not_redrawn (t : Uuid) (code : string) (op : DevOp) : Prop :=
  match op with
  | DIssue bytes _ _ t' _ _ _ _ => key t' (b64 bytes) <> key t code
  | _ => True
  end.

Definition code_gone (t : Uuid) (code : string) (st : DevState) : Prop :=
  forall now, vget now (key t code) (dv_redis st) = None.

(** A user code's key is never a device code's. *)
Lemma user_key_ne t' uc t code : device_user_code t' uc <> key t code.
Proof.
  intros E. pose proof (b64_colonless (sha256 code)) as Hc. fold (device_hash sha256 b64 code) in Hc.
  unfold device_user_code, device_code, PREFIX in E.
  repeat match goal with
    | E : (String _ _ ++ _)%string = (String _ _ ++ _)%string |- _ => injection E as E
    end.
  change (uuid_str t' ++ (String ":" "device:user:" ++ uc) = uuid_str t ++ (String ":" "device:" ++ device_hash sha256 b64 code))%string in E.
  apply colonless_app_inj_lit in E as [_ E]; [|apply uuid_str_colonless..].
  repeat match goal with
    | E : (String _ _ ++ _)%string = (String _ _ ++ _)%string |- _ => injection E as E
    end.
  change (String "u" (String "s" (String "e" (String "r" (String ":" uc)))) = device_hash sha256 b64 code) in E.
  by rewrite <- E in Hc.
Qed.

Lemma claim_vget n i now now' t' h supply db t code :
  vget now' (key t code) (claim n i now t' h supply db).2 = vget now' (key t code) db.
Proof.
  revert i db. induction n as [|n IH]; intros i db; [done|]. cbn [claim]. unfold vset_nx.
  destruct (vget now (device_user_code t' (supply i)) db); [apply IH|].
  cbn [snd]. apply vget_set_ne, user_key_ne.
Qed.

(** Rewriting a record that was loaded does not bring another back. *)
Lemma code_gone_store t code now st t' h rec :
  code_gone t code st -> load_rec now st (device_code t' h) = Some rec ->
  forall rec', code_gone t code (store_rec now st (device_code t' h) rec' true).
Proof.
  intros Hg Hl rec' n. cbn [store_rec dv_redis dv_with_redis]. rewrite vget_keepttl_ne; [apply Hg|].
  intros E. unfold load_rec, load_json in Hl. rewrite E, Hg in Hl. done.
Qed.

Lemma gone_del t code now st k : code_gone t code st -> code_gone t code (dv_with_redis st (vdel now k (dv_redis st))).
Proof.
  intros Hg n. cbn [dv_redis dv_with_redis].
  destruct (decide (k = key t code)) as [->|Hne]; [apply vget_del|]. rewrite vget_del_ne by done. apply Hg.
Qed.

Lemma gone_poll_loaded t code now st t' h rec :
  code_gone t code st -> load_rec now st (device_code t' h) = Some rec ->
  code_gone t code (poll_loaded now now st t' h rec).2.
Proof.
  intros Hg Hl. unfold poll_loaded, vgetdel.
  pose proof (gone_del t code now st (device_code t' h) Hg) as Hg1.
  pose proof (gone_del t code now _ (device_user_code t' (d_user_code rec)) Hg1) as Hg2.
  repeat case_match; try done; by eapply code_gone_store.
Qed.

Lemma gone_run t code now op st :
  code_gone t code st -> not_redrawn t code op -> code_gone t code (run_dev now op st).2.
Proof.
  intros Hg Hn. destruct op as [bytes supply id t' c pub scopes aud|t' typed ip|t' h s acting scopes|t' h|t' c code'];
    cbn [run_dev].
  - intros n. unfold issue_device. pose proof (claim_vget 8 0 now n t' (device_hash sha256 b64 (b64 bytes)) supply (dv_redis st) t code) as Hc.
    destruct (claim _ _ _ _ _ _ _) as [uc db]. cbn [snd] in *. cbn [dv_redis dv_with_rows store_rec dv_with_redis].
    rewrite vget_set_ne by done. rewrite Hc. apply Hg.
  - unfold find_by_user_code. destruct (vincr _ _ _) as [g cd]. by repeat case_match.
  - unfold approve. destruct (load_rec now st (device_code t' h)) as [rec|] eqn:E; [|done].
    case_match; [|done]. cbn [approve_store snd]. by apply (code_gone_store t code now st t' h rec Hg E).
  - unfold deny. destruct (load_rec now st (device_code t' h)) as [rec|] eqn:E; [|done].
    case_match; [|done]. by apply (code_gone_store t code now st t' h rec Hg E).
  - unfold poll. case_match; [done|]. destruct (load_rec _ _ _) as [rec|] eqn:E; [|done].
    case_match; [done|]. by apply gone_poll_loaded.
Qed.

Lemma poll_gone t code now st c : code_gone t code st -> (poll sha256 b64 now st t c code).1 = None.
Proof.
  intros Hg. unfold poll. case_match; [done|]. unfold load_rec, load_json. by rewrite Hg.
Qed.

Lemma poll_approved_gone t code now st c rec a :
  (poll sha256 b64 now st t c code).1 = Some (PollApproved rec a) ->
  code_gone t code (poll sha256 b64 now st t c code).2.
Proof.
  unfold poll. case_match; [done|]. destruct (load_rec _ _ _) as [r|]; [|done].
  case_match; [done|]. unfold poll_loaded, vgetdel.
  repeat case_match; cbn [fst]; try discriminate;
    intros _ n; cbn [dv_redis dv_with_rows dv_with_redis snd];
    (rewrite vget_del_ne by apply user_key_ne); apply vget_del.
Qed.

Lemma gone_grants t code ops st :
  code_gone t code st -> Forall (fun o => not_redrawn t code o.2) ops -> grants t code ops st = 0%nat.
Proof.
  intros Hg Hops. revert st Hg. induction Hops as [|[now op] ops Hn _ IH]; intros st Hg; [done|].
  cbn [grants]. rewrite IH by (by apply gone_run). unfold earned.
  destruct op as [| | | |t' c code']; try done. cbn [run_dev].
  destruct (poll sha256 b64 now st t' c code').1 as [[rec a| | | |]|] eqn:E; try done.
  case_bool_decide as Hb; [|done]. destruct Hb as [-> ->]. by rewrite poll_gone in E.
Qed.

Lemma grants_once t code ops st :
  Forall (fun o => not_redrawn t code o.2) ops -> (grants t code ops st <= 1)%nat.
Proof.
  intros Hops. revert st. induction Hops as [|[now op] ops Hn Hops IH]; intros st; [cbn; lia|].
  cbn [grants]. unfold earned. destruct op as [| | | |t' c code']; try apply IH. cbn [run_dev].
  destruct (poll sha256 b64 now st t' c code').1 as [[rec a| | | |]|] eqn:E; try apply IH.
  case_bool_decide as Hb; [|apply IH]. destruct Hb as [-> ->].
  rewrite gone_grants; [lia| |done]. by eapply poll_approved_gone.
Qed.
End histories.

(** ** Theorems *)

(** user codes are read as they are shown. Every code the server can draw
    normalizes to itself, and whatever a user types that is accepted stands
    for a code in that same form. *)
Theorem normalize_codes (picks : list nat) (typed shown : string) :
  (Forall (fun i => (i < 20)%nat) picks /\ length picks = USER_CODE_LEN ->
   normalize_user_code (random_user_code picks) = Some (random_user_code picks))
  /\ (normalize_user_code typed = Some shown -> normalize_user_code shown = Some shown).
Proof.
  split.
  - intros [Hp Hn]. apply normalize_dashed; [|by rewrite length_fmap].
    apply Forall_fmap. eapply Forall_impl; [exact Hp|]. intros i Hi. cbn [compose].
    apply list_elem_of_In, nth_In. exact Hi.
  - unfold normalize_user_code at 1. case_match eqn:E; [done|]. bool_hyps. intros [= <-].
    apply normalize_dashed; [|by apply Nat.eqb_eq].
    apply Forall_forall. intros c Hc.
    match goal with Hf : forallb _ _ = true |- _ =>
      rewrite forallb_forall in Hf; specialize (Hf c (proj1 (list_elem_of_In _ _) Hc)) end.
    by bool_hyps.
Qed.

(** a device code earns tokens once. Along any history in which the
    operations run one after another and the device code is not drawn again,
    at most one poll with it is answered with an approval. *)
Theorem device_code_single_use `{ValkeyLaws} `{Counters} `{UuidDisplay} `{!Serde DeviceRecord}
    `{!Serde string} (sha256 : string -> list Z) (b64 : list Z -> string)
    (b64_colonless : forall l, colonless (b64 l) = true)
    (t : Uuid) (code : string) (ops : list (Z * DevOp)) (st : DevState) :
  Forall (fun o => not_redrawn sha256 b64 t code o.2) ops ->
  (grants sha256 b64 t code ops st <= 1)%nat.
Proof. by apply grants_once. Qed.

(** an approval is lost to a poll that loaded the record before it. When a
    poll has read a pending record and the user approves before the poll
    writes it back, the record is pending again afterwards: the approval is
    gone from the store, though the audit row says approved. *)
Theorem poll_loses_approval `{ValkeyLaws} `{Counters} `{UuidDisplay} `{!Serde DeviceRecord}
    `{!Serde string} (now : Z) (st : DevState) (t : Uuid) (hash : string) (session : SsoSession)
    (acting : option Acting) (scopes : list string) (rec : DeviceRecord) :
  load_rec now st (device_code t hash) = Some rec -> d_status rec = Pending ->
  is_expired rec now = false -> d_last_poll_at rec = None ->
  let approved := (approve now st t hash session acting scopes).2 in
  let o := poll_loaded now now approved t hash rec in
  (exists r a, load_rec now approved (device_code t hash) = Some r /\ d_status r = Approved a)
  /\ o.1 = Some PollPending
  /\ exists r, load_rec now o.2 (device_code t hash) = Some r /\ d_status r = Pending.
Proof.
  intros Hl Hs He Hp. cbv zeta. unfold approve. rewrite Hl. unfold is_pending. rewrite Hs, He.
  cbn [negb andb approve_store snd]. split; [|split].
  - unfold load_rec, load_json. cbn [dv_redis dv_with_rows store_rec dv_with_redis].
    rewrite vget_keepttl_now. cbn [mbind option_bind]. rewrite from_to_json. by eexists _, _.
  - unfold poll_loaded. by rewrite He, Hp, Hs.
  - unfold poll_loaded. rewrite He, Hp, Hs. cbn [snd]. unfold load_rec, load_json.
    cbn [dv_redis dv_with_rows store_rec dv_with_redis]. rewrite vget_keepttl_now.
    cbn [mbind option_bind]. rewrite from_to_json. by eexists.
Qed.

Lemma claim_exhausted `{Valkey} `{UuidDisplay} `{!Serde string} n i now t h supply db :
  (forall j, (i <= j < i + n)%nat -> is_Some (vget now (device_user_code t (supply j)) db)) ->
  claim n i now t h supply db = (supply (i + n)%nat, db).
Proof.
  revert i. induction n as [|n IH]; intros i Hall; cbn [claim]; [by rewrite Nat.add_0_r|].
  unfold vset_nx. destruct (Hall i) as [r ->]; [lia|].
  rewrite IH; [by rewrite Nat.add_succ_r|]. intros j Hj. apply Hall. lia.
Qed.

(** a user code can be handed out twice. When the eight codes [issue] tries
    to claim are in use, it hands out the ninth it drew without claiming it:
    if that one is in use too, the device is shown a code that leads to the
    other pending request. *)
Theorem issue_unclaimed_code `{ValkeyLaws} `{Counters} `{UuidDisplay} `{!Serde DeviceRecord}
    `{!Serde string} (sha256 : string -> list Z) (b64 : list Z -> string)
    (b64_colonless : forall l, colonless (b64 l) = true)
    (now : Z) (bytes : list Z) (supply : nat -> string) (id : Uuid) (st : DevState)
    (t client_id : Uuid) (pub : string) (scopes audiences : list string) (other : string) :
  (forall j, (j < 8)%nat -> is_Some (vget now (device_user_code t (supply j)) (dv_redis st))) ->
  load_json now (device_user_code t (supply 8%nat)) (dv_redis st) = Some other ->
  let o := issue_device sha256 b64 now bytes supply id st t client_id pub scopes audiences in
  o.1.2 = supply 8%nat
  /\ load_json now (device_user_code t o.1.2) (dv_redis o.2) = Some other.
Proof.
  intros Hall Hother. cbv zeta. unfold issue_device.
  rewrite (claim_exhausted 8 0) by (intros j Hj; apply Hall; lia). cbn [fst snd]. split; [done|].
  change (0 + 8)%nat with 8%nat. unfold load_json.
  cbn [dv_redis dv_with_rows store_rec dv_with_redis].
  rewrite vget_set_ne; [exact Hother|]. by apply not_eq_sym, user_key_ne.
Qed.

(** *** Guesses at user codes *)

(** Attempts from one address, at their times: how many are answered other
    than by [RateLimited]. *)
Fixpoint answered `{Valkey} `{Counters} `{UuidDisplay} `{!Serde DeviceRecord} `{!Serde string}
    (t : Uuid) (ip : option string) (tries : list (Z * string)) (st : DevState) : Z :=
  match tries with
  | [] => 0
  | (now, typed) :: tries =>
      (match (find_by_user_code now st t typed ip).1 with Ok _ => 1 | Err _ => 0 end)
      + answered t ip tries (find_by_user_code now st t typed ip).2
  end.

Section guesses.
Context `{Valkey} `{CountersLaws} `{UuidDisplay} `{!Serde DeviceRecord} `{!Serde string}.

Abbreviation gkey t ip := (device_guesses t (default "unknown"%string ip)).

Lemma guess_counted now st t typed ip n x :
  vcount now (gkey t ip) (dv_guesses st) = Some (n, Some x) -> 0 < n ->
  vcount now (gkey t ip) (dv_guesses (find_by_user_code now st t typed ip).2) = Some (n + 1, Some x)
  /\ ((find_by_user_code now st t typed ip).1 = Err (RateLimited GUESS_WINDOW_SECS) <-> GUESS_LIMIT <= n).
Proof.
  intros Hc Hn. unfold find_by_user_code. pose proof (vincr_value now (gkey t ip) (dv_guesses st)) as Hv.
  pose proof (vincr_count now (gkey t ip) (dv_guesses st)) as Hcc. rewrite Hc in Hv, Hcc.
  destruct (vincr now (gkey t ip) (dv_guesses st)) as [g cd]. cbn [fst snd] in *. subst g.
  rewrite (proj2 (Z.eqb_neq _ _)) by lia.
  destruct (Z.ltb_spec GUESS_LIMIT (n + 1)); cbn [fst snd dv_guesses]; (split; [done|]); split; try done; lia.
Qed.

Lemma guess_first now st t typed ip :
  vcount now (gkey t ip) (dv_guesses st) = None ->
  vcount now (gkey t ip) (dv_guesses (find_by_user_code now st t typed ip).2)
  = Some (1, Some (now + 600000)).
Proof.
  intros Hc. unfold find_by_user_code. pose proof (vincr_value now (gkey t ip) (dv_guesses st)) as Hv.
  pose proof (vincr_count now (gkey t ip) (dv_guesses st)) as Hcc. rewrite Hc in Hv, Hcc.
  destruct (vincr now (gkey t ip) (dv_guesses st)) as [g cd]. cbn [fst snd] in *. subst g.
  cbn [Z.eqb Pos.eqb snd dv_guesses GUESS_LIMIT Z.ltb Z.compare Pos.compare Pos.compare_cont].
  by eapply vpexpire_count.
Qed.

Lemma answered_within t ip x now0 st tries n :
  vcount now0 (gkey t ip) (dv_guesses st) = Some (n, Some x) -> 0 < n ->
  Forall (fun a => now0 <= a.1 < x) tries -> Sorted Z.le (fst <$> tries) ->
  answered t ip tries st <= Z.max 0 (10 - n).
Proof.
  revert now0 st n. induction tries as [|[now typed] tries IH]; intros now0 st n Hc Hn Hw Hs; [cbn; lia|].
  apply Forall_cons in Hw as [Hnow Hw]. cbn [fst] in Hnow. cbn [fmap list_fmap] in Hs.
  assert (vcount now (gkey t ip) (dv_guesses st) = Some (n, Some x)) as Hc'.
  { rewrite (vcount_later now0 now) by lia. rewrite Hc. by rewrite (proj2 (Z.ltb_lt _ _)) by lia. }
  destruct (guess_counted now st t typed ip n x Hc' Hn) as [Hc2 Hlim].
  cbn [answered].
  assert (answered t ip tries (find_by_user_code now st t typed ip).2 <= Z.max 0 (10 - (n + 1))) as Hrest.
  { apply (IH now _ (n + 1) Hc2); [lia| |by inversion Hs].
    apply Sorted_extends in Hs; [|intros a b c; lia].
    apply Forall_forall. intros a Ha. rewrite Forall_forall in Hw. split; [|by apply Hw].
    rewrite Forall_fmap, Forall_forall in Hs. by apply Hs. }
  unfold GUESS_LIMIT in Hlim. destruct (find_by_user_code now st t typed ip).1 as [o|e] eqn:E.
  - destruct (Z.lt_ge_cases n 10) as [|Hge]; [lia|]. by apply Hlim in Hge.
  - lia.
Qed.
End guesses.

(** an address gets ten guesses per window. However many user codes an
    address without a running window tries within ten minutes, at most ten
    are answered; the rest are rate-limited. *)
Theorem guesses_limited `{Valkey} `{CountersLaws} `{UuidDisplay} `{!Serde DeviceRecord} `{!Serde string}
    (t : Uuid) (ip : option string) (now : Z) (typed : string) (tries : list (Z * string)) (st : DevState) :
  vcount now (device_guesses t (default "unknown"%string ip)) (dv_guesses st) = None ->
  Forall (fun a => now <= a.1 < now + 600000) tries -> Sorted Z.le (fst <$> tries) ->
  answered t ip ((now, typed) :: tries) st <= 10.
Proof.
  intros Hc Hw Hs. cbn [answered]. pose proof (guess_first now st t typed ip Hc) as H1'.
  pose proof (answered_within t ip (now + 600000) now _ tries 1 H1' ltac:(lia) Hw Hs).
  case_match; lia.
Qed.

(** ** Witnesses *)

Definition dv_valkey : Valkey := map_valkey (R := DeviceRecord + string).
Definition dv_serde : @Serde dv_valkey DeviceRecord :=
  {| to_json r := inl r : @raw dv_valkey;
     from_json r := match r with inl r => Some r | inr _ => None end;
     from_to_json _ := eq_refl |}.
Definition dv_serde_hash : @Serde dv_valkey string :=
  {| to_json h := inr h : @raw dv_valkey;
     from_json r := match r with inr h => Some h | inl _ => None end;
     from_to_json _ := eq_refl |}.
Definition dv_sha (s : string) : list Z := [Z.of_nat (String.length s)].
Definition dv_b64 (bytes : list Z) : string := unary (Z.to_nat (foldl Z.add 1 bytes)).
Definition dv_empty : @DevState dv_valkey map_counters :=
  @mkDevState dv_valkey map_counters (∅ : gmap string _) (∅ : gmap string _) [].
Definition dv_codes (i : nat) : string := random_user_code [i; 1; 2; 3; 4; 5; 6; 7]%nat.
Definition dv_code : string := dv_b64 [3].
Definition dv_hash : string := device_hash dv_sha dv_b64 dv_code.
Definition dv_session : SsoSession :=
  mkSsoSession 10 1 5 0 [] None None None None None None 0 0 43200000 1800000.

(** A pending request of client 2, shown the first user code. *)
Definition dv_issue (now : Z) (bytes : list Z) (st : @DevState dv_valkey map_counters) :=
  (@issue_device dv_valkey map_counters toy_uuid dv_serde dv_serde_hash dv_sha dv_b64 now bytes
     dv_codes 20 st 1 2 "tv" ["openid"%string] []).2.
Definition dv_pending : @DevState dv_valkey map_counters := dv_issue 0 [3] dv_empty.
Definition dv_record : DeviceRecord :=
  mkDeviceRecord 20 1 2 "tv" ["openid"%string] [] (dv_codes 0) 5 0 600000 Pending None.
Definition dv_run (ops : list (Z * DevOp)) :=
  @grants dv_valkey map_counters toy_uuid dv_serde dv_serde_hash dv_sha dv_b64 1 dv_code ops dv_pending.

Lemma dv_b64_colonless l : colonless (dv_b64 l) = true.
Proof. apply unary_colonless. Qed.

(** The user approves between two polls: one grant, and no second one. *)
Definition dv_history : list (Z * DevOp) :=
  [(1000, DPoll 1 2 dv_code); (3000, DApprove 1 dv_hash dv_session None ["openid"%string]);
   (7000, DPoll 1 2 dv_code); (13000, DPoll 1 2 dv_code)].

Example dv_history_grants : dv_run dv_history = 1%nat.
Proof. vm_compute. reflexivity. Qed.

Lemma device_code_single_use_witness : le (dv_run dv_history) 1.
Proof.
  apply (@device_code_single_use dv_valkey map_valkey_laws map_counters toy_uuid dv_serde
    dv_serde_hash dv_sha dv_b64 dv_b64_colonless).
  repeat constructor.
Defined.

Lemma poll_loses_approval_witness :
  let approved := (@approve dv_valkey map_counters toy_uuid dv_serde 1000 dv_pending 1 dv_hash
                     dv_session None []).2 in
  let o := @poll_loaded dv_valkey map_counters toy_uuid dv_serde 1000 1000 approved 1 dv_hash dv_record in
  (exists r a, @load_rec dv_valkey map_counters dv_serde 1000 approved (@device_code toy_uuid 1 dv_hash) = Some r
               /\ d_status r = Approved a)
  /\ o.1 = Some PollPending
  /\ exists r, @load_rec dv_valkey map_counters dv_serde 1000 o.2 (@device_code toy_uuid 1 dv_hash) = Some r
               /\ d_status r = Pending.
Proof.
  apply (@poll_loses_approval dv_valkey map_valkey_laws map_counters toy_uuid dv_serde dv_serde_hash
    1000 dv_pending 1 dv_hash dv_session None [] dv_record); vm_compute; reflexivity.
Defined.

Definition dv_taken : @DevState dv_valkey map_counters :=
  @mkDevState dv_valkey map_counters
    (foldr (fun j db => @vset_px dv_valkey 0 (@device_user_code toy_uuid 1 (dv_codes j)) (inr "other"%string)
                          600000 db) (∅ : gmap string _) (seq 0 9)) (∅ : gmap string _) [].

Lemma issue_unclaimed_code_witness :
  let o := @issue_device dv_valkey map_counters toy_uuid dv_serde dv_serde_hash dv_sha dv_b64 1000 [3]
             dv_codes 20 dv_taken 1 2 "tv" [] [] in
  o.1.2 = dv_codes 8
  /\ @load_json dv_valkey string dv_serde_hash 1000 (@device_user_code toy_uuid 1 o.1.2) (dv_redis o.2)
     = Some "other"%string.
Proof.
  apply (@issue_unclaimed_code dv_valkey map_valkey_laws map_counters toy_uuid dv_serde
    dv_serde_hash dv_sha dv_b64 dv_b64_colonless 1000 [3] dv_codes 20 dv_taken 1 2 "tv" [] [] "other").
  - intros j Hj. do 8 (destruct j as [|j]; [by eexists; vm_compute; reflexivity|]). lia.
  - vm_compute. reflexivity.
Defined.

Definition dv_tries : list (Z * string) := (fun n => (Z.of_nat n * 1000, "XXXX"%string)) <$> seq 1 20.

Lemma guesses_limited_witness :
  @answered dv_valkey map_counters toy_uuid dv_serde dv_serde_hash 1 None ((0, "XXXX"%string) :: dv_tries)
    dv_empty <= 10.
Proof.
  apply (@guesses_limited dv_valkey map_counters map_counters_laws toy_uuid dv_serde dv_serde_hash).
  - reflexivity.
  - decide_now.
  - vm_compute. repeat constructor; discriminate.
Defined.

(** ** An interleaving of two polls *)

(** The record was polled at 0 and approved at 1 s. A poll reads it at 4 s,
    too early by a second, and stalls; a second poll takes the approval at
    6 s; the first one's write lands at 6.5 s. *)
Definition dv_before : @DevState dv_valkey map_counters :=
  (@approve dv_valkey map_counters toy_uuid dv_serde 1000
     (@poll dv_valkey map_counters toy_uuid dv_serde dv_sha dv_b64 0 dv_pending 1 2 dv_code).2 1 dv_hash
     dv_session None ["openid"%string]).2.
Definition dv_early : option DeviceRecord :=
  @load_rec dv_valkey map_counters dv_serde 4000 dv_before (@device_code toy_uuid 1 dv_hash).
Definition dv_first_poll : option Poll * @DevState dv_valkey map_counters :=
  @poll dv_valkey map_counters toy_uuid dv_serde dv_sha dv_b64 6000 dv_before 1 2 dv_code.
Definition dv_late_write : option Poll * @DevState dv_valkey map_counters :=
  match dv_early with
  | Some rec => @poll_loaded dv_valkey map_counters toy_uuid dv_serde 4000 6500 dv_first_poll.2 1 dv_hash rec
  | None => (None, dv_first_poll.2)
  end.
Definition dv_second_poll : option Poll * @DevState dv_valkey map_counters :=
  @poll dv_valkey map_counters toy_uuid dv_serde dv_sha dv_b64 20000 dv_late_write.2 1 2 dv_code.

Definition is_approved (p : option Poll) : bool :=
  match p with Some (PollApproved _ _) => true | _ => false end.

(** with polls that overlap, a device code can earn tokens twice. A poll
    answered [slow_down] writes back the approved record it had read, after
    another poll took it: the next poll is answered with the approval again. *)
Theorem device_code_spent_twice :
  is_approved dv_first_poll.1 = true /\ dv_late_write.1 = Some PollSlowDown
  /\ is_approved dv_second_poll.1 = true.
Proof. vm_compute. repeat split. Qed.
