(* ===== verification/RateLimit.v ===== *)
(** * Request ceilings

    Models [api/src/services/rate_limit.rs]: fixed windows counted in Valkey
    by a script per bucket, one script call per Valkey the buckets live on,
    and the decision over the tightest bucket. *)

From Stdlib Require Import Ascii Sorted.
From stdpp Require Import gmap strings.
From S2P Require Import Prelude Valkey.

Inductive Category := Token | Authorize | Flows.

Definition as_str (c : Category) : string :=
  match c with Token => "token" | Authorize => "authorize" | Flows => "flows" end.

Record RateLimitPolicy := mkRateLimitPolicy {
  rl_enabled : bool;
  window_secs : Z;
  token_per_ip : Z;
  token_per_client : Z;
  authorize_per_ip : Z;
  flows_per_ip : Z;
  tenant_total : Z
}.

(** [RateLimitConfig]. *)
Record RateLimitConfig := mkRateLimitConfig { cfg_enabled : bool; ip_per_minute : Z }.

Definition per_ip (c : Category) (p : RateLimitPolicy) : Z :=
  match c with Token => token_per_ip p | Authorize => authorize_per_ip p | Flows => flows_per_ip p end.

Record Bucket := mkBucket { b_limit : Z; b_remaining : Z; b_reset_secs : Z; b_exceeded : bool }.
Record Decision := mkDecision { tightest : option Bucket; retry_after_secs : option Z }.
Definition UNLIMITED : Decision := mkDecision None None.
Definition allowed (d : Decision) : bool := bool_decide (retry_after_secs d = None).

Record Want := mkWant { w_key : string; w_limit : Z; w_window_ms : Z }.

Definition window_ms (p : RateLimitPolicy) : Z := Z.min (Z.max (window_secs p) 1) 3600 * 1000.

(** The tenant of a request: its id and its policy. *)
Record RlTenant := mkRlTenant { rl_id : Uuid; rl_policy : RateLimitPolicy }.

Section limits.
Context `{Counters} `{UuidDisplay}.

Definition rate_limit (bucket : string) : string := (PREFIX ++ ":rl:" ++ bucket)%string.
Definition tenant_rate_limit (tenant_id : Uuid) (bucket : string) : string :=
  (PREFIX ++ ":t:" ++ uuid_str tenant_id ++ ":rl:" ++ bucket)%string.

(** [buckets]. *)
Definition buckets (cfg : RateLimitConfig) (tenant : option RlTenant) (category : Category)
    (ip : option string) : list Want :=
  if negb (cfg_enabled cfg) then []
  else
    let wants :=
      match ip with
      | Some ip => if 0 <? ip_per_minute cfg
                   then [mkWant (rate_limit ("ip:" ++ ip)) (ip_per_minute cfg) 60000] else []
      | None => []
      end in
    match tenant with
    | None => wants
    | Some tenant =>
        let policy := rl_policy tenant in
        if negb (rl_enabled policy) then wants
        else
          wants
          ++ match ip with
             | Some ip => if 0 <? per_ip category policy
                 then [mkWant (tenant_rate_limit (rl_id tenant) (as_str category ++ ":ip:" ++ ip))
                         (per_ip category policy) (window_ms policy)] else []
             | None => []
             end
          ++ (if 0 <? tenant_total policy
              then [mkWant (tenant_rate_limit (rl_id tenant) "all") (tenant_total policy) (window_ms policy)]
              else [])
    end.

(** The script [HIT] on one key: the count and the time left. *)
Definition hit_script (now : Z) (db : cdb) (w : Want) : (Z * Z) * cdb :=
  let '(n, db) := vincr now (w_key w) db in
  let db := if n =? 1 then vpexpire now (w_key w) (w_window_ms w) db else db in
  let ttl := vpttl now (w_key w) db in
  if ttl <? 0 then ((n, w_window_ms w), vpexpire now (w_key w) (w_window_ms w) db)
  else ((n, ttl), db).

(** A count and the milliseconds left, as unsigned integers. *)
Definition pair_of (p : option (Z * Z)) : Z * Z :=
  match p with
  | Some (n, ttl) => ((if n <? 0 then 2 ^ 64 - 1 else n), Z.max ttl 0)
  | None => (0, 0)
  end.

(** The script [HIT_MANY], and [count_each]: one key after another. *)
Fixpoint hit_many (now : Z) (db : cdb) (ws : list Want) : list (Z * Z) * cdb :=
  match ws with
  | [] => ([], db)
  | w :: ws =>
      let '(p, db) := hit_script now db w in
      let '(ps, db) := hit_many now db ws in
      (p :: ps, db)
  end.

Definition count_each (now : Z) (db : cdb) (ws : list Want) : list (Z * Z) * cdb :=
  let '(ps, db) := hit_many now db ws in ((fun p => pair_of (Some p)) <$> ps, db).

(** The tenant a key belongs to: [ridm:t:{uuid}:...]. *)
Definition key_tenant (key : string) : option Uuid :=
  let prefix := (PREFIX ++ ":t:")%string in
  if negb (String.prefix prefix key) then None
  else
    let rest := String.substring (String.length prefix) (String.length key) key in
    if (String.length rest <? 36)%nat then None
    else
      match String.get 36 rest with
      | Some c => if bool_decide (c = ":"%char) then parse_str (String.substring 0 36 rest) else None
      | None => parse_str (String.substring 0 36 rest)
      end.

(** The loop of [count] over the groups: each group is one script call, and
    its answers go to the slots of its buckets. *)
Fixpoint count_groups (now : Z) (ws : list Want) (groups : list (list nat)) (out : list (Z * Z))
    (db : cdb) : list (Z * Z) * cdb :=
  match groups with
  | [] => (out, db)
  | group :: groups =>
      let '(flat, db) := hit_many now db (omap (fun i => ws !! i) group) in
      let out := foldl (fun out '(slot, i) => <[i := pair_of (flat !! slot)]> out) out
                   (zip (seq 0 (length group)) group) in
      count_groups now ws groups out db
  end.

(** Does the [i]-th bucket live with its tenant? *)
Definition is_tenant (ws : list Want) (i : nat) : bool :=
  match ws !! i with Some w => bool_decide (is_Some (key_tenant (w_key w))) | None => false end.

(** The buckets of one script call each: [cluster] and [same_backend] describe
    the deployment. *)
Definition calls (cluster same_backend : bool) (ws : list Want) : list (list nat) :=
  let all := seq 0 (length ws) in
  if cluster then (fun i => [i]) <$> all
  else if same_backend then [all]
  else filter (fun g => g <> [])
         [filter (fun i => Is_true (negb (is_tenant ws i))) all;
          filter (fun i => Is_true (is_tenant ws i)) all].
(** [count] when every call is answered. *)
Definition counted (cluster same_backend : bool) (now : Z) (ws : list Want) (db : cdb)
    : list (Z * Z) * cdb :=
  if cluster then count_each now db ws
  else count_groups now ws (calls cluster same_backend ws) (replicate (length ws) (0, 0)) db.
(** [count]; with [broken = Some k] Valkey fails after it ran the first [k]
    calls, whether or not the last of them was answered. *)
Definition count (cluster same_backend : bool) (broken : option nat) (now : Z) (ws : list Want) (db : cdb)
    : option (list (Z * Z)) * cdb :=
  match broken with
  | Some k => (None, (hit_many now db (omap (fun i => ws !! i) (concat (take k (calls cluster same_backend ws))))).2)
  | None => let '(counts, db) := counted cluster same_backend now ws db in (Some counts, db)
  end.

(** [u64::div_ceil]. *)
Definition div_ceil (a b : Z) : Z := (a + (b - 1)) / b.

Definition bucket_of (w : Want) (c : Z * Z) : Bucket :=
  let '(n, ttl_ms) := c in
  let remaining := Z.max (w_limit w - n) 0 in
  mkBucket (w_limit w) (if remaining <? 2 ^ 32 then remaining else 2 ^ 32 - 1)
    (Z.max (div_ceil ttl_ms 1000) 1) (w_limit w <? n).

(** One turn of the loop of [decide]. *)
Definition decide_step (acc : option Bucket * option Z) (wc : Want * (Z * Z)) : option Bucket * option Z :=
  let '(tight, retry) := acc in
  let bucket := bucket_of wc.1 wc.2 in
  let retry := if b_exceeded bucket
    then Some (match retry with Some r => Z.max r (b_reset_secs bucket) | None => b_reset_secs bucket end)
    else retry in
  let tighter := match tight with None => true | Some t => b_remaining bucket <? b_remaining t end in
  ((if tighter then Some bucket else tight), retry).

Definition decide (ws : list Want) (counts : list (Z * Z)) : Decision :=
  let '(tight, retry) := foldl decide_step (None, None) (zip ws counts) in
  mkDecision tight retry.

(** [run]: without an answer from Valkey the request is allowed. *)
Definition run (cluster same_backend : bool) (broken : option nat) (now : Z) (ws : list Want) (db : cdb) : Decision * cdb :=
  if bool_decide (ws = []) then (UNLIMITED, db)
  else
    let '(counts, db) := count cluster same_backend broken now ws db in
    (match counts with Some counts => decide ws counts | None => UNLIMITED end, db).

Definition hit (cfg : RateLimitConfig) (cluster same_backend : bool) (broken : option nat) (now : Z) (tenant : option RlTenant)
    (category : Category) (ip : option string) (db : cdb) : Decision * cdb :=
  run cluster same_backend broken now (buckets cfg tenant category ip) db.

Definition hit_client (cfg : RateLimitConfig) (cluster same_backend : bool) (broken : option nat) (now : Z)
    (tenant : RlTenant) (client : Uuid) (db : cdb) : Decision * cdb :=
  let policy := rl_policy tenant in
  if negb (cfg_enabled cfg) || negb (rl_enabled policy) || (token_per_client policy =? 0)
  then (UNLIMITED, db)
  else run cluster same_backend broken now
         [mkWant (tenant_rate_limit (rl_id tenant) ("client:" ++ uuid_str client))
            (token_per_client policy) (window_ms policy)] db.

(** [validate_policy]. *)
Definition validate_policy (p : RateLimitPolicy) : bool := (1 <=? window_secs p) && (window_secs p <=? 3600).
End limits.

(** ** Lemmas *)

(** Membership in a list with one more element. *)
Ltac in_snoc :=
  apply elem_of_app; first [left; assumption | right; by apply list_elem_of_singleton].

(** The decision over a list of buckets, one by one. *)
Definition bucket_list (l : list (Want * (Z * Z))) : list Bucket := (fun wc => bucket_of wc.1 wc.2) <$> l.

Record decided (bs : list Bucket) (tight : option Bucket) (retry : option Z) : Prop := {
  de_tight_none : tight = None <-> bs = [];
  de_tight t : tight = Some t -> t ∈ bs /\ forall b, b ∈ bs -> b_remaining t <= b_remaining b;
  de_retry_none : retry = None <-> forall b, b ∈ bs -> b_exceeded b = false;
  de_retry r : retry = Some r ->
    (exists b, b ∈ bs /\ b_exceeded b = true /\ b_reset_secs b = r)
    /\ forall b, b ∈ bs -> b_exceeded b = true -> b_reset_secs b <= r
}.

Lemma decided_step bs tight retry wc :
  decided bs tight retry ->
  decided (bs ++ [bucket_of wc.1 wc.2]) (decide_step (tight, retry) wc).1 (decide_step (tight, retry) wc).2.
Proof.
  intros [Htn Ht Hrn Hr]. unfold decide_step. set (b := bucket_of wc.1 wc.2). cbn [fst snd].
  split.
  - destruct tight as [t|].
    + case_match; (split; [done|]); by intros [_ ?]%app_nil.
    + cbn. split; [done|]. by intros [_ ?]%app_nil.
  - intros t0. destruct tight as [t|].
    + destruct (Ht t eq_refl) as [Hin Hmin].
      destruct (Z.ltb_spec (b_remaining b) (b_remaining t)); intros [= <-]; (split; [in_snoc|]);
        intros b' [Hb| ->%list_elem_of_singleton]%elem_of_app; try lia;
        specialize (Hmin b' Hb); lia.
    + intros [= <-]. split; [in_snoc|]. assert (bs = []) as -> by (by apply Htn).
      by intros b' ->%list_elem_of_singleton.
  - destruct (b_exceeded b) eqn:Eb.
    + split; [done|]. intros Hall. rewrite (Hall b) in Eb; [done|in_snoc].
    + rewrite Hrn. split.
      * by intros Hall b' [?| ->%list_elem_of_singleton]%elem_of_app; [apply Hall|].
      * intros Hall b' Hb. apply Hall. in_snoc.
  - intros r0. destruct (b_exceeded b) eqn:Eb.
    + intros [= <-]. destruct retry as [r|].
      * destruct (Hr r eq_refl) as [(b0 & Hb0 & He0 & Hr0) Hmax]. split.
        -- destruct (Z.max_spec r (b_reset_secs b)) as [[_ Em]|[_ Em]]; rewrite Em;
             [exists b; split; [in_snoc|done]|exists b0; split; [in_snoc|done]].
        -- intros b' [Hb| ->%list_elem_of_singleton]%elem_of_app He; [|lia].
           specialize (Hmax b' Hb He). lia.
      * split; [exists b; split; [in_snoc|done]|].
        intros b' [Hb| ->%list_elem_of_singleton]%elem_of_app He; [|lia].
        rewrite (proj1 Hrn eq_refl b' Hb) in He. done.
    + intros ->. destruct (Hr r0 eq_refl) as [(b0 & Hb0 & He0 & Hr0) Hmax].
      split; [exists b0; split; [in_snoc|done]|].
      intros b' [Hb| ->%list_elem_of_singleton]%elem_of_app He; [by apply Hmax|congruence].
Qed.

Lemma foldl_decided l :
  decided (bucket_list l) (foldl decide_step (None, None) l).1 (foldl decide_step (None, None) l).2.
Proof.
  induction l as [|wc l IH] using rev_ind.
  - split; try done. split; [|done]. intros _ b Hb. by apply not_elem_of_nil in Hb.
  - unfold bucket_list. rewrite fmap_app, foldl_snoc.
    destruct (foldl decide_step (None, None) l) as [tight retry]. by apply decided_step.
Qed.

(** What one hit answers and leaves behind, from what the key held. *)
Definition after_hit (now window : Z) (c : option (Z * option Z)) : (Z * Z) * (Z * Z) :=
  match c with
  | Some (n, Some x) =>
      if n =? 0 then ((1, window), (1, now + window)) else ((n + 1, x - now), (n + 1, x))
  | Some (n, None) => ((n + 1, window), (n + 1, now + window))
  | None => ((1, window), (1, now + window))
  end.

Section hits.
Context `{CountersLaws} `{UuidDisplay}.

Lemma vcount_live now k db n x : vcount now k db = Some (n, Some x) -> now < x.
Proof.
  intros E. pose proof (vcount_later now now k db ltac:(lia)) as Hl. rewrite E in Hl.
  by destruct (Z.ltb_spec now x).
Qed.

(** A counter always gets an end to its window. *)
Lemma hit_script_spec now db w :
  0 < w_window_ms w ->
  (hit_script now db w).1 = (after_hit now (w_window_ms w) (vcount now (w_key w) db)).1
  /\ vcount now (w_key w) (hit_script now db w).2
     = Some ((after_hit now (w_window_ms w) (vcount now (w_key w) db)).2.1,
             Some (after_hit now (w_window_ms w) (vcount now (w_key w) db)).2.2).
Proof.
  intros Hw. unfold hit_script.
  pose proof (vincr_value now (w_key w) db) as Hv. pose proof (vincr_count now (w_key w) db) as Hc.
  destruct (vincr now (w_key w) db) as [n db1]. cbn [fst snd] in Hv, Hc.
  assert (forall m y, vcount now (w_key w) db1 = Some (m, y) ->
    let db2 := vpexpire now (w_key w) (w_window_ms w) db1 in
    vcount now (w_key w) db2 = Some (m, Some (now + w_window_ms w))
    /\ vpttl now (w_key w) db2 = w_window_ms w) as Hex.
  { intros m y E db2. pose proof (vpexpire_count now (w_key w) (w_window_ms w) m y db1 Hw E) as E2.
    split; [done|]. subst db2. rewrite vpttl_count, E2. lia. }
  destruct (vcount now (w_key w) db) as [[m [x|]]|] eqn:E; cbn [after_hit]; subst n.
  - apply vcount_live in E. destruct (Z.eqb_spec m 0) as [->|Hm]; cbn [fst snd].
    + change (0 + 1 =? 1) with true. cbn iota. destruct (Hex _ _ Hc) as [E2 Ep]. rewrite Ep.
      rewrite (proj2 (Z.ltb_ge _ _)) by lia. done.
    + rewrite (proj2 (Z.eqb_neq _ _)) by lia. rewrite vpttl_count, Hc.
      rewrite (proj2 (Z.ltb_ge _ _)) by lia. done.
  - destruct (Hex _ _ Hc) as [E2 Ep]. destruct (m + 1 =? 1).
    + rewrite Ep. rewrite (proj2 (Z.ltb_ge _ _)) by lia. done.
    + rewrite vpttl_count, Hc. done.
  - change (1 =? 1) with true. cbn iota. destruct (Hex _ _ Hc) as [E2 Ep]. rewrite Ep.
    rewrite (proj2 (Z.ltb_ge _ _)) by lia. done.
Qed.

Lemma hit_script_ne now now' db w k :
  w_key w <> k -> vcount now' k (hit_script now db w).2 = vcount now' k db.
Proof.
  intros Hk. unfold hit_script.
  pose proof (vincr_ne now now' (w_key w) k db Hk) as Hi.
  destruct (vincr now (w_key w) db) as [n db1]. cbn [snd] in Hi.
  repeat case_match; cbn [snd]; rewrite ?vpexpire_ne by done; done.
Qed.

(** The answer to each key when the keys are distinct. *)
Definition answer (now : Z) (db : cdb) (w : Want) : Z * Z :=
  (after_hit now (w_window_ms w) (vcount now (w_key w) db)).1.

Lemma hit_many_spec now db ws :
  NoDup (w_key <$> ws) -> Forall (fun w => 0 < w_window_ms w) ws ->
  (hit_many now db ws).1 = answer now db <$> ws
  /\ forall k, k ∉ w_key <$> ws -> vcount now k (hit_many now db ws).2 = vcount now k db.
Proof.
  revert db. induction ws as [|w ws IH]; intros db Hnd Hw; [done|].
  apply NoDup_cons in Hnd as [Hni Hnd]. apply Forall_cons in Hw as [Hw1 Hw].
  cbn [hit_many]. destruct (hit_script_spec now db w Hw1) as [Hp _].
  pose proof (fun k (Hk : w_key w <> k) => hit_script_ne now now db w k Hk) as Hne.
  destruct (hit_script now db w) as [p db1]. cbn [fst snd] in *.
  destruct (IH db1 Hnd Hw) as [Hps Hk].
  destruct (hit_many now db1 ws) as [ps db2]. cbn [fst snd] in *. split.
  - rewrite Hp, Hps. unfold answer at 2. cbn [fmap list_fmap]. f_equal.
    apply list_fmap_ext. intros i w' Hw'. unfold answer. rewrite Hne; [done|].
    intros E. apply Hni. rewrite E. by eapply list_elem_of_fmap_2, list_elem_of_lookup_2.
  - intros k Hk'. apply not_elem_of_cons in Hk' as [Hkw Hk']. rewrite Hk by done. by apply Hne, not_eq_sym.
Qed.

(** *** Groups of buckets *)

Lemma omap_lookup_range (ws : list Want) (g : list nat) j :
  Forall (fun i => (i < length ws)%nat) g ->
  omap (fun i => ws !! i) g !! j = g !! j ≫= (fun i => ws !! i).
Proof.
  intros Hg. revert j. induction Hg as [|i g Hi _ IH]; intros j; [done|].
  cbn [omap list_omap]. apply lookup_lt_is_Some_2 in Hi as [w Hw]. rewrite Hw. cbn.
  destruct j as [|j]; cbn; [by rewrite Hw|]. apply IH.
Qed.

Lemma slots_fold {A} (f : nat -> A) (h : nat -> A) g k (out : list A) :
  (forall j i, g !! j = Some i -> h (k + j)%nat = f i) ->
  foldl (fun out '(slot, i) => <[i := h slot]> out) out (zip (seq k (length g)) g)
  = foldl (fun out i => <[i := f i]> out) out g.
Proof.
  revert k out. induction g as [|i g IH]; intros k out Hh; [done|]. cbn [length seq zip zip_with foldl].
  rewrite <- (Hh 0%nat i) by done. rewrite Nat.add_0_r. apply IH.
  intros j i' Hj. rewrite <- (Hh (S j) i') by done. f_equal. lia.
Qed.

Lemma writes_lookup {A} (f : nat -> A) g (out : list A) i :
  Forall (fun i => (i < length out)%nat) g ->
  foldl (fun out i => <[i := f i]> out) out g !! i
  = if bool_decide (i ∈ g) then Some (f i) else out !! i.
Proof.
  revert out. induction g as [|i0 g IH]; intros out Hg; [done|]. cbn [foldl].
  apply Forall_cons in Hg as [Hi Hg]. rewrite IH by (by rewrite length_insert).
  destruct (base.decide (i ∈ g)) as [Hin|Hni].
  - rewrite !bool_decide_eq_true_2; [done|by right|done].
  - rewrite (bool_decide_eq_false_2 (i ∈ g)) by done. destruct (base.decide (i = i0)) as [->|Hne].
    + rewrite bool_decide_eq_true_2 by left. by apply list_lookup_insert_eq.
    + rewrite list_lookup_insert_ne by done. rewrite bool_decide_eq_false_2; [done|].
      intros [?|?]%elem_of_cons; done.
Qed.

Lemma writes_length {A} (f : nat -> A) g (out : list A) :
  length (foldl (fun out i => <[i := f i]> out) out g) = length out.
Proof. revert out. induction g as [|i g IH]; intros out; [done|]. cbn. by rewrite IH, length_insert. Qed.

(** The answers, by bucket. *)
Definition slot_of (now : Z) (db : cdb) (ws : list Want) (i : nat) : Z * Z :=
  pair_of (answer now db <$> ws !! i).

Lemma keys_in_group (ws : list Want) (g : list nat) k :
  k ∈ w_key <$> omap (fun i => ws !! i) g -> exists i w, i ∈ g /\ ws !! i = Some w /\ w_key w = k.
Proof.
  intros (w & -> & (i & Hi & Hw)%list_elem_of_omap)%list_elem_of_fmap. eauto.
Qed.

Lemma group_keys_nodup (ws : list Want) (g : list nat) :
  NoDup (w_key <$> ws) -> NoDup g -> Forall (fun i => (i < length ws)%nat) g ->
  NoDup (w_key <$> omap (fun i => ws !! i) g).
Proof.
  intros Hk Hg Hr. apply NoDup_alt. intros a b k Ha Hb.
  rewrite list_lookup_fmap, omap_lookup_range in Ha, Hb by done.
  destruct (g !! a) as [ia|] eqn:Ea; [|done]. destruct (g !! b) as [ib|] eqn:Eb; [|done].
  cbn in Ha, Hb. rewrite <- !list_lookup_fmap in *.
  pose proof (NoDup_lookup _ _ _ _ Hk Ha Hb) as ->. by eapply NoDup_lookup.
Qed.

Lemma count_groups_spec now ws groups out db :
  NoDup (w_key <$> ws) -> Forall (fun w => 0 < w_window_ms w) ws ->
  NoDup (concat groups) -> Forall (fun i => (i < length ws)%nat) (concat groups) ->
  length out = length ws ->
  length (count_groups now ws groups out db).1 = length ws
  /\ forall i, (count_groups now ws groups out db).1 !! i
       = if bool_decide (i ∈ concat groups) then Some (slot_of now db ws i) else out !! i.
Proof.
  intros Hk Hw. revert out db. induction groups as [|g groups IH]; intros out db Hnd Hr Hl; [done|].
  cbn [concat] in Hnd, Hr. apply NoDup_app in Hnd as (Hg & Hdisj & Hnd).
  apply Forall_app in Hr as [Hrg Hr]. cbn [count_groups].
  destruct (hit_many_spec now db (omap (fun i => ws !! i) g)) as [Hps Hkeep].
  { by apply group_keys_nodup. }
  { apply Forall_forall. intros w (i & _ & Hi)%list_elem_of_omap.
    rewrite Forall_forall in Hw. apply Hw. by eapply list_elem_of_lookup_2. }
  destruct (hit_many now db (omap (fun i => ws !! i) g)) as [flat db1]. cbn [fst snd] in *. subst flat.
  rewrite (slots_fold (slot_of now db ws)).
  2: { intros j i Hj. cbn [Nat.add]. unfold slot_of. rewrite list_lookup_fmap, omap_lookup_range, Hj by done.
       done. }
  destruct (IH (foldl (fun out i => <[i := slot_of now db ws i]> out) out g) db1) as [Hlen Hlk];
    [done..|by rewrite writes_length|].
  split; [done|]. intros i. rewrite Hlk. cbn [concat].
  destruct (base.decide (i ∈ concat groups)) as [Hin|Hni].
  - rewrite !bool_decide_eq_true_2; [|apply elem_of_app; by right|done].
    unfold slot_of. destruct (ws !! i) as [w|] eqn:Ew; [|done]. cbn. unfold answer.
    rewrite Hkeep; [done|]. intros (j & w' & Hj & Hw' & Ek)%keys_in_group.
    assert (j = i) as ->.
    { eapply (NoDup_lookup (w_key <$> ws)); [done|..]; rewrite list_lookup_fmap.
      - by rewrite Hw'.
      - rewrite Ew. cbn. by rewrite Ek. }
    by destruct (Hdisj i Hj).
  - rewrite (bool_decide_eq_false_2 (i ∈ concat groups)) by done.
    rewrite writes_lookup by (by rewrite Hl). destruct (base.decide (i ∈ g)) as [Hig|Hig].
    + rewrite !bool_decide_eq_true_2; [done|apply elem_of_app; by left|done].
    + rewrite !bool_decide_eq_false_2; [done| |done]. by intros [?|?]%elem_of_app.
Qed.

(** Whatever the deployment, each bucket gets its own answer. *)
Lemma count_spec cluster same now ws db :
  NoDup (w_key <$> ws) -> Forall (fun w => 0 < w_window_ms w) ws ->
  (counted cluster same now ws db).1 = (fun w => pair_of (Some (answer now db w))) <$> ws.
Proof.
  intros Hk Hw. unfold counted, calls. destruct cluster.
  { unfold count_each. destruct (hit_many_spec now db ws Hk Hw) as [Hps _].
    destruct (hit_many now db ws) as [ps db']. cbn [fst] in *. subst. by rewrite <- list_fmap_compose. }
  set (groups := if same then _ else _).
  assert (concat groups ≡ₚ seq 0 (length ws)) as Hp.
  { subst groups. destruct same; [cbn; by rewrite app_nil_r|].
    assert (forall a b : list nat, concat (filter (fun g => g <> []) [a; b]) = a ++ b) as ->.
    { intros a b. rewrite !filter_cons, filter_nil.
      destruct a, b; repeat case_decide; cbn; rewrite ?app_nil_r; try done;
        match goal with E : ~ (_ :: _ <> _) |- _ => by destruct E end. }
    generalize (seq 0 (length ws)) as l. intros l. induction l as [|x l IH]; [done|].
    rewrite !filter_cons. destruct (is_tenant ws x); cbn [negb].
    - rewrite decide_False, decide_True by (cbn; tauto). by rewrite <- Permutation_middle, IH.
    - rewrite decide_True, decide_False by (cbn; tauto). cbn [app]. by rewrite IH. }
  destruct (count_groups_spec now ws groups (replicate (length ws) (0, 0)) db) as [Hlen Hlk].
  - done.
  - done.
  - rewrite Hp. apply NoDup_seq.
  - rewrite Hp. apply Forall_forall. intros i Hi%elem_of_seq. lia.
  - apply length_replicate.
  - apply list_eq. intros i. rewrite Hlk, list_lookup_fmap. destruct (ws !! i) as [w|] eqn:Ew.
    + rewrite bool_decide_eq_true_2.
      * unfold slot_of. by rewrite Ew.
      * rewrite Hp. apply elem_of_seq. apply lookup_lt_Some in Ew. lia.
    + rewrite bool_decide_eq_false_2.
      * cbn. apply lookup_replicate_None. by apply lookup_ge_None.
      * rewrite Hp. intros Hi%elem_of_seq. apply lookup_ge_None in Ew. lia.
Qed.

Lemma window_ms_pos p : 0 < window_ms p.
Proof. unfold window_ms. lia. Qed.

Lemma rate_limit_keys t b b' : rate_limit b <> tenant_rate_limit t b'.
Proof. intros E. unfold rate_limit, tenant_rate_limit, PREFIX in E. discriminate E. Qed.

Lemma tenant_ip_all t c ip :
  tenant_rate_limit t (as_str c ++ ":ip:" ++ ip) <> tenant_rate_limit t "all".
Proof.
  intros E. unfold tenant_rate_limit in E. repeat apply (inj (String.append _)) in E.
  by destruct c.
Qed.

Ltac distinct_keys :=
  repeat first
    [ apply NoDup_nil_2
    | apply NoDup_cons; split
    | apply not_elem_of_cons; split
    | apply not_elem_of_nil
    | apply rate_limit_keys
    | apply tenant_ip_all ].
Ltac positive_windows :=
  repeat first [ apply Forall_nil_2 | apply Forall_cons_2 | apply window_ms_pos | done ].

(** The buckets of a request have distinct keys and a window each. *)
Lemma buckets_ok cfg tenant category ip :
  NoDup (w_key <$> buckets cfg tenant category ip)
  /\ Forall (fun w => 0 < w_window_ms w) (buckets cfg tenant category ip).
Proof.
  unfold buckets. destruct (cfg_enabled cfg); cbn [negb]; [|split; constructor].
  destruct ip as [ip|]; destruct tenant as [[tid p]|]; cbn [rl_policy rl_id];
    repeat case_match; cbn [app fmap list_fmap w_key];
    (split; [distinct_keys|positive_windows]).
Qed.
End hits.

(** ** Theorems *)

(** the decision is the tightest bucket's. A request is allowed exactly when
    no bucket's count exceeds its limit; when refused, the wait reported is
    the longest reset among the buckets exceeded; the bucket reported has the
    fewest requests left. *)
Theorem decide_sound (ws : list Want) (counts : list (Z * Z)) :
  let bs := bucket_list (zip ws counts) in
  (allowed (decide ws counts) = true <-> forall b, b ∈ bs -> b_exceeded b = false)
  /\ (forall r, retry_after_secs (decide ws counts) = Some r ->
        (exists b, b ∈ bs /\ b_exceeded b = true /\ b_reset_secs b = r)
        /\ forall b, b ∈ bs -> b_exceeded b = true -> b_reset_secs b <= r)
  /\ (forall t, tightest (decide ws counts) = Some t ->
        t ∈ bs /\ forall b, b ∈ bs -> b_remaining t <= b_remaining b)
  /\ (tightest (decide ws counts) = None <-> bs = []).
Proof.
  cbv zeta. unfold decide, allowed. destruct (foldl_decided (zip ws counts)) as [H1 H2 H3 H4].
  destruct (foldl decide_step (None, None) (zip ws counts)) as [tight retry]. cbn [fst snd] in *.
  cbn [retry_after_secs tightest]. rewrite bool_decide_eq_true. done.
Qed.

(** the decision does not depend on the deployment. On one Valkey, on a
    cluster, and with the tenant's buckets in another region's Valkey, a
    request gets the same decision: grouping the script calls never mixes the
    buckets' answers up. *)
Theorem hit_topology `{CountersLaws} `{UuidDisplay} (cfg : RateLimitConfig) (now : Z)
    (tenant : option RlTenant) (category : Category) (ip : option string) (db : cdb)
    (cluster cluster' same same' : bool) :
  (hit cfg cluster same None now tenant category ip db).1
  = (hit cfg cluster' same' None now tenant category ip db).1.
Proof.
  unfold hit, run, count. destruct (buckets_ok cfg tenant category ip) as [Hk Hw]. case_match; [done|].
  pose proof (count_spec cluster same now _ db Hk Hw) as E1.
  pose proof (count_spec cluster' same' now _ db Hk Hw) as E2.
  destruct (counted cluster same now _ db) as [c1 db1]. destruct (counted cluster' same' now _ db) as [c2 db2].
  cbn [fst] in *. by rewrite E1, E2.
Qed.

(** Requests of one client, each with its time and whether Valkey fails: how
    many are allowed. *)
Fixpoint allowances `{Counters} `{UuidDisplay} (cfg : RateLimitConfig) (cluster same : bool)
    (tenant : RlTenant) (client : Uuid) (reqs : list (Z * option nat)) (db : cdb) : Z :=
  match reqs with
  | [] => 0
  | (now, broken) :: reqs =>
      let '(d, db) := hit_client cfg cluster same broken now tenant client db in
      (if allowed d then 1 else 0) + allowances cfg cluster same tenant client reqs db
  end.
(** The requests Valkey did not answer. *)
Definition failures (reqs : list (Z * option nat)) : Z := zlen (filter (fun q => is_Some q.2) reqs).

Section ceiling.
Context `{CountersLaws} `{UuidDisplay}.
Context (cfg : RateLimitConfig) (cluster same : bool) (tenant : RlTenant) (client : Uuid).
Context (Hon : cfg_enabled cfg = true) (Hpol : rl_enabled (rl_policy tenant) = true).
Context (Hlim : 0 < token_per_client (rl_policy tenant)).

Abbreviation ckey := (tenant_rate_limit (rl_id tenant) ("client:" ++ uuid_str client)).
Abbreviation cwant := (mkWant ckey (token_per_client (rl_policy tenant)) (window_ms (rl_policy tenant))).

Lemma count_one now db :
  (counted cluster same now [cwant] db).1 = [pair_of (Some (hit_script now db cwant).1)]
  /\ (counted cluster same now [cwant] db).2 = (hit_script now db cwant).2.
Proof.
  unfold counted, count_each, calls. destruct cluster.
  { cbn [hit_many]. by destruct (hit_script now db cwant). }
  assert (forall groups, groups = [[0%nat]] ->
    (count_groups now [cwant] groups [(0, 0)] db).1 = [pair_of (Some (hit_script now db cwant).1)]
    /\ (count_groups now [cwant] groups [(0, 0)] db).2 = (hit_script now db cwant).2) as Hg.
  { intros groups ->. cbn [count_groups omap list_omap lookup list_lookup length seq zip zip_with foldl].
    cbn [hit_many]. by destruct (hit_script now db cwant). }
  apply Hg. destruct same; [done|]. cbn [length seq]. rewrite !filter_cons, !filter_nil.
  destruct (is_tenant [cwant] 0); repeat case_decide; try done; cbn in *; tauto.
Qed.

Lemma hit_client_run broken now db :
  hit_client cfg cluster same broken now tenant client db = run cluster same broken now [cwant] db.
Proof. unfold hit_client. by rewrite Hon, Hpol, (proj2 (Z.eqb_neq _ _)) by lia. Qed.
Lemma hit_client_spec now db :
  let a := after_hit now (window_ms (rl_policy tenant)) (vcount now ckey db) in
  allowed (hit_client cfg cluster same None now tenant client db).1
  = ((pair_of (Some a.1)).1 <=? token_per_client (rl_policy tenant))
  /\ vcount now ckey (hit_client cfg cluster same None now tenant client db).2 = Some (a.2.1, Some a.2.2).
Proof.
  cbv zeta. rewrite hit_client_run. unfold run, count. rewrite bool_decide_eq_false_2 by done.
  destruct (count_one now db) as [E1 E2].
  destruct (hit_script_spec now db cwant (window_ms_pos _)) as [Hp Hv]. cbn [w_key w_window_ms] in Hp, Hv.
  destruct (counted cluster same now [cwant] db) as [cs db']. cbn [fst snd] in *. subst cs db'.
  split; [|exact Hv]. rewrite Hp. unfold decide, allowed. cbn [zip zip_with foldl decide_step fst snd].
  destruct (pair_of (Some (after_hit now (window_ms (rl_policy tenant)) (vcount now ckey db)).1)) as [n ttl].
  cbn [bucket_of b_exceeded w_limit fst snd retry_after_secs].
  destruct (Z.ltb_spec (token_per_client (rl_policy tenant)) n).
  - rewrite (proj2 (Z.leb_gt _ _)) by lia. by apply bool_decide_eq_false_2.
  - rewrite (proj2 (Z.leb_le _ _)) by lia. by apply bool_decide_eq_true_2.
Qed.
(** A request Valkey does not answer is allowed, and counted or not. *)
Lemma hit_client_broken k now db : exists db',
  hit_client cfg cluster same (Some k) now tenant client db = (UNLIMITED, db')
  /\ (db' = db \/ db' = (hit_script now db cwant).2).
Proof.
  rewrite hit_client_run. unfold run, count. rewrite bool_decide_eq_false_2 by done. eexists. split; [done|].
  assert (calls cluster same [cwant] = [[0%nat]]) as ->.
  { unfold calls. destruct cluster; [done|]. destruct same; [done|]. cbn [length seq]. rewrite !filter_cons, !filter_nil.
    destruct (is_tenant [cwant] 0); repeat case_decide; try done; cbn in *; tauto. }
  destruct k as [|k]; [by left|]. right. rewrite take_ge by (cbn; lia). cbn [concat app omap list_omap lookup list_lookup hit_many].
  by destruct (hit_script now db cwant).
Qed.

Lemma failures_cons now broken reqs : failures ((now, broken) :: reqs) = (if broken then 1 else 0) + failures reqs.
Proof.
  unfold failures. rewrite filter_cons. case_decide as Hd; destruct broken; cbn in *; unfold zlen; cbn; try lia; [by destruct Hd|].
  exfalso. apply Hd. by eexists.
Qed.
Lemma failures_nonneg reqs : 0 <= failures reqs.
Proof. unfold failures, zlen. lia. Qed.
(** What is left of the ceiling: all of it before the window starts. *)
Definition left_over (x : Z) (c : option (Z * option Z)) : option Z :=
  match c with
  | None => Some (token_per_client (rl_policy tenant))
  | Some (n, Some y) => if (0 <? n) && (x <=? y) then Some (token_per_client (rl_policy tenant) - n) else None
  | Some (_, None) => None
  end.
Lemma left_over_later now0 now x db l : now0 <= now < x ->
  left_over x (vcount now0 ckey db) = Some l -> left_over x (vcount now ckey db) = Some l.
Proof.
  intros Hn. rewrite (vcount_later now0 now) by lia. destruct (vcount now0 ckey db) as [[n [y|]]|]; cbn [left_over]; try done.
  destruct (0 <? n) eqn:E1; cbn [andb]; [|done]. destruct (Z.leb_spec x y); [|done]. intros [= <-].
  rewrite (proj2 (Z.ltb_lt now y)) by lia. cbn [left_over]. by rewrite E1, (proj2 (Z.leb_le x y)) by lia.
Qed.
Lemma left_over_hit now x db l : now < x <= now + window_ms (rl_policy tenant) ->
  left_over x (vcount now ckey db) = Some l ->
  let a := after_hit now (window_ms (rl_policy tenant)) (vcount now ckey db) in
  (pair_of (Some a.1)).1 = token_per_client (rl_policy tenant) - l + 1 /\ left_over x (Some (a.2.1, Some a.2.2)) = Some (l - 1).
Proof.
  intros Hx. cbv zeta. destruct (vcount now ckey db) as [[n [y|]]|] eqn:E; cbn [left_over after_hit]; try done.
  - destruct (0 <? n) eqn:E1; cbn [andb]; [|done]. apply Z.ltb_lt in E1. destruct (Z.leb_spec x y); [|done]. intros [= <-].
    rewrite (proj2 (Z.eqb_neq _ _)) by lia. cbn [fst snd pair_of left_over]. rewrite (proj2 (Z.ltb_ge _ _)) by lia.
    rewrite (proj2 (Z.ltb_lt 0 (n + 1))), (proj2 (Z.leb_le x y)) by lia. cbn [andb]. split; [lia|f_equal; lia].
  - intros [= <-]. cbn [fst snd pair_of left_over]. rewrite (proj2 (Z.leb_le x _)) by lia. cbn. split; [lia|done].
Qed.

Lemma allowances_within now0 x l reqs db :
  now0 < x -> left_over x (vcount now0 ckey db) = Some l ->
  Forall (fun q => now0 <= q.1 /\ q.1 < x <= q.1 + window_ms (rl_policy tenant)) reqs -> Sorted (fun a b => a.1 <= b.1) reqs ->
  allowances cfg cluster same tenant client reqs db <= Z.max 0 l + failures reqs.
Proof.
  revert now0 l db. induction reqs as [|[now broken] reqs IH]; intros now0 l db Hx Hl Hw Hs; [pose proof (failures_nonneg []); cbn [allowances]; lia|].
  apply Forall_cons in Hw as [Hnow Hw]. cbn [fst] in Hnow. rewrite failures_cons. cbn [allowances].
  apply (left_over_later now0 now) in Hl; [|lia].
  assert (Forall (fun q => now <= q.1 /\ q.1 < x <= q.1 + window_ms (rl_policy tenant)) reqs) as Hw'.
  { apply Sorted_extends in Hs; [|intros a b c; lia]. apply Forall_forall. intros q Hq. rewrite Forall_forall in Hw, Hs.
    pose proof (Hw _ Hq). pose proof (Hs _ Hq). cbn in *. lia. }
  assert (Sorted (fun a b : Z * option nat => a.1 <= b.1) reqs) as Hs' by (by inversion Hs).
  destruct (left_over_hit now x db l ltac:(lia) Hl) as [Hp Hl'].
  destruct broken as [k|].
  - destruct (hit_client_broken k now db) as (db' & -> & Hd).
    assert (exists l', left_over x (vcount now ckey db') = Some l' /\ l' <= l) as (l' & Hl2 & Hle).
    { destruct Hd as [->| ->]; [by exists l|]. destruct (hit_script_spec now db cwant (window_ms_pos _)) as [_ Hv].
      cbn [w_key w_window_ms] in Hv. rewrite Hv. exists (l - 1). split; [done|lia]. }
    pose proof (IH now l' db' ltac:(lia) Hl2 Hw' Hs'). replace (if allowed UNLIMITED then 1 else 0) with 1 by done. lia.
  - destruct (hit_client_spec now db) as [Ha Hv]. rewrite Hp in Ha.
    destruct (hit_client cfg cluster same None now tenant client db) as [d db']. cbn [fst snd] in *.
    rewrite <- Hv in Hl'. pose proof (IH now (l - 1) db' ltac:(lia) Hl' Hw' Hs'). pose proof (failures_nonneg reqs).
    rewrite Ha. destruct (Z.leb_spec (token_per_client (rl_policy tenant) - l + 1) (token_per_client (rl_policy tenant))); lia.
Qed.
End ceiling.

(** C39: a client stays within its ceiling. Of the token requests of a client
    without a running window that arrive within one window's length, at most
    the configured number are allowed, in every topology of the cache - and
    beyond them only requests for which Valkey failed, which the limiter lets
    through: as many more at most as there were failures, whether or not the
    failed calls were still counted. *)
Theorem client_ceiling `{CountersLaws} `{UuidDisplay} (cfg : RateLimitConfig) (cluster same : bool)
    (tenant : RlTenant) (client : Uuid) (now : Z) (reqs : list (Z * option nat)) (db : cdb) :
  cfg_enabled cfg = true -> rl_enabled (rl_policy tenant) = true ->
  0 < token_per_client (rl_policy tenant) ->
  vcount now (tenant_rate_limit (rl_id tenant) ("client:" ++ uuid_str client)) db = None ->
  Forall (fun q => now <= q.1 < now + window_ms (rl_policy tenant)) reqs -> Sorted (fun a b => a.1 <= b.1) reqs ->
  allowances cfg cluster same tenant client reqs db <= token_per_client (rl_policy tenant) + failures reqs.
Proof.
  intros Hon Hpol Hlim Hc Hw Hs. pose proof (window_ms_pos (rl_policy tenant)).
  assert (allowances cfg cluster same tenant client reqs db <= Z.max 0 (token_per_client (rl_policy tenant)) + failures reqs); [|lia].
  apply (allowances_within cfg cluster same tenant client Hon Hpol Hlim now (now + window_ms (rl_policy tenant))); [lia|by rewrite Hc| |done].
  apply (Forall_impl _ _ _ Hw). intros q Hq. lia.
Qed.

Definition ex_rl_tenant : RlTenant := mkRlTenant 1 (mkRateLimitPolicy true 60 600 3 300 600 0).
Definition ex_rl_cfg : RateLimitConfig := mkRateLimitConfig true 6000.

(** Six requests, for one of which Valkey failed: four are allowed. *)
Lemma client_ceiling_witness :
  @allowances map_counters toy_uuid ex_rl_cfg false true ex_rl_tenant 2 [(0, None); (10, None); (20, Some 0%nat); (30, None); (40, None); (59999, None)] (∅ : gmap string _)
  <= 3 + failures [(0, None); (10, None); (20, Some 0%nat); (30, None); (40, None); (59999, None)].
Proof.
  apply (@client_ceiling map_counters map_counters_laws toy_uuid ex_rl_cfg false true ex_rl_tenant 2 0 _ (∅ : gmap string _)); try reflexivity.
  - decide_now.
  - repeat constructor; vm_compute; discriminate.
Defined.

(** One address on a cluster with the tenant's buckets elsewhere, and on one
    Valkey. *)
Lemma hit_topology_witness :
  (@hit map_counters toy_uuid ex_rl_cfg true false None 0 (Some ex_rl_tenant) Token (Some "192.0.2.7"%string)
     (∅ : gmap string _)).1
  = (@hit map_counters toy_uuid ex_rl_cfg false true None 0 (Some ex_rl_tenant) Token
       (Some "192.0.2.7"%string) (∅ : gmap string _)).1.
Proof.
  apply (@hit_topology map_counters map_counters_laws toy_uuid).
Defined.
