(* ===== verification/Cbor.v ===== *)
(** * CBOR

    Models [api/src/webauthn/cbor.rs], the reader of definite-length CBOR
    (RFC 8949) that WebAuthn's attestation objects and keys go through, and
    the format itself as a relation between values and bytes, and proves that
    the reader accepts exactly the format. The nesting limit bounds the
    recursion: [levels] counts the levels still allowed. *)

From S2P Require Import Prelude Utf8.

(** A decoded item; text is a list of Unicode scalar values. *)
Inductive Value :=
| VInt (i : Z)
| VBytes (b : list Z)
| VText (s : list Z)
| VArray (vs : list Value)
| VMap (kvs : list (Value * Value))
| VBool (b : bool)
| VNull
| VOther.

Record CborError := mkCborError { cbor_reason : string }.

Definition MAX_DEPTH : nat := 16.

(** ** The reader *)

Abbreviation cres A := (result CborError (A * list Z)).
Definition cerr {A} (why : string) : result CborError A := Err (mkCborError why).

Definition take_n (n : Z) (buf : list Z) : cres (list Z) :=
  if zlen buf <? n then cerr "truncated" else Ok (take (Z.to_nat n) buf, drop (Z.to_nat n) buf).

Definition byte (buf : list Z) : cres Z :=
  match buf with b :: buf => Ok (b, buf) | [] => cerr "truncated" end.

Definition argument (info : Z) (buf : list Z) : cres Z :=
  if info <=? 23 then Ok (info, buf)
  else if info =? 24 then byte buf
  else if info =? 25 then let? (b, buf) := take_n 2 buf in Ok (be_val b, buf)
  else if info =? 26 then let? (b, buf) := take_n 4 buf in Ok (be_val b, buf)
  else if info =? 27 then let? (b, buf) := take_n 8 buf in Ok (be_val b, buf)
  else cerr "indefinite or reserved length".

Definition length_of (info : Z) (buf : list Z) : cres Z :=
  let? (n, buf) := argument info buf in
  if n <=? zlen buf then Ok (n, buf) else cerr "length past the end".

(** The loops over the elements of an array and the entries of a map. *)
Section loops.
Context (item : list Z -> cres Value).
Fixpoint elements (n : nat) (buf : list Z) : cres (list Value) :=
  match n with
  | O => Ok ([], buf)
  | S n =>
      let? (v, buf) := item buf in
      let? (vs, buf) := elements n buf in
      Ok (v :: vs, buf)
  end.
Fixpoint entries (n : nat) (buf : list Z) : cres (list (Value * Value)) :=
  match n with
  | O => Ok ([], buf)
  | S n =>
      let? (k, buf) := item buf in
      let? (v, buf) := item buf in
      let? (kvs, buf) := entries n buf in
      Ok ((k, v) :: kvs, buf)
  end.
End loops.

Definition skip (n : Z) (buf : list Z) : cres Value :=
  let? (_, buf) := take_n n buf in Ok (VOther, buf).

(** Major type 7. *)
Definition simple (info : Z) (buf : list Z) : cres Value :=
  if info =? 20 then Ok (VBool false, buf)
  else if info =? 21 then Ok (VBool true, buf)
  else if info =? 22 then Ok (VNull, buf)
  else if info =? 23 then Ok (VOther, buf)
  else if info =? 24 then let? (_, buf) := byte buf in Ok (VOther, buf)
  else if info =? 25 then skip 2 buf
  else if info =? 26 then skip 4 buf
  else if info =? 27 then skip 8 buf
  else if info <=? 19 then Ok (VOther, buf)
  else cerr "indefinite or reserved simple value".

Fixpoint item (levels : nat) (buf : list Z) : cres Value :=
  match levels with
  | O => cerr "nested too deeply"
  | S levels =>
      let? (head, buf) := byte buf in
      let major := Z.shiftr head 5 in
      let info := Z.land head 0x1f in
      if major =? 0 then let? (a, buf) := argument info buf in Ok (VInt a, buf)
      else if major =? 1 then let? (a, buf) := argument info buf in Ok (VInt (-1 - a), buf)
      else if major =? 2 then
        let? (n, buf) := length_of info buf in
        let? (b, buf) := take_n n buf in Ok (VBytes b, buf)
      else if major =? 3 then
        let? (n, buf) := length_of info buf in
        let? (b, buf) := take_n n buf in
        let? s := ok_or (utf8_decode b) (mkCborError "text is not UTF-8") in
        Ok (VText s, buf)
      else if major =? 4 then
        let? (n, buf) := length_of info buf in
        let? (vs, buf) := elements (item levels) (Z.to_nat n) buf in Ok (VArray vs, buf)
      else if major =? 5 then
        let? (n, buf) := length_of info buf in
        let? (kvs, buf) := entries (item levels) (Z.to_nat n) buf in Ok (VMap kvs, buf)
      else if major =? 6 then
        let? (_, buf) := argument info buf in
        let? (_, buf) := item levels buf in Ok (VOther, buf)
      else simple info buf
  end.

(** [decode]: one item from the start of the input, at depth 0. *)
Definition decode (input : list Z) : cres Value := item (MAX_DEPTH + 1) input.

Definition decode_exact (input : list Z) : result CborError Value :=
  let? (v, rest) := decode input in
  match rest with [] => Ok v | _ => cerr "trailing data" end.

(** Lookups in a decoded map. *)
Definition map_entries (v : Value) : option (list (Value * Value)) :=
  match v with VMap m => Some m | _ => None end.
Definition get_int (v : Value) (k : Z) : option Value :=
  m ← map_entries v;
  snd <$> List.find (fun kv => match kv.1 with VInt i => i =? k | _ => false end) m.
Definition get_text (v : Value) (k : list Z) : option Value :=
  m ← map_entries v;
  snd <$> List.find (fun kv => match kv.1 with VText t => bool_decide (t = k) | _ => false end) m.
Definition as_int (v : Value) : option Z := match v with VInt i => Some i | _ => None end.
Definition as_bytes (v : Value) : option (list Z) := match v with VBytes b => Some b | _ => None end.
Definition as_text (v : Value) : option (list Z) := match v with VText t => Some t | _ => None end.

(** ** The format *)

(** The head of an item of a major type, with its argument. *)
Inductive head (m : Z) : Z -> list Z -> Prop :=
| H_inline a : 0 <= a <= 23 -> head m a [m * 32 + a]
| H_1 a : 0 <= a < 2 ^ 8 -> head m a [m * 32 + 24; a]
| H_2 a : 0 <= a < 2 ^ 16 -> head m a (m * 32 + 25 :: be_bytes 2 a)
| H_4 a : 0 <= a < 2 ^ 32 -> head m a (m * 32 + 26 :: be_bytes 4 a)
| H_8 a : 0 <= a < 2 ^ 64 -> head m a (m * 32 + 27 :: be_bytes 8 a).

(** One encoding after another. *)
Inductive all {A} (R : A -> list Z -> Prop) : list A -> list Z -> Prop :=
| All_nil : all R [] []
| All_cons v vs e es : R v e -> all R vs es -> all R (v :: vs) (e ++ es).

(** Values and their encodings, nested at most [n] levels. *)
Inductive enc : nat -> Value -> list Z -> Prop :=
| E_uint n a h : head 0 a h -> enc (S n) (VInt a) h
| E_nint n a h : head 1 a h -> enc (S n) (VInt (-1 - a)) h
| E_bytes n b h : head 2 (zlen b) h -> bytes_ok b -> enc (S n) (VBytes b) (h ++ b)
| E_text n s h :
    head 3 (zlen (utf8_encode s)) h -> str_ok s -> enc (S n) (VText s) (h ++ utf8_encode s)
| E_array n vs h e :
    head 4 (zlen vs) h -> all (enc n) vs e -> enc (S n) (VArray vs) (h ++ e)
| E_map n kvs h e :
    head 5 (zlen kvs) h ->
    all (fun kv e => exists e1 e2, e = e1 ++ e2 /\ enc n kv.1 e1 /\ enc n kv.2 e2) kvs e ->
    enc (S n) (VMap kvs) (h ++ e)
| E_tag n a v h e : head 6 a h -> enc n v e -> enc (S n) VOther (h ++ e)
| E_false n : enc (S n) (VBool false) [244]
| E_true n : enc (S n) (VBool true) [245]
| E_null n : enc (S n) VNull [246]
| E_simple n i : 0 <= i <= 19 \/ i = 23 -> enc (S n) VOther [224 + i]
| E_wide n i b :
    (i = 24 /\ zlen b = 1) \/ (i = 25 /\ zlen b = 2) \/ (i = 26 /\ zlen b = 4) \/ (i = 27 /\ zlen b = 8) ->
    bytes_ok b -> enc (S n) VOther (224 + i :: b).

(** ** Lemmas *)

Lemma head_byte m info :
  0 <= m <= 7 -> 0 <= info <= 31 ->
  Z.shiftr (m * 32 + info) 5 = m /\ Z.land (m * 32 + info) 0x1f = info.
Proof.
  intros Hm Hi. rewrite Z.shiftr_div_pow2 by lia. change 0x1f with (Z.ones 5). rewrite Z.land_ones by lia.
  change (2 ^ 5) with 32. rewrite Z.add_comm, Z.div_add, Z.mod_add by lia.
  rewrite Z.div_small, Z.mod_small by lia. done.
Qed.

Lemma byte_head b :
  is_byte b ->
  0 <= Z.shiftr b 5 <= 7 /\ 0 <= Z.land b 0x1f <= 31 /\ b = Z.shiftr b 5 * 32 + Z.land b 0x1f.
Proof.
  unfold is_byte. intros Hb. rewrite Z.shiftr_div_pow2 by lia.
  change (Z.land b 0x1f) with (Z.land b (Z.ones 5)). rewrite Z.land_ones by lia. change (2 ^ 5) with 32.
  pose proof (Z.div_mod b 32 ltac:(lia)). pose proof (Z.mod_pos_bound b 32 ltac:(lia)).
  pose proof (Z.div_pos b 32 ltac:(lia) ltac:(lia)).
  pose proof (Z.div_lt_upper_bound b 32 8 ltac:(lia) ltac:(lia)). lia.
Qed.

Lemma take_n_app a rest : take_n (zlen a) (a ++ rest) = Ok (a, rest).
Proof.
  unfold take_n. rewrite zlen_app, (proj2 (Z.ltb_ge _ _)) by (pose proof (zlen_nonneg rest); lia).
  by rewrite zlen_to_nat, take_app_length, drop_app_length.
Qed.

Lemma take_n_inv n buf a rest :
  0 <= n -> take_n n buf = Ok (a, rest) -> buf = a ++ rest /\ zlen a = n.
Proof.
  unfold take_n. intros Hn H. destruct (Z.ltb_spec (zlen buf) n) as [|Hle]; [done|]. inv_result.
  rewrite take_drop. split; [done|]. unfold zlen in *. rewrite length_take. lia.
Qed.

Lemma argument_head m a h :
  head m a h ->
  exists info tl, h = m * 32 + info :: tl /\ 0 <= info <= 31
    /\ forall rest, argument info (tl ++ rest) = Ok (a, rest).
Proof.
  assert (forall n k v rest, zlen (be_bytes n v) = k -> 0 <= v < 256 ^ Z.of_nat n ->
    (let? (b, buf) := take_n k (be_bytes n v ++ rest) in Ok (be_val b, buf)) = @Ok CborError _ (v, rest)) as Hbe.
  { intros n k v rest <- Hv. by rewrite take_n_app, be_val_be_bytes, Z.mod_small. }
  destruct 1 as [a Ha|a Ha|a Ha|a Ha|a Ha].
  - exists a, []. split; [done|]. split; [lia|]. intros rest. unfold argument.
    by rewrite (proj2 (Z.leb_le _ _)) by lia.
  - by exists 24, [a].
  - exists 25, (be_bytes 2 a). split; [done|]. split; [lia|]. intros rest. by apply Hbe.
  - exists 26, (be_bytes 4 a). split; [done|]. split; [lia|]. intros rest. by apply Hbe.
  - exists 27, (be_bytes 8 a). split; [done|]. split; [lia|]. intros rest. by apply Hbe.
Qed.

Lemma head_argument m info buf a rest :
  bytes_ok buf -> 0 <= info <= 31 -> argument info buf = Ok (a, rest) ->
  exists tl, buf = tl ++ rest /\ head m a (m * 32 + info :: tl) /\ 0 <= a.
Proof.
  intros Hb Hi. unfold argument.
  assert (forall n, (let? (b, buf) := take_n (Z.of_nat n) buf in Ok (be_val b, buf)) = @Ok CborError _ (a, rest) ->
    exists tl, buf = tl ++ rest /\ tl = be_bytes n a /\ 0 <= a < 256 ^ Z.of_nat n) as Hbe.
  { intros n H. destruct (take_n (Z.of_nat n) buf) as [[b r]|] eqn:E; [|done]. inv_result.
    apply take_n_inv in E as [-> Hl]; [|lia]. apply bytes_ok_app in Hb as [Hb _].
    pose proof (be_val_bound b Hb) as Hv. rewrite Hl in Hv. exists b. split; [done|]. split; [|done].
    unfold zlen in Hl. rewrite <- (be_bytes_be_val b Hb) at 1. f_equal. lia. }
  destruct (Z.leb_spec info 23).
  { intros H'. inv_result. exists []. split; [done|]. split; [apply H_inline; lia|lia]. }
  destruct (Z.eqb_spec info 24) as [->|].
  { destruct buf as [|b buf]; cbn [byte]; intros H'; [done|]. injection H' as -> ->. exists [a].
    apply bytes_ok_cons in Hb as [Hb _]. unfold is_byte in Hb. split; [done|]. split; [apply H_1; lia|lia]. }
  destruct (Z.eqb_spec info 25) as [->|].
  { intros (tl & -> & -> & Ha)%(Hbe 2%nat). exists (be_bytes 2 a). split; [done|]. split; [by apply H_2|lia]. }
  destruct (Z.eqb_spec info 26) as [->|].
  { intros (tl & -> & -> & Ha)%(Hbe 4%nat). exists (be_bytes 4 a). split; [done|]. split; [by apply H_4|lia]. }
  destruct (Z.eqb_spec info 27) as [->|]; [|done].
  intros (tl & -> & -> & Ha)%(Hbe 8%nat). exists (be_bytes 8 a). split; [done|]. split; [by apply H_8|lia].
Qed.

(** What a reader of one [A] has to do against a format [R]. *)
Definition complete {A} (R : A -> list Z -> Prop) (f : list Z -> cres A) : Prop :=
  forall v e rest, R v e -> f (e ++ rest) = Ok (v, rest).
Definition sound {A} (R : A -> list Z -> Prop) (f : list Z -> cres A) : Prop :=
  forall buf v rest, bytes_ok buf -> f buf = Ok (v, rest) -> exists e, buf = e ++ rest /\ R v e.

(** The format of a map's entry. *)
Definition pair_of (R : Value -> list Z -> Prop) (kv : Value * Value) (e : list Z) : Prop :=
  exists e1 e2, e = e1 ++ e2 /\ R kv.1 e1 /\ R kv.2 e2.

Lemma elements_complete R f vs e rest :
  complete R f -> all R vs e -> elements f (length vs) (e ++ rest) = Ok (vs, rest).
Proof.
  intros Hf Hall. induction Hall as [|v vs e es Hv _ IH]; [done|].
  cbn [elements length]. by rewrite <- app_assoc, (Hf _ _ _ Hv), IH.
Qed.

Lemma entries_complete R f kvs e rest :
  complete R f -> all (pair_of R) kvs e -> entries f (length kvs) (e ++ rest) = Ok (kvs, rest).
Proof.
  intros Hf Hall. induction Hall as [|[k v] kvs e es (e1 & e2 & -> & Hk & Hv) _ IH]; [done|].
  cbn [entries length fst snd] in *. by rewrite <- !app_assoc, (Hf _ _ _ Hk), (Hf _ _ _ Hv), IH.
Qed.

Lemma elements_sound R f n : sound R f ->
  forall buf vs rest, bytes_ok buf -> elements f n buf = Ok (vs, rest) ->
  exists e, buf = e ++ rest /\ all R vs e /\ length vs = n.
Proof.
  intros Hf. induction n as [|n IH]; intros buf vs rest Hb H; cbn [elements] in H.
  { inv_result. exists []. split; [done|]. split; [constructor|done]. }
  destruct (f buf) as [[v b1]|] eqn:E1; [|done]. destruct (elements f n b1) as [[vs' b2]|] eqn:E2; [|done].
  inv_result. apply (Hf _ _ _ Hb) in E1 as (e1 & -> & H1). apply bytes_ok_app in Hb as [_ Hb].
  apply (IH _ _ _ Hb) in E2 as (e2 & -> & H2 & <-). exists (e1 ++ e2).
  split; [apply app_assoc|]. split; [by constructor|done].
Qed.

Lemma entries_sound R f n : sound R f ->
  forall buf kvs rest, bytes_ok buf -> entries f n buf = Ok (kvs, rest) ->
  exists e, buf = e ++ rest /\ all (pair_of R) kvs e /\ length kvs = n.
Proof.
  intros Hf. induction n as [|n IH]; intros buf kvs rest Hb H; cbn [entries] in H.
  { inv_result. exists []. split; [done|]. split; [constructor|done]. }
  destruct (f buf) as [[k b1]|] eqn:E1; [|done]. destruct (f b1) as [[v b2]|] eqn:E2; [|done].
  destruct (entries f n b2) as [[kvs' b3]|] eqn:E3; [|done].
  inv_result. apply (Hf _ _ _ Hb) in E1 as (e1 & -> & H1). apply bytes_ok_app in Hb as [_ Hb].
  apply (Hf _ _ _ Hb) in E2 as (e2 & -> & H2). apply bytes_ok_app in Hb as [_ Hb].
  apply (IH _ _ _ Hb) in E3 as (e3 & -> & H3 & <-). exists ((e1 ++ e2) ++ e3).
  split; [by rewrite !app_assoc|]. split; [|done]. constructor; [|done]. by exists e1, e2.
Qed.

(** Every item takes a byte, so a count never exceeds the bytes that hold it. *)
Lemma head_nonempty m a h : head m a h -> 1 <= zlen h.
Proof. destruct 1; rewrite zlen_cons; pose proof (zlen_nonneg (@nil Z)); unfold zlen; lia. Qed.

Lemma enc_nonempty n v e : enc n v e -> 1 <= zlen e.
Proof.
  destruct 1; rewrite ?zlen_app, ?zlen_cons;
    repeat match goal with H : head _ _ _ |- _ => apply head_nonempty in H end; unfold zlen in *; lia.
Qed.

Lemma all_length {A} (R : A -> list Z -> Prop) vs e :
  (forall v e, R v e -> 1 <= zlen e) -> all R vs e -> zlen vs <= zlen e.
Proof.
  intros HR. induction 1 as [|v vs e es Hv _ IH]; [done|].
  rewrite zlen_app, zlen_cons. specialize (HR _ _ Hv). lia.
Qed.

Lemma pair_nonempty n kv e : pair_of (enc n) kv e -> 1 <= zlen e.
Proof.
  intros (e1 & e2 & -> & H1 & _). apply enc_nonempty in H1. rewrite zlen_app.
  pose proof (zlen_nonneg e2). lia.
Qed.

Lemma length_of_complete info tl n rest :
  (forall rest, argument info (tl ++ rest) = Ok (n, rest)) -> n <= zlen rest ->
  length_of info (tl ++ rest) = Ok (n, rest).
Proof. intros H Hn. unfold length_of. by rewrite H, (proj2 (Z.leb_le _ _)). Qed.

(** The first step of [item]: the head byte split into major type and info. *)
Lemma item_head n m info buf :
  0 <= m <= 7 -> 0 <= info <= 31 ->
  item (S n) (m * 32 + info :: buf) =
    (if m =? 0 then let? (a, buf) := argument info buf in Ok (VInt a, buf)
     else if m =? 1 then let? (a, buf) := argument info buf in Ok (VInt (-1 - a), buf)
     else if m =? 2 then
       let? (n, buf) := length_of info buf in
       let? (b, buf) := take_n n buf in Ok (VBytes b, buf)
     else if m =? 3 then
       let? (n, buf) := length_of info buf in
       let? (b, buf) := take_n n buf in
       let? s := ok_or (utf8_decode b) (mkCborError "text is not UTF-8") in
       Ok (VText s, buf)
     else if m =? 4 then
       let? (k, buf) := length_of info buf in
       let? (vs, buf) := elements (item n) (Z.to_nat k) buf in Ok (VArray vs, buf)
     else if m =? 5 then
       let? (k, buf) := length_of info buf in
       let? (kvs, buf) := entries (item n) (Z.to_nat k) buf in Ok (VMap kvs, buf)
     else if m =? 6 then
       let? (_, buf) := argument info buf in
       let? (_, buf) := item n buf in Ok (VOther, buf)
     else simple info buf).
Proof. intros Hm Hi. cbn [item byte]. by destruct (head_byte m info Hm Hi) as [-> ->]. Qed.

Ltac open_head H :=
  let info := fresh "info" in let tl := fresh "tl" in let Hi := fresh "Hi" in let Ha := fresh "Harg" in
  destruct (argument_head _ _ _ H) as (info & tl & -> & Hi & Ha);
  rewrite <- ?app_assoc; rewrite <- ?app_comm_cons; rewrite item_head by lia;
  cbn [Z.eqb Pos.eqb].

Lemma simple_complete i b rest :
  (i = 24 /\ zlen b = 1) \/ (i = 25 /\ zlen b = 2) \/ (i = 26 /\ zlen b = 4) \/ (i = 27 /\ zlen b = 8) ->
  simple i (b ++ rest) = Ok (VOther, rest).
Proof.
  intros [[-> Hl]|[[-> Hl]|[[-> Hl]|[-> Hl]]]]; unfold simple, skip; cbn [Z.eqb Pos.eqb].
  - destruct b as [|x [|y b]]; [done|done|]. rewrite !zlen_cons in Hl. pose proof (zlen_nonneg b). lia.
  - by rewrite <- Hl, take_n_app.
  - by rewrite <- Hl, take_n_app.
  - by rewrite <- Hl, take_n_app.
Qed.

Lemma item_complete n : complete (enc n) (item n).
Proof.
  induction n as [|n IH]; intros v e rest H; inversion H as
    [? a h Hh|? a h Hh|? b h Hh Hb|? s h Hh Hs|? vs h es Hh Hes|? kvs h es Hh Hes|? a w h es Hh Hes
    |?|?|?|? i Hi|? i b Hi Hb]; subst.
  - open_head Hh. by rewrite Harg.
  - open_head Hh. by rewrite Harg.
  - open_head Hh. rewrite (length_of_complete _ _ _ _ Harg) by (rewrite zlen_app; pose proof (zlen_nonneg rest); lia).
    by rewrite take_n_app.
  - open_head Hh. rewrite (length_of_complete _ _ _ _ Harg) by (rewrite zlen_app; pose proof (zlen_nonneg rest); lia).
    by rewrite take_n_app, utf8_decode_encode.
  - pose proof (all_length _ _ _ (enc_nonempty n) Hes). open_head Hh.
    rewrite (length_of_complete _ _ _ _ Harg) by (rewrite zlen_app; pose proof (zlen_nonneg rest); lia).
    by rewrite zlen_to_nat, (elements_complete _ _ _ _ _ IH Hes).
  - pose proof (all_length _ _ _ (pair_nonempty n) Hes). open_head Hh.
    rewrite (length_of_complete _ _ _ _ Harg) by (rewrite zlen_app; pose proof (zlen_nonneg rest); lia).
    by rewrite zlen_to_nat, (entries_complete _ _ _ _ _ IH Hes).
  - open_head Hh. by rewrite Harg, (IH _ _ _ Hes).
  - done.
  - done.
  - done.
  - cbn [app]. change (224 + i) with (7 * 32 + i). rewrite item_head by lia. cbn [Z.eqb Pos.eqb].
    unfold simple. destruct Hi as [Hi| ->]; [|done].
    do 8 (rewrite (proj2 (Z.eqb_neq i _)) by lia). by rewrite (proj2 (Z.leb_le _ _)) by lia.
  - rewrite <- app_comm_cons. change (224 + i) with (7 * 32 + i).
    rewrite item_head by lia. by apply simple_complete.
Qed.

Lemma length_of_sound m info buf a rest :
  bytes_ok buf -> 0 <= info <= 31 -> length_of info buf = Ok (a, rest) ->
  exists tl, buf = tl ++ rest /\ head m a (m * 32 + info :: tl) /\ 0 <= a /\ bytes_ok rest.
Proof.
  intros Hb Hi. unfold length_of. destruct (argument info buf) as [[n r]|] eqn:E; [|done].
  destruct (n <=? zlen r); [|done]. intros H. inv_result.
  apply (head_argument m) in E as (tl & -> & Hh & Ha); [|done..]. apply bytes_ok_app in Hb as [_ Hr]. eauto.
Qed.

Lemma skip_sound i n k buf v rest :
  ((i = 25 /\ k = 2) \/ (i = 26 /\ k = 4) \/ (i = 27 /\ k = 8)) ->
  bytes_ok buf -> skip k buf = Ok (v, rest) ->
  exists e, 224 + i :: buf = e ++ rest /\ enc (S n) v e.
Proof.
  intros Hi Hb. unfold skip. destruct (take_n k buf) as [[b r]|] eqn:E; [|done]. intros H. inv_result.
  apply take_n_inv in E as [-> Hl]; [|lia]. apply bytes_ok_app in Hb as [Hb _].
  exists (224 + i :: b). split; [done|]. apply E_wide; [lia|done].
Qed.

Lemma simple_sound n info buf v rest :
  bytes_ok buf -> 0 <= info <= 31 -> simple info buf = Ok (v, rest) ->
  exists e, 224 + info :: buf = e ++ rest /\ enc (S n) v e.
Proof.
  intros Hb Hi. unfold simple.
  destruct (Z.eqb_spec info 20) as [->|]; [intros H; inv_result; exists [244]; split; [done|constructor]|].
  destruct (Z.eqb_spec info 21) as [->|]; [intros H; inv_result; exists [245]; split; [done|constructor]|].
  destruct (Z.eqb_spec info 22) as [->|]; [intros H; inv_result; exists [246]; split; [done|constructor]|].
  destruct (Z.eqb_spec info 23) as [->|]; [intros H; inv_result; exists [247]; split; [done|apply (E_simple n 23); lia]|].
  destruct (Z.eqb_spec info 24) as [->|].
  { destruct buf as [|b buf]; cbn [byte]; intros H; [done|]. injection H as <- ->.
    apply bytes_ok_cons in Hb as [Hb _]. exists [248; b]. split; [done|]. apply (E_wide n 24); [left; done|]. by constructor. }
  destruct (Z.eqb_spec info 25) as [->|]; [apply skip_sound; [lia|done]|].
  destruct (Z.eqb_spec info 26) as [->|]; [apply skip_sound; [lia|done]|].
  destruct (Z.eqb_spec info 27) as [->|]; [apply skip_sound; [lia|done]|].
  destruct (Z.leb_spec info 19); [|done]. intros H'. inv_result. exists [224 + info].
  split; [done|]. apply E_simple. lia.
Qed.

(** The compound branches of [item], read back. *)
Lemma string_sound n info buf v rest :
  bytes_ok buf -> 0 <= info <= 31 ->
  (let? (n, buf) := length_of info buf in
   let? (b, buf) := take_n n buf in Ok (VBytes b, buf)) = Ok (v, rest) ->
  exists e, 2 * 32 + info :: buf = e ++ rest /\ enc (S n) v e.
Proof.
  intros Hb Hi H. destruct (length_of info buf) as [[k r]|] eqn:E; [|done].
  destruct (take_n k r) as [[b r']|] eqn:E'; [|done]. inv_result.
  apply (length_of_sound 2) in E as (tl & -> & Hh & Hk & Hr); [|done..].
  apply take_n_inv in E' as [-> <-]; [|done]. apply bytes_ok_app in Hr as [Hb' _].
  exists ((2 * 32 + info :: tl) ++ b). split; [by rewrite <- app_assoc|]. by constructor.
Qed.

Lemma text_sound n info buf v rest :
  bytes_ok buf -> 0 <= info <= 31 ->
  (let? (n, buf) := length_of info buf in
   let? (b, buf) := take_n n buf in
   let? s := ok_or (utf8_decode b) (mkCborError "text is not UTF-8") in
   Ok (VText s, buf)) = Ok (v, rest) ->
  exists e, 3 * 32 + info :: buf = e ++ rest /\ enc (S n) v e.
Proof.
  intros Hb Hi H. destruct (length_of info buf) as [[k r]|] eqn:E; [|done].
  destruct (take_n k r) as [[b r']|] eqn:E'; [|done].
  destruct (utf8_decode b) as [s|] eqn:Es; [|done]. cbn [ok_or] in H. inv_result.
  apply (length_of_sound 3) in E as (tl & -> & Hh & Hk & Hr); [|done..].
  apply take_n_inv in E' as [-> <-]; [|done]. apply bytes_ok_app in Hr as [Hb' _].
  apply utf8_encode_decode in Es as [<- Hs]; [|done].
  exists ((3 * 32 + info :: tl) ++ utf8_encode s). split; [by rewrite <- app_assoc|]. by constructor.
Qed.

Lemma array_sound n info buf v rest :
  sound (enc n) (item n) -> bytes_ok buf -> 0 <= info <= 31 ->
  (let? (k, buf) := length_of info buf in
   let? (vs, buf) := elements (item n) (Z.to_nat k) buf in Ok (VArray vs, buf)) = Ok (v, rest) ->
  exists e, 4 * 32 + info :: buf = e ++ rest /\ enc (S n) v e.
Proof.
  intros IH Hb Hi H. destruct (length_of info buf) as [[k r]|] eqn:E; [|done].
  destruct (elements (item n) (Z.to_nat k) r) as [[vs r']|] eqn:E'; [|done]. inv_result.
  apply (length_of_sound 4) in E as (tl & -> & Hh & Hk & Hr); [|done..].
  apply (elements_sound _ _ _ IH _ _ _ Hr) in E' as (e & -> & He & Hl).
  exists ((4 * 32 + info :: tl) ++ e). split; [by rewrite <- app_assoc|]. constructor; [|done].
  unfold zlen. by rewrite Hl, Z2Nat.id.
Qed.

Lemma map_sound n info buf v rest :
  sound (enc n) (item n) -> bytes_ok buf -> 0 <= info <= 31 ->
  (let? (k, buf) := length_of info buf in
   let? (kvs, buf) := entries (item n) (Z.to_nat k) buf in Ok (VMap kvs, buf)) = Ok (v, rest) ->
  exists e, 5 * 32 + info :: buf = e ++ rest /\ enc (S n) v e.
Proof.
  intros IH Hb Hi H. destruct (length_of info buf) as [[k r]|] eqn:E; [|done].
  destruct (entries (item n) (Z.to_nat k) r) as [[kvs r']|] eqn:E'; [|done]. inv_result.
  apply (length_of_sound 5) in E as (tl & -> & Hh & Hk & Hr); [|done..].
  apply (entries_sound _ _ _ IH _ _ _ Hr) in E' as (e & -> & He & Hl).
  exists ((5 * 32 + info :: tl) ++ e). split; [by rewrite <- app_assoc|]. constructor; [|done].
  unfold zlen. by rewrite Hl, Z2Nat.id.
Qed.

Lemma item_sound n : sound (enc n) (item n).
Proof.
  induction n as [|n IH]; intros [|b buf] v rest Hb H; [done..|].
  apply bytes_ok_cons in Hb as [Hb Hbuf].
  destruct (byte_head b Hb) as (Hm & Hi & Hsplit). rewrite Hsplit in H |- *.
  revert Hm Hi H. generalize (Z.shiftr b 5), (Z.land b 31). clear b Hb Hsplit. intros m info Hm Hi.
  rewrite item_head by done.
  destruct (Z.eqb_spec m 0) as [->|].
  { intros H. destruct (argument info buf) as [[a r]|] eqn:E; [|done]. inv_result.
    apply (head_argument 0) in E as (tl & -> & Hh & _); [|done..].
    exists (0 * 32 + info :: tl). split; [done|]. by constructor. }
  destruct (Z.eqb_spec m 1) as [->|].
  { intros H. destruct (argument info buf) as [[a r]|] eqn:E; [|done]. inv_result.
    apply (head_argument 1) in E as (tl & -> & Hh & _); [|done..].
    exists (1 * 32 + info :: tl). split; [done|]. by constructor. }
  destruct (Z.eqb_spec m 2) as [->|]; [by apply string_sound|].
  destruct (Z.eqb_spec m 3) as [->|]; [by apply text_sound|].
  destruct (Z.eqb_spec m 4) as [->|]; [by apply array_sound|].
  destruct (Z.eqb_spec m 5) as [->|]; [by apply map_sound|].
  destruct (Z.eqb_spec m 6) as [->|].
  { intros H. destruct (argument info buf) as [[a r]|] eqn:E; [|done].
    destruct (item n r) as [[w r']|] eqn:E'; [|done]. inv_result.
    apply (head_argument 6) in E as (tl & -> & Hh & _); [|done..]. apply bytes_ok_app in Hbuf as [_ Hr].
    apply (IH _ _ _ Hr) in E' as (e & -> & He).
    exists ((6 * 32 + info :: tl) ++ e). split; [by rewrite <- app_assoc|]. by eapply E_tag. }
  assert (m = 7) as -> by lia. by apply simple_sound.
Qed.

(** ** Theorems *)

(** C40: the reader accepts exactly the format. For any bytes, [decode] returns
    a value and the bytes it left if and only if the input starts with an
    encoding of that value nested at most sixteen levels below the top item
    and the rest is what follows it: no length is trusted that bytes do not
    back, nothing is read past the end, every conforming input is read, and an
    input is read one way only. *)
Theorem decode_iff (buf rest : list Z) (v : Value) (Hb : bytes_ok buf) :
  decode buf = Ok (v, rest) <-> exists e, buf = e ++ rest /\ enc (MAX_DEPTH + 1) v e.
Proof.
  split; [by apply item_sound|]. intros (e & -> & He). by apply item_complete.
Qed.

(** {1: -7, text key alg: [true, null]} and one byte of the next item. *)
Definition sample : list Z := [162; 1; 38; 99; 97; 108; 103; 130; 245; 246; 0].

Lemma decode_iff_witness :
  exists e, sample = e ++ [0]
    /\ enc (MAX_DEPTH + 1)
         (VMap [(VInt 1, VInt (-7)); (VText (lit "alg"), VArray [VBool true; VNull])]) e.
Proof. apply (decode_iff sample [0]); [by repeat constructor|vm_compute; reflexivity]. Defined.

Example decode_lookups :
  exists v, decode_exact (take 10 sample) = Ok v
    /\ (get_int v 1 ≫= as_int) = Some (-7) /\ get_text v (lit "alg") = Some (VArray [VBool true; VNull])
    /\ get_int v 3 = None.
Proof. eexists. split; [vm_compute; reflexivity|]. done. Qed.
