(* ===== verification/AuditLog.v ===== *)
(** * The audit log

    Models [crates/ridm-core/src/audit_chain.rs] (the hash chain and its
    verifier), the writer, the verification walk, the scheduled check and the
    retention of [api/src/services/audit.rs], and the statements of
    [api/src/repos/audit.rs] and [api/src/repos/audit_chains.rs] they run.
    One value of [AuditDb] is one database: its table of events, in the order
    they were inserted, and its table of chains. Appends to a chain hold its
    lock, so an append is one step; a walk is taken at one state of the table. SHA-256, the JSON printer and chrono's
    RFC 3339 printer are parameters; times are in nanoseconds. *)

From stdpp Require Import gmap strings sorting.
From S2P Require Import Prelude Valkey AppState.

(** ** Rows *)

(** [serde_json::Value]; numbers by their text. *)
Inductive Json :=
| JNull
| JBool (b : bool)
| JNum (text : string)
| JStr (s : string)
| JArr (items : list Json)
| JObj (fields : list (string * Json)).

Definition as_object (v : Json) : option (list (string * Json)) :=
  match v with JObj m => Some m | _ => None end.
Definition as_str (v : Json) : option string :=
  match v with JStr s => Some s | _ => None end.
Definition field (k : string) (m : list (string * Json)) : option Json :=
  snd <$> List.find (fun kv => bool_decide (kv.1 = k)) m.

Record CanonicalRow := mkCanonicalRow {
  id : Uuid;
  tenant_id : option Uuid;
  seq : Z;
  occurred_at : Z;
  name : string;
  actor_type : string;
  actor_id : option Uuid;
  subject_id : option Uuid;
  impersonator_id : option Uuid;
  ip : option string;
  user_agent : option string;
  payload : Json
}.

(** A row of [audit_events]: the hashed fields, when it was recorded and its
    place in the chain. *)
Record AuditEvent := mkAuditEvent {
  canonical_view : CanonicalRow;
  recorded_at : Z;
  prev_hash : option (list Z);
  row_hash : list Z
}.

(** An event as published. *)
Record AEvent (Kind : Type) := mkAEvent {
  ae_id : Uuid;
  ae_tenant_id : option Uuid;
  ae_occurred_at : Z;
  ae_actor : Actor;
  ae_impersonator : option Uuid;
  ae_ip : option string;
  ae_user_agent : option string;
  ae_kind : Kind
}.
Arguments mkAEvent {_}. Arguments ae_id {_}. Arguments ae_tenant_id {_}.
Arguments ae_occurred_at {_}. Arguments ae_actor {_}. Arguments ae_impersonator {_}.
Arguments ae_ip {_}. Arguments ae_user_agent {_}. Arguments ae_kind {_}.

(** The nil UUID. *)
Definition nil_uuid : Uuid := 0.

Definition chain_id (tenant_id : option Uuid) : Uuid := default nil_uuid tenant_id.

(** The printers of chrono and serde_json. *)
Class Printers := {
  rfc3339_micros : Z -> string;
  json_text : Json -> string
}.

Record Break := mkBreak { b_seq : Z; b_reason : string }.

Record Verifier := mkVerifier {
  v_chain : option Uuid;
  v_prev : option (Z * list Z);
  v_checked : Z;
  v_first_seq : option Z;
  v_last_seq : option Z;
  v_last_hash : option (list Z)
}.
Definition Verifier_new : Verifier := mkVerifier None None 0 None None None.
Definition Verifier_after (chain : Uuid) (seq : Z) (hash : list Z) : Verifier :=
  mkVerifier (Some chain) (Some (seq, hash)) 0 None None None.

(** Where a chain's oldest row stands. *)
Inductive Oldest := Unknown | Empty | At (t : Z).

(** A row of [audit_chains] (its columns for the export sink left out). *)
Record ChainRow := mkChainRow {
  c_tenant_id : option Uuid;
  head_seq : Z;
  head_hash : list Z;
  oldest_at : Oldest;
  verified_seq : option Z;
  verified_hash : option (list Z);
  verified_at : option Z;
  broken_at_seq : option Z;
  broken_reason : option string;
  broken_at : option Z
}.

Record AuditDb := mkAuditDb { events : list AuditEvent; chains : gmap Uuid ChainRow }.

Inductive AuditError := SerializeError | UniqueViolation.

Definition EXPORT_PAGE : Z := 500.
Definition PURGE_BATCH : Z := 5000.

Definition SUBJECT_KEYS : list string :=
  ["user_id"; "client_id"; "role_id"; "group_id"; "org_id"; "invitation_id"; "key_id"; "mapper_id";
   "resource_server_id"; "scope_id"; "session_id"].

Section audit.
Context `{UuidDisplay} `{Printers}.
Context (sha256 : list Z -> list Z).

(** ** [audit_chain.rs] *)

Definition opt_uuid (u : option Uuid) : string :=
  match u with Some u => uuid_str u | None => EmptyString end.

(** The bytes the hash covers, as text. *)
Definition canonical (row : CanonicalRow) : string :=
  (uuid_str (id row) ++ "|" ++ uuid_str (chain_id (tenant_id row)) ++ "|" ++ pretty (seq row) ++ "|" ++
   rfc3339_micros (occurred_at row) ++ "|" ++ name row ++ "|" ++ actor_type row ++ "|" ++
   opt_uuid (actor_id row) ++ "|" ++ opt_uuid (subject_id row) ++ "|" ++
   default EmptyString (ip row) ++ "|" ++ default EmptyString (user_agent row) ++ "|" ++
   json_text (payload row) ++
   match impersonator_id row with
   | Some imp => "|impersonator:" ++ uuid_str imp
   | None => EmptyString
   end)%string.

Definition hash (prev : option (list Z)) (row : CanonicalRow) : list Z :=
  sha256 (default [] prev ++ ascii_bytes (canonical row)).

(** [Verifier::check]: what is wrong, if anything, and the verifier afterwards. *)
Definition check (v : Verifier) (row : CanonicalRow) (prev : option (list Z)) (rh : list Z)
    : option Break * Verifier :=
  let fail reason := Some (mkBreak (seq row) reason) in
  let chain := chain_id (tenant_id row) in
  if match v_chain v with Some c => negb (c =? chain) | None => false end
  then (fail "the row belongs to another chain", v)
  else
    let v := mkVerifier (Some chain) (v_prev v) (v_checked v) (v_first_seq v) (v_last_seq v) (v_last_hash v) in
    match
      match v_prev v with
      | Some (s, h) =>
          if negb (seq row =? s + 1) then fail ("gap in chain after seq " ++ pretty s)%string
          else if negb (bool_decide (prev = Some h))
          then fail "prev_hash does not link to the previous row"%string
          else None
      | None => None
      end
    with
    | Some b => (Some b, v)
    | None =>
        if negb (bool_decide (hash prev row = rh))
        then (fail "row hash does not match its contents", v)
        else
          (None,
           mkVerifier (Some chain) (Some (seq row, rh)) (v_checked v + 1)
             (Some (default (seq row) (v_first_seq v))) (Some (seq row)) (Some rh))
    end.

(** A loop of [check] that stops at the first break: over a page in [walk],
    over an export in the command line's [visit_seq]. *)
Fixpoint check_all (v : Verifier) (rows : list AuditEvent) : option Break * Verifier :=
  match rows with
  | [] => (None, v)
  | r :: rows =>
      match check v (canonical_view r) (prev_hash r) (row_hash r) with
      | (None, v) => check_all v rows
      | broken => broken
      end
  end.

(** ** [repos/audit.rs] *)

Definition of_chain (chain : Uuid) (r : AuditEvent) : Prop :=
  chain_id (tenant_id (canonical_view r)) = chain.
#[export] Instance of_chain_dec chain r : Decision (of_chain chain r).
Proof. unfold of_chain. apply _. Defined.

Definition seq_of (r : AuditEvent) : Z := seq (canonical_view r).
Definition seq_le (r r' : AuditEvent) : Prop := seq_of r <= seq_of r'.
#[export] Instance seq_le_dec r r' : Decision (seq_le r r').
Proof. unfold seq_le. apply _. Defined.

(** The chain's rows by position. *)
Definition by_seq (chain : Uuid) (rows : list AuditEvent) : list AuditEvent :=
  merge_sort seq_le (filter (of_chain chain) rows).

Definition chain_head (chain : Uuid) (rows : list AuditEvent) : option (Z * list Z) :=
  (fun r => (seq_of r, row_hash r)) <$> last (by_seq chain rows).

(** Refused by the primary key (id, occurred_at). *)
Definition same_key (r r' : AuditEvent) : Prop :=
  id (canonical_view r) = id (canonical_view r')
  /\ occurred_at (canonical_view r) = occurred_at (canonical_view r').
#[export] Instance same_key_dec r r' : Decision (same_key r r').
Proof. unfold same_key. apply _. Defined.

Fixpoint insert_many (new rows : list AuditEvent) : option (list AuditEvent) :=
  match new with
  | [] => Some rows
  | r :: new =>
      if bool_decide (Exists (same_key r) rows) then None else insert_many new (rows ++ [r])
  end.

Definition chain_page (chain : Uuid) (after_seq : option Z) (limit : Z) (rows : list AuditEvent)
    : list AuditEvent :=
  take (Z.to_nat limit)
    (filter (fun r => Is_true match after_seq with Some s => s <? seq_of r | None => true end)
       (by_seq chain rows)).

Definition expired_head (chain : Uuid) (cutoff : Z) (rows : list AuditEvent) : option Z :=
  seq_of <$> last (filter (fun r => occurred_at (canonical_view r) < cutoff) (by_seq chain rows)).

Definition first_row_at (chain : Uuid) (rows : list AuditEvent) : option Z :=
  (fun r => occurred_at (canonical_view r)) <$> head (by_seq chain rows).

(** Deletes up to [batch] rows at or below [up_to]; the rows left and how many
    went. *)
Definition purge_prefix (chain : Uuid) (up_to batch : Z) (rows : list AuditEvent)
    : list AuditEvent * Z :=
  let victims := take (Z.to_nat batch) (filter (fun r => seq_of r <= up_to) (by_seq chain rows)) in
  (filter (fun r => ~ Exists (same_key r) victims) rows,
   zlen (filter (fun r => Exists (same_key r) victims) rows)).

(** ** [repos/audit_chains.rs] *)

Definition recorded_head (chain : Uuid) (cs : gmap Uuid ChainRow) : option (Z * list Z) :=
  (fun c => (head_seq c, head_hash c)) <$> cs !! chain.

Definition advance_head (chain : Uuid) (tenant : option Uuid) (s : Z) (h : list Z) (appended_from : Z)
    (new_chain : bool) (cs : gmap Uuid ChainRow) : gmap Uuid ChainRow :=
  match cs !! chain with
  | None =>
      <[chain := mkChainRow tenant s h (if new_chain then At appended_from else Unknown)
                   None None None None None None]> cs
  | Some c =>
      if head_seq c <? s then
        <[chain := mkChainRow (c_tenant_id c) s h
                     (match oldest_at c with Empty => At appended_from | o => o end)
                     (verified_seq c) (verified_hash c) (verified_at c)
                     (broken_at_seq c) (broken_reason c) (broken_at c)]> cs
      else cs
  end.

Definition set_oldest (chain : Uuid) (oldest : option Z) (cs : gmap Uuid ChainRow) : gmap Uuid ChainRow :=
  alter (fun c => mkChainRow (c_tenant_id c) (head_seq c) (head_hash c)
                    (match oldest with Some t => At t | None => Empty end)
                    (verified_seq c) (verified_hash c) (verified_at c)
                    (broken_at_seq c) (broken_reason c) (broken_at c)) chain cs.

Definition set_verified (now : Z) (chain : Uuid) (s : Z) (h : list Z) (cs : gmap Uuid ChainRow)
    : gmap Uuid ChainRow :=
  alter (fun c => mkChainRow (c_tenant_id c) (head_seq c) (head_hash c) (oldest_at c)
                    (Some s) (Some h) (Some now) None None None) chain cs.

(** The new table and whether the break is new. *)
Definition set_broken (now : Z) (chain : Uuid) (s : Z) (reason : string) (cs : gmap Uuid ChainRow)
    : gmap Uuid ChainRow * bool :=
  match cs !! chain with
  | Some c =>
      if bool_decide (broken_at_seq c = Some s) then (cs, false)
      else
        (<[chain := mkChainRow (c_tenant_id c) (head_seq c) (head_hash c) (oldest_at c)
                      (verified_seq c) (verified_hash c) (verified_at c)
                      (Some s) (Some reason) (Some now)]> cs, true)
  | None => (cs, false)
  end.

(** ** Walking a chain *)

Record Walk := mkWalk { verifier : Verifier; broken : option Break }.

(** The loop over pages, with fuel. *)
Fixpoint walk_loop (fuel : nat) (rows : list AuditEvent) (chain : Uuid) (v : Verifier) (after : option Z)
    : Walk :=
  match fuel with
  | O => mkWalk v None
  | S fuel =>
      let page := chain_page chain after EXPORT_PAGE rows in
      match check_all v page with
      | (Some b, v) => mkWalk v (Some b)
      | (None, v) =>
          if zlen page <? EXPORT_PAGE then mkWalk v None
          else walk_loop fuel rows chain v (seq_of <$> last page)
      end
  end.

Definition walk (rows : list AuditEvent) (chain : Uuid) (from : option (Z * list Z)) : Walk :=
  let '(v, after) :=
    match from with
    | Some (s, h) => (Verifier_after chain s h, Some s)
    | None => (Verifier_new, None)
    end in
  walk_loop (S (length rows)) rows chain v after.

Definition verify_in (rows : list AuditEvent) (tenant : Uuid) : result (Z * string) Z :=
  let w := walk rows (chain_id (Some tenant)) None in
  match broken w with
  | None => Ok (v_checked (verifier w))
  | Some b => Err (b_seq b, b_reason b)
  end.

(** ** The scheduled check *)

Definition checkpoint_intact (rows : list AuditEvent) (chain : Uuid) (s : Z) (h : list Z)
    : option (result Break (Z * list Z)) :=
  match chain_page chain (Some (s - 1)) 1 rows with
  | row :: _ =>
      if negb (seq_of row =? s) then None
      else if negb (bool_decide (row_hash row = h))
              || negb (bool_decide (hash (prev_hash row) (canonical_view row) = row_hash row))
      then Some (Err (mkBreak s "the last verified row has changed since it was verified"))
      else Some (Ok (s, row_hash row))
  | [] => None
  end.

Record ChainCheck := mkChainCheck { cc_checked : Z; cc_broken_at_seq : option Z }.

(** The check, the tables afterwards, and the break to announce. *)
Definition verify_one (now : Z) (chain : Uuid) (c : ChainRow) (db : AuditDb)
    : ChainCheck * AuditDb * option Break :=
  let from :=
    match verified_seq c, verified_hash c, broken_at_seq c with
    | Some s, Some h, None => checkpoint_intact (events db) chain s h
    | _, _, _ => None
    end in
  let w :=
    match from with
    | Some (Err b) => mkWalk Verifier_new (Some b)
    | Some (Ok start) => walk (events db) chain (Some start)
    | None => walk (events db) chain None
    end in
  let checked := v_checked (verifier w) in
  match broken w with
  | None =>
      let cs :=
        match v_last_seq (verifier w), v_last_hash (verifier w) with
        | Some s, Some h => set_verified now chain s h (chains db)
        | _, _ => chains db
        end in
      (mkChainCheck checked None, mkAuditDb (events db) cs, None)
  | Some b =>
      let '(cs, new) := set_broken now chain (b_seq b) (b_reason b) (chains db) in
      (mkChainCheck checked (Some (b_seq b)), mkAuditDb (events db) cs, if new then Some b else None)
  end.

Definition verify_chain (now : Z) (tenant : option Uuid) (db : AuditDb)
    : ChainCheck * AuditDb * option Break :=
  let chain := chain_id tenant in
  match chains db !! chain with
  | Some c => verify_one now chain c db
  | None => (mkChainCheck 0 None, db, None)
  end.

(** ** Retention *)

(** The loop over batches, with fuel. *)
Fixpoint purge_loop (fuel : nat) (chain : Uuid) (up_to total : Z) (rows : list AuditEvent)
    : list AuditEvent * Z :=
  match fuel with
  | O => (rows, total)
  | S fuel =>
      let '(rows, n) := purge_prefix chain up_to PURGE_BATCH rows in
      if n <? PURGE_BATCH then (rows, total + n) else purge_loop fuel chain up_to (total + n) rows
  end.

Definition purge (now : Z) (tenant : option Uuid) (retention_days : Z) (db : AuditDb) : Z * AuditDb :=
  if retention_days =? 0 then (0, db)
  else
    let cutoff := now - retention_days * (86400 * 1000000000) in
    let chain := chain_id tenant in
    let '(rows, total) :=
      match expired_head chain cutoff (events db) with
      | Some up_to => purge_loop (S (length (events db))) chain up_to 0 (events db)
      | None => (events db, 0)
      end in
    (total, mkAuditDb rows (set_oldest chain (first_row_at chain rows) (chains db))).

(** A monthly partition, from the start of its month to the start of the next. *)
Record Partition := mkPartition { pt_from : Z; pt_until : Z }.
Definition in_partition (p : Partition) (r : AuditEvent) : Prop :=
  pt_from p <= occurred_at (canonical_view r) < pt_until p.
#[export] Instance in_partition_dec p r : Decision (in_partition p r).
Proof. unfold in_partition. apply _. Defined.
(** [audit_drop_partitions_before] (a function of the migrations) as
    [drop_partitions_before] calls it: the partitions that could be locked, in
    order, each dropped when it ended by the cutoff, is not of this month, and
    holds rows of the given chains only. *)
Definition drop_partition (cutoff this_month : Z) (vouched : list Uuid) (acc : Z * list AuditEvent) (p : Partition) : Z * list AuditEvent :=
  let '(dropped, rows) := acc in
  if (cutoff <? pt_until p) || (this_month <? pt_until p) then (dropped, rows)
  else if bool_decide (Exists (fun r => in_partition p r /\ chain_id (tenant_id (canonical_view r)) ∉ vouched) rows) then (dropped, rows)
  else (dropped + 1, filter (fun r => ~ in_partition p r) rows).
Definition drop_partitions_before (cutoff this_month : Z) (vouched : list Uuid) (parts : list Partition) (rows : list AuditEvent) : Z * list AuditEvent :=
  foldl (drop_partition cutoff this_month vouched) (0, rows) parts.
(** [governed]: each chain with its retention in days. *)
Definition drop_expired_partitions (now this_month : Z) (governed : list (Uuid * Z)) (parts : list Partition) (db : AuditDb) : Z * AuditDb :=
  let kept := filter (fun g => 0 < g.2) governed in
  match kept with
  | [] => (0, db)
  | _ =>
      let longest := foldr (fun g => Z.max g.2) 0 kept in
      let day := 86400 * 1000000000 in
      let cutoff := (now - longest * day) / day * day in
      let '(n, rows) := drop_partitions_before cutoff this_month kept.*1 parts (events db) in
      (n, mkAuditDb rows (chains db))
  end.

(** ** Writing *)

Definition actor_parts (a : Actor) : string * option Uuid :=
  match a with
  | ActUser id => ("user", Some id)
  | ActClient id => ("client", Some id)
  | ActAdmin id => ("admin", Some id)
  | ActSystem => ("system", None)
  end%string.

(** The first subject key that holds a string, when that string is an id. *)
Fixpoint find_map {A B} (f : A -> option B) (l : list A) : option B :=
  match l with
  | [] => None
  | a :: l => match f a with Some b => Some b | None => find_map f l end
  end.
Definition subject_of (v : Json) : option Uuid :=
  obj ← as_object v;
  s ← find_map (fun k => field k obj ≫= as_str) SUBJECT_KEYS;
  parse_str s.

(** The event's name and its JSON document, which [Serialize] derives. *)
Context {Kind : Type} (name_of : Kind -> string) (to_value : Kind -> option Json).

(** The row [event] becomes once appended after [prev]. *)
Definition chain_row (now : Z) (event : AEvent Kind) (prev : option (Z * list Z))
    : result AuditError AuditEvent :=
  let '(a_type, a_id) := actor_parts (ae_actor event) in
  let? doc := ok_or (to_value (ae_kind event)) SerializeError in
  let '(s, ph) := match prev with Some (s, h) => (s + 1, Some h) | None => (1, None) end in
  let row :=
    mkCanonicalRow (ae_id event) (ae_tenant_id event) s (ae_occurred_at event)
      (name_of (ae_kind event)) a_type a_id (subject_of doc) (ae_impersonator event)
      (ae_ip event) (ae_user_agent event) doc in
  Ok (mkAuditEvent row now ph (hash ph row)).

(** The rows of a batch, each after the one before it. *)
Fixpoint chain_rows (now : Z) (evs : list (AEvent Kind)) (head : option (Z * list Z))
    : result AuditError (list AuditEvent) :=
  match evs with
  | [] => Ok []
  | e :: evs =>
      let? row := chain_row now e head in
      let? rows := chain_rows now evs (Some (seq_of row, row_hash row)) in
      Ok (row :: rows)
  end.

(** [record_chain]: an error rolls the transaction back. *)
Definition record_chain (now : Z) (tenant : option Uuid) (evs : list (AEvent Kind)) (db : AuditDb)
    : result AuditError (list AuditEvent) * AuditDb :=
  let chain := chain_id tenant in
  let head :=
    match recorded_head chain (chains db) with
    | Some head => Some head
    | None => chain_head chain (events db)
    end in
  let new_chain := bool_decide (head = None) in
  match chain_rows now evs head with
  | Err e => (Err e, db)
  | Ok rows =>
      match insert_many rows (events db) with
      | None => (Err UniqueViolation, db)
      | Some evts =>
          let cs :=
            match rows, last rows with
            | first :: _, Some lst =>
                advance_head chain (tenant_id (canonical_view lst)) (seq_of lst) (row_hash lst)
                  (occurred_at (canonical_view first)) new_chain (chains db)
            | _, _ => chains db
            end in
          (Ok rows, mkAuditDb evts cs)
      end
  end.

End audit.

(** [group_by_chain]: each chain's events, in order. *)
Fixpoint push_group {Kind} (e : AEvent Kind) (groups : list (option Uuid * list (AEvent Kind)))
    : list (option Uuid * list (AEvent Kind)) :=
  match groups with
  | [] => [(ae_tenant_id e, [e])]
  | (t, l) :: groups =>
      if bool_decide (t = ae_tenant_id e) then (t, l ++ [e]) :: groups
      else (t, l) :: push_group e groups
  end.
Definition group_by_chain {Kind} (evs : list (AEvent Kind)) : list (option Uuid * list (AEvent Kind)) :=
  foldl (fun groups e => push_group e groups) [] evs.

(** ** Chains in order *)

(** The rows are sorted by position, each position once. *)
Definition ordered (rows : list AuditEvent) : Prop :=
  StronglySorted (fun r r' => seq_of r < seq_of r') rows.

Lemma ordered_app l k :
  ordered (l ++ k) <-> (forall x y, x ∈ l -> y ∈ k -> seq_of x < seq_of y) /\ ordered l /\ ordered k.
Proof. apply StronglySorted_app. Qed.

Lemma seq_le_total : Total seq_le.
Proof. intros x y. unfold seq_le. lia. Qed.
Lemma seq_le_trans : Transitive seq_le.
Proof. intros x y z. unfold seq_le. lia. Qed.

Lemma ordered_inj l x y : ordered l -> x ∈ l -> y ∈ l -> seq_of x = seq_of y -> x = y.
Proof.
  induction 1 as [|a l Hl IH Ha]; intros Hx Hy E; [by apply not_elem_of_nil in Hx|].
  rewrite Forall_forall in Ha.
  apply elem_of_cons in Hx as [->|Hx]; apply elem_of_cons in Hy as [->|Hy]; [done|..|by apply IH].
  - specialize (Ha _ Hy). lia.
  - specialize (Ha _ Hx). lia.
Qed.

Lemma ordered_le l : ordered l -> StronglySorted seq_le l.
Proof.
  induction 1 as [|a l Hl IH Ha]; constructor; [done|].
  eapply Forall_impl; [exact Ha|]. intros x Hx. unfold seq_le. cbn in Hx. lia.
Qed.

(** Sorting a chain whose rows are in order changes nothing. *)
Lemma by_seq_ordered chain rows :
  ordered (filter (of_chain chain) rows) -> by_seq chain rows = filter (of_chain chain) rows.
Proof.
  intros Ho. unfold by_seq. apply (StronglySorted_unique_strong seq_le).
  - intros x y Hx Hy H1 H2. rewrite (merge_sort_Permutation seq_le) in Hx.
    apply (ordered_inj _ _ _ Ho Hx Hy). unfold seq_le in *. lia.
  - apply StronglySorted_merge_sort; [exact seq_le_trans|exact seq_le_total].
  - by apply ordered_le.
  - apply merge_sort_Permutation.
Qed.

(** In an ordered list, the rows past a position are a suffix, those up to
    it a prefix. *)
Lemma ordered_split l s :
  ordered l ->
  l = filter (fun r => seq_of r <= s) l ++ filter (fun r => s < seq_of r) l.
Proof.
  induction 1 as [|a l Hl IH Ha]; [done|].
  destruct (decide (seq_of a <= s)) as [Hle|Hgt].
  - rewrite filter_cons_True by done. rewrite (filter_cons_False _ a) by lia. cbn [app]. by f_equal.
  - rewrite (filter_cons_False _ a) by lia. rewrite (filter_cons_True _ a) by lia.
    assert (filter (fun r => seq_of r <= s) l = []) as E.
    { apply filter_none. eapply Forall_impl; [exact Ha|]. intros x Hx. cbn in Hx |- *. lia. }
    rewrite E in *. cbn [app] in *. by f_equal.
Qed.

Lemma ordered_filter (P : AuditEvent -> Prop) `{forall x, Decision (P x)} l : ordered l -> ordered (filter P l).
Proof.
  induction 1 as [|a l Hl IH Ha]; [constructor|]. rewrite filter_cons. case_decide; [|done].
  constructor; [done|]. rewrite Forall_forall in *. intros x [_ Hx]%list_elem_of_filter. by apply Ha.
Qed.

Lemma ordered_last l e : ordered l -> last l = Some e -> e ∈ l /\ Forall (fun r => seq_of r <= seq_of e) l.
Proof.
  intros Ho [k ->]%last_Some. apply ordered_app in Ho as (Hlt & _).
  assert (e ∈ [e]) as He by (by apply list_elem_of_singleton).
  split; [apply elem_of_app; by right|]. apply Forall_forall.
  intros r [Hr| ->%list_elem_of_singleton]%elem_of_app; [|lia]. specialize (Hlt r e Hr He). lia.
Qed.

Lemma after_filter (s : option Z) (l : list AuditEvent) :
  filter (fun r => Is_true match s with Some s => s <? seq_of r | None => true end) l
  = match s with Some s => filter (fun r => s < seq_of r) l | None => l end.
Proof.
  destruct s as [s|].
  - apply list_filter_iff. intros r. rewrite Is_true_true. apply Z.ltb_lt.
  - apply filter_all. by apply Forall_true.
Qed.

(** ** Links *)

Section links.
Context `{UuidDisplay} `{Printers}.
Context (sha256 : list Z -> list Z).

(** What the verifier establishes: every row is of the chain, follows the one
    before it and hashes to what it says. The first row follows [prev]; with
    none, its link is taken on trust. *)
Fixpoint linked (chain : Uuid) (prev : option (Z * list Z)) (rows : list AuditEvent) : Prop :=
  match rows with
  | [] => True
  | r :: rows =>
      of_chain chain r
      /\ (forall s h, prev = Some (s, h) -> seq_of r = s + 1 /\ prev_hash r = Some h)
      /\ hash sha256 (prev_hash r) (canonical_view r) = row_hash r
      /\ linked chain (Some (seq_of r, row_hash r)) rows
  end.

(** The point after a row, or [prev]. *)
Definition point (prev : option (Z * list Z)) (rows : list AuditEvent) : option (Z * list Z) :=
  match last rows with Some r => Some (seq_of r, row_hash r) | None => prev end.

Lemma point_cons prev r rows : point prev (r :: rows) = point (Some (seq_of r, row_hash r)) rows.
Proof. unfold point. rewrite last_cons. by destruct (last rows). Qed.

Lemma linked_app chain prev l k :
  linked chain prev (l ++ k) <-> linked chain prev l /\ linked chain (point prev l) k.
Proof.
  revert prev. induction l as [|r l IH]; intros prev; cbn [app linked]; [by unfold point; tauto|].
  rewrite IH, point_cons. tauto.
Qed.

Lemma linked_weaken chain prev l : linked chain prev l -> linked chain None l.
Proof. destruct l as [|r l]; [done|]. cbn [linked]. intros (? & _ & ? & ?). by repeat split. Qed.

Lemma linked_chain chain prev l r : linked chain prev l -> r ∈ l -> of_chain chain r.
Proof.
  revert prev. induction l as [|r' l IH]; intros prev; [by intros _ ?%not_elem_of_nil|].
  cbn [linked]. intros (Hc & _ & _ & Hl). intros [->|Hr]%elem_of_cons; [done|]. by eapply IH.
Qed.

(** Positions along a link go up by one. *)
Lemma linked_seq chain s h l :
  linked chain (Some (s, h)) l -> Forall (fun r => s < seq_of r) l /\ ordered l.
Proof.
  revert s h. induction l as [|r l IH]; intros s h; cbn [linked]; [by repeat constructor|].
  intros (_ & Hp & _ & Hl). destruct (Hp s h eq_refl) as [Hs _].
  destruct (IH _ _ Hl) as [Hall Ho]. split.
  - constructor; [lia|]. eapply Forall_impl; [exact Hall|]. cbn. lia.
  - by constructor.
Qed.

Lemma linked_ordered chain l : linked chain None l -> ordered l.
Proof.
  destruct l as [|r l]; [constructor|]. cbn [linked]. intros (_ & _ & _ & Hl).
  destruct (linked_seq _ _ _ _ Hl). by constructor.
Qed.

(** [check_all] succeeds on what is linked, and counts it. *)
Lemma check_all_linked chain v l :
  (v_chain v = None \/ v_chain v = Some chain) -> linked chain (v_prev v) l ->
  exists v', check_all sha256 v l = (None, v') /\ v_checked v' = v_checked v + zlen l
    /\ (v_chain v' = None \/ v_chain v' = Some chain) /\ v_prev v' = point (v_prev v) l
    /\ (l <> [] -> match last l with
                   | Some r => v_last_seq v' = Some (seq_of r) /\ v_last_hash v' = Some (row_hash r)
                   | None => False end)
    /\ (l = [] -> v' = v).
Proof.
  revert v. induction l as [|r l IH]; intros v Hc Hl.
  { exists v. split; [done|]. split; [unfold zlen; cbn; lia|]. by split_and!. }
  cbn [linked] in Hl. destruct Hl as (Hr & Hp & Hh & Hl). cbn [check_all]. unfold check.
  assert (match v_chain v with Some c => negb (c =? chain_id (tenant_id (canonical_view r))) | None => false end
          = false) as ->.
  { unfold of_chain in Hr. destruct Hc as [->| ->]; [done|]. by rewrite Hr, Z.eqb_refl. }
  cbn [v_prev v_checked v_first_seq v_last_seq v_last_hash].
  match goal with |- context [match v_prev v with Some _ => _ | None => None end] =>
    assert (match v_prev v with
      | Some (s, h) =>
          if negb (seq (canonical_view r) =? s + 1)
          then Some (mkBreak (seq (canonical_view r)) ("gap in chain after seq " ++ pretty s))
          else if negb (bool_decide (prev_hash r = Some h))
          then Some (mkBreak (seq (canonical_view r)) "prev_hash does not link to the previous row")
          else None
      | None => None end = None) as -> end.
  { destruct (v_prev v) as [[s h]|]; [|done]. destruct (Hp s h eq_refl) as [E ->].
    unfold seq_of in E. rewrite E, Z.eqb_refl. cbn [negb]. by rewrite bool_decide_eq_true_2. }
  rewrite bool_decide_eq_true_2 by done. cbn [negb].
  set (v1 := mkVerifier _ _ _ _ _ _).
  destruct (IH v1) as (v' & -> & Hn & Hc' & Hp' & Hlast & Hnil).
  { right. cbn. f_equal. exact Hr. }
  { exact Hl. }
  exists v'. split; [done|]. split; [rewrite Hn, zlen_cons; cbn; lia|]. split; [done|].
  split; [by rewrite Hp', point_cons|]. split; [|done]. intros _. rewrite last_cons.
  destruct l as [|r2 l2]; [|by specialize (Hlast ltac:(done)); destruct (last (r2 :: l2))].
  rewrite (Hnil eq_refl). done.
Qed.

(** Conversely, rows that pass are linked. *)
Lemma check_all_sound v l v' chain :
  check_all sha256 v l = (None, v') -> v_chain v = Some chain ->
  linked chain (v_prev v) l.
Proof.
  revert v. induction l as [|r l IH]; intros v Hk Hc; [done|].
  cbn [check_all] in Hk. destruct (check _ _ _ _ _) as [[b|] v1] eqn:E; [done|].
  unfold check in E. rewrite Hc in E. destruct (chain =? _) eqn:Ec; [|done]. cbn [negb] in E.
  cbn [v_prev] in E. bool_hyps.
  destruct (match v_prev v with Some _ => _ | None => _ end) as [b|] eqn:Ep; [done|].
  destruct (bool_decide (hash _ _ _ = _)) eqn:Eh; [|done]. cbn [negb] in E. injection E as <-.
  bool_hyps. assert (Some (chain_id (tenant_id (canonical_view r))) = Some chain) as Hc'
    by (f_equal; by symmetry). specialize (IH _ Hk Hc'). cbn [v_prev] in IH.
  cbn [linked]. split; [unfold of_chain; lia|]. split; [|by split].
  intros s h Hs. rewrite Hs in Ep. unfold seq_of.
  destruct (seq (canonical_view r) =? s + 1) eqn:Es; [|done].
  destruct (bool_decide (prev_hash r = Some h)) eqn:Eq; [|done]. bool_hyps. split; [lia|done].
Qed.
End links.

(** ** The walk *)

Lemma check_all_app `{UuidDisplay} `{Printers} sha256 v l k :
  check_all sha256 v (l ++ k)
  = match check_all sha256 v l with (None, v) => check_all sha256 v k | broken => broken end.
Proof.
  revert v. induction l as [|r l IH]; intros v; cbn [app check_all]; [done|].
  destruct (check _ _ _ _ _) as [[b|] v1]; [done|]. apply IH.
Qed.

Lemma ordered_drop_after l n r :
  ordered l -> last (take n l) = Some r ->
  filter (fun x => seq_of r < seq_of x) l = drop n l.
Proof.
  intros Ho Hl. rewrite <- (take_drop n l) at 1. rewrite filter_app.
  rewrite <- (take_drop n l) in Ho. apply ordered_app in Ho as (Hlt & Ho & _).
  apply last_Some in Hl as [k Hk]. rewrite Hk in *.
  rewrite filter_none, filter_all; [done|..].
  - apply Forall_forall. intros x Hx. apply Hlt; [|done]. apply elem_of_app. right.
    by apply list_elem_of_singleton.
  - apply ordered_app in Ho as (Hlt' & _ & _). apply Forall_app. split.
    + apply Forall_forall. intros x Hx. specialize (Hlt' x r Hx ltac:(by apply list_elem_of_singleton)). lia.
    + repeat constructor. lia.
Qed.

(** Reading page by page checks the rows past the starting point, once each. *)
Lemma walk_loop_spec `{UuidDisplay} `{Printers} sha256 chain (rows l : list AuditEvent) fuel v after todo :
  by_seq chain rows = l -> ordered l ->
  filter (fun r => Is_true match after with Some s => s <? seq_of r | None => true end) l = todo ->
  (length todo < fuel)%nat ->
  walk_loop sha256 fuel rows chain v after
  = let '(b, v') := check_all sha256 v todo in mkWalk v' b.
Proof.
  intros El Ho. revert v after todo. induction fuel as [|fuel IH]; intros v after todo Et Hf; [lia|].
  cbn [walk_loop]. unfold chain_page. rewrite El, Et. set (n := Z.to_nat EXPORT_PAGE).
  replace (check_all sha256 v todo) with (check_all sha256 v (take n todo ++ drop n todo))
    by (by rewrite take_drop).
  rewrite check_all_app.
  destruct (check_all sha256 v (take n todo)) as [[b|] v1] eqn:Ek; [done|].
  destruct (Z.ltb_spec (zlen (take n todo)) EXPORT_PAGE) as [Hlt|Hge].
  - unfold zlen in Hlt. rewrite length_take in Hlt. by rewrite drop_ge by (subst n; lia).
  - unfold zlen in Hge. rewrite length_take in Hge.
    destruct (last (take n todo)) as [r|] eqn:Er.
    2: { apply last_None in Er. apply (f_equal length) in Er. rewrite length_take in Er.
         unfold EXPORT_PAGE in *. subst n. cbn [length] in Er. lia. }
    assert (filter (fun x => seq_of r < seq_of x) l = drop n todo) as Ed.
    { rewrite after_filter in Et.
      assert (ordered todo) as Ho'.
      { destruct after as [s|]; [|by subst]. rewrite (ordered_split l s Ho) in Ho.
        apply ordered_app in Ho as (_ & _ & Ho). by rewrite Et in Ho. }
      rewrite <- (ordered_drop_after todo n r Ho' Er). rewrite <- Et.
      destruct after as [s|]; [|done]. symmetry. apply list_filter_filter_l. intros x Hx.
      assert (r ∈ todo) as Hr.
      { apply last_Some_elem_of, elem_of_take in Er as (i & Hi & _). by eapply list_elem_of_lookup_2. }
      rewrite <- Et in Hr. apply list_elem_of_filter in Hr as [Hr _]. lia. }
    cbn [fmap option_fmap option_map]. rewrite (IH v1 (Some (seq_of r)) (drop n todo)); [done| |].
    + rewrite <- Ed. exact (after_filter (Some (seq_of r)) l).
    + rewrite length_drop. unfold EXPORT_PAGE in Hge. subst n. lia.
Qed.

Lemma walk_spec `{UuidDisplay} `{Printers} sha256 chain rows from l :
  l = filter (of_chain chain) rows -> ordered l ->
  walk sha256 rows chain from
  = let '(b, v') :=
      match from with
      | Some (s, h) =>
          check_all sha256 (Verifier_after chain s h) (filter (fun r => s < seq_of r) l)
      | None => check_all sha256 Verifier_new l
      end in
    mkWalk v' b.
Proof.
  intros -> Ho. set (l := filter (of_chain chain) rows) in *.
  assert (by_seq chain rows = l) as El by (by apply by_seq_ordered).
  assert (length l <= length rows)%nat as Hlen by apply length_filter.
  unfold walk. destruct from as [[s h]|].
  - apply (walk_loop_spec sha256 chain rows l); [done|done|exact (after_filter (Some s) l)|].
    pose proof (length_filter (fun r => s < seq_of r) l). lia.
  - apply (walk_loop_spec sha256 chain rows l); [done|done|exact (after_filter None l)|lia].
Qed.

(** ** What the writer, retention and the scheduled check keep *)

(** The primary key. *)
Definition row_key (r : AuditEvent) : Uuid * Z := (id (canonical_view r), occurred_at (canonical_view r)).

Lemma same_key_iff r r' : same_key r r' <-> row_key r = row_key r'.
Proof. unfold same_key, row_key. split; [by intros [-> ->]|by intros [= -> ->]]. Qed.

Lemma keys_inj (l : list AuditEvent) x y :
  NoDup (row_key <$> l) -> x ∈ l -> y ∈ l -> same_key x y -> x = y.
Proof. rewrite same_key_iff. apply nodup_key_inj. Qed.

Abbreviation rows_of chain db := (filter (of_chain chain) (events db)).

Section intact.
Context `{UuidDisplay} `{Printers}.
Context (sha256 : list Z -> list Z).
Context {Kind : Type} (name_of : Kind -> string) (to_value : Kind -> option Json).

Record intact (db : AuditDb) : Prop := {
  in_linked chain : linked sha256 chain None (rows_of chain db);
  in_keys : NoDup (row_key <$> events db);
  in_head chain c r :
    chains db !! chain = Some c -> last (rows_of chain db) = Some r ->
    head_seq c = seq_of r /\ head_hash c = row_hash r;
  in_verified chain c :
    chains db !! chain = Some c ->
    broken_at_seq c = None
    /\ forall s h, verified_seq c = Some s -> verified_hash c = Some h ->
       s <= head_seq c /\ forall r, r ∈ rows_of chain db -> seq_of r = s -> row_hash r = h
}.

Lemma intact_empty : intact (mkAuditDb [] ∅).
Proof.
  split; cbn [events chains]; [done|apply NoDup_nil_2|..].
  - intros chain c r Hc. by rewrite lookup_empty in Hc.
  - intros chain c Hc. by rewrite lookup_empty in Hc.
Qed.

Lemma chain_rows_linked now evs head rows tenant :
  chain_rows sha256 name_of to_value now evs head = Ok rows ->
  Forall (fun e => ae_tenant_id e = tenant) evs ->
  linked sha256 (chain_id tenant) head rows.
Proof.
  revert head rows. induction evs as [|e evs IH]; intros head rows Hr Ht; cbn [chain_rows] in Hr.
  { by inv_result. }
  apply Forall_cons in Ht as [He Ht].
  destruct (chain_row _ _ _ _ _ _) as [row|] eqn:Er; [|done].
  destruct (chain_rows _ _ _ _ _ _) as [rest|] eqn:Es; [|done]. inv_result.
  unfold chain_row in Er. destruct (actor_parts (ae_actor e)) as [a_type a_id].
  destruct (to_value (ae_kind e)) as [doc|]; [|done]. cbn [ok_or] in Er.
  destruct head as [[s h]|]; inv_result; cbn [linked];
    (split; [done|]); (split; [|split; [done|by apply (IH _ _ Es)]]).
  - intros s' h' [= <- <-]. done.
  - done.
Qed.

Lemma insert_many_spec new rows rows' :
  insert_many new rows = Some rows' -> NoDup (row_key <$> rows) ->
  rows' = rows ++ new /\ NoDup (row_key <$> rows').
Proof.
  revert rows. induction new as [|r new IH]; intros rows; cbn [insert_many].
  { intros [= ->] Hn. by rewrite app_nil_r. }
  destruct (bool_decide (Exists (same_key r) rows)) eqn:He; [done|]. apply bool_decide_eq_false in He.
  intros Hi Hn. apply IH in Hi as [-> Hn'].
  - split; [by rewrite <- app_assoc|done].
  - rewrite fmap_app. apply NoDup_app. split; [done|]. split; [|by apply NoDup_singleton].
    intros k Hk Hk'. apply list_elem_of_singleton in Hk' as ->.
    apply list_elem_of_fmap in Hk as (r' & Ek & Hr'). apply He, Exists_exists. exists r'.
    split; [done|]. by apply same_key_iff.
Qed.

(** The head an append starts from is where the chain's rows end. *)
Lemma append_point db chain :
  intact db -> rows_of chain db <> [] ->
  match recorded_head chain (chains db) with
  | Some head => Some head
  | None => chain_head chain (events db)
  end = point None (rows_of chain db).
Proof.
  intros Hi Hne. unfold point. destruct (last (rows_of chain db)) as [r|] eqn:El.
  2: { by apply last_None in El. }
  unfold recorded_head. destruct (chains db !! chain) as [c|] eqn:Ec; cbn.
  - destruct (in_head _ Hi _ _ _ Ec El) as [-> ->]. done.
  - unfold chain_head. rewrite by_seq_ordered by (eapply linked_ordered, in_linked; done).
    by rewrite El.
Qed.

Lemma filter_other chain chain' l : chain <> chain' -> Forall (of_chain chain) l -> filter (of_chain chain') l = [].
Proof.
  intros Hne Hl. apply filter_none. eapply Forall_impl; [exact Hl|]. unfold of_chain. intros x -> ?. done.
Qed.

Lemma advance_head_lookup chain t s h from new cs chain' :
  advance_head chain t s h from new cs !! chain'
  = if decide (chain' = chain) then
      match cs !! chain with
      | None => Some (mkChainRow t s h (if new then At from else Unknown) None None None None None None)
      | Some c => if head_seq c <? s then
          Some (mkChainRow (c_tenant_id c) s h
                  (match oldest_at c with Empty => At from | o => o end)
                  (verified_seq c) (verified_hash c) (verified_at c)
                  (broken_at_seq c) (broken_reason c) (broken_at c)) else Some c
      end
    else cs !! chain'.
Proof.
  unfold advance_head. case_decide as E; [subst|].
  - destruct (cs !! chain) as [c|] eqn:Ec; [|by rewrite lookup_insert_eq].
    destruct (head_seq c <? s); [by rewrite lookup_insert_eq|done].
  - destruct (cs !! chain) as [c|]; [destruct (head_seq c <? s)|]; by rewrite ?lookup_insert_ne.
Qed.

Lemma intact_record now tenant evs db :
  Forall (fun e => ae_tenant_id e = tenant) evs -> intact db ->
  intact (record_chain sha256 name_of to_value now tenant evs db).2.
Proof.
  intros Ht Hi. unfold record_chain. set (chain := chain_id tenant).
  set (head := match recorded_head chain (chains db) with Some h => Some h | None => _ end).
  destruct (chain_rows _ _ _ _ _ _) as [rows|] eqn:Er; [|done].
  pose proof (chain_rows_linked _ _ _ _ _ Er Ht) as Hl. fold chain in Hl.
  destruct (insert_many rows (events db)) as [evts|] eqn:Ei; [|done].
  apply insert_many_spec in Ei as [-> Hk]; [|apply Hi]. cbn [snd].
  assert (Forall (of_chain chain) rows) as Hof
    by (apply Forall_forall; intros r Hr; by eapply linked_chain).
  assert (forall chain', filter (of_chain chain') (events db ++ rows)
    = if decide (chain' = chain) then rows_of chain db ++ rows else rows_of chain' db) as Hf.
  { intros chain'. rewrite filter_app. case_decide as E.
    - rewrite E, (filter_all _ rows) by done. done.
    - rewrite (filter_other chain chain' rows) by done. apply app_nil_r. }
  destruct rows as [|first rest] eqn:Erows.
  { destruct db as [evs0 cs]. cbn [events chains] in *. rewrite app_nil_r. exact Hi. }
  destruct (last (first :: rest)) as [lst|] eqn:El; [|by apply last_None in El].
  rewrite <- Erows in *. clear Erows.
  assert (forall c, chains db !! chain = Some c -> linked sha256 chain (Some (head_seq c, head_hash c)) rows)
    as Hlc by (intros c Hc; revert Hl; subst head; unfold recorded_head; by rewrite Hc).
  assert (lst ∈ rows) as Hin by (by apply last_Some_elem_of).
  split; cbn [events chains].
  - intros chain'. rewrite Hf. case_decide as E; [subst chain'|apply Hi].
    apply linked_app. split; [apply Hi|].
    destruct (decide (rows_of chain db = [])) as [E0|E0].
    + rewrite E0. cbn [point last]. by eapply linked_weaken.
    + rewrite <- append_point by done. exact Hl.
  - done.
  - intros chain' c r. rewrite advance_head_lookup, Hf. case_decide as E; [|by apply Hi].
    rewrite last_app, El. intros Hc [= <-]. destruct (chains db !! chain) as [c0|] eqn:Ec0.
    + destruct (linked_seq _ _ _ _ _ (Hlc _ eq_refl)) as [Hall _]. rewrite Forall_forall in Hall.
      specialize (Hall _ Hin). cbn in Hall. rewrite (proj2 (Z.ltb_lt _ _)) in Hc by done.
      by injection Hc as <-.
    + by injection Hc as <-.
  - intros chain' c. rewrite advance_head_lookup. intros Hc.
    destruct (decide (chain' = chain)) as [E|E].
    2: { rewrite Hf. rewrite decide_False by done. by apply Hi. }
    rewrite Hf, decide_True by done.
    destruct (chains db !! chain) as [c0|] eqn:Ec0; [|by injection Hc as <-].
    destruct (in_verified _ Hi _ _ Ec0) as [Hb Hv].
    destruct (linked_seq _ _ _ _ _ (Hlc _ eq_refl)) as [Hall _]. rewrite Forall_forall in Hall.
    pose proof (Hall _ Hin) as Hlt. cbn in Hlt. rewrite (proj2 (Z.ltb_lt _ _)) in Hc by done.
    injection Hc as <-. cbn. split; [done|]. intros s h Hs Hh. destruct (Hv s h Hs Hh) as [Hle Hr].
    split; [lia|]. intros r [Hold|Hnew]%elem_of_app Es; [by apply Hr|].
    specialize (Hall _ Hnew). cbn in Hall. lia.
Qed.

(** *** Retention *)

(** Telling rows by their keys, the rows of [take n l] go and those of
    [drop n l] stay. *)
Lemma key_split l n :
  NoDup (row_key <$> l) ->
  Forall (fun r => Exists (same_key r) (take n l)) (take n l)
  /\ Forall (fun r => ~ Exists (same_key r) (take n l)) (drop n l).
Proof.
  intros Hn. split; apply Forall_forall; intros r Hr.
  - apply Exists_exists. exists r. by split.
  - intros (r' & Hr' & E)%Exists_exists. rewrite <- (take_drop n l) in Hn. rewrite fmap_app in Hn.
    apply NoDup_app in Hn as (_ & Hd & _). apply (Hd (row_key r')); [by apply list_elem_of_fmap_2|].
    apply same_key_iff in E. rewrite <- E. by apply list_elem_of_fmap_2.
Qed.

Lemma NoDup_keys_filter (P : AuditEvent -> Prop) `{forall x, Decision (P x)} l :
  NoDup (row_key <$> l) -> NoDup (row_key <$> filter P l).
Proof. intros Hn. eapply sublist_NoDup; [exact Hn|]. apply fmap_sublist, sublist_filter. Qed.

Lemma purge_prefix_spec chain up_to batch rows rows' n (l := filter (of_chain chain) rows)
    (m := Nat.min (Z.to_nat batch) (length (filter (fun r => seq_of r <= up_to) l))) :
  NoDup (row_key <$> rows) -> ordered l ->
  purge_prefix chain up_to batch rows = (rows', n) ->
  filter (of_chain chain) rows' = drop m l /\ n = Z.of_nat m
  /\ (forall chain', chain' <> chain -> filter (of_chain chain') rows' = filter (of_chain chain') rows)
  /\ NoDup (row_key <$> rows').
Proof.
  intros Hn Ho. unfold purge_prefix. assert (by_seq chain rows = l) as -> by (by apply by_seq_ordered).
  cbv zeta.
  assert (take (Z.to_nat batch) (filter (fun r => seq_of r <= up_to) l) = take m l) as ->.
  { rewrite (ordered_split l up_to Ho) at 2. subst m. rewrite <- take_take, take_app_length. done. }
  assert (NoDup (row_key <$> l)) as Hnl by (by apply NoDup_keys_filter).
  destruct (key_split l m Hnl) as [Hgo Hstay].
  assert (m <= length l)%nat as Hm.
  { subst m. pose proof (length_filter (fun r => seq_of r <= up_to) l). lia. }
  assert (forall r, r ∈ rows -> Exists (same_key r) (take m l) -> of_chain chain r) as Hof.
  { intros r Hr (r' & Hr' & E)%Exists_exists. apply elem_of_take in Hr' as (i & Hi & _).
    apply list_elem_of_lookup_2, list_elem_of_filter in Hi as [Hc Hi].
    by rewrite (keys_inj _ _ _ Hn Hr Hi E). }
  assert (forall (P : AuditEvent -> Prop) (dec : forall r, Decision (P r)),
    filter P (filter (of_chain chain) rows) = filter P (take m l) ++ filter P (drop m l)) as Hfl
    by (intros; by rewrite <- filter_app, take_drop).
  intros [= <- <-]. split_and!.
  - rewrite list_filter_filter, (filter_ext_in _ (fun r => ~ Exists (same_key r) (take m l) /\ of_chain chain r))
      by tauto. rewrite <- list_filter_filter, Hfl, (filter_none _ (take m l)), filter_all; [done|done|].
    eapply Forall_impl; [exact Hgo|]. tauto.
  - rewrite (filter_ext_in _ (fun r => Exists (same_key r) (take m l) /\ of_chain chain r))
      by (intros r Hr; specialize (Hof r Hr); tauto). rewrite <- list_filter_filter, Hfl.
    rewrite (filter_all _ (take m l)), filter_none, app_nil_r by done.
    unfold zlen. rewrite length_take. lia.
  - intros chain' Hne. rewrite list_filter_filter. apply filter_ext_in. intros r Hr.
    split; [tauto|]. intros Hc. split; [done|]. intros He. apply Hne. rewrite <- Hc. by apply Hof.
  - by apply NoDup_keys_filter.
Qed.

(** The batches together delete the chain's rows up to [up_to], and nothing
    else. *)
Lemma purge_loop_spec chain up_to fuel total (rows rows' : list AuditEvent) n :
  NoDup (row_key <$> rows) -> ordered (filter (of_chain chain) rows) ->
  lt (length (filter (fun r => seq_of r <= up_to) (filter (of_chain chain) rows))) fuel ->
  purge_loop fuel chain up_to total rows = (rows', n) ->
  filter (of_chain chain) rows' = filter (fun r => up_to < seq_of r) (filter (of_chain chain) rows)
  /\ n = total + zlen (filter (fun r => seq_of r <= up_to) (filter (of_chain chain) rows))
  /\ (forall chain', chain' <> chain -> filter (of_chain chain') rows' = filter (of_chain chain') rows)
  /\ NoDup (row_key <$> rows').
Proof.
  revert total rows. induction fuel as [|fuel IH]; intros total rows Hn Ho Hf; [lia|]. cbn [purge_loop].
  destruct (purge_prefix chain up_to PURGE_BATCH rows) as [rows1 n1] eqn:E1.
  destruct (purge_prefix_spec _ _ _ _ _ _ Hn Ho E1) as (Hd & -> & Hoth & Hn1).
  pose proof (ordered_split _ up_to Ho) as Hsplit.
  set (l := filter (of_chain chain) rows) in *. set (P := filter (fun r => seq_of r <= up_to) l) in *.
  set (m := Nat.min (Z.to_nat PURGE_BATCH) (length P)) in *.
  assert (drop m l = drop m P ++ filter (fun r => up_to < seq_of r) l) as Hdl.
  { rewrite Hsplit at 1. apply drop_app_le. lia. }
  destruct (Z.ltb_spec (Z.of_nat m) PURGE_BATCH) as [Hlt|Hge].
  - intros [= <- <-]. assert (m = length P) as Hm by lia. split_and!; [|unfold zlen; lia|done|done].
    by rewrite Hd, Hdl, drop_ge by lia.
  - intros Hp. assert (filter (fun r => seq_of r <= up_to) (drop m l) = drop m P) as HP.
    { rewrite Hdl, filter_app, filter_all, (filter_none _ (filter _ l)), app_nil_r; [done|..].
      - apply Forall_forall. intros r [Hr _]%list_elem_of_filter. lia.
      - apply Forall_drop, Forall_forall. intros r [Hr _]%list_elem_of_filter. done. }
    apply IH in Hp as (Hf1 & -> & Hoth1 & Hn2).
    + rewrite Hd, HP in *. split_and!; [|..|done].
      * rewrite Hf1, Hdl, filter_app, filter_none, list_filter_filter; [|].
        -- cbn [app]. apply filter_ext_in. tauto.
        -- apply Forall_drop, Forall_forall. intros r [Hr _]%list_elem_of_filter. lia.
      * unfold zlen. rewrite length_drop. lia.
      * intros chain' Hne. by rewrite Hoth1, Hoth.
    + done.
    + rewrite Hd. rewrite <- (take_drop m l) in Ho. by apply ordered_app in Ho as (_ & _ & Ho).
    + rewrite Hd, HP, length_drop. unfold PURGE_BATCH in *. lia.
Qed.

(** Dropping a prefix of each chain, and changing of the chain rows no more
    than [oldest_at], keeps a database intact. *)
Lemma intact_suffix db db' :
  intact db -> NoDup (row_key <$> events db') ->
  (forall chain, exists gone, rows_of chain db = gone ++ rows_of chain db') ->
  (forall chain c', chains db' !! chain = Some c' ->
     exists c, chains db !! chain = Some c /\ head_seq c' = head_seq c /\ head_hash c' = head_hash c
       /\ broken_at_seq c' = broken_at_seq c /\ verified_seq c' = verified_seq c
       /\ verified_hash c' = verified_hash c) ->
  intact db'.
Proof.
  intros Hi Hn Hrows Hc. split; [|done|..].
  - intros chain. destruct (Hrows chain) as [gone E]. pose proof (in_linked _ Hi chain) as Hl.
    rewrite E in Hl. apply linked_app in Hl as [_ Hl]. by eapply linked_weaken.
  - intros chain c' r (c & Hl & -> & -> & _)%Hc Hr. apply (in_head _ Hi _ _ _ Hl).
    destruct (Hrows chain) as [gone ->]. by rewrite last_app, Hr.
  - intros chain c' (c & Hl & -> & _ & -> & -> & ->)%Hc. destruct (in_verified _ Hi _ _ Hl) as [Hb Hv].
    split; [done|]. intros s h Es Eh. destruct (Hv s h Es Eh) as [Hle Hr]. split; [done|].
    intros r Hin. apply Hr. destruct (Hrows chain) as [gone ->]. apply elem_of_app. by right.
Qed.

(** What a purge does to an intact database. *)
Lemma purge_spec now tenant days db n db' (cutoff := now - days * (86400 * 1000000000))
    (chain := chain_id tenant) :
  intact db -> days <> 0 -> purge now tenant days db = (n, db') ->
  NoDup (row_key <$> events db')
  /\ (exists gone, rows_of chain db = gone ++ rows_of chain db' /\ n = zlen gone
       /\ match last gone with Some r => occurred_at (canonical_view r) < cutoff | None => True end
       /\ Forall (fun r => cutoff <= occurred_at (canonical_view r)) (rows_of chain db'))
  /\ (forall chain', chain' <> chain -> rows_of chain' db' = rows_of chain' db).
Proof.
  intros Hi Hd. unfold purge. rewrite (proj2 (Z.eqb_neq _ _)) by done. fold cutoff chain.
  assert (ordered (rows_of chain db)) as Ho by (eapply linked_ordered, in_linked; done).
  unfold expired_head. rewrite by_seq_ordered by done.
  set (l := rows_of chain db) in *.
  destruct (last (filter (fun r => occurred_at (canonical_view r) < cutoff) l)) as [e|] eqn:Ee; cbn [fmap option_fmap option_map].
  2: { intros [= <- <-]. cbn [events]. apply last_None in Ee. split; [apply Hi|]. split; [|done].
       exists []. split_and!; [done|done|done|]. apply Forall_forall. intros r Hr.
       destruct (decide (occurred_at (canonical_view r) < cutoff)); [|lia].
       assert (r ∈ ([] : list AuditEvent)) as []%not_elem_of_nil.
       rewrite <- Ee. by apply list_elem_of_filter. }
  destruct (purge_loop _ _ _ _ _) as [rows total] eqn:Ep. intros [= <- <-]. cbn [events].
  apply purge_loop_spec in Ep as (Hf & -> & Hoth & Hn); [|apply Hi|done|].
  2: { do 2 (eapply Nat.le_lt_trans; [apply length_filter|]). lia. }
  change (filter (of_chain chain) (events db)) with l in Hf |- *.
  split; [done|]. split; [|done]. exists (filter (fun r => seq_of r <= seq_of e) l).
  split; [rewrite Hf; by apply ordered_split|]. split; [done|].
  destruct (ordered_last _ _ (ordered_filter _ _ Ho) Ee) as [[Hexp He]%list_elem_of_filter Hle].
  rewrite Forall_forall in Hle. clear Ee. split.
  - destruct (last _) as [r|] eqn:El; [|done].
    destruct (ordered_last _ _ (ordered_filter _ _ Ho) El) as [[Hr Hin]%list_elem_of_filter Hle'].
    rewrite Forall_forall in Hle'. specialize (Hle' e ltac:(by apply list_elem_of_filter)).
    assert (r = e) as -> by (apply (ordered_inj l); [done..|lia]). done.
  - rewrite Hf. apply Forall_forall. intros r [Hlt Hr]%list_elem_of_filter.
    destruct (decide (occurred_at (canonical_view r) < cutoff)); [|lia].
    specialize (Hle r ltac:(by apply list_elem_of_filter)). lia.
Qed.

Lemma set_oldest_lookup chain t cs chain' c' :
  set_oldest chain t cs !! chain' = Some c' ->
  exists c, cs !! chain' = Some c /\ head_seq c' = head_seq c /\ head_hash c' = head_hash c
    /\ broken_at_seq c' = broken_at_seq c /\ verified_seq c' = verified_seq c
    /\ verified_hash c' = verified_hash c.
Proof.
  unfold set_oldest. destruct (decide (chain = chain')) as [<-|Hne].
  - rewrite lookup_alter_eq. intros (c & -> & ->)%fmap_Some. eauto 8.
  - rewrite lookup_alter_ne by done. eauto 8.
Qed.

Lemma purge_chains now tenant days db :
  days <> 0 ->
  chains (purge now tenant days db).2
  = set_oldest (chain_id tenant) (first_row_at (chain_id tenant) (events (purge now tenant days db).2)) (chains db).
Proof.
  intros Hd. unfold purge. rewrite (proj2 (Z.eqb_neq _ _)) by done.
  by destruct (match expired_head _ _ _ with Some _ => _ | None => _ end).
Qed.

Lemma intact_purge now tenant days db : intact db -> intact (purge now tenant days db).2.
Proof.
  intros Hi. destruct (decide (days = 0)) as [->|Hd]; [done|].
  pose proof (purge_chains now tenant days db Hd) as Hc.
  destruct (purge now tenant days db) as [n db'] eqn:Ep. cbn [snd] in *.
  destruct (purge_spec _ _ _ _ _ _ Hi Hd Ep) as (Hn & (gone & Hg & _) & Hoth).
  apply (intact_suffix db); [done|done|..].
  - intros chain. destruct (decide (chain = chain_id tenant)) as [->|Hne]; [by exists gone|].
    exists []. by rewrite Hoth.
  - intros chain c'. rewrite Hc. apply set_oldest_lookup.
Qed.

Lemma intact_purge_batch chain up_to batch db :
  intact db -> intact (mkAuditDb (purge_prefix chain up_to batch (events db)).1 (chains db)).
Proof.
  intros Hi. destruct (purge_prefix chain up_to batch (events db)) as [rows n] eqn:Ep.
  apply purge_prefix_spec in Ep as (Hd & _ & Hoth & Hn); [|apply Hi|eapply linked_ordered, in_linked; done].
  apply (intact_suffix db); [done|done|..]; cbn [events chains fst].
  - intros chain'. destruct (decide (chain' = chain)) as [->|Hne].
    + rewrite Hd. eexists. symmetry. apply take_drop.
    + exists []. by rewrite Hoth.
  - intros chain' c Hc. eauto 8.
Qed.

(** What dropping partitions leaves. *)
Lemma drop_partitions_filter cutoff this_month vouched parts n rows :
  exists keep : AuditEvent -> bool, (foldl (drop_partition cutoff this_month vouched) (n, rows) parts).2 = filter (fun r => keep r = true) rows.
Proof.
  revert n rows. induction parts as [|p parts IH]; intros n rows; cbn [foldl].
  { exists (fun _ => true). symmetry. apply filter_all, Forall_forall. done. }
  unfold drop_partition at 2. destruct (_ || _); [apply IH|]. case_bool_decide; [apply IH|].
  destruct (IH (n + 1) (filter (fun r => ~ in_partition p r) rows)) as [keep ->].
  exists (fun r => keep r && negb (bool_decide (in_partition p r))). rewrite list_filter_filter. apply list_filter_iff. intros r.
  rewrite andb_true_iff, negb_true_iff, bool_decide_eq_false. tauto.
Qed.
Lemma drop_expired_filter now this_month governed parts db : exists keep : AuditEvent -> bool,
  (drop_expired_partitions now this_month governed parts db).2 = mkAuditDb (filter (fun r => keep r = true) (events db)) (chains db).
Proof.
  unfold drop_expired_partitions. destruct (filter _ governed) as [|g gs].
  { exists (fun _ => true). destruct db. cbn. f_equal. symmetry. apply filter_all, Forall_forall. done. }
  unfold drop_partitions_before.
  match goal with |- context [drop_partition ?c ?m ?v] => destruct (drop_partitions_filter c m v parts 0 (events db)) as [keep E] end.
  exists keep. destruct (foldl _ _ _) as [n rows]. cbn [snd] in *. by subst.
Qed.
(** A filter that keeps everything after a row it keeps leaves a suffix. *)
Lemma filter_suffix (keep : AuditEvent -> bool) l : ordered l ->
  (forall r r', r ∈ l -> r' ∈ l -> seq_of r < seq_of r' -> keep r = true -> keep r' = true) ->
  exists gone, l = gone ++ filter (fun r => keep r = true) l.
Proof.
  induction 1 as [|a l Hl IH Ha]; intros Hup; [by exists []|]. rewrite filter_cons. case_decide as Hk.
  - exists []. cbn. f_equal. symmetry. apply filter_all, Forall_forall. intros x Hx. rewrite Forall_forall in Ha.
    apply (Hup a x); [left|by right|by apply Ha|done].
  - destruct IH as [gone E]. { intros r r' Hr Hr'. apply Hup; by right. } exists (a :: gone). cbn. by rewrite <- E.
Qed.
(** Where no row that stays comes before one of its chain that goes, dropping
    months keeps the log intact. *)
Definition drops_in_order (db db' : AuditDb) : Prop := forall chain r r',
  r ∈ rows_of chain db -> r' ∈ rows_of chain db -> seq_of r < seq_of r' -> r ∈ events db' -> r' ∈ events db'.
Lemma intact_drop now this_month governed parts db db' :
  db' = (drop_expired_partitions now this_month governed parts db).2 -> drops_in_order db db' -> intact db -> intact db'.
Proof.
  intros -> Hd Hi. destruct (drop_expired_filter now this_month governed parts db) as [keep E]. rewrite E in *.
  apply (intact_suffix db); [done|apply NoDup_keys_filter, Hi| |]; cbn [events chains] in *; [|intros; eauto 8].
  intros chain. assert (filter (of_chain chain) (filter (fun r => keep r = true) (events db))
    = filter (fun r => keep r = true) (rows_of chain db)) as ->.
  { rewrite !list_filter_filter. apply list_filter_iff. tauto. }
  apply filter_suffix; [eapply linked_ordered, in_linked; done|]. intros r r' Hr Hr' Hlt Hk.
  pose proof (Hd chain r r' Hr Hr' Hlt) as Hin. cbn [events] in Hin.
  apply list_elem_of_filter in Hr as [_ Hr]. apply (proj1 (list_elem_of_filter (fun r => keep r = true) (events db) r')).
  apply Hin, list_elem_of_filter. done.
Qed.

Lemma intact_oldest chain t db : intact db -> intact (mkAuditDb (events db) (set_oldest chain t (chains db))).
Proof.
  intros Hi. apply (intact_suffix db); [done|apply Hi|by exists []|]. intros chain'. apply set_oldest_lookup.
Qed.

(** *** The scheduled check *)

Lemma linked_hash chain prev l r :
  linked sha256 chain prev l -> r ∈ l -> hash sha256 (prev_hash r) (canonical_view r) = row_hash r.
Proof.
  revert prev. induction l as [|r' l IH]; intros prev; [by intros _ ?%not_elem_of_nil|].
  cbn [linked]. intros (_ & _ & Hh & Hl) [->|Hr]%elem_of_cons; [done|]. by eapply IH.
Qed.

(** The rows past one of the chain's rows follow it. *)
Lemma linked_after chain l r :
  linked sha256 chain None l -> r ∈ l ->
  exists l1 l2, l = l1 ++ r :: l2 /\ filter (fun x => seq_of r < seq_of x) l = l2
    /\ linked sha256 chain (Some (seq_of r, row_hash r)) l2.
Proof.
  intros Hl (l1 & l2 & ->)%list_elem_of_split. exists l1, l2. split; [done|].
  pose proof (linked_ordered _ _ _ Hl) as Ho. apply linked_app in Hl as [_ (_ & _ & _ & Hl)].
  split; [|done]. apply ordered_app in Ho as (Hlt & _ & Ho).
  rewrite filter_app, filter_none, filter_cons_False, filter_all; [done|..|lia|].
  - apply StronglySorted_cons in Ho as [Ho _]. exact Ho.
  - apply Forall_forall. intros x Hx. specialize (Hlt x r Hx (list_elem_of_here _ _)). lia.
Qed.

(** The checkpoint of an intact chain is gone, or stands. *)
Lemma checkpoint_stands db chain s h :
  linked sha256 chain None (rows_of chain db) ->
  (forall r, r ∈ rows_of chain db -> seq_of r = s -> row_hash r = h) ->
  checkpoint_intact sha256 (events db) chain s h = None
  \/ exists r, r ∈ rows_of chain db /\ seq_of r = s
       /\ checkpoint_intact sha256 (events db) chain s h = Some (Ok (s, row_hash r)).
Proof.
  intros Hl Hr. unfold checkpoint_intact.
  destruct (chain_page _ _ _ _) as [|r page] eqn:Ep; [by left|].
  destruct (Z.eqb_spec (seq_of r) s) as [Es|]; cbn [negb]; [|by left]. right. exists r.
  assert (r ∈ rows_of chain db) as Hin.
  { rewrite <- by_seq_ordered by (by eapply linked_ordered).
    assert (r ∈ r :: page) as Hp by apply list_elem_of_here. rewrite <- Ep in Hp. unfold chain_page in Hp.
    apply elem_of_take in Hp as (i & Hp & _). by apply list_elem_of_lookup_2, list_elem_of_filter in Hp as [_ Hp]. }
  rewrite (linked_hash _ _ _ _ Hl Hin), (Hr r Hin Es). by rewrite !bool_decide_eq_true_2.
Qed.

(** Nothing recorded against the chain, and its checkpoint, if there, true. *)
Definition checkpoint_ok (c : ChainRow) (l : list AuditEvent) : Prop :=
  broken_at_seq c = None
  /\ forall s h, verified_seq c = Some s -> verified_hash c = Some h ->
       forall r, r ∈ l -> seq_of r = s -> row_hash r = h.

Lemma verify_one_spec now chain c db :
  linked sha256 chain None (rows_of chain db) -> checkpoint_ok c (rows_of chain db) ->
  exists n db', verify_one sha256 now chain c db = (mkChainCheck n None, db', None) /\ events db' = events db
    /\ (chains db' = chains db
         \/ exists r, last (rows_of chain db) = Some r
             /\ chains db' = set_verified now chain (seq_of r) (row_hash r) (chains db)).
Proof.
  intros Hl [Hb Hv]. pose proof (linked_ordered _ _ _ Hl) as Ho.
  unfold verify_one. rewrite Hb.
  set (from := match verified_seq c with Some _ => _ | None => _ end).
  assert (from = None \/ exists r, r ∈ rows_of chain db /\ from = Some (Ok (seq_of r, row_hash r))) as [->|(r & Hr & ->)].
  { subst from. destruct (verified_seq c) as [s|], (verified_hash c) as [h|]; [|by left..].
    destruct (checkpoint_stands db chain s h Hl (Hv s h eq_refl eq_refl)) as [->|(r & Hr & <- & ->)]; [by left|right; by exists r]. }
  - rewrite (walk_spec _ _ _ _ _ eq_refl Ho).
    destruct (check_all_linked sha256 chain Verifier_new (rows_of chain db)) as (v' & -> & _ & _ & _ & Hlast & Hnil);
      [by left|done|]. cbn [broken verifier].
    eexists _, _. split; [reflexivity|]. split; [done|]. cbn [chains].
    destruct (last (rows_of chain db)) as [r|] eqn:El.
    + destruct Hlast as [-> ->]; [by intros E; rewrite E in El|]. right. by exists r.
    + apply last_None in El. rewrite (Hnil El). by left.
  - rewrite (walk_spec _ _ _ _ _ eq_refl Ho).
    destruct (linked_after _ _ _ Hl Hr) as (l1 & l2 & El & -> & Hl2).
    destruct (check_all_linked sha256 chain (Verifier_after chain (seq_of r) (row_hash r)) l2)
      as (v' & -> & _ & _ & _ & Hlast & Hnil); [by right|done|]. cbn [broken verifier].
    eexists _, _. split; [reflexivity|]. split; [done|]. cbn [chains].
    destruct l2 as [|r2 l2]; [rewrite (Hnil eq_refl); by left|]. specialize (Hlast ltac:(done)).
    right. rewrite El, last_app, last_cons. destruct (last (r2 :: l2)) as [r3|]; [|done].
    destruct Hlast as [-> ->]. by exists r3.
Qed.

Lemma intact_checkpoint db chain c : intact db -> chains db !! chain = Some c -> checkpoint_ok c (rows_of chain db).
Proof. intros Hi Hc. destruct (in_verified _ Hi _ _ Hc) as [Hb Hv]. split; [done|]. intros s h Hs Hh. by apply Hv. Qed.

Lemma intact_check now tenant db : intact db -> intact (verify_chain sha256 now tenant db).1.2.
Proof.
  intros Hi. unfold verify_chain. set (chain := chain_id tenant).
  destruct (chains db !! chain) as [c|] eqn:Ec; [|done].
  destruct (verify_one_spec now chain c db (in_linked _ Hi chain) (intact_checkpoint _ _ _ Hi Ec)) as (n & db' & -> & Hev & Hch). cbn [fst snd].
  destruct Hch as [Hch|(r & Hr & Hch)].
  { destruct db, db'. cbn in Hev, Hch. by subst. }
  assert (forall chain' c', chains db' !! chain' = Some c' ->
    exists c0, chains db !! chain' = Some c0 /\ head_seq c' = head_seq c0 /\ head_hash c' = head_hash c0
      /\ ((c' = c0 /\ chain' <> chain) \/ chain' = chain /\ broken_at_seq c' = None
           /\ verified_seq c' = Some (seq_of r) /\ verified_hash c' = Some (row_hash r))) as Hlook.
  { intros chain' c'. rewrite Hch. unfold set_verified. destruct (decide (chain = chain')) as [<-|Hne].
    - rewrite lookup_alter_eq, Ec. intros [= <-]. exists c. split_and!; try done. by right.
    - rewrite lookup_alter_ne by done. intros Hl. exists c'. split_and!; try done. by left. }
  split; rewrite Hev.
  - apply Hi.
  - apply Hi.
  - intros chain' c' r' (c0 & Hl & -> & -> & _)%Hlook. by apply Hi.
  - intros chain' c' (c0 & Hl & Hh & _ & [[-> _]|(-> & Hb & Hs & Hh')])%Hlook; [by apply Hi|].
    split; [done|]. rewrite Hs, Hh'. intros s h [= <-] [= <-].
    destruct (in_head _ Hi _ _ _ Hl Hr) as [E1 E2]. split; [lia|]. intros r' Hr' E.
    assert (r' = r) as ->; [|done].
    apply (ordered_inj (rows_of chain db)); [eapply linked_ordered, in_linked; done|done|by apply last_Some_elem_of|done].
Qed.

(** A chain whose rows are linked and whose checkpoint is true passes. *)
Lemma walk_linked rows chain :
  linked sha256 chain None (filter (of_chain chain) rows) ->
  broken (walk sha256 rows chain None) = None
  /\ v_checked (verifier (walk sha256 rows chain None)) = zlen (filter (of_chain chain) rows).
Proof.
  intros Hl. rewrite (walk_spec _ _ _ _ _ eq_refl (linked_ordered _ _ _ Hl)).
  destruct (check_all_linked sha256 chain Verifier_new _ (or_introl eq_refl) Hl) as (v' & -> & Hn & _).
  cbn [broken verifier]. by rewrite Hn.
Qed.

Lemma verify_chain_linked now tenant db :
  linked sha256 (chain_id tenant) None (rows_of (chain_id tenant) db) ->
  (forall c, chains db !! chain_id tenant = Some c -> checkpoint_ok c (rows_of (chain_id tenant) db)) ->
  cc_broken_at_seq (verify_chain sha256 now tenant db).1.1 = None
  /\ (verify_chain sha256 now tenant db).2 = None.
Proof.
  intros Hl Hc. unfold verify_chain. destruct (chains db !! chain_id tenant) as [c|] eqn:E; [|done].
  by destruct (verify_one_spec now _ c db Hl (Hc c eq_refl)) as (n & db' & -> & _).
Qed.

(** ** Histories *)

(** What the writer, the retention job and the scheduled check do to one
    database. Retention also step by step, since it runs in several
    transactions and appends come between them; whole months are dropped where
    that takes no row from behind one that stays (see [month_drop_breaks]). *)
Inductive audit_step : relation AuditDb :=
| A_record now tenant evs db :
    Forall (fun e => ae_tenant_id e = tenant) evs ->
    audit_step db (record_chain sha256 name_of to_value now tenant evs db).2
| A_purge now tenant days db : audit_step db (purge now tenant days db).2
| A_purge_batch chain up_to db :
    audit_step db (mkAuditDb (purge_prefix chain up_to PURGE_BATCH (events db)).1 (chains db))
| A_oldest chain db :
    audit_step db (mkAuditDb (events db) (set_oldest chain (first_row_at chain (events db)) (chains db)))
| A_check now tenant db : audit_step db (verify_chain sha256 now tenant db).1.2
| A_drop now this_month governed parts db :
    drops_in_order db (drop_expired_partitions now this_month governed parts db).2 ->
    audit_step db (drop_expired_partitions now this_month governed parts db).2.

Lemma intact_history db : rtc audit_step (mkAuditDb [] ∅) db -> intact db.
Proof.
  intros Hr. refine (rtc_invariant audit_step intact _ _ _ Hr intact_empty). intros a b [] Hi.
  - by apply intact_record.
  - by apply intact_purge.
  - by apply intact_purge_batch.
  - by apply intact_oldest.
  - by apply intact_check.
  - by eapply intact_drop.
Qed.
End intact.

(** C21: The audit log never accuses itself: whatever the writer, the deletion of
    expired rows and the scheduled check did to a database that started empty,
    in any order, and whichever months were dropped - where no row that stays
    comes before one of its chain that goes - the walk of every chain finds
    every row in its place and no break, and the scheduled check records and
    announces none. *)
Theorem history_verifies `{UuidDisplay} `{Printers} sha256 {Kind} (name_of : Kind -> string) to_value db :
  rtc (audit_step sha256 name_of to_value) (mkAuditDb [] ∅) db ->
  (forall chain, let w := walk sha256 (events db) chain None in
     broken w = None /\ v_checked (verifier w) = zlen (rows_of chain db))
  /\ (forall now tenant, let '(check, _, announced) := verify_chain sha256 now tenant db in
       cc_broken_at_seq check = None /\ announced = None).
Proof.
  intros Hi%intact_history. split.
  - intros chain. apply walk_linked, Hi.
  - intros now tenant.
    pose proof (verify_chain_linked sha256 now tenant db (in_linked _ _ Hi _)) as Hv.
    destruct (verify_chain _ _ _ _) as [[c db'] b]. apply Hv. intros c'. by apply intact_checkpoint with sha256.
Qed.

(** Retention deletes a prefix of the tenant's chain that ends in a row older
    than the cutoff, counts what it deleted, leaves no row older than the
    cutoff, and touches no other chain. *)
Theorem purge_exact `{UuidDisplay} `{Printers} sha256 {Kind} (name_of : Kind -> string) to_value
    db now tenant days n db' :
  rtc (audit_step sha256 name_of to_value) (mkAuditDb [] ∅) db ->
  0 < days -> purge now tenant days db = (n, db') ->
  let cutoff := now - days * (86400 * 1000000000) in
  (exists gone, rows_of (chain_id tenant) db = gone ++ rows_of (chain_id tenant) db' /\ n = zlen gone
     /\ match last gone with Some r => occurred_at (canonical_view r) < cutoff | None => True end)
  /\ Forall (fun r => cutoff <= occurred_at (canonical_view r)) (rows_of (chain_id tenant) db')
  /\ (forall chain, chain <> chain_id tenant -> rows_of chain db' = rows_of chain db).
Proof.
  intros Hi%intact_history Hd Hp cutoff.
  assert (days <> 0) as Hd' by lia.
  destruct (purge_spec _ _ _ _ _ _ _ Hi Hd' Hp) as (_ & (gone & ? & ? & ? & ?) & ?).
  split_and!; [by exists gone|done|done].
Qed.

(** What no hash chain without an anchor sees: from any state the log can be
    in, deleting a chain's newest rows leaves a chain that verifies, for the
    walk behind the verify endpoint and for the scheduled check alike,
    although the head recorded for the chain lies past its last row. *)
Theorem truncation_verifies `{UuidDisplay} `{Printers} sha256 {Kind} (name_of : Kind -> string) to_value
    db now tenant s :
  rtc (audit_step sha256 name_of to_value) (mkAuditDb [] ∅) db ->
  let chain := chain_id tenant in
  let db' := mkAuditDb (filter (fun r => ~ (of_chain chain r /\ s < seq_of r)) (events db)) (chains db) in
  let w := walk sha256 (events db') chain None in
  rows_of chain db' = filter (fun r => seq_of r <= s) (rows_of chain db)
  /\ broken w = None /\ v_checked (verifier w) = zlen (rows_of chain db')
  /\ let '(check, _, announced) := verify_chain sha256 now tenant db' in
     cc_broken_at_seq check = None /\ announced = None.
Proof.
  intros Hi%intact_history chain db' w. subst w.
  assert (rows_of chain db' = filter (fun r => seq_of r <= s) (rows_of chain db)) as Hr.
  { cbn [db' events]. rewrite !list_filter_filter. apply filter_ext_in. intros r _.
    pose proof (Z.nlt_ge s (seq_of r)). destruct (decide (s < seq_of r)); tauto. }
  pose proof (in_linked _ _ Hi chain) as Hl.
  assert (linked sha256 chain None (rows_of chain db')) as Hl'.
  { rewrite Hr. rewrite (ordered_split _ s (linked_ordered _ _ _ Hl)) in Hl. by apply linked_app in Hl as [Hl _]. }
  destruct (walk_linked _ _ _ Hl') as [Hb Hn]. split_and!; [done|done|done|].
  pose proof (verify_chain_linked sha256 now tenant db' Hl') as Hv.
  destruct (verify_chain _ _ _ _) as [[c db''] b]. apply Hv. intros c' Hc.
  destruct (intact_checkpoint sha256 db chain c' Hi Hc) as [Hbr Hck]. split; [done|].
  intros s' h Hs Hh r Hin. apply (Hck s' h Hs Hh). fold chain in Hin. rewrite Hr in Hin.
  by apply list_elem_of_filter in Hin as [_ Hin].
Qed.

(** ** What verification catches *)

Section tamper.
Context `{UuidDisplay} `{Printers}.
Context (sha256 : list Z -> list Z) (sha256_length : forall x, length (sha256 x) = 32%nat).

Definition collision : Prop := exists x y, x <> y /\ sha256 x = sha256 y.

(** The rows agree on everything the chain covers. *)
Definition same_record (r r' : AuditEvent) : Prop :=
  canonical (canonical_view r) = canonical (canonical_view r')
  /\ prev_hash r = prev_hash r' /\ row_hash r = row_hash r'.

Lemma ascii_bytes_inj s s' : ascii_bytes s = ascii_bytes s' -> s = s'.
Proof.
  intros E. rewrite <- (String.string_of_list_ascii_of_string s), <- (String.string_of_list_ascii_of_string s').
  f_equal. revert E. unfold ascii_bytes. apply list_fmap_eq_inj. intros a a' Ha.
  rewrite <- (Ascii.ascii_nat_embedding a), <- (Ascii.ascii_nat_embedding a'). f_equal. lia.
Qed.

Lemma hash_inj p p' row row' :
  length p = length p' -> hash sha256 (Some p) row = hash sha256 (Some p') row' ->
  (p = p' /\ canonical row = canonical row') \/ collision.
Proof.
  intros Hp E. unfold hash in E. cbn [default] in E.
  destruct (decide (p ++ ascii_bytes (canonical row) = p' ++ ascii_bytes (canonical row'))) as [Eq|Ne].
  - left. apply app_inj_1 in Eq as [-> Eq]; [|done]. split; [done|]. by apply ascii_bytes_inj.
  - right. by eexists _, _.
Qed.

Lemma linked_last chain s h l r :
  linked sha256 chain (Some (s, h)) (l ++ [r]) ->
  exists s' h', point (Some (s, h)) l = Some (s', h') /\ seq_of r = s' + 1 /\ prev_hash r = Some h'
    /\ hash sha256 (Some h') (canonical_view r) = row_hash r.
Proof.
  intros [_ (_ & Hp & Hh & _)]%linked_app.
  destruct (point (Some (s, h)) l) as [[s' h']|] eqn:E.
  - destruct (Hp s' h' eq_refl) as [Es Eh]. rewrite Eh in Hh. by exists s', h'.
  - unfold point in E. by destruct (last l).
Qed.

(** The rows after a point are numbered from it on. *)
Lemma point_seq chain s h l : linked sha256 chain (Some (s, h)) l -> fst <$> point (Some (s, h)) l = Some (s + zlen l).
Proof.
  revert s h. induction l as [|r l IH]; intros s h Hl; [unfold zlen; cbn; f_equal; lia|].
  destruct Hl as (_ & Hp & _ & Hl). destruct (Hp s h eq_refl) as [Hs _].
  rewrite point_cons, (IH _ _ Hl), zlen_cons. f_equal. lia.
Qed.

Lemma point_hash_length chain s h l :
  linked sha256 chain (Some (s, h)) l -> l <> [] ->
  match point (Some (s, h)) l with Some (_, h') => length h' = 32%nat | None => False end.
Proof.
  intros Hl Hne. unfold point. destruct (last l) as [r|] eqn:E; [|by apply last_None in E].
  apply last_Some_elem_of in E. rewrite <- (linked_hash _ _ _ _ _ Hl E). apply sha256_length.
Qed.

(** Two records of a chain after the same point that end in the same hash are
    the same record, or SHA-256 collides. *)
Lemma linked_agree chain s h l l' :
  length l = length l' ->
  linked sha256 chain (Some (s, h)) l -> linked sha256 chain (Some (s, h)) l' ->
  point (Some (s, h)) l = point (Some (s, h)) l' ->
  Forall2 same_record l l' \/ collision.
Proof.
  revert l'. induction l as [|r l IH] using rev_ind; intros l' Hlen Hl Hl' Hp.
  { destruct l'; [left; constructor|done]. }
  destruct l' as [|r' l' _] using rev_ind; [rewrite length_app in Hlen; cbn in Hlen; lia|].
  rewrite !length_app in Hlen. cbn in Hlen. assert (length l = length l') as Hlen' by lia.
  unfold point in Hp. rewrite !last_snoc in Hp. injection Hp as _ Hh.
  destruct (linked_last _ _ _ _ _ Hl) as (s1 & h1 & P1 & _ & V1 & E1).
  destruct (linked_last _ _ _ _ _ Hl') as (s2 & h2 & P2 & _ & V2 & E2).
  apply linked_app in Hl as [Hl _], Hl' as [Hl' _].
  destruct (hash_inj h1 h2 (canonical_view r) (canonical_view r')) as [[-> Ec]|]; [|congruence| |by right].
  { destruct l as [|x l].
    - destruct l'; [|done]. cbn in P1, P2. congruence.
    - pose proof (point_hash_length _ _ _ _ Hl ltac:(done)) as L1. rewrite P1 in L1.
      pose proof (point_hash_length _ _ _ _ Hl' ltac:(by destruct l')) as L2. rewrite P2 in L2. congruence. }
  destruct (IH l' Hlen' Hl Hl') as [Hall|]; [|by left; apply Forall2_app; [done|repeat constructor; congruence]|by right].
  rewrite P1, P2. pose proof (point_seq _ _ _ _ Hl) as Q1. pose proof (point_seq _ _ _ _ Hl') as Q2.
  rewrite P1 in Q1. rewrite P2 in Q2. injection Q1 as ->. injection Q2 as ->. unfold zlen. by rewrite Hlen'.
Qed.

Lemma sorted_distinct l : StronglySorted seq_le l -> NoDup (seq_of <$> l) -> ordered l.
Proof.
  induction 1 as [|a l Hl IH Ha]; [constructor|]. rewrite fmap_cons. intros [Hn Hd]%NoDup_cons.
  constructor; [by apply IH|]. rewrite Forall_forall in *. intros x Hx. specialize (Ha x Hx).
  unfold seq_le in Ha. assert (seq_of a <> seq_of x) by (intros E; apply Hn; rewrite E; by apply list_elem_of_fmap_2).
  lia.
Qed.

Lemma by_seq_distinct chain rows : NoDup (seq_of <$> filter (of_chain chain) rows) -> ordered (by_seq chain rows).
Proof.
  intros Hn. apply sorted_distinct.
  - apply StronglySorted_merge_sort; [exact seq_le_trans|exact seq_le_total].
  - unfold by_seq. by rewrite merge_sort_Permutation.
Qed.

(** A walk from a point that finds no break has read linked rows, up to where
    it says. *)
Lemma walk_clean rows chain s h :
  NoDup (seq_of <$> filter (of_chain chain) rows) ->
  broken (walk sha256 rows chain (Some (s, h))) = None ->
  let l := filter (fun r => s < seq_of r) (by_seq chain rows) in
  let v := verifier (walk sha256 rows chain (Some (s, h))) in
  linked sha256 chain (Some (s, h)) l
  /\ v_last_seq v = seq_of <$> last l /\ v_last_hash v = row_hash <$> last l.
Proof.
  intros Hn Hb l v. subst v. revert Hb. unfold walk.
  rewrite (walk_loop_spec sha256 chain rows _ _ _ _ l eq_refl (by_seq_distinct _ _ Hn)).
  - destruct (check_all sha256 (Verifier_after chain s h) l) as [b v] eqn:E. cbn [broken verifier].
    intros ->. pose proof (check_all_sound _ _ _ _ _ E eq_refl) as Hl. split; [exact Hl|].
    destruct (check_all_linked sha256 chain (Verifier_after chain s h) l (or_intror eq_refl) Hl) as (v' & E' & _ & _ & _ & Hlast & Hnil).
    rewrite E in E'. injection E' as <-. destruct l as [|r l]; [by rewrite (Hnil eq_refl)|].
    specialize (Hlast ltac:(done)). by destruct (last (r :: l)) as [r'|].
  - exact (after_filter (Some s) _).
  - pose proof (length_filter (fun r => s < seq_of r) (by_seq chain rows)) as H1. fold l in H1.
    assert (length (by_seq chain rows) = length (filter (of_chain chain) rows)) as H2
      by (unfold by_seq; by rewrite merge_sort_Permutation).
    assert (length (filter (of_chain chain) rows) <= length rows)%nat as H3 by apply length_filter. lia.
Qed.
End tamper.

(** Tamper evidence: two walks of a chain from the same checkpoint that find
    no break and end at the same position with the same hash have read, row by
    row, the same recorded text, links and hashes; otherwise the two tables
    exhibit a collision of SHA-256. So whoever keeps a chain's last hash
    detects every change, deletion and insertion between the checkpoint and it. *)
Theorem tamper_evident `{UuidDisplay} `{Printers} sha256 chain rows rows' s h :
  (forall x, length (sha256 x) = 32%nat) ->
  NoDup (seq_of <$> filter (of_chain chain) rows) -> NoDup (seq_of <$> filter (of_chain chain) rows') ->
  let w := walk sha256 rows chain (Some (s, h)) in
  let w' := walk sha256 rows' chain (Some (s, h)) in
  broken w = None -> broken w' = None ->
  v_last_seq (verifier w) = v_last_seq (verifier w') ->
  v_last_hash (verifier w) = v_last_hash (verifier w') ->
  Forall2 same_record (filter (fun r => s < seq_of r) (by_seq chain rows))
    (filter (fun r => s < seq_of r) (by_seq chain rows'))
  \/ collision sha256.
Proof.
  intros Hlen Hn Hn' w w' Hb Hb'.
  destruct (walk_clean _ _ _ _ _ Hn Hb) as (Hl & E1 & E2). destruct (walk_clean _ _ _ _ _ Hn' Hb') as (Hl' & E1' & E2').
  subst w w'. rewrite E1, E2, E1', E2'.
  set (l := filter _ (by_seq chain rows)) in *. set (l' := filter _ (by_seq chain rows')) in *. intros Es Eh.
  assert (point (Some (s, h)) l = point (Some (s, h)) l') as Ep.
  { unfold point. destruct (last l), (last l'); cbn in Es, Eh; congruence. }
  apply (linked_agree sha256 Hlen chain s h); [|done..].
  pose proof (point_seq _ _ _ _ _ Hl) as Q. rewrite Ep, (point_seq _ _ _ _ _ Hl') in Q.
  injection Q as Q. unfold zlen in Q. lia.
Qed.

(** ** Batches *)

Lemma push_group_spec {Kind} (e : AEvent Kind) groups t :
  NoDup groups.*1 ->
  NoDup (push_group e groups).*1
  /\ (forall t', t' ∈ (push_group e groups).*1 <-> t' = ae_tenant_id e \/ t' ∈ groups.*1)
  /\ forall l, (t, l) ∈ push_group e groups ->
       (t <> ae_tenant_id e /\ (t, l) ∈ groups)
       \/ (t = ae_tenant_id e /\ exists l0, l = l0 ++ [e] /\ ((t, l0) ∈ groups \/ l0 = [] /\ t ∉ groups.*1)).
Proof.
  induction groups as [|[t0 l0] groups IH]; cbn [push_group fmap list_fmap fst].
  { intros _. split_and!; [by apply NoDup_singleton|set_solver|]. intros l [= -> ->]%list_elem_of_singleton.
    right. split; [done|]. exists []. split; [done|]. right. set_solver. }
  intros [Hn Hd]%NoDup_cons. destruct (bool_decide (t0 = ae_tenant_id e)) eqn:E; bool_hyps.
  - subst t0. cbn [fmap list_fmap fst]. split_and!; [by apply NoDup_cons|set_solver|].
    intros l [[= -> ->]|Hl]%elem_of_cons.
    + right. split; [done|]. exists l0. split; [done|]. left. apply list_elem_of_here.
    + left. split; [|set_solver]. intros ->. apply Hn. apply list_elem_of_fmap. by exists (ae_tenant_id e, l).
  - destruct (IH Hd) as (Hnd & Hset & Hel). cbn [fmap list_fmap fst]. split_and!.
    + apply NoDup_cons. split; [|done]. rewrite Hset. set_solver.
    + intros t'. rewrite !elem_of_cons, Hset. tauto.
    + intros l [[= -> ->]|Hl]%elem_of_cons; [left; set_solver|].
      destruct (Hel l Hl) as [[? ?]|(-> & l1 & -> & Hg)]; [left; set_solver|]. right. split; [done|].
      exists l1. split; [done|]. destruct Hg as [Hg|[-> Hg]]; [left; set_solver|right; set_solver].
Qed.

(** A batch is split by tenant: each tenant of the batch has one group, which
    holds its events in the order they came. *)
Lemma group_by_chain_spec {Kind} (evs : list (AEvent Kind)) :
  NoDup (group_by_chain evs).*1
  /\ (forall t, t ∈ (group_by_chain evs).*1 <-> t ∈ ae_tenant_id <$> evs)
  /\ forall t l, (t, l) ∈ group_by_chain evs -> l = filter (fun e => ae_tenant_id e = t) evs.
Proof.
  induction evs as [|e evs (Hn & Ht & Hg)] using rev_ind.
  { split_and!; [apply NoDup_nil_2|done|]. intros t l Hl. by apply not_elem_of_nil in Hl. }
  unfold group_by_chain in *. rewrite foldl_app. cbn [foldl].
  set (groups := foldl _ [] evs) in *. split_and!.
  - by apply (push_group_spec e groups None Hn).
  - intros t. rewrite (proj1 (proj2 (push_group_spec e groups t Hn))), fmap_app, elem_of_app, Ht.
    cbn [fmap list_fmap]. rewrite list_elem_of_singleton. tauto.
  - intros t l Hl. rewrite filter_app. destruct (proj2 (proj2 (push_group_spec e groups t Hn)) l Hl)
      as [[Hne Hin]|(-> & l0 & -> & Hin)].
    + rewrite (filter_cons_False _ e) by done. by rewrite (Hg _ _ Hin), app_nil_r.
    + rewrite (filter_cons_True _ e) by done. f_equal. destruct Hin as [Hin|[-> Hin]]; [by apply Hg|].
      symmetry. apply filter_none, Forall_forall. intros x Hx Ex. apply Hin, Ht. rewrite <- Ex.
      by apply list_elem_of_fmap_2.
Qed.

(** ** A concrete log *)

Section example.
Local Existing Instance toy_uuid.

Definition toy_printers : Printers := {| rfc3339_micros := pretty; json_text := fun _ => "{}"%string |}.
Local Existing Instance toy_printers.

Definition toy_digest (x : list Z) : list Z := be_bytes 32 (foldl (fun a b => (a * 257 + b + 1) mod 2 ^ 256) 7 x).

Definition toy_name (k : string) : string := k.
Definition toy_value (k : string) : option Json := Some (JObj [("name", JStr k)]).

Definition ex_event (id t : Z) : AEvent string :=
  mkAEvent id (Some 1) t (ActUser 4) None None (Some "agent"%string) "user.login".

Definition ex_batch_1 : list (AEvent string) := [ex_event 11 1; ex_event 12 2; ex_event 13 200000000000000].
Definition ex_batch_2 : list (AEvent string) := [ex_event 14 300000000000000].

Definition ex_log_1 : AuditDb :=
  (record_chain toy_digest toy_name toy_value 10 (Some 1) ex_batch_1 (mkAuditDb [] ∅)).2.
Definition ex_log_2 : AuditDb := (verify_chain toy_digest 20 (Some 1) ex_log_1).1.2.
Definition ex_log_3 : AuditDb :=
  (record_chain toy_digest toy_name toy_value 30 (Some 1) ex_batch_2 ex_log_2).2.
Definition ex_log : AuditDb := (purge 250000000000000 (Some 1) 1 ex_log_3).2.

Lemma ex_history_3 : rtc (audit_step toy_digest toy_name toy_value) (mkAuditDb [] ∅) ex_log_3.
Proof.
  apply (rtc_l _ _ ex_log_1).
  { exact (A_record _ _ _ 10 (Some 1) ex_batch_1 (mkAuditDb [] ∅) ltac:(by repeat constructor)). }
  apply (rtc_l _ _ ex_log_2); [exact (A_check _ _ _ 20 (Some 1) ex_log_1)|].
  apply rtc_once. exact (A_record _ _ _ 30 (Some 1) ex_batch_2 ex_log_2 ltac:(by repeat constructor)).
Qed.

Lemma ex_history : rtc (audit_step toy_digest toy_name toy_value) (mkAuditDb [] ∅) ex_log.
Proof. apply (rtc_r _ ex_log_3); [exact ex_history_3|exact (A_purge _ _ _ 250000000000000 (Some 1) 1 ex_log_3)]. Qed.

Lemma history_verifies_witness :
  broken (walk toy_digest (events ex_log) 1 None) = None
  /\ v_checked (verifier (walk toy_digest (events ex_log) 1 None)) = 2.
Proof.
  destruct (history_verifies toy_digest toy_name toy_value ex_log ex_history) as [Hw _].
  destruct (Hw 1) as [Hb Hn]. split; [exact Hb|]. rewrite Hn. vm_compute. reflexivity.
Defined.

Lemma purge_exact_witness :
  Forall (fun r => 163600000000000 <= occurred_at (canonical_view r)) (filter (of_chain 1) (events ex_log))
  /\ zlen (filter (of_chain 1) (events ex_log_3)) = 4.
Proof.
  split; [|vm_compute; reflexivity].
  exact (proj1 (proj2 (purge_exact toy_digest toy_name toy_value ex_log_3 250000000000000 (Some 1) 1 _ _
    ex_history_3 ltac:(lia) (surjective_pairing _)))).
Defined.

Lemma truncation_verifies_witness :
  let rows := filter (fun r => ~ (of_chain 1 r /\ 2 < seq_of r)) (events ex_log_3) in
  broken (walk toy_digest rows 1 None) = None /\ v_checked (verifier (walk toy_digest rows 1 None)) = 2
  /\ (head_seq <$> chains ex_log_3 !! 1) = Some 4.
Proof.
  destruct (truncation_verifies toy_digest toy_name toy_value ex_log_3 40 (Some 1) 2 ex_history_3) as (_ & Hb & Hn & _).
  split; [exact Hb|]. split; [|vm_compute; reflexivity]. etransitivity; [exact Hn|]. vm_compute. reflexivity.
Defined.

(** An event of the last minute of January that is written after one of the
    first minute of February. *)
Definition ex_day : Z := 86400 * 1000000000.
Definition ex_january : Partition := mkPartition 0 (31 * ex_day).
Definition ex_late : AuditDb :=
  (record_chain toy_digest toy_name toy_value 10 (Some 1)
     [ex_event 11 (31 * ex_day + 1); ex_event 12 (31 * ex_day - 1); ex_event 13 (31 * ex_day + 2)] (mkAuditDb [] ∅)).2.
Definition ex_dropped : Z * AuditDb := drop_expired_partitions (61 * ex_day) (59 * ex_day) [(1, 30)] [ex_january] ex_late.
(** Dropping a month can break a chain nobody touched: the retention job drops
    January although a row of it lies behind one of February in its chain, and
    the chain, which verified before, is reported as broken. *)
Theorem month_drop_breaks :
  broken (walk toy_digest (events ex_late) 1 None) = None
  /\ ex_dropped.1 = 1
  /\ b_seq <$> broken (walk toy_digest (events ex_dropped.2) 1 None) = Some 3
  /\ cc_broken_at_seq (verify_chain toy_digest (61 * ex_day) (Some 1) ex_dropped.2).1.1 = Some 3.
Proof. vm_compute. done. Qed.

Definition ex_point : list Z := default [] (row_hash <$> head (events ex_log_1)).

Lemma tamper_evident_witness :
  Forall2 same_record (filter (fun r => 1 < seq_of r) (by_seq 1 (events ex_log_1)))
    (filter (fun r => 1 < seq_of r) (by_seq 1 (rev (events ex_log_1))))
  \/ collision toy_digest.
Proof.
  apply (tamper_evident toy_digest 1 (events ex_log_1) (rev (events ex_log_1)) 1 ex_point).
  - intros x. apply be_bytes_length.
  - decide_now.
  - decide_now.
  - vm_compute. reflexivity.
  - vm_compute. reflexivity.
  - vm_compute. reflexivity.
  - vm_compute. reflexivity.
Defined.
End example.
