(* ===== verification/KeyCustody.v ===== *)
(** * Key custody: envelope encryption of stored secrets

    Models [crates/ridm-core/src/providers/key_encryptor.rs] (the blob format),
    [api/src/key_custody/envelope.rs] (the encryptor: its generations of the
    master key, where they come from and what each blob is sealed with) and
    [api/src/key_custody/generations.rs] (the table of wrapped generations).
    A [Node] is one server process; [gens] is the table every node shares. The
    ciphers and HKDF are the class [Aead], the custody backends (HSM, KMS) the
    class [KeyWrapper]; a backend may fail at one time and answer at another.
    Times are in milliseconds. Error messages are constructors. *)

From stdpp Require Import gmap strings sorting.
From S2P Require Import Prelude.

(** ** Blobs *)

Inductive Cipher := XChaCha20Poly1305 | Aes256GcmHkdf.
#[export] Instance cipher_eq_dec : EqDecision Cipher.
Proof. solve_decision. Defined.

Definition cipher_byte (c : Cipher) : Z :=
  match c with XChaCha20Poly1305 => 1 | Aes256GcmHkdf => 2 end.

Definition from_byte (b : Z) : option Cipher :=
  if b =? 1 then Some XChaCha20Poly1305 else if b =? 2 then Some Aes256GcmHkdf else None.

Record Encrypted := mkEncrypted {
  cipher : Cipher;
  key_version : Z;
  nonce : list Z;
  ciphertext : list Z
}.

Inductive ProviderError :=
| Configuration (what : string)
| Unavailable (what : string)
| Rejected (what : string).

Definition to_bytes (e : Encrypted) : list Z :=
  [cipher_byte (cipher e)] ++ be_bytes 4 (key_version e) ++ [as_u8 (zlen (nonce e))]
  ++ nonce e ++ ciphertext e.

Definition malformed : ProviderError := Rejected "malformed encrypted blob".

Definition from_bytes (bytes : list Z) : result ProviderError Encrypted :=
  match bytes with
  | b0 :: b1 :: b2 :: b3 :: b4 :: b5 :: rest =>
      let? c := ok_or (from_byte b0) malformed in
      if zlen rest <? b5 then Err malformed
      else Ok (mkEncrypted c (be_val [b1; b2; b3; b4])
                 (take (Z.to_nat b5) rest) (drop (Z.to_nat b5) rest))
  | _ => Err malformed
  end.

(** ** What the encryptor is built on *)

(** XChaCha20-Poly1305, AES-256-GCM and HKDF-SHA-256: key, nonce, additional
    data, text. *)
Class Aead := {
  xchacha_encrypt : list Z -> list Z -> list Z -> list Z -> option (list Z);
  xchacha_decrypt : list Z -> list Z -> list Z -> list Z -> option (list Z);
  gcm_seal : list Z -> list Z -> list Z -> list Z -> option (list Z);
  gcm_open : list Z -> list Z -> list Z -> list Z -> option (list Z);
  hkdf_sha256 : list Z -> list Z -> list Z -> option (list Z)
}.

Class AeadLaws `{Aead} := {
  xchacha_decrypt_encrypt k n a m c : xchacha_encrypt k n a m = Some c -> xchacha_decrypt k n a c = Some m;
  gcm_open_seal k n a m c : gcm_seal k n a m = Some c -> gcm_open k n a c = Some m
}.

Record WrappedKey := mkWrappedKey { w_key_ref : string; w_wrapped : list Z }.

(** The backends by name; each call at a time. *)
Class KeyWrapper := {
  wrap : Z -> string -> list Z -> list Z -> result ProviderError WrappedKey;
  unwrap : Z -> string -> string -> list Z -> list Z -> result ProviderError (list Z)
}.

(** A wrapped key unwraps to one key, whenever the backend answers. *)
Class KeyWrapperLaws `{KeyWrapper} := {
  unwrap_stable t t' b r w c k k' :
    unwrap t b r w c = Ok k -> unwrap t' b r w c = Ok k' -> k = k'
}.

(** The random bytes one call draws. *)
Record Random := mkRandom { r_salt : list Z; r_iv : list Z; r_nonce : list Z; r_key : list Z }.

(** ** [generations.rs] *)

Record GenerationRow := mkGenerationRow {
  g_version : Z;
  g_backend : string;
  g_key_ref : string;
  g_wrapped_key : list Z
}.

(** The table, by its primary key. *)
Abbreviation Generations := (gmap Z GenerationRow).

Definition version_le (r r' : GenerationRow) : Prop := g_version r <= g_version r'.
#[export] Instance version_le_dec r r' : Decision (version_le r r').
Proof. unfold version_le. apply _. Defined.

Definition all (gens : Generations) : list GenerationRow :=
  merge_sort version_le (map_to_list gens).*2.

Definition get_gen (version : Z) (gens : Generations) : option GenerationRow := gens !! as_i32 version.

Definition newer_than (after : Z) (gens : Generations) : list Z :=
  (fun r => as_u32 (g_version r)) <$> filter (fun r => as_i32 after < g_version r) (all gens).

Definition latest (backend : string) (gens : Generations) : option Z * Z :=
  ((fun r => as_u32 (g_version r)) <$> last (filter (fun r => g_backend r = backend) (all gens)),
   as_u32 (default 0 (g_version <$> last (all gens)))).

(** The primary key and the table's [CHECK]s. *)
Definition insert_gen (version : Z) (backend key_ref : string) (wrapped : list Z) (gens : Generations)
    : option Generations :=
  let v := as_i32 version in
  let len s := Z.of_nat (String.length s) in
  if bool_decide (gens !! v = None) && (0 <? v)
     && (1 <=? len backend) && (len backend <=? 32) && (1 <=? len key_ref) && (len key_ref <=? 2048)
     && (1 <=? zlen wrapped) && (zlen wrapped <=? 8192)
  then Some (<[v := mkGenerationRow v backend key_ref wrapped]> gens)
  else None.

(** ** The encryptor *)

Definition XCHACHA_NONCE_LEN : Z := 24.
Definition SALT_LEN : Z := 32.
Definition NONCE_LEN : Z := 12.
Definition MASTER_KEY_LEN : Z := 32.
Definition HKDF_INFO : list Z := ascii_bytes "ridm:at-rest:aes-256-gcm".
Definition LOAD_RETRY : Z := 30 * 1000.
Definition LOAD_FAILURES_MAX : nat := 1024.
Definition LEGACY_REFUSED : string := "encrypted with XChaCha20-Poly1305".

Definition wrap_context (version : Z) : list Z := ascii_bytes ("ridm:master-key:v" ++ pretty version).

Inductive CustodyError :=
| NoWrapperBuilt (backend : string)
| AlreadyAttached
| NotAttached
| NoKeyWrapper
| DefinedTwice (version : Z)
| CurrentUnreadable (version : Z)
| HeldBy (version : Z) (backend : string)
| WrongLength (version : Z)
| DifferentKey (backend : string)
| Storage
| Provider (e : ProviderError).

Record Custody := mkCustody { wrappers : list string; primary : option string }.

Record Node := mkNode {
  current : Z;
  keys : gmap Z (list Z);
  env_versions : list Z;
  custody : option Custody;
  loading : gmap Z Z;
  legacy_reads : bool
}.

Definition set_keys (ks : gmap Z (list Z)) (n : Node) : Node :=
  mkNode (current n) ks (env_versions n) (custody n) (loading n) (legacy_reads n).
Definition set_current (v : Z) (n : Node) : Node :=
  mkNode v (keys n) (env_versions n) (custody n) (loading n) (legacy_reads n).
Definition set_loading (l : gmap Z Z) (n : Node) : Node :=
  mkNode (current n) (keys n) (env_versions n) (custody n) l (legacy_reads n).

Record AttachReport := mkAttachReport {
  loaded : list Z;
  created : option Z;
  unreadable : list (Z * CustodyError)
}.

Section envelope.
Context `{Aead} `{KeyWrapper}.

(** The build: [cfg!(feature = "fips")]. *)
Context (fips : bool).

Definition WRITE_CIPHER : Cipher := if fips then Aes256GcmHkdf else XChaCha20Poly1305.
Definition STALE_CIPHER : option Cipher := if fips then Some XChaCha20Poly1305 else None.

(** [new]. *)
Definition node_new (cur : option (Z * list Z)) (previous : list (Z * list Z)) : Node :=
  let ks := foldl (fun m vk => <[vk.1 := vk.2]> m) ∅ previous in
  let vs := previous.*1 in
  let '(cv, ks, vs) :=
    match cur with
    | Some (v, k) => (v, <[v := k]> ks, vs ++ [v])
    | None => (0, ks, vs)
    end in
  mkNode cv ks (merge_sort Z.le vs) None ∅ (negb fips).

Definition from_config (master_key : option (list Z)) (version : Z) (previous : list (Z * list Z))
    (fips_transition : bool) : Node :=
  let n := node_new ((fun k => (version, k)) <$> master_key) previous in
  mkNode (current n) (keys n) (env_versions n) (custody n) (loading n) (negb fips || fips_transition).

Definition known_versions (n : Node) : list Z := merge_sort Z.le (map_to_list (keys n)).*1.

(** [unwrap_row]. *)
Definition unwrap_row (now : Z) (c : Custody) (row : GenerationRow) (n : Node) : result CustodyError () * Node :=
  let version := as_u32 (g_version row) in
  if negb (bool_decide (g_backend row ∈ wrappers c)) then (Err (HeldBy version (g_backend row)), n)
  else
    match unwrap now (g_backend row) (g_key_ref row) (g_wrapped_key row) (wrap_context version) with
    | Err e => (Err (Provider e), n)
    | Ok key =>
        if negb (zlen key =? MASTER_KEY_LEN) then (Err (WrongLength version), n)
        else
          let n := set_keys (<[version := key]> (keys n)) n in
          (Ok (), if bool_decide (primary c = Some (g_backend row))
                  then set_current (Z.max (current n) version) n else n)
    end.

Definition unknown : ProviderError := Rejected "unknown master key version".

(** [key]: the key of [version], loaded from the table on first use. *)
Definition key (now version : Z) (gens : Generations) (n : Node) : result ProviderError (list Z) * Node :=
  match keys n !! version with
  | Some k => (Ok k, n)
  | None =>
      match custody n with
      | None => (Err unknown, n)
      | Some c =>
          if match loading n !! version with Some t => now - t <? LOAD_RETRY | None => false end
          then (Err unknown, n)
          else
            let '(r, n) :=
              match get_gen version gens with
              | Some row =>
                  let '(r, n) := unwrap_row now c row n in
                  (map_err (fun _ => Unavailable "generation not loaded") r, n)
              | None => (Err unknown, n)
              end in
            match r with
            | Ok _ =>
                let n := set_loading (delete version (loading n)) n in
                (ok_or (keys n !! version) unknown, n)
            | Err e =>
                let l := if (LOAD_FAILURES_MAX <=? size (loading n))%nat then ∅ else loading n in
                (Err e, set_loading (<[version := now]> l) n)
            end
      end
  end.

(** Generation [version] of a fresh data key, proved to unwrap and stored. *)
Definition make_generation (now : Z) (data_key : list Z) (backend : string) (version : Z) (gens : Generations) (n : Node)
    : result CustodyError (Z * bool) * Node * Generations :=
  let context := wrap_context version in
  match wrap now backend data_key context with
  | Err e => (Err (Provider e), n, gens)
  | Ok wrapped =>
      match unwrap now backend (w_key_ref wrapped) (w_wrapped wrapped) context with
      | Err e => (Err (Provider e), n, gens)
      | Ok back =>
          if negb (bool_decide (back = data_key)) then (Err (DifferentKey backend), n, gens)
          else
            match insert_gen version backend (w_key_ref wrapped) (w_wrapped wrapped) gens with
            | None => (Err Storage, n, gens)
            | Some gens => (Ok (version, true), set_keys (<[version := data_key]> (keys n)) n, gens)
            end
      end
  end.

(** [ensure_generation]; [in_use] is the highest generation of any stored
    secret. The result, this node and the table afterwards. *)
Definition ensure_generation (now : Z) (rnd : Random) (c : Custody) (backend : string) (force : bool) (in_use : Z)
    (gens : Generations) (n : Node) : result CustodyError (Z * bool) * Node * Generations :=
  if negb (bool_decide (backend ∈ wrappers c)) then (Err (NoWrapperBuilt backend), n, gens)
  else
    let '(newest, highest) := latest backend gens in
    let create :=
      let env_highest := default 0 (last (env_versions n)) in
      let version := as_u32 (Z.max (Z.max highest env_highest) in_use + 1) in
      make_generation now (r_key rnd) backend version gens n in
    match newest, force with
    | Some v, false =>
        let '(r, n) := key now v gens n in
        (let? _ := map_err Provider r in Ok (v, false), n, gens)
    | _, _ => create
    end.

(** [new_generation]. *)
Definition new_generation (now : Z) (rnd : Random) (in_use : Z) (gens : Generations) (n : Node)
    : result CustodyError Z * Node * Generations :=
  match custody n with
  | None => (Err NotAttached, n, gens)
  | Some c =>
      match primary c with
      | None => (Err NoKeyWrapper, n, gens)
      | Some p =>
          let '(r, n, gens) := ensure_generation now rnd c p true in_use gens n in
          match r with
          | Ok (version, _) => (Ok version, set_current (Z.max (current n) version) n, gens)
          | Err e => (Err e, n, gens)
          end
      end
  end.

(** [refresh]. *)
Definition refresh (now : Z) (gens : Generations) (n : Node) : Node :=
  match custody n with
  | None => n
  | Some _ =>
      let seen := default 0 (last (known_versions n)) in
      foldl (fun n version => (key now version gens n).2) n (newer_than seen gens)
  end.

(** The loop of [attach] over the stored generations. *)
Fixpoint attach_rows (now : Z) (c : Custody) (rows : list GenerationRow) (report : AttachReport) (n : Node)
    : result CustodyError AttachReport * Node :=
  match rows with
  | [] => (Ok report, n)
  | row :: rows =>
      let version := as_u32 (g_version row) in
      if bool_decide (version ∈ env_versions n) then (Err (DefinedTwice version), n)
      else
        match unwrap_row now c row n with
        | (Ok _, n) =>
            attach_rows now c rows
              (mkAttachReport (loaded report ++ [version]) (created report) (unreadable report)) n
        | (Err e, n) =>
            attach_rows now c rows
              (mkAttachReport (loaded report) (created report) (unreadable report ++ [(version, e)])) n
        end
  end.

Definition max_version (vs : list Z) : option Z :=
  foldl (fun m v => Some (match m with Some m => Z.max m v | None => v end)) None vs.

(** [attach]. *)
Definition attach (now : Z) (rnd : Random) (in_use : Z) (ws : list string) (p : option string)
    (gens : Generations) (n : Node) : result CustodyError AttachReport * Node * Generations :=
  if match p with Some p => negb (bool_decide (p ∈ ws)) | None => false end
  then (Err (NoWrapperBuilt (default EmptyString p)), n, gens)
  else
    match custody n with
    | Some _ => (Err AlreadyAttached, n, gens)
    | None =>
        let c := mkCustody ws p in
        let n := mkNode (current n) (keys n) (env_versions n) (Some c) (loading n) (legacy_reads n) in
        let rows := all gens in
        match attach_rows now c rows (mkAttachReport [] None []) n with
        | (Err e, n) => (Err e, n, gens)
        | (Ok report, n) =>
            match p with
            | None => (Ok report, n, gens)
            | Some p =>
                let newest :=
                  max_version ((fun r => as_u32 (g_version r)) <$> filter (fun r => g_backend r = p) rows) in
                let '(r, n, gens) :=
                  match newest with
                  | Some v => (Ok (v, false), n, gens)
                  | None => ensure_generation now rnd c p false in_use gens n
                  end in
                match r with
                | Err e => (Err e, n, gens)
                | Ok (version, new) =>
                    let report :=
                      mkAttachReport (loaded report) (if new : bool then Some version else None) (unreadable report) in
                    match keys n !! version with
                    | None => (Err (CurrentUnreadable version), n, gens)
                    | Some _ => (Ok report, set_current version n, gens)
                    end
                end
            end
        end
    end.

Definition message_key (k salt : list Z) : result ProviderError (list Z) :=
  ok_or (hkdf_sha256 k salt HKDF_INFO) (Configuration "key derivation failed").

Definition xchacha (k : list Z) : result ProviderError (list Z) :=
  if zlen k =? 32 then Ok k else Err (Configuration "master key must be 32 bytes").

Definition seal (c : Cipher) (k : list Z) (version : Z) (rnd : Random) (plaintext aad : list Z)
    : result ProviderError Encrypted :=
  let failed := Rejected "encryption failed" in
  let? (nn, ct) :=
    match c with
    | Aes256GcmHkdf =>
        let? mk := message_key k (r_salt rnd) in
        let? ct := ok_or (gcm_seal mk (r_iv rnd) aad plaintext) failed in
        Ok (r_salt rnd ++ r_iv rnd, ct)
    | XChaCha20Poly1305 =>
        let? xk := xchacha k in
        let? ct := ok_or (xchacha_encrypt xk (r_nonce rnd) aad plaintext) failed in
        Ok (r_nonce rnd, ct)
    end in
  Ok (mkEncrypted c version nn ct).

Definition decryption_failed : ProviderError := Rejected "decryption failed (wrong key, aad, or tampered data)".

Definition decrypt_xchacha (k : list Z) (e : Encrypted) (aad : list Z) : result ProviderError (list Z) :=
  if negb (zlen (nonce e) =? XCHACHA_NONCE_LEN) then Err (Rejected "bad nonce length")
  else
    let? xk := xchacha k in
    ok_or (xchacha_decrypt xk (nonce e) aad (ciphertext e)) decryption_failed.

Definition decrypt_aes_gcm (k : list Z) (e : Encrypted) (aad : list Z) : result ProviderError (list Z) :=
  if negb (zlen (nonce e) =? SALT_LEN + NONCE_LEN) then Err (Rejected "bad nonce length")
  else
    let salt := take (Z.to_nat SALT_LEN) (nonce e) in
    let iv := drop (Z.to_nat SALT_LEN) (nonce e) in
    let? mk := message_key k salt in
    ok_or (gcm_open mk iv aad (ciphertext e)) decryption_failed.

(** [KeyEncryptor::encrypt]. *)
Definition encrypt (rnd : Random) (n : Node) (plaintext aad : list Z) : result ProviderError Encrypted :=
  let version := current n in
  let? k := ok_or (keys n !! version) (Configuration "master-key generation is not loaded") in
  seal WRITE_CIPHER k version rnd plaintext aad.

(** [KeyEncryptor::decrypt]; reading may load a generation. *)
Definition decrypt (now : Z) (gens : Generations) (n : Node) (e : Encrypted) (aad : list Z)
    : result ProviderError (list Z) * Node :=
  match cipher e with
  | Aes256GcmHkdf =>
      match key now (key_version e) gens n with
      | (Ok k, n) => (decrypt_aes_gcm k e aad, n)
      | (Err err, n) => (Err err, n)
      end
  | XChaCha20Poly1305 =>
      if negb (legacy_reads n) then (Err (Rejected LEGACY_REFUSED), n)
      else
        match key now (key_version e) gens n with
        | (Ok k, n) => (decrypt_xchacha k e aad, n)
        | (Err err, n) => (Err err, n)
        end
  end.
End envelope.

(** ** The blob format *)

Lemma from_byte_cipher c : from_byte (cipher_byte c) = Some c.
Proof. by destruct c. Qed.

Lemma cipher_from_byte b c : from_byte b = Some c -> cipher_byte c = b.
Proof.
  unfold from_byte. destruct (Z.eqb_spec b 1); [intros [= <-]; by subst|].
  destruct (Z.eqb_spec b 2); intros [= <-]; by subst.
Qed.

(** Reading a blob back, and writing back what was read. *)
Lemma from_to_bytes e :
  fits_u 32 (key_version e) -> zlen (nonce e) < 256 -> from_bytes (to_bytes e) = Ok e.
Proof.
  intros Hv Hn. destruct e as [c v n ct]. cbn [key_version nonce] in *.
  assert (exists a b c' d, be_bytes 4 v = [a; b; c'; d]) as (a & b & c' & d & Eb).
  { pose proof (be_bytes_length 4 v). destruct (be_bytes 4 v) as [|? [|? [|? [|? [|]]]]]; try done. eauto. }
  pose proof (zlen_nonneg n). assert (as_u8 (zlen n) = zlen n) as Hl by (unfold wrap_u; apply Z.mod_small; lia).
  unfold to_bytes, from_bytes. cbn [cipher key_version nonce ciphertext]. rewrite Eb, Hl. cbn [app].
  rewrite from_byte_cipher. cbn [ok_or]. rewrite zlen_app.
  rewrite (proj2 (Z.ltb_ge _ _)) by (pose proof (zlen_nonneg ct); lia).
  rewrite zlen_to_nat, take_app_length, drop_app_length. f_equal. f_equal.
  rewrite <- Eb, be_val_be_bytes. apply Z.mod_small. exact Hv.
Qed.

Lemma to_from_bytes b e : bytes_ok b -> from_bytes b = Ok e -> to_bytes e = b.
Proof.
  intros Hb. destruct b as [|b0 [|b1 [|b2 [|b3 [|b4 [|b5 rest]]]]]]; try done. unfold from_bytes.
  destruct (from_byte b0) as [c|] eqn:Ec; [|done]. cbn [ok_or].
  destruct (Z.ltb_spec (zlen rest) b5); [done|]. intros [= <-]. unfold to_bytes.
  cbn [cipher key_version nonce ciphertext]. apply cipher_from_byte in Ec as ->.
  assert (bytes_ok [b1; b2; b3; b4]) as Hv by (unfold bytes_ok in *; decompose_Forall_hyps; repeat (constructor; [done|]); constructor).
  rewrite (be_bytes_be_val [b1; b2; b3; b4] Hv : be_bytes 4 _ = _). cbn [app].
  assert (is_byte b5) as H5 by (unfold bytes_ok in Hb; by decompose_Forall_hyps). unfold is_byte in H5.
  do 5 f_equal. f_equal.
  - unfold zlen in *. rewrite length_take, Nat.min_l by lia. unfold wrap_u. rewrite Z.mod_small by lia. lia.
  - apply take_drop.
Qed.

(** ** Sealing and opening *)

Section sealing.
Context `{AeadLaws}.

(** What a key opens, whichever cipher the blob names. *)
Definition open (k : list Z) (e : Encrypted) (aad : list Z) : result ProviderError (list Z) :=
  match cipher e with
  | Aes256GcmHkdf => decrypt_aes_gcm k e aad
  | XChaCha20Poly1305 => decrypt_xchacha k e aad
  end.

Definition random_ok (r : Random) : Prop :=
  length (r_salt r) = 32%nat /\ length (r_iv r) = 12%nat /\ length (r_nonce r) = 24%nat /\ length (r_key r) = 32%nat.

Lemma open_seal c k v rnd p aad e :
  random_ok rnd -> seal c k v rnd p aad = Ok e ->
  open k e aad = Ok p /\ cipher e = c /\ key_version e = v /\ zlen (nonce e) < 256.
Proof.
  intros (Hs & Hi & Hn & _). unfold seal, open. destruct c.
  - destruct (xchacha k) as [xk|] eqn:Ex; [|done].
    destruct (xchacha_encrypt _ _ _ _) as [ct|] eqn:Ec; [|done]. cbn [ok_or].
    intros [= <-]. cbn [cipher nonce key_version]. unfold decrypt_xchacha. cbn [nonce ciphertext].
    unfold zlen. rewrite Hn. cbn. rewrite Ex, (xchacha_decrypt_encrypt _ _ _ _ _ Ec). by split_and!.
  - destruct (message_key k (r_salt rnd)) as [mk|] eqn:Em; [|done].
    destruct (gcm_seal _ _ _ _) as [ct|] eqn:Ec; [|done]. cbn [ok_or].
    intros [= <-]. cbn [cipher nonce key_version]. unfold decrypt_aes_gcm. cbn [nonce ciphertext].
    unfold zlen. rewrite length_app, Hs, Hi. 
    rewrite take_app_length', drop_app_length' by (by rewrite Hs). rewrite Em, (gcm_open_seal _ _ _ _ _ Ec). by split_and!.
Qed.
End sealing.

(** ** The table of generations *)

Definition gens_ok (gens : Generations) : Prop :=
  forall v row, gens !! v = Some row -> g_version row = v /\ 0 < v < 2 ^ 31.

Lemma as_u32_small v : 0 <= v < 2 ^ 31 -> as_u32 v = v.
Proof. intros Hv. unfold wrap_u. apply Z.mod_small. lia. Qed.
Lemma as_i32_small v : 0 <= v < 2 ^ 31 -> as_i32 v = v.
Proof. intros Hv. apply wrap_s_id; [lia|]. unfold fits_s. lia. Qed.
Lemma as_i32_pos v : fits_u 32 v -> 0 < as_i32 v -> as_i32 v = v /\ v < 2 ^ 31.
Proof.
  unfold fits_u, wrap_s. intros Hv Hp. destruct (Z.lt_ge_cases v (2 ^ 31)) as [Hlt|Hge].
  - rewrite Z.mod_small in * by lia. lia.
  - exfalso. rewrite <- (Z.mod_add _ (-1)) in Hp by lia. rewrite Z.mod_small in Hp by lia. lia.
Qed.

Lemma elem_of_all gens row : row ∈ all gens <-> exists v, gens !! v = Some row.
Proof.
  unfold all. rewrite merge_sort_Permutation, list_elem_of_fmap. split.
  - intros ([v r] & -> & Hin). exists v. by apply elem_of_map_to_list.
  - intros (v & Hv). exists (v, row). split; [done|]. by apply elem_of_map_to_list.
Qed.

Lemma version_le_total : Total version_le.
Proof. intros x y. unfold version_le. lia. Qed.
Lemma version_le_trans : Transitive version_le.
Proof. intros x y z. unfold version_le. lia. Qed.

Lemma all_sorted gens : StronglySorted version_le (all gens).
Proof. apply StronglySorted_merge_sort; [exact version_le_trans|exact version_le_total]. Qed.

(** The last element of a sorted list is its greatest. *)
Lemma sorted_last {A} (R : relation A) `{!Reflexive R} (l : list A) x y :
  StronglySorted R l -> last l = Some y -> x ∈ l -> R x y.
Proof.
  intros Hs [k ->]%last_Some. apply StronglySorted_app in Hs as (Hr & _).
  intros [Hx| ->%list_elem_of_singleton]%elem_of_app; [|done]. apply Hr; [done|by apply list_elem_of_singleton].
Qed.

Lemma latest_spec b gens newest highest :
  gens_ok gens -> latest b gens = (newest, highest) ->
  0 <= highest < 2 ^ 31
  /\ (forall v row, gens !! v = Some row -> v <= highest)
  /\ (forall v, newest = Some v -> exists row, gens !! v = Some row /\ g_backend row = b).
Proof.
  intros Hg. unfold latest. intros [= <- <-].
  assert (Reflexive version_le) by (intros r; unfold version_le; lia).
  assert (0 <= default 0 (g_version <$> last (all gens)) < 2 ^ 31) as Hb.
  { destruct (last (all gens)) as [r|] eqn:E; cbn; [|lia].
    apply last_Some_elem_of, elem_of_all in E as (v & Hv). destruct (Hg _ _ Hv). lia. }
  rewrite as_u32_small by done. split; [done|]. split.
  - intros v row Hv. destruct (Hg _ _ Hv) as [Ev _].
    assert (row ∈ all gens) as Hin by (apply elem_of_all; eauto).
    destruct (last (all gens)) as [r|] eqn:E; cbn.
    + pose proof (sorted_last _ _ _ _ (all_sorted gens) E Hin) as Hle. unfold version_le in Hle. lia.
    + apply last_None in E. rewrite E in Hin. by apply not_elem_of_nil in Hin.
  - intros v (r & Hr & Ev)%fmap_Some. apply last_Some_elem_of, list_elem_of_filter in Hr as [Hb' Hr].
    apply elem_of_all in Hr as (v' & Hv'). destruct (Hg _ _ Hv') as [Er Hbd].
    exists r. subst v. rewrite as_u32_small by lia. by rewrite Er.
Qed.

Lemma insert_gen_spec version b r w gens gens' :
  fits_u 32 version -> gens_ok gens -> insert_gen version b r w gens = Some gens' ->
  0 < version < 2 ^ 31 /\ gens !! version = None
  /\ gens' = <[version := mkGenerationRow version b r w]> gens /\ gens_ok gens' /\ gens ⊆ gens'.
Proof.
  intros Hf Hg. unfold insert_gen. destruct (_ && _) eqn:E; [|done]. intros [= <-]. bool_hyps.
  assert (as_i32 version = version /\ version < 2 ^ 31) as [Ev Hlt] by (apply as_i32_pos; [done|by bool_hyps]).
  rewrite Ev in *. split_and!; [lia|lia|done|done| |by apply insert_subseteq].
  intros v row. destruct (decide (v = version)) as [->|Hne].
  - rewrite lookup_insert_eq. intros [= <-]. cbn. lia.
  - rewrite lookup_insert_ne by done. apply Hg.
Qed.

(** ** What a node holds *)

Section nodes.
Context `{KeyWrapperLaws}.

(** Backend [b] gave [k] for the generation at some time. *)
Definition unwraps (row : GenerationRow) (k : list Z) : Prop :=
  exists t, unwrap t (g_backend row) (g_key_ref row) (g_wrapped_key row) (wrap_context (g_version row)) = Ok k.

(** Every key is the environment's or what a stored generation unwraps to. *)
Record node_ok (gens : Generations) (n : Node) : Prop := {
  no_keys v k : keys n !! v = Some k ->
    v ∈ env_versions n \/ exists row, gens !! v = Some row /\ unwraps row k /\ zlen k = 32;
  no_env v : v ∈ env_versions n -> fits_u 32 v /\ v <= default 0 (last (env_versions n));
  no_current : current n = 0 \/ is_Some (keys n !! current n)
}.

(** What the operations of a node leave alone. *)
Record node_le (n n' : Node) : Prop := {
  nl_keys : keys n ⊆ keys n';
  nl_env : env_versions n' = env_versions n;
  nl_legacy : legacy_reads n' = legacy_reads n
}.

Lemma node_le_refl n : node_le n n.
Proof. by split. Qed.
Lemma node_le_trans a b c : node_le a b -> node_le b c -> node_le a c.
Proof. intros [] []. split; [by etransitivity|congruence|congruence]. Qed.

Lemma node_ok_mono gens gens' n : gens ⊆ gens' -> node_ok gens n -> node_ok gens' n.
Proof.
  intros Hsub [Hk He Hc]. split; [|done|done]. intros v k [?|(row & Hr & Hu)]%Hk; [by left|].
  right. exists row. split; [|done]. by eapply lookup_weaken.
Qed.

(** Adding the key a stored generation unwraps to. *)
Lemma add_key gens n v row k :
  node_ok gens n -> gens !! v = Some row -> unwraps row k -> zlen k = 32 ->
  (v ∈ env_versions n -> keys n !! v = None) ->
  let n' := set_keys (<[v := k]> (keys n)) n in
  node_ok gens n' /\ node_le n n'.
Proof.
  intros [Hk He Hc] Hr Hu Hl Hnew n'. subst n'.
  assert (keys n ⊆ <[v := k]> (keys n)) as Hsub.
  { destruct (keys n !! v) as [k0|] eqn:E; [|by apply insert_subseteq].
    destruct (Hk v k0 E) as [?%Hnew|(row' & Hr' & Hu' & _)]; [congruence|].
    assert (row' = row) as -> by congruence. destruct Hu as [t Ht], Hu' as [t' Ht'].
    rewrite <- (unwrap_stable _ _ _ _ _ _ _ _ Ht' Ht), insert_id by done. done. }
  split; split; cbn [keys env_versions current legacy_reads set_keys]; try done.
  - intros v' k'. destruct (decide (v' = v)) as [->|Hne].
    + rewrite lookup_insert_eq. intros [= <-]. right. by exists row.
    + rewrite lookup_insert_ne by done. apply Hk.
  - destruct Hc as [|[k' Hk']]; [by left|right]. exists k'. by eapply lookup_weaken.
Qed.

Lemma unwrap_row_spec now c row n gens r n' :
  gens_ok gens -> node_ok gens n -> gens !! g_version row = Some row ->
  (g_version row ∈ env_versions n -> keys n !! g_version row = None) ->
  unwrap_row now c row n = (r, n') ->
  node_ok gens n' /\ node_le n n' /\ custody n' = custody n /\ loading n' = loading n
  /\ (r = Ok () -> is_Some (keys n' !! g_version row)).
Proof.
  intros Hg Hn Hr Hnew. destruct (Hg _ _ Hr) as [_ Hb]. unfold unwrap_row. rewrite as_u32_small by lia.
  destruct (negb _); [by intros [= <- <-]; split_and!|].
  destruct (unwrap _ _ _ _ _) as [k|] eqn:Eu; [|by intros [= <- <-]; split_and!].
  destruct (zlen k =? MASTER_KEY_LEN) eqn:El; cbn [negb]; [|by intros [= <- <-]; split_and!]. bool_hyps.
  destruct (add_key gens n _ row k Hn Hr ltac:(by exists now) El Hnew) as [Hok Hle].
  intros [= <- <-]. set (n1 := set_keys _ n) in *.
  assert (is_Some (keys n1 !! g_version row)) as Hs by (cbn; rewrite lookup_insert_eq; eauto).
  destruct (bool_decide _); [|by split_and!].
  split_and!; [|by destruct Hle; split|done|done|done].
  destruct Hok as [Hk He Hc]. split; [done|done|]. cbn [current keys set_current].
  cbn. destruct (Z.max_spec (current n) (g_version row)) as [[_ ->]|[_ ->]]; [by right|done].
Qed.

Lemma key_spec now version gens n r n' :
  fits_u 32 version -> gens_ok gens -> node_ok gens n -> key now version gens n = (r, n') ->
  node_ok gens n' /\ node_le n n' /\ custody n' = custody n
  /\ (forall k, r = Ok k -> keys n' !! version = Some k).
Proof.
  intros Hf Hg Hn. unfold key. destruct (keys n !! version) as [k|] eqn:Ek.
  { intros [= <- <-]. split_and!; [done|done|done|]. by intros ? [= <-]. }
  destruct (custody n) as [c|] eqn:Ec; [|by intros [= <- <-]; split_and!].
  destruct (match loading n !! version with Some _ => _ | None => _ end); [by intros [= <- <-]; split_and!|].
  destruct (get_gen version gens) as [row|] eqn:Er.
  2: { intros [= <- <-]. split_and!; [|by split|done|done]. by destruct Hn; split. }
  assert (g_version row = version) as Ev.
  { unfold get_gen in Er. destruct (Hg _ _ Er) as [-> Hb]. apply as_i32_pos; [done|lia]. }
  destruct (unwrap_row now c row n) as [r1 n1] eqn:Eu.
  destruct (unwrap_row_spec now c row n gens r1 n1 Hg Hn) as (Hn1 & Hle & Hc & _ & Hs); [|by rewrite Ev|done|].
  { unfold get_gen in Er. by rewrite (proj1 (Hg _ _ Er)). }
  rewrite Ec in Hc. destruct r1 as [[]|e]; cbn [map_err].
  - intros [= <- <-]. destruct (Hs eq_refl) as [k Hk]. rewrite Ev in Hk. cbn [set_loading keys].
    split_and!; [by destruct Hn1; split|by destruct Hle; split|done|].
    intros k'. rewrite Hk. by intros [= <-].
  - intros [= <- <-]. split_and!; [by destruct Hn1; split|by destruct Hle; split|done|done].
Qed.

(** The version a new generation gets. *)
Lemma fresh_version gens n highest in_use version :
  node_ok gens n -> 0 <= highest < 2 ^ 31 -> fits_u 32 in_use ->
  version = as_u32 (Z.max (Z.max highest (default 0 (last (env_versions n)))) in_use + 1) -> 0 < version ->
  highest < version /\ in_use < version /\ (forall v, v ∈ env_versions n -> v < version).
Proof.
  intros [_ He _] Hh Hu -> Hpos. set (eh := default 0 (last (env_versions n))) in *.
  assert (0 <= eh < 2 ^ 32) as Heh.
  { subst eh. destruct (last (env_versions n)) as [v|] eqn:E; cbn; [|lia].
    apply last_Some_elem_of in E. by apply He in E as [? _]. }
  unfold fits_u in Hu. revert Hpos. unfold wrap_u.
  destruct (Z.eq_dec (Z.max (Z.max highest eh) in_use + 1) (2 ^ 32)) as [->|Hne]; [by rewrite Z.mod_same|].
  rewrite Z.mod_small by lia. intros _. split_and!; [lia|lia|]. intros v [_ Hv]%He. lia.
Qed.

(** What making or finding a generation leaves true. *)
Definition keeps (gens gens' : Generations) (n n' : Node) : Prop :=
  gens_ok gens' /\ gens ⊆ gens' /\ node_ok gens' n' /\ node_le n n' /\ custody n' = custody n.

(** [v] is a new generation, above everything in use, whose wrapped key was
    seen to unwrap. *)
Definition fresh_generation (b : string) (in_use : Z) (k : list Z) (gens gens' : Generations) (n n' : Node) (v : Z)
    : Prop :=
  fits_u 31 v /\ (forall w row, gens !! w = Some row -> w < v) /\ (forall w, w ∈ env_versions n -> w < v)
  /\ in_use < v /\ current n' = current n /\ keys n' !! v = Some k
  /\ exists row, gens' !! v = Some row /\ g_backend row = b /\ unwraps row k.

Lemma keeps_refl gens n : gens_ok gens -> node_ok gens n -> keeps gens gens n n.
Proof. intros. by split_and!. Qed.

Lemma make_generation_spec now k b highest in_use gens n r n' gens'
    (version := as_u32 (Z.max (Z.max highest (default 0 (last (env_versions n)))) in_use + 1)) :
  length k = 32%nat -> fits_u 32 in_use -> gens_ok gens -> node_ok gens n ->
  0 <= highest < 2 ^ 31 -> (forall v row, gens !! v = Some row -> v <= highest) ->
  make_generation now k b version gens n = (r, n', gens') ->
  keeps gens gens' n n' /\ forall w x, r = Ok (w, x) -> x = true /\ fresh_generation b in_use k gens gens' n n' w.
Proof.
  intros Hk Hu Hg Hn Hh Hall. pose proof (keeps_refl gens n Hg Hn) as Hkeep. unfold make_generation.
  destruct (wrap _ _ _ _) as [wr|]; [|by intros [= <- <- <-]].
  destruct (unwrap _ _ _ _ _) as [back|] eqn:Eb; [|by intros [= <- <- <-]].
  destruct (bool_decide (back = k)) eqn:Ek; cbn [negb]; [|by intros [= <- <- <-]]. bool_hyps. subst back.
  destruct (insert_gen _ _ _ _ gens) as [gens1|] eqn:Ei; [|by intros [= <- <- <-]].
  apply insert_gen_spec in Ei as (Hv & Hfree & -> & Hg1 & Hsub); [|by apply Z.mod_pos_bound|done].
  destruct (fresh_version gens n highest in_use version Hn Hh Hu eq_refl ltac:(lia)) as (F1 & F2 & F3).
  set (row := mkGenerationRow version b (w_key_ref wr) (w_wrapped wr)) in *.
  destruct (add_key (<[version := row]> gens) n version row k) as [Hn1 Hle1].
  { by apply (node_ok_mono gens). }
  { apply lookup_insert_eq. }
  { by exists now. }
  { unfold zlen. by rewrite Hk. }
  { intros Hin%F3. lia. }
  intros [= <- <- <-]. split; [by split_and!|]. intros w x [= <- <-]. split; [done|].
  unfold fresh_generation. split_and!; try done.
  - unfold fits_u. lia.
  - intros v r0 Hr0%Hall. lia.
  - cbn. apply lookup_insert_eq.
  - exists row. split_and!; [apply lookup_insert_eq|done|by exists now].
Qed.

Lemma ensure_generation_spec now rnd c b force in_use gens n r n' gens' :
  random_ok rnd -> fits_u 32 in_use -> gens_ok gens -> node_ok gens n ->
  ensure_generation now rnd c b force in_use gens n = (r, n', gens') ->
  keeps gens gens' n n'
  /\ forall v x, r = Ok (v, x) ->
       is_Some (keys n' !! v)
       /\ if x : bool then fresh_generation b in_use (r_key rnd) gens gens' n n' v else force = false.
Proof.
  intros Hrnd Hu Hg Hn. pose proof (keeps_refl gens n Hg Hn) as Hkeep. unfold ensure_generation.
  destruct (negb _); [by intros [= <- <- <-]|].
  destruct (latest b gens) as [newest highest] eqn:El.
  destruct (latest_spec _ _ _ _ Hg El) as (Hh & Hall & Hnew). cbv zeta.
  destruct newest as [v|]; [destruct force|].
  2: { destruct (Hnew v eq_refl) as (row & Hv & _). destruct (Hg _ _ Hv) as [_ Hb].
       destruct (key now v gens n) as [rk nk] eqn:Ek.
       destruct (key_spec now v gens n rk nk ltac:(unfold fits_u; lia) Hg Hn Ek) as (H1 & H2 & H3 & H4).
       intros [= <- <- <-]. split; [by split_and!|]. destruct rk as [k|]; [|done]. intros w x [= <- <-].
       rewrite (H4 k eq_refl). by split. }
  all: intros Hm; apply make_generation_spec in Hm as [Hk Hf]; try done; [|apply Hrnd];
    split; [done|]; intros w x Hw; destruct (Hf _ _ Hw) as [-> Hfr]; split; [|done];
    destruct Hfr as (_ & _ & _ & _ & _ & -> & _); done.
Qed.

Lemma current_below gens n v :
  node_ok gens n -> 0 < v -> (forall w row, gens !! w = Some row -> w < v) ->
  (forall w, w ∈ env_versions n -> w < v) -> current n < v.
Proof.
  intros [Hk _ [->|[k Hc]]] Hv Hg He; [done|]. apply Hk in Hc as [?|(row & ? & _)]; [by apply He|by eapply Hg].
Qed.

(** A new generation is above everything in use and is what the node seals
    with from then on. *)
Lemma new_generation_spec now rnd in_use gens n r n' gens' :
  random_ok rnd -> fits_u 32 in_use -> gens_ok gens -> node_ok gens n ->
  new_generation now rnd in_use gens n = (r, n', gens') ->
  keeps gens gens' n n'
  /\ forall v, r = Ok v ->
       (forall w row, gens !! w = Some row -> w < v) /\ (forall w, w ∈ env_versions n -> w < v) /\ in_use < v
       /\ current n' = v /\ keys n' !! v = Some (r_key rnd)
       /\ exists row, gens' !! v = Some row /\ unwraps row (r_key rnd).
Proof.
  intros Hrnd Hu Hg Hn. pose proof (keeps_refl gens n Hg Hn) as Hkeep. unfold new_generation.
  destruct (custody n) as [c|] eqn:Ec; [|by intros [= <- <- <-]].
  destruct (primary c) as [b|]; [|by intros [= <- <- <-]].
  destruct (ensure_generation _ _ _ _ _ _ _ _) as [[r1 n1] gens1] eqn:Ee.
  destruct (ensure_generation_spec _ _ _ _ _ _ _ _ _ _ _ Hrnd Hu Hg Hn Ee) as [Hk1 Hf].
  destruct r1 as [[v x]|e]; [|by intros [= <- <- <-]]. intros [= <- <- <-].
  destruct (Hf v x eq_refl) as [Hs Hx]. destruct x; [|done].
  destruct Hx as (Hv & F1 & F2 & F3 & Ecur & Ekey & row & Hrow & _ & Hun).
  assert (0 < v) as Hpos by (unfold fits_u in *; lia).
  pose proof (current_below _ _ _ Hn Hpos F1 F2) as Hlt. rewrite Ecur, Z.max_r by lia.
  destruct Hk1 as (H1 & H2 & [K1 K2 K3] & [L1 L2 L3] & H5).
  split; [|intros ? [= <-]; split_and!; try done; by exists row].
  split_and!; try done. split; [done|done|by right].
Qed.

Lemma refresh_spec now gens n : gens_ok gens -> node_ok gens n -> keeps gens gens n (refresh now gens n).
Proof.
  intros Hg Hn. unfold refresh. destruct (custody n) as [c|] eqn:Ec; [|by apply keeps_refl].
  assert (Forall (fits_u 32) (newer_than (default 0 (last (known_versions n))) gens)) as Hf.
  { apply Forall_forall. intros v (r & -> & _)%list_elem_of_fmap. by apply Z.mod_pos_bound. }
  pose proof (keeps_refl gens n Hg Hn) as Hkeep. revert Hkeep. generalize n at 2 4 as n1.
  induction Hf as [|v vs Hv _ IH]; intros n1 Hk; [done|]. cbn [foldl]. apply IH.
  destruct Hk as (_ & H2 & H3 & H4 & H5). destruct (key now v gens n1) as [r n2] eqn:Ek.
  destruct (key_spec _ _ _ _ _ _ Hv Hg H3 Ek) as (K1 & K2 & K3 & _).
  split_and!; [done|done|done|by eapply node_le_trans|cbn; congruence].
Qed.

Lemma attach_rows_spec now c rows report gens n r n' :
  gens_ok gens -> node_ok gens n -> Forall (fun row => gens !! g_version row = Some row) rows ->
  attach_rows now c rows report n = (r, n') -> node_ok gens n' /\ node_le n n' /\ custody n' = custody n.
Proof.
  intros Hg Hn Hr. revert report n Hn. induction Hr as [|row rows Hrow _ IH]; intros report n Hn; cbn [attach_rows].
  { by intros [= <- <-]. }
  destruct (Hg _ _ Hrow) as [_ Hb]. rewrite as_u32_small by lia.
  destruct (bool_decide (g_version row ∈ env_versions n)) eqn:Ee; [by intros [= <- <-]|]. bool_hyps.
  destruct (unwrap_row now c row n) as [r1 n1] eqn:Eu.
  destruct (unwrap_row_spec _ _ _ _ _ _ _ Hg Hn Hrow ltac:(done) Eu) as (H1 & H2 & H3 & _).
  destruct r1; intros (K1 & K2 & K3)%IH; try done; (split_and!; [done|by eapply node_le_trans|congruence]).
Qed.

Lemma attach_spec now rnd in_use ws p gens n r n' gens' :
  random_ok rnd -> fits_u 32 in_use -> gens_ok gens -> node_ok gens n ->
  attach now rnd in_use ws p gens n = (r, n', gens') ->
  gens_ok gens' /\ gens ⊆ gens' /\ node_ok gens' n' /\ node_le n n'.
Proof.
  intros Hrnd Hu Hg Hn. unfold attach. destruct (match p with Some _ => _ | None => _ end); [by intros [= <- <- <-]|].
  destruct (custody n); [by intros [= <- <- <-]|]. set (n0 := mkNode _ _ _ _ _ _).
  assert (node_ok gens n0) as Hn0 by (by destruct Hn; split).
  assert (node_le n n0) as Hle0 by (by split).
  assert (Forall (fun row => gens !! g_version row = Some row) (all gens)) as Hrows.
  { apply Forall_forall. intros row (v & Hv)%elem_of_all. by rewrite (proj1 (Hg _ _ Hv)). }
  destruct (attach_rows _ _ _ _ _) as [r1 n1] eqn:Ea.
  destruct (attach_rows_spec _ _ _ _ _ _ _ _ Hg Hn0 Hrows Ea) as (Hn1 & Hle1 & _).
  pose proof (node_le_trans _ _ _ Hle0 Hle1) as Hle.
  destruct r1 as [report|]; [|by intros [= <- <- <-]]. destruct p as [b|]; [|by intros [= <- <- <-]].
  destruct (match max_version _ with Some _ => _ | None => _ end) as [[r2 n2] gens2] eqn:E2.
  assert (gens_ok gens2 /\ gens ⊆ gens2 /\ node_ok gens2 n2 /\ node_le n1 n2) as (H1 & H2 & H3 & H4).
  { destruct (max_version _); [by injection E2 as <- <- <-|].
    destruct (ensure_generation_spec _ _ _ _ _ _ _ _ _ _ _ Hrnd Hu Hg Hn1 E2) as [(? & ? & ? & ? & _) _]. done. }
  pose proof (node_le_trans _ _ _ Hle H4) as Hle2.
  destruct r2 as [[v x]|]; [|by intros [= <- <- <-]].
  destruct (keys n2 !! v) as [k|] eqn:Ek; [|by intros [= <- <- <-]]. intros [= <- <- <-].
  split_and!; [done|done| |by destruct Hle2; split]. destruct H3 as [K1 K2 K3]. split; [done|done|]. right. by exists k.
Qed.
End nodes.

(** ** The deployment *)

(** The nodes that run, and the table they share. *)
Record Cluster := mkCluster { nodes : gmap nat Node; gens : Generations }.

Section cluster.
Context `{AeadLaws} `{KeyWrapperLaws}.
Context (fips : bool).

(** Versions as the configuration holds them: [u32]. *)
Definition config_ok (version : Z) (previous : list (Z * list Z)) : Prop :=
  fits_u 32 version /\ Forall (fun vk => fits_u 32 vk.1) previous.

(** What nodes do, in the order the database sees it; [may_start] says which
    nodes start or restart. *)
Inductive cstep (may_start : nat -> Prop) : relation Cluster :=
| C_start i mk version previous tr s :
    may_start i -> config_ok version previous ->
    cstep may_start s (mkCluster (<[i := from_config fips mk version previous tr]> (nodes s)) (gens s))
| C_attach i n now rnd in_use ws p s :
    nodes s !! i = Some n -> random_ok rnd -> fits_u 32 in_use ->
    cstep may_start s
      (let '(_, n', g') := attach now rnd in_use ws p (gens s) n in mkCluster (<[i := n']> (nodes s)) g')
| C_new_generation i n now rnd in_use s :
    nodes s !! i = Some n -> random_ok rnd -> fits_u 32 in_use ->
    cstep may_start s
      (let '(_, n', g') := new_generation now rnd in_use (gens s) n in mkCluster (<[i := n']> (nodes s)) g')
| C_refresh i n now s :
    nodes s !! i = Some n ->
    cstep may_start s (mkCluster (<[i := refresh now (gens s) n]> (nodes s)) (gens s))
| C_decrypt i n now e aad s :
    nodes s !! i = Some n -> fits_u 32 (key_version e) ->
    cstep may_start s (mkCluster (<[i := (decrypt now (gens s) n e aad).2]> (nodes s)) (gens s)).

Lemma decrypt_key now g n e aad k n' :
  key now (key_version e) g n = (Ok k, n') -> (cipher e = XChaCha20Poly1305 -> legacy_reads n = true) ->
  decrypt now g n e aad = (open k e aad, n').
Proof.
  intros Hk Hl. unfold decrypt, open. destruct (cipher e); [rewrite (Hl eq_refl)|]; cbn [negb]; by rewrite Hk.
Qed.

Lemma decrypt_node now g n e aad :
  (decrypt now g n e aad).2 = n \/ (decrypt now g n e aad).2 = (key now (key_version e) g n).2.
Proof.
  unfold decrypt. destruct (cipher e).
  - destruct (negb _); [by left|]. right. by destruct (key _ _ _ _) as [[]].
  - right. by destruct (key _ _ _ _) as [[]].
Qed.

Lemma env_keys previous (m : gmap Z (list Z)) v k :
  foldl (fun m vk => <[vk.1 := vk.2]> m) m previous !! v = Some k -> v ∈ previous.*1 \/ m !! v = Some k.
Proof.
  revert m. induction previous as [|[v0 k0] previous IH]; intros m; cbn [foldl fmap list_fmap fst snd]; [by right|].
  intros [Hin|Hm]%IH; [left; set_solver|]. destruct (decide (v = v0)) as [->|Hne]; [left; set_solver|].
  right. by rewrite lookup_insert_ne in Hm.
Qed.

Lemma from_config_ok g mk version previous tr :
  config_ok version previous -> node_ok g (from_config fips mk version previous tr).
Proof.
  intros [Hv Hp]. rewrite Forall_forall in Hp.
  assert (forall w, w ∈ previous.*1 -> fits_u 32 w) as Hp' by (intros w (vk & -> & Hin)%list_elem_of_fmap; by apply Hp).
  assert (forall vs : list Z, (forall w, w ∈ vs -> fits_u 32 w) -> forall w, w ∈ merge_sort Z.le vs ->
    fits_u 32 w /\ w <= default 0 (last (merge_sort Z.le vs))) as Hsort.
  { intros vs Hvs w Hw. split; [apply Hvs; by rewrite <- (merge_sort_Permutation Z.le)|].
    destruct (last (merge_sort Z.le vs)) as [y|] eqn:E; [|by apply last_None in E; rewrite E in Hw; apply not_elem_of_nil in Hw].
    eapply (sorted_last Z.le); [|done|done]. apply (StronglySorted_merge_sort Z.le). }
  unfold from_config, node_new. destruct mk as [k|]; cbn [fmap option_fmap option_map];
    (split; cbn [keys env_versions current]; [|apply Hsort|]).
  - intros w k'. destruct (decide (w = version)) as [->|Hne].
    + intros _. left. rewrite merge_sort_Permutation. set_solver.
    + rewrite lookup_insert_ne by done. intros [Hin|Hm]%env_keys; [|by rewrite lookup_empty in Hm].
      left. rewrite merge_sort_Permutation. set_solver.
  - intros w [Hw| ->%list_elem_of_singleton]%elem_of_app; [by apply Hp'|done].
  - right. rewrite lookup_insert_eq. eauto.
  - intros w k' [Hin|Hm]%env_keys; [|by rewrite lookup_empty in Hm]. left. by rewrite merge_sort_Permutation.
  - done.
  - by left.
Qed.

(** Every node's keys are right and, outside the FIPS build, it reads what it
    writes. *)
Definition cluster_ok (s : Cluster) : Prop :=
  gens_ok (gens s)
  /\ forall i n, nodes s !! i = Some n -> node_ok (gens s) n /\ (fips = false -> legacy_reads n = true).

(** One node changes, the table grows. *)
Lemma cluster_ok_update s i n n' g' :
  cluster_ok s -> nodes s !! i = Some n -> gens_ok g' -> gens s ⊆ g' -> node_ok g' n' -> node_le n n' ->
  cluster_ok (mkCluster (<[i := n']> (nodes s)) g').
Proof.
  intros [Hg Hn] Hi Hg' Hsub Hok Hle. split; [done|]. cbn [nodes gens]. intros j m.
  destruct (decide (j = i)) as [->|Hne].
  - rewrite lookup_insert_eq. intros [= <-]. split; [done|]. rewrite (nl_legacy _ _ Hle). by apply (Hn i n Hi).
  - rewrite lookup_insert_ne by done. intros [Hm Hl]%Hn. split; [by apply (node_ok_mono (gens s))|done].
Qed.

(** What every step keeps: the invariant, the stored generations, and, for a
    node that does not restart, its keys. *)
Lemma cstep_keeps may_start s s' :
  cluster_ok s -> cstep may_start s s' ->
  cluster_ok s' /\ gens s ⊆ gens s'
  /\ forall i n, nodes s !! i = Some n -> ~ may_start i -> exists n', nodes s' !! i = Some n' /\ node_le n n'.
Proof.
  intros Hs Hstep.
  assert (forall j m m' g', nodes s !! j = Some m -> gens_ok g' -> gens s ⊆ g' -> node_ok g' m' -> node_le m m' ->
    cluster_ok (mkCluster (<[j := m']> (nodes s)) g') /\ gens s ⊆ g'
    /\ forall i n, nodes s !! i = Some n -> ~ may_start i ->
        exists n', <[j := m']> (nodes s) !! i = Some n' /\ node_le n n') as Hupd.
  { intros j m m' g' Hj Hg' Hsub Hok Hle. split; [by eapply cluster_ok_update|]. split; [done|]. intros i n Hi _.
    destruct (decide (i = j)) as [->|Hne].
    - exists m'. rewrite lookup_insert_eq. split; [done|]. by assert (n = m) as -> by congruence.
    - exists n. rewrite lookup_insert_ne by done. split; [done|apply node_le_refl]. }
  destruct Hs as [Hg Hn].
  destruct Hstep as [i mk version previous tr s Hi Hc|i n now rnd in_use ws p s Hi Hr Hu|i n now rnd in_use s Hi Hr Hu
    |i n now s Hi|i n now e aad s Hi Hf].
  - split; [split; [done|]|split; [done|]]; cbn [nodes gens].
    + intros j m. destruct (decide (j = i)) as [->|Hne]; [|rewrite lookup_insert_ne by done; apply Hn].
      rewrite lookup_insert_eq. intros [= <-]. split; [by apply from_config_ok|]. by intros ->.
    + intros j m Hj Hns. exists m. rewrite lookup_insert_ne by congruence. split; [done|apply node_le_refl].
  - destruct (attach _ _ _ _ _ _ _) as [[r n'] g'] eqn:E.
    destruct (attach_spec _ _ _ _ _ _ _ _ _ _ Hr Hu Hg (proj1 (Hn _ _ Hi)) E) as (? & ? & ? & ?). by apply (Hupd i n).
  - destruct (new_generation _ _ _ _ _) as [[r n'] g'] eqn:E.
    destruct (new_generation_spec _ _ _ _ _ _ _ _ Hr Hu Hg (proj1 (Hn _ _ Hi)) E) as [(? & ? & ? & ? & _) _].
    by apply (Hupd i n).
  - destruct (refresh_spec now _ _ Hg (proj1 (Hn _ _ Hi))) as (? & ? & ? & ? & _). by apply (Hupd i n).
  - assert (node_ok (gens s) (decrypt now (gens s) n e aad).2 /\ node_le n (decrypt now (gens s) n e aad).2) as [? ?].
    { destruct (decrypt_node now (gens s) n e aad) as [->| ->]; [split; [by apply (Hn i n)|apply node_le_refl]|].
      destruct (key now (key_version e) (gens s) n) as [r n'] eqn:E.
      by destruct (key_spec _ _ _ _ _ _ Hf Hg (proj1 (Hn _ _ Hi)) E) as (? & ? & _). }
    by apply (Hupd i n).
Qed.

Lemma csteps_keep may_start s s' :
  rtc (cstep may_start) s s' -> cluster_ok s ->
  cluster_ok s' /\ gens s ⊆ gens s'
  /\ forall i n, nodes s !! i = Some n -> ~ may_start i -> exists n', nodes s' !! i = Some n' /\ node_le n n'.
Proof.
  induction 1 as [s|s s1 s' Hstep _ IH]; intros Hs.
  { split_and!; try done. intros i n Hi _. exists n. split; [done|apply node_le_refl]. }
  destruct (cstep_keeps _ _ _ Hs Hstep) as (Hs1 & Hsub1 & Hn1). destruct (IH Hs1) as (Hs' & Hsub & Hn).
  split; [done|]. split; [by etransitivity|]. intros i n Hi Hns. destruct (Hn1 i n Hi Hns) as (n1 & Hi1 & Hle1).
  destruct (Hn i n1 Hi1 Hns) as (n' & Hi' & Hle). exists n'. split; [done|by eapply node_le_trans].
Qed.

Lemma cluster_ok_empty : cluster_ok (mkCluster ∅ ∅).
Proof. split; [intros v row Hv|intros i n Hi]; cbn in *; by rewrite lookup_empty in *. Qed.

(** What a blob sealed by a node says and opens to. *)
Lemma encrypt_spec rnd n p aad e :
  random_ok rnd -> encrypt fips rnd n p aad = Ok e ->
  exists k, keys n !! current n = Some k /\ key_version e = current n /\ open k e aad = Ok p
    /\ (cipher e = XChaCha20Poly1305 -> fips = false) /\ zlen (nonce e) < 256.
Proof.
  intros Hr. unfold encrypt. destruct (keys n !! current n) as [k|]; [|done]. cbn [ok_or]. intros Hs.
  destruct (open_seal _ _ _ _ _ _ _ Hr Hs) as (Ho & Hc & Hv & Hn). exists k. split_and!; try done.
  rewrite Hc. unfold WRITE_CIPHER. by destruct fips.
Qed.

Lemma key_fits g n v k : gens_ok g -> node_ok g n -> keys n !! v = Some k -> fits_u 32 v.
Proof.
  intros Hg [Hk He _] [Hin|(row & Hr & _)]%Hk; [by apply He|]. destruct (Hg _ _ Hr). unfold fits_u. lia.
Qed.

(** The key of a stored generation, on any node that may load it. *)
Lemma key_loads now g n v c row k k0 :
  gens_ok g -> node_ok g n -> g !! v = Some row -> unwraps row k -> zlen k = 32 ->
  v ∉ env_versions n -> custody n = Some c -> g_backend row ∈ wrappers c ->
  match loading n !! v with Some t => LOAD_RETRY <= now - t | None => True end ->
  unwrap now (g_backend row) (g_key_ref row) (g_wrapped_key row) (wrap_context v) = Ok k0 ->
  (key now v g n).1 = Ok k.
Proof.
  intros Hg Hn Hr [t Ht] Hlen Henv Hc Hw Hl Hk0. destruct (Hg _ _ Hr) as [Ev Hb]. rewrite Ev in Ht.
  assert (k0 = k) as -> by (by eapply unwrap_stable).
  unfold key. destruct (keys n !! v) as [k'|] eqn:Ek.
  { destruct (no_keys _ _ Hn _ _ Ek) as [|(row' & Hr' & [t' Ht'] & _)]; [done|].
    assert (row' = row) as -> by congruence. rewrite Ev in Ht'. cbn. f_equal. by eapply unwrap_stable. }
  rewrite Hc. assert (match loading n !! v with Some t => now - t <? LOAD_RETRY | None => false end = false) as ->.
  { destruct (loading n !! v); [|done]. apply Z.ltb_ge. lia. }
  unfold get_gen. rewrite as_i32_small, Hr by lia. unfold unwrap_row. rewrite Ev, as_u32_small by lia.
  rewrite bool_decide_eq_true_2 by done. cbn [negb]. rewrite Hk0, Hlen. cbn [MASTER_KEY_LEN negb Z.eqb Pos.eqb map_err].
  destruct (bool_decide _); cbn; by rewrite lookup_insert_eq.
Qed.
End cluster.

(** A running server reads back what it sealed: whatever it and the other
    nodes do later (new generations, refreshes, loading keys, restarts of
    other nodes), as long as it is not restarted itself, the bytes it stored
    decrypt to the plaintext, under the same additional data. *)
Theorem process_reads_back `{AeadLaws} `{KeyWrapperLaws} fips start s s' i n n' rnd p aad e now :
  rtc (cstep fips start) (mkCluster ∅ ∅) s -> nodes s !! i = Some n ->
  random_ok rnd -> encrypt fips rnd n p aad = Ok e ->
  rtc (cstep fips (fun j => j <> i)) s s' -> nodes s' !! i = Some n' ->
  exists e', from_bytes (to_bytes e) = Ok e' /\ (decrypt now (gens s') n' e' aad).1 = Ok p.
Proof.
  intros Hs Hi Hr He Hs' Hi'. destruct (csteps_keep _ _ _ _ Hs (cluster_ok_empty _)) as (Hok & _ & _).
  destruct (csteps_keep _ _ _ _ Hs' Hok) as (Hok' & _ & Hkeep).
  destruct (Hkeep i n Hi ltac:(tauto)) as (n1 & Hi1 & Hle). assert (n1 = n') as -> by congruence.
  destruct (encrypt_spec _ _ _ _ _ _ Hr He) as (k & Hk & Hv & Ho & Hc & Hn).
  destruct Hok as [Hg Hnodes]. destruct (Hnodes i n Hi) as [Hnode _].
  exists e. split; [apply from_to_bytes; [rewrite Hv; exact (key_fits _ _ _ _ Hg Hnode Hk)|done]|].
  rewrite (decrypt_key now (gens s') n' e aad k n'); [done| |].
  - unfold key. rewrite Hv, (lookup_weaken _ _ _ _ Hk (nl_keys _ _ Hle)). done.
  - intros Hx. apply (proj2 Hok' i n' Hi'). by apply Hc.
Qed.

(** C14: Every node reads what any node sealed under a generation of the key
    custody backend, also after restarts: once the backend answers (and did
    not fail within the last thirty seconds), the stored bytes decrypt on any
    node that has the backend configured and does not redefine the
    generation's number in its environment. *)
Theorem any_node_reads `{AeadLaws} `{KeyWrapperLaws} fips start s s' i n rnd p aad e j n' c row now k0 :
  rtc (cstep fips start) (mkCluster ∅ ∅) s -> nodes s !! i = Some n -> current n ∉ env_versions n ->
  random_ok rnd -> encrypt fips rnd n p aad = Ok e ->
  rtc (cstep fips start) s s' -> nodes s' !! j = Some n' -> current n ∉ env_versions n' ->
  gens s' !! current n = Some row -> custody n' = Some c -> g_backend row ∈ wrappers c ->
  match loading n' !! current n with Some t => LOAD_RETRY <= now - t | None => True end ->
  unwrap now (g_backend row) (g_key_ref row) (g_wrapped_key row) (wrap_context (current n)) = Ok k0 ->
  exists e', from_bytes (to_bytes e) = Ok e' /\ (decrypt now (gens s') n' e' aad).1 = Ok p.
Proof.
  intros Hs Hi Henv Hr He Hs' Hj Henv' Hrow Hcus Hw Hl Hk0.
  destruct (csteps_keep _ _ _ _ Hs (cluster_ok_empty _)) as (Hok & _ & _).
  destruct (csteps_keep _ _ _ _ Hs' Hok) as ([Hg' Hnodes'] & Hsub & _). destruct Hok as [Hg Hnodes].
  destruct (encrypt_spec _ _ _ _ _ _ Hr He) as (k & Hk & Hv & Ho & Hc & Hn).
  destruct (Hnodes i n Hi) as [Hnode _]. destruct (Hnodes' j n' Hj) as [Hnode' Hleg].
  exists e. split; [apply from_to_bytes; [rewrite Hv; exact (key_fits _ _ _ _ Hg Hnode Hk)|done]|].
  destruct (no_keys _ _ Hnode _ _ Hk) as [|(row' & Hr' & Hun & Hlen)]; [done|].
  assert (row' = row) as -> by (pose proof (lookup_weaken _ _ _ _ Hr' Hsub); congruence).
  pose proof (key_loads now (gens s') n' (current n) c row k k0 Hg' Hnode' Hrow Hun Hlen Henv' Hcus Hw Hl Hk0) as Hkey.
  rewrite <- Hv in Hkey. destruct (key now (key_version e) (gens s') n') as [r n2] eqn:Ek. cbn [fst] in Hkey. subst r.
  rewrite (decrypt_key _ _ _ _ _ _ _ Ek); [done|]. intros Hx. apply Hleg. by apply Hc.
Qed.

(** A new generation never takes a number in use: it is above every stored
    generation, every generation of the node's environment and every stored
    secret's, its key was seen to unwrap, and the node seals with it from then
    on. *)
Theorem new_generation_fresh `{AeadLaws} `{KeyWrapperLaws} fips start s i n now rnd in_use v n' gens' :
  rtc (cstep fips start) (mkCluster ∅ ∅) s -> nodes s !! i = Some n ->
  random_ok rnd -> fits_u 32 in_use -> new_generation now rnd in_use (gens s) n = (Ok v, n', gens') ->
  (forall w row, gens s !! w = Some row -> w < v) /\ (forall w, w ∈ env_versions n -> w < v) /\ in_use < v
  /\ current n' = v /\ keys n' !! v = Some (r_key rnd)
  /\ exists row, gens' !! v = Some row /\ unwraps row (r_key rnd).
Proof.
  intros Hs Hi Hr Hu He. destruct (csteps_keep _ _ _ _ Hs (cluster_ok_empty _)) as ([Hg Hn] & _).
  by apply (new_generation_spec _ _ _ _ _ _ _ _ Hr Hu Hg (proj1 (Hn i n Hi)) He).
Qed.

(** ** The interface to the rest of the server *)

(** The trait [KeyEncryptor]: what the services that store secrets use. *)
Class KeyEncryptor := {
  kstate : Type;
  ke_encrypt : Random -> kstate -> list Z -> list Z -> result ProviderError Encrypted;
  ke_decrypt : Z -> kstate -> Encrypted -> list Z -> result ProviderError (list Z) * kstate
}.

(** What it promises them: reading never loses a key, and what was sealed is
    read back from its bytes. *)
Class KeyEncryptorLaws `{KeyEncryptor} := {
  ke_ok : kstate -> Prop;
  ke_le : relation kstate;
  ke_le_refl s : ke_le s s;
  ke_le_trans s1 s2 s3 : ke_le s1 s2 -> ke_le s2 s3 -> ke_le s1 s3;
  ke_decrypt_le now s e aad :
    ke_ok s -> fits_u 32 (key_version e) ->
    ke_ok (ke_decrypt now s e aad).2 /\ ke_le s (ke_decrypt now s e aad).2;
  ke_read_back rnd s s' p aad e now :
    ke_ok s -> random_ok rnd -> ke_encrypt rnd s p aad = Ok e -> ke_le s s' -> ke_ok s' ->
    fits_u 32 (key_version e) /\ from_bytes (to_bytes e) = Ok e /\ (ke_decrypt now s' e aad).1 = Ok p
}.

Section encryptor.
Context `{AeadLaws} `{KeyWrapperLaws}.
Context (fips : bool) (g : Generations) (Hg : gens_ok g).

Definition envelope_encryptor : KeyEncryptor :=
  {| kstate := Node; ke_encrypt := encrypt fips; ke_decrypt := fun now => decrypt now g |}.

Definition node_reads (n : Node) : Prop := node_ok g n /\ (fips = false -> legacy_reads n = true).

Lemma envelope_decrypt_le now n e aad :
  node_reads n -> fits_u 32 (key_version e) ->
  node_reads (decrypt now g n e aad).2 /\ node_le n (decrypt now g n e aad).2.
Proof.
  intros [Hn Hl] Hf. destruct (decrypt_node now g n e aad) as [->| ->]; [split; [by split|apply node_le_refl]|].
  destruct (key now (key_version e) g n) as [r n'] eqn:E.
  destruct (key_spec _ _ _ _ _ _ Hf Hg Hn E) as (Hn' & Hle & _). split; [|done]. split; [done|].
  cbn. rewrite (nl_legacy _ _ Hle). done.
Qed.

Lemma envelope_read_back rnd n n' p aad e now :
  node_reads n -> random_ok rnd -> encrypt fips rnd n p aad = Ok e -> node_le n n' -> node_reads n' ->
  fits_u 32 (key_version e) /\ from_bytes (to_bytes e) = Ok e /\ (decrypt now g n' e aad).1 = Ok p.
Proof.
  intros [Hn Hl] Hr He Hle [Hn' Hl'].
  destruct (encrypt_spec _ _ _ _ _ _ Hr He) as (k & Hk & Hv & Ho & Hc & Hnon).
  assert (fits_u 32 (key_version e)) as Hf by (rewrite Hv; exact (key_fits _ _ _ _ Hg Hn Hk)).
  split; [done|]. split; [by apply from_to_bytes|]. rewrite (decrypt_key now g n' e aad k n'); [done| |].
  - unfold key. rewrite Hv. by rewrite (lookup_weaken _ _ _ _ Hk (nl_keys _ _ Hle)).
  - intros Hx. by apply Hl', Hc.
Qed.

(** The envelope encryptor keeps the promise. *)
Definition envelope_encryptor_laws : @KeyEncryptorLaws envelope_encryptor :=
  Build_KeyEncryptorLaws envelope_encryptor node_reads node_le node_le_refl node_le_trans
    envelope_decrypt_le envelope_read_back.
End encryptor.

(** ** A deployment of two nodes and a backend *)

Section example.

Definition toy_seal (k n a m : list Z) : option (list Z) := Some (k ++ n ++ a ++ m).
Definition toy_open (k n a c : list Z) : option (list Z) :=
  if bool_decide (take (length (k ++ n ++ a)) c = k ++ n ++ a) then Some (drop (length (k ++ n ++ a)) c) else None.
Definition toy_aead : Aead :=
  {| xchacha_encrypt := toy_seal; xchacha_decrypt := toy_open; gcm_seal := toy_seal; gcm_open := toy_open;
     hkdf_sha256 := fun k s i => Some (take 32 (k ++ s ++ i)) |}.

Lemma toy_open_seal k n a m c : toy_seal k n a m = Some c -> toy_open k n a c = Some m.
Proof.
  unfold toy_seal, toy_open. intros [= <-].
  replace (k ++ n ++ a ++ m) with ((k ++ n ++ a) ++ m) by (by rewrite <- !app_assoc).
  by rewrite take_app_length, drop_app_length, bool_decide_eq_true_2.
Qed.
Lemma toy_aead_laws : @AeadLaws toy_aead.
Proof. split; apply toy_open_seal. Qed.

(** A backend that is down during its first second. *)
Definition toy_kms : KeyWrapper :=
  {| wrap := fun _ _ k c => Ok (mkWrappedKey "ref" (c ++ k));
     unwrap := fun t _ _ w c =>
       if t <? 1000 then Err (Unavailable "down")
       else if bool_decide (take (length c) w = c) then Ok (drop (length c) w) else Err (Rejected "context") |}.
Lemma toy_kms_laws : @KeyWrapperLaws toy_kms.
Proof.
  split. intros t t' b r w c k k'. cbn. destruct (t <? 1000), (t' <? 1000); try done.
  destruct (bool_decide _); congruence.
Qed.
Local Existing Instances toy_aead toy_aead_laws toy_kms toy_kms_laws.

Definition ex_rnd (b : Z) : Random := mkRandom (replicate 32 b) (replicate 12 b) (replicate 24 b) (replicate 32 b).
Lemma ex_rnd_ok b : random_ok (ex_rnd b).
Proof. by split_and!; cbn; rewrite ?length_replicate. Qed.

Definition step_attach (now b : Z) (i : nat) (s : Cluster) : Cluster :=
  match nodes s !! i with
  | Some n =>
      let '(_, n', g') := attach now (ex_rnd b) 0 ["kms"] (Some "kms"%string) (gens s) n in
      mkCluster (<[i := n']> (nodes s)) g'
  | None => s
  end.
Definition start_node (i : nat) (s : Cluster) : Cluster :=
  mkCluster (<[i := from_config false None 1 [] false]> (nodes s)) (gens s).

(** Node 0 starts and makes generation 1; later node 1 starts. *)
Definition ex_s1 : Cluster := step_attach 2000 7 0 (start_node 0 (mkCluster ∅ ∅)).
Definition ex_s2 : Cluster := step_attach 3000 8 1 (start_node 1 ex_s1).
Definition ex_node (i : nat) (s : Cluster) : Node := default (node_new false None []) (nodes s !! i).

Lemma ex_config_ok : config_ok 1 [].
Proof. split; [unfold fits_u; lia|constructor]. Qed.

Lemma step_start (i : nat) may_start s :
  may_start i -> cstep false may_start s (start_node i s).
Proof. intros Hi. exact (C_start false may_start i None 1 [] false s Hi ex_config_ok). Qed.

Lemma step_attached may_start now b i s n :
  nodes s !! i = Some n -> cstep false may_start s (step_attach now b i s).
Proof.
  intros Hi. unfold step_attach. rewrite Hi.
  exact (C_attach false may_start i n now (ex_rnd b) 0 _ _ s Hi (ex_rnd_ok b) ltac:(unfold fits_u; lia)).
Qed.

Lemma ex_reach_1 may_start : may_start 0%nat -> rtc (cstep false may_start) (mkCluster ∅ ∅) ex_s1.
Proof.
  intros H0. eapply rtc_l; [by apply (step_start 0)|]. apply rtc_once. eapply step_attached. reflexivity.
Qed.
Lemma ex_reach_2 may_start : may_start 1%nat -> rtc (cstep false may_start) ex_s1 ex_s2.
Proof.
  intros H1. eapply rtc_l; [by apply (step_start 1)|]. apply rtc_once. eapply step_attached. reflexivity.
Qed.

Definition ex_secret : list Z := [1; 2; 3].
Definition ex_aad : list Z := ascii_bytes "credentials:1:2".
Definition ex_blob : Encrypted :=
  match encrypt false (ex_rnd 9) (ex_node 0 ex_s1) ex_secret ex_aad with
  | Ok e => e | Err _ => mkEncrypted XChaCha20Poly1305 0 [] []
  end.

Lemma process_reads_back_witness :
  exists e', from_bytes (to_bytes ex_blob) = Ok e'
    /\ (decrypt 5000 (gens ex_s2) (ex_node 0 ex_s2) e' ex_aad).1 = Ok ex_secret.
Proof.
  apply (process_reads_back false (fun _ => True) ex_s1 ex_s2 0 (ex_node 0 ex_s1) (ex_node 0 ex_s2) (ex_rnd 9)
           ex_secret ex_aad ex_blob 5000).
  - by apply ex_reach_1.
  - vm_compute. reflexivity.
  - apply ex_rnd_ok.
  - vm_compute. reflexivity.
  - by apply ex_reach_2.
  - vm_compute. reflexivity.
Defined.

Lemma any_node_reads_witness :
  exists e', from_bytes (to_bytes ex_blob) = Ok e'
    /\ (decrypt 5000 (gens ex_s2) (ex_node 1 ex_s2) e' ex_aad).1 = Ok ex_secret.
Proof.
  apply (any_node_reads false (fun _ => True) ex_s1 ex_s2 0 (ex_node 0 ex_s1) (ex_rnd 9) ex_secret ex_aad ex_blob
           1 (ex_node 1 ex_s2) (mkCustody ["kms"] (Some "kms"%string))
           (mkGenerationRow 1 "kms" "ref" (wrap_context 1 ++ replicate 32 7)) 5000 (replicate 32 7)).
  - by apply ex_reach_1.
  - vm_compute. reflexivity.
  - decide_now.
  - apply ex_rnd_ok.
  - vm_compute. reflexivity.
  - by apply ex_reach_2.
  - vm_compute. reflexivity.
  - decide_now.
  - vm_compute. reflexivity.
  - vm_compute. reflexivity.
  - decide_now.
  - vm_compute. exact I.
  - vm_compute. reflexivity.
Defined.

Lemma new_generation_fresh_witness :
  current (new_generation 4000 (ex_rnd 5) 6 (gens ex_s2) (ex_node 1 ex_s2)).1.2 = 7.
Proof.
  destruct (new_generation 4000 (ex_rnd 5) 6 (gens ex_s2) (ex_node 1 ex_s2)) as [[r n'] g'] eqn:E.
  assert (r = Ok 7) as -> by (apply (f_equal (fun x => x.1.1)) in E; vm_compute in E; done).
  apply (new_generation_fresh false (fun _ => True) ex_s2 1 (ex_node 1 ex_s2) 4000 (ex_rnd 5) 6 7 n' g').
  - etransitivity; [by apply ex_reach_1|by apply ex_reach_2].
  - vm_compute. reflexivity.
  - apply ex_rnd_ok.
  - unfold fits_u. lia.
  - exact E.
Defined.
End example.
