(* ===== verification/MasterKey.v ===== *)
(** * Master-key rotation

    Models [api/src/services/master_key.rs] (re-encrypting every stored secret
    under the current generation). A database is the list of its
    secret rows, whichever table each is in. The re-encryptions of a batch,
    which run eight at a time, are taken in order; a batch is read in one
    transaction and written in another, so other writes come between. *)

From stdpp Require Import gmap strings sorting.
From Stdlib Require Import OrdersEx.
From S2P Require Import Prelude Valkey KeyCustody.

Record EncryptedTable := mkEncryptedTable {
  table : string;
  column : string;
  aad_prefix : string;
  id_column : string;
  id_type : string
}.

Definition TABLES : list EncryptedTable :=
  [mkEncryptedTable "signing_keys" "private_key_enc" "signing_keys" "id" "uuid";
   mkEncryptedTable "credentials" "data_enc" "credentials" "id" "uuid";
   mkEncryptedTable "tenant_provider_settings" "config_enc" "provider_settings" "kind" "text";
   mkEncryptedTable "identity_providers" "client_secret_enc" "identity_providers" "id" "uuid";
   mkEncryptedTable "webhooks" "secret_enc" "webhooks" "id" "uuid";
   mkEncryptedTable "saml_signing_keys" "private_key_enc" "saml_signing_keys" "id" "uuid"].

Definition BATCH : Z := 200.

(** A row of one of the tables: its tenant, its id as text, the blob and the
    [key_version] column. *)
Record SecretRow := mkSecretRow {
  s_table : string;
  s_tenant : Uuid;
  s_id : string;
  s_blob : list Z;
  s_version : Z
}.

Definition set_blob (blob : list Z) (version : Z) (r : SecretRow) : SecretRow :=
  mkSecretRow (s_table r) (s_tenant r) (s_id r) blob version.

Inductive AppError := Internal (e : ProviderError) | InternalCustody.

(** The order of the ids in their column. *)
Class IdOrder := {
  id_lt : string -> string -> Prop;
  id_lt_dec : RelDecision id_lt;
  id_lt_trans : Transitive id_lt;
  id_lt_irrefl x : ~ id_lt x x;
  id_lt_total x y : id_lt x y \/ x = y \/ id_lt y x
}.
#[export] Existing Instance id_lt_dec.

Section master_key.
Context `{Aead} `{KeyWrapper} `{UuidDisplay} `{IdOrder}.
Context (fips : bool).

Definition aad (t : EncryptedTable) (tenant : Uuid) (id : string) : list Z :=
  ascii_bytes (aad_prefix t ++ ":" ++ uuid_str tenant ++ ":" ++ id).

(** [credential_secrets::aad]. *)
Definition credential_aad (tenant : Uuid) (id : Uuid) : list Z :=
  ascii_bytes ("credentials:" ++ uuid_str tenant ++ ":" ++ uuid_str id).

Definition highest_version_in_use (dbs : list (list SecretRow)) : Z :=
  as_u32 (Z.max 0 (foldl Z.max 0 (s_version <$> concat dbs))).

Definition decrypt_row (now : Z) (g : Generations) (n : Node) (t : EncryptedTable) (r : SecretRow)
    : result AppError (list Z) * Node :=
  match from_bytes (s_blob r) with
  | Err e => (Err (Internal e), n)
  | Ok enc =>
      let '(p, n) := decrypt now g n enc (aad t (s_tenant r) (s_id r)) in
      (map_err Internal p, n)
  end.

Definition reencrypt (now : Z) (g : Generations) (rnd : SecretRow -> Random) (n : Node) (t : EncryptedTable)
    (r : SecretRow) : result AppError (list Z) * Node :=
  match decrypt_row now g n t r with
  | (Err e, n) => (Err e, n)
  | (Ok plaintext, n) =>
      (let? fresh := map_err Internal (encrypt fips (rnd r) n plaintext (aad t (s_tenant r) (s_id r))) in
       Ok (to_bytes fresh), n)
  end.

(** [legacy_filter]. *)
Definition legacy_filter (legacy_only : bool) (r : SecretRow) : bool :=
  match legacy_only, STALE_CIPHER fips with
  | true, Some stale => bool_decide (head (s_blob r) = Some (cipher_byte stale))
  | _, _ => true
  end.

(** The order a batch is read in. *)
Definition row_lt (a b : Uuid * string) : Prop := a.1 < b.1 \/ (a.1 = b.1 /\ id_lt a.2 b.2).
#[export] Instance row_lt_dec : RelDecision row_lt.
Proof. intros a b. unfold row_lt. apply _. Defined.
Definition key_of (r : SecretRow) : Uuid * string := (s_tenant r, s_id r).
Definition row_le (a b : SecretRow) : Prop := ~ row_lt (key_of b) (key_of a).
#[export] Instance row_le_dec : RelDecision row_le.
Proof. intros a b. unfold row_le. apply _. Defined.

(** The rows of [t] the pass over [version] takes. *)
Definition selected (t : EncryptedTable) (version : Z) (legacy_only : bool) (r : SecretRow) : Prop :=
  s_table r = table t /\ s_version r = version /\ legacy_filter legacy_only r = true.
#[export] Instance selected_dec t version legacy_only r : Decision (selected t version legacy_only r).
Proof. unfold selected. apply _. Defined.

Definition past (after : option (Uuid * string)) (r : SecretRow) : Prop :=
  match after with Some k => row_lt k (key_of r) | None => True end.
#[export] Instance past_dec after r : Decision (past after r).
Proof. unfold past. destruct after; apply _. Defined.

Definition read_batch (t : EncryptedTable) (version : Z) (legacy_only : bool) (after : option (Uuid * string))
    (db : list SecretRow) : list SecretRow :=
  take (Z.to_nat BATCH)
    (merge_sort row_le (filter (fun r => selected t version legacy_only r /\ past after r) db)).

(** The batch's outcomes: the blobs to write and how many rows failed. *)
Fixpoint reencrypt_batch (now : Z) (g : Generations) (rnd : SecretRow -> Random) (n : Node) (t : EncryptedTable)
    (batch : list SecretRow) : list ((Uuid * string) * list Z) * Z * Node :=
  match batch with
  | [] => ([], 0, n)
  | r :: batch =>
      let '(o, n) := reencrypt now g rnd n t r in
      let '(outs, failed, n) := reencrypt_batch now g rnd n t batch in
      match o with
      | Ok blob => ((key_of r, blob) :: outs, failed, n)
      | Err _ => (outs, failed + 1, n)
      end
  end.

(** The [UPDATE]: only rows still on the generation they were read under. *)
Definition update_row (t : EncryptedTable) (target version : Z) (legacy_only : bool)
    (outs : list ((Uuid * string) * list Z)) (r : SecretRow) : SecretRow :=
  match snd <$> List.find (fun o => bool_decide (o.1 = key_of r)) outs with
  | Some blob => if bool_decide (selected t version legacy_only r) then set_blob blob (as_i32 target) r else r
  | None => r
  end.

Definition updated (t : EncryptedTable) (version : Z) (legacy_only : bool)
    (outs : list ((Uuid * string) * list Z)) (r : SecretRow) : Prop :=
  selected t version legacy_only r /\ is_Some (List.find (fun o => bool_decide (o.1 = key_of r)) outs).
#[export] Instance updated_dec t version legacy_only outs r : Decision (updated t version legacy_only outs r).
Proof. unfold updated. apply _. Defined.

(** The loop of [rotate_rows], with fuel: the counts, the node and the rows
    afterwards. *)
Fixpoint rotate_loop (fuel : nat) (now : Z) (g : Generations) (rnd : SecretRow -> Random) (t : EncryptedTable)
    (target version : Z) (legacy_only : bool) (after : option (Uuid * string)) (ok failed : Z) (n : Node)
    (db : list SecretRow) : Z * Z * Node * list SecretRow :=
  match fuel with
  | O => (ok, failed, n, db)
  | S fuel =>
      let rows := read_batch t version legacy_only after db in
      match last rows with
      | None => (ok, failed, n, db)
      | Some l =>
          let '(outs, f, n) := reencrypt_batch now g rnd n t rows in
          let ok := ok + zlen (filter (updated t version legacy_only outs) db) in
          let db := update_row t target version legacy_only outs <$> db in
          if zlen rows =? BATCH
          then rotate_loop fuel now g rnd t target version legacy_only (Some (key_of l)) ok (failed + f) n db
          else (ok, failed + f, n, db)
      end
  end.
Definition rotate_rows (now : Z) (g : Generations) (rnd : SecretRow -> Random) (t : EncryptedTable)
    (target version : Z) (legacy_only : bool) (n : Node) (db : list SecretRow) : Z * Z * Node * list SecretRow :=
  rotate_loop (S (length db)) now g rnd t target version legacy_only None 0 0 n db.

(** The generations of [t] besides the target, lowest first. *)
Definition versions_in_use (t : EncryptedTable) (target : Z) (db : list SecretRow) : list Z :=
  filter (fun v => v <> as_i32 target)
    (merge_sort Z.le
       (elements (list_to_set (s_version <$> filter (fun r => s_table r = table t) db) : gset Z))).

(** One pass after the other over one database. *)
Definition add_pass (now : Z) (g : Generations) (rnd : SecretRow -> Random) (t : EncryptedTable) (target : Z)
    (acc : Z * Z * Node * list SecretRow) (pass : Z * bool) : Z * Z * Node * list SecretRow :=
  let '(ok, failed, n, db) := acc in
  let '(o, f, n, db) := rotate_rows now g rnd t target pass.1 pass.2 n db in
  (ok + o, failed + f, n, db).

Definition rotate_table (now : Z) (g : Generations) (rnd : SecretRow -> Random) (t : EncryptedTable) (target : Z)
    (n : Node) (db : list SecretRow) : Z * Z * Node * list SecretRow :=
  let passes :=
    ((fun v => (v, false)) <$> versions_in_use t target db)
    ++ match STALE_CIPHER fips with Some _ => [(as_i32 target, true)] | None => [] end in
  foldl (add_pass now g rnd t target) (0, 0, n, db) passes.

Record RotationReport := mkRotationReport {
  target_version : Z;
  rewritten : gmap string Z;
  failed_rows : gmap string Z
}.

(** The tables of one database. *)
Definition add_table (now : Z) (g : Generations) (rnd : SecretRow -> Random) (target : Z)
    (acc : RotationReport * Node * list SecretRow) (t : EncryptedTable) : RotationReport * Node * list SecretRow :=
  let '(rep, n, db) := acc in
  let '(ok, failed, n, db) := rotate_table now g rnd t target n db in
  (mkRotationReport (target_version rep)
     (<[table t := default 0 (rewritten rep !! table t) + ok]> (rewritten rep))
     (<[table t := default 0 (failed_rows rep !! table t) + failed]> (failed_rows rep)), n, db).

Fixpoint rotate_databases (now : Z) (g : Generations) (rnd : SecretRow -> Random) (target : Z)
    (rep : RotationReport) (n : Node) (dbs : list (list SecretRow))
    : RotationReport * Node * list (list SecretRow) :=
  match dbs with
  | [] => (rep, n, [])
  | db :: dbs =>
      let '(rep, n, db) := foldl (add_table now g rnd target) (rep, n, db) TABLES in
      let '(rep, n, dbs) := rotate_databases now g rnd target rep n dbs in
      (rep, n, db :: dbs)
  end.

(** [rotate_all]: the report, the node, the databases and whether the rotation
    is announced. *)
Definition rotate_all (now : Z) (g : Generations) (rnd : SecretRow -> Random) (n : Node)
    (dbs : list (list SecretRow)) : RotationReport * Node * list (list SecretRow) * bool :=
  let n := refresh now g n in
  let target := current n in
  let '(rep, n, dbs) := rotate_databases now g rnd target (mkRotationReport target ∅ ∅) n dbs in
  let total := foldl Z.add 0 (map_to_list (rewritten rep)).*2 in
  (rep, n, dbs, 0 <? total).
End master_key.

(** What a credential is sealed with is what rotation opens it with. *)
Lemma credential_aad_table `{UuidDisplay} t tenant id :
  t ∈ TABLES -> table t = "credentials"%string -> aad t tenant (uuid_str id) = credential_aad tenant id.
Proof.
  unfold TABLES. intros Ht E. repeat setoid_rewrite elem_of_cons in Ht.
  destruct_or?; subst; try discriminate E; [done|by apply not_elem_of_nil in Ht].
Qed.

(** ** Rotation keeps every secret *)

Section rotation.
Context `{AeadLaws} `{KeyWrapperLaws} `{UuidDisplay} `{IdOrder}.
Context (fips : bool).

(** The keys [K] open the blob of row [id] to [p]. *)
Definition opens (K : gmap Z (list Z)) (t : EncryptedTable) (tenant : Uuid) (id : string) (blob p : list Z) : Prop :=
  exists e k, from_bytes blob = Ok e /\ K !! key_version e = Some k /\ open k e (aad t tenant id) = Ok p.

(** The same row, and whatever [K] read in it, it still reads. *)
Definition same_secret (K : gmap Z (list Z)) (r r' : SecretRow) : Prop :=
  s_table r' = s_table r /\ key_of r' = key_of r
  /\ forall t p, t ∈ TABLES -> table t = s_table r ->
       opens K t (s_tenant r) (s_id r) (s_blob r) p -> opens K t (s_tenant r) (s_id r) (s_blob r') p.

Lemma same_secret_refl K r : same_secret K r r.
Proof. by split_and!. Qed.
Lemma same_secret_trans K a b c : same_secret K a b -> same_secret K b c -> same_secret K a c.
Proof.
  intros (T1 & K1 & S1) (T2 & K2 & S2). split_and!; [congruence|congruence|]. intros t p Ht Et Ho.
  injection K1 as Ea Eb. rewrite <- Ea, <- Eb. apply S2; [done|congruence|]. rewrite Ea, Eb. by apply S1.
Qed.

Definition row_id (r : SecretRow) : string * (Uuid * string) := (s_table r, key_of r).

Lemma same_secret_ids K db db' : Forall2 (same_secret K) db db' -> row_id <$> db' = row_id <$> db.
Proof. induction 1 as [|r r' db db' (Et & Ek & _) _ IH]; [done|]. rewrite !fmap_cons, IH. f_equal. unfold row_id. by rewrite Et, Ek. Qed.

Context (now : Z) (g : Generations) (rnd : SecretRow -> Random).
Context (Hg : gens_ok g) (Hrnd : forall r, random_ok (rnd r)).

(** A blob that reads gives bytes for its version. *)
Lemma from_bytes_version b e : bytes_ok b -> from_bytes b = Ok e -> fits_u 32 (key_version e).
Proof.
  intros Hb. destruct b as [|b0 [|b1 [|b2 [|b3 [|b4 [|b5 rest]]]]]]; try done. unfold from_bytes.
  destruct (from_byte b0); [|done]. cbn [ok_or]. destruct (_ <? _); [done|]. intros [= <-]. cbn [key_version].
  unfold fits_u. change (2 ^ 32) with (256 ^ zlen [b1; b2; b3; b4]). apply be_val_bound.
  unfold bytes_ok in *. decompose_Forall_hyps. repeat (constructor; [done|]). constructor.
Qed.

(** A blob that names a version names a [u32]; so do bytes. *)
Definition blob_ok (b : list Z) : Prop := forall e, from_bytes b = Ok e -> fits_u 32 (key_version e).

Lemma decrypt_row_spec n t r p n' :
  node_ok g n -> blob_ok (s_blob r) -> decrypt_row now g n t r = (p, n') ->
  node_ok g n' /\ node_le n n'
  /\ forall q, p = Ok q -> opens (keys n') t (s_tenant r) (s_id r) (s_blob r) q.
Proof.
  intros Hn Hb. unfold decrypt_row. destruct (from_bytes (s_blob r)) as [e|] eqn:Ee; [|by intros [= <- <-]].
  pose proof (Hb _ Ee) as Hf. unfold decrypt.
  destruct (key now (key_version e) g n) as [rk nk] eqn:Ek.
  destruct (key_spec _ _ _ _ _ _ Hf Hg Hn Ek) as (Hnk & Hlk & _ & Hkk).
  assert (forall k q, rk = Ok k -> open k e (aad t (s_tenant r) (s_id r)) = Ok q ->
    opens (keys nk) t (s_tenant r) (s_id r) (s_blob r) q) as Hopen.
  { intros k q Hk Ho. exists e, k. split_and!; [done|by apply Hkk|done]. }
  unfold open in Hopen. destruct (cipher e); [destruct (negb _); [by intros [= <- <-]|]|].
  all: destruct rk as [k|]; intros [= <- <-]; split_and!; try done; intros q Hq; apply (Hopen k); try done;
    match goal with |- ?x = Ok _ => by destruct x; cbn in Hq; inv_result end.
Qed.

(** What [K] read in the blob re-encrypted, it reads in the new one. *)
Lemma reencrypt_spec n t r o n' :
  node_ok g n -> blob_ok (s_blob r) -> reencrypt fips now g rnd n t r = (o, n') ->
  node_ok g n' /\ node_le n n'
  /\ (forall blob K p, o = Ok blob -> keys n' ⊆ K ->
       opens K t (s_tenant r) (s_id r) (s_blob r) p -> opens K t (s_tenant r) (s_id r) blob p)
  /\ forall blob, o = Ok blob -> blob_ok blob.
Proof.
  intros Hn Hb. unfold reencrypt. destruct (decrypt_row now g n t r) as [p n1] eqn:Ed.
  destruct (decrypt_row_spec _ _ _ _ _ Hn Hb Ed) as (Hn1 & Hle & Hq).
  destruct p as [q|]; [|by intros [= <- <-]]. intros [= <- <-].
  destruct (encrypt _ _ _ _ _) as [fresh|] eqn:Ee; cbn [map_err]; [|by split_and!].
  destruct (encrypt_spec fips _ _ _ _ _ (Hrnd r) Ee) as (k1 & Hk1 & Hv1 & Ho1 & _ & Hl1).
  assert (fits_u 32 (key_version fresh)) as Hfit by (rewrite Hv1; by eapply key_fits).
  pose proof (from_to_bytes fresh Hfit Hl1) as Hft.
  split_and!; [done|done| |intros blob [= <-] e; rewrite Hft; by intros [= <-]].
  intros blob K p [= <-] HK (e & k & Hfe & Hke & Hop).
  destruct (Hq q eq_refl) as (e0 & k0 & Hfe0 & Hk0 & Hop0). assert (e0 = e) as -> by congruence.
  pose proof (lookup_weaken _ _ _ _ Hk0 HK) as Hk0'. assert (k0 = k) as -> by congruence.
  assert (q = p) as -> by congruence.
  exists fresh, k1. split_and!; [done| |done].
  rewrite Hv1. by eapply lookup_weaken.
Qed.

(** Each outcome of a batch is a good blob for one of its rows. *)
Definition good_outs (K : gmap Z (list Z)) (t : EncryptedTable) (batch : list SecretRow)
    (outs : list ((Uuid * string) * list Z)) : Prop :=
  forall o, o ∈ outs -> blob_ok o.2 /\ exists r, r ∈ batch /\ o.1 = key_of r
    /\ forall p, opens K t (s_tenant r) (s_id r) (s_blob r) p -> opens K t (s_tenant r) (s_id r) o.2 p.

Lemma reencrypt_batch_spec n t batch outs f n' :
  node_ok g n -> Forall (fun r => blob_ok (s_blob r)) batch ->
  reencrypt_batch fips now g rnd n t batch = (outs, f, n') ->
  node_ok g n' /\ node_le n n' /\ forall K, keys n' ⊆ K -> good_outs K t batch outs.
Proof.
  intros Hn Hb. revert n outs f n' Hn. induction Hb as [|r batch Hr _ IH]; intros n outs f n' Hn; cbn [reencrypt_batch].
  { intros [= <- <- <-]. split_and!; [done|done|]. intros K _ o Ho. by apply not_elem_of_nil in Ho. }
  destruct (reencrypt fips now g rnd n t r) as [o n1] eqn:Eo.
  destruct (reencrypt_spec _ _ _ _ _ Hn Hr Eo) as (Hn1 & Hle1 & Ho & Hbo).
  destruct (reencrypt_batch _ _ _ _ n1 t batch) as [[outs1 f1] n2] eqn:Eb.
  destruct (IH _ _ _ _ Hn1 Eb) as (Hn2 & Hle2 & Hg2). pose proof (node_le_trans _ _ _ Hle1 Hle2) as Hle.
  assert (forall K, keys n2 ⊆ K -> good_outs K t (r :: batch) outs1) as Hg2'.
  { intros K HK o1 (? & r1 & Hr1 & ?)%(Hg2 K HK). split; [done|]. exists r1. split; [by apply list_elem_of_further|done]. }
  destruct o as [blob|]; intros [= <- <- <-]; (split_and!; [done|done|]); intros K HK; [|by apply Hg2'].
  intros o1 [->|Ho1]%elem_of_cons; [|by apply Hg2']. split; [by apply Hbo|]. exists r. split; [apply list_elem_of_here|]. split; [done|].
  intros p. apply (Ho blob K p eq_refl). etransitivity; [apply (nl_keys _ _ Hle2)|done].
Qed.

Lemma read_batch_elem t version legacy after db r :
  r ∈ read_batch fips t version legacy after db -> r ∈ db /\ selected fips t version legacy r.
Proof.
  unfold read_batch. intros (i & Hi & _)%elem_of_take. apply list_elem_of_lookup_2 in Hi.
  rewrite merge_sort_Permutation in Hi. apply list_elem_of_filter in Hi as [[? _] ?]. done.
Qed.

Lemma table_inj t t' : t ∈ TABLES -> t' ∈ TABLES -> table t = table t' -> t = t'.
Proof.
  unfold TABLES. intros Ht Ht'. repeat setoid_rewrite elem_of_cons in Ht. repeat setoid_rewrite elem_of_cons in Ht'.
  destruct_or?; subst; cbn; intros E; try done; by apply not_elem_of_nil in Ht || by apply not_elem_of_nil in Ht'.
Qed.

(** Writing a batch changes no secret. *)
Lemma update_same K t target version legacy after db outs :
  t ∈ TABLES -> NoDup (row_id <$> db) ->
  good_outs K t (read_batch fips t version legacy after db) outs ->
  Forall2 (same_secret K) db (update_row fips t target version legacy outs <$> db).
Proof.
  intros Ht Hn Hout. apply Forall2_fmap_r, Forall_Forall2_diag, Forall_forall. intros r Hr.
  change (same_secret K r (update_row fips t target version legacy outs r)). unfold update_row.
  destruct (List.find (fun o => bool_decide (o.1 = key_of r)) outs) as [o|] eqn:Ef;
    cbn [fmap option_fmap option_map]; [|apply same_secret_refl].
  destruct (bool_decide (selected _ _ _ _ r)) eqn:Es; [|apply same_secret_refl]. bool_hyps.
  apply find_some in Ef as [Ho Ek]. bool_hyps. apply list_elem_of_In in Ho.
  destruct (Hout o Ho) as (_ & r0 & Hr0 & Ek0 & Hop). apply read_batch_elem in Hr0 as [Hr0 [Et0 _]].
  assert (r0 = r) as ->.
  { apply (nodup_key_inj row_id db); [done..|]. unfold row_id. destruct Es as [Et _]. congruence. }
  split_and!; [done|done|]. intros t' p Ht' Et'. destruct Es as [Et _].
  assert (t' = t) as -> by (apply table_inj; congruence). apply Hop.
Qed.

Lemma update_blobs_ok K t batch target version legacy outs (db : list SecretRow) :
  good_outs K t batch outs -> Forall (fun r => blob_ok (s_blob r)) db ->
  Forall (fun r => blob_ok (s_blob r)) (update_row fips t target version legacy outs <$> db).
Proof.
  intros Hout Hb. apply Forall_fmap. eapply Forall_impl; [exact Hb|]. intros r Hr. cbn. unfold update_row.
  destruct (List.find (fun o => bool_decide (o.1 = key_of r)) outs) as [o|] eqn:Ef; cbn; [|done].
  destruct (bool_decide _); [|done]. apply find_some in Ef as [Ho _]. apply list_elem_of_In in Ho.
  by destruct (Hout o Ho) as [? _].
Qed.

(** What a pass over a database leaves true. *)
Record rotated (n n' : Node) (db db' : list SecretRow) : Prop := {
  ro_node : node_ok g n';
  ro_le : node_le n n';
  ro_blobs : Forall (fun r => blob_ok (s_blob r)) db';
  ro_same K : keys n' ⊆ K -> Forall2 (same_secret K) db db'
}.

Lemma rotated_refl n db : node_ok g n -> Forall (fun r => blob_ok (s_blob r)) db -> rotated n n db db.
Proof.
  intros Hn Hb. split; [done|apply node_le_refl|done|]. intros K _. apply Forall_Forall2_diag, Forall_forall.
  intros r _. apply same_secret_refl.
Qed.

Lemma rotated_trans n n1 n2 db db1 db2 : rotated n n1 db db1 -> rotated n1 n2 db1 db2 -> rotated n n2 db db2.
Proof.
  intros [A1 A2 A3 A4] [B1 B2 B3 B4]. split; [done|by eapply node_le_trans|done|]. intros K HK.
  eapply Forall2_trans; [|apply (A4 K)|apply (B4 K HK)].
  - intros. by eapply same_secret_trans.
  - etransitivity; [apply (nl_keys _ _ B2)|done].
Qed.

Lemma rotated_ids n n' db db' : rotated n n' db db' -> row_id <$> db' = row_id <$> db.
Proof. intros Hr. by apply (same_secret_ids (keys n')), Hr. Qed.

Lemma rotate_loop_spec fuel t target version legacy after ok failed n db ok' failed' n' db' :
  t ∈ TABLES -> NoDup (row_id <$> db) -> node_ok g n -> Forall (fun r => blob_ok (s_blob r)) db ->
  rotate_loop fips fuel now g rnd t target version legacy after ok failed n db = (ok', failed', n', db') ->
  rotated n n' db db'.
Proof.
  intros Ht. revert after ok failed n db. induction fuel as [|fuel IH]; intros after ok failed n db Hd Hn Hb; cbn [rotate_loop].
  { intros [= <- <- <- <-]. by apply rotated_refl. }
  destruct (last _); [|intros [= <- <- <- <-]; by apply rotated_refl].
  destruct (reencrypt_batch _ _ _ _ _ _ _) as [[outs f] n1] eqn:Eb.
  apply reencrypt_batch_spec in Eb as (Hn1 & Hle1 & Hout); [|done|].
  2: { apply Forall_forall. intros r [Hr _]%read_batch_elem. by eapply Forall_forall in Hb. }
  assert (rotated n n1 db (update_row fips t target version legacy outs <$> db)) as Hrot.
  { split; [done|done| |].
    - eapply update_blobs_ok; [by apply (Hout (keys n1))|done].
    - intros K HK. eapply update_same; [done|done|by apply Hout]. }
  destruct (_ =? BATCH); [|by intros [= <- <- <- <-]].
  intros Hr. eapply rotated_trans; [exact Hrot|]. eapply IH; [|done|by apply Hrot|exact Hr].
  by rewrite (rotated_ids _ _ _ _ Hrot).
Qed.

(** A database a pass can start from. *)
Definition ready (n : Node) (db : list SecretRow) : Prop :=
  NoDup (row_id <$> db) /\ node_ok g n /\ Forall (fun r => blob_ok (s_blob r)) db.

Lemma rotated_ready n n' db db' : ready n db -> rotated n n' db db' -> ready n' db'.
Proof. intros (Hd & _) Hr. split_and!; [by rewrite (rotated_ids _ _ _ _ Hr)|apply Hr|apply Hr]. Qed.

Lemma rotate_table_spec t target n db ok failed n' db' :
  t ∈ TABLES -> ready n db -> rotate_table fips now g rnd t target n db = (ok, failed, n', db') ->
  rotated n n' db db'.
Proof.
  intros Ht. unfold rotate_table. generalize (((fun v => (v, false)) <$> versions_in_use t target db)
    ++ match STALE_CIPHER fips with Some _ => [(as_i32 target, true)] | None => [] end).
  generalize 0 at 1 as o. generalize 0 as f. intros f o passes. revert f o n db.
  induction passes as [|[v l] passes IH]; intros f o n db Hready; cbn [foldl].
  { intros [= <- <- <- <-]. by apply rotated_refl; apply Hready. }
  unfold add_pass at 2. cbn [fst snd]. destruct (rotate_rows _ _ _ _ _ _ _ _ _ _) as [[[o1 f1] n1] db1] eqn:E1.
  destruct Hready as (Hd & Hn & Hb).
  pose proof (rotate_loop_spec _ _ _ _ _ _ _ _ _ _ _ _ _ _ Ht Hd Hn Hb E1) as Hrot.
  intros Hf. eapply rotated_trans; [exact Hrot|]. eapply IH; [|exact Hf]. by eapply rotated_ready.
Qed.

Lemma rotate_tables_spec target rep n db rep' n' db' ts :
  ts ⊆ TABLES -> ready n db ->
  foldl (add_table fips now g rnd target) (rep, n, db) ts = (rep', n', db') -> rotated n n' db db'.
Proof.
  revert rep n db. induction ts as [|t ts IH]; intros rep n db Hts Hready; cbn [foldl].
  { intros [= <- <- <-]. by apply rotated_refl; apply Hready. }
  unfold add_table at 2. destruct (rotate_table _ _ _ _ _ _ _ _) as [[[o f] n1] db1] eqn:E1.
  pose proof (rotate_table_spec t _ _ _ _ _ _ _ ltac:(set_solver) Hready E1) as Hrot.
  intros Hf. eapply rotated_trans; [exact Hrot|]. eapply IH; [set_solver| |exact Hf]. by eapply rotated_ready.
Qed.

Lemma rotate_databases_spec target rep n dbs rep' n' dbs' :
  node_ok g n -> Forall (fun db => NoDup (row_id <$> db) /\ Forall (fun r => blob_ok (s_blob r)) db) dbs ->
  rotate_databases fips now g rnd target rep n dbs = (rep', n', dbs') ->
  node_ok g n' /\ node_le n n'
  /\ forall K, keys n' ⊆ K -> Forall2 (Forall2 (same_secret K)) dbs dbs'.
Proof.
  intros Hn Hdbs. revert rep n rep' n' dbs' Hn.
  induction Hdbs as [|db dbs [Hd Hb] _ IH]; intros rep n rep' n' dbs' Hn; cbn [rotate_databases].
  { intros [= <- <- <-]. split_and!; [done|apply node_le_refl|constructor]. }
  destruct (foldl _ _ _) as [[rep1 n1] db1] eqn:E1.
  pose proof (rotate_tables_spec _ _ _ _ _ _ _ TABLES ltac:(done) (conj Hd (conj Hn Hb)) E1) as Hrot.
  destruct (rotate_databases _ _ _ _ _ _ n1 dbs) as [[rep2 n2] dbs2] eqn:E2.
  destruct (IH _ _ _ _ _ (ro_node _ _ _ _ Hrot) E2) as (Hn2 & Hle2 & Hs2).
  intros [= <- <- <-]. split_and!; [done|eapply node_le_trans; [apply Hrot|done]|].
  intros K HK. constructor; [|by apply Hs2]. apply Hrot. etransitivity; [apply (nl_keys _ _ Hle2)|done].
Qed.
End rotation.

(** C30: Rotation loses no secret: in every database, every row stays the row it
    was, and what the node's keys read in it before the pass they read in it
    afterwards. (With no other writer between a batch being read and written.) *)
Theorem rotation_preserves `{AeadLaws} `{KeyWrapperLaws} `{UuidDisplay} `{IdOrder} fips now g rnd n dbs rep n' dbs' told :
  gens_ok g -> node_ok g n -> (forall r, random_ok (rnd r)) ->
  Forall (fun db => NoDup (row_id <$> db) /\ Forall (fun r => blob_ok (s_blob r)) db) dbs ->
  rotate_all fips now g rnd n dbs = (rep, n', dbs', told) ->
  node_ok g n' /\ keys n ⊆ keys n' /\ Forall2 (Forall2 (same_secret (keys n'))) dbs dbs'.
Proof.
  intros Hg Hn Hrnd Hdbs. unfold rotate_all.
  destruct (refresh_spec now g n Hg Hn) as (_ & _ & Hn0 & Hle0 & _).
  destruct (rotate_databases _ _ _ _ _ _ _ _) as [[rep1 n1] dbs1] eqn:E. intros [= <- <- <- <-].
  destruct (rotate_databases_spec fips now g rnd Hg Hrnd _ _ _ _ _ _ _ Hn0 Hdbs E) as (Hn1 & Hle1 & Hs).
  split_and!; [done| |by apply Hs]. etransitivity; [apply (nl_keys _ _ Hle0)|apply (nl_keys _ _ Hle1)].
Qed.

(** ** Rotation reaches every row *)

Section order.
Context `{IdOrder}.

Lemma row_lt_trans a b c : row_lt a b -> row_lt b c -> row_lt a c.
Proof.
  unfold row_lt. intros [H1|[E1 H1]] [H2|[E2 H2]]; [left; lia..|]. right. split; [lia|by eapply id_lt_trans].
Qed.
Lemma row_lt_irrefl a : ~ row_lt a a.
Proof. intros [?|[_ Ha]]; [lia|by apply id_lt_irrefl in Ha]. Qed.
Lemma row_lt_total a b : row_lt a b \/ a = b \/ row_lt b a.
Proof.
  unfold row_lt. destruct (Z.lt_trichotomy a.1 b.1) as [?|[E|?]]; [by left; left| |by right; right; left].
  destruct (id_lt_total a.2 b.2) as [?|[E2|?]]; [by left; right| |by right; right; right].
  right. left. destruct a, b. cbn in *. by subst.
Qed.
Lemma row_le_total : Total row_le.
Proof.
  intros a b. unfold row_le. destruct (row_lt_total (key_of b) (key_of a)) as [Hlt|[E|Hlt]].
  - right. intros H'. exact (row_lt_irrefl _ (row_lt_trans _ _ _ Hlt H')).
  - left. rewrite E. apply row_lt_irrefl.
  - left. intros H'. exact (row_lt_irrefl _ (row_lt_trans _ _ _ Hlt H')).
Qed.
Lemma row_le_trans : Transitive row_le.
Proof.
  intros a b c. unfold row_le. intros Hab Hbc Hca.
  destruct (row_lt_total (key_of b) (key_of c)) as [Hlt|[E|Hlt]]; [|by rewrite E in Hab|done].
  apply Hab. by eapply row_lt_trans.
Qed.

(** In a sorted list of rows with distinct keys, what follows a prefix lies
    past its last row. *)
Lemma sorted_past (l : list SecretRow) i x r :
  StronglySorted row_le l -> NoDup (key_of <$> l) -> last (take i l) = Some x -> r ∈ drop i l ->
  row_lt (key_of x) (key_of r).
Proof.
  intros Hs Hn Hx Hr. rewrite <- (take_drop i l) in Hs, Hn. apply StronglySorted_app in Hs as (Hle & _).
  apply last_Some_elem_of in Hx. specialize (Hle x r Hx Hr).
  destruct (row_lt_total (key_of x) (key_of r)) as [?|[E|?]]; [done| |done].
  rewrite fmap_app in Hn. apply NoDup_app in Hn as (_ & Hd & _).
  destruct (Hd (key_of x)); [by apply list_elem_of_fmap_2|]. rewrite E. by apply list_elem_of_fmap_2.
Qed.
End order.

Section complete.
Context `{Aead} `{KeyWrapper} `{UuidDisplay} `{IdOrder}.
Context (fips : bool) (now : Z) (g : Generations) (rnd : SecretRow -> Random).
Context (t : EncryptedTable) (target version : Z) (Hne : version <> as_i32 target).

Lemma reencrypt_batch_failed n batch outs f n' :
  reencrypt_batch fips now g rnd n t batch = (outs, f, n') ->
  0 <= f
  /\ (f = 0 -> forall r, r ∈ batch -> is_Some (List.find (fun o => bool_decide (o.1 = key_of r)) outs)).
Proof.
  revert n outs f n'. induction batch as [|r batch IH]; intros n outs f n'; cbn [reencrypt_batch].
  { intros [= <- <- <-]. split; [done|by intros _ r Hr%not_elem_of_nil]. }
  destruct (reencrypt fips now g rnd n t r) as [o n1] eqn:Eo.
  destruct (reencrypt_batch _ _ _ _ n1 t batch) as [[outs1 f1] n2] eqn:Eb. destruct (IH _ _ _ _ Eb) as (Hf & Hs).
  destruct o as [blob|e]; intros [= <- <- <-]; (split; [lia|]); [|lia].
  intros Hz r' Hr'. cbn [List.find]. destruct (bool_decide ((key_of r, blob).1 = key_of r')) eqn:E; [by eexists|].
  apply elem_of_cons in Hr' as [->|Hr']; [by bool_hyps|]. by apply Hs.
Qed.

(** A row still selected after a write was there, selected, and not written. *)
Lemma update_selected outs r :
  selected fips t version false (update_row fips t target version false outs r) ->
  update_row fips t target version false outs r = r
  /\ List.find (fun o => bool_decide (o.1 = key_of r)) outs = None.
Proof.
  unfold update_row. destruct (List.find (fun o => bool_decide (o.1 = key_of r)) outs) as [o|]; cbn; [|done].
  destruct (bool_decide (selected fips t version false r)) eqn:E; bool_hyps; [|done].
  intros (_ & Hv & _). cbn in Hv. congruence.
Qed.

(** The rows still to do. *)
Definition todo (after : option (Uuid * string)) (db : list SecretRow) : list SecretRow :=
  merge_sort row_le (filter (fun r => selected fips t version false r /\ past after r) db).

Lemma elem_of_todo after db r : r ∈ todo after db <-> r ∈ db /\ selected fips t version false r /\ past after r.
Proof. unfold todo. rewrite merge_sort_Permutation, list_elem_of_filter. tauto. Qed.

Lemma todo_keys after db : NoDup (row_id <$> db) -> NoDup (key_of <$> todo after db).
Proof.
  intros Hd. unfold todo. rewrite merge_sort_Permutation. apply NoDup_fmap_2_strong.
  - intros x y [[Hx _] Hix]%list_elem_of_filter [[Hy _] Hiy]%list_elem_of_filter E.
    apply (nodup_key_inj row_id db); [done..|]. unfold row_id. destruct Hx as [-> _], Hy as [-> _]. by rewrite E.
  - apply NoDup_filter. by eapply NoDup_fmap_1.
Qed.

Lemma todo_sorted after db : StronglySorted row_le (todo after db).
Proof. apply StronglySorted_merge_sort; [exact row_le_trans|exact row_le_total]. Qed.

(** After a batch whose last row is [x], what is left to do past [x] is what
    came after the batch. *)
Lemma todo_step after db outs i x r :
  NoDup (row_id <$> db) -> last (take i (todo after db)) = Some x ->
  r ∈ todo (Some (key_of x)) (update_row fips t target version false outs <$> db) -> r ∈ drop i (todo after db).
Proof.
  intros Hd Hx (Hin & Hsel & Hpast)%elem_of_todo. apply list_elem_of_fmap in Hin as (r0 & -> & Hr0).
  destruct (update_selected outs r0 Hsel) as [E _]. rewrite E in *. clear E.
  assert (x ∈ todo after db) as Hxt.
  { apply last_Some_elem_of, elem_of_take in Hx as (j & Hj & _). by eapply list_elem_of_lookup_2. }
  assert (r0 ∈ todo after db) as Hr.
  { apply elem_of_todo. split_and!; [done|done|]. apply elem_of_todo in Hxt as (_ & _ & Hxp).
    destruct after as [k|]; [|done]. cbn in *. by eapply row_lt_trans. }
  rewrite <- (take_drop i (todo after db)) in Hr. apply elem_of_app in Hr as [Hr|]; [|done]. exfalso.
  apply last_Some in Hx as [k Hk]. pose proof (todo_sorted after db) as Hs.
  rewrite <- (take_drop i (todo after db)) in Hs. apply StronglySorted_app in Hs as (_ & Hs & _). rewrite Hk in Hs, Hr.
  apply elem_of_app in Hr as [Hr| ->%list_elem_of_singleton]; [|by apply row_lt_irrefl in Hpast].
  apply StronglySorted_app in Hs as (Hle & _). by apply (Hle r0 x Hr); [apply list_elem_of_singleton|].
Qed.

(** Rows still selected at the end were not touched. *)
Lemma rotate_loop_selected fuel after ok failed n db ok' failed' n' db' r :
  rotate_loop fips fuel now g rnd t target version false after ok failed n db = (ok', failed', n', db') ->
  r ∈ db' -> selected fips t version false r -> r ∈ db.
Proof.
  revert after ok failed n db. induction fuel as [|fuel IH]; intros after ok failed n db; cbn [rotate_loop].
  { by intros [= <- <- <- <-]. }
  destruct (last _); [|by intros [= <- <- <- <-]]. destruct (reencrypt_batch _ _ _ _ _ _ _) as [[outs f] n1].
  assert (r ∈ update_row fips t target version false outs <$> db -> selected fips t version false r -> r ∈ db) as Hup.
  { intros (r0 & -> & Hr0)%list_elem_of_fmap Hsel. by rewrite (proj1 (update_selected outs r0 Hsel)). }
  destruct (_ =? BATCH); [|by intros [= <- <- <- <-]]. intros Hr Hin Hsel. by apply Hup; [eapply IH|].
Qed.

Lemma rotate_loop_complete fuel after ok failed n db ok' failed' n' db' :
  NoDup (row_id <$> db) -> (length (todo after db) < fuel)%nat ->
  rotate_loop fips fuel now g rnd t target version false after ok failed n db = (ok', failed', n', db') ->
  failed <= failed' /\ (failed' = failed -> todo after db' = []).
Proof.
  revert after ok failed n db. induction fuel as [|fuel IH]; intros after ok failed n db Hd Hf; [lia|].
  cbn [rotate_loop]. change (read_batch fips t version false after db) with (take (Z.to_nat BATCH) (todo after db)).
  set (l := todo after db) in *. set (i := Z.to_nat BATCH) in *.
  destruct (last (take i l)) as [x|] eqn:Ex.
  2: { intros [= <- <- <- <-]. split; [lia|]. intros _. apply last_None in Ex.
       apply (f_equal length) in Ex. rewrite length_take in Ex. fold l. subst i. unfold BATCH in Ex.
       destruct l; [done|]. cbn [length] in Ex. lia. }
  destruct (reencrypt_batch _ _ _ _ _ _ _) as [[outs f] n1] eqn:Eb.
  destruct (reencrypt_batch_failed _ _ _ _ _ Eb) as [Hf0 Hfound].
  set (db1 := update_row fips t target version false outs <$> db).
  assert (row_id <$> db1 = row_id <$> db) as Hids.
  { unfold db1. rewrite <- list_fmap_compose. apply list_fmap_ext. intros j r _. cbn. unfold update_row.
    destruct (List.find (fun o => bool_decide (o.1 = key_of r)) outs); [|done]. cbn. by destruct (bool_decide _). }
  assert (f = 0 -> forall r, r ∈ db1 -> selected fips t version false r -> past after r -> r ∈ drop i l) as Hleft.
  { intros Hz r (r0 & -> & Hr0)%list_elem_of_fmap Hsel. destruct (update_selected outs r0 Hsel) as [E En].
    rewrite E in *. intros Hp. assert (r0 ∈ l) as Hr by (by apply elem_of_todo).
    rewrite <- (take_drop i l) in Hr. apply elem_of_app in Hr as [Hr|]; [|done].
    destruct (Hfound Hz r0 Hr) as [o Ho]. congruence. }
  destruct (Z.eqb_spec (zlen (take i l)) BATCH) as [Hfull|Hpart].
  - intros Hr. pose proof (fun r => rotate_loop_selected _ _ _ _ _ _ _ _ _ _ r Hr) as Hsel. apply IH in Hr as [Hle Hdone]; [|by rewrite Hids|].
    + split; [lia|]. intros Heq. assert (f = 0) as Hz by lia. specialize (Hdone ltac:(lia)).
      destruct (todo after db') as [|r rest] eqn:Et; [done|]. exfalso.
      assert (r ∈ todo after db') as Hin by (rewrite Et; apply list_elem_of_here).
      apply elem_of_todo in Hin as (Hin & Hs & Hp).
      pose proof (Hleft Hz r (Hsel r Hin Hs) Hs Hp) as Hdrop.
      assert (r ∈ todo (Some (key_of x)) db') as Hin'.
      { apply elem_of_todo. split_and!; [done|done|].
        exact (sorted_past l i x r (todo_sorted after db) (todo_keys after db Hd) Ex Hdrop). }
      rewrite Hdone in Hin'. by apply not_elem_of_nil in Hin'.
    + assert (length (todo (Some (key_of x)) db1) <= length (drop i l))%nat as Hlen.
      { apply submseteq_length, NoDup_submseteq.
        - eapply NoDup_fmap_1, todo_keys. by rewrite Hids.
        - intros r. by apply todo_step. }
      rewrite length_drop in Hlen. unfold zlen in Hfull. rewrite length_take in Hfull. unfold BATCH in *. subst i. lia.
  - intros [= <- <- <- <-]. split; [lia|]. intros Heq. assert (f = 0) as Hz by lia.
    destruct (todo after db1) as [|r rest] eqn:Et; [done|]. exfalso.
    assert (r ∈ todo after db1) as Hin by (rewrite Et; apply list_elem_of_here).
    apply elem_of_todo in Hin as (Hin & Hs & Hp). pose proof (Hleft Hz r Hin Hs Hp) as Hdrop.
    unfold zlen in Hpart. rewrite length_take in Hpart. rewrite drop_ge in Hdrop by (unfold BATCH in *; subst i; lia).
    by apply not_elem_of_nil in Hdrop.
Qed.
End complete.

(** C38: A pass that reports no failure leaves no row of the table under the
    generation it was run for, however many batches that takes. *)
Theorem rotation_completes `{Aead} `{KeyWrapper} `{UuidDisplay} `{IdOrder} fips now g rnd t target version n db
    ok n' db' :
  version <> as_i32 target -> NoDup (row_id <$> db) ->
  rotate_rows fips now g rnd t target version false n db = (ok, 0, n', db') ->
  Forall (fun r => s_table r = table t -> s_version r <> version) db'.
Proof.
  intros Hne Hd Hr. unfold rotate_rows in Hr. apply rotate_loop_complete in Hr as [_ Hdone]; [|done|done|].
  2: { unfold todo. rewrite merge_sort_Permutation. pose proof (length_filter (fun r => selected fips t version false r /\ past None r) db). lia. }
  apply Forall_forall. intros r Hin Ht Hv.
  assert (r ∈ todo fips t version None db') as Hr by (by apply elem_of_todo).
  rewrite (Hdone eq_refl) in Hr. by apply not_elem_of_nil in Hr.
Qed.

(** The check of the [UPDATE] is on the generation, not on the value: when a
    row of the batch is rewritten under the same generation (by a server that
    has not adopted the new one yet) between being read and being updated, the
    update replaces the value written by the one that was read. *)
Theorem rotation_loses_write `{AeadLaws} `{KeyWrapperLaws} `{UuidDisplay} `{IdOrder} fips now g rnd t target version
    n n' after db outs f r written K p :
  gens_ok g -> node_ok g n -> (forall r, random_ok (rnd r)) -> t ∈ TABLES ->
  NoDup (row_id <$> db) -> Forall (fun r => blob_ok (s_blob r)) db ->
  r ∈ read_batch fips t version false after db ->
  reencrypt_batch fips now g rnd n t (read_batch fips t version false after db) = (outs, f, n') -> f = 0 ->
  keys n' ⊆ K -> opens K t (s_tenant r) (s_id r) (s_blob r) p ->
  let r' := update_row fips t target version false outs (set_blob written version r) in
  opens K t (s_tenant r') (s_id r') (s_blob r') p /\ s_version r' = as_i32 target.
Proof.
  intros Hg Hn Hrnd Ht Hd Hb Hr Eb Hf HK Hop r'.
  pose proof (reencrypt_batch_failed _ _ _ _ _ _ _ _ _ _ Eb) as [_ Hfound].
  destruct (Hfound Hf r Hr) as [o Ho].
  apply reencrypt_batch_spec in Eb as (_ & _ & Hout); [|done|done|done|].
  2: { apply Forall_forall. intros x [Hx _]%read_batch_elem. by eapply Forall_forall in Hb. }
  pose proof (read_batch_elem _ _ _ _ _ _ _ Hr) as [Hrd (Et & Ev & _)].
  assert (r' = set_blob o.2 (as_i32 target) r) as ->.
  { subst r'. unfold update_row. change (key_of (set_blob written version r)) with (key_of r). rewrite Ho. cbn.
    by rewrite bool_decide_eq_true_2. }
  split; [|done]. apply find_some in Ho as [Hin Ek]. bool_hyps. apply list_elem_of_In in Hin.
  destruct (Hout K HK o Hin) as (_ & r0 & Hr0 & Ek0 & Hop0). apply read_batch_elem in Hr0 as [Hr0 (Et0 & _)].
  assert (r0 = r) as -> by (apply (nodup_key_inj row_id db); [done..|unfold row_id; congruence]). by apply Hop0.
Qed.

(** ** A rotation from generation 1 to generation 2 *)

Section example.
Local Existing Instances toy_aead toy_aead_laws toy_kms toy_kms_laws toy_uuid.

Definition toy_order : IdOrder.
Proof.
  refine {| id_lt := String_as_OT.lt |}.
  - intros x y. unfold String_as_OT.lt. apply _.
  - intros x. exact (StrictOrder_Irreflexive (R := String_as_OT.lt) x).
  - intros x y. destruct (String_as_OT.compare_spec x y); auto.
Defined.
Local Existing Instance toy_order.

Definition ex_old_node : Node := from_config false (Some (replicate 32 1)) 1 [] false.
Definition ex_new_node : Node := from_config false (Some (replicate 32 2)) 2 [(1, replicate 32 1)] false.
Definition ex_table : EncryptedTable := mkEncryptedTable "credentials" "data_enc" "credentials" "id" "uuid".

Definition ex_row (id : string) (plain : list Z) : SecretRow :=
  mkSecretRow "credentials" 5 id
    (match encrypt false (ex_rnd 3) ex_old_node plain (aad ex_table 5 id) with Ok e => to_bytes e | Err _ => [] end) 1.
Definition ex_db : list SecretRow := [ex_row "b" [7]; ex_row "a" [8; 9]].
Definition ex_rnds (r : SecretRow) : Random := ex_rnd 4.

Lemma ex_node_ok : node_ok ∅ ex_new_node.
Proof. apply from_config_ok. split; [unfold fits_u; lia|]. repeat constructor; unfold fits_u; cbn; lia. Qed.
Lemma ex_gens_ok : gens_ok ∅.
Proof. intros v row Hv. by rewrite lookup_empty in Hv. Qed.
Lemma ex_rows_ok : NoDup (row_id <$> ex_db).
Proof. decide_now. Qed.
Lemma ex_blobs_ok : Forall (fun r => blob_ok (s_blob r)) ex_db.
Proof.
  assert (forall b, bytes_ok b -> blob_ok b) as Hb by (intros b Hb e; by apply from_bytes_version).
  apply Forall_cons; split; [apply Hb; decide_now|]. apply Forall_cons; split; [apply Hb; decide_now|constructor].
Qed.

Definition ex_result := rotate_all false 0 ∅ ex_rnds ex_new_node [ex_db].

Lemma rotation_preserves_witness :
  Forall2 (Forall2 (same_secret (keys ex_result.1.1.2))) [ex_db] ex_result.1.2
  /\ (fun r => s_version r) <$> concat ex_result.1.2 = [2; 2].
Proof.
  split; [|vm_compute; reflexivity].
  apply (rotation_preserves false 0 ∅ ex_rnds ex_new_node [ex_db] ex_result.1.1.1 ex_result.1.1.2 ex_result.1.2 ex_result.2).
  - exact ex_gens_ok.
  - exact ex_node_ok.
  - intros r. apply ex_rnd_ok.
  - apply Forall_singleton. split; [exact ex_rows_ok|exact ex_blobs_ok].
  - unfold ex_result. by destruct (rotate_all _ _ _ _ _ _) as [[[a b] c] d].
Defined.

Definition ex_pass := rotate_rows false 0 ∅ ex_rnds ex_table 2 1 false ex_new_node ex_db.

Lemma rotation_completes_witness :
  Forall (fun r => s_table r = "credentials"%string -> s_version r <> 1) ex_pass.2.
Proof.
  apply (rotation_completes false 0 ∅ ex_rnds ex_table 2 1 ex_new_node ex_db ex_pass.1.1.1 ex_pass.1.2 ex_pass.2).
  - done.
  - exact ex_rows_ok.
  - assert (ex_pass.1.1.2 = 0) as E by (vm_compute; reflexivity).
    unfold ex_pass in *. destruct (rotate_rows _ _ _ _ _ _ _ _ _ _) as [[[a b] c] d]. cbn in *. by subst.
Defined.

Definition ex_outs := reencrypt_batch false 0 ∅ ex_rnds ex_new_node ex_table (read_batch false ex_table 1 false None ex_db).

Definition written : list Z := s_blob (ex_row "a" [9]).

Lemma rotation_loses_write_witness :
  let r' := update_row false ex_table 2 1 false ex_outs.1.1 (set_blob written 1 (ex_row "a" [8; 9])) in
  opens (keys ex_outs.2) ex_table 5 "a" (s_blob r') [8; 9] /\ s_version r' = 2.
Proof.
  assert (ex_outs.1.2 = 0) as E by (vm_compute; reflexivity).
  apply (rotation_loses_write false 0 ∅ ex_rnds ex_table 2 1 ex_new_node ex_outs.2 None ex_db ex_outs.1.1 ex_outs.1.2
           (ex_row "a" [8; 9]) written (keys ex_outs.2) [8; 9]).
  - exact ex_gens_ok.
  - exact ex_node_ok.
  - intros r. apply ex_rnd_ok.
  - by right; left.
  - exact ex_rows_ok.
  - exact ex_blobs_ok.
  - vm_compute. left.
  - unfold ex_outs. by destruct (reencrypt_batch _ _ _ _ _ _ _) as [[a b] c].
  - exact E.
  - done.
  - eexists _, _. split; [vm_compute; reflexivity|]. split; vm_compute; reflexivity.
Defined.
End example.
