(* ===== verification/Credentials.v ===== *)
(** * Credential rows and their secrets

    The statements of [api/src/repos/credentials.rs] and the encryption of
    [api/src/services/credential_secrets.rs], which authenticator apps,
    recovery codes and passkeys share. The encryptor is the interface
    [KeyEncryptor]; what is sealed is read back because it promises so. *)

From stdpp Require Import gmap strings sorting.
From S2P Require Import Prelude Utf8 Valkey KeyCustody MasterKey.

(** ** Rows *)

Record CredRow := mkCredRow {
  cr_id : Uuid;
  cr_tenant : Uuid;
  cr_user : Uuid;
  cr_kind : string;
  cr_label : option (list Z);
  cr_data : list Z;
  cr_created : Z;
  cr_last_used : option Z;
  cr_external : option (list Z)
}.

(** The errors of the credential services. *)
Inductive CredError := MInternal | MBadRequest | MUnavailable | MSerde | MConflict.


(** Read by [ORDER BY created_at, id]. *)
Definition created_le (a b : CredRow) : Prop := cr_created a < cr_created b \/ (cr_created a = cr_created b /\ cr_id a <= cr_id b).
#[export] Instance created_le_dec a b : Decision (created_le a b).
Proof. unfold created_le. apply _. Defined.

Definition of_user (tenant user : Uuid) (r : CredRow) : Prop := cr_tenant r = tenant /\ cr_user r = user.
#[export] Instance of_user_dec tenant user r : Decision (of_user tenant user r).
Proof. unfold of_user. apply _. Defined.

Definition list_for_user (tenant user : Uuid) (rows : list CredRow) : list CredRow :=
  merge_sort created_le (filter (of_user tenant user) rows).
Definition list_secrets_of_type (tenant user : Uuid) (kind : string) (rows : list CredRow) : list CredRow :=
  merge_sort created_le (filter (fun r => of_user tenant user r /\ cr_kind r = kind) rows).
Definition count_of_types (tenant user : Uuid) (kinds : list string) (rows : list CredRow) : Z :=
  zlen (filter (fun r => of_user tenant user r /\ cr_kind r ∈ kinds) rows).
Definition delete_cred (tenant user id : Uuid) (rows : list CredRow) : list CredRow :=
  filter (fun r => ~ (of_user tenant user r /\ cr_id r = id)) rows.
Definition delete_of_type (tenant user : Uuid) (kind : string) (rows : list CredRow) : list CredRow :=
  filter (fun r => ~ (of_user tenant user r /\ cr_kind r = kind)) rows.
Definition update_data (now : Z) (tenant id : Uuid) (data : list Z) (rows : list CredRow) : list CredRow :=
  (fun r => if bool_decide (cr_tenant r = tenant /\ cr_id r = id)
            then mkCredRow (cr_id r) (cr_tenant r) (cr_user r) (cr_kind r) (cr_label r) data (cr_created r) (Some now) (cr_external r)
            else r) <$> rows.
Definition touch_last_used (now : Z) (tenant id : Uuid) (rows : list CredRow) : list CredRow :=
  (fun r => if bool_decide (cr_tenant r = tenant /\ cr_id r = id)
            then mkCredRow (cr_id r) (cr_tenant r) (cr_user r) (cr_kind r) (cr_label r) (cr_data r) (cr_created r) (Some now) (cr_external r)
            else r) <$> rows.

(** The credential of the kind that presents itself with [external]. *)
Definition find_secret_by_external_id (tenant : Uuid) (kind : string) (external : list Z) (rows : list CredRow)
    : option CredRow :=
  List.find (fun r => bool_decide (cr_tenant r = tenant /\ cr_kind r = kind /\ cr_external r = Some external)) rows.

(** [serde_json]'s bytes of a record. *)
Class JsonBytes (A : Type) := {
  to_vec : A -> list Z;
  from_slice : list Z -> option A;
  from_to_vec a : from_slice (to_vec a) = Some a
}.

(** ** Secrets *)

Section seal.
Context `{UuidDisplay} `{KeyEncryptor}.

Definition seal_secret {A} `{!JsonBytes A} (rnd : Random) (k : kstate) (tenant id : Uuid) (value : A)
    : result CredError (list Z) :=
  match ke_encrypt rnd k (to_vec value) (credential_aad tenant id) with
  | Ok e => Ok (to_bytes e)
  | Err _ => Err MInternal
  end.
Definition open_secret {A} `{!JsonBytes A} (now : Z) (k : kstate) (tenant id : Uuid) (blob : list Z)
    : result CredError A * kstate :=
  match from_bytes blob with
  | Err _ => (Err MInternal, k)
  | Ok enc =>
      match ke_decrypt now k enc (credential_aad tenant id) with
      | (Ok plain, k) => (ok_or (from_slice plain) MSerde, k)
      | (Err _, k) => (Err MInternal, k)
      end
  end.
End seal.

Section secrets.
Context `{UuidDisplay} `{KeyEncryptorLaws}.

(** From [k] on, the blob opens to [d]. *)
Definition holds {A} `{!JsonBytes A} (k : kstate) (tenant id : Uuid) (blob : list Z) (d : A) : Prop :=
  forall now k', ke_le k k' -> ke_ok k' ->
  exists k'', open_secret now k' tenant id blob = (Ok d, k'') /\ ke_ok k'' /\ ke_le k' k''.

Lemma holds_later {A} `{!JsonBytes A} k k' tenant id blob (d : A) :
  ke_le k k' -> holds k tenant id blob d -> holds k' tenant id blob d.
Proof. intros Hle Hh now k2 Hk2. apply Hh. by eapply ke_le_trans. Qed.

(** What is sealed is read back. *)
Lemma seal_holds {A} `{!JsonBytes A} rnd k tenant id (d : A) blob :
  ke_ok k -> random_ok rnd -> seal_secret rnd k tenant id d = Ok blob -> holds k tenant id blob d.
Proof.
  intros Hk Hr. unfold seal_secret. destruct (ke_encrypt _ _ _ _) as [e|] eqn:E; [|done]. intros [= <-] now k' Hle Hk'.
  destruct (ke_read_back rnd k k' _ _ e now Hk Hr E Hle Hk') as (Hf & Hb & Hd).
  destruct (ke_decrypt_le now k' e (credential_aad tenant id) Hk' Hf) as [Hok Hle'].
  unfold open_secret. rewrite Hb. destruct (ke_decrypt now k' e _) as [r k''] eqn:Ed. cbn [fst snd] in *. subst r.
  rewrite from_to_vec. by exists k''.
Qed.

Lemma seal_err {A} `{!JsonBytes A} rnd k tenant id (d : A) e : seal_secret rnd k tenant id d = Err e -> e = MInternal.
Proof. unfold seal_secret. by destruct (ke_encrypt _ _ _ _); [|intros [= <-]]. Qed.
End secrets.

(** *** Replacing a blob *)

Lemma list_secrets_update now tenant user kind id data rows row :
  list_secrets_of_type tenant user kind rows = [row] ->
  exists row', list_secrets_of_type tenant user kind (update_data now tenant id data rows) = [row'] /\ cr_id row' = cr_id row
    /\ (cr_id row = id -> cr_data row' = data).
Proof.
  intros E. unfold list_secrets_of_type in *.
  assert (filter (fun r => of_user tenant user r /\ cr_kind r = kind) rows = [row]) as Ef.
  { apply Permutation_singleton_r. rewrite <- E. symmetry. apply merge_sort_Permutation. }
  set (f := fun r => if bool_decide (cr_tenant r = tenant /\ cr_id r = id)
    then mkCredRow (cr_id r) (cr_tenant r) (cr_user r) (cr_kind r) (cr_label r) data (cr_created r) (Some now) (cr_external r) else r).
  assert (forall l : list CredRow, filter (fun r => of_user tenant user r /\ cr_kind r = kind) (f <$> l)
    = f <$> filter (fun r => of_user tenant user r /\ cr_kind r = kind) l) as Hf.
  { induction l as [|x l IH]; [done|]. rewrite fmap_cons, !filter_cons, IH.
    assert ((of_user tenant user (f x) /\ cr_kind (f x) = kind) <-> (of_user tenant user x /\ cr_kind x = kind)) as Hx
      by (unfold f; by destruct (bool_decide _)).
    destruct (decide _) as [D1|D1], (decide (of_user tenant user x /\ _)) as [D2|D2]; [done|tauto|tauto|done]. }
  unfold update_data. fold f. rewrite Hf, Ef. exists (f row).
  assert (of_user tenant user row) as [Ht _].
  { assert (row ∈ [row]) as Hin by apply list_elem_of_here. rewrite <- Ef in Hin.
    by apply list_elem_of_filter in Hin as [[? _] _]. }
  unfold f. split_and!; [done|by destruct (bool_decide _)|]. intros Hid. by rewrite bool_decide_eq_true_2.
Qed.
