(* ===== verification/Totp.v ===== *)
(** * Second factors: authenticator codes and recovery codes

    Models [api/src/services/totp.rs] (RFC 6238 codes, base32 secrets,
    enrolment, recovery codes) and the statements of
    [api/src/repos/credentials.rs] it runs. Strings are lists of Unicode scalar
    values ([Utf8]). Material at rest goes through the interface
    [KeyEncryptor], which [KeyCustody]'s encryptor implements. A request takes
    one reading of the clock, in milliseconds. Notification mails and the
    otpauth URI's QR code are left out. *)

From stdpp Require Import gmap strings sorting.
From S2P Require Import Prelude Utf8 Valkey KeyCustody.

(** ** Base32 *)

Definition BASE32 : list Z := ascii_bytes "ABCDEFGHIJKLMNOPQRSTUVWXYZ234567".

(** [BASE32[i]]. *)
Definition b32_char (i : Z) : Z := nth (Z.to_nat i) BASE32 0.

(** The inner loop: five bits at a time while there are five. *)
Fixpoint b32_emit (fuel : nat) (buffer bits : Z) : list Z * Z :=
  match fuel with
  | O => ([], bits)
  | S fuel =>
      if bits <? 5 then ([], bits)
      else
        let bits := bits - 5 in
        let '(out, bits') := b32_emit fuel buffer bits in
        (b32_char (Z.land (Z.shiftr buffer bits) 31) :: out, bits')
  end.

(** The loop over the bytes. *)
Fixpoint b32_loop (bytes : list Z) (buffer bits : Z) : list Z :=
  match bytes with
  | [] => if 0 <? bits then [b32_char (Z.land (as_u32 (Z.shiftl buffer (5 - bits))) 31)] else []
  | b :: bytes =>
      let buffer := Z.lor (as_u32 (Z.shiftl buffer 8)) b in
      let '(out, bits) := b32_emit (Z.to_nat (bits + 8)) buffer (bits + 8) in
      out ++ b32_loop bytes buffer bits
  end.
Definition base32_encode (bytes : list Z) : list Z := b32_loop bytes 0 0.

Definition to_ascii_uppercase (c : Z) : Z := if within 97 122 c then c - 32 else c.

Definition position (c : Z) : option Z :=
  (fun p => Z.of_nat p.1) <$> list_find (fun a => a = to_ascii_uppercase c) BASE32.

Definition trim_end_matches (c : Z) (s : list Z) : list Z :=
  reverse ((fix go (l : list Z) := match l with x :: l' => if x =? c then go l' else l | [] => [] end) (reverse s)).

Fixpoint b32_unloop (s : list Z) (buffer bits : Z) : option (list Z) :=
  match s with
  | [] => Some []
  | c :: s =>
      v ← position c;
      let buffer := Z.lor (as_u32 (Z.shiftl buffer 5)) v in
      if 8 <=? bits + 5
      then cons (as_u8 (Z.shiftr buffer (bits + 5 - 8))) <$> b32_unloop s buffer (bits + 5 - 8)
      else b32_unloop s buffer (bits + 5)
  end.
(** On the bytes of the text. *)
Definition base32_decode (s : list Z) : option (list Z) :=
  b32_unloop (utf8_encode (trim_end_matches 61 s)) 0 0.

(** ** RFC 6238 *)

Definition DIGITS : Z := 6.
Definition PERIOD_SECS : Z := 30.
Definition SKEW : Z := 1.

Definition is_ascii_digit (c : Z) : bool := within 48 57 c.

(** [format!("{code:06}")] of a number below a million. *)
Definition six_digits (code : Z) : list Z :=
  (fun i => 48 + code / 10 ^ i mod 10) <$> [5; 4; 3; 2; 1; 0].

Record Authenticator := mkAuthenticator { au_secret : list Z; au_issuer : list Z; au_account : list Z }.

Section codes.
(** HMAC-SHA-1: key, data. *)
Context (hmac_sha1 : list Z -> list Z -> list Z).

Definition code_at (a : Authenticator) (counter : Z) : list Z :=
  let mac := hmac_sha1 (au_secret a) (be_bytes 8 counter) in
  let offset := Z.to_nat (Z.land (nth (length mac - 1) mac 0) 0x0f) in
  let bin := Z.land (be_val (take 4 (drop offset mac))) 0x7fffffff in
  six_digits (bin mod 10 ^ DIGITS).

Definition check (a : Authenticator) (code : list Z) (now : Z) : option Z :=
  if negb (zlen (utf8_encode code) =? DIGITS) || negb (forallb is_ascii_digit (utf8_encode code)) then None
  else
    let origin := now / PERIOD_SECS in
    List.find (fun counter => bool_decide (code_at a counter = code))
      (seqZ (Z.max 0 (origin - SKEW)) (origin + SKEW + 1 - Z.max 0 (origin - SKEW))).

Definition check_current (a : Authenticator) (code : list Z) (now : Z) : option Z :=
  check a code (Z.max 0 (now / 1000)).
End codes.

(** ** The enrolment URI *)

Definition is_unreserved (b : Z) : bool :=
  within 48 57 b || within 65 90 b || within 97 122 b || bool_decide (b ∈ ascii_bytes "-_.~").
Definition hex_digit (d : Z) : Z := if d <? 10 then 48 + d else 55 + d.
Definition percent_encode (s : list Z) : list Z :=
  utf8_encode s ≫= fun b => if is_unreserved b then [b] else [37; hex_digit (b / 16); hex_digit (b mod 16)].

Definition label_safe (s fallback : list Z) : list Z :=
  let out := (fun c => if c =? 58 then 32 else c) <$> trim s in
  if bool_decide (out = []) then fallback else out.

Definition to_url (a : Authenticator) : list Z :=
  let issuer := percent_encode (au_issuer a) in
  ascii_bytes "otpauth://totp/" ++ issuer ++ ascii_bytes ":" ++ percent_encode (au_account a)
  ++ ascii_bytes "?secret=" ++ base32_encode (au_secret a) ++ ascii_bytes "&issuer=" ++ issuer.

(** ** Base32, bit by bit *)

(** The low [n] bits of [x], highest first. *)
Fixpoint to_bits (n : nat) (x : Z) : list bool :=
  match n with
  | O => []
  | S n => Z.testbit x (Z.of_nat n) :: to_bits n x
  end.

Lemma to_bits_length n x : length (to_bits n x) = n.
Proof. induction n as [|n IH]; [done|]. cbn. by rewrite IH. Qed.

Lemma to_bits_ext n x y :
  (forall i, 0 <= i < Z.of_nat n -> Z.testbit x i = Z.testbit y i) -> to_bits n x = to_bits n y.
Proof.
  induction n as [|n IH]; intros Hi; [done|]. cbn [to_bits]. f_equal; [apply Hi; lia|].
  apply IH. intros i Hb. apply Hi. lia.
Qed.

Lemma to_bits_split n m x : to_bits (n + m) x = to_bits n (Z.shiftr x (Z.of_nat m)) ++ to_bits m x.
Proof.
  induction n as [|n IH]; [done|]. cbn [Nat.add to_bits app]. rewrite IH. f_equal.
  rewrite Z.shiftr_spec by lia. f_equal. lia.
Qed.

Lemma to_bits_zero n : to_bits n 0 = replicate n false.
Proof. induction n as [|n IH]; [done|]. cbn. by rewrite IH, Z.bits_0. Qed.

Lemma to_bits_land n x m : (Z.of_nat n <= m) -> to_bits n (Z.land x (Z.ones m)) = to_bits n x.
Proof.
  intros Hm. apply to_bits_ext. intros i Hi. rewrite Z.land_spec, Z.ones_spec_low by lia. apply andb_true_r.
Qed.

Lemma bits_high w v i : 0 <= v < 2 ^ Z.of_nat w -> Z.of_nat w <= i -> Z.testbit v i = false.
Proof.
  intros Hv Hi. rewrite <- (Z.mod_small v (2 ^ Z.of_nat w)) by lia. apply Z.mod_pow2_bits_high. lia.
Qed.

(** Values of [n] bits are told apart by their bits. *)
Lemma to_bits_inj n x y : 0 <= x < 2 ^ Z.of_nat n -> 0 <= y < 2 ^ Z.of_nat n -> to_bits n x = to_bits n y -> x = y.
Proof.
  intros Hx Hy E.
  assert (forall m, to_bits m x = to_bits m y -> forall i, 0 <= i < Z.of_nat m -> Z.testbit x i = Z.testbit y i) as Hbits.
  { clear. induction m as [|m IH]; [lia|]. cbn [to_bits]. intros [= Hm Ht] i Hi.
    destruct (Z.eq_dec i (Z.of_nat m)) as [->|]; [done|]. apply IH; [done|lia]. }
  apply Z.bits_inj'. intros i Hi. destruct (Z.lt_ge_cases i (Z.of_nat n)); [by apply (Hbits n)|].
  by rewrite !(bits_high n).
Qed.

(** Shifting in a value of [w] bits. *)
Lemma to_bits_push n w buffer v :
  (n + w <= 32)%nat -> 0 <= v < 2 ^ Z.of_nat w ->
  to_bits (n + w) (Z.lor (as_u32 (Z.shiftl buffer (Z.of_nat w))) v) = to_bits n buffer ++ to_bits w v.
Proof.
  intros Hn Hv. rewrite to_bits_split. f_equal; apply to_bits_ext; intros i Hi; unfold wrap_u.
  - rewrite Z.shiftr_spec by lia. rewrite Z.lor_spec, (bits_high w v) by lia. rewrite orb_false_r.
    rewrite Z.mod_pow2_bits_low by lia. rewrite Z.shiftl_spec by lia. f_equal. lia.
  - rewrite Z.lor_spec. rewrite Z.mod_pow2_bits_low by lia. rewrite Z.shiftl_spec_low by lia. done.
Qed.

Lemma b32_emit_spec fuel buffer bits :
  0 <= bits -> (Z.to_nat bits <= fuel)%nat ->
  exists vals bits', b32_emit fuel buffer bits = (b32_char <$> vals, bits') /\ 0 <= bits' < 5
    /\ Forall (fun v => 0 <= v < 32) vals
    /\ (vals ≫= to_bits 5) ++ to_bits (Z.to_nat bits') buffer = to_bits (Z.to_nat bits) buffer.
Proof.
  revert bits. induction fuel as [|fuel IH]; intros bits Hb Hf; cbn [b32_emit].
  { exists [], bits. replace bits with 0 by lia. by split_and!. }
  destruct (Z.ltb_spec bits 5) as [Hlt|Hge]; [by exists [], bits|].
  destruct (IH (bits - 5)) as (vals & bits' & -> & Hb' & Hv & Hs); [lia|lia|].
  exists (Z.land (Z.shiftr buffer (bits - 5)) 31 :: vals), bits'. split_and!; [done|lia|lia| |].
  - constructor; [|done]. change 31 with (Z.ones 5). rewrite Z.land_ones by lia. by apply Z.mod_pos_bound.
  - cbn [mbind list_bind]. rewrite <- app_assoc. change (list_bind _ _ (to_bits 5) vals) with (vals ≫= to_bits 5).
    rewrite Hs. change 31 with (Z.ones 5). rewrite to_bits_land by lia.
    replace (Z.to_nat bits) with (5 + Z.to_nat (bits - 5))%nat by lia.
    rewrite to_bits_split. by rewrite Z2Nat.id by lia.
Qed.

(** The characters carry the bits left over and those of the bytes, filled up
    with fewer than five zeros. *)
Lemma b32_loop_spec bytes buffer bits :
  bytes_ok bytes -> 0 <= bits < 5 ->
  exists vals z, b32_loop bytes buffer bits = b32_char <$> vals /\ Forall (fun v => 0 <= v < 32) vals
    /\ (z < 5)%nat
    /\ (vals ≫= to_bits 5) = to_bits (Z.to_nat bits) buffer ++ (bytes ≫= to_bits 8) ++ replicate z false.
Proof.
  intros Hb. revert buffer bits. induction Hb as [|b bytes Hb _ IH]; intros buffer bits Hbits; cbn [b32_loop].
  - destruct (Z.ltb_spec 0 bits) as [Hpos|Hz].
    2: { exists [], 0%nat. split_and!; [done|done|lia|]. by replace bits with 0 by lia. }
    set (v := Z.land (as_u32 (Z.shiftl buffer (5 - bits))) 31).
    exists [v], (5 - Z.to_nat bits)%nat. split_and!; [done| |lia|].
    + constructor; [|done]. unfold v. change 31 with (Z.ones 5). rewrite Z.land_ones by lia. by apply Z.mod_pos_bound.
    + cbn [mbind list_bind app]. rewrite app_nil_r. unfold v. change 31 with (Z.ones 5). rewrite to_bits_land by lia.
      pose proof (to_bits_push (Z.to_nat bits) (5 - Z.to_nat bits) buffer 0 ltac:(lia) ltac:(lia)) as Hp.
      rewrite Z.lor_0_r, to_bits_zero in Hp. rewrite <- Hp. f_equal; [lia|]. do 2 f_equal. lia.
  - set (buf := Z.lor _ b). unfold is_byte in Hb.
    destruct (b32_emit_spec (Z.to_nat (bits + 8)) buf (bits + 8)) as (vals1 & bits1 & -> & Hb1 & Hv1 & Hs1); [lia|lia|].
    destruct (IH buf bits1 Hb1) as (vals2 & z & -> & Hv2 & Hz & Hs2).
    exists (vals1 ++ vals2), z. split_and!; [by rewrite fmap_app|by apply Forall_app|done|].
    rewrite bind_app, Hs2, app_assoc, Hs1. replace (Z.to_nat (bits + 8)) with (Z.to_nat bits + 8)%nat by lia.
    unfold buf. rewrite (to_bits_push (Z.to_nat bits) 8) by lia. cbn [mbind list_bind]. by rewrite <- !app_assoc.
Qed.

Lemma position_char v : 0 <= v < 32 -> position (b32_char v) = Some v.
Proof.
  intros Hv. assert (Forall (fun v => position (b32_char v) = Some v) (seqZ 0 32)) as Hall by decide_now.
  rewrite Forall_forall in Hall. apply Hall, elem_of_seqZ. lia.
Qed.

(** Reading collects the bits back into bytes; fewer than eight are left. *)
Lemma b32_unloop_spec vals buffer bits :
  Forall (fun v => 0 <= v < 32) vals -> 0 <= bits < 8 ->
  exists out rest, b32_unloop (b32_char <$> vals) buffer bits = Some out /\ bytes_ok out /\ (length rest < 8)%nat
    /\ to_bits (Z.to_nat bits) buffer ++ (vals ≫= to_bits 5) = (out ≫= to_bits 8) ++ rest.
Proof.
  intros Hv. revert buffer bits. induction Hv as [|v vals Hv _ IH]; intros buffer bits Hb; cbn [fmap list_fmap b32_unloop].
  { exists [], (to_bits (Z.to_nat bits) buffer). rewrite to_bits_length. cbn. rewrite app_nil_r. by split_and!; [|constructor|lia|]. }
  rewrite position_char by done. cbn [mbind option_bind list_bind]. set (buf := Z.lor _ v).
  assert (to_bits (Z.to_nat bits) buffer ++ to_bits 5 v = to_bits (Z.to_nat (bits + 5)) buf) as Hpush.
  { replace (Z.to_nat (bits + 5)) with (Z.to_nat bits + 5)%nat by lia.
    symmetry. apply (to_bits_push (Z.to_nat bits) 5); lia. }
  change (list_bind _ _ (to_bits 5) vals) with (vals ≫= to_bits 5). rewrite app_assoc, Hpush.
  destruct (Z.leb_spec 8 (bits + 5)) as [Hge|Hlt]; [|apply (IH buf (bits + 5)); lia].
  destruct (IH buf (bits + 5 - 8)) as (out & rest & E & Hout & Hrest & Hs); [lia|].
  exists (as_u8 (Z.shiftr buf (bits + 5 - 8)) :: out), rest. rewrite E. split_and!; [done| |done|].
  - constructor; [|done]. by apply Z.mod_pos_bound.
  - cbn [mbind list_bind]. rewrite <- app_assoc. change (list_bind _ _ (to_bits 8) out) with (out ≫= to_bits 8).
    rewrite <- Hs, app_assoc. f_equal. replace (Z.to_nat (bits + 5)) with (8 + Z.to_nat (bits + 5 - 8))%nat by lia.
    rewrite to_bits_split. f_equal. rewrite Z2Nat.id by lia. unfold wrap_u.
    rewrite <- Z.land_ones by lia. symmetry. apply to_bits_land. lia.
Qed.

(** Streams of bytes with the same bits, up to less than a byte, are the same
    bytes. *)
Lemma byte_streams l k x y :
  bytes_ok l -> bytes_ok k -> (length x < 8)%nat -> (length y < 8)%nat ->
  (l ≫= to_bits 8) ++ x = (k ≫= to_bits 8) ++ y -> l = k.
Proof.
  intros Hl Hk Hx Hy. revert k Hk. induction Hl as [|a l Ha _ IH]; intros [|b k] Hk; [done|..].
  - cbn [mbind list_bind app]. intros E. apply (f_equal length) in E. rewrite !length_app, to_bits_length in E. lia.
  - cbn [mbind list_bind app]. intros E. apply (f_equal length) in E. rewrite !length_app, to_bits_length in E. lia.
  - apply bytes_ok_cons in Hk as [Hb Hk]. cbn [mbind list_bind]. rewrite <- !app_assoc. intros E.
    apply app_inj_1 in E as [E1 E2]; [|by rewrite !to_bits_length]. f_equal.
    + by apply (to_bits_inj 8).
    + by apply IH.
Qed.

Lemma b32_chars vals :
  Forall (fun v => 0 <= v < 32) vals -> Forall (fun c => 0 <= c < 128 /\ c <> 61) (b32_char <$> vals).
Proof.
  intros Hv. apply Forall_fmap. eapply Forall_impl; [exact Hv|]. intros v Hb. cbn beta in Hb.
  assert (Forall (fun v => 0 <= b32_char v < 128 /\ b32_char v <> 61) (seqZ 0 32)) as Hall by decide_now.
  rewrite Forall_forall in Hall. apply Hall, elem_of_seqZ. lia.
Qed.

Lemma utf8_ascii s : Forall (fun c => 0 <= c < 128 /\ c <> 61) s -> utf8_encode s = s.
Proof.
  induction 1 as [|c s Hc _ IH]; [done|]. unfold utf8_encode in *. cbn [mbind list_bind].
  change (list_bind _ _ utf8_char s) with (s ≫= utf8_char). rewrite IH. unfold utf8_char.
  by rewrite (proj2 (Z.ltb_lt c 0x80)) by lia.
Qed.

Lemma trim_end_none c s : Forall (fun x => x <> c) s -> trim_end_matches c s = s.
Proof.
  intros Hs. unfold trim_end_matches. destruct (reverse s) as [|x l] eqn:E.
  - apply (f_equal reverse) in E. rewrite reverse_involutive in E. by subst.
  - rewrite Forall_forall in Hs.
    assert (x ∈ s) as Hx by (apply elem_of_reverse; rewrite E; apply list_elem_of_here).
    rewrite (proj2 (Z.eqb_neq _ _) (Hs x Hx)). by rewrite <- E, reverse_involutive.
Qed.

(** The base32 form of a secret, which is what the user's app is given and
    what the credential row stores, is read back as the same bytes, for any
    length: the 32-bit buffer of both loops drops only bits already used. *)
Theorem base32_round_trip bytes : bytes_ok bytes -> base32_decode (base32_encode bytes) = Some bytes.
Proof.
  intros Hb. unfold base32_decode, base32_encode.
  destruct (b32_loop_spec bytes 0 0 Hb) as (vals & z & -> & Hv & Hz & Hs); [lia|].
  pose proof (b32_chars vals Hv) as Hc.
  rewrite trim_end_none, utf8_ascii; [|done|by eapply Forall_impl; [exact Hc|]; intros c []].
  destruct (b32_unloop_spec vals 0 0 Hv) as (out & rest & -> & Hout & Hrest & Hs'); [lia|]. f_equal.
  cbn [Z.to_nat to_bits app] in Hs, Hs'. rewrite Hs in Hs'. symmetry.
  assert (length (replicate z false) < 8)%nat as Hzero by (rewrite length_replicate; lia).
  exact (byte_streams bytes out _ rest Hb Hout Hzero Hrest Hs').
Qed.

Example base32_foobar :
  base32_encode (ascii_bytes "foobar") = ascii_bytes "MZXW6YTBOI"
  /\ base32_decode (ascii_bytes "mzxw6ytboi======") = Some (ascii_bytes "foobar")
  /\ base32_decode (ascii_bytes "not base32!") = None.
Proof. by vm_compute. Qed.

Lemma base32_round_trip_witness : base32_decode (base32_encode (ascii_bytes "foobar")) = Some (ascii_bytes "foobar").
Proof. apply (base32_round_trip (ascii_bytes "foobar")). decide_now. Defined.
