(* ===== verification/Mfa.v ===== *)
(** * Second factors in use: enrolment, verification, recovery codes

    The stateful half of [api/src/services/totp.rs], on the rows and secrets
    of [Credentials]. Reading the recovery codes and
    storing them back are separate transactions in the code; so are
    [verify_recovery_rows] and the read before it here. *)

From stdpp Require Import gmap strings sorting.
From S2P Require Import Prelude Utf8 Valkey KeyCustody MasterKey Credentials Totp.

(** ** Data *)

Definition KIND_TOTP : string := "totp".
Definition KIND_RECOVERY : string := "recovery_code".
Definition KIND_WEBAUTHN : string := "webauthn".
Definition KIND_EMAIL : string := "email_otp".
Definition KIND_SMS : string := "sms_otp".
Definition SECOND_FACTOR_KINDS : list string := [KIND_TOTP; KIND_WEBAUTHN; KIND_EMAIL; KIND_SMS].

Definition RECOVERY_CODE_COUNT : nat := 10.
Definition RECOVERY_CODE_LEN : Z := 10.
Definition RECOVERY_ALPHABET : list Z := ascii_bytes "abcdefghijklmnopqrstuvwxyz234567".
Definition ENROLMENT_TTL_SECS : Z := 10 * 60.
Definition DEFAULT_LABEL : list Z := ascii_bytes "Authenticator app".

Record TotpData := mkTotpData { td_secret : list Z; td_digits : Z; td_period : Z }.
Record RecoveryCode := mkRecoveryCode { rc_hash : list Z; rc_used_at : option Z }.
Record RecoveryData := mkRecoveryData { rd_codes : list RecoveryCode }.
Record PendingEnrolment := mkPendingEnrolment { pe_secret : list Z }.
Record Factors := mkFactors { f_totp : bool; f_webauthn : bool; f_email : bool; f_sms : bool; f_recovery : Z }.
Inductive Verified := VTotp (credential_id : Uuid) | VRecoveryCode (remaining : Z).

Section keys.
Context `{UuidDisplay}.
Local Open Scope string_scope.
Definition totp_enrolment (tenant flow : Uuid) : string :=
  PREFIX ++ ":t:" ++ uuid_str tenant ++ ":flow:" ++ uuid_str flow ++ ":totp:enrol".
Definition totp_used_step (tenant cred : Uuid) (step : Z) : string :=
  PREFIX ++ ":t:" ++ uuid_str tenant ++ ":totp:" ++ uuid_str cred ++ ":used:" ++ pretty step.
End keys.

Section mfa.
Context `{Valkey} `{UuidDisplay} `{KeyEncryptor} `{!Serde PendingEnrolment} `{!Serde ()}.
Context `{!JsonBytes TotpData} `{!JsonBytes RecoveryData}.
Context (hmac_sha1 : list Z -> list Z -> list Z) (sha256 : list Z -> list Z) (b64 : list Z -> list Z).

Record MfaState := mkMfaState {
  m_redis : vdb;
  m_creds : list CredRow;
  m_keys : kstate;
  m_events : list (Uuid * Uuid * string)
}.
Definition set_redis (db : vdb) (st : MfaState) : MfaState := mkMfaState db (m_creds st) (m_keys st) (m_events st).
Definition set_creds (rows : list CredRow) (st : MfaState) : MfaState :=
  mkMfaState (m_redis st) rows (m_keys st) (m_events st).
Definition set_kstate (k : kstate) (st : MfaState) : MfaState :=
  mkMfaState (m_redis st) (m_creds st) k (m_events st).
Definition publish (tenant user : Uuid) (change : string) (st : MfaState) : MfaState :=
  mkMfaState (m_redis st) (m_creds st) (m_keys st) (m_events st ++ [(tenant, user, change)]).

(** *** Authenticator codes *)

Definition build (secret_b32 issuer account : list Z) : result CredError Authenticator :=
  match base32_decode secret_b32 with
  | Some (b :: l) => Ok (mkAuthenticator (b :: l) issuer account)
  | _ => Err MInternal
  end.

(** Claim a time step; [false] when it was already used. *)
Definition mark_step_used (now : Z) (tenant cred : Uuid) (step : Z) (st : MfaState) : bool * MfaState :=
  let ttl := PERIOD_SECS * (2 * SKEW + 1) in
  let '(set, db) := vset_nx now (totp_used_step tenant cred step) (to_json ()) (ttl * 1000) (m_redis st) in
  (set, set_redis db st).

(** The loop of [verify_totp] up to the first authenticator the code fits,
    with the step it fits. *)
Fixpoint find_step (now : Z) (tenant : Uuid) (code : list Z) (k : kstate) (rows : list CredRow)
    : result CredError (option (Uuid * Z)) * kstate :=
  match rows with
  | [] => (Ok None, k)
  | row :: rows =>
      match open_secret now k tenant (cr_id row) (cr_data row) with
      | (Err e, k) => (Err e, k)
      | (Ok data, k) =>
          match build (td_secret data) [] [] with
          | Err e => (Err e, k)
          | Ok totp =>
              match check_current hmac_sha1 totp code now with
              | Some step => (Ok (Some (cr_id row, step)), k)
              | None => find_step now tenant code k rows
              end
          end
      end
  end.

Definition verify_totp (now : Z) (tenant user : Uuid) (code : list Z) (st : MfaState)
    : result CredError (option Verified) * MfaState :=
  let '(r, k) := find_step now tenant code (m_keys st) (list_secrets_of_type tenant user KIND_TOTP (m_creds st)) in
  let st := set_kstate k st in
  match r with
  | Err e => (Err e, st)
  | Ok None => (Ok None, st)
  | Ok (Some (cred, step)) =>
      let '(fresh, st) := mark_step_used now tenant cred step st in
      if fresh then (Ok (Some (VTotp cred)), set_creds (touch_last_used now tenant cred (m_creds st)) st)
      else (Ok None, st)
  end.

(** *** Recovery codes *)

(** [random_code] from its ten random bytes. *)
Definition random_code (bytes : list Z) : list Z :=
  let raw := (fun b => nth (Z.to_nat (b mod 32)) RECOVERY_ALPHABET 0) <$> bytes in
  take 5 raw ++ [45] ++ drop 5 raw.

(** [char::to_lowercase] then the ASCII letters and digits of it: besides
    ASCII, only the Kelvin sign and the dotted capital I have such. *)
Definition normalise_char (c : Z) : list Z :=
  if within 65 90 c then [c + 32]
  else if within 97 122 c || within 48 57 c then [c]
  else if c =? 0x212A then [107]
  else if c =? 0x130 then [105]
  else [].
Definition normalise_recovery (code : list Z) : list Z := trim code ≫= normalise_char.

Definition hash (code : list Z) : list Z := b64 (sha256 (utf8_encode code)).

(** [draws i] is what the [i]-th [random_code] draws. *)
Definition regenerate_recovery_codes (now : Z) (id : Uuid) (draws : nat -> list Z) (rnd : Random) (tenant user : Uuid)
    (st : MfaState) : result CredError (list (list Z)) * MfaState :=
  let codes := random_code ∘ draws <$> seq 0 RECOVERY_CODE_COUNT in
  let data := mkRecoveryData ((fun c => mkRecoveryCode (hash (normalise_recovery c)) None) <$> codes) in
  match seal_secret rnd (m_keys st) tenant id data with
  | Err e => (Err e, st)
  | Ok blob =>
      let rows := delete_of_type tenant user KIND_RECOVERY (m_creds st) in
      let row := mkCredRow id tenant user KIND_RECOVERY (Some (ascii_bytes "Recovery codes")) blob now None None in
      (Ok codes, set_creds (rows ++ [row]) st)
  end.

(** The last unused code with the hash. *)
Fixpoint last_hit (wanted : list Z) (i : nat) (codes : list RecoveryCode) (hit : option nat) : option nat :=
  match codes with
  | [] => hit
  | c :: codes =>
      last_hit wanted (S i) codes
        (if bool_decide (rc_hash c = wanted) && bool_decide (rc_used_at c = None) then Some i else hit)
  end.

Definition spend (now : Z) (i : nat) (d : RecoveryData) : RecoveryData :=
  mkRecoveryData (alter (fun c => mkRecoveryCode (rc_hash c) (Some now)) i (rd_codes d)).
Definition unused (d : RecoveryData) : Z := zlen (filter (fun c => rc_used_at c = None) (rd_codes d)).

(** The rest of [verify_recovery] once the rows are read. *)
Fixpoint verify_recovery_rows (now : Z) (rnd : Random) (tenant user : Uuid) (wanted : list Z) (rows : list CredRow)
    (st : MfaState) : result CredError (option Verified) * MfaState :=
  match rows with
  | [] => (Ok None, st)
  | row :: rows =>
      let '(r, k) := open_secret now (m_keys st) tenant (cr_id row) (cr_data row) in
      let st := set_kstate k st in
      match r with
      | Err e => (Err e, st)
      | Ok data =>
          match last_hit wanted 0 (rd_codes data) None with
          | None => verify_recovery_rows now rnd tenant user wanted rows st
          | Some i =>
              let data := spend now i data in
              let remaining := unused data in
              match seal_secret rnd (m_keys st) tenant (cr_id row) data with
              | Err e => (Err e, st)
              | Ok blob =>
                  let st := set_creds (update_data now tenant (cr_id row) blob (m_creds st)) st in
                  (Ok (Some (VRecoveryCode remaining)),
                   publish tenant user ("recovery code used, " ++ pretty remaining ++ " left") st)
              end
          end
      end
  end.

Definition verify_recovery (now : Z) (rnd : Random) (tenant user : Uuid) (code : list Z) (st : MfaState)
    : result CredError (option Verified) * MfaState :=
  let normalised := normalise_recovery code in
  if negb (zlen (utf8_encode normalised) =? RECOVERY_CODE_LEN) then (Ok None, st)
  else
    verify_recovery_rows now rnd tenant user (hash normalised)
      (list_secrets_of_type tenant user KIND_RECOVERY (m_creds st)) st.

(** [verify]. *)
Definition verify (now : Z) (rnd : Random) (tenant user : Uuid) (code : list Z) (st : MfaState)
    : result CredError (option Verified) * MfaState :=
  let trimmed := trim code in
  if (zlen (utf8_encode trimmed) =? DIGITS) && forallb is_ascii_digit (utf8_encode trimmed)
  then verify_totp now tenant user trimmed st
  else verify_recovery now rnd tenant user trimmed st.

(** *** Enrolment *)

Definition new_secret (bytes : list Z) : list Z := base32_encode bytes.

Record Enrolment := mkEnrolment { e_secret : list Z; e_otpauth_uri : list Z; e_issuer : list Z; e_account : list Z;
  e_digits : Z; e_period : Z }.

(** What the labels are made of: the tenant's display name and slug, the
    user's email and name. *)
Record Names := mkNames { display_name : list Z; slug : list Z; email : option (list Z); username : list Z }.
Definition issuer_of (n : Names) : list Z := label_safe (display_name n) (slug n).
Definition account_of (n : Names) : list Z := label_safe (default (username n) (email n)) (ascii_bytes "user").

(** [begin_enrolment], with the twenty bytes drawn. *)
Definition begin_enrolment (now : Z) (bytes : list Z) (tenant flow : Uuid) (names : Names) (st : MfaState)
    : result CredError Enrolment * MfaState :=
  let k := totp_enrolment tenant flow in
  let fresh := new_secret bytes in
  let '(claimed, db) := vset_nx now k (to_json (mkPendingEnrolment fresh)) (ENROLMENT_TTL_SECS * 1000) (m_redis st) in
  let st := set_redis db st in
  let secret := if claimed then Ok fresh
    else ok_or (pe_secret <$> (load_json now k (m_redis st) : option PendingEnrolment)) MUnavailable in
  (let? secret := secret in
   let? totp := build secret (issuer_of names) (account_of names) in
   Ok (mkEnrolment secret (to_url totp) (issuer_of names) (account_of names) DIGITS PERIOD_SECS), st).

Definition clean_label (label : option (list Z)) : list Z :=
  match trim <$> label with
  | Some (c :: l) => take 80 (c :: l)
  | _ => DEFAULT_LABEL
  end.

Definition confirm_enrolment (now : Z) (id rec_id : Uuid) (draws : nat -> list Z) (rnd rnd' : Random)
    (tenant flow user : Uuid) (code : list Z) (label : option (list Z)) (st : MfaState)
    : result CredError (option (list (list Z))) * MfaState :=
  let k := totp_enrolment tenant flow in
  match vget now k (m_redis st) with
  | None => (Err MBadRequest, st)
  | Some raw =>
      match (from_json raw : option PendingEnrolment) with
      | None => (Err MSerde, st)
      | Some pending =>
          match build (pe_secret pending) [] [] with
          | Err e => (Err e, st)
          | Ok totp =>
              match check_current hmac_sha1 totp (trim code) now with
              | None => (Ok None, st)
              | Some step =>
                  match seal_secret rnd (m_keys st) tenant id (mkTotpData (pe_secret pending) DIGITS PERIOD_SECS) with
                  | Err e => (Err e, st)
                  | Ok blob =>
                      let row := mkCredRow id tenant user KIND_TOTP (Some (clean_label label)) blob now None None in
                      let st := set_creds (m_creds st ++ [row]) st in
                      let '(_, st) := mark_step_used now tenant id step st in
                      let st := set_redis (vdel now k (m_redis st)) st in
                      match regenerate_recovery_codes now rec_id draws rnd' tenant user st with
                      | (Err e, st) => (Err e, st)
                      | (Ok codes, st) => (Ok (Some codes), publish tenant user "TOTP enrolled" st)
                      end
                  end
              end
          end
      end
  end.

(** *** Removal and reports *)

Definition remove_credential (tenant user id : Uuid) (second_factors_only : bool) (st : MfaState)
    : option string * MfaState :=
  let rows := list_for_user tenant user (m_creds st) in
  match List.find (fun c => cr_id c =? id) rows with
  | None => (None, st)
  | Some row =>
      let second_factor := bool_decide (cr_kind row ∈ SECOND_FACTOR_KINDS) in
      if second_factors_only && negb second_factor then (None, st)
      else
        let creds := delete_cred tenant user id (m_creds st) in
        let others := zlen (filter (fun c => cr_id c <> id /\ cr_kind c ∈ SECOND_FACTOR_KINDS) rows) in
        let creds := if second_factor && (others =? 0) then delete_of_type tenant user KIND_RECOVERY creds else creds in
        (Some (cr_kind row), set_creds creds st)
  end.

Definition factors_any (f : Factors) : bool := f_totp f || f_webauthn f || f_email f || f_sms f.

Definition has_second_factor (tenant user : Uuid) (st : MfaState) : bool :=
  0 <? count_of_types tenant user SECOND_FACTOR_KINDS (m_creds st).

Fixpoint count_recovery (now : Z) (tenant : Uuid) (k : kstate) (rows : list CredRow) (n : Z)
    : result CredError Z * kstate :=
  match rows with
  | [] => (Ok n, k)
  | row :: rows =>
      match open_secret now k tenant (cr_id row) (cr_data row) with
      | (Ok data, k) => count_recovery now tenant k rows (n + unused data)
      | (Err e, k) => (Err e, k)
      end
  end.
Definition factors_of (now : Z) (tenant user : Uuid) (st : MfaState) : result CredError Factors * MfaState :=
  let rows := list_for_user tenant user (m_creds st) in
  let has kind := existsb (fun c => bool_decide (cr_kind c = kind)) rows in
  let '(r, k) := count_recovery now tenant (m_keys st) (list_secrets_of_type tenant user KIND_RECOVERY (m_creds st)) 0 in
  (let? n := r in Ok (mkFactors (has KIND_TOTP) (has KIND_WEBAUTHN) (has KIND_EMAIL) (has KIND_SMS) n), set_kstate k st).
End mfa.

(** ** A time step is accepted once *)

Section steps.
Context `{ValkeyLaws} `{UuidDisplay}.

Lemma used_step_inj t c s t' c' s' :
  totp_used_step t c s = totp_used_step t' c' s' -> t = t' /\ c = c' /\ s = s'.
Proof.
  unfold totp_used_step. intros E. key_inv. split_and!; [done|done|]. by apply (inj pretty).
Qed.

Lemma used_step_enrolment t c s t' f : totp_used_step t c s <> totp_enrolment t' f.
Proof. unfold totp_used_step, totp_enrolment. intros E. by key_inv. Qed.
End steps.

(** The window a code is looked for in, in milliseconds. *)
Lemma check_window hmac a code now s :
  0 <= now -> check_current hmac a code now = Some s -> 30000 * (s - 1) <= now < 30000 * (s + 2).
Proof.
  intros Hn. unfold check_current, check. rewrite (Z.max_r 0 (now / 1000)) by (apply Z.div_pos; lia).
  destruct (_ || _); [done|]. intros [Hin _]%find_some. apply list_elem_of_In, elem_of_seqZ in Hin.
  unfold PERIOD_SECS, SKEW in *. pose proof (Z.div_pos now 1000 Hn ltac:(lia)).
  Z.to_euclidean_division_equations. lia.
Qed.

Section history.
Context `{ValkeyLaws} `{UuidDisplay} `{KeyEncryptor} `{!Serde PendingEnrolment} `{!Serde ()}.
Context `{!JsonBytes TotpData} `{!JsonBytes RecoveryData}.
Context (hmac_sha1 : list Z -> list Z -> list Z) (sha256 : list Z -> list Z) (b64 : list Z -> list Z).

(** Requests, with what each draws. *)
Inductive MfaOp :=
| OpVerify (tenant user : Uuid) (code : list Z) (rnd : Random)
| OpBegin (bytes : list Z) (tenant flow : Uuid) (names : Names)
| OpConfirm (id rec_id : Uuid) (draws : nat -> list Z) (rnd rnd' : Random) (tenant flow user : Uuid)
    (code : list Z) (label : option (list Z))
| OpRegenerate (id : Uuid) (draws : nat -> list Z) (rnd : Random) (tenant user : Uuid)
| OpRemove (tenant user id : Uuid) (second_factors_only : bool)
| OpFactors (tenant user : Uuid).

Definition run_op (now : Z) (op : MfaOp) (st : MfaState) : MfaState :=
  match op with
  | OpVerify t u code rnd => (verify hmac_sha1 sha256 b64 now rnd t u code st).2
  | OpBegin bytes t f names => (begin_enrolment now bytes t f names st).2
  | OpConfirm id rid draws rnd rnd' t f u code label =>
      (confirm_enrolment hmac_sha1 sha256 b64 now id rid draws rnd rnd' t f u code label st).2
  | OpRegenerate id draws rnd t u => (regenerate_recovery_codes sha256 b64 now id draws rnd t u st).2
  | OpRemove t u id only => (remove_credential t u id only st).2
  | OpFactors t u => (factors_of now t u st).2
  end.

(** The authenticator and the step a sign-in code was accepted for. *)
Definition accepted (now : Z) (op : MfaOp) (st : MfaState) : option (Uuid * Uuid * Z) :=
  match op with
  | OpVerify t u code rnd =>
      match (verify hmac_sha1 sha256 b64 now rnd t u code st).1 with
      | Ok (Some (VTotp _)) =>
          match (find_step hmac_sha1 now t (trim code) (m_keys st)
                   (list_secrets_of_type t u KIND_TOTP (m_creds st))).1 with
          | Ok (Some (cred, step)) => Some (t, cred, step)
          | _ => None
          end
      | _ => None
      end
  | _ => None
  end.

Fixpoint acceptances (t cred : Uuid) (step : Z) (ops : list (Z * MfaOp)) (st : MfaState) : nat :=
  match ops with
  | [] => 0
  | (now, op) :: ops =>
      ((if bool_decide (accepted now op st = Some (t, cred, step)) then 1 else 0)
       + acceptances t cred step ops (run_op now op st))%nat
  end.

(** The step's mark is in the store from [now] until [until]. *)
Definition marked (t cred : Uuid) (step now until : Z) (db : vdb) : Prop :=
  forall now', now <= now' < until -> is_Some (vget now' (totp_used_step t cred step) db).

Lemma marked_later t cred step now now' until db :
  now <= now' -> marked t cred step now until db -> marked t cred step now' until db.
Proof. intros Hn Hm n Hb. apply Hm. lia. Qed.

(** Claiming a key keeps every mark. *)
Lemma marked_nx t cred step now until k v ttl db :
  0 < ttl -> now < until -> marked t cred step now until db -> marked t cred step now until (vset_nx now k v ttl db).2.
Proof.
  intros Ht Hu Hm. unfold vset_nx. destruct (vget now k db) eqn:E; [done|]. cbn. intros n Hb.
  destruct (decide (k = totp_used_step t cred step)) as [->|Hne].
  - destruct (Hm now ltac:(lia)) as [x Hx]. congruence.
  - rewrite vget_set_ne by done. by apply Hm.
Qed.

Lemma verify_recovery_redis now rnd t u code st : m_redis (verify_recovery sha256 b64 now rnd t u code st).2 = m_redis st.
Proof.
  unfold verify_recovery. destruct (negb _); [done|]. generalize (list_secrets_of_type t u KIND_RECOVERY (m_creds st)).
  intros rows. revert st. induction rows as [|row rows IH]; intros st; cbn [verify_recovery_rows]; [done|].
  destruct (open_secret _ _ _ _ _) as [[d|e] k]; [|done]. destruct (last_hit _ _ _ _); [|by rewrite IH].
  by destruct (seal_secret _ _ _ _ _).
Qed.

Lemma regenerate_redis now id draws rnd t u st :
  m_redis (regenerate_recovery_codes sha256 b64 now id draws rnd t u st).2 = m_redis st.
Proof. unfold regenerate_recovery_codes. by destruct (seal_secret _ _ _ _ _). Qed.

(** What [verify_totp] does to the store and when it accepts. *)
Lemma verify_totp_redis now t u code st :
  let f := (find_step hmac_sha1 now t code (m_keys st) (list_secrets_of_type t u KIND_TOTP (m_creds st))).1 in
  match f with
  | Ok (Some (cred, step)) =>
      let m := vset_nx now (totp_used_step t cred step) (to_json ()) 90000 (m_redis st) in
      m_redis (verify_totp hmac_sha1 now t u code st).2 = m.2
      /\ ((verify_totp hmac_sha1 now t u code st).1 = if m.1 then Ok (Some (VTotp cred)) else Ok None)
  | _ => m_redis (verify_totp hmac_sha1 now t u code st).2 = m_redis st
         /\ forall cred, (verify_totp hmac_sha1 now t u code st).1 <> Ok (Some (VTotp cred))
  end.
Proof.
  unfold verify_totp. destruct (find_step _ _ _ _ _ _) as [[[[cred step]|]|e] k]; cbn [fst snd]; [|done..].
  unfold mark_step_used. cbn [set_kstate m_redis]. change (PERIOD_SECS * (2 * SKEW + 1) * 1000) with 90000.
  by destruct (vset_nx _ _ _ _ _) as [[] db].
Qed.

Lemma find_step_window now t code k rows cred step :
  0 <= now -> (find_step hmac_sha1 now t code k rows).1 = Ok (Some (cred, step)) ->
  30000 * (step - 1) <= now < 30000 * (step + 2).
Proof.
  intros Hn. revert k. induction rows as [|row rows IH]; intros k; cbn [find_step]; [done|].
  destruct (open_secret _ _ _ _ _) as [[d|e] k']; [|done]. destruct (build _ _ _) as [a|]; [|done].
  destruct (check_current _ _ _ _) as [s|] eqn:E; [|apply IH]. cbn. intros [= _ <-]. by eapply check_window.
Qed.

(** A mark survives every request. *)
Lemma marked_op t cred step now until op st :
  marked t cred step now until (m_redis st) -> marked t cred step now until (m_redis (run_op now op st)).
Proof.
  intros Hm. destruct (Z.lt_ge_cases now until) as [Hu|Hu]; [|intros n; lia].
  assert (forall k v ttl db, 0 < ttl -> marked t cred step now until db ->
    marked t cred step now until (vset_nx now k v ttl db).2) as Hnx by (intros; by apply marked_nx).
  destruct op as [t' u code rnd|bytes t' f names|id rid draws rnd rnd' t' f u code label|id draws rnd t' u|t' u id only|t' u];
    cbn [run_op].
  - unfold verify. destruct (_ && _); [|by rewrite verify_recovery_redis].
    pose proof (verify_totp_redis now t' u (trim code) st) as Hv. cbv zeta in Hv.
    destruct (find_step _ _ _ _ _ _).1 as [[[c s]|]|e]; destruct Hv as [-> _]; [by apply Hnx|done..].
  - unfold begin_enrolment. pose proof (Hnx (totp_enrolment t' f) (to_json (mkPendingEnrolment (new_secret bytes)))
      (ENROLMENT_TTL_SECS * 1000) (m_redis st) eq_refl Hm) as Hb.
    by destruct (vset_nx _ _ _ _ _) as [c db].
  - unfold confirm_enrolment. destruct (vget _ _ _); [|done]. destruct (from_json _); [|done].
    destruct (build _ _ _); [|done]. destruct (check_current _ _ _ _) as [s|]; [|done].
    destruct (seal_secret _ _ _ _ _) as [blob|]; [|done]. unfold mark_step_used.
    cbn [set_creds m_redis m_creds m_keys m_events].
    pose proof (Hnx (totp_used_step t' id s) (to_json ()) (PERIOD_SECS * (2 * SKEW + 1) * 1000) (m_redis st) eq_refl Hm) as Hb.
    destruct (vset_nx _ _ _ _ _) as [c db]. cbn [snd] in Hb.
    assert (marked t cred step now until (vdel now (totp_enrolment t' f) db)) as Hd.
    { intros n Hn'. rewrite vget_del_ne; [by apply Hb|]. intros E. by apply (used_step_enrolment t cred step t' f). }
    set (st1 := set_redis _ _). pose proof (regenerate_redis now rid draws rnd' t' u st1) as Hrr.
    destruct (regenerate_recovery_codes _ _ _ _ _ _ _ _ st1) as [[codes|e] st2]; cbn [snd] in *; cbn [publish m_redis];
      by rewrite Hrr.
  - by rewrite regenerate_redis.
  - unfold remove_credential. destruct (List.find _ _); [|done]. by destruct (_ && negb _).
  - unfold factors_of. by destruct (count_recovery _ _ _ _ _).
Qed.

Lemma verify_recovery_not_totp now rnd t u code st c :
  (verify_recovery sha256 b64 now rnd t u code st).1 <> Ok (Some (VTotp c)).
Proof.
  unfold verify_recovery. destruct (negb _); [done|]. generalize (list_secrets_of_type t u KIND_RECOVERY (m_creds st)).
  intros rows. revert st. induction rows as [|row rows IH]; intros st; cbn [verify_recovery_rows]; [done|].
  destruct (open_secret _ _ _ _ _) as [[d|e] k]; [|done]. destruct (last_hit _ _ _ _); [|apply IH].
  by destruct (seal_secret _ _ _ _ _).
Qed.

(** What an acceptance needs and leaves. *)
Lemma accepted_spec now op st t cred step :
  0 <= now -> accepted now op st = Some (t, cred, step) ->
  30000 * (step - 1) <= now < 30000 * (step + 2)
  /\ vget now (totp_used_step t cred step) (m_redis st) = None
  /\ marked t cred step now (now + 90000) (m_redis (run_op now op st)).
Proof.
  intros Hn. destruct op as [t' u code rnd| | | | |]; [|done..]. cbn [accepted run_op]. unfold verify.
  destruct (_ && _).
  2: { pose proof (verify_recovery_not_totp now rnd t' u (trim code) st) as Hno.
       destruct (verify_recovery _ _ _ _ _ _ _ _).1 as [[[c|]|]|]; try done. by destruct (Hno c). }
  pose proof (verify_totp_redis now t' u (trim code) st) as Hv. cbv zeta in Hv.
  destruct (find_step _ _ _ _ _ _).1 as [[[c s]|]|e] eqn:Ef.
  2-3: destruct Hv as [_ Hv]; intros Ha; destruct (verify_totp _ _ _ _ _ _).1 as [[[c|]|]|] eqn:E; try done.
  destruct Hv as [Hr Ha]. rewrite Ha, Hr. unfold vset_nx.
  destruct (vget now (totp_used_step t' c s) (m_redis st)) eqn:Eg; cbn [fst snd]; [done|].
  intros [= -> -> ->]. split_and!; [by eapply find_step_window; [|exact Ef]..|done|].
  intros n Hb. rewrite vget_set by lia. rewrite (proj2 (Z.ltb_lt _ _)) by lia. by eexists.
Qed.

(** While the mark stands for the rest of the step's window, the step is not
    accepted again. *)
Lemma no_acceptance t cred step now until ops st :
  0 <= now -> 30000 * (step + 2) <= until -> marked t cred step now until (m_redis st) ->
  StronglySorted Z.le (now :: ops.*1) -> acceptances t cred step ops st = 0%nat.
Proof.
  intros Hn Hu. revert now st Hn. induction ops as [|[now' op] ops IH]; intros now st Hn Hm Hs; [done|].
  cbn [acceptances fmap list_fmap fst] in *. apply StronglySorted_cons in Hs as [Hle Hs].
  apply Forall_cons in Hle as [Hle _]. assert (0 <= now') as Hn' by lia. pose proof (marked_later _ _ _ _ _ _ _ Hle Hm) as Hm'.
  rewrite (IH now' _ Hn' (marked_op _ _ _ _ _ op _ Hm') Hs), Nat.add_0_r.
  destruct (bool_decide _) eqn:E; [|done]. bool_hyps.
  destruct (accepted_spec _ _ _ _ _ _ Hn' E) as (Hw & Hv & _).
  destruct (Hm now' ltac:(lia)) as [x Hx]. congruence.
Qed.
End history.

(** C23: Replay protection: of all sign-ins over any history of requests (sign-ins,
    enrolments, new recovery codes, removals, in the order the store sees them),
    at most one is accepted for one authenticator and one time step. The mark
    a sign-in leaves lives exactly as long as the step can still be presented. *)
Theorem totp_step_once `{ValkeyLaws} `{UuidDisplay} `{KeyEncryptor} `{!Serde PendingEnrolment} `{!Serde ()}
    `{!JsonBytes TotpData} `{!JsonBytes RecoveryData} hmac_sha1 sha256 b64 t cred step now ops st :
  0 <= now -> StronglySorted Z.le (now :: ops.*1) ->
  (acceptances hmac_sha1 sha256 b64 t cred step ops st <= 1)%nat.
Proof.
  revert now st. induction ops as [|[now' op] ops IH]; intros now st Hn Hs; [cbn; lia|].
  cbn [acceptances fmap list_fmap fst] in *. apply StronglySorted_cons in Hs as [Hle Hs].
  apply Forall_cons in Hle as [Hle _]. assert (0 <= now') as Hn' by lia. destruct (bool_decide _) eqn:E; bool_hyps.
  - destruct (accepted_spec _ _ _ _ _ _ _ _ _ Hn' E) as (Hw & _ & Hm).
    assert (30000 * (step + 2) <= now' + 90000) as Hu by lia.
    rewrite (no_acceptance _ _ _ _ _ _ now' _ _ _ Hn' Hu Hm Hs). lia.
  - apply (IH now'); [lia|done].
Qed.

(** ** One secret per enrolment *)

Section enrolment.
Context `{ValkeyLaws} `{UuidDisplay} `{KeyEncryptor} `{!Serde PendingEnrolment}.

(** What a begun enrolment shows is what the slot holds. *)
Lemma begin_slot now bytes t f names st e st' now' raw :
  begin_enrolment now bytes t f names st = (Ok e, st') -> now <= now' ->
  vget now' (totp_enrolment t f) (m_redis st') = Some raw ->
  pe_secret <$> (from_json raw : option PendingEnrolment) = Some (e_secret e)
  /\ exists a, base32_decode (e_secret e) = Some a /\ a <> [].
Proof.
  unfold begin_enrolment, vset_nx, load_json. intros Hb Hle Hv.
  assert (forall s, (let? totp := build s (issuer_of names) (account_of names) in
      Ok (mkEnrolment s (to_url totp) (issuer_of names) (account_of names) DIGITS PERIOD_SECS)) = Ok e ->
    e_secret e = s /\ exists a, base32_decode s = Some a /\ a <> []) as Hbuild.
  { intros s. unfold build. destruct (base32_decode s) as [[|b l]|]; cbn; [done| |done]. intros [= <-]. eauto. }
  destruct (vget now (totp_enrolment t f) (m_redis st)) as [raw0|] eqn:Eg; cbn [set_redis m_redis] in Hb.
  - destruct st as [db creds ks ev]. cbn [m_redis set_redis m_creds m_keys m_events] in *. injection Hb as Hb Hst. subst st'.
    cbn [m_redis] in Hv. rewrite Eg in Hb. pose proof (vget_earlier now now' _ raw db Hle Hv) as Hv'.
    assert (raw = raw0) as -> by congruence. cbn [mbind option_bind] in Hb.
    destruct (from_json raw0) as [p|]; cbn in Hb; [|done]. destruct (Hbuild _ Hb) as [-> ?]. done.
  - injection Hb as Hb Hst. subst st'. cbn [set_redis m_redis] in Hv. rewrite vget_set in Hv by (done || cbn; lia).
    destruct (now' <? _); [|done]. injection Hv as <-. rewrite from_to_json. destruct (Hbuild _ Hb) as [-> ?]. done.
Qed.
End enrolment.

(** Requests that begin the same enrolment all show one secret: as long as
    the slot lives, a later request, whatever it draws, answers with the
    secret the first one showed. *)
Theorem enrolment_one_secret `{ValkeyLaws} `{UuidDisplay} `{KeyEncryptor} `{!Serde PendingEnrolment}
    (now now' : Z) (bytes bytes' : list Z) (t f : Uuid) (names names' : Names) (st st' : MfaState) (e : Enrolment) :
  begin_enrolment now bytes t f names st = (Ok e, st') -> now <= now' ->
  is_Some (vget now' (totp_enrolment t f) (m_redis st')) ->
  exists e', begin_enrolment now' bytes' t f names' st' = (Ok e', st') /\ e_secret e' = e_secret e.
Proof.
  intros Hb Hle [raw Hv]. destruct (begin_slot _ _ _ _ _ _ _ _ _ _ Hb Hle Hv) as [Hp (a & Ha & Hne)].
  unfold begin_enrolment, vset_nx, load_json. rewrite Hv. destruct st' as [db creds ks ev].
  cbn [m_redis set_redis m_creds m_keys m_events] in *. rewrite Hv. cbn [mbind option_bind]. rewrite Hp. cbn [ok_or].
  cbn. unfold build. rewrite Ha. destruct a as [|b a]; [done|]. by eexists.
Qed.

(** ** Recovery codes *)

(** The codes of the set that still answer to the hash. *)
Definition answers (wanted : list Z) (c : RecoveryCode) : Prop := rc_hash c = wanted /\ rc_used_at c = None.
#[export] Instance answers_dec wanted c : Decision (answers wanted c).
Proof. unfold answers. apply _. Defined.
Definition answering (wanted : list Z) (d : RecoveryData) : nat := length (filter (answers wanted) (rd_codes d)).

Lemma last_hit_spec wanted i codes hit :
  (exists j c, last_hit wanted i codes hit = Some (i + j)%nat /\ codes !! j = Some c /\ answers wanted c)
  \/ (last_hit wanted i codes hit = hit /\ Forall (fun c => ~ answers wanted c) codes).
Proof.
  revert i hit. induction codes as [|c codes IH]; intros i hit; cbn [last_hit]; [by right; split; [|constructor]|].
  destruct (IH (S i) (if bool_decide (rc_hash c = wanted) && bool_decide (rc_used_at c = None) then Some i else hit))
    as [(j & c' & -> & Hl & Ha)|[-> Hn]].
  { left. exists (S j), c'. split; [f_equal; lia|by split]. }
  destruct (bool_decide (rc_hash c = wanted)) eqn:E1; cbn [andb]; bool_hyps.
  2: { right. split; [done|]. constructor; [|done]. by intros [? _]. }
  destruct (bool_decide (rc_used_at c = None)) eqn:E2; bool_hyps.
  - left. exists 0%nat, c. split; [f_equal; lia|by split].
  - right. split; [done|]. constructor; [|done]. by intros [_ ?].
Qed.

Lemma spend_answering now i d c wanted w :
  rd_codes d !! i = Some c -> answers wanted c ->
  answering w (spend now i d) = if decide (w = wanted) then pred (answering w d) else answering w d.
Proof.
  intros Hl [Ha Hu]. unfold answering, spend. cbn [rd_codes]. destruct (list_elem_of_split_length _ _ _ Hl) as (l1 & l2 & Ed & Hi).
  rewrite Ed, Hi. rewrite <- (Nat.add_0_r (length l1)) at 1. rewrite alter_app_r. cbn [alter list_alter].
  rewrite !filter_app, !filter_cons, !length_app.
  rewrite (decide_False (P := answers w (mkRecoveryCode _ _))) by (by intros [_ ?]).
  destruct (decide (w = wanted)) as [->|Hne].
  - rewrite (decide_True (P := answers wanted c)) by done. cbn [length]. lia.
  - rewrite (decide_False (P := answers w c)) by (intros [? _]; congruence). done.
Qed.

Lemma answering_pos wanted i d c : rd_codes d !! i = Some c -> answers wanted c -> (0 < answering wanted d)%nat.
Proof.
  intros Hi Ha. unfold answering. apply list_elem_of_lookup_2 in Hi.
  assert (c ∈ filter (answers wanted) (rd_codes d)) as Hf by by apply list_elem_of_filter.
  destruct (filter _ _); [by apply elem_of_nil in Hf|cbn; lia].
Qed.

Section recovery.
Context `{Valkey} `{UuidDisplay} `{KeyEncryptorLaws} `{!JsonBytes RecoveryData}.
Context (sha256 : list Z -> list Z) (b64 : list Z -> list Z).

(** The user has one set of recovery codes, readable, with contents [d]. *)
Definition has_codes (st : MfaState) (tenant user : Uuid) (d : RecoveryData) : Prop :=
  ke_ok (m_keys st)
  /\ exists row, list_secrets_of_type tenant user KIND_RECOVERY (m_creds st) = [row]
       /\ holds (m_keys st) tenant (cr_id row) (cr_data row) d.


Lemma has_codes_update st k now t u row blob d' what :
  ke_ok k -> ke_le (m_keys st) k -> list_secrets_of_type t u KIND_RECOVERY (m_creds st) = [row] ->
  holds k t (cr_id row) blob d' ->
  has_codes (publish t u what (set_creds (update_data now t (cr_id row) blob (m_creds st)) (set_kstate k st))) t u d'.
Proof.
  intros Hk Hle Hl Hh. split; [done|]. cbn [publish set_creds set_kstate m_creds m_keys].
  destruct (list_secrets_update now t u KIND_RECOVERY (cr_id row) blob (m_creds st) row Hl) as (row' & Hr & Hid & Hd).
  exists row'. split; [done|]. by rewrite Hid, Hd.
Qed.

(** Every branch of [verify_recovery] on a readable set. *)
Lemma verify_recovery_spec now rnd t u code st d :
  random_ok rnd -> has_codes st t u d ->
  let o := verify_recovery sha256 b64 now rnd t u code st in
  match o.1 with
  | Ok (Some v) => exists i c, rd_codes d !! i = Some c /\ answers (hash sha256 b64 (normalise_recovery code)) c
      /\ v = VRecoveryCode (unused (spend now i d)) /\ has_codes o.2 t u (spend now i d)
  | _ => has_codes o.2 t u d
  end.
Proof.
  intros Hr Hc. pose proof Hc as (Hk & row & Hl & Hh). unfold verify_recovery.
  destruct (negb _); [exact Hc|]. rewrite Hl. cbn [verify_recovery_rows].
  destruct (Hh now (m_keys st) (ke_le_refl _) Hk) as (k & -> & Hk' & Hle).
  assert (has_codes (set_kstate k st) t u d) as Hsame.
  { split; [done|]. exists row. split; [done|]. by apply (holds_later (m_keys st)). }
  destruct (last_hit_spec (hash sha256 b64 (normalise_recovery code)) 0 (rd_codes d) None)
    as [(j & c & -> & Hj & Ha)|[-> _]]; [|exact Hsame].
  cbn [Nat.add]. cbn [set_kstate m_keys]. destruct (seal_secret rnd k t (cr_id row) _) as [blob|e] eqn:Es; [|exact Hsame].
  cbn [fst snd]. exists j, c. split_and!; [done..|].
  apply (has_codes_update st k now t u row); [done..|]. by apply (seal_holds rnd).
Qed.

(** How often the user got in with a code of the hash, over tries at [now]
    with [rnd] drawn. *)
Fixpoint redemptions (t u : Uuid) (wanted : list Z) (tries : list (Z * Random * list Z)) (st : MfaState) : nat :=
  match tries with
  | [] => 0
  | (now, rnd, code) :: tries =>
      let o := verify_recovery sha256 b64 now rnd t u code st in
      ((match o.1 with
        | Ok (Some _) => if bool_decide (hash sha256 b64 (normalise_recovery code) = wanted) then 1 else 0
        | _ => 0
        end) + redemptions t u wanted tries o.2)%nat
  end.
End recovery.

(** Each recovery code is single-use: over any sequence of tries, the user
    gets in with codes of one hash at most as often as the set holds unused
    codes of that hash, each try reading what the one before it stored. *)
Theorem recovery_single_use `{Valkey} `{UuidDisplay} `{KeyEncryptorLaws} `{!JsonBytes RecoveryData} sha256 b64
    (t u : Uuid) (wanted : list Z) (tries : list (Z * Random * list Z)) (st : MfaState) (d : RecoveryData) :
  Forall (fun a => random_ok a.1.2) tries -> has_codes st t u d ->
  (redemptions sha256 b64 t u wanted tries st <= answering wanted d)%nat.
Proof.
  intros Hr. revert st d. induction Hr as [|[[now rnd] code] tries Hr _ IH]; intros st d Hc; cbn [redemptions]; [lia|].
  pose proof (verify_recovery_spec sha256 b64 now rnd t u code st d Hr Hc) as Hv. cbv zeta in Hv.
  destruct (verify_recovery _ _ _ _ _ _ _ _).1 as [[v|]|e]; [|by apply IH..].
  destruct Hv as (i & c & Hi & Ha & _ & Hc'). specialize (IH _ _ Hc').
  rewrite (spend_answering now i d c _ wanted Hi Ha) in IH. destruct (bool_decide _) eqn:E; bool_hyps.
  - rewrite decide_True in IH by done. subst wanted. pose proof (answering_pos _ _ _ _ Hi Ha). lia.
  - rewrite decide_False in IH by congruence. lia.
Qed.

(** *** Fresh codes *)

Lemma alphabet_plain :
  Forall (fun c => normalise_char c = [c] /\ is_whitespace c = false /\ utf8_char c = [c]) RECOVERY_ALPHABET.
Proof. decide_now. Qed.

Definition code_letters (bytes : list Z) : list Z :=
  (fun b => nth (Z.to_nat (b mod 32)) RECOVERY_ALPHABET 0) <$> bytes.

Lemma code_letters_plain bytes :
  Forall (fun c => normalise_char c = [c] /\ is_whitespace c = false /\ utf8_char c = [c]) (code_letters bytes).
Proof.
  unfold code_letters. apply Forall_fmap, Forall_forall. intros b _. unfold compose.
  pose proof alphabet_plain as Ha. rewrite Forall_forall in Ha. apply Ha, list_elem_of_In, nth_In.
  pose proof (Z.mod_pos_bound b 32 ltac:(lia)). change (length RECOVERY_ALPHABET) with 32%nat. lia.
Qed.

Lemma bind_plain (f : Z -> list Z) l : Forall (fun c => f c = [c]) l -> l ≫= f = l.
Proof. induction 1 as [|c l Hc _ IH]; [done|]. by rewrite bind_cons, Hc, IH. Qed.

(** A printed code is read back to its letters. *)
Lemma normalise_random_code bytes : normalise_recovery (random_code bytes) = code_letters bytes.
Proof.
  unfold normalise_recovery, random_code. fold (code_letters bytes). pose proof (code_letters_plain bytes) as Hp.
  assert (forall f, (forall c, normalise_char c = [c] /\ is_whitespace c = false /\ utf8_char c = [c] -> f c) ->
    Forall f (take 5 (code_letters bytes)) /\ Forall f (drop 5 (code_letters bytes))) as Hf.
  { intros f Hf. split; [apply Forall_take|apply Forall_drop]; by eapply Forall_impl. }
  rewrite trim_plain.
  - rewrite !bind_app. destruct (Hf (fun c => normalise_char c = [c])) as [H1 H2]; [by intros c []|].
    rewrite (bind_plain _ _ H1), (bind_plain _ _ H2). apply take_drop.
  - destruct (Hf (fun c => is_whitespace c = false)) as [H1 H2]; [by intros c (_ & ? & _)|].
    apply Forall_app. split; [done|]. by constructor.
Qed.

Lemma code_letters_length bytes : zlen (utf8_encode (code_letters bytes)) = zlen bytes.
Proof.
  unfold utf8_encode. rewrite bind_plain.
  - unfold zlen, code_letters. by rewrite length_fmap.
  - eapply Forall_impl; [apply code_letters_plain|]. by intros c (_ & _ & ?).
Qed.

Section fresh.
Context `{Valkey} `{UuidDisplay} `{KeyEncryptorLaws} `{!JsonBytes RecoveryData}.
Context (sha256 : list Z -> list Z) (b64 : list Z -> list Z).

Definition fresh_set (codes : list (list Z)) : RecoveryData :=
  mkRecoveryData ((fun c => mkRecoveryCode (hash sha256 b64 (normalise_recovery c)) None) <$> codes).

(** A regenerated set replaces whatever the user had. *)
Lemma regenerate_has_codes now id draws rnd t u st codes st' :
  ke_ok (m_keys st) -> random_ok rnd ->
  regenerate_recovery_codes sha256 b64 now id draws rnd t u st = (Ok codes, st') ->
  codes = random_code ∘ draws <$> seq 0 RECOVERY_CODE_COUNT /\ has_codes st' t u (fresh_set codes).
Proof.
  intros Hk Hr. unfold regenerate_recovery_codes. fold (fresh_set (random_code ∘ draws <$> seq 0 RECOVERY_CODE_COUNT)).
  destruct (seal_secret _ _ _ _ _) as [blob|] eqn:Es; [|done]. intros [= <- <-]. split; [done|]. split; [done|].
  cbn [set_creds m_creds m_keys]. eexists. split.
  - unfold list_secrets_of_type, delete_of_type. rewrite filter_app, list_filter_filter.
    rewrite filter_none by (apply Forall_forall; tauto).
    rewrite filter_cons, decide_True by done. reflexivity.
  - by apply (seal_holds rnd).
Qed.

Lemma unused_spend now i d c : rd_codes d !! i = Some c -> rc_used_at c = None -> unused (spend now i d) = unused d - 1.
Proof.
  intros Hl Hu. unfold unused, spend. cbn [rd_codes]. destruct (list_elem_of_split_length _ _ _ Hl) as (l1 & l2 & Ed & Hi).
  rewrite Ed, Hi. rewrite <- (Nat.add_0_r (length l1)) at 1. rewrite alter_app_r. cbn [alter list_alter].
  rewrite !filter_app, !filter_cons. unfold zlen. rewrite !length_app. cbn [rc_used_at].
  rewrite decide_False, decide_True by done. cbn [length]. lia.
Qed.

Lemma fresh_set_unused codes : unused (fresh_set codes) = zlen codes.
Proof.
  unfold unused, fresh_set. cbn [rd_codes]. induction codes as [|c codes IH]; [done|].
  rewrite fmap_cons, filter_cons, decide_True by done. rewrite !zlen_cons. by rewrite IH.
Qed.
End fresh.

(** A code that was just handed out opens the account: unless sealing the
    set again fails, it is accepted and nine codes are left. *)
Theorem fresh_code_accepted `{Valkey} `{UuidDisplay} `{KeyEncryptorLaws} `{!JsonBytes RecoveryData} sha256 b64
    (now now' : Z) (id : Uuid) (draws : nat -> list Z) (rnd rnd' : Random) (t u : Uuid) (st st' : MfaState)
    (codes : list (list Z)) (code : list Z) :
  ke_ok (m_keys st) -> random_ok rnd -> random_ok rnd' -> (forall i, zlen (draws i) = RECOVERY_CODE_LEN) ->
  regenerate_recovery_codes sha256 b64 now id draws rnd t u st = (Ok codes, st') -> code ∈ codes ->
  (verify_recovery sha256 b64 now' rnd' t u code st').1 = Ok (Some (VRecoveryCode 9))
  \/ (verify_recovery sha256 b64 now' rnd' t u code st').1 = Err MInternal.
Proof.
  intros Hk Hr Hr' Hd Hg Hin. destruct (regenerate_has_codes _ _ _ _ _ _ _ _ _ _ _ Hk Hr Hg) as [Hcodes (Hk' & row & Hl & Hh)].
  rewrite Hcodes in Hin. apply list_elem_of_fmap in Hin as (i & -> & Hin). unfold compose.
  set (bytes := draws i). assert (zlen bytes = RECOVERY_CODE_LEN) as Hlen by apply Hd.
  unfold verify_recovery. rewrite normalise_random_code, code_letters_length, Hlen, Z.eqb_refl. cbn [negb].
  rewrite Hl. cbn [verify_recovery_rows]. destruct (Hh now' (m_keys st') (ke_le_refl _) Hk') as (k & -> & _ & _).
  set (w := hash sha256 b64 (code_letters bytes)).
  destruct (last_hit_spec w 0 (rd_codes (fresh_set sha256 b64 codes)) None) as [(j & c & -> & Hj & Ha)|[_ Hn]].
  - cbn [Nat.add set_kstate m_keys]. destruct (seal_secret _ _ _ _ _) eqn:Es; [left|right; cbn [fst]; by rewrite (seal_err _ _ _ _ _ _ Es)].
    cbn [fst]. rewrite (unused_spend _ _ _ c) by (done || apply Ha). rewrite fresh_set_unused, Hcodes.
    unfold zlen. by rewrite length_fmap, length_seq.
  - exfalso. rewrite Forall_forall in Hn. apply (Hn (mkRecoveryCode w None)); [|done].
    unfold fresh_set. cbn [rd_codes]. rewrite Hcodes, <- list_fmap_compose. apply list_elem_of_fmap. exists i.
    split; [|done]. unfold compose. by rewrite normalise_random_code.
Qed.

(** ** Recovery codes stand beside a second factor *)

Definition kind_of (t u : Uuid) (kinds : list string) (r : CredRow) : Prop := of_user t u r /\ cr_kind r ∈ kinds.

(** Whoever has recovery codes has a factor they recover. *)
Definition backed (t u : Uuid) (rows : list CredRow) : Prop :=
  (exists r, r ∈ rows /\ kind_of t u [KIND_RECOVERY] r) -> exists r, r ∈ rows /\ kind_of t u SECOND_FACTOR_KINDS r.

Lemma list_for_user_elem t u rows r : r ∈ list_for_user t u rows <-> r ∈ rows /\ of_user t u r.
Proof. unfold list_for_user. rewrite merge_sort_Permutation, list_elem_of_filter. tauto. Qed.

Lemma find_id id rows row : List.find (fun c => cr_id c =? id) rows = Some row -> row ∈ rows /\ cr_id row = id.
Proof. intros [Hin He]%find_some. split; [by apply list_elem_of_In|lia]. Qed.

Lemma other_users t u (P : CredRow -> Prop) `{!forall r, Decision (P r)} (rows : list CredRow) :
  filter (fun r => ~ of_user t u r) (filter (fun r => ~ (of_user t u r /\ P r)) rows) = filter (fun r => ~ of_user t u r) rows.
Proof. rewrite list_filter_filter. apply list_filter_iff. intros r. tauto. Qed.

(** Removing a credential never leaves a user with recovery codes alone, so
    after the last second factor is removed the user has neither; nobody
    else's credentials change. *)
Theorem remove_keeps_backed `{Valkey} `{KeyEncryptor} (t u id : Uuid) (only : bool) (st : MfaState) :
  NoDup (cr_id <$> m_creds st) -> backed t u (m_creds st) ->
  let rows := m_creds (remove_credential t u id only st).2 in
  backed t u rows /\ filter (fun r => ~ of_user t u r) rows = filter (fun r => ~ of_user t u r) (m_creds st).
Proof.
  intros Hnd Hb. unfold remove_credential. destruct (List.find _ _) as [row|] eqn:Ef; [|done].
  apply find_id in Ef as [Hrow Hid]. apply list_for_user_elem in Hrow as [Hrow Hu].
  destruct (only && _); [done|]. cbn [set_creds snd m_creds].
  set (others := zlen _). destruct (bool_decide _ && (others =? 0)) eqn:Ed.
  { split; [|unfold delete_of_type, delete_cred; by rewrite !other_users]. intros (r & [Hn _]%list_elem_of_filter & Ho & Hk).
    destruct Hn. split; [done|]. by apply list_elem_of_singleton in Hk. }
  split; [|apply other_users]. unfold delete_cred. intros (r & [Hn Hr]%list_elem_of_filter & Hk).
  destruct Hb as (r2 & Hr2 & Ho2 & Hk2); [by exists r|].
  destruct (decide (cr_id r2 = id)) as [E|E].
  - assert (r2 = row) as -> by (apply (nodup_key_inj cr_id (m_creds st)); congruence).
    rewrite bool_decide_eq_true_2 in Ed by done. cbn [andb] in Ed. apply Z.eqb_neq in Ed. unfold others, zlen in Ed.
    destruct (filter _ _) as [|r3 l] eqn:El; [done|].
    assert (r3 ∈ r3 :: l) as H3 by apply list_elem_of_here. rewrite <- El in H3. apply list_elem_of_filter in H3 as [[Hne Hk3] H3].
    apply list_for_user_elem in H3 as [H3 Ho3]. exists r3. split; [|done]. apply list_elem_of_filter. split; [tauto|done].
  - exists r2. split; [|done]. apply list_elem_of_filter. split; [tauto|done].
Qed.

(** ** A deployment *)

Section example.

Definition mf_valkey : Valkey := map_valkey (R := PendingEnrolment + ()).
Definition mf_serde : @Serde mf_valkey PendingEnrolment :=
  {| to_json p := inl p : @raw mf_valkey;
     from_json r := match r with inl p => Some p | inr _ => None end;
     from_to_json _ := eq_refl |}.
Definition mf_serde_unit : @Serde mf_valkey () :=
  {| to_json p := inr p : @raw mf_valkey;
     from_json r := match r with inr p => Some p | inl _ => None end;
     from_to_json '() := eq_refl |}.

(** Records written as the number their fields code to. *)
Definition coded {A B} `{Countable B} (f : A -> B) (g : B -> A) (Hgf : forall a, g (f a) = a) : JsonBytes A.
Proof.
  refine {| to_vec a := [Z.pos (encode (f a))];
            from_slice l := match l with [Z.pos p] => g <$> (decode p : option B) | _ => None end |}.
  intros a. by rewrite decode_encode; cbn; rewrite Hgf.
Defined.
Definition mf_totp_json : JsonBytes TotpData :=
  coded (fun d => (td_secret d, td_digits d, td_period d)) (fun x => mkTotpData x.1.1 x.1.2 x.2)
    ltac:(by intros []).
Definition mf_pairs (d : RecoveryData) : list (list Z * option Z) := (fun c => (rc_hash c, rc_used_at c)) <$> rd_codes d.
Definition mf_unpairs (l : list (list Z * option Z)) : RecoveryData := mkRecoveryData ((fun x => mkRecoveryCode x.1 x.2) <$> l).
Lemma mf_unpairs_pairs d : mf_unpairs (mf_pairs d) = d.
Proof.
  destruct d as [l]. unfold mf_unpairs, mf_pairs. cbn. f_equal. rewrite <- list_fmap_compose.
  induction l as [|[] l IH]; [done|]. by rewrite fmap_cons, IH.
Qed.
Definition mf_recovery_json : JsonBytes RecoveryData := coded mf_pairs mf_unpairs mf_unpairs_pairs.

(** A node with its key from the configuration. *)
Definition mf_encryptor : KeyEncryptor := @envelope_encryptor toy_aead toy_kms false ∅.
Local Existing Instances toy_aead toy_aead_laws toy_kms toy_kms_laws.
Definition mf_gens_ok : gens_ok ∅ := proj1 (cluster_ok_empty false).
Definition mf_encryptor_laws : @KeyEncryptorLaws mf_encryptor :=
  @envelope_encryptor_laws toy_aead toy_aead_laws toy_kms toy_kms_laws false ∅ mf_gens_ok.
Definition mf_node : Node := from_config false (Some (replicate 32 5)) 1 [] false.
Lemma mf_node_ok : @ke_ok mf_encryptor mf_encryptor_laws mf_node.
Proof. split; [|done]. apply from_config_ok, ex_config_ok. Qed.

Local Existing Instances mf_valkey mf_serde mf_serde_unit mf_totp_json mf_recovery_json mf_encryptor mf_encryptor_laws toy_uuid.

Definition mf_hmac (k m : list Z) : list Z := replicate 20 (foldl Z.add 0 (k ++ m) mod 256).
Definition mf_sha (l : list Z) : list Z := l.
Definition mf_b64 (l : list Z) : list Z := take 2 l.
Definition mf_empty : @MfaState mf_valkey mf_encryptor := @mkMfaState mf_valkey mf_encryptor (∅ : gmap string _) [] mf_node [].

(** User 2 of tenant 1 gets recovery codes. *)
Definition mf_draws (i : nat) : list Z := replicate 10 (3 + Z.of_nat i).
Definition mf_issued := regenerate_recovery_codes mf_sha mf_b64 1000 7 mf_draws (ex_rnd 1) 1 2 mf_empty.
Definition mf_code : list Z := ascii_bytes "DDDDD ddddd".
Definition mf_second : list Z := ascii_bytes "eeeee-eeeee".

Definition mf_printed : list (list Z) := random_code ∘ mf_draws <$> seq 0 10.

Example mf_issued_codes : mf_issued.1 = Ok mf_printed /\ take 2 mf_printed = [ascii_bytes "ddddd-ddddd"; mf_second].
Proof. vm_compute. done. Qed.

Definition mf_hash (code : list Z) : list Z := hash mf_sha mf_b64 (normalise_recovery code).
Definition mf_tries : list (Z * Random * list Z) := [(2000, ex_rnd 2, mf_code); (3000, ex_rnd 3, mf_code); (4000, ex_rnd 4, mf_second)].

Lemma mf_has_codes : has_codes mf_issued.2 1 2 (fresh_set mf_sha mf_b64 mf_printed).
Proof.
  apply (regenerate_has_codes mf_sha mf_b64 1000 7 mf_draws (ex_rnd 1) 1 2 mf_empty).
  - apply mf_node_ok.
  - apply ex_rnd_ok.
  - fold mf_issued. rewrite <- (proj1 mf_issued_codes). by destruct mf_issued.
Qed.

(** The code works once; the second one too. *)
Example mf_tries_redeemed :
  redemptions mf_sha mf_b64 1 2 (mf_hash mf_code) mf_tries mf_issued.2 = 1%nat
  /\ redemptions mf_sha mf_b64 1 2 (mf_hash mf_second) mf_tries mf_issued.2 = 1%nat.
Proof. vm_compute. done. Qed.

Lemma recovery_single_use_witness :
  le (redemptions mf_sha mf_b64 1 2 (mf_hash mf_code) mf_tries mf_issued.2) 1.
Proof.
  apply (recovery_single_use mf_sha mf_b64 1 2 (mf_hash mf_code) mf_tries mf_issued.2
    (fresh_set mf_sha mf_b64 mf_printed)).
  - repeat constructor; apply ex_rnd_ok.
  - apply mf_has_codes.
Defined.

Lemma fresh_code_accepted_witness :
  let o := verify_recovery mf_sha mf_b64 2000 (ex_rnd 2) 1 2 mf_second mf_issued.2 in
  o.1 = Ok (Some (VRecoveryCode 9)) \/ o.1 = Err MInternal.
Proof.
  apply (fresh_code_accepted mf_sha mf_b64 1000 2000 7 mf_draws (ex_rnd 1) (ex_rnd 2) 1 2 mf_empty mf_issued.2
    mf_printed mf_second).
  - apply mf_node_ok.
  - apply ex_rnd_ok.
  - apply ex_rnd_ok.
  - intros i. unfold zlen, mf_draws. by rewrite length_replicate.
  - fold mf_issued. rewrite <- (proj1 mf_issued_codes). by destruct mf_issued.
  - right. left.
Defined.

(** Two requests that both read the rows before either stores them. *)
Definition mf_rows : list CredRow := list_secrets_of_type 1 2 KIND_RECOVERY (m_creds mf_issued.2).
Definition mf_race1 := verify_recovery_rows 2000 (ex_rnd 2) 1 2 (mf_hash mf_second) mf_rows mf_issued.2.
Definition mf_race2 := verify_recovery_rows 2001 (ex_rnd 3) 1 2 (mf_hash mf_second) mf_rows mf_race1.2.

(** One recovery code lets two concurrent requests in: the rows are read in
    one transaction and stored in another, with nothing that makes the
    second store notice the first, so both find the code unused. *)
Theorem recovery_spent_twice :
  count_of_types 1 2 [KIND_RECOVERY] (m_creds mf_issued.2) = 1
  /\ mf_race1.1 = Ok (Some (VRecoveryCode 9)) /\ mf_race2.1 = Ok (Some (VRecoveryCode 9)).
Proof. vm_compute. done. Qed.

(** *** A sign-in with an authenticator *)

Definition mf_names : Names := mkNames (ascii_bytes " Acme: prod ") (ascii_bytes "acme") None (ascii_bytes "bo").
Definition mf_begun := begin_enrolment 0 (replicate 20 9) 1 5 mf_names mf_empty.

Lemma enrolment_one_secret_witness :
  exists e', begin_enrolment 300000 (replicate 20 4) 1 5 mf_names mf_begun.2 = (Ok e', mf_begun.2)
    /\ e_secret e' = base32_encode (replicate 20 9).
Proof.
  destruct mf_begun as [[e|] st'] eqn:E; [|apply (f_equal fst) in E; vm_compute in E; done].
  assert (e_secret e = base32_encode (replicate 20 9)) as <-.
  { apply (f_equal (fun o => match o.1 with Ok e => e_secret e | Err _ => [] end)) in E. cbn [fst] in E. by rewrite <- E. }
  apply (@enrolment_one_secret mf_valkey map_valkey_laws toy_uuid mf_encryptor mf_serde 0 300000 (replicate 20 9) (replicate 20 4)
    1 5 mf_names mf_names mf_empty st' e).
  - exact E.
  - lia.
  - apply (f_equal (fun o => bool_decide (is_Some (vget 300000 (totp_enrolment 1 5) (m_redis o.2))))) in E. cbn [snd] in E.
    apply (bool_decide_eq_true_1 _). by rewrite <- E.
Defined.
Definition mf_otp (now : Z) : list Z := code_at mf_hmac (mkAuthenticator (replicate 20 9) [] []) (now / 1000 / 30).
Definition mf_ops : list (Z * MfaOp) :=
  [(60000, OpConfirm 8 7 mf_draws (ex_rnd 1) (ex_rnd 2) 1 5 2 (mf_otp 60000) None);
   (61000, OpVerify 1 2 (mf_otp 60000) (ex_rnd 3));
   (95000, OpVerify 1 2 (mf_otp 90000) (ex_rnd 3));
   (96000, OpVerify 1 2 (mf_otp 90000) (ex_rnd 3));
   (119000, OpVerify 1 2 (mf_otp 90000) (ex_rnd 3))].

Example mf_accepted_once : acceptances mf_hmac mf_sha mf_b64 1 8 3 mf_ops mf_begun.2 = 1%nat
  /\ acceptances mf_hmac mf_sha mf_b64 1 8 2 mf_ops mf_begun.2 = 0%nat.
Proof. vm_compute. done. Qed.

Lemma totp_step_once_witness : le (acceptances mf_hmac mf_sha mf_b64 1 8 3 mf_ops mf_begun.2) 1.
Proof.
  apply (@totp_step_once mf_valkey map_valkey_laws toy_uuid mf_encryptor mf_serde mf_serde_unit mf_totp_json mf_recovery_json
    mf_hmac mf_sha mf_b64 1 8 3 0).
  - lia.
  - cbn. repeat first [apply SSorted_nil | apply Forall_nil_2 | apply Forall_cons_2; [lia|] | apply SSorted_cons].
Defined.

(** Removing the only authenticator takes the recovery codes with it. *)
Definition mf_rows2 : list CredRow :=
  [mkCredRow 8 1 2 KIND_TOTP None [] 0 None None; mkCredRow 7 1 2 KIND_RECOVERY None [] 0 None None;
   mkCredRow 9 1 3 KIND_RECOVERY None [] 0 None None; mkCredRow 10 1 3 KIND_SMS None [] 0 None None].
Definition mf_enrolled : @MfaState mf_valkey mf_encryptor := @mkMfaState mf_valkey mf_encryptor (∅ : gmap string _) mf_rows2 mf_node [].
Example mf_removed : cr_id <$> m_creds (remove_credential 1 2 8 true mf_enrolled).2 = [9; 10].
Proof. vm_compute. done. Qed.

Lemma remove_keeps_backed_witness : backed 1 2 (m_creds (remove_credential 1 2 8 true mf_enrolled).2).
Proof.
  apply (@remove_keeps_backed mf_valkey mf_encryptor 1 2 8 true mf_enrolled).
  - decide_now.
  - intros _. exists (mkCredRow 8 1 2 KIND_TOTP None [] 0 None None). split; [left|]. by split; [|left].
Defined.
End example.
