(* ===== verification/Webauthn.v ===== *)
(** * WebAuthn ceremonies

    Models [api/src/webauthn/]: cose.rs (credential public keys), stored.rs
    (a registered passkey) and ceremony.rs (what the browser is asked for and
    the checks of its answers), on the CBOR reader of [Cbor]. The classes
    stand for the libraries: [UrlLib] for the url crate, [Signatures] for
    aws-lc-rs; SHA-256 and the JSON readers are variables. The layout of
    authenticator data and the checks of the standard are stated beside the
    code, and the code is proved to accept exactly those. *)

From stdpp Require Import gmap strings.
From S2P Require Import Prelude Utf8 Valkey Cbor.

(** ** Libraries *)

Class UrlLib := {
  Url : Type;
  url_parse : list Z -> option Url;
  scheme : Url -> list Z;
  Host : Type;
  host : Url -> option Host;
  host_str : Url -> option (list Z);
  domain : Url -> option (list Z);
  port_or_known_default : Url -> option Z;
  Origin : Type;
  url_origin : Url -> Origin;
  #[global] url_eq_dec :: EqDecision Url;
  #[global] host_eq_dec :: EqDecision Host;
  #[global] origin_eq_dec :: EqDecision Origin
}.

Class Signatures := {
  p256_key : list Z -> bool;
  p256_verify : list Z -> list Z -> list Z -> bool;
  rsa_key : list Z -> list Z -> bool;
  rsa_verify : list Z -> list Z -> list Z -> list Z -> bool;
  ed25519_key : list Z -> bool;
  ed25519_verify : list Z -> list Z -> list Z -> bool
}.

(** ** Keys: cose.rs *)

Inductive CoseAlgorithm :=
| ES256 | ES384 | ES512 | RS256 | RS384 | RS512 | PS256 | PS384 | PS512 | EdDsa | InsecureRs1 | PinUvProtocol.
#[export] Instance cose_algorithm_eq_dec : EqDecision CoseAlgorithm.
Proof. solve_decision. Defined.

Definition alg_id (a : CoseAlgorithm) : Z :=
  match a with
  | ES256 => -7 | ES384 => -35 | ES512 => -36 | RS256 => -257 | RS384 => -258 | RS512 => -259
  | PS256 => -37 | PS384 => -38 | PS512 => -39 | EdDsa => -8 | InsecureRs1 => -65535 | PinUvProtocol => -65534
  end.

Inductive EcCurve := SECP256R1 | SECP384R1 | SECP521R1.
#[export] Instance ec_curve_eq_dec : EqDecision EcCurve.
Proof. solve_decision. Defined.
Inductive EdCurve := ED25519 | ED448.
#[export] Instance ed_curve_eq_dec : EqDecision EdCurve.
Proof. solve_decision. Defined.

Record Ec2Key := mkEc2Key { ec_curve : EcCurve; ec_x : list Z; ec_y : list Z }.
Record OkpKey := mkOkpKey { okp_curve : EdCurve; okp_x : list Z }.
Record RsaKey := mkRsaKey { rsa_n : list Z; rsa_e : list Z }.
Inductive CoseKeyType := Ec2 (k : Ec2Key) | Okp (k : OkpKey) | Rsa (k : RsaKey).
Record CoseKey := mkCoseKey { type_ : CoseAlgorithm; cose_key : CoseKeyType }.

Inductive CoseError := Unsupported (why : string) | Invalid.

Definition KTY : Z := 1.
Definition ALG : Z := 3.
Definition CRV : Z := -1.
Definition X_OR_N : Z := -2.
Definition Y_OR_E : Z := -3.
Definition KTY_OKP : Z := 1.
Definition KTY_EC2 : Z := 2.
Definition KTY_RSA : Z := 3.
Definition CRV_P256 : Z := 1.
Definition CRV_ED25519 : Z := 6.

(** [0x04 ‖ x ‖ y]. *)
Definition uncompressed (k : Ec2Key) : list Z := 4 :: ec_x k ++ ec_y k.

Section cose.
Context `{Signatures}.

Definition check_key (k : CoseKey) : result CoseError () :=
  let ok b := if (b : bool) then Ok () else Err Invalid in
  match type_ k, cose_key k with
  | ES256, Ec2 k => ok (p256_key (uncompressed k))
  | RS256, Rsa k => ok (rsa_key (rsa_n k) (rsa_e k))
  | EdDsa, Okp k => ok (ed25519_key (okp_x k))
  | _, _ => Err (Unsupported "key type and algorithm")
  end.

Definition from_cbor (v : Value) (allowed : list CoseAlgorithm) : result CoseError CoseKey :=
  let int k := get_int v k ≫= as_int in
  let bytes k := get_int v k ≫= as_bytes in
  let? kty := ok_or (int KTY) (Unsupported "no key type") in
  let? alg := ok_or (int ALG) (Unsupported "no algorithm") in
  let? key :=
    if (kty =? KTY_EC2) && (alg =? -7) then
      if negb (bool_decide (int CRV = Some CRV_P256)) then Err (Unsupported "ES256 needs P-256")
      else
        match bytes X_OR_N, bytes Y_OR_E with
        | Some x, Some y =>
            if negb (zlen x =? 32) || negb (zlen y =? 32) then Err Invalid
            else Ok (mkCoseKey ES256 (Ec2 (mkEc2Key SECP256R1 x y)))
        | _, _ => Err Invalid
        end
    else if (kty =? KTY_RSA) && (alg =? -257) then
      match bytes X_OR_N, bytes Y_OR_E with
      | Some n, Some e =>
          if negb (zlen e =? 3) then Err Invalid
          else if negb (zlen n =? 256) then Err (Unsupported "RS256 needs a 2048-bit key")
          else Ok (mkCoseKey RS256 (Rsa (mkRsaKey n e)))
      | _, _ => Err Invalid
      end
    else if (kty =? KTY_OKP) && (alg =? -8) then
      if negb (bool_decide (int CRV = Some CRV_ED25519)) then Err (Unsupported "EdDSA needs Ed25519")
      else
        let? x := ok_or (bytes X_OR_N) Invalid in
        if negb (zlen x =? 32) then Err Invalid else Ok (mkCoseKey EdDsa (Okp (mkOkpKey ED25519 x)))
    else Err (Unsupported "key type and algorithm") in
  if negb (bool_decide (type_ key ∈ allowed)) then Err (Unsupported "algorithm not offered")
  else let? _ := check_key key in Ok key.

Definition verify_sig (k : CoseKey) (message signature : list Z) : bool :=
  match type_ k, cose_key k with
  | ES256, Ec2 k => bool_decide (ec_curve k = SECP256R1) && p256_verify (uncompressed k) message signature
  | RS256, Rsa k => rsa_verify (rsa_n k) (rsa_e k) message signature
  | EdDsa, Okp k => bool_decide (okp_curve k = ED25519) && ed25519_verify (okp_x k) message signature
  | _, _ => false
  end.
End cose.

(** ** Registered passkeys: stored.rs *)

Record Flags := mkFlags { up : bool; uv : bool; be : bool; bs : bool; at_ : bool; ed : bool }.
Definition flags_of (b : Z) : Flags :=
  let has m := negb (Z.land b m =? 0) in
  mkFlags (has 0x01) (has 0x04) (has 0x08) (has 0x10) (has 0x40) (has 0x80).

(** What registration records of the extensions ([registered_extensions]
    makes JSON of these). *)
Inductive ProtectPolicy := UvOptional | UvOptionalWithIds | UvRequired.
Inductive Protect := ProtectIgnored | ProtectSet (p : ProtectPolicy).
Inductive HmacSecret := HmacNotRequested | HmacUnsolicited (b : bool).
Inductive CredProps := PropsIgnored | PropsUnsigned (rk : option bool).
Record Extensions := mkExtensions { x_protect : Protect; x_hmac : HmacSecret; x_props : CredProps }.

(** The fields the code never interprets (transports, registration policy,
    attestation) are left out, and so are the transports of the options. *)
Record StoredPasskey := mkStoredPasskey {
  sp_cred_id : list Z;
  sp_cred : CoseKey;
  sp_counter : Z;
  sp_user_verified : bool;
  sp_backup_eligible : bool;
  sp_backup_state : bool;
  sp_extensions : Extensions;
  sp_format : list Z
}.

Record Assertion := mkAssertion {
  a_cred_id : list Z;
  a_counter : Z;
  a_user_verified : bool;
  a_backup_eligible : bool;
  a_backup_state : bool
}.

Definition stored_new (cred_id : list Z) (key : CoseKey) (counter : Z) (flags : Flags) (format : list Z)
    (extensions : Extensions) : StoredPasskey :=
  mkStoredPasskey cred_id key counter (uv flags) (be flags) (bs flags) extensions format.

Definition set_counter (c : Z) (p : StoredPasskey) : StoredPasskey :=
  mkStoredPasskey (sp_cred_id p) (sp_cred p) c (sp_user_verified p) (sp_backup_eligible p) (sp_backup_state p)
    (sp_extensions p) (sp_format p).
Definition set_backup (eligible state : bool) (p : StoredPasskey) : StoredPasskey :=
  mkStoredPasskey (sp_cred_id p) (sp_cred p) (sp_counter p) (sp_user_verified p) eligible state
    (sp_extensions p) (sp_format p).

(** [update]: the new record and whether anything changed. *)
Definition update_passkey (a : Assertion) (p : StoredPasskey) : bool * StoredPasskey :=
  if negb (bool_decide (a_cred_id a = sp_cred_id p)) then (false, p)
  else
    let '(changed, p) := if sp_counter p <? a_counter a then (true, set_counter (a_counter a) p) else (false, p) in
    let '(changed, p) :=
      if negb (eqb (a_backup_state a) (sp_backup_state p)) then (true, set_backup (sp_backup_eligible p) (a_backup_state a) p)
      else (changed, p) in
    if a_backup_eligible a && negb (sp_backup_eligible p) then (true, set_backup true (sp_backup_state p) p) else (changed, p).

(** ** Ceremonies: ceremony.rs *)

Definition ALGORITHMS : list CoseAlgorithm := [ES256; RS256].
Definition TIMEOUT_MS : Z := 300000.
Definition CHALLENGE_LEN : nat := 32.
Definition ATTESTATION_FORMATS : list (list Z) :=
  ascii_bytes <$> ["packed"; "tpm"; "android-key"; "android-safetynet"; "fido-u2f"; "apple"; "none"]%string.

Record Rejected := mkRejected { rejected_why : string }.
Abbreviation rres A := (result Rejected A).
Definition reject {A} (why : string) : rres A := Err (mkRejected why).

Record RegistrationState := mkRegistrationState { rs_challenge : list Z; rs_exclude : list (list Z) }.
Record AuthenticationState := mkAuthenticationState {
  as_challenge : list Z;
  as_allowed : list (list Z);
  as_upgrade : bool
}.

(** What the browser is asked for; the options that never change (required
    user verification, no attestation, the extensions) are left out. *)
Record CreationOptions := mkCreationOptions {
  co_rp_name : list Z; co_rp_id : list Z;
  co_user_id : list Z; co_user_name : list Z; co_display_name : list Z;
  co_challenge : list Z;
  co_algs : list Z;
  co_timeout : Z;
  co_exclude : option (list (list Z));
  co_resident_key_preferred : bool
}.
Record RequestOptions := mkRequestOptions {
  ro_challenge : list Z;
  ro_timeout : Z;
  ro_rp_id : list Z;
  ro_allow : list (list Z);
  ro_conditional : bool
}.

(** The browser's answers. *)
Record RegisterPublicKeyCredential := mkRegisterPublicKeyCredential {
  reg_client_data_json : list Z;
  reg_attestation_object : list Z;
  reg_cred_props : option (option bool)
}.
Record PublicKeyCredential := mkPublicKeyCredential {
  pkc_raw_id : list Z;
  pkc_authenticator_data : list Z;
  pkc_client_data_json : list Z;
  pkc_signature : list Z;
  pkc_user_handle : option (list Z)
}.

Record ClientData := mkClientData {
  cd_type : list Z;
  cd_challenge : list Z;
  cd_origin : list Z;
  cd_cross_origin : option bool
}.

Record AuthData := mkAuthData {
  ad_rp_id_hash : list Z;
  ad_flags : Flags;
  ad_counter : Z;
  ad_credential : option (list Z * Value);
  ad_extensions : option Value
}.

Definition bad_auth_data {A} : rres A := reject "malformed authenticator data".

(** aaguid (16) ‖ credential id length (2) ‖ credential id ‖ COSE key. *)
Definition attested (rest : list Z) : rres (list Z * Value * list Z) :=
  if zlen rest <? 18 then bad_auth_data
  else
    let len := be_val (take 2 (drop 16 rest)) in
    let rest := drop 18 rest in
    if zlen rest <? len then bad_auth_data
    else
      match decode (drop (Z.to_nat len) rest) with
      | Ok (key, after) => Ok (take (Z.to_nat len) rest, key, after)
      | Err _ => bad_auth_data
      end.

Definition auth_data (bytes : list Z) : rres AuthData :=
  if zlen bytes <? 37 then bad_auth_data
  else
    let rp_id_hash := take 32 bytes in
    let flags := flags_of (nth 32 bytes 0) in
    let counter := be_val (take 4 (drop 33 bytes)) in
    let rest := drop 37 bytes in
    let? (credential, rest) :=
      if at_ flags then let? (id, key, after) := attested rest in Ok (Some (id, key), after) else Ok (None, rest) in
    let? extensions :=
      if ed flags then match decode rest with Ok (v, _) => Ok (Some v) | Err _ => bad_auth_data end else Ok None in
    Ok (mkAuthData rp_id_hash flags counter credential extensions).

Definition registered_extensions (authenticator : option Value) (credential : RegisterPublicKeyCredential)
    : rres Extensions :=
  let? protect :=
    match authenticator ≫= fun e => get_text e (ascii_bytes "credProtect") with
    | None => Ok ProtectIgnored
    | Some v =>
        match as_int v with
        | Some 1 => Ok (ProtectSet UvOptional)
        | Some 2 => Ok (ProtectSet UvOptionalWithIds)
        | Some 3 => Ok (ProtectSet UvRequired)
        | _ => reject "an invalid credProtect output"
        end
    end in
  let? hmac :=
    match authenticator ≫= fun e => get_text e (ascii_bytes "hmac-secret") with
    | None => Ok HmacNotRequested
    | Some (VBool b) => Ok (HmacUnsolicited b)
    | Some _ => reject "an invalid hmac-secret output"
    end in
  Ok (mkExtensions protect hmac (match reg_cred_props credential with Some rk => PropsUnsigned rk | None => PropsIgnored end)).

Section ceremony.
Context `{UrlLib} `{Signatures}.
Context (sha256 : list Z -> list Z) (client_data : list Z -> option ClientData).

Record RelyingParty := mkRelyingParty {
  rp_id : list Z;
  rp_name : list Z;
  rp_origins : list Url;
  rp_id_hash : list Z
}.

(** [RelyingParty::new]. *)
Definition rp_new (id : list Z) (origin : Url) (name : list Z) : rres RelyingParty :=
  let? h := ok_or (domain origin) (mkRejected "the origin has no domain") in
  let suffix := 46 :: id in
  if negb (bool_decide (h = id)) && negb (bool_decide (drop (length h - length suffix) h = suffix))
  then reject "the origin is not within the relying party id"
  else Ok (mkRelyingParty id name [origin] (sha256 (utf8_encode id))).

Definition allow_origin (origin : Url) (rp : RelyingParty) : RelyingParty :=
  mkRelyingParty (rp_id rp) (rp_name rp) (rp_origins rp ++ [origin]) (rp_id_hash rp).

(** The [challenge] of each is what [RelyingParty::challenge] draws. *)
Definition start_registration (rp : RelyingParty) (challenge : list Z) (user_id : Uuid) (user_name display_name : list Z)
    (exclude : list (list Z)) : rres (CreationOptions * RegistrationState) :=
  if bool_decide (user_name = []) || bool_decide (display_name = []) then reject "an empty user name"
  else
    Ok (mkCreationOptions (rp_name rp) (rp_id rp) (be_bytes 16 user_id) user_name display_name challenge
          (alg_id <$> ALGORITHMS) TIMEOUT_MS (if bool_decide (exclude = []) then None else Some exclude) false,
        mkRegistrationState challenge exclude).

Definition request (rp : RelyingParty) (challenge : list Z) (allow : list (list Z)) (upgrade conditional : bool)
    : RequestOptions * AuthenticationState :=
  (mkRequestOptions challenge TIMEOUT_MS (rp_id rp) allow conditional, mkAuthenticationState challenge allow upgrade).
Definition start_authentication (rp : RelyingParty) (challenge : list Z) (credentials : list StoredPasskey)
    : RequestOptions * AuthenticationState :=
  request rp challenge (sp_cred_id <$> credentials) true false.
Definition start_discoverable (rp : RelyingParty) (challenge : list Z) : RequestOptions * AuthenticationState :=
  request rp challenge [] false true.

Definition origins_match (origin allowed : Url) : bool :=
  bool_decide (origin = allowed)
  || (bool_decide (scheme origin = scheme allowed)
      && bool_decide (port_or_known_default origin = port_or_known_default allowed)
      && bool_decide (host origin = host allowed)
      && bool_decide (is_Some (host origin))).

Definition parse_client (bytes : list Z) : rres ClientData :=
  ok_or (client_data bytes) (mkRejected "clientDataJSON is not JSON").

Definition check_client (c : ClientData) (kind challenge : list Z) (origins : list Url) : rres () :=
  if negb (bool_decide (cd_type c = kind)) then reject "the client data type"
  else if negb (bool_decide (cd_challenge c = challenge)) then reject "the challenge differs"
  else
    let? origin := ok_or (url_parse (cd_origin c)) (mkRejected "the origin is not a URL") in
    if negb (existsb (origins_match origin) origins) then reject "the origin is not allowed" else Ok ().

Definition finish_registration (rp : RelyingParty) (credential : RegisterPublicKeyCredential) (state : RegistrationState)
    : rres StoredPasskey :=
  let? client := parse_client (reg_client_data_json credential) in
  let? attestation :=
    match decode_exact (reg_attestation_object credential) with
    | Ok v => Ok v | Err _ => reject "the attestation object is not CBOR"
    end in
  let? format := ok_or (get_text attestation (ascii_bytes "fmt") ≫= as_text)
                   (mkRejected "the attestation object has no format") in
  let? auth_data_raw := ok_or (get_text attestation (ascii_bytes "authData") ≫= as_bytes)
                          (mkRejected "the attestation object has no authenticator data") in
  let? data := auth_data auth_data_raw in
  let? _ := check_client client (ascii_bytes "webauthn.create") (rs_challenge state) (rp_origins rp) in
  if default false (cd_cross_origin client) then reject "a cross-origin registration"
  else if negb (bool_decide (ad_rp_id_hash data = rp_id_hash rp)) then reject "the relying party id hash differs"
  else if negb (up (ad_flags data)) then reject "the user was not present"
  else if negb (uv (ad_flags data)) then reject "the user was not verified"
  else if negb (bool_decide (format ∈ ATTESTATION_FORMATS)) then reject "an unknown attestation format"
  else
    let? (cred_id, key) := ok_or (ad_credential data) (mkRejected "no attested credential data") in
    let? key := match from_cbor key ALGORITHMS with Ok k => Ok k | Err _ => reject "the credential key" end in
    if bs (ad_flags data) && negb (be (ad_flags data)) then reject "backed up but not backup eligible"
    else if bool_decide (cred_id ∈ rs_exclude state) then reject "the credential is excluded"
    else
      let? extensions := registered_extensions (ad_extensions data) credential in
      Ok (stored_new cred_id key (ad_counter data) (ad_flags data) format extensions).

(** [Uuid::from_slice]. *)
Definition uuid_from_slice (b : list Z) : option Uuid := if zlen b =? 16 then Some (be_val b) else None.

Definition identify_discoverable (credential : PublicKeyCredential) : rres (Uuid * list Z) :=
  let? handle := ok_or (pkc_user_handle credential) (mkRejected "no user handle") in
  let? user := ok_or (uuid_from_slice handle) (mkRejected "the user handle") in
  Ok (user, pkc_raw_id credential).

Definition finish_authentication (rp : RelyingParty) (credential : PublicKeyCredential) (state : AuthenticationState)
    (passkey : StoredPasskey) : rres Assertion :=
  let raw_id := pkc_raw_id credential in
  if negb (bool_decide (raw_id = sp_cred_id passkey)) then reject "a different credential"
  else if negb (bool_decide (as_allowed state = [])) && negb (bool_decide (raw_id ∈ as_allowed state))
  then reject "the credential was not asked for"
  else
    let? data := auth_data (pkc_authenticator_data credential) in
    let? client := parse_client (pkc_client_data_json credential) in
    let? _ := check_client client (ascii_bytes "webauthn.get") (as_challenge state) (rp_origins rp) in
    if negb (bool_decide (ad_rp_id_hash data = rp_id_hash rp)) then reject "the relying party id hash differs"
    else if negb (up (ad_flags data)) then reject "the user was not present"
    else if negb (uv (ad_flags data)) then reject "the user was not verified"
    else if negb (eqb (sp_backup_eligible passkey) (be (ad_flags data)))
            && negb (as_upgrade state && negb (sp_backup_eligible passkey) && be (ad_flags data))
    then reject "backup eligibility changed"
    else if bs (ad_flags data) && negb (sp_backup_eligible passkey) then reject "backed up but not backup eligible"
    else
      let message := pkc_authenticator_data credential ++ sha256 (pkc_client_data_json credential) in
      if negb (verify_sig (sp_cred passkey) message (pkc_signature credential)) then reject "the signature does not verify"
      else if ((0 <? ad_counter data) || (0 <? sp_counter passkey)) && (ad_counter data <=? sp_counter passkey)
      then reject "the counter did not advance (a cloned credential?)"
      else Ok (mkAssertion raw_id (ad_counter data) (uv (ad_flags data)) (be (ad_flags data)) (bs (ad_flags data))).
End ceremony.

(** ** The layout of authenticator data *)

Definition attested_layout (id : list Z) (key : Value) (e bytes : list Z) : Prop :=
  exists aaguid, bytes = aaguid ++ be_bytes 2 (zlen id) ++ id ++ e
    /\ zlen aaguid = 16 /\ zlen id < 65536 /\ enc (MAX_DEPTH + 1) key e.

Definition auth_layout (bytes : list Z) (d : AuthData) : Prop :=
  exists f mid tail,
    bytes = ad_rp_id_hash d ++ [f] ++ be_bytes 4 (ad_counter d) ++ mid ++ tail
    /\ zlen (ad_rp_id_hash d) = 32 /\ fits_u 32 (ad_counter d) /\ ad_flags d = flags_of f
    /\ match ad_credential d with
       | Some (id, key) => at_ (flags_of f) = true /\ exists e, attested_layout id key e mid
       | None => at_ (flags_of f) = false /\ mid = []
       end
    /\ match ad_extensions d with
       | Some v => ed (flags_of f) = true /\ exists e junk, tail = e ++ junk /\ enc (MAX_DEPTH + 1) v e
       | None => ed (flags_of f) = false
       end.

Lemma drop_len {A} n (l k : list A) : zlen l = Z.of_nat n -> drop n (l ++ k) = k.
Proof. unfold zlen. intros H. apply drop_app_length'. lia. Qed.
Lemma take_len {A} n (l k : list A) : zlen l = Z.of_nat n -> take n (l ++ k) = l.
Proof. unfold zlen. intros H. apply take_app_length'. lia. Qed.
Lemma zlen_take {A} n (l : list A) : Z.of_nat n <= zlen l -> zlen (take n l) = Z.of_nat n.
Proof. unfold zlen. intros H. rewrite length_take. lia. Qed.
Lemma zlen_drop {A} n (l : list A) : Z.of_nat n <= zlen l -> zlen (drop n l) = zlen l - Z.of_nat n.
Proof. unfold zlen. intros H. rewrite length_drop. lia. Qed.
Lemma be_bytes_zlen n v : zlen (be_bytes n v) = Z.of_nat n.
Proof. unfold zlen. by rewrite be_bytes_length. Qed.

Lemma attested_complete id key e aaguid after :
  zlen aaguid = 16 -> zlen id < 65536 -> enc (MAX_DEPTH + 1) key e ->
  attested (aaguid ++ be_bytes 2 (zlen id) ++ id ++ e ++ after) = Ok (id, key, after).
Proof.
  intros Ha Hi He. unfold attested. rewrite !zlen_app, be_bytes_zlen, Ha.
  pose proof (zlen_nonneg id). pose proof (zlen_nonneg e). pose proof (zlen_nonneg after).
  rewrite (proj2 (Z.ltb_ge _ _)) by lia. rewrite (drop_len 16) by done. rewrite take_len by (by rewrite be_bytes_zlen).
  rewrite be_val_be_bytes, Z.mod_small by (cbn; lia). rewrite app_assoc, drop_len by (rewrite zlen_app, be_bytes_zlen; lia).
  rewrite !zlen_app, (proj2 (Z.ltb_ge _ _)) by lia. rewrite zlen_to_nat, drop_app_length, take_app_length.
  unfold decode. by rewrite (item_complete _ _ _ after He).
Qed.

Lemma attested_sound rest id key after :
  bytes_ok rest -> attested rest = Ok (id, key, after) -> exists e mid, rest = mid ++ after /\ attested_layout id key e mid.
Proof.
  intros Hb. unfold attested, decode. destruct (zlen rest <? 18) eqn:E1; [done|]. bool_hyps.
  remember (be_val (take 2 (drop 16 rest))) as len eqn:Elen. destruct (zlen (drop 18 rest) <? len) eqn:E2; [done|]. bool_hyps.
  assert (bytes_ok (take 2 (drop 16 rest))) as Hb2 by (by apply Forall_take, Forall_drop).
  assert (zlen (take 2 (drop 16 rest)) = 2) as Hl2 by (rewrite zlen_take; rewrite ?zlen_drop; lia).
  pose proof (be_val_bound _ Hb2) as Hbound. rewrite <- Elen, Hl2 in Hbound. change (256 ^ 2) with 65536 in Hbound.
  destruct (item _ _) as [[k a]|] eqn:Ed; [|done]. intros [= <- <- <-].
  destruct (item_sound _ _ _ _ (Forall_drop _ _ _ (Forall_drop _ _ _ Hb)) Ed) as (e & Ed' & He).
  assert (zlen (take (Z.to_nat len) (drop 18 rest)) = len) as Hli by (rewrite zlen_take; lia).
  exists e, (take 16 rest ++ be_bytes 2 len ++ take (Z.to_nat len) (drop 18 rest) ++ e). split.
  - assert (be_bytes 2 len = take 2 (drop 16 rest)) as ->.
    { rewrite <- (be_bytes_be_val _ Hb2), <- Elen. f_equal. unfold zlen in Hl2. lia. }
    rewrite <- !app_assoc, <- Ed', take_drop. replace (drop 18 rest) with (drop 2 (drop 16 rest)) by (by rewrite drop_drop).
    by rewrite !take_drop.
  - exists (take 16 rest). rewrite Hli. split_and!; [done|rewrite zlen_take; lia|lia|done].
Qed.

Lemma auth_data_complete bytes d : auth_layout bytes d -> auth_data bytes = Ok d.
Proof.
  intros (f & mid & tail & -> & Hh & Hc & Hf & Hcr & Hx). destruct d as [h fl c cr x].
  cbn [ad_rp_id_hash ad_flags ad_counter ad_credential ad_extensions] in *. subst fl. unfold fits_u in Hc.
  unfold auth_data. rewrite !zlen_app, be_bytes_zlen, Hh. change (zlen [f]) with 1.
  pose proof (zlen_nonneg mid). pose proof (zlen_nonneg tail). rewrite (proj2 (Z.ltb_ge _ _)) by lia.
  rewrite (take_len 32) by done.
  assert (nth 32 (h ++ [f] ++ be_bytes 4 c ++ mid ++ tail) 0 = f) as ->.
  { rewrite app_nth2 by (unfold zlen in Hh; lia). replace (32 - length h)%nat with 0%nat by (unfold zlen in Hh; lia). done. }
  rewrite (app_assoc h [f]), (drop_len 33) by (by rewrite zlen_app, Hh).
  rewrite (take_len 4) by (by rewrite be_bytes_zlen). rewrite be_val_be_bytes, Z.mod_small by (cbn; lia).
  rewrite app_assoc, (drop_len 37) by (by rewrite !zlen_app, Hh, be_bytes_zlen).
  assert (forall cr', cr' = cr -> (let? extensions := if ed (flags_of f) then
      match decode tail with Ok (v, _) => Ok (Some v) | Err _ => bad_auth_data end else Ok None in
    Ok (mkAuthData h (flags_of f) c cr' extensions)) = Ok (mkAuthData h (flags_of f) c cr x)) as Hrest.
  { intros cr' ->. destruct x as [v|]; [|by rewrite Hx]. destruct Hx as [-> (e & junk & -> & He)]. unfold decode.
    by rewrite (item_complete _ _ _ junk He). }
  destruct cr as [[id key]|].
  - destruct Hcr as [-> (e & aaguid & -> & Ha & Hi & He)]. rewrite <- !app_assoc, (attested_complete id key e) by done.
    by apply Hrest.
  - destruct Hcr as [-> ->]. by apply Hrest.
Qed.

Lemma auth_data_sound bytes d : bytes_ok bytes -> auth_data bytes = Ok d -> auth_layout bytes d.
Proof.
  intros Hb. unfold auth_data, decode. destruct (zlen bytes <? 37) eqn:E1; [done|]. bool_hyps.
  assert (bytes = take 32 bytes ++ [nth 32 bytes 0] ++ be_bytes 4 (be_val (take 4 (drop 33 bytes))) ++ drop 37 bytes) as Hsplit.
  { assert (bytes_ok (take 4 (drop 33 bytes))) as Hb4 by (by apply Forall_take, Forall_drop).
    assert (be_bytes 4 (be_val (take 4 (drop 33 bytes))) = take 4 (drop 33 bytes)) as ->.
    { rewrite <- (be_bytes_be_val _ Hb4) at 2. f_equal. rewrite length_take, length_drop. unfold zlen in *. lia. }
    replace (drop 37 bytes) with (drop 4 (drop 33 bytes)) by (by rewrite drop_drop). rewrite take_drop.
    rewrite <- (take_drop 32 bytes) at 1. f_equal.
    destruct (lookup_lt_is_Some_2 bytes 32) as [b Hx]; [unfold zlen in *; lia|].
    rewrite nth_lookup, Hx. cbn [default]. by apply drop_S. }
  assert (fits_u 32 (be_val (take 4 (drop 33 bytes)))) as Hfit.
  { pose proof (be_val_bound (take 4 (drop 33 bytes)) ltac:(by apply Forall_take, Forall_drop)) as Hv.
    rewrite zlen_take in Hv by (rewrite zlen_drop; lia).
    unfold fits_u. change (256 ^ Z.of_nat 4) with (2 ^ 32) in Hv. exact Hv. }
  assert (bytes_ok (drop 37 bytes)) as Hb37 by (by apply Forall_drop).
  remember (drop 37 bytes) as rest. remember (flags_of (nth 32 bytes 0)) as fl eqn:Efl.
  assert (forall cr mid tail, rest = mid ++ tail -> bytes_ok tail ->
    match cr with
    | Some (id, key) => at_ fl = true /\ exists e, attested_layout id key e mid
    | None => at_ fl = false /\ mid = []
    end ->
    (let? extensions := if ed fl then
      match item (MAX_DEPTH + 1) tail with Ok (v, _) => Ok (Some v) | Err _ => bad_auth_data end else Ok None in
     Ok (mkAuthData (take 32 bytes) fl (be_val (take 4 (drop 33 bytes))) cr extensions)) = Ok d -> auth_layout bytes d) as Hrest.
  { intros cr mid tail Hr Ht Hcr Hd. destruct (ed fl) eqn:Ee.
    - destruct (item _ tail) as [[v a]|] eqn:Ei; [|done]. destruct (item_sound _ _ _ _ Ht Ei) as (e & Hte & He).
      injection Hd as <-. exists (nth 32 bytes 0), mid, tail. cbn [ad_rp_id_hash ad_flags ad_counter ad_credential ad_extensions].
      rewrite <- Efl, <- Hr.
      split_and!; [done|rewrite zlen_take; lia|apply Hfit..|done|done|done|by exists e, a].
    - injection Hd as <-. exists (nth 32 bytes 0), mid, tail. cbn [ad_rp_id_hash ad_flags ad_counter ad_credential ad_extensions].
      rewrite <- Efl, <- Hr.
      split_and!; [done|rewrite zlen_take; lia|apply Hfit..|done|done|done]. }
  destruct (at_ fl) eqn:Ea.
  - destruct (attested rest) as [[[id key] after]|] eqn:Et; [|done].
    destruct (attested_sound _ _ _ _ Hb37 Et) as (e & mid & Hr & Hl). apply (Hrest (Some (id, key)) mid after Hr).
    + rewrite Hr in Hb37. by apply bytes_ok_app in Hb37 as [_ ?].
    + split; [done|by exists e].
  - by apply (Hrest None [] rest).
Qed.

(** ** What an accepted answer shows *)

Section checks.
Context `{UrlLib} `{Signatures}.
Context (sha256 : list Z -> list Z) (client_data : list Z -> option ClientData).

(** Scheme, host and port agree, or the two are one URL. *)
Definition same_origin (o allowed : Url) : Prop :=
  o = allowed \/ (scheme o = scheme allowed /\ port_or_known_default o = port_or_known_default allowed
                  /\ host o = host allowed /\ is_Some (host o)).

(** The client data of a ceremony of the kind with the challenge, from a page
    of the relying party. *)
Definition from_page (rp : RelyingParty) (kind challenge : list Z) (c : ClientData) : Prop :=
  cd_type c = kind /\ cd_challenge c = challenge
  /\ exists o allowed, url_parse (cd_origin c) = Some o /\ allowed ∈ rp_origins rp /\ same_origin o allowed.

(** The checks of WebAuthn (section 7.2) on the bytes of an assertion. A
    stored counter is a [u32], so at most 0 is 0. *)
Record assertion_ok (rp : RelyingParty) (cred : PublicKeyCredential) (state : AuthenticationState) (pk : StoredPasskey)
    (a : Assertion) : Prop := {
  ao_asked : pkc_raw_id cred = sp_cred_id pk /\ (as_allowed state = [] \/ pkc_raw_id cred ∈ as_allowed state);
  ao_page : exists c, client_data (pkc_client_data_json cred) = Some c
    /\ from_page rp (ascii_bytes "webauthn.get") (as_challenge state) c;
  ao_signed : verify_sig (sp_cred pk) (pkc_authenticator_data cred ++ sha256 (pkc_client_data_json cred))
                (pkc_signature cred) = true;
  ao_data : exists d, auth_layout (pkc_authenticator_data cred) d /\ ad_rp_id_hash d = rp_id_hash rp
    /\ up (ad_flags d) = true /\ uv (ad_flags d) = true
    /\ (ad_counter d = 0 /\ sp_counter pk <= 0 \/ sp_counter pk < ad_counter d)
    /\ (sp_backup_eligible pk = be (ad_flags d)
        \/ as_upgrade state = true /\ sp_backup_eligible pk = false /\ be (ad_flags d) = true)
    /\ (bs (ad_flags d) = true -> sp_backup_eligible pk = true)
    /\ a = mkAssertion (pkc_raw_id cred) (ad_counter d) true (be (ad_flags d)) (bs (ad_flags d))
}.

Lemma origins_match_spec o allowed : origins_match o allowed = true <-> same_origin o allowed.
Proof.
  unfold origins_match, same_origin. rewrite orb_true_iff, !andb_true_iff, !bool_decide_eq_true. tauto.
Qed.

Lemma check_client_spec rp c kind challenge :
  check_client c kind challenge (rp_origins rp) = Ok () <-> from_page rp kind challenge c.
Proof.
  unfold check_client, from_page. destruct (bool_decide (cd_type c = kind)) eqn:E1; bool_hyps; cbn [negb].
  2: { split; [done|]. by intros []. }
  destruct (bool_decide (cd_challenge c = challenge)) eqn:E2; bool_hyps; cbn [negb].
  2: { split; [done|]. by intros (_ & ? & _). }
  destruct (url_parse (cd_origin c)) as [o|]; cbn [ok_or].
  2: { split; [done|]. by intros (_ & _ & ? & ? & ? & _). }
  destruct (existsb _ _) eqn:E3; cbn [negb].
  - apply existsb_exists in E3 as (allowed & Hin & Hm). apply origins_match_spec in Hm. split; [|done]. intros _.
    split_and!; [done|done|]. exists o, allowed. split_and!; [done| |done]. by apply list_elem_of_In.
  - split; [done|]. intros (_ & _ & o' & allowed & [= <-] & Hin & Hs). apply origins_match_spec in Hs.
    assert (existsb (origins_match o) (rp_origins rp) = true) as Hx; [|congruence].
    apply existsb_exists. exists allowed. split; [by apply list_elem_of_In|done].
Qed.

Lemma finish_sound rp cred state pk a :
  bytes_ok (pkc_authenticator_data cred) ->
  finish_authentication sha256 client_data rp cred state pk = Ok a -> assertion_ok rp cred state pk a.
Proof.
  intros Hb.
  unfold finish_authentication, parse_client. intros Hf.
  destruct (negb (bool_decide (pkc_raw_id cred = _))) eqn:E1; [done|]. destruct (_ && _) eqn:E2 in Hf; [done|].
  destruct (auth_data _) as [d|] eqn:Ed; [|done]. apply auth_data_sound in Ed; [|done].
  destruct (client_data _) as [c|] eqn:Ec; [|done]. cbn [ok_or] in Hf.
  destruct (check_client _ _ _ _) as [[]|] eqn:Ek; [|done]. apply check_client_spec in Ek.
  repeat match type of Hf with (if ?x then _ else _) = _ => let E := fresh "E" in destruct x eqn:E; [done|] end.
  injection Hf as <-. bool_hyps. apply andb_false_iff in E2. rewrite !negb_false_iff, !bool_decide_eq_true in E2.
  constructor; [tauto|by exists c|done|]. exists d. split_and!; try done.
  + apply andb_false_iff in E7. destruct E7 as [E7|E7]; bool_hyps; [|lia].
    destruct Ed as (? & ? & ? & _ & _ & Hfit & _). unfold fits_u in Hfit. left. lia.
  + revert E4. destruct (sp_backup_eligible pk), (be (ad_flags d)), (as_upgrade state); cbn; intuition discriminate.
  + revert E5. by destruct (bs (ad_flags d)), (sp_backup_eligible pk).
  + by rewrite E3.
Qed.

Lemma finish_complete rp cred state pk a :
  assertion_ok rp cred state pk a -> finish_authentication sha256 client_data rp cred state pk = Ok a.
Proof.
  intros [[Hraw Hallow] (c & Hc1 & Hpage) Hsig (d & Hd & Hh & Hup & Huv & Hctr & Hbe & Hbs & ->)].
  unfold finish_authentication, parse_client. rewrite (bool_decide_eq_true_2 _ Hraw). cbn [negb].
  assert (negb (bool_decide (as_allowed state = [])) && negb (bool_decide (pkc_raw_id cred ∈ as_allowed state)) = false) as ->.
  { apply andb_false_iff. rewrite !negb_false_iff, !bool_decide_eq_true. done. }
  rewrite (auth_data_complete _ _ Hd), Hc1. cbn [ok_or]. rewrite (proj2 (check_client_spec _ _ _ _) Hpage).
  rewrite (bool_decide_eq_true_2 _ Hh), Hup, Huv. cbn [negb].
  assert (negb (eqb (sp_backup_eligible pk) (be (ad_flags d)))
    && negb (as_upgrade state && negb (sp_backup_eligible pk) && be (ad_flags d)) = false) as ->.
  { destruct Hbe as [->|(-> & -> & ->)]; [by rewrite eqb_reflx|done]. }
  assert (bs (ad_flags d) && negb (sp_backup_eligible pk) = false) as ->.
  { destruct (bs (ad_flags d)); [by rewrite Hbs|done]. }
  rewrite Hsig. cbn [negb]. assert (((0 <? ad_counter d) || (0 <? sp_counter pk)) && (ad_counter d <=? sp_counter pk) = false) as ->.
  { destruct Hctr as [[-> Hs]|Hlt]; [|apply andb_false_iff; right; lia].
    apply andb_false_iff. left. apply orb_false_iff. split; lia. }
  done.
Qed.
End checks.

(** C15: An assertion is accepted exactly when the checks of the standard hold:
    it is signed with the stored key over these authenticator data and the
    hash of this client data, the client data answer the challenge from an
    allowed page, the data name the relying party with the user present and
    verified, the credential was asked for and its counter advanced. *)
Theorem authentication_iff `{UrlLib} `{Signatures} sha256 client_data rp cred state pk a :
  bytes_ok (pkc_authenticator_data cred) ->
  finish_authentication sha256 client_data rp cred state pk = Ok a
  <-> assertion_ok sha256 client_data rp cred state pk a.
Proof. intros Hb. split; [by apply finish_sound|by apply finish_complete]. Qed.

(** *** The counter *)

Lemma update_passkey_spec a p :
  a_cred_id a = sp_cred_id p ->
  let p' := (update_passkey a p).2 in
  sp_counter p' = Z.max (sp_counter p) (a_counter a) /\ sp_cred_id p' = sp_cred_id p /\ sp_cred p' = sp_cred p
  /\ sp_backup_eligible p' = sp_backup_eligible p || a_backup_eligible a /\ sp_backup_state p' = a_backup_state a
  /\ ((update_passkey a p).1 = false -> p' = p).
Proof.
  destruct a as [id c auv abe abs], p as [id' k n u e b x f]. cbn [a_cred_id sp_cred_id]. intros ->.
  unfold update_passkey. cbn [a_cred_id sp_cred_id]. rewrite bool_decide_eq_true_2 by done.
  cbn [negb a_counter a_backup_state a_backup_eligible sp_counter].
  destruct (Z.ltb_spec n c), abs, b, abe, e; cbn; split_and!; try done; lia.
Qed.

(** A recorded assertion cannot be presented again to the updated passkey,
    whatever the challenge then is, if its authenticator counts: the counter
    it carries is no longer above the stored one. *)
Theorem counter_replay_refused `{UrlLib} `{Signatures} sha256 client_data rp cred state pk a rp' state' :
  bytes_ok (pkc_authenticator_data cred) ->
  finish_authentication sha256 client_data rp cred state pk = Ok a -> 0 < a_counter a ->
  exists why, finish_authentication sha256 client_data rp' cred state' (update_passkey a pk).2 = Err why.
Proof.
  intros Hb Hf Hpos. destruct (finish_sound _ _ _ _ _ _ _ Hb Hf) as [[Hraw _] _ _ (d & Hd & _ & _ & _ & _ & _ & _ & Ea)].
  destruct (update_passkey_spec a pk) as (Hctr & Hid & _); [by rewrite Ea|].
  destruct (finish_authentication _ _ rp' _ _ _) as [a'|why] eqn:Ef; [|by exists why].
  destruct (finish_sound _ _ _ _ _ _ _ Hb Ef) as [_ _ _ (d' & Hd' & _ & _ & _ & Hlt & _)].
  pose proof (auth_data_complete _ _ Hd) as H1. pose proof (auth_data_complete _ _ Hd') as H2.
  assert (d' = d) as -> by congruence. rewrite Hctr, Ea in Hlt. rewrite Ea in Hpos. cbn [a_counter] in *. lia.
Qed.

(** *** Registration *)

Section register.
Context `{UrlLib} `{Signatures}.
Context (sha256 : list Z -> list Z) (client_data : list Z -> option ClientData).

(** A key registration accepts. *)
Definition key_ok (k : CoseKey) : Prop :=
  (exists x y, k = mkCoseKey ES256 (Ec2 (mkEc2Key SECP256R1 x y)) /\ zlen x = 32 /\ zlen y = 32
     /\ p256_key (4 :: x ++ y) = true)
  \/ (exists n e, k = mkCoseKey RS256 (Rsa (mkRsaKey n e)) /\ zlen n = 256 /\ zlen e = 3 /\ rsa_key n e = true).

Lemma from_cbor_ok v k : from_cbor v ALGORITHMS = Ok k -> key_ok k.
Proof.
  unfold from_cbor. destruct (get_int v KTY ≫= as_int) as [kty|]; [|done].
  destruct (get_int v ALG ≫= as_int) as [alg|]; [|done]. cbn [ok_or].
  destruct ((kty =? KTY_EC2) && (alg =? -7)).
  { destruct (negb (bool_decide (_ = Some CRV_P256))); [done|].
    destruct (get_int v X_OR_N ≫= as_bytes) as [x|], (get_int v Y_OR_E ≫= as_bytes) as [y|]; try done.
    destruct (negb (zlen x =? 32) || negb (zlen y =? 32)) eqn:E; [done|]. cbn [type_]. destruct (negb (bool_decide _)); [done|].
    unfold check_key. cbn [type_ cose_key]. destruct (p256_key _) eqn:Ek; [|done]. intros [= <-]. bool_hyps.
    left. by exists x, y. }
  destruct ((kty =? KTY_RSA) && (alg =? -257)).
  { destruct (get_int v X_OR_N ≫= as_bytes) as [n|], (get_int v Y_OR_E ≫= as_bytes) as [e|]; try done.
    destruct (negb (zlen e =? 3)) eqn:E1; [done|]. destruct (negb (zlen n =? 256)) eqn:E2; [done|].
    cbn [type_]. destruct (negb (bool_decide _)); [done|].
    unfold check_key. cbn [type_ cose_key]. destruct (rsa_key _ _) eqn:Ek; [|done]. intros [= <-]. bool_hyps.
    right. by exists n, e. }
  destruct ((kty =? KTY_OKP) && (alg =? -8)); [|done].
  destruct (negb (bool_decide (_ = Some CRV_ED25519))); [done|].
  destruct (get_int v X_OR_N ≫= as_bytes) as [x|]; [|done]. cbn [ok_or]. destruct (negb (zlen x =? 32)); [done|]. done.
Qed.

(** The checks of WebAuthn (section 7.1) on the bytes of a registration. *)
Record registration_ok (rp : RelyingParty) (cred : RegisterPublicKeyCredential) (state : RegistrationState)
    (pk : StoredPasskey) : Prop := {
  ro_page : exists c, client_data (reg_client_data_json cred) = Some c
    /\ from_page rp (ascii_bytes "webauthn.create") (rs_challenge state) c /\ cd_cross_origin c <> Some true;
  ro_object : exists obj raw d v, enc (MAX_DEPTH + 1) obj (reg_attestation_object cred)
    /\ get_text obj (ascii_bytes "fmt") = Some (VText (sp_format pk)) /\ sp_format pk ∈ ATTESTATION_FORMATS
    /\ get_text obj (ascii_bytes "authData") = Some (VBytes raw) /\ auth_layout raw d
    /\ ad_rp_id_hash d = rp_id_hash rp /\ up (ad_flags d) = true /\ uv (ad_flags d) = true
    /\ ad_credential d = Some (sp_cred_id pk, v) /\ from_cbor v ALGORITHMS = Ok (sp_cred pk)
    /\ sp_counter pk = ad_counter d /\ sp_user_verified pk = true
    /\ sp_backup_eligible pk = be (ad_flags d) /\ sp_backup_state pk = bs (ad_flags d);
  ro_new : sp_cred_id pk ∉ rs_exclude state;
  ro_key : key_ok (sp_cred pk);
  ro_backup : sp_backup_state pk = true -> sp_backup_eligible pk = true;
  ro_counter : fits_u 32 (sp_counter pk)
}.

Lemma decode_exact_sound bytes v : bytes_ok bytes -> decode_exact bytes = Ok v -> enc (MAX_DEPTH + 1) v bytes.
Proof.
  intros Hb. unfold decode_exact, decode. destruct (item _ _) as [[v' [|]]|] eqn:E; [|done|done]. intros [= <-].
  destruct (item_sound _ _ _ _ Hb E) as (e & He & Hv). rewrite app_nil_r in He. by subst.
Qed.

(** What a map holds is encoded in it. *)
Lemma all_pairs_elem n kvs e kv :
  all (fun kv e => exists e1 e2, e = e1 ++ e2 /\ enc n kv.1 e1 /\ enc n kv.2 e2) kvs e -> kv ∈ kvs ->
  exists e', enc n kv.2 e'.
Proof.
  induction 1 as [|v vs e es (e1 & e2 & _ & _ & He) _ IH]; intros Hin; [by apply elem_of_nil in Hin|].
  apply elem_of_cons in Hin as [->|Hin]; [by exists e2|by apply IH].
Qed.

Lemma get_text_bytes n obj e k raw : enc n obj e -> get_text obj k = Some (VBytes raw) -> bytes_ok raw.
Proof.
  intros He Hg. destruct He as [| | | | |n kvs h e Hh Ha| | | | | |]; try done. unfold get_text in Hg. cbn in Hg.
  destruct (List.find _ kvs) as [kv|] eqn:Ef; [|done]. injection Hg as Hg. apply find_some in Ef as [Hin _].
  destruct (all_pairs_elem _ _ _ kv Ha) as [e' He']; [by apply list_elem_of_In|]. rewrite Hg in He'.
  by inversion He'.
Qed.

#[local] Opaque item get_text from_cbor ascii_bytes.
Lemma register_sound rp cred state pk :
  bytes_ok (reg_attestation_object cred) ->
  finish_registration client_data rp cred state = Ok pk -> registration_ok rp cred state pk.
Proof.
  intros Hb. unfold finish_registration, parse_client. intros Hf.
  destruct (client_data _) as [c|] eqn:Ec; [|done]. cbn [ok_or] in Hf.
  destruct (decode_exact _) as [obj|] eqn:Eo; [|done]. apply decode_exact_sound in Eo; [|done].
  destruct (get_text obj (ascii_bytes "fmt")) as [[]|] eqn:Efmt; try done. cbn [mbind option_bind as_text ok_or] in Hf.
  destruct (get_text obj (ascii_bytes "authData")) as [[]|] eqn:Ead; try done. cbn [mbind option_bind as_bytes ok_or] in Hf.
  destruct (auth_data _) as [d|] eqn:Ed; [|done]. apply auth_data_sound in Ed; [|by eapply get_text_bytes].
  destruct (check_client _ _ _ _) as [[]|] eqn:Ek; [|done]. apply check_client_spec in Ek.
  repeat match type of Hf with (if ?x then _ else _) = _ => let E := fresh "E" in destruct x eqn:E; [done|] end.
  destruct (ad_credential d) as [[id v]|] eqn:Eid; [|done]. cbn [ok_or] in Hf.
  destruct (from_cbor v ALGORITHMS) as [k|] eqn:Ek2; [|done].
  repeat match type of Hf with (if ?x then _ else _) = _ => let E := fresh "E" in destruct x eqn:E; [done|] end.
  destruct (registered_extensions _ _) as [x|]; [|done]. injection Hf as <-. bool_hyps.
  constructor; cbn [stored_new sp_format sp_cred_id sp_cred sp_counter sp_user_verified sp_backup_eligible sp_backup_state].
  - exists c. split_and!; [done|done|]. by destruct (cd_cross_origin c) as [[]|].
  - exists obj, b, d, v. by split_and!.
  - done.
  - by eapply from_cbor_ok.
  - match goal with H : bs _ && negb _ = false |- _ => revert H end. by destruct (bs (ad_flags d)), (be (ad_flags d)).
  - by destruct Ed as (? & ? & ? & _ & _ & Hfit & _).
Qed.
End register.
#[local] Transparent item get_text from_cbor ascii_bytes.

(** A stored passkey comes from an answer to this challenge, given on an
    allowed page that is not framed by another site, in which the
    authenticator attests, for this relying party and with the user present
    and verified, a credential that is not one of the excluded ones and has an
    ES256 or RS256 key of the right size. *)
Theorem registration_sound `{UrlLib} `{Signatures} client_data rp cred state pk :
  bytes_ok (reg_attestation_object cred) ->
  finish_registration client_data rp cred state = Ok pk -> registration_ok client_data rp cred state pk.
Proof. apply register_sound. Qed.

(** *** An authenticator's answer *)

(** What an authenticator that holds the passkey sends: no attested data and
    no extensions, user present and verified. *)
Definition honest_data (hash : list Z) (pk : StoredPasskey) (counter : Z) : list Z :=
  hash ++ [5 + (if sp_backup_eligible pk then 8 else 0) + (if sp_backup_state pk then 16 else 0)] ++ be_bytes 4 counter.

Lemma honest_layout hash pk counter :
  zlen hash = 32 -> fits_u 32 counter ->
  auth_layout (honest_data hash pk counter)
    (mkAuthData hash (mkFlags true true (sp_backup_eligible pk) (sp_backup_state pk) false false) counter None None).
Proof.
  intros Hh Hc. exists (5 + (if sp_backup_eligible pk then 8 else 0) + (if sp_backup_state pk then 16 else 0)), [], [].
  cbn [ad_rp_id_hash ad_flags ad_counter ad_credential ad_extensions].
  assert (flags_of (5 + (if sp_backup_eligible pk then 8 else 0) + (if sp_backup_state pk then 16 else 0))
    = mkFlags true true (sp_backup_eligible pk) (sp_backup_state pk) false false) as -> by
    (by destruct (sp_backup_eligible pk), (sp_backup_state pk)).
  by split_and!.
Qed.

(** What a page of the relying party reports in answer to the challenge. *)
Definition answers_on_page `{UrlLib} (client_data : list Z -> option ClientData) (rp : RelyingParty) (challenge json : list Z)
    : Prop :=
  exists client origin, client_data json = Some client /\ cd_type client = ascii_bytes "webauthn.get"
    /\ cd_challenge client = challenge /\ url_parse (cd_origin client) = Some origin /\ origin ∈ rp_origins rp.

Lemma honest_accepted `{UrlLib} `{Signatures} sha256 client_data rp pk state counter json signature handle :
  (sp_backup_state pk = true -> sp_backup_eligible pk = true) ->
  (as_allowed state = [] \/ sp_cred_id pk ∈ as_allowed state) -> zlen (rp_id_hash rp) = 32 -> fits_u 32 counter ->
  (counter = 0 /\ sp_counter pk = 0 \/ sp_counter pk < counter) ->
  answers_on_page client_data rp (as_challenge state) json ->
  let data := honest_data (rp_id_hash rp) pk counter in
  verify_sig (sp_cred pk) (data ++ sha256 json) signature = true ->
  finish_authentication sha256 client_data rp (mkPublicKeyCredential (sp_cred_id pk) data json signature handle) state pk
  = Ok (mkAssertion (sp_cred_id pk) counter true (sp_backup_eligible pk) (sp_backup_state pk)).
Proof.
  intros Hbs Ha Hh Hc Hctr (client & origin & Hj & Ht & Hch & Ho & Hor) data Hs. apply finish_complete. constructor; [done| |done|].
  - exists client. split; [done|]. split_and!; [done|done|]. exists origin, origin. split_and!; [done|done|by left].
  - eexists. split; [by apply honest_layout|]. cbn. split_and!; try done; [lia|by left].
Qed.

(** A passkey that was registered signs in: to a challenge that lists it, the
    answer of an authenticator that shows the state it registered, a counter
    that advanced (or none at all) and a signature that verifies, sent by a
    page of the relying party, is accepted. *)
Theorem registered_signs_in `{UrlLib} `{Signatures} sha256 client_data rp reg rstate pk
    (challenge : list Z) (pks : list StoredPasskey) (counter : Z) (json signature : list Z) (handle : option (list Z)) :
  bytes_ok (reg_attestation_object reg) -> finish_registration client_data rp reg rstate = Ok pk ->
  pk ∈ pks -> zlen (rp_id_hash rp) = 32 -> fits_u 32 counter ->
  (counter = 0 /\ sp_counter pk = 0 \/ sp_counter pk < counter) ->
  answers_on_page client_data rp challenge json ->
  let data := honest_data (rp_id_hash rp) pk counter in
  verify_sig (sp_cred pk) (data ++ sha256 json) signature = true ->
  finish_authentication sha256 client_data rp (mkPublicKeyCredential (sp_cred_id pk) data json signature handle)
    (start_authentication rp challenge pks).2 pk
  = Ok (mkAssertion (sp_cred_id pk) counter true (sp_backup_eligible pk) (sp_backup_state pk)).
Proof.
  intros Hb Hr Hin Hh Hc Hctr Hp data Hs. apply register_sound in Hr; [|done]. apply honest_accepted; try done.
  - apply (ro_backup _ _ _ _ _ Hr).
  - right. cbn. by apply list_elem_of_fmap_2.
Qed.

(** ** An authenticator in use *)

Section example.

Definition toy_url : UrlLib :=
  {| Url := list Z; url_parse s := Some s; scheme u := take 5 u; Host := list Z; host u := Some (drop 8 u);
     host_str u := Some (drop 8 u); domain u := Some (drop 8 u); port_or_known_default _ := Some 443;
     Origin := list Z; url_origin u := u |}.
Definition toy_signatures : Signatures :=
  {| p256_key _ := true; p256_verify k m s := bool_decide (s = k ++ m);
     rsa_key _ _ := true; rsa_verify n e m s := bool_decide (s = n ++ e ++ m);
     ed25519_key _ := true; ed25519_verify k m s := bool_decide (s = k ++ m) |}.
Local Existing Instances toy_url toy_signatures.

Definition wa_sha (l : list Z) : list Z := replicate 32 (foldl Z.add 0 l mod 256).
Definition wa_origin : list Z := ascii_bytes "https://id.example.com".
Definition wa_challenge : list Z := replicate 32 17.
(** Client data whose first byte says the ceremony. *)
Definition wa_client (l : list Z) : option ClientData :=
  match l with
  | 1 :: _ => Some (mkClientData (ascii_bytes "webauthn.create") wa_challenge wa_origin None)
  | 2 :: _ => Some (mkClientData (ascii_bytes "webauthn.get") wa_challenge wa_origin (Some false))
  | _ => None
  end.
Definition wa_rp : RelyingParty := mkRelyingParty (ascii_bytes "example.com") [] [wa_origin] (wa_sha (ascii_bytes "example.com")).
Example wa_rp_new : rp_new wa_sha (ascii_bytes "example.com") wa_origin [] = Ok wa_rp.
Proof. vm_compute. reflexivity. Qed.

Definition wa_x : list Z := replicate 32 3.
Definition wa_y : list Z := replicate 32 4.
Definition wa_cose : list Z := [165; 1; 2; 3; 38; 32; 1; 33; 88; 32] ++ wa_x ++ [34; 88; 32] ++ wa_y.
Definition wa_auth_data : list Z := rp_id_hash wa_rp ++ [0x45] ++ [0; 0; 0; 0] ++ replicate 16 0 ++ [0; 2] ++ [8; 9] ++ wa_cose.
Definition wa_object : list Z :=
  [162; 99] ++ ascii_bytes "fmt" ++ [100] ++ ascii_bytes "none" ++ [104] ++ ascii_bytes "authData" ++ [88; 134] ++ wa_auth_data.
Definition wa_reg : RegisterPublicKeyCredential := mkRegisterPublicKeyCredential [1] wa_object None.
Definition wa_rstate : RegistrationState := mkRegistrationState wa_challenge [].
Definition wa_key : CoseKey := mkCoseKey ES256 (Ec2 (mkEc2Key SECP256R1 wa_x wa_y)).
Definition wa_passkey : StoredPasskey :=
  mkStoredPasskey [8; 9] wa_key 0 true false false (mkExtensions ProtectIgnored HmacNotRequested PropsIgnored) (ascii_bytes "none").
Lemma wa_registered : finish_registration wa_client wa_rp wa_reg wa_rstate = Ok wa_passkey.
Proof. vm_compute. reflexivity. Qed.
Lemma wa_object_ok : bytes_ok wa_object.
Proof. decide_now. Qed.

Definition wa_data (counter : Z) : list Z := honest_data (rp_id_hash wa_rp) wa_passkey counter.
Definition wa_answer (counter : Z) : PublicKeyCredential :=
  mkPublicKeyCredential [8; 9] (wa_data counter) [2] (uncompressed (mkEc2Key SECP256R1 wa_x wa_y) ++ wa_data counter ++ wa_sha [2]) None.
Definition wa_state : AuthenticationState := (start_authentication wa_rp wa_challenge [wa_passkey]).2.

Lemma registration_sound_witness : registration_ok wa_client wa_rp wa_reg wa_rstate wa_passkey.
Proof. apply (registration_sound wa_client wa_rp wa_reg wa_rstate wa_passkey wa_object_ok wa_registered). Defined.

Lemma wa_page : answers_on_page wa_client wa_rp wa_challenge [2].
Proof. eexists _, wa_origin. split_and!; [reflexivity|done|done|done|left]. Qed.

Lemma registered_signs_in_witness :
  finish_authentication wa_sha wa_client wa_rp (wa_answer 5) wa_state wa_passkey = Ok (mkAssertion [8; 9] 5 true false false).
Proof.
  apply (registered_signs_in wa_sha wa_client wa_rp wa_reg wa_rstate wa_passkey wa_challenge [wa_passkey] 5 [2]);
    [apply wa_object_ok|apply wa_registered|left|done|done|right; cbn; lia|apply wa_page|].
  vm_compute. reflexivity.
Defined.

Lemma authentication_iff_witness :
  assertion_ok wa_sha wa_client wa_rp (wa_answer 5) wa_state wa_passkey (mkAssertion [8; 9] 5 true false false).
Proof.
  apply (authentication_iff wa_sha wa_client wa_rp (wa_answer 5) wa_state wa_passkey).
  - decide_now.
  - vm_compute. reflexivity.
Defined.

Lemma counter_replay_refused_witness :
  exists why, finish_authentication wa_sha wa_client wa_rp (wa_answer 5) wa_state
    (update_passkey (mkAssertion [8; 9] 5 true false false) wa_passkey).2 = Err why.
Proof.
  apply (counter_replay_refused wa_sha wa_client wa_rp (wa_answer 5) wa_state).
  - decide_now.
  - vm_compute. reflexivity.
  - cbn. lia.
Defined.
End example.
