(* ===== verification/Passkeys.v ===== *)
(** * Passkeys in use

    [api/src/services/passkeys.rs]: the ceremonies of [Webauthn] with their
    pending state in Valkey and the registered passkeys in credential rows,
    sealed like every other credential. State and events are those of [Mfa].
    A ceremony's pending state is taken (read and deleted) by the answer,
    before anything is verified. *)

From stdpp Require Import gmap strings sorting.
From S2P Require Import Prelude Utf8 Valkey KeyCustody MasterKey Cbor Credentials Totp Mfa Webauthn.

Definition KIND : string := "webauthn".
Definition CEREMONY_TTL_SECS : Z := 5 * 60.
Definition PASSKEY_LABEL : list Z := ascii_bytes "Passkey".
Definition REGISTER : string := "register".
Definition ASSERT : string := "assert".

(** The answer that verified. *)
Record PkVerified := mkPkVerified { pv_credential_id : Uuid; pv_user_verified : bool }.

Section key.
Context `{UuidDisplay}.
Local Open Scope string_scope.
Definition passkey_ceremony (tenant scope : Uuid) (kind : string) : string :=
  PREFIX ++ ":t:" ++ uuid_str tenant ++ ":flow:" ++ uuid_str scope ++ ":passkey:" ++ kind.
End key.

Section passkeys.
Context `{Valkey} `{UuidDisplay} `{KeyEncryptor} `{UrlLib} `{Signatures}.
Context `{!Serde RegistrationState} `{!Serde AuthenticationState} `{!JsonBytes StoredPasskey}.
Context (sha256 : list Z -> list Z) (b64 : list Z -> list Z) (client_data : list Z -> option ClientData).

(** What the handlers read of the configuration, the tenant and the user. *)
Record PkTenant := mkPkTenant {
  ui_url : Url;
  public_url : Url;
  pt_id : Uuid;
  pt_display_name : list Z;
  custom_domain : option (list Z)
}.
Record PkUser := mkPkUser { pu_id : Uuid; pu_username : list Z; pu_email : option (list Z); pu_name : option (list Z) }.

Definition external_id (id : list Z) : list Z := b64 id.

Definition relying_party (t : PkTenant) : result CredError RelyingParty :=
  let? (rp_id, origin) :=
    match custom_domain t with
    | Some h => let? u := ok_or (url_parse (ascii_bytes "https://" ++ h)) MInternal in Ok (h, u)
    | None => let? h := ok_or (host_str (ui_url t)) MInternal in Ok (h, ui_url t)
    end in
  match rp_new sha256 rp_id origin (pt_display_name t) with
  | Err _ => Err MInternal
  | Ok rp =>
      Ok (foldl (fun rp extra =>
            if bool_decide (host_str extra = Some rp_id) && negb (bool_decide (url_origin extra = url_origin origin))
            then allow_origin extra rp else rp) rp [ui_url t; public_url t])
  end.

Definition put_state {A} `{!Serde A} (now : Z) (tenant scope : Uuid) (kind : string) (value : A) (st : MfaState) : MfaState :=
  set_redis (vset_px now (passkey_ceremony tenant scope kind) (to_json value) (CEREMONY_TTL_SECS * 1000) (m_redis st)) st.

Definition take_state {A} `{!Serde A} (now : Z) (tenant scope : Uuid) (kind : string) (st : MfaState)
    : result CredError A * MfaState :=
  let '(r, db) := vgetdel now (passkey_ceremony tenant scope kind) (m_redis st) in
  (match r with Some r => ok_or (from_json r) MSerde | None => Err MBadRequest end, set_redis db st).

(** The user's passkeys with their rows. *)
Fixpoint open_keys (now : Z) (tenant : Uuid) (k : kstate) (rows : list CredRow)
    : result CredError (list (CredRow * StoredPasskey)) * kstate :=
  match rows with
  | [] => (Ok [], k)
  | row :: rows =>
      match open_secret now k tenant (cr_id row) (cr_data row) with
      | (Err e, k) => (Err e, k)
      | (Ok key, k) =>
          match open_keys now tenant k rows with
          | (Err e, k) => (Err e, k)
          | (Ok l, k) => (Ok ((row, key) :: l), k)
          end
      end
  end.
Definition keys_of (now : Z) (tenant user : Uuid) (st : MfaState)
    : result CredError (list (CredRow * StoredPasskey)) * MfaState :=
  let '(r, k) := open_keys now tenant (m_keys st) (list_secrets_of_type tenant user KIND (m_creds st)) in
  (r, set_kstate k st).

Definition display_name_of (u : PkUser) : list Z :=
  match trim <$> pu_name u with Some (c :: l) => c :: l | _ => pu_username u end.

(** Ask for a resident key where the authenticator can. *)
Definition prefer_resident (o : CreationOptions) : CreationOptions :=
  mkCreationOptions (co_rp_name o) (co_rp_id o) (co_user_id o) (co_user_name o) (co_display_name o) (co_challenge o)
    (co_algs o) (co_timeout o) (co_exclude o) true.

Definition begin_registration (now : Z) (challenge : list Z) (t : PkTenant) (scope : Uuid) (u : PkUser) (st : MfaState)
    : result CredError CreationOptions * MfaState :=
  match relying_party t with
  | Err e => (Err e, st)
  | Ok rp =>
      match keys_of now (pt_id t) (pu_id u) st with
      | (Err e, st) => (Err e, st)
      | (Ok keys, st) =>
          let account := default (pu_username u) (pu_email u) in
          match start_registration rp challenge (pu_id u) account (display_name_of u) ((fun rk => sp_cred_id rk.2) <$> keys) with
          | Err _ => (Err MInternal, st)
          | Ok (options, pending) => (Ok (prefer_resident options), put_state now (pt_id t) scope REGISTER pending st)
          end
      end
  end.

Definition clean_passkey_label (label : option (list Z)) : list Z :=
  match trim <$> label with Some (c :: l) => take 80 (c :: l) | _ => PASSKEY_LABEL end.

(** The event's text leaves out the label. *)
Definition finish_registration (now : Z) (id : Uuid) (rnd : Random) (t : PkTenant) (scope : Uuid) (u : PkUser)
    (credential : RegisterPublicKeyCredential) (label : option (list Z)) (st : MfaState)
    : result CredError (option CredRow) * MfaState :=
  match take_state now (pt_id t) scope REGISTER st with
  | (Err e, st) => (Err e, st)
  | (Ok pending, st) =>
      match relying_party t with
      | Err e => (Err e, st)
      | Ok rp =>
          match Webauthn.finish_registration client_data rp credential pending with
          | Err _ => (Ok None, st)
          | Ok key =>
              let ext := external_id (sp_cred_id key) in
              match find_secret_by_external_id (pt_id t) KIND ext (m_creds st) with
              | Some _ => (Err MConflict, st)
              | None =>
                  match seal_secret rnd (m_keys st) (pt_id t) id key with
                  | Err e => (Err e, st)
                  | Ok blob =>
                      let label := clean_passkey_label label in
                      let row := mkCredRow id (pt_id t) (pu_id u) KIND (Some label) blob now None (Some ext) in
                      (Ok (Some row), publish (pt_id t) (pu_id u) "passkey added" (set_creds (m_creds st ++ [row]) st))
                  end
              end
          end
      end
  end.

Definition begin_authentication (now : Z) (challenge : list Z) (t : PkTenant) (scope : Uuid) (u : PkUser) (st : MfaState)
    : result CredError RequestOptions * MfaState :=
  match keys_of now (pt_id t) (pu_id u) st with
  | (Err e, st) => (Err e, st)
  | (Ok [], st) => (Err MBadRequest, st)
  | (Ok keys, st) =>
      match relying_party t with
      | Err e => (Err e, st)
      | Ok rp =>
          let '(options, pending) := start_authentication rp challenge keys.*2 in
          (Ok options, put_state now (pt_id t) scope ASSERT pending st)
      end
  end.

(** Store the counter and backup flags and stamp the use. *)
Definition record_use (now : Z) (rnd : Random) (tenant credential : Uuid) (key : StoredPasskey) (result : Assertion)
    (st : MfaState) : Prelude.result CredError () * MfaState :=
  let '(changed, key) := update_passkey result key in
  if changed then
    match seal_secret rnd (m_keys st) tenant credential key with
    | Err e => (Err e, st)
    | Ok blob => (Ok (), set_creds (update_data now tenant credential blob (m_creds st)) st)
    end
  else (Ok (), set_creds (touch_last_used now tenant credential (m_creds st)) st).

(** The end of both kinds of sign-in, with the row and its key. *)
Definition verify_with (now : Z) (rnd : Random) (tenant : Uuid) (rp : RelyingParty) (credential : PublicKeyCredential)
    (pending : AuthenticationState) (row : CredRow) (key : StoredPasskey) (st : MfaState)
    : result CredError (option PkVerified) * MfaState :=
  match Webauthn.finish_authentication sha256 client_data rp credential pending key with
  | Err _ => (Ok None, st)
  | Ok a =>
      match record_use now rnd tenant (cr_id row) key a st with
      | (Err e, st) => (Err e, st)
      | (Ok _, st) => (Ok (Some (mkPkVerified (cr_id row) (a_user_verified a))), st)
      end
  end.

Definition finish_authentication (now : Z) (rnd : Random) (t : PkTenant) (scope : Uuid) (u : PkUser)
    (credential : PublicKeyCredential) (st : MfaState) : result CredError (option PkVerified) * MfaState :=
  match take_state now (pt_id t) scope ASSERT st with
  | (Err e, st) => (Err e, st)
  | (Ok pending, st) =>
      match relying_party t with
      | Err e => (Err e, st)
      | Ok rp =>
          match keys_of now (pt_id t) (pu_id u) st with
          | (Err e, st) => (Err e, st)
          | (Ok keys, st) =>
              match List.find (fun rk => bool_decide (sp_cred_id rk.2 = pkc_raw_id credential)) keys with
              | None => (Ok None, st)
              | Some (row, key) => verify_with now rnd (pt_id t) rp credential pending row key st
              end
          end
      end
  end.

Definition begin_discoverable (now : Z) (challenge : list Z) (t : PkTenant) (scope : Uuid) (st : MfaState)
    : result CredError RequestOptions * MfaState :=
  match relying_party t with
  | Err e => (Err e, st)
  | Ok rp =>
      let '(options, pending) := start_discoverable rp challenge in
      (Ok (mkRequestOptions (ro_challenge options) (ro_timeout options) (ro_rp_id options) (ro_allow options) false),
       put_state now (pt_id t) scope ASSERT pending st)
  end.

Definition finish_discoverable (now : Z) (rnd : Random) (t : PkTenant) (scope : Uuid) (credential : PublicKeyCredential)
    (st : MfaState) : result CredError (option (Uuid * PkVerified)) * MfaState :=
  match take_state now (pt_id t) scope ASSERT st with
  | (Err e, st) => (Err e, st)
  | (Ok pending, st) =>
      match relying_party t with
      | Err e => (Err e, st)
      | Ok rp =>
          match identify_discoverable credential with
          | Err _ => (Ok None, st)
          | Ok (user_id, cred_id) =>
              match find_secret_by_external_id (pt_id t) KIND (external_id cred_id) (m_creds st) with
              | Some row =>
                  if negb (cr_user row =? user_id) then (Ok None, st)
                  else
                    match open_secret now (m_keys st) (pt_id t) (cr_id row) (cr_data row) with
                    | (Err e, k) => (Err e, set_kstate k st)
                    | (Ok key, k) =>
                        match verify_with now rnd (pt_id t) rp credential pending row key (set_kstate k st) with
                        | (Ok (Some v), st) => (Ok (Some (user_id, v)), st)
                        | (Ok None, st) => (Ok None, st)
                        | (Err e, st) => (Err e, st)
                        end
                    end
              | None => (Ok None, st)
              end
          end
      end
  end.

Definition has_passkey (tenant user : Uuid) (st : MfaState) : bool := 0 <? count_of_types tenant user [KIND] (m_creds st).
End passkeys.

(** ** A challenge answers once *)

Section keys.
Context `{UuidDisplay}.
Lemma ceremony_inj t s k t' s' k' :
  passkey_ceremony t s k = passkey_ceremony t' s' k' -> t = t' /\ s = s' /\ k = k'.
Proof. unfold passkey_ceremony. intros E. by key_inv. Qed.
End keys.

Section history.
Context `{ValkeyLaws} `{UuidDisplay} `{KeyEncryptor} `{UrlLib} `{Signatures}.
Context `{!Serde RegistrationState} `{!Serde AuthenticationState} `{!JsonBytes StoredPasskey}.
Context (sha256 : list Z -> list Z) (b64 : list Z -> list Z) (client_data : list Z -> option ClientData).

(** Requests, with what each draws. *)
Inductive PkOp :=
| PkBeginRegistration (challenge : list Z) (t : PkTenant) (scope : Uuid) (u : PkUser)
| PkFinishRegistration (id : Uuid) (rnd : Random) (t : PkTenant) (scope : Uuid) (u : PkUser)
    (credential : RegisterPublicKeyCredential) (label : option (list Z))
| PkBeginAuthentication (challenge : list Z) (t : PkTenant) (scope : Uuid) (u : PkUser)
| PkFinishAuthentication (rnd : Random) (t : PkTenant) (scope : Uuid) (u : PkUser) (credential : PublicKeyCredential)
| PkBeginDiscoverable (challenge : list Z) (t : PkTenant) (scope : Uuid)
| PkFinishDiscoverable (rnd : Random) (t : PkTenant) (scope : Uuid) (credential : PublicKeyCredential).

Definition run_pk (now : Z) (op : PkOp) (st : MfaState) : MfaState :=
  match op with
  | PkBeginRegistration c t s u => (begin_registration sha256 now c t s u st).2
  | PkFinishRegistration id rnd t s u cred label => (finish_registration sha256 b64 client_data now id rnd t s u cred label st).2
  | PkBeginAuthentication c t s u => (begin_authentication sha256 now c t s u st).2
  | PkFinishAuthentication rnd t s u cred => (finish_authentication sha256 client_data now rnd t s u cred st).2
  | PkBeginDiscoverable c t s => (begin_discoverable sha256 now c t s st).2
  | PkFinishDiscoverable rnd t s cred => (finish_discoverable sha256 b64 client_data now rnd t s cred st).2
  end.

(** The challenge issued by a request for an assertion. *)
Definition issued (now : Z) (op : PkOp) (st : MfaState) : option (list Z) :=
  let asked (r : result CredError RequestOptions) := match r with Ok o => Some (ro_challenge o) | Err _ => None end in
  match op with
  | PkBeginAuthentication c t s u => asked (begin_authentication sha256 now c t s u st).1
  | PkBeginDiscoverable c t s => asked (begin_discoverable sha256 now c t s st).1
  | _ => None
  end.

(** The challenge of the pending ceremony a scope holds. *)
Definition pending (now : Z) (t s : Uuid) (st : MfaState) : option (list Z) :=
  as_challenge <$> (load_json now (passkey_ceremony t s ASSERT) (m_redis st) : option AuthenticationState).

(** The challenge an accepted sign-in answered. *)
Definition signed_in (now : Z) (op : PkOp) (st : MfaState) : option (list Z) :=
  match op with
  | PkFinishAuthentication rnd t s u cred =>
      match (finish_authentication sha256 client_data now rnd t s u cred st).1 with
      | Ok (Some _) => pending now (pt_id t) s st | _ => None
      end
  | PkFinishDiscoverable rnd t s cred =>
      match (finish_discoverable sha256 b64 client_data now rnd t s cred st).1 with
      | Ok (Some _) => pending now (pt_id t) s st | _ => None
      end
  | _ => None
  end.

Definition op_scope (op : PkOp) : Uuid * Uuid :=
  match op with
  | PkBeginRegistration _ t s _ | PkFinishRegistration _ _ t s _ _ _ | PkBeginAuthentication _ t s _
  | PkFinishAuthentication _ t s _ _ | PkBeginDiscoverable _ t s | PkFinishDiscoverable _ t s _ => (pt_id t, s)
  end.

Definition counts (x : option (list Z)) (c : list Z) : nat := if bool_decide (x = Some c) then 1 else 0.

(** How often the scope was signed in to with the challenge, and how often
    the challenge was issued to it, over a history. *)
Fixpoint sign_ins (scope : Uuid * Uuid) (c : list Z) (ops : list (Z * PkOp)) (st : MfaState) : nat :=
  match ops with
  | [] => 0
  | (now, op) :: ops =>
      ((if bool_decide (op_scope op = scope) then counts (signed_in now op st) c else 0)
       + sign_ins scope c ops (run_pk now op st))%nat
  end.
Fixpoint issues (scope : Uuid * Uuid) (c : list Z) (ops : list (Z * PkOp)) (st : MfaState) : nat :=
  match ops with
  | [] => 0
  | (now, op) :: ops =>
      ((if bool_decide (op_scope op = scope) then counts (issued now op st) c else 0)
       + issues scope c ops (run_pk now op st))%nat
  end.

(** *** What each request does to the cache *)

Lemma keys_of_redis now t u st : m_redis (keys_of now t u st).2 = m_redis st.
Proof. unfold keys_of. by destruct (open_keys _ _ _ _). Qed.

Lemma record_use_redis now rnd t id key a st : m_redis (record_use now rnd t id key a st).2 = m_redis st.
Proof. unfold record_use. destruct (update_passkey _ _) as [[] key']; [|done]. by destruct (seal_secret _ _ _ _ _). Qed.

Lemma verify_with_redis now rnd t rp cred p row key st :
  m_redis (verify_with sha256 client_data now rnd t rp cred p row key st).2 = m_redis st.
Proof.
  unfold verify_with. destruct (Webauthn.finish_authentication _ _ _ _ _ _) as [a|]; [|done].
  pose proof (record_use_redis now rnd t (cr_id row) key a st) as Hr. by destruct (record_use _ _ _ _ _ _ _) as [[] st'].
Qed.

Lemma finish_authentication_redis now rnd t s u cred st :
  m_redis (finish_authentication sha256 client_data now rnd t s u cred st).2
  = vdel now (passkey_ceremony (pt_id t) s ASSERT) (m_redis st).
Proof.
  unfold finish_authentication. cbn [take_state vgetdel]. unfold take_state, vgetdel.
  destruct (match vget _ _ _ with Some _ => _ | None => _ end) as [p|e]; [|done].
  destruct (relying_party _ _) as [rp|]; [|done]. set (st1 := set_redis _ _).
  pose proof (keys_of_redis now (pt_id t) (pu_id u) st1) as Hk. destruct (keys_of _ _ _ st1) as [[keys|] st2]; [|exact Hk].
  destruct (List.find _ _) as [[row key]|]; [|exact Hk]. by rewrite verify_with_redis.
Qed.

Lemma finish_discoverable_redis now rnd t s cred st :
  m_redis (finish_discoverable sha256 b64 client_data now rnd t s cred st).2
  = vdel now (passkey_ceremony (pt_id t) s ASSERT) (m_redis st).
Proof.
  unfold finish_discoverable, take_state, vgetdel.
  destruct (match vget _ _ _ with Some _ => _ | None => _ end) as [p|e]; [|done].
  destruct (relying_party _ _) as [rp|]; [|done]. destruct (identify_discoverable _) as [[uid cid]|]; [|done].
  destruct (find_secret_by_external_id _ _ _ _) as [row|]; [|done]. destruct (negb _); [done|].
  destruct (open_secret _ _ _ _ _) as [[key|] k]; [|done]. set (st1 := set_kstate _ _).
  pose proof (verify_with_redis now rnd (pt_id t) rp cred p row key st1) as Hv.
  by destruct (verify_with _ _ _ _ _ _ _ _ _ _ st1) as [[[v|]|] st2].
Qed.

Lemma begin_authentication_redis now c t s u st :
  let o := begin_authentication sha256 now c t s u st in
  match o.1 with
  | Ok opts => ro_challenge opts = c /\ exists p : AuthenticationState, as_challenge p = c
      /\ m_redis o.2 = vset_px now (passkey_ceremony (pt_id t) s ASSERT) (to_json p) 300000 (m_redis st)
  | Err _ => m_redis o.2 = m_redis st
  end.
Proof.
  unfold begin_authentication. pose proof (keys_of_redis now (pt_id t) (pu_id u) st) as Hk.
  destruct (keys_of _ _ _ st) as [[[|rk keys]|] st1]; cbn [fst snd] in *; [done| |done].
  destruct (relying_party _ _) as [rp|]; [|done]. split; [done|].
  exists (start_authentication rp c (rk :: keys).*2).2. split; [done|]. by rewrite <- Hk.
Qed.

Lemma begin_discoverable_redis now c t s st :
  let o := begin_discoverable sha256 now c t s st in
  match o.1 with
  | Ok opts => ro_challenge opts = c /\ exists p : AuthenticationState, as_challenge p = c
      /\ m_redis o.2 = vset_px now (passkey_ceremony (pt_id t) s ASSERT) (to_json p) 300000 (m_redis st)
  | Err _ => m_redis o.2 = m_redis st
  end.
Proof.
  unfold begin_discoverable. destruct (relying_party _ _) as [rp|]; [|done]. split; [done|].
  by exists (start_discoverable rp c).2.
Qed.

Lemma begin_registration_redis now c t s u st :
  m_redis (begin_registration sha256 now c t s u st).2 = m_redis st
  \/ exists v, m_redis (begin_registration sha256 now c t s u st).2
       = vset_px now (passkey_ceremony (pt_id t) s REGISTER) v 300000 (m_redis st).
Proof.
  unfold begin_registration. destruct (relying_party _ _) as [rp|]; [|by left].
  pose proof (keys_of_redis now (pt_id t) (pu_id u) st) as Hk. destruct (keys_of _ _ _ st) as [[keys|] st1]; [|by left].
  destruct (start_registration _ _ _ _ _ _) as [[o p]|]; [|by left]. right. exists (to_json p). by rewrite <- Hk.
Qed.

Lemma finish_registration_redis now id rnd t s u cred label st :
  m_redis (finish_registration sha256 b64 client_data now id rnd t s u cred label st).2
  = vdel now (passkey_ceremony (pt_id t) s REGISTER) (m_redis st).
Proof.
  unfold finish_registration, take_state, vgetdel.
  destruct (match vget _ _ _ with Some _ => _ | None => _ end) as [p|e]; [|done].
  destruct (relying_party _ _) as [rp|]; [|done]. destruct (Webauthn.finish_registration _ _ _ _) as [key|]; [|done].
  destruct (find_secret_by_external_id _ _ _ _) as [row|]; [done|]. by destruct (seal_secret _ _ _ _ _).
Qed.

(** The three things a request can do to a scope: leave it, take its pending
    ceremony, start one. *)
Lemma pk_cases now op st t s :
  let key := passkey_ceremony t s ASSERT in
  (m_redis (run_pk now op st) = vdel now key (m_redis st) /\ op_scope op = (t, s) /\ issued now op st = None
   /\ (signed_in now op st = None \/ signed_in now op st = pending now t s st))
  \/ (exists p : AuthenticationState, m_redis (run_pk now op st) = vset_px now key (to_json p) 300000 (m_redis st)
       /\ op_scope op = (t, s) /\ issued now op st = Some (as_challenge p) /\ signed_in now op st = None)
  \/ ((forall now', vget now' key (m_redis (run_pk now op st)) = vget now' key (m_redis st))
       /\ (op_scope op = (t, s) -> issued now op st = None /\ signed_in now op st = None)).
Proof.
  intros key.
  assert (forall t' s' k', (t', s', k') <> (t, s, ASSERT) -> passkey_ceremony t' s' k' <> key) as Hkey.
  { intros t' s' k' Hne E. apply Hne. by apply ceremony_inj in E as (-> & -> & ->). }
  destruct op as [c t' s' u|id rnd t' s' u cred label|c t' s' u|rnd t' s' u cred|c t' s'|rnd t' s' cred]; cbn [run_pk op_scope].
  - right. right. split; [|done]. intros now'. destruct (begin_registration_redis now c t' s' u st) as [->|[v ->]]; [done|].
    apply vget_set_ne, Hkey. by intros [=].
  - right. right. split; [|done]. intros now'. rewrite finish_registration_redis. apply vget_del_ne, Hkey. by intros [=].
  - pose proof (begin_authentication_redis now c t' s' u st) as Hb. cbv zeta in Hb. cbn [issued signed_in].
    destruct (begin_authentication _ _ _ _ _ _ _).1 as [o|e]; [|by right; right; rewrite Hb].
    destruct Hb as (Hc & p & Hp & ->). destruct (decide ((pt_id t', s') = (t, s))) as [[= <- <-]|Hne].
    + right. left. exists p. by rewrite Hc, Hp.
    + right. right. split; [|done]. intros now'. apply vget_set_ne, Hkey. congruence.
  - destruct (decide ((pt_id t', s') = (t, s))) as [[= <- <-]|Hne].
    + left. rewrite finish_authentication_redis. split_and!; [done..|]. cbn [signed_in].
      destruct (finish_authentication _ _ _ _ _ _ _ _ _).1 as [[]|]; [by right|by left|by left].
    + right. right. split; [|done]. intros now'. rewrite finish_authentication_redis. apply vget_del_ne, Hkey. congruence.
  - pose proof (begin_discoverable_redis now c t' s' st) as Hb. cbv zeta in Hb. cbn [issued signed_in].
    destruct (begin_discoverable _ _ _ _ _ _).1 as [o|e]; [|by right; right; rewrite Hb].
    destruct Hb as (Hc & p & Hp & ->). destruct (decide ((pt_id t', s') = (t, s))) as [[= <- <-]|Hne].
    + right. left. exists p. by rewrite Hc, Hp.
    + right. right. split; [|done]. intros now'. apply vget_set_ne, Hkey. congruence.
  - destruct (decide ((pt_id t', s') = (t, s))) as [[= <- <-]|Hne].
    + left. rewrite finish_discoverable_redis. split_and!; [done..|]. cbn [signed_in].
      destruct (finish_discoverable _ _ _ _ _ _ _ _ _).1 as [[]|]; [by right|by left|by left].
    + right. right. split; [|done]. intros now'. rewrite finish_discoverable_redis. apply vget_del_ne, Hkey. congruence.
Qed.

(** Time only empties a scope. *)
Lemma pending_later now now' t s st c :
  now <= now' -> pending now' t s st = Some c -> pending now t s st = Some c.
Proof.
  intros Hle. unfold pending, load_json. destruct (vget now' _ _) as [r|] eqn:E; [|done].
  by rewrite (vget_earlier now now' _ _ _ Hle E).
Qed.

Lemma counts_none c : counts None c = 0%nat.
Proof. unfold counts. by rewrite bool_decide_eq_false_2. Qed.

(** One request: what it accepts was pending, what is pending after it was
    pending before or issued by it. *)
Lemma pk_step now now' op st t s c :
  now <= now' ->
  ((if bool_decide (op_scope op = (t, s)) then counts (signed_in now op st) c else 0)
   + counts (pending now' t s (run_pk now op st)) c
   <= (if bool_decide (op_scope op = (t, s)) then counts (issued now op st) c else 0) + counts (pending now t s st) c)%nat.
Proof.
  intros Hle. assert (forall st', (counts (pending now' t s st') c <= counts (pending now t s st') c)%nat) as Hlater.
  { intros st'. unfold counts. destruct (bool_decide (pending now' _ _ _ = _)) eqn:E; [|lia]. bool_hyps.
    by rewrite (pending_later now now' _ _ _ _ Hle E), bool_decide_eq_true_2. }
  destruct (pk_cases now op st t s) as [(Hr & Hs & Hi & Hsi)|[(p & Hr & Hs & Hi & Hsi)|[Hr Hs]]].
  - rewrite (bool_decide_eq_true_2 _ Hs), Hi. unfold pending at 1, load_json. rewrite Hr, vget_del.
    cbn [mbind option_bind fmap option_fmap option_map]. rewrite !counts_none. destruct Hsi as [-> | ->]; rewrite ?counts_none; lia.
  - rewrite (bool_decide_eq_true_2 _ Hs), Hi, Hsi. unfold pending at 1, load_json. rewrite Hr, vget_set by lia.
    destruct (now' <? _); cbn [mbind option_bind fmap option_fmap option_map];
      rewrite ?from_to_json; cbn [fmap option_fmap option_map]; rewrite ?counts_none; lia.
  - assert (pending now' t s (run_pk now op st) = pending now' t s st) as -> by (unfold pending, load_json; by rewrite Hr).
    specialize (Hlater st). destruct (bool_decide _) eqn:E; [|lia]. bool_hyps. destruct (Hs E) as [-> ->]. rewrite counts_none. lia.
Qed.
End history.

(** A challenge answers once: over any history of passkey requests, a scope
    is signed in to with a challenge at most as often as the challenge was
    issued to it (counting one that is pending at the start). An answer
    that fails to verify spends its challenge too. *)
Theorem challenge_answers_once `{ValkeyLaws} `{UuidDisplay} `{KeyEncryptor} `{UrlLib} `{Signatures}
    `{!Serde RegistrationState} `{!Serde AuthenticationState} `{!JsonBytes StoredPasskey} sha256 b64 client_data
    (t s : Uuid) (c : list Z) (ops : list (Z * PkOp)) (now : Z) (st : MfaState) :
  StronglySorted Z.le (now :: ops.*1) ->
  (sign_ins sha256 b64 client_data (t, s) c ops st
   <= issues sha256 b64 client_data (t, s) c ops st + counts (pending now t s st) c)%nat.
Proof.
  revert now st. induction ops as [|[now' op] ops IH]; intros now st Hs; cbn [sign_ins issues]; [lia|].
  cbn [fmap list_fmap fst] in Hs. apply StronglySorted_cons in Hs as [Hle Hs]. apply Forall_cons in Hle as [Hle _].
  specialize (IH now' (run_pk sha256 b64 client_data now' op st) Hs).
  pose proof (pk_step sha256 b64 client_data now' now' op st t s c ltac:(lia)) as Hstep.
  assert (counts (pending now' t s st) c <= counts (pending now t s st) c)%nat; [|lia].
  unfold counts. destruct (bool_decide (pending now' _ _ _ = _)) eqn:E; [|lia]. bool_hyps.
  by rewrite (pending_later now now' _ _ _ _ Hle E), bool_decide_eq_true_2.
Qed.


(** ** Whose sign-in it is *)

Lemma find_external_spec t kind ext rows row :
  find_secret_by_external_id t kind ext rows = Some row ->
  row ∈ rows /\ cr_tenant row = t /\ cr_kind row = kind /\ cr_external row = Some ext.
Proof. intros [Hin Hd]%find_some. bool_hyps. split; [by apply list_elem_of_In|done]. Qed.

(** What a passwordless sign-in as [u] shows. *)
Record signed_in_as `{Valkey} `{UuidDisplay} `{KeyEncryptor} `{UrlLib} `{Signatures}
    `{!Serde AuthenticationState} `{!JsonBytes StoredPasskey} sha256 b64 client_data
    (now : Z) (t : PkTenant) (scope : Uuid) (cred : PublicKeyCredential) (st : MfaState) (u : Uuid) (v : PkVerified)
    : Prop := {
  si_handle : exists h, pkc_user_handle cred = Some h /\ zlen h = 16 /\ be_val h = u;
  si_row : exists row key p rp a,
    row ∈ m_creds st /\ cr_tenant row = pt_id t /\ cr_kind row = KIND /\ cr_user row = u /\ cr_id row = pv_credential_id v
    /\ cr_external row = Some (external_id b64 (pkc_raw_id cred))
    /\ (open_secret now (m_keys st) (pt_id t) (cr_id row) (cr_data row)).1 = Ok key
    /\ load_json now (passkey_ceremony (pt_id t) scope ASSERT) (m_redis st) = Some p
    /\ relying_party sha256 t = Ok rp /\ assertion_ok sha256 client_data rp cred p key a;
  si_verified : pv_user_verified v = true
}.

(** A passwordless sign-in names the owner of the passkey that signed: the
    user handle is the owner's id, the row is the owner's and of this tenant,
    and the assertion verifies with the key sealed in it against the challenge
    that was pending for this scope. *)
Theorem discoverable_sound `{Valkey} `{UuidDisplay} `{KeyEncryptor} `{UrlLib} `{Signatures}
    `{!Serde AuthenticationState} `{!JsonBytes StoredPasskey} sha256 b64 client_data
    (now : Z) (rnd : Random) (t : PkTenant) (scope : Uuid) (cred : PublicKeyCredential) (st st' : MfaState)
    (u : Uuid) (v : PkVerified) :
  bytes_ok (pkc_authenticator_data cred) ->
  finish_discoverable sha256 b64 client_data now rnd t scope cred st = (Ok (Some (u, v)), st') ->
  signed_in_as sha256 b64 client_data now t scope cred st u v.
Proof.
  intros Hb. unfold finish_discoverable, take_state, vgetdel.
  destruct (match vget _ _ _ with Some _ => _ | None => _ end) as [p|e] eqn:Ep; [|done].
  destruct (relying_party _ _) as [rp|] eqn:Erp; [|done]. unfold identify_discoverable.
  destruct (pkc_user_handle cred) as [h|] eqn:Eh; [|done]. cbn [ok_or]. unfold uuid_from_slice.
  destruct (zlen h =? 16) eqn:El; [|done]. cbn [ok_or set_redis m_creds m_keys].
  destruct (find_secret_by_external_id _ _ _ _) as [row|] eqn:Ef; [|done]. apply find_external_spec in Ef as (Hin & Ht & Hk & Hx).
  destruct (negb (cr_user row =? be_val h)) eqn:Eu; [done|].
  destruct (open_secret _ _ _ _ _) as [[key|] k] eqn:Eo; [|done]. unfold verify_with.
  destruct (Webauthn.finish_authentication _ _ _ _ _ _) as [a|] eqn:Ea; [|done]. apply finish_sound in Ea; [|done].
  destruct (record_use _ _ _ _ _ _ _) as [[[]|] st2]; [|done]. intros [= <- <- <-]. bool_hyps.
  constructor; [by exists h| |].
  - exists row, key, p, rp, a. split_and!; try done; [by rewrite Eo|]. unfold load_json.
    destruct (vget _ _ _) as [r|]; [|done]. cbn. by destruct (from_json r); [injection Ep as ->|].
  - by destruct Ea as [_ _ _ (d & _ & _ & _ & _ & _ & _ & _ & ->)].
Qed.

(** ** Registered, then signed in *)

Lemma find_app_none {A} (f : A -> bool) l l' : List.find f l = None -> List.find f (l ++ l') = List.find f l'.
Proof. induction l as [|x l IH]; [done|]. cbn. by destruct (f x). Qed.

Section registered.
Context `{ValkeyLaws} `{UuidDisplay} `{KeyEncryptorLaws} `{UrlLib} `{Signatures}.
Context `{!Serde RegistrationState} `{!Serde AuthenticationState} `{!JsonBytes StoredPasskey}.
Context (sha256 : list Z -> list Z) (b64 : list Z -> list Z) (client_data : list Z -> option ClientData).

(** What a registration leaves: the row, found by its credential id and
    readable, for a relying party that is configured. *)
Lemma finish_registration_spec now id rnd t s u cred label st row st' :
  ke_ok (m_keys st) -> random_ok rnd -> bytes_ok (reg_attestation_object cred) ->
  finish_registration sha256 b64 client_data now id rnd t s u cred label st = (Ok (Some row), st') ->
  exists rp pending key, relying_party sha256 t = Ok rp
    /\ Webauthn.finish_registration client_data rp cred pending = Ok key /\ registration_ok client_data rp cred pending key
    /\ cr_id row = id /\ cr_user row = pu_id u /\ m_keys st' = m_keys st
    /\ find_secret_by_external_id (pt_id t) KIND (external_id b64 (sp_cred_id key)) (m_creds st') = Some row
    /\ holds (m_keys st') (pt_id t) id (cr_data row) key.
Proof.
  intros Hk Hr Hb. unfold finish_registration, take_state, vgetdel.
  destruct (match vget _ _ _ with Some _ => _ | None => _ end) as [p|e]; [|done].
  destruct (relying_party _ _) as [rp|]; [|done].
  destruct (Webauthn.finish_registration _ _ _ _) as [key|] eqn:Ef; [|done]. cbn [set_redis m_creds m_keys].
  destruct (find_secret_by_external_id _ _ _ _) as [row'|] eqn:Ex; [done|].
  destruct (seal_secret _ _ _ _ _) as [blob|] eqn:Es; [|done]. intros [= <- <-].
  exists rp, p, key. split_and!; [done|done|by apply register_sound|done|done|done| |].
  - cbn. unfold find_secret_by_external_id in *. rewrite find_app_none by done. cbn.
    by rewrite bool_decide_eq_true_2.
  - cbn. by apply (seal_holds rnd).
Qed.
End registered.

(** From registration to a passwordless sign-in: after a passkey was
    registered and a sign-in was begun, the answer of its authenticator within
    five minutes (the user's id as handle, a counter that advanced, a
    signature that verifies, sent by a page of the relying party) signs the
    user in with that credential; the only other outcome is that storing the
    new counter fails. *)
Theorem registered_discoverable `{ValkeyLaws} `{UuidDisplay} `{KeyEncryptorLaws} `{UrlLib} `{Signatures}
    `{!Serde RegistrationState} `{!Serde AuthenticationState} `{!JsonBytes StoredPasskey} sha256 b64 client_data
    (now now2 now3 : Z) (id : Uuid) (rnd rnd3 : Random) (t : PkTenant) (s s2 : Uuid) (u : PkUser)
    (reg : RegisterPublicKeyCredential) (label : option (list Z)) (st st1 st2 : MfaState) (row : CredRow)
    (challenge : list Z) (opts : RequestOptions) (key : StoredPasskey) (counter : Z) (json signature : list Z) :
  ke_ok (m_keys st) -> random_ok rnd -> bytes_ok (reg_attestation_object reg) ->
  finish_registration sha256 b64 client_data now id rnd t s u reg label st = (Ok (Some row), st1) ->
  begin_discoverable sha256 now2 challenge t s2 st1 = (Ok opts, st2) ->
  now2 <= now3 < now2 + 300000 ->
  (open_secret now3 (m_keys st1) (pt_id t) id (cr_data row)).1 = Ok key ->
  fits_u 128 (pu_id u) -> fits_u 32 counter -> sp_counter key < counter ->
  (forall rp, relying_party sha256 t = Ok rp ->
     zlen (rp_id_hash rp) = 32 /\ answers_on_page client_data rp challenge json
     /\ verify_sig (sp_cred key) (honest_data (rp_id_hash rp) key counter ++ sha256 json) signature = true) ->
  exists rp, relying_party sha256 t = Ok rp /\
  let cred := mkPublicKeyCredential (sp_cred_id key) (honest_data (rp_id_hash rp) key counter) json signature
                (Some (be_bytes 16 (pu_id u))) in
  let r := (finish_discoverable sha256 b64 client_data now3 rnd3 t s2 cred st2).1 in
  r = Ok (Some (pu_id u, mkPkVerified id true)) \/ r = Err MInternal.
Proof.
  intros Hk Hr Hb Hf Hbd Hnow Hopen Hu Hc Hctr Hhonest.
  destruct (finish_registration_spec _ _ _ _ _ _ _ _ _ _ _ _ _ _ Hk Hr Hb Hf)
    as (rp & p & key' & Hrp & _ & Hreg & Hid & Huser & Hkeys & Hfind & Hh).
  rewrite Hkeys in *. destruct (Hh now3 (m_keys st) (ke_le_refl _) Hk) as (k' & Ho & _). rewrite Ho in Hopen.
  injection Hopen as ->. destruct (Hhonest rp Hrp) as (Hhash & Hpage & Hsig). exists rp. split; [done|].
  unfold begin_discoverable in Hbd. rewrite Hrp in Hbd. cbn in Hbd. injection Hbd as _ <-.
  unfold finish_discoverable, take_state, vgetdel. unfold put_state. cbn [set_redis m_redis m_creds m_keys].
  rewrite vget_set by (unfold CEREMONY_TTL_SECS; lia). rewrite (proj2 (Z.ltb_lt now3 _)) by (unfold CEREMONY_TTL_SECS; lia). rewrite from_to_json. cbn [ok_or].
  rewrite Hrp. unfold identify_discoverable, uuid_from_slice. cbn [pkc_user_handle ok_or pkc_raw_id].
  rewrite be_bytes_zlen. change (Z.of_nat 16 =? 16) with true. cbn [ok_or].
  rewrite be_val_be_bytes, Z.mod_small by exact Hu. rewrite Hfind, Huser, Z.eqb_refl. cbn [negb].
  rewrite Hkeys, Hid, Ho. unfold verify_with.
  rewrite (honest_accepted sha256 client_data rp key); try done; [|apply (ro_backup _ _ _ _ _ Hreg)|by left|by right].
  unfold record_use. destruct (update_passkey _ _) as [[] key2]; rewrite ?Hid.
  - destruct (seal_secret _ _ _ _ _) as [blob|e] eqn:Es; [by left|]. right. by rewrite (seal_err _ _ _ _ _ _ Es).
  - by left.
Qed.

(** ** A deployment *)

Section example.

Definition pk_valkey : Valkey := map_valkey (R := RegistrationState + AuthenticationState).
Definition pk_serde_reg : @Serde pk_valkey RegistrationState :=
  {| to_json p := inl p : @raw pk_valkey;
     from_json r := match r with inl p => Some p | inr _ => None end;
     from_to_json _ := eq_refl |}.
Definition pk_serde_auth : @Serde pk_valkey AuthenticationState :=
  {| to_json p := inr p : @raw pk_valkey;
     from_json r := match r with inr p => Some p | inl _ => None end;
     from_to_json _ := eq_refl |}.

(** A passkey as numbers and byte strings. *)
Definition all_algs : list CoseAlgorithm :=
  [ES256; ES384; ES512; RS256; RS384; RS512; PS256; PS384; PS512; EdDsa; InsecureRs1; PinUvProtocol].
Definition alg_of (i : Z) : CoseAlgorithm := default ES256 (List.find (fun a => alg_id a =? i) all_algs).
Definition key_code (k : CoseKeyType) : Z * list Z * list Z :=
  match k with
  | Ec2 k => (match ec_curve k with SECP256R1 => 0 | SECP384R1 => 1 | SECP521R1 => 2 end, ec_x k, ec_y k)
  | Okp k => (match okp_curve k with ED25519 => 3 | ED448 => 4 end, okp_x k, [])
  | Rsa k => (5, rsa_n k, rsa_e k)
  end.
Definition key_uncode (c : Z * list Z * list Z) : CoseKeyType :=
  let '(i, x, y) := c in
  if i =? 0 then Ec2 (mkEc2Key SECP256R1 x y) else if i =? 1 then Ec2 (mkEc2Key SECP384R1 x y)
  else if i =? 2 then Ec2 (mkEc2Key SECP521R1 x y) else if i =? 3 then Okp (mkOkpKey ED25519 x)
  else if i =? 4 then Okp (mkOkpKey ED448 x) else Rsa (mkRsaKey x y).
Definition ext_code (x : Extensions) : Z * Z * Z :=
  (match x_protect x with ProtectIgnored => 0 | ProtectSet UvOptional => 1 | ProtectSet UvOptionalWithIds => 2 | _ => 3 end,
   match x_hmac x with HmacNotRequested => 0 | HmacUnsolicited false => 1 | HmacUnsolicited true => 2 end,
   match x_props x with
   | PropsIgnored => 0 | PropsUnsigned None => 1 | PropsUnsigned (Some false) => 2 | PropsUnsigned (Some true) => 3
   end).
Definition ext_uncode (c : Z * Z * Z) : Extensions :=
  let '(p, h, r) := c in
  mkExtensions (if p =? 0 then ProtectIgnored else if p =? 1 then ProtectSet UvOptional
                else if p =? 2 then ProtectSet UvOptionalWithIds else ProtectSet UvRequired)
    (if h =? 0 then HmacNotRequested else HmacUnsolicited (h =? 2))
    (if r =? 0 then PropsIgnored else if r =? 1 then PropsUnsigned None else PropsUnsigned (Some (r =? 3))).

(** A byte string behind its length. *)
Definition put (l : list Z) : list Z := zlen l :: l.
Definition get (l : list Z) : option (list Z * list Z) :=
  match l with n :: l => Some (take (Z.to_nat n) l, drop (Z.to_nat n) l) | [] => None end.
Lemma get_put l r : get (put l ++ r) = Some (l, r).
Proof. cbn. by rewrite zlen_to_nat, take_app_length, drop_app_length. Qed.

Definition pk_code (p : StoredPasskey) : list Z :=
  let '(i, x, y) := key_code (cose_key (sp_cred p)) in
  let '(pr, h, r) := ext_code (sp_extensions p) in
  put (sp_cred_id p) ++ put x ++ put y ++ put (sp_format p)
  ++ [alg_id (type_ (sp_cred p)); i; sp_counter p; Z.b2z (sp_user_verified p); Z.b2z (sp_backup_eligible p);
      Z.b2z (sp_backup_state p); pr; h; r].
Definition pk_uncode (l : list Z) : option StoredPasskey :=
  '(id, l) ← get l; '(x, l) ← get l; '(y, l) ← get l; '(f, l) ← get l;
  match l with
  | [alg; i; n; v; e; b; pr; h; r] =>
      Some (mkStoredPasskey id (mkCoseKey (alg_of alg) (key_uncode (i, x, y))) n (v =? 1) (e =? 1) (b =? 1)
              (ext_uncode (pr, h, r)) f)
  | _ => None
  end.
Lemma pk_uncode_code p : pk_uncode (pk_code p) = Some p.
Proof.
  destruct p as [id [alg key] n v e b [pr h r] f]. unfold pk_uncode, pk_code. cbn [sp_cred cose_key sp_extensions sp_cred_id sp_format].
  destruct (key_code key) as [[i x] y] eqn:Ek, (ext_code _) as [[p' h'] r'] eqn:Ex. rewrite !get_put. cbn [mbind option_bind].
  rewrite get_put. cbn [mbind option_bind]. rewrite get_put. cbn [mbind option_bind]. rewrite get_put. cbn [mbind option_bind].
  rewrite <- Ek, <- Ex. cbn [type_ sp_counter sp_user_verified sp_backup_eligible sp_backup_state]. do 2 f_equal.
  - f_equal; [by destruct alg|]. by destruct key as [[[] ? ?]|[[] ?]|[]].
  - by destruct v.
  - by destruct e.
  - by destruct b.
  - by destruct pr as [|[]], h as [|[]], r as [|[[]|]].
Qed.
Definition pk_json : JsonBytes StoredPasskey := {| to_vec := pk_code; from_slice := pk_uncode; from_to_vec := pk_uncode_code |}.

Local Existing Instances pk_valkey pk_serde_reg pk_serde_auth pk_json mf_encryptor mf_encryptor_laws toy_uuid toy_url toy_signatures.

Definition pk_tenant : PkTenant := mkPkTenant wa_origin wa_origin 1 [] (Some (ascii_bytes "id.example.com")).
Definition pk_user : PkUser := mkPkUser 2 (ascii_bytes "bo") None None.
Definition pk_empty : @MfaState pk_valkey mf_encryptor := @mkMfaState pk_valkey mf_encryptor (∅ : gmap string _) [] mf_node [].
Definition pk_rp : RelyingParty :=
  mkRelyingParty (ascii_bytes "id.example.com") [] [wa_origin] (wa_sha (ascii_bytes "id.example.com")).
Example pk_rp_of : relying_party wa_sha pk_tenant = Ok pk_rp.
Proof. vm_compute. reflexivity. Qed.

Definition pk_auth_data : list Z := rp_id_hash pk_rp ++ [0x45] ++ [0; 0; 0; 0] ++ replicate 16 0 ++ [0; 2] ++ [8; 9] ++ wa_cose.
Definition pk_reg : RegisterPublicKeyCredential :=
  mkRegisterPublicKeyCredential [1]
    ([162; 99] ++ ascii_bytes "fmt" ++ [100] ++ ascii_bytes "none" ++ [104] ++ ascii_bytes "authData" ++ [88; 134] ++ pk_auth_data)
    None.
Definition pk_begun := begin_registration wa_sha 0 wa_challenge pk_tenant 5 pk_user pk_empty.
Definition pk_done := finish_registration wa_sha mf_b64 wa_client 1000 8 (ex_rnd 1) pk_tenant 5 pk_user pk_reg None pk_begun.2.
Definition pk_row : CredRow :=
  match pk_done.1 with Ok (Some r) => r | _ => mkCredRow 0 0 0 "" None [] 0 None None end.
Definition pk_asked := begin_discoverable wa_sha 60000 wa_challenge pk_tenant 6 pk_done.2.

Example pk_registered : pk_done.1 = Ok (Some pk_row) /\ cr_id pk_row = 8.
Proof. vm_compute. done. Qed.

Definition pk_passkey : StoredPasskey :=
  mkStoredPasskey [8; 9] wa_key 0 true false false (mkExtensions ProtectIgnored HmacNotRequested PropsIgnored) (ascii_bytes "none").
Definition pk_data (counter : Z) : list Z := honest_data (rp_id_hash pk_rp) pk_passkey counter.
Definition pk_sig (counter : Z) : list Z := uncompressed (mkEc2Key SECP256R1 wa_x wa_y) ++ pk_data counter ++ wa_sha [2].
Definition pk_answer (counter : Z) : PublicKeyCredential :=
  mkPublicKeyCredential [8; 9] (pk_data counter) [2] (pk_sig counter) (Some (be_bytes 16 2)).

(** The first answer signs in; presented again, it finds no challenge. *)
Definition pk_ops : list (Z * PkOp) :=
  [(0, PkBeginRegistration wa_challenge pk_tenant 5 pk_user);
   (1000, PkFinishRegistration 8 (ex_rnd 1) pk_tenant 5 pk_user pk_reg None);
   (60000, PkBeginDiscoverable wa_challenge pk_tenant 6);
   (61000, PkFinishDiscoverable (ex_rnd 2) pk_tenant 6 (pk_answer 5));
   (62000, PkFinishDiscoverable (ex_rnd 3) pk_tenant 6 (pk_answer 6))].
Example pk_signed_in_once : sign_ins wa_sha mf_b64 wa_client (1, 6) wa_challenge pk_ops pk_empty = 1%nat
  /\ issues wa_sha mf_b64 wa_client (1, 6) wa_challenge pk_ops pk_empty = 1%nat.
Proof. vm_compute. done. Qed.

Lemma challenge_answers_once_witness :
  le (sign_ins wa_sha mf_b64 wa_client (1, 6) wa_challenge pk_ops pk_empty) 1.
Proof.
  apply (@challenge_answers_once pk_valkey map_valkey_laws toy_uuid mf_encryptor toy_url toy_signatures pk_serde_reg pk_serde_auth
    pk_json wa_sha mf_b64 wa_client 1 6 wa_challenge pk_ops 0 pk_empty).
  cbn. repeat first [apply SSorted_nil | apply Forall_nil_2 | apply Forall_cons_2; [lia|] | apply SSorted_cons].
Defined.

Definition pk_signed := finish_discoverable wa_sha mf_b64 wa_client 61000 (ex_rnd 2) pk_tenant 6 (pk_answer 5) pk_asked.2.
Example pk_signed_in : pk_signed.1 = Ok (Some (2, mkPkVerified 8 true)).
Proof. vm_compute. reflexivity. Qed.

Lemma discoverable_sound_witness :
  signed_in_as wa_sha mf_b64 wa_client 61000 pk_tenant 6 (pk_answer 5) pk_asked.2 2 (mkPkVerified 8 true).
Proof.
  apply (discoverable_sound wa_sha mf_b64 wa_client 61000 (ex_rnd 2) pk_tenant 6 (pk_answer 5) pk_asked.2 pk_signed.2).
  - decide_now.
  - fold pk_signed. rewrite <- pk_signed_in. by destruct pk_signed.
Defined.

Lemma registered_discoverable_witness :
  exists rp, relying_party wa_sha pk_tenant = Ok rp /\
  let cred := mkPublicKeyCredential [8; 9] (honest_data (rp_id_hash rp) pk_passkey 5) [2] (pk_sig 5) (Some (be_bytes 16 2)) in
  let r := (finish_discoverable wa_sha mf_b64 wa_client 61000 (ex_rnd 2) pk_tenant 6 cred pk_asked.2).1 in
  r = Ok (Some (2, mkPkVerified 8 true)) \/ r = Err MInternal.
Proof.
  destruct pk_asked as [[opts|] st2] eqn:Ea; [|apply (f_equal fst) in Ea; vm_compute in Ea; done].
  apply (@registered_discoverable pk_valkey map_valkey_laws toy_uuid mf_encryptor mf_encryptor_laws toy_url toy_signatures
    pk_serde_reg pk_serde_auth pk_json wa_sha mf_b64 wa_client
    1000 60000 61000 8 (ex_rnd 1) (ex_rnd 2) pk_tenant 5 6 pk_user pk_reg None pk_begun.2 pk_done.2 st2 pk_row wa_challenge
    opts pk_passkey 5 [2] (pk_sig 5)).
  - assert (m_keys pk_begun.2 = mf_node) as -> by (vm_compute; reflexivity). apply mf_node_ok.
  - apply ex_rnd_ok.
  - decide_now.
  - fold pk_done. rewrite <- (proj1 pk_registered). by destruct pk_done.
  - exact Ea.
  - lia.
  - vm_compute. reflexivity.
  - split; [discriminate|vm_compute; reflexivity].
  - split; [discriminate|vm_compute; reflexivity].
  - cbn. lia.
  - rewrite pk_rp_of. intros rp [= <-]. split_and!; [vm_compute; reflexivity|apply wa_page|vm_compute; reflexivity].
Defined.
End example.
