(* ===== verification/ApiErrors.v ===== *)
(** * Errors of the services

    [AppError] of [api/src/error.rs], its status and the problem body a client
    sees. *)

From S2P Require Import Prelude.

Record FieldError := mkFieldError { fe_field : string; fe_message : string }.

(** [AppError]; the text of a database, cache or internal error is for the
    log. *)
Inductive ApiError :=
| BadRequest (detail : string)
| InvalidFields (fields : list FieldError)                   (* [Validation] *)
| Unauthorized
| Forbidden (detail : string)
| ReauthenticationRequired (mfa : bool)
| ImpersonationForbidden
| ApiNotFound (what : string)
| ApiConflict (detail : string)
| ApiRateLimited (retry_after_secs : Z)
| Unavailable (detail : string)
| DatabaseError (detail : string)
| CacheError (detail : string)
| InternalError (detail : string).

Definition status (e : ApiError) : Z :=
  match e with
  | BadRequest _ | InvalidFields _ => 400
  | Unauthorized => 401
  | Forbidden _ | ReauthenticationRequired _ | ImpersonationForbidden => 403
  | ApiNotFound _ => 404
  | ApiConflict _ => 409
  | ApiRateLimited _ => 429
  | Unavailable _ => 503
  | DatabaseError _ | CacheError _ | InternalError _ => 500
  end.

(** The [Display] of [AppError]. *)
Definition format_fields (fields : list FieldError) : string :=
  String.concat "; " ((fun f => (fe_field f ++ " " ++ fe_message f)%string) <$> fields).
Definition error_text (e : ApiError) : string :=
  match e with
  | BadRequest d | Forbidden d | ApiConflict d => d
  | InvalidFields fields => "validation failed: " ++ format_fields fields
  | Unauthorized => "authentication required"
  | ReauthenticationRequired mfa =>
      "sign in again" ++ (if mfa then " with your second step" else "") ++ " to change security settings"
  | ImpersonationForbidden => "this cannot be done while impersonating a user"
  | ApiNotFound what => what ++ " not found"
  | ApiRateLimited _ => "rate limit exceeded"
  | Unavailable d => "service unavailable: " ++ d
  | DatabaseError _ => "database error"
  | CacheError _ => "cache error"
  | InternalError d => "internal error: " ++ d
  end%string.

(** [problem]: the details of a server error are not in the body. *)
Record Problem := mkProblem { pr_status : Z; pr_detail : option string; pr_errors : option (list FieldError) }.
Definition problem (e : ApiError) : Problem :=
  mkProblem (status e) (if 500 <=? status e then None else Some (error_text e))
    (match e with InvalidFields fields => Some fields | _ => None end).

(** [shared]: a copy of a failure handed to several callers. *)
Definition shared (e : ApiError) : ApiError :=
  match e with DatabaseError d => InternalError ("database error: " ++ d) | e => e end.
