(* ===== verification/Models.v ===== *)
(** * Records of the token services

    The records of [api/src/models/] that the token endpoint and the services
    behind it read ([tenant.rs], [user.rs], [role.rs], [group.rs], [scope.rs],
    [client.rs], [claim_mapper.rs], [profile_schema.rs], [signing_key.rs]), with
    the fields these services use, and [serde_json]'s values. Times are in
    milliseconds, durations in seconds. *)

From stdpp Require Import gmap strings.
From S2P Require Import Prelude Valkey.

(** ** JSON values *)

(** A number is a machine integer or a float, which is never computed with. *)
Inductive Number := NInt (z : Z) | NFloat (text : string).
Inductive Value :=
| VNull
| VBool (b : bool)
| VNumber (n : Number)
| VString (s : string)
| VArray (l : list Value)
| VObject (m : list (string * Value)).

#[export] Instance number_dec : EqDecision Number.
Proof. solve_decision. Defined.
Fixpoint value_dec (x y : Value) {struct x} : Decision (x = y).
Proof.
  refine (
    match x, y with
    | VNull, VNull => left eq_refl
    | VBool a, VBool b => cast_if (decide (a = b))
    | VNumber a, VNumber b => cast_if (decide (a = b))
    | VString a, VString b => cast_if (decide (a = b))
    | VArray a, VArray b => cast_if (List.list_eq_dec value_dec a b)
    | VObject a, VObject b =>
        cast_if (List.list_eq_dec
          (fun p q : string * Value =>
             match p, q return Decision (p = q) with
             | (k1, v1), (k2, v2) =>
                 match decide (k1 = k2), value_dec v1 v2 with
                 | left Hk, left Hv => left _
                 | _, _ => right _
                 end
             end) a b)
    | _, _ => right _
    end); congruence.
Defined.
#[export] Instance value_eq_dec : EqDecision Value := value_dec.

(** [serde_json::Map]. *)
Abbreviation Map := (gmap string Value).

Definition is_null (v : Value) : bool := match v with VNull => true | _ => false end.
Definition is_object (v : Value) : bool := match v with VObject _ => true | _ => false end.
Definition as_str (v : Value) : option string := match v with VString s => Some s | _ => None end.
(** The integer of a number. Times this server wrote itself are read with it:
    they come from a clock and are never out of the range of [as_i64]. *)
Definition as_int (v : Value) : option Z := match v with VNumber (NInt z) => Some z | _ => None end.
(** [Value::as_i64], for numbers anybody may have written. *)
Definition value_i64 (v : Value) : option Z :=
  match as_int v with Some z => if (- 2 ^ 63 <=? z) && (z <? 2 ^ 63) then Some z else None | None => None end.
Definition as_array (v : Value) : option (list Value) := match v with VArray l => Some l | _ => None end.

(** [Value::get] on an object's key. *)
Definition get_key (v : Value) (k : string) : option Value :=
  match v with
  | VObject m => snd <$> List.find (fun p => String.eqb p.1 k) m
  | _ => None
  end.

(** [json!] of a list of strings, of an integer. *)
Definition json_strings (l : list string) : Value := VArray (VString <$> l).
Definition json_int (z : Z) : Value := VNumber (NInt z).

(** ** Tenants, users, roles and groups *)

Inductive SigningAlg := RS256 | RS384 | RS512 | ES256 | EdDSA.
#[export] Instance signing_alg_dec : EqDecision SigningAlg.
Proof. solve_decision. Defined.

Definition SigningAlg_as_str (a : SigningAlg) : string :=
  match a with
  | RS256 => "RS256" | RS384 => "RS384" | RS512 => "RS512" | ES256 => "ES256" | EdDSA => "EdDSA"
  end.
Definition SigningAlg_ALL : list SigningAlg := [RS256; RS384; RS512; ES256; EdDSA].

(** [u8::to_ascii_lowercase], and [str::eq_ignore_ascii_case]. *)
Definition to_ascii_lowercase (c : Ascii.ascii) : Ascii.ascii :=
  let n := Ascii.nat_of_ascii c in
  if ((65 <=? n) && (n <=? 90))%nat then Ascii.ascii_of_nat (n + 32) else c.
Definition eq_ignore_ascii_case (s t : string) : bool :=
  bool_decide (to_ascii_lowercase <$> String.list_ascii_of_string s
               = to_ascii_lowercase <$> String.list_ascii_of_string t).
(** [SigningAlg::from_str]. *)
Definition parse_alg (s : string) : option SigningAlg :=
  List.find (fun a => eq_ignore_ascii_case (SigningAlg_as_str a) s) SigningAlg_ALL.

(** [KeyPolicy], of which the size of RSA keys is left out. *)
Record KeyPolicy := mkKeyPolicy {
  default_alg : SigningAlg;
  rotation_interval_days : Z;
  retire_overlap_hours : Z
}.

Record FeatureFlag := mkFeatureFlag {
  ff_enabled : bool;
  ff_organizations : gmap string bool
}.

(** A tenant, with the settings the token services read. *)
Record Tenant := mkTenant {
  tn_id : Uuid;
  tn_slug : string;
  tn_display_name : string;
  tn_access_token_ttl_secs : Z;
  tn_refresh_token_ttl_secs : Z;
  tn_id_token_ttl_secs : Z;
  tn_keys : KeyPolicy;
  tn_custom_domain : option string;
  tn_features : list (string * FeatureFlag);      (* in the order of the keys *)
  tn_pairwise_salt : list Z
}.

Inductive UserStatus := UActive | UDisabled | ULocked | UPending | UDeleted.

Record User := mkUser {
  u_id : Uuid;
  u_org_id : option Uuid;
  u_username : string;
  u_email : option string;
  u_email_verified : bool;
  u_phone : option string;
  u_phone_verified : bool;
  u_status : UserStatus;
  u_attributes : Value;
  u_locale : option string;
  u_created_at : Z;
  u_updated_at : Z
}.

Record Role := mkRole { ro_id : Uuid; ro_client_id : option Uuid; ro_name : string }.
Record Group := mkGroup { g_id : Uuid; g_parent_id : option Uuid; g_name : string }.

Record Scope := mkScope {
  sc_id : Uuid;
  sc_name : string;
  sc_claims : list string;
  sc_resource_server_id : option Uuid;
  sc_is_default : bool
}.

Record ResourceServer := mkResourceServer {
  rs_id : Uuid;
  rs_identifier : string;
  rs_token_ttl_secs : option Z;
  rs_signing_alg : option string;
  rs_allow_offline_access : bool;
  rs_built_in : bool
}.

(** ** Profile schemas and claim mappers *)

Inductive Exposure := XIdToken | XUserinfo | XAccessToken.
#[export] Instance exposure_dec : EqDecision Exposure.
Proof. solve_decision. Defined.
Inductive AttributeType := TString | TNumber | TBoolean | TEmail | TUrl | TPhone | TDate | TEnum | TJson.
Inductive EditableBy := ByUser | ByAdmin | ByNone.
#[export] Instance attribute_type_dec : EqDecision AttributeType.
Proof. solve_decision. Defined.
#[export] Instance editable_by_dec : EqDecision EditableBy.
Proof. solve_decision. Defined.

(** Bounds on numbers are [f64]s. *)
Record AttributeValidation := mkAttributeValidation {
  av_min_length : option Z;
  av_max_length : option Z;
  av_pattern : option string;
  av_min : option Number;
  av_max : option Number;
  av_values : list string
}.
(** [AttributeDef], less what only forms show (label, description, order). *)
Record AttributeDef := mkAttributeDef {
  ad_name : string;
  ad_kind : AttributeType;
  ad_required : bool;
  ad_multivalued : bool;
  ad_editable_by : EditableBy;
  ad_visible_in : list Exposure;
  ad_validation : AttributeValidation
}.
Record ProfileSchema := mkProfileSchema {
  ps_attributes : list AttributeDef;
  ps_allow_undeclared : bool
}.
(** [ProfileSchema::get]. *)
Definition schema_get (s : ProfileSchema) (name : string) : option AttributeDef :=
  List.find (fun a => String.eqb (ad_name a) name) (ps_attributes s).

Inductive TokenKind := Access | IdTok | Userinfo.
#[export] Instance token_kind_dec : EqDecision TokenKind.
Proof. solve_decision. Defined.
Inductive JsonType := JString | JNumber | JBoolean | JJson.
Inductive MapperKind :=
| MUserAttribute (attribute claim : string) (json_type : JsonType)
| MGroups (claim : string) (full_path : bool)
| MRoles (claim : string) (client_id : option string)
| MHardcoded (claim : string) (value : Value)
| MTemplate (claim template : string)
| MAudience (audience : string).
Record ClaimMapper := mkClaimMapper {
  m_name : string;
  m_kind : MapperKind;
  m_include_in : list TokenKind
}.
Definition applies_to (m : ClaimMapper) (kind : TokenKind) : bool :=
  bool_decide (kind ∈ m_include_in m).
Definition claim_name (m : ClaimMapper) : option string :=
  match m_kind m with
  | MUserAttribute _ claim _ | MGroups claim _ | MRoles claim _ | MHardcoded claim _
  | MTemplate claim _ => Some claim
  | MAudience _ => None
  end.

Definition PROTECTED_CLAIMS : list string :=
  ["iss"; "org_id"; "features"; "sub"; "aud"; "exp"; "iat"; "nbf"; "jti"; "azp"; "at_hash"; "c_hash";
   "nonce"; "auth_time"; "amr"; "acr"; "sid"; "tid"; "client_id"; "scope"; "typ"; "cnf"; "act"]%string.

(** ** Clients *)

Inductive AuthMethod :=
| AuthNone | ClientSecretBasic | ClientSecretPost | PrivateKeyJwt | TlsClientAuth | SelfSignedTlsClientAuth.
#[export] Instance auth_method_dec : EqDecision AuthMethod.
Proof. solve_decision. Defined.
Inductive AccessTokenFormat := Jwt | Opaque.
#[export] Instance access_token_format_dec : EqDecision AccessTokenFormat.
Proof. solve_decision. Defined.
Inductive SubjectType := Public | Pairwise.
Inductive SecurityProfile := NoProfile | Fapi2.
#[export] Instance security_profile_dec : EqDecision SecurityProfile.
Proof. solve_decision. Defined.

Module grants.
Definition AUTHORIZATION_CODE : string := "authorization_code".
Definition REFRESH_TOKEN : string := "refresh_token".
Definition CLIENT_CREDENTIALS : string := "client_credentials".
Definition DEVICE_CODE : string := "urn:ietf:params:oauth:grant-type:device_code".
Definition TOKEN_EXCHANGE : string := "urn:ietf:params:oauth:grant-type:token-exchange".
Definition CIBA : string := "urn:openid:params:grant-type:ciba".
Definition ALL : list string :=
  [AUTHORIZATION_CODE; REFRESH_TOKEN; CLIENT_CREDENTIALS; DEVICE_CODE; TOKEN_EXCHANGE; CIBA].
End grants.

(** [Client], with the fields the token endpoint reads. *)
Record Client := mkClient {
  cl_id : Uuid;
  cl_client_id : string;
  cl_auth_method : AuthMethod;
  cl_redirect_uris : list string;
  cl_allowed_grants : list string;
  cl_allowed_scopes : list string;
  cl_allowed_audiences : list string;
  cl_access_token_ttl_secs : option Z;
  cl_refresh_token_ttl_secs : option Z;
  cl_id_token_ttl_secs : option Z;
  cl_access_token_format : AccessTokenFormat;
  cl_subject_type : SubjectType;
  cl_sector_identifier_uri : option string;
  cl_id_token_scope_claims : bool;
  cl_dpop_bound : bool;
  cl_cert_bound : bool;
  cl_security_profile : SecurityProfile;
  cl_service_account_user_id : option Uuid
}.

Definition is_public (c : Client) : bool := bool_decide (cl_auth_method c = AuthNone).
Definition allows_grant (c : Client) (grant : string) : bool :=
  existsb (fun g => String.eqb g grant) (cl_allowed_grants c).
Definition is_fapi2 (c : Client) : bool := bool_decide (cl_security_profile c = Fapi2).
Definition may_target (c : Client) (identifier : string) (built_in : bool) : bool :=
  existsb (fun a => String.eqb a identifier) (cl_allowed_audiences c)
  || (negb built_in && bool_decide (cl_allowed_audiences c = [])).

(** [fapi::allows_signing] and [fapi::signing_alg]. *)
Definition allows_signing (a : SigningAlg) : bool :=
  match a with ES256 | EdDSA => true | _ => false end.
Definition fapi_signing_alg (t : Tenant) : SigningAlg :=
  if allows_signing (default_alg (tn_keys t)) then default_alg (tn_keys t) else ES256.

Lemma existsb_eqb s l : existsb (fun a => String.eqb a s) l = true <-> s ∈ l.
Proof.
  rewrite existsb_exists. split.
  - intros (x & Hx & E%String.eqb_eq). subst. by apply list_elem_of_In.
  - intros Hs. exists s. split; [by apply list_elem_of_In|apply String.eqb_refl].
Qed.
