(* ===== verification/Profile.v ===== *)
(** * Profile schemas

    [api/src/services/profile_schema.rs]: the structure a tenant's schema must
    have, and [validate_attributes], through which every write to a user's
    attributes passes. An object is the list of its members in key order, as
    [serde_json] keeps them. The normalisers of identifiers of
    [services/users.rs] come first. *)

From stdpp Require Import gmap strings sorting.
From S2P Require Import Prelude Utf8 Valkey AppState ApiErrors Models.

(** ** Objects *)

Abbreviation Object := (list (string * Value)).
Definition obj_get (k : string) (m : Object) : option Value := snd <$> List.find (fun p => String.eqb p.1 k) m.
(** [Map::insert]. *)
Fixpoint obj_insert (k : string) (v : Value) (m : Object) : Object :=
  match m with
  | [] => [(k, v)]
  | (k', v') :: m =>
      match String.compare k k' with
      | Lt => (k, v) :: (k', v') :: m
      | Eq => (k, v) :: m
      | Gt => (k', v') :: obj_insert k v m
      end
  end.
Definition contains_key (k : string) (m : Object) : bool := bool_decide (is_Some (obj_get k m)).

(** ** Writers *)

Inductive Editor := EdUser | EdAdmin | EdSystem.
#[export] Instance editor_dec : EqDecision Editor.
Proof. solve_decision. Defined.
(** [Editor::from]. *)
Definition editor_of (a : Actor) : Editor :=
  match a with ActUser _ => EdUser | ActAdmin _ | ActClient _ => EdAdmin | ActSystem => EdSystem end.

Definition MAX_ATTRIBUTES : Z := 200.
Definition MAX_VALUE_BYTES : Z := 64 * 1024.

Definition is_digit (b : Z) : bool := within 48 57 b.
Definition is_alpha (b : Z) : bool := within 65 90 b || within 97 122 b.
Definition is_valid_attribute_name (name : string) : bool :=
  match ascii_bytes name with
  | [] => false
  | b :: l => (zlen (b :: l) <=? 64) && is_alpha b && forallb (fun c => is_alpha c || is_digit c || (c =? 95)) (b :: l)
  end.

Definition is_non_empty (v : Value) : bool :=
  match v with
  | VNull => false
  | VString s => negb (String.eqb (trim_str s) "")
  | VArray a => negb (bool_decide (a = []))
  | _ => true
  end.

(** [users::normalize_phone]. *)
Definition normalize_phone (raw_ : string) : result ApiError string :=
  let p := str_of_bytes (utf8_encode (filter (fun c => is_whitespace c = false) (chars_of raw_))) in
  match ascii_bytes p with
  | b :: digits =>
      if (b =? 43) && (7 <=? zlen digits) && (zlen digits <=? 15) && forallb is_digit digits
      then Ok p else Err (BadRequest "phone must be in E.164 format")
  | [] => Err (BadRequest "phone must be in E.164 format")
  end.

(** What the validation takes from libraries: [serde_json::to_string],
    [str::to_lowercase], [ValidateEmail], the scheme of [Url::parse],
    [NaiveDate::parse_from_str] printed again, [Regex], and [f64]'s order and
    text. *)
Class TextLib := {
  print_value : Value -> string;
  to_lowercase : string -> string;
  validate_email : string -> bool;
  url_scheme : string -> option string;
  parse_date : string -> option string;
  regex : string -> option (string -> bool);
  f64_lt : Number -> Number -> bool;
  f64_text : Number -> string
}.
(** Lower case stays lower case and adds no white space at the ends; a date
    printed in the form it is parsed from is that date. *)
Class TextLaws `{TextLib} := {
  lower_again s : to_lowercase (trim_str (to_lowercase (trim_str s))) = to_lowercase (trim_str s);
  date_again s d : parse_date s = Some d -> parse_date (trim_str d) = Some d
}.

Section profile.
Context `{TextLib}.
Local Open Scope string_scope.

Definition compile_pattern (p : string) : option (string -> bool) :=
  if (512 <? Z.of_nat (String.length p))%Z then None else regex ("^(?:" ++ p ++ ")$").

(** *** The schema itself *)

Definition def_errors (i : nat) (seen : list string) (def : AttributeDef) : list FieldError :=
  let field := "attributes[" ++ pretty i ++ "]" in
  let v := ad_validation def in
  (if is_valid_attribute_name (ad_name def) then []
   else [mkFieldError (field ++ ".name") "must match ^[a-zA-Z][a-zA-Z0-9_]{0,63}$"])
  ++ (if bool_decide (ad_name def ∈ seen)
      then [mkFieldError (field ++ ".name") ("duplicate attribute `" ++ ad_name def ++ "`")] else [])
  ++ (if bool_decide (ad_kind def = TEnum) && bool_decide (av_values v = [])
      then [mkFieldError (field ++ ".validation.values") "enum attributes need at least one value"] else [])
  ++ match av_pattern v with
     | Some p => match compile_pattern p with
                 | None => [mkFieldError (field ++ ".validation.pattern") "invalid regular expression"]
                 | Some _ => []
                 end
     | None => []
     end
  ++ match av_min_length v, av_max_length v with
     | Some min, Some max =>
         if (max <? min)%Z then [mkFieldError (field ++ ".validation") "min_length exceeds max_length"] else []
     | _, _ => []
     end
  ++ match av_min v, av_max v with
     | Some min, Some max => if f64_lt max min then [mkFieldError (field ++ ".validation") "min exceeds max"] else []
     | _, _ => []
     end
  ++ (if ad_required def && bool_decide (ad_editable_by def = ByNone)
      then [mkFieldError (field ++ ".required") "a required attribute cannot be editable by nobody"] else []).

Fixpoint defs_errors (i : nat) (seen : list string) (defs : list AttributeDef) : list FieldError :=
  match defs with
  | [] => []
  | def :: defs => (def_errors i seen def ++ defs_errors (S i) (ad_name def :: seen) defs)%list
  end.

Definition validate_schema (schema : ProfileSchema) : result ApiError unit :=
  let errors :=
    ((if (MAX_ATTRIBUTES <? zlen (ps_attributes schema))%Z
      then [mkFieldError "attributes" ("at most " ++ pretty MAX_ATTRIBUTES ++ " attributes")] else [])
     ++ defs_errors 0 [] (ps_attributes schema))%list in
  if bool_decide (errors = []) then Ok tt else Err (InvalidFields errors).

(** *** Values *)

Definition check_len (v : AttributeValidation) (s : string) : result string unit :=
  let n := zlen (chars_of s) in
  if match av_min_length v with Some m => (n <? m)%Z | None => false end
  then Err ("must be at least " ++ pretty (default 0%Z (av_min_length v)) ++ " characters")
  else if match av_max_length v with Some m => (m <? n)%Z | None => false end
  then Err ("must be at most " ++ pretty (default 0%Z (av_max_length v)) ++ " characters")
  else match av_pattern v with
       | Some p => match compile_pattern p with
                   | Some re => if re s then Ok tt else Err "does not match the required pattern"
                   | None => Err "does not match the required pattern"
                   end
       | None => Ok tt
       end.

Definition str_or (value : Value) : result string string := ok_or (as_str value) "expected a string".

Definition validate_scalar (def : AttributeDef) (value : Value) : result string Value :=
  let v := ad_validation def in
  match ad_kind def with
  | TString =>
      let? s := str_or value in
      let s := trim_str s in
      if (MAX_VALUE_BYTES <? Z.of_nat (String.length s))%Z then Err "value too large"
      else let? _ := check_len v s in Ok (VString s)
  | TEmail =>
      let? s := str_or value in
      let s := to_lowercase (trim_str s) in
      if negb (validate_email s) then Err "invalid email address"
      else let? _ := check_len v s in Ok (VString s)
  | TUrl =>
      let? s := str_or value in
      let s := trim_str s in
      let? scheme := ok_or (url_scheme s) "invalid URL" in
      if negb (String.eqb scheme "http" || String.eqb scheme "https") then Err "URL must use http or https"
      else let? _ := check_len v s in Ok (VString s)
  | TPhone =>
      let? s := str_or value in
      let? p := map_err error_text (normalize_phone s) in
      Ok (VString p)
  | TDate =>
      let? s := str_or value in
      let? d := ok_or (parse_date (trim_str s)) "expected a date in YYYY-MM-DD form" in
      Ok (VString d)
  | TEnum =>
      let? s := str_or value in
      if existsb (fun allowed => String.eqb allowed s) (av_values v) then Ok (VString s)
      else Err ("must be one of: " ++ String.concat ", " (av_values v))
  | TNumber =>
      match value with
      | VNumber n =>
          if match av_min v with Some m => f64_lt n m | None => false end
          then Err ("must be at least " ++ f64_text (default (NInt 0) (av_min v)))
          else if match av_max v with Some m => f64_lt m n | None => false end
          then Err ("must be at most " ++ f64_text (default (NInt 0) (av_max v)))
          else Ok value
      | _ => Err "expected a number"
      end
  | TBoolean =>
      match value with
      | VBool _ => Ok value
      | VString s => if String.eqb s "true" || String.eqb s "false" then Ok (VBool (String.eqb s "true"))
                     else Err "expected a boolean"
      | _ => Err "expected a boolean"
      end
  | TJson =>
      if negb (is_object value || bool_decide (is_Some (as_array value))) then Err "expected an object or array"
      else if (MAX_VALUE_BYTES <? Z.of_nat (String.length (print_value value)))%Z then Err "value too large"
      else Ok value
  end.

Fixpoint validate_items (def : AttributeDef) (i : nat) (items : list Value) : result string (list Value) :=
  match items with
  | [] => Ok []
  | item :: items =>
      let? v := map_err (fun e => "[" ++ pretty i ++ "]: " ++ e) (validate_scalar def item) in
      let? vs := validate_items def (S i) items in
      Ok (v :: vs)
  end.

Definition validate_value (def : AttributeDef) (value : Value) : result string Value :=
  if ad_multivalued def then
    let? items := ok_or (as_array value) "expected an array" in
    if (100 <? zlen items)%Z then Err "at most 100 values"
    else let? out := validate_items def 0 items in Ok (VArray out)
  else validate_scalar def value.

(** *** Documents *)

(** The table of [editable_by] against the writer. *)
Definition may_edit (by_ : EditableBy) (editor : Editor) : bool :=
  match by_, editor with
  | _, EdSystem => true
  | ByUser, _ => true
  | ByAdmin, EdAdmin => true
  | ByAdmin, EdUser => false
  | ByNone, _ => false
  end.

(** One member of the incoming object. *)
Definition take_member (schema : ProfileSchema) (editor : Editor) (existing : option Object)
    (acc : list FieldError * Object) (member : string * Value) : list FieldError * Object :=
  let '(errors, out) := acc in
  let '(name, value) := member in
  let reject message := (errors ++ [mkFieldError ("attributes." ++ name) message], out)%list in
  let unchanged := match existing with Some e => bool_decide (obj_get name e = Some value) | None => false end in
  match schema_get schema name with
  | None =>
      if negb (ps_allow_undeclared schema) then reject "unknown attribute"
      else if bool_decide (editor = EdUser) && negb unchanged then reject "not editable"
      else if (MAX_VALUE_BYTES <? Z.of_nat (String.length (print_value value)))%Z then reject "value too large"
      else (errors, obj_insert name value out)
  | Some def =>
      if negb (may_edit (ad_editable_by def) editor) && negb unchanged then reject "not editable"
      else if is_null value then (errors, out)
      else match validate_value def value with
           | Ok v => (errors, obj_insert name v out)
           | Err message => reject message
           end
  end.

(** A stored member the writer did not send. *)
Definition keep_member (schema : ProfileSchema) (editor : Editor) (incoming : Object) (out : Object)
    (member : string * Value) : Object :=
  let '(name, value) := member in
  if contains_key name out || contains_key name incoming then out
  else
    let keep := match schema_get schema name with
                | Some def => negb (may_edit (ad_editable_by def) editor)
                | None => bool_decide (editor = EdUser)
                end in
    if keep then obj_insert name value out else out.

Definition required_errors (schema : ProfileSchema) (out : Object) : list FieldError :=
  omap (fun def =>
    if ad_required def && negb (match obj_get (ad_name def) out with Some v => is_non_empty v | None => false end)
    then Some (mkFieldError ("attributes." ++ ad_name def) "required") else None) (ps_attributes schema).

Definition as_object (v : Value) : option Object := match v with VObject m => Some m | _ => None end.

Definition validate_attributes_with (schema : ProfileSchema) (incoming : Value) (editor : Editor)
    (existing : option Value) (require_all : bool) : result ApiError Value :=
  let? incoming := ok_or (as_object incoming) (BadRequest "attributes must be a JSON object") in
  let existing := existing ≫= as_object in
  let '(errors, out) := foldl (take_member schema editor existing) ([], []) incoming in
  let out := foldl (keep_member schema editor incoming) out (default [] existing) in
  let errors := (errors ++ (if require_all then required_errors schema out else []))%list in
  if bool_decide (errors = []) then Ok (VObject out) else Err (InvalidFields errors).

Definition validate_attributes (schema : ProfileSchema) (incoming : Value) (editor : Editor)
    (existing : option Value) : result ApiError Value :=
  validate_attributes_with schema incoming editor existing true.
End profile.

(** ** Lemmas *)

Lemma string_compare_refl k : String.compare k k = Eq.
Proof. pose proof (String.compare_antisym k k) as E. by destruct (String.compare k k). Qed.

Lemma obj_get_cons k v m n : obj_get n ((k, v) :: m) = if String.eqb k n then Some v else obj_get n m.
Proof. unfold obj_get. cbn. by destruct (String.eqb k n). Qed.

Lemma obj_get_insert k v m : obj_get k (obj_insert k v m) = Some v.
Proof.
  induction m as [|[k' v'] m IH]; cbn [obj_insert]; [by rewrite obj_get_cons, String.eqb_refl|].
  destruct (String.compare k k') eqn:E; rewrite obj_get_cons; [by rewrite String.eqb_refl..|].
  destruct (String.eqb_spec k' k) as [->|_]; [by rewrite string_compare_refl in E|done].
Qed.

Lemma obj_get_insert_ne k v m n : k <> n -> obj_get n (obj_insert k v m) = obj_get n m.
Proof.
  intros Hne. induction m as [|[k' v'] m IH]; cbn [obj_insert].
  - rewrite obj_get_cons. by destruct (String.eqb_spec k n).
  - destruct (String.compare k k') eqn:E; rewrite !obj_get_cons.
    + apply String.compare_eq_iff in E as <-. by destruct (String.eqb_spec k n).
    + by destruct (String.eqb_spec k n).
    + by rewrite IH.
Qed.

(** [normalize_phone] changes nothing the second time. *)
Lemma normalize_phone_idem s p : normalize_phone s = Ok p -> normalize_phone p = Ok p.
Proof.
  unfold normalize_phone. set (q := str_of_bytes _).
  destruct (ascii_bytes q) as [|b digits] eqn:Eq; [done|].
  destruct (_ && forallb is_digit digits) eqn:Ec; [|done]. intros [= <-].
  assert (Forall (fun c => 0 <= c < 128 /\ is_whitespace c = false) (b :: digits)) as Hq.
  { apply andb_prop in Ec as [Ec Hd]. apply andb_prop in Ec as [Ec _]. apply andb_prop in Ec as [Hb _].
    apply Z.eqb_eq in Hb as ->. constructor; [done|]. apply Forall_forall. intros c Hc.
    rewrite forallb_forall in Hd. apply list_elem_of_In, Hd, andb_prop in Hc as [Hl Hh]. apply Z.leb_le in Hl, Hh.
    unfold is_whitespace, within. split; [lia|]. rewrite (proj2 (Z.leb_le 9 c)) by lia. rewrite (proj2 (Z.leb_gt c 13)) by lia.
    repeat (rewrite (proj2 (Z.eqb_neq c _)) by lia). rewrite !(proj2 (Z.leb_gt _ c)) by lia. done. }
  assert (Forall (fun c => 0 <= c < 128) (b :: digits)) as Ha.
  { eapply Forall_impl; [exact Hq|]. by intros c [? _]. }
  assert (chars_of q = b :: digits) as ->. { unfold chars_of. rewrite Eq. by destruct (utf8_ascii_id _ Ha) as [_ ->]. }
  assert (filter (fun c => is_whitespace c = false) (b :: digits) = b :: digits) as ->.
  { clear -Hq. induction Hq as [|c l [_ Hc] _ IH]; [done|]. by rewrite filter_cons_True, IH. }
  destruct (utf8_ascii_id _ Ha) as [-> _]. rewrite <- Eq, str_of_ascii_bytes, Eq. by rewrite Ec.
Qed.

Section lemmas.
Context `{TextLaws}.

Local Abbreviation scalar := (validate_scalar).
Local Abbreviation value := (validate_value).
Local Abbreviation take1 := (take_member).
Local Abbreviation validate := (validate_attributes_with).

(** A value that passed passes again as it is. *)
Lemma scalar_idem def v w : scalar def v = Ok w -> scalar def w = Ok w /\ is_null w = false.
Proof.
  unfold validate_scalar, str_or. destruct (ad_kind def); cbn [as_str ok_or].
  - destruct (as_str v) as [s|]; [|done]. cbn [ok_or]. destruct (MAX_VALUE_BYTES <? _) eqn:El; [done|].
    destruct (check_len _ (trim_str s)) as [[]|] eqn:Ec; [|done]. intros [= <-]. cbn [as_str ok_or]. rewrite trim_str_idem, El, Ec. done.
  - destruct v as [| |n| | |]; try done. intros E. assert (w = VNumber n) as -> by (repeat case_match; congruence). by split.
  - destruct v as [|b| |s| |]; try done; [by intros [= <-]|]. destruct (_ || _); [|done]. by intros [= <-].
  - destruct (as_str v) as [s|]; [|done]. cbn [ok_or]. destruct (validate_email _) eqn:El; [|done]. cbn [negb].
    destruct (check_len _ _) as [[]|] eqn:Ec; [|done]. intros [= <-]. cbn [as_str ok_or]. rewrite lower_again, El. cbn [negb]. by rewrite Ec.
  - destruct (as_str v) as [s|]; [|done]. cbn [ok_or]. destruct (url_scheme (trim_str s)) as [sc|] eqn:Es; [|done]. cbn [ok_or].
    destruct (negb _) eqn:El; [done|]. destruct (check_len _ _) as [[]|] eqn:Ec; [|done]. intros [= <-].
    cbn [as_str ok_or]. rewrite trim_str_idem, Es. cbn [ok_or]. by rewrite El, Ec.
  - destruct (as_str v) as [s|]; [|done]. cbn [ok_or]. destruct (normalize_phone s) as [p|e] eqn:Ep; [|done]. cbn [map_err].
    intros [= <-]. cbn [as_str ok_or]. by rewrite (normalize_phone_idem s p Ep).
  - destruct (as_str v) as [s|]; [|done]. cbn [ok_or]. destruct (parse_date _) as [d|] eqn:Ed; [|done]. cbn [ok_or].
    intros [= <-]. cbn [as_str ok_or]. by rewrite (date_again _ _ Ed).
  - destruct (as_str v) as [s|]; [|done]. cbn [ok_or]. destruct (existsb _ _) eqn:Ee; [|done]. intros [= <-]. cbn [as_str ok_or]. by rewrite Ee.
  - destruct (negb _) eqn:E1; [done|]. destruct (MAX_VALUE_BYTES <? _) eqn:E2; [done|]. intros [= <-]. rewrite E1, E2.
    by destruct v.
Qed.

Lemma items_idem def vs i ws j :
  validate_items def i vs = Ok ws ->
  validate_items def j ws = Ok ws
  /\ length ws = length vs.
Proof.
  revert i ws j. induction vs as [|v vs IH]; intros i ws j; cbn [validate_items]; [by intros [= <-]|].
  destruct (scalar def v) as [w|] eqn:Ew; [|done]. cbn [map_err]. destruct (validate_items _ _ vs) as [ws'|] eqn:Es; [|done].
  intros [= <-]. destruct (scalar_idem _ _ _ Ew) as [Hw _]. destruct (IH _ _ (S j) Es) as [Hs Hl]. cbn [validate_items].
  rewrite Hw. cbn [map_err]. rewrite Hs. cbn [length]. by rewrite Hl.
Qed.

Lemma value_idem def v w : value def v = Ok w -> value def w = Ok w /\ is_null w = false.
Proof.
  unfold validate_value. destruct (ad_multivalued def); [|apply scalar_idem].
  destruct (as_array v) as [items|]; [|done]. cbn [ok_or]. destruct (100 <? zlen items) eqn:E; [done|].
  destruct (validate_items _ _ _) as [out|] eqn:Ei; [|done]. intros [= <-].
  destruct (items_idem _ _ _ _ 0%nat Ei) as [Hi Hl]. cbn [as_array ok_or]. unfold zlen in *. rewrite Hl, E, Hi. done.
Qed.

(** What becomes of one member: refused, dropped, or stored. *)
Definition taken (schema : ProfileSchema) (editor : Editor) (existing : option Object) (n : string) (v : Value)
    : option (option Value) :=
  let unchanged := match existing with Some e => bool_decide (obj_get n e = Some v) | None => false end in
  match schema_get schema n with
  | None =>
      if negb (ps_allow_undeclared schema) || (bool_decide (editor = EdUser) && negb unchanged)
         || (MAX_VALUE_BYTES <? Z.of_nat (String.length (print_value v)))
      then None else Some (Some v)
  | Some def =>
      if negb (may_edit (ad_editable_by def) editor) && negb unchanged then None
      else if is_null v then Some None
      else match value def v with Ok w => Some (Some w) | Err _ => None end
  end.

Lemma take_taken schema editor existing es out n v :
  match taken schema editor existing n v with
  | None => exists e, take1 schema editor existing (es, out) (n, v) = (es ++ [e], out)
  | Some None => take1 schema editor existing (es, out) (n, v) = (es, out)
  | Some (Some w) => take1 schema editor existing (es, out) (n, v) = (es, obj_insert n w out)
  end.
Proof.
  unfold taken, take_member. destruct (schema_get schema n) as [def|].
  - destruct (_ && _); [by eexists|]. destruct (is_null v); [done|]. destruct (value def v); [done|by eexists].
  - destruct (negb (ps_allow_undeclared schema)); [by eexists|]. cbn [orb]. destruct (_ && _); [by eexists|]. cbn [orb].
    destruct (_ <? _); [by eexists|done].
Qed.

Lemma take_fold schema editor existing inc es out0 out :
  foldl (take1 schema editor existing) (es, out0) inc = ([], out) ->
  es = []
  /\ (forall n v, (n, v) ∈ inc -> exists o, taken schema editor existing n v = Some o
        /\ (is_Some o -> is_Some (obj_get n out)))
  /\ forall n, obj_get n out = obj_get n out0
       \/ exists v w, (n, v) ∈ inc /\ taken schema editor existing n v = Some (Some w) /\ obj_get n out = Some w.
Proof.
  revert es out0. induction inc as [|[n0 v0] inc IH]; intros es out0; cbn [foldl].
  { intros [= -> ->]. split_and!; [done|by intros ? ? ?%elem_of_nil|by left]. }
  pose proof (take_taken schema editor existing es out0 n0 v0) as Ht.
  destruct (taken schema editor existing n0 v0) as [[w|]|] eqn:Et.
  - rewrite Ht. intros (-> & Hin & Hout)%IH. split_and!; [done|..].
    + intros n v [[= -> ->]|Hv]%elem_of_cons; [|by apply Hin]. exists (Some w). split; [done|]. intros _.
      destruct (Hout n0) as [->|(v' & w' & _ & _ & ->)]; [rewrite obj_get_insert|]; done.
    + intros n. destruct (Hout n) as [E|(v' & w' & Hv & Hw & E)].
      * destruct (decide (n0 = n)) as [->|Hne].
        -- right. exists v0, w. rewrite obj_get_insert in E. split_and!; [by left|done|done].
        -- left. by rewrite E, obj_get_insert_ne.
      * right. exists v', w'. split_and!; [by right|done|done].
  - rewrite Ht. intros (-> & Hin & Hout)%IH. split_and!; [done|..].
    + intros n v [[= -> ->]|Hv]%elem_of_cons; [|by apply Hin]. exists None. split; [done|]. by intros [? ?].
    + intros n. destruct (Hout n) as [E|(v' & w' & Hv & Hw & E)]; [by left|]. right. exists v', w'. split_and!; [by right|done|done].
  - destruct Ht as [e ->]. intros (Hnil & _)%IH. by destruct es.
Qed.

(** The members kept because the writer may not touch them. *)
Definition kept (schema : ProfileSchema) (editor : Editor) (n : string) : bool :=
  match schema_get schema n with
  | Some def => negb (may_edit (ad_editable_by def) editor)
  | None => bool_decide (editor = EdUser)
  end.

Lemma keep_fold schema editor inc ex out n :
  obj_get n (foldl (keep_member schema editor inc) out ex)
  = match obj_get n out with
    | Some w => Some w
    | None => if contains_key n inc || negb (kept schema editor n) then None else obj_get n ex
    end.
Proof.
  revert out. induction ex as [|[k v] ex IH]; intros out; cbn [foldl].
  { destruct (obj_get n out); [done|]. by destruct (_ || _). }
  rewrite IH. unfold keep_member. fold (kept schema editor k). rewrite obj_get_cons.
  destruct (contains_key k out || contains_key k inc) eqn:Ec.
  - destruct (obj_get n out) eqn:En; [done|]. destruct (String.eqb_spec k n) as [->|]; [|done].
    apply orb_prop in Ec as [Hc|Hc]; [|by rewrite Hc]. unfold contains_key in Hc. rewrite En in Hc. by case_bool_decide as Hd; [destruct Hd|].
  - apply orb_false_elim in Ec as [Ho Hi]. destruct (kept schema editor k) eqn:Ek.
    + destruct (String.eqb_spec k n) as [->|Hne]; [|by rewrite obj_get_insert_ne].
      rewrite obj_get_insert. rewrite Hi, Ek. cbn [negb orb]. unfold contains_key in Ho. case_bool_decide as Hn; [done|].
      apply eq_None_not_Some in Hn as ->. done.
    + destruct (obj_get n out) eqn:En; [done|]. destruct (String.eqb_spec k n) as [->|]; [|done]. rewrite Ek. by rewrite orb_true_r.
Qed.

Lemma contains_key_elem n inc : contains_key n inc = true -> exists v, (n, v) ∈ inc.
Proof.
  unfold contains_key. rewrite bool_decide_eq_true. intros [v Hv]. exists v. unfold obj_get in Hv.
  apply fmap_Some in Hv as ([k w] & Hf & ->). apply find_some in Hf as [Hin E%String.eqb_eq]. cbn in *. subst k.
  by apply list_elem_of_In.
Qed.

(** An accepted document: what its members are. *)
Lemma validate_ok schema incoming editor existing require out :
  validate schema incoming editor existing require = Ok out ->
  exists inc mid out', incoming = VObject inc /\ out = VObject out'
    /\ foldl (take1 schema editor (existing ≫= as_object)) ([], []) inc = ([], mid)
    /\ out' = foldl (keep_member schema editor inc) mid (default [] (existing ≫= as_object))
    /\ (require = true -> required_errors schema out' = []).
Proof.
  unfold validate_attributes_with. destruct incoming as [| | | | |inc]; try done. cbn [as_object ok_or].
  destruct (foldl _ ([], []) inc) as [es mid] eqn:Ef. case_bool_decide as He; [|done]. intros [= <-].
  apply app_nil in He as [-> Hr]. exists inc, mid. eexists. split_and!; [done..|]. intros ->. done.
Qed.

(** A stored value the writer may not touch and sends back is read through the
    schema once more: [null] is cleared, any other value becomes the form the
    schema of today gives it. *)
Definition reread (schema : ProfileSchema) (n : string) (v : Value) (w : option Value) : Prop :=
  exists def, schema_get schema n = Some def
    /\ ((is_null v = true /\ w = None) \/ (is_null v = false /\ exists u, value def v = Ok u /\ w = Some u)).
Lemma taken_kept schema editor ex n v o : kept schema editor n = true -> taken schema editor (Some ex) n v = Some o ->
  obj_get n ex = Some v /\ (o = Some v \/ reread schema n v o).
Proof.
  unfold kept, taken, reread. destruct (schema_get schema n) as [def|].
  - intros ->. cbn [andb]. case_bool_decide as Hv; [|done]. cbn [negb]. intros Ho. split; [done|]. right. exists def. split; [done|].
    destruct (is_null v); [left; by injection Ho as <-|]. right. split; [done|]. destruct (value def v) as [w|]; [|done].
    injection Ho as <-. by exists w.
  - intros ->. case_bool_decide as Hv; cbn [negb andb]; [|by rewrite orb_true_r]. destruct (_ || _); [done|]. intros [= <-]. split; [done|by left].
Qed.

(** C34: an attribute the writer may not edit - a user an administrator's,
    either one that only imports write, a user an undeclared one - cannot be
    set or changed by any accepted write: it comes out as it was stored,
    absent if it was absent. The one thing a writer can do is to send the
    stored value back, and then it comes out as the schema of today writes that
    very value ([null] as absent), which is the stored value itself wherever
    that is in the form the schema gives it. *)
Theorem protected_kept schema inc editor ex require out n :
  kept schema editor n = true ->
  validate schema (VObject inc) editor (Some (VObject ex)) require = Ok (VObject out) ->
  (obj_get n out = obj_get n ex
   \/ exists v, (n, v) ∈ inc /\ obj_get n ex = Some v /\ reread schema n v (obj_get n out))
  /\ ((forall def v, schema_get schema n = Some def -> obj_get n ex = Some v -> value def v = Ok v /\ is_null v = false) ->
      obj_get n out = obj_get n ex).
Proof.
  intros Hk Hv.
  assert (obj_get n out = obj_get n ex \/ exists v, (n, v) ∈ inc /\ obj_get n ex = Some v /\ reread schema n v (obj_get n out)) as Hor.
  { apply validate_ok in Hv as (inc' & mid & out' & [= <-] & [= <-] & Hf & -> & _). cbn [mbind option_bind as_object default] in *.
    apply take_fold in Hf as (_ & Hin & Hout). rewrite keep_fold. destruct (obj_get n mid) as [w|] eqn:Em.
    - destruct (Hout n) as [Ho|(v & w' & Hi & Hw & Ho)]; rewrite Em in Ho; [done|]. injection Ho as ->.
      apply taken_kept in Hw as [Hx [[= ->]|Hr]]; [by left|right; by exists v|done].
    - rewrite Hk. cbn [negb]. rewrite orb_false_r. destruct (contains_key n inc) eqn:Ec; [|by left].
      apply contains_key_elem in Ec as [v Hi]. destruct (Hin n v Hi) as (o & Ho & Hsome).
      destruct o as [o|]; [destruct Hsome as [? ?]; [done|congruence]|].
      apply taken_kept in Ho as [Hx [?|Hr]]; [done|right; by exists v|done]. }
  split; [done|]. intros Hc. destruct Hor as [?|(v & _ & Hx & def & Hd & Hr)]; [done|]. destruct (Hc def v Hd Hx) as [Hval Hnull].
  rewrite Hx. destruct Hr as [[Hn _]|(_ & u & Hu & ->)]; congruence.
Qed.

(** What may stand in a document: a value of a declared attribute that the
    schema accepts and writes as it is, or an undeclared one of bounded size
    where the schema allows those. *)
Definition member_ok (schema : ProfileSchema) (n : string) (v : Value) : Prop :=
  match schema_get schema n with
  | Some def => value def v = Ok v /\ is_null v = false
  | None => ps_allow_undeclared schema = true /\ Z.of_nat (String.length (print_value v)) <= MAX_VALUE_BYTES
  end.

(** C36: what an accepted write stores keeps to the schema: every member of the
    document it leaves is one the schema allows, in the form the schema gives
    it, so that sending it again stores it unchanged - except members the
    writer may not touch and did not send, which are left exactly as they
    were stored before, whatever schema they were written under. Where the
    write asks for it, every required attribute is there and not empty. *)
Theorem validated_stored schema inc editor existing require out :
  validate schema (VObject inc) editor existing require = Ok (VObject out) ->
  (forall n v, obj_get n out = Some v ->
     member_ok schema n v
     \/ (kept schema editor n = true /\ contains_key n inc = false /\ (existing ≫= as_object) ≫= obj_get n = Some v))
  /\ (require = true -> forall def, def ∈ ps_attributes schema -> ad_required def = true ->
      exists v, obj_get (ad_name def) out = Some v /\ is_non_empty v = true).
Proof.
  intros (inc' & mid & out' & [= <-] & [= <-] & Hf & -> & Hreq)%validate_ok. split.
  - intros n v Hv. apply take_fold in Hf as (_ & _ & Hout). rewrite keep_fold in Hv. destruct (obj_get n mid) as [w|] eqn:Em.
    + left. injection Hv as ->. destruct (Hout n) as [E|(v' & w' & _ & Hw & E)]; rewrite Em in E; [done|]. injection E as ->.
      unfold taken in Hw. unfold member_ok. destruct (schema_get schema n) as [def|].
      * destruct (_ && _); [done|]. destruct (is_null v'); [done|].
        destruct (value def v') as [w|] eqn:Ew; [|done]. injection Hw as ->. by apply (value_idem def v').
      * destruct (ps_allow_undeclared schema); cbn [negb orb] in Hw; [|done]. destruct (_ && _); cbn [orb] in Hw; [done|].
        destruct (Z.ltb_spec MAX_VALUE_BYTES (Z.of_nat (String.length (print_value v')))); [done|]. injection Hw as ->. split; [done|lia].
    + right. destruct (contains_key n inc) eqn:Ec; [done|]. destruct (kept schema editor n); [|done]. split; [done|]. split; [done|].
      by destruct (existing ≫= as_object).
  - intros Hr def Hin Hd. specialize (Hreq Hr). destruct (obj_get (ad_name def) _) as [v|] eqn:Ev.
    + exists v. split; [done|]. destruct (is_non_empty v) eqn:En; [done|]. exfalso.
      assert (mkFieldError ("attributes." ++ ad_name def) "required" ∈ ([] : list FieldError)) as Hx%elem_of_nil; [|done].
      rewrite <- Hreq. unfold required_errors. apply list_elem_of_omap. exists def. split; [done|]. by rewrite Hd, Ev, En.
    + exfalso. assert (mkFieldError ("attributes." ++ ad_name def) "required" ∈ ([] : list FieldError)) as Hx%elem_of_nil; [|done].
      rewrite <- Hreq. unfold required_errors. apply list_elem_of_omap. exists def. split; [done|]. by rewrite Hd, Ev.
Qed.

(** a write replaces the document: an attribute the writer may edit and did
    not send is gone, whatever it held. *)
Theorem unsent_dropped schema inc editor existing require out n def :
  schema_get schema n = Some def -> may_edit (ad_editable_by def) editor = true -> obj_get n inc = None ->
  validate schema (VObject inc) editor existing require = Ok (VObject out) -> obj_get n out = None.
Proof.
  intros Hd Hm Hn (inc' & mid & out' & [= <-] & [= <-] & Hf & -> & _)%validate_ok.
  apply take_fold in Hf as (_ & _ & Hout). rewrite keep_fold. unfold kept. rewrite Hd, Hm. cbn [negb]. rewrite orb_true_r.
  destruct (Hout n) as [->|(v & w & Hv & _)]; [done|]. exfalso. revert Hn Hv. clear. unfold obj_get.
  rewrite fmap_None. intros Hf Hv%list_elem_of_In. pose proof (List.find_none _ _ Hf _ Hv) as E. cbn in E. by rewrite String.eqb_refl in E.
Qed.

(** a required attribute that the writer may not edit and that is not set
    yet refuses every document the writer can send. *)
Theorem required_locked schema incoming editor ex def :
  def ∈ ps_attributes schema -> schema_get schema (ad_name def) = Some def ->
  ad_required def = true -> may_edit (ad_editable_by def) editor = false -> obj_get (ad_name def) ex = None ->
  exists e, validate schema incoming editor (Some (VObject ex)) true = Err e.
Proof.
  intros Hin Hd Hr Hm Hn. destruct (validate _ _ _ _ _) as [out|e] eqn:E; [exfalso|by exists e].
  apply validate_ok in E as (inc & mid & out' & -> & -> & Hf & -> & Hreq). specialize (Hreq eq_refl).
  cbn [mbind option_bind as_object default] in *. apply take_fold in Hf as (_ & Hmem & Hout).
  assert (forall v, taken schema editor (Some ex) (ad_name def) v = None) as Ht.
  { intros v. unfold taken. rewrite Hd, Hm, Hn. cbn [negb andb]. by case_bool_decide. }
  unfold required_errors in Hreq.
  assert (obj_get (ad_name def) (foldl (keep_member schema editor inc) mid ex) = None) as Hno.
  { rewrite keep_fold. destruct (Hout (ad_name def)) as [->|(v & w & _ & Hw & _)]; [|by rewrite Ht in Hw]. cbn.
    by destruct (_ || _). }
  assert (mkFieldError ("attributes." ++ ad_name def) "required" ∈ ([] : list FieldError)) as Hx%elem_of_nil; [|done].
  rewrite <- Hreq. apply list_elem_of_omap. exists def. split; [done|]. rewrite Hr. cbn [andb].
  replace (obj_get _ _) with (@None Value) by (symmetry; exact Hno). done.
Qed.
End lemmas.

(** ** Example: a schema with an attribute of each kind of writer *)

Section example.
Local Open Scope string_scope.
Definition pf_date (s : string) : option string := if String.eqb s "2026-09-14" then Some s else None.
Definition pf_lib : TextLib := {|
  print_value _ := ""; to_lowercase s := s; validate_email s := String.eqb s "bo@example.com";
  url_scheme _ := Some "https"; parse_date := pf_date; regex _ := None; f64_lt _ _ := false; f64_text _ := ""
|}.
#[local] Existing Instance pf_lib.
Definition pf_laws : TextLaws.
Proof.
  split.
  - intros s. cbn. by rewrite trim_str_idem.
  - cbn. unfold pf_date. intros s d. destruct (String.eqb_spec s "2026-09-14") as [->|]; [|done]. intros [= <-].
    vm_compute. reflexivity.
Qed.
#[local] Existing Instance pf_laws.
Definition pf_validate (schema : ProfileSchema) (incoming : Value) (editor : Editor) (existing : option Value) :=
  validate_attributes_with schema incoming editor existing true.
Definition pf_def (name : string) (kind : AttributeType) (required : bool) (by_ : EditableBy) : AttributeDef :=
  mkAttributeDef name kind required false by_ [] (mkAttributeValidation None None None None None ["eng"; "sales"]).
Definition pf_schema : ProfileSchema :=
  mkProfileSchema [pf_def "department" TEnum true ByUser; pf_def "employee_id" TString false ByAdmin;
                   pf_def "hired" TDate false ByNone; pf_def "nick" TString false ByUser] false.
Definition pf_stored : Object :=
  [("department", VString "eng"); ("employee_id", VString "E1"); ("hired", VString "2026-09-14"); ("nick", VString "bo")].
Definition pf_sent : Object := [("department", VString "sales"); ("employee_id", VString "E1")].
Definition pf_out : Object :=
  [("department", VString "sales"); ("employee_id", VString "E1"); ("hired", VString "2026-09-14")].

Example pf_run : pf_validate pf_schema (VObject pf_sent) EdUser (Some (VObject pf_stored)) = Ok (VObject pf_out).
Proof. vm_compute. reflexivity. Qed.

Lemma protected_kept_witness :
  obj_get "employee_id" pf_out = obj_get "employee_id" pf_stored /\ obj_get "hired" pf_out = obj_get "hired" pf_stored.
Proof.
  split.
  - apply (protected_kept pf_schema pf_sent EdUser pf_stored true pf_out "employee_id" eq_refl).
    + vm_compute. reflexivity.
    + intros def v [= <-] [= <-]. vm_compute. done.
  - apply (protected_kept pf_schema pf_sent EdUser pf_stored true pf_out "hired" eq_refl).
    + vm_compute. reflexivity.
    + intros def v [= <-] [= <-]. vm_compute. done.
Defined.

Lemma validated_stored_witness :
  exists v, obj_get "department" pf_out = Some v /\ is_non_empty v = true.
Proof.
  destruct (validated_stored pf_schema pf_sent EdUser (Some (VObject pf_stored)) true pf_out) as [_ Hr].
  - vm_compute. reflexivity.
  - apply (Hr eq_refl (pf_def "department" TEnum true ByUser)); [apply list_elem_of_here|reflexivity].
Defined.

(** The flag an administrator set as text, before the schema said it is a
    boolean: the user who sends it back stores the boolean. *)
Definition pf_flag : ProfileSchema := mkProfileSchema [pf_def "vip" TBoolean false ByAdmin] false.
Example resent_rereads :
  pf_validate pf_flag (VObject [("vip", VString "true")]) EdUser (Some (VObject [("vip", VString "true")]))
    = Ok (VObject [("vip", VBool true)])
  /\ pf_validate pf_flag (VObject []) EdUser (Some (VObject [("vip", VString "true")])) = Ok (VObject [("vip", VString "true")]).
Proof. vm_compute. done. Qed.

Lemma unsent_dropped_witness : obj_get "nick" pf_stored = Some (VString "bo") /\ obj_get "nick" pf_out = None.
Proof.
  split; [reflexivity|].
  apply (unsent_dropped pf_schema pf_sent EdUser (Some (VObject pf_stored)) true pf_out "nick"
           (pf_def "nick" TString false ByUser) eq_refl eq_refl eq_refl).
  vm_compute. reflexivity.
Defined.

Definition pf_strict : ProfileSchema := mkProfileSchema [pf_def "employee_id" TString true ByAdmin] false.
Lemma required_locked_witness :
  exists e, pf_validate pf_strict (VObject [("employee_id", VString "E1")]) EdUser (Some (VObject [])) = Err e.
Proof.
  apply (required_locked pf_strict (VObject [("employee_id", VString "E1")]) EdUser []
           (pf_def "employee_id" TString true ByAdmin)); [apply list_elem_of_here|reflexivity..].
Defined.
End example.
