(* ===== verification/Users.v ===== *)
(** * User accounts

    [api/src/services/users.rs] over [repos/users.rs] and [models/user.rs]: the
    rows, the lookups, creation, changes, soft deletion, unlocking and what a
    sign-in records. Listings for the console are left out, and so are the
    per-node cache of rows (every write evicts it) and mails. The LDAP
    directory's answer to a profile change is an argument. *)

From stdpp Require Import gmap strings.
From S2P Require Import Prelude Effects Utf8 Valkey AppState Sessions ApiErrors Models Profile.

(** ** Rows *)

#[export] Instance user_status_dec : EqDecision UserStatus.
Proof. solve_decision. Defined.

(** A row of [users]: what tokens see of it ([User]) and the rest. *)
Record UserRow := mkUserRow {
  ur_tenant_id : Uuid;
  ur_user : User;
  ur_password_hash : option string;
  ur_password_algo : option string;
  ur_must_change_password : bool;
  ur_password_expires_at : option Z;
  ur_password_changed_at : option Z;
  ur_external_id : option string;
  ur_last_login_at : option Z;
  ur_failed_attempts : Z;
  ur_locked_until : option Z;
  ur_deleted_at : option Z;
  ur_terms_accepted_at : option Z
}.
Definition ur_id (r : UserRow) : Uuid := u_id (ur_user r).
Definition ur_status (r : UserRow) : UserStatus := u_status (ur_user r).
Definition ur_username (r : UserRow) : string := u_username (ur_user r).
Definition ur_email (r : UserRow) : option string := u_email (ur_user r).
Definition ur_live (r : UserRow) : bool := bool_decide (ur_deleted_at r = None).

Definition is_locked_now (now : Z) (r : UserRow) : bool :=
  bool_decide (ur_status r = ULocked) || match ur_locked_until r with Some until => now <? until | None => false end.

Record NewUser := mkNewUser {
  nu_username : string;
  nu_email : option string;
  nu_email_verified : bool;
  nu_phone : option string;
  nu_phone_verified : bool;
  nu_status : option UserStatus;
  nu_attributes : option Value;
  nu_locale : option string;
  nu_org_id : option Uuid;
  nu_external_id : option string;
  nu_defer_required : bool
}.
(** An inner [None] clears the column. *)
Record UserUpdate := mkUserUpdate {
  up_username : option string;
  up_email : option (option string);
  up_email_verified : option bool;
  up_phone : option (option string);
  up_phone_verified : option bool;
  up_status : option UserStatus;
  up_attributes : option Value;
  up_locale : option (option string);
  up_org_id : option (option Uuid);
  up_must_change_password : option bool;
  up_external_id : option (option string)
}.
Definition no_update : UserUpdate := mkUserUpdate None None None None None None None None None None None.
Definition update_is_empty (p : UserUpdate) : bool :=
  bool_decide (up_username p = None) && bool_decide (up_email p = None) && bool_decide (up_email_verified p = None)
  && bool_decide (up_phone p = None) && bool_decide (up_phone_verified p = None) && bool_decide (up_status p = None)
  && match up_attributes p with None => true | Some _ => false end && bool_decide (up_locale p = None)
  && bool_decide (up_org_id p = None) && bool_decide (up_must_change_password p = None)
  && bool_decide (up_external_id p = None).

(** ** The statements *)

Module UserRepo.
Definition at_row (tenant_id id : Uuid) (r : UserRow) : bool := (ur_tenant_id r =? tenant_id) && (ur_id r =? id).

Definition find_by_id (tenant_id id : Uuid) (rows : list UserRow) : option UserRow := List.find (at_row tenant_id id) rows.

(** [username = $1 OR email = $1 ... LIMIT 1], without an order. *)
Definition identified_by (tenant_id : Uuid) (identifier : string) (r : UserRow) : bool :=
  (ur_tenant_id r =? tenant_id)
  && (String.eqb (ur_username r) identifier || bool_decide (ur_email r = Some identifier)) && ur_live r.
Definition find_by_identifier (tenant_id : Uuid) (identifier : string) (rows : list UserRow) : option UserRow :=
  List.find (identified_by tenant_id identifier) rows.

(** The unique indexes of live rows: username, email and external id. *)
Definition same_some (a b : option string) : bool :=
  match a, b with Some x, Some y => String.eqb x y | _, _ => false end.
Definition clashes (a b : UserRow) : bool :=
  (ur_tenant_id a =? ur_tenant_id b) && ur_live a && ur_live b
  && (String.eqb (ur_username a) (ur_username b) || same_some (ur_email a) (ur_email b)
      || same_some (ur_external_id a) (ur_external_id b)).

Definition insert (now : Z) (tenant_id id : Uuid) (input : NewUser) (rows : list UserRow)
    : option (UserRow * list UserRow) :=
  let row :=
    mkUserRow tenant_id
      (mkUser id (nu_org_id input) (nu_username input) (nu_email input) (nu_email_verified input) (nu_phone input)
         (nu_phone_verified input) (default UActive (nu_status input)) (default (VObject []) (nu_attributes input))
         (nu_locale input) now now)
      None None false None None (nu_external_id input) None 0 None None None in
  if existsb (fun r => ((ur_id r =? id)) || clashes r row) rows then None else Some (row, rows ++ [row]).

Definition with_user (r : UserRow) (u : User) : UserRow :=
  mkUserRow (ur_tenant_id r) u (ur_password_hash r) (ur_password_algo r) (ur_must_change_password r)
    (ur_password_expires_at r) (ur_password_changed_at r) (ur_external_id r) (ur_last_login_at r) (ur_failed_attempts r)
    (ur_locked_until r) (ur_deleted_at r) (ur_terms_accepted_at r).

(** The row with the columns of the patch set; clearing an address clears its
    verification. *)
Definition patched (now : Z) (p : UserUpdate) (r : UserRow) : UserRow :=
  let u := ur_user r in
  let verified (cleared : option (option string)) (set : option bool) (old : bool) : bool :=
    default (match cleared with Some None => false | _ => old end) set in
  mkUserRow (ur_tenant_id r)
    (mkUser (u_id u) (default (u_org_id u) (up_org_id p)) (default (u_username u) (up_username p))
       (default (u_email u) (up_email p)) (verified (up_email p) (up_email_verified p) (u_email_verified u))
       (default (u_phone u) (up_phone p)) (verified (up_phone p) (up_phone_verified p) (u_phone_verified u))
       (default (u_status u) (up_status p)) (default (u_attributes u) (up_attributes p))
       (default (u_locale u) (up_locale p)) (u_created_at u) now)
    (ur_password_hash r) (ur_password_algo r) (default (ur_must_change_password r) (up_must_change_password p))
    (ur_password_expires_at r) (ur_password_changed_at r) (default (ur_external_id r) (up_external_id p))
    (ur_last_login_at r) (ur_failed_attempts r) (ur_locked_until r) (ur_deleted_at r) (ur_terms_accepted_at r).

(** [None]: a unique index refuses the row; [Some None]: there is no such live
    user. *)
Definition update (now : Z) (tenant_id id : Uuid) (p : UserUpdate) (rows : list UserRow)
    : option (option UserRow * list UserRow) :=
  match List.find (fun r => at_row tenant_id id r && ur_live r) rows with
  | None => Some (None, rows)
  | Some r =>
      let r' := patched now p r in
      if existsb (fun o => negb (at_row tenant_id id o) && clashes o r') rows then None
      else Some (Some r', (AppState.update (fun o => at_row tenant_id id o && ur_live o) (patched now p) rows).1)
  end.

Definition set_deleted (now : Z) (r : UserRow) : UserRow :=
  let u := ur_user r in
  mkUserRow (ur_tenant_id r)
    (mkUser (u_id u) (u_org_id u) (u_username u) (u_email u) (u_email_verified u) (u_phone u) (u_phone_verified u)
       UDeleted (u_attributes u) (u_locale u) (u_created_at u) now)
    (ur_password_hash r) (ur_password_algo r) (ur_must_change_password r) (ur_password_expires_at r)
    (ur_password_changed_at r) (ur_external_id r) (ur_last_login_at r) (ur_failed_attempts r) (ur_locked_until r)
    (Some now) (ur_terms_accepted_at r).
Definition soft_delete (now : Z) (tenant_id id : Uuid) (rows : list UserRow) : list UserRow * Z :=
  AppState.update (fun r => at_row tenant_id id r && ur_live r) (set_deleted now) rows.
Definition hard_delete (tenant_id id : Uuid) (rows : list UserRow) : list UserRow :=
  filter (fun r => at_row tenant_id id r = false) rows.

(** What a password sets: the hash, when it expires, and a clean slate for the
    lockout. *)
Definition with_password (now : Z) (hash algo : string) (must_change : bool) (expires_at : option Z) (r : UserRow)
    : UserRow :=
  let u := ur_user r in
  mkUserRow (ur_tenant_id r)
    (mkUser (u_id u) (u_org_id u) (u_username u) (u_email u) (u_email_verified u) (u_phone u) (u_phone_verified u)
       (u_status u) (u_attributes u) (u_locale u) (u_created_at u) now)
    (Some hash) (Some algo) must_change expires_at (Some now) (ur_external_id r) (ur_last_login_at r) 0 None
    (ur_deleted_at r) (ur_terms_accepted_at r).
Definition set_password (now : Z) (tenant_id id : Uuid) (hash algo : string) (must_change : bool) (expires_at : option Z)
    (rows : list UserRow) : list UserRow * Z :=
  AppState.update (fun r => at_row tenant_id id r && ur_live r) (with_password now hash algo must_change expires_at) rows.

Definition with_attempts (r : UserRow) (last_login : option Z) (failed : Z) (locked_until : option Z) : UserRow :=
  mkUserRow (ur_tenant_id r) (ur_user r) (ur_password_hash r) (ur_password_algo r) (ur_must_change_password r)
    (ur_password_expires_at r) (ur_password_changed_at r) (ur_external_id r) last_login failed locked_until
    (ur_deleted_at r) (ur_terms_accepted_at r).
Definition record_login_success (now : Z) (tenant_id id : Uuid) (rows : list UserRow) : list UserRow :=
  (AppState.update (at_row tenant_id id) (fun r => with_attempts r (Some now) 0 None) rows).1.

(** One failure more; the account is locked from [lock_after] failures on. *)
Definition failed (now lock_after lock_for_secs : Z) (r : UserRow) : UserRow :=
  let n := ur_failed_attempts r + 1 in
  with_attempts r (ur_last_login_at r) n
    (if lock_after <=? n then Some (now + lock_for_secs * 1000) else ur_locked_until r).
(** The new count; [fetch_one] fails when the row is gone. *)
Definition record_login_failure (now : Z) (tenant_id id : Uuid) (lock_after lock_for_secs : Z) (rows : list UserRow)
    : option (Z * list UserRow) :=
  match find_by_id tenant_id id rows with
  | None => None
  | Some r => Some (ur_failed_attempts r + 1, (AppState.update (at_row tenant_id id) (failed now lock_after lock_for_secs) rows).1)
  end.

Definition set_unlocked (now : Z) (r : UserRow) : UserRow :=
  let u := ur_user r in
  with_attempts
    (with_user r (mkUser (u_id u) (u_org_id u) (u_username u) (u_email u) (u_email_verified u) (u_phone u)
                    (u_phone_verified u) (match u_status u with ULocked => UActive | s => s end) (u_attributes u)
                    (u_locale u) (u_created_at u) now)) (ur_last_login_at r) 0 None.
Definition unlock (now : Z) (tenant_id id : Uuid) (rows : list UserRow) : list UserRow * Z :=
  AppState.update (fun r => at_row tenant_id id r && ur_live r) (set_unlocked now) rows.

Definition with_terms (now : Z) (r : UserRow) : UserRow :=
  mkUserRow (ur_tenant_id r) (ur_user r) (ur_password_hash r) (ur_password_algo r) (ur_must_change_password r)
    (ur_password_expires_at r) (ur_password_changed_at r) (ur_external_id r) (ur_last_login_at r) (ur_failed_attempts r)
    (ur_locked_until r) (ur_deleted_at r) (Some now).
Definition set_terms_accepted (now : Z) (tenant_id id : Uuid) (rows : list UserRow) : list UserRow * Z :=
  AppState.update (fun r => at_row tenant_id id r && ur_live r) (with_terms now) rows.
End UserRepo.

(** ** The service *)

Section users.
Context `{Valkey} `{UuidDisplay} `{!Serde SsoSession} `{TextLib}.

(** The accounts of the deployment: sessions and tokens, the rows, and the
    tenants' profile schemas (the default where none is stored). *)
Record Accounts := mkAccounts {
  ac_app : AppState;
  ac_users : list UserRow;
  ac_schemas : gmap Uuid ProfileSchema
}.
Definition ac_with_app (st : Accounts) (app : AppState) : Accounts := mkAccounts app (ac_users st) (ac_schemas st).
Definition ac_with_users (st : Accounts) (rows : list UserRow) : Accounts := mkAccounts (ac_app st) rows (ac_schemas st).
Definition ac_publish (tenant : Uuid) (a : Actor) (k : EventKind) : M Accounts ApiError unit :=
  modify (fun st => ac_with_app st (publish (ac_app st) tenant a k)).
Definition get_schema (st : Accounts) (tenant_id : Uuid) : ProfileSchema :=
  default (mkProfileSchema [] false) (ac_schemas st !! tenant_id).

Definition normalize_username (raw_ : string) : result ApiError string :=
  let u := to_lowercase (trim_str raw_) in
  if String.eqb u "" || (255 <? Z.of_nat (String.length u)) then Err (BadRequest "username must be 1-255 characters")
  else if existsb is_whitespace (chars_of u) || existsb is_control (chars_of u)
  then Err (BadRequest "username must not contain whitespace")
  else Ok u.
Definition normalize_email (raw_ : string) : result ApiError string :=
  let e := to_lowercase (trim_str raw_) in
  if (320 <? Z.of_nat (String.length e)) || negb (validate_email e) then Err (BadRequest "invalid email address") else Ok e.

(** [Option::map(f).transpose()]. *)
Definition map_some (f : string -> result ApiError string) (o : option string) : result ApiError (option string) :=
  match o with Some x => let? y := f x in Ok (Some y) | None => Ok None end.
(** [if let Some(Some(x)) = &p { p = Some(Some(f(x)?)) }]. *)
Definition map_set (f : string -> result ApiError string) (o : option (option string))
    : result ApiError (option (option string)) :=
  match o with Some (Some x) => let? y := f x in Ok (Some (Some y)) | o => Ok o end.

Definition IN_USE : ApiError := ApiConflict "username or email already in use".

(** The statements in their transactions. *)
Definition insert_row (now : Z) (tenant_id id : Uuid) (input : NewUser) : M Accounts ApiError UserRow := fun st =>
  match UserRepo.insert now tenant_id id input (ac_users st) with
  | Some (row, rows) => (Ok row, ac_with_users st rows)
  | None => (Err IN_USE, st)
  end.
Definition update_row (now : Z) (tenant_id id : Uuid) (p : UserUpdate) : M Accounts ApiError UserRow := fun st =>
  match UserRepo.update now tenant_id id p (ac_users st) with
  | Some (Some row, rows) => (Ok row, ac_with_users st rows)
  | Some (None, _) => (Err (ApiNotFound "user"), st)
  | None => (Err IN_USE, st)
  end.
(** [f] answers the new rows and how many changed; none is an error. *)
Definition change_rows (f : list UserRow -> list UserRow * Z) : M Accounts ApiError unit := fun st =>
  let '(rows, n) := f (ac_users st) in
  if n =? 0 then (Err (ApiNotFound "user"), ac_with_users st rows) else (Ok tt, ac_with_users st rows).

Definition create_as (now : Z) (id tenant_id : Uuid) (actor : Actor) (editor : Editor) (input : NewUser)
    : M Accounts ApiError UserRow :=
  let! username := lift (normalize_username (nu_username input)) in
  let! email := lift (map_some normalize_email (nu_email input)) in
  let! phone := lift (map_some normalize_phone (nu_phone input)) in
  let! schema := gets (fun st => get_schema st tenant_id) in
  let! attributes := lift (validate_attributes_with schema (default (VObject []) (nu_attributes input)) editor None
                             (negb (nu_defer_required input))) in
  let input := mkNewUser username email (nu_email_verified input) phone (nu_phone_verified input) (nu_status input)
                 (Some attributes) (nu_locale input) (nu_org_id input) (nu_external_id input) (nu_defer_required input) in
  let! user := insert_row now tenant_id id input in
  do! ac_publish tenant_id actor (UserCreated id) in
  ret user.
Definition create (now : Z) (id tenant_id : Uuid) (actor : Actor) (input : NewUser) : M Accounts ApiError UserRow :=
  create_as now id tenant_id actor (editor_of actor) input.

(** [get]. *)
Definition get_user (tenant_id id : Uuid) : M Accounts ApiError UserRow :=
  let! rows := gets ac_users in
  match UserRepo.find_by_id tenant_id id rows with
  | Some r => if ur_live r then ret r else throw (ApiNotFound "user")
  | None => throw (ApiNotFound "user")
  end.

Definition find_by_identifier (tenant_id : Uuid) (identifier : string) : M Accounts ApiError (option UserRow) :=
  gets (fun st => UserRepo.find_by_identifier tenant_id (to_lowercase (trim_str identifier)) (ac_users st)).

(** [tenants::get_cached] followed by [logout::end_sessions_for_user]. *)
Definition sign_out_everywhere (now : Z) (acting : option Uuid) (tenant_id id : Uuid) : M Accounts ApiError unit :=
  let! policy := gets (fun st => tenant_policy (ac_app st) !! tenant_id) in
  let! policy := lift (ok_or policy (ApiNotFound "tenant")) in
  modify (fun st => ac_with_app st (end_sessions_for_user now acting policy (ac_app st) tenant_id id None).2).

(** [ldap before patch]: what [ldap::write_profile] answers. *)
Definition update_as (now : Z) (acting : option Uuid) (ldap : UserRow -> UserUpdate -> result ApiError unit)
    (tenant_id : Uuid) (actor : Actor) (editor : Editor) (id : Uuid) (p : UserUpdate) : M Accounts ApiError UserRow :=
  if update_is_empty p then get_user tenant_id id
  else
    let! username := lift (map_some normalize_username (up_username p)) in
    let! email := lift (map_set normalize_email (up_email p)) in
    let! phone := lift (map_set normalize_phone (up_phone p)) in
    let! before := get_user tenant_id id in
    let! schema := gets (fun st => get_schema st tenant_id) in
    let! attributes :=
      lift (match up_attributes p with
            | Some incoming =>
                let? v := validate_attributes schema incoming editor (Some (u_attributes (ur_user before))) in Ok (Some v)
            | None => Ok None
            end) in
    let p := mkUserUpdate username email (up_email_verified p) phone (up_phone_verified p) (up_status p) attributes
               (up_locale p) (up_org_id p) (up_must_change_password p) (up_external_id p) in
    do! (if bool_decide (ur_password_hash before = None)
            && match actor with ActSystem => false | _ => true end
            && (bool_decide (is_Some (up_username p)) || bool_decide (is_Some (up_email p))
                || match up_attributes p with Some _ => true | None => false end)
         then lift (ldap before p) else ret tt) in
    let! user := update_row now tenant_id id p in
    do! ac_publish tenant_id actor (UserUpdated id) in
    do! (if bool_decide (is_Some (up_email p)) && negb (bool_decide (ur_email before = ur_email user)) then
           do! ac_publish tenant_id actor (EmailChanged id (ur_email before) (ur_email user)) in
           let! policy := gets (fun st => tenant_policy (ac_app st) !! tenant_id) in
           let! _ := lift (ok_or policy (ApiNotFound "tenant")) in
           ret tt
         else ret tt) in
    do! (if bool_decide (ur_status user = UDisabled) && negb (bool_decide (ur_status before = UDisabled))
         then sign_out_everywhere now acting tenant_id id else ret tt) in
    ret user.
Definition update_user (now : Z) (acting : option Uuid) (ldap : UserRow -> UserUpdate -> result ApiError unit)
    (tenant_id : Uuid) (actor : Actor) (id : Uuid) (p : UserUpdate) : M Accounts ApiError UserRow :=
  update_as now acting ldap tenant_id actor (editor_of actor) id p.

(** [delete], less the eviction of cached roles. *)
Definition delete_user (now : Z) (acting : option Uuid) (tenant_id : Uuid) (actor : Actor) (id : Uuid)
    : M Accounts ApiError unit :=
  do! change_rows (UserRepo.soft_delete now tenant_id id) in
  do! ac_publish tenant_id actor (UserDeleted id) in
  sign_out_everywhere now acting tenant_id id.

Definition unlock (now : Z) (tenant_id : Uuid) (actor : Actor) (id : Uuid) : M Accounts ApiError unit :=
  do! change_rows (UserRepo.unlock now tenant_id id) in
  ac_publish tenant_id actor (UserUpdated id).
End users.

(** ** Accounts stay distinct *)

(** No two rows have one id, and no two live rows of a tenant a username, an
    email or an external id in common. *)
Definition distinct (rows : list UserRow) : Prop :=
  forall i j a b, rows !! i = Some a -> rows !! j = Some b -> i <> j ->
    ur_id a <> ur_id b /\ UserRepo.clashes a b = false.

Lemma same_some_comm a b : UserRepo.same_some a b = UserRepo.same_some b a.
Proof. destruct a, b; cbn; [apply String.eqb_sym|done..]. Qed.

Lemma clashes_comm a b : UserRepo.clashes a b = UserRepo.clashes b a.
Proof.
  unfold UserRepo.clashes. rewrite (Z.eqb_sym (ur_tenant_id a)), (String.eqb_sym (ur_username a)).
  rewrite (same_some_comm (ur_email a)), (same_some_comm (ur_external_id a)).
  f_equal. rewrite <- !andb_assoc. f_equal. apply andb_comm.
Qed.

Lemma existsb_none {A} (f : A -> bool) l x : existsb f l = false -> x ∈ l -> f x = false.
Proof.
  intros Hl Hx%list_elem_of_In. destruct (f x) eqn:E; [|done]. by rewrite (proj2 (existsb_exists f l)) in Hl by eauto.
Qed.

(** A change that keeps the names and revives nothing. *)
Definition keeps_names (f : UserRow -> UserRow) : Prop :=
  forall r, ur_id (f r) = ur_id r /\ ur_tenant_id (f r) = ur_tenant_id r /\ ur_username (f r) = ur_username r
    /\ ur_email (f r) = ur_email r /\ ur_external_id (f r) = ur_external_id r /\ (ur_live (f r) = true -> ur_live r = true).

Lemma distinct_keeps p f rows : keeps_names f -> distinct rows -> distinct (update p f rows).1.
Proof.
  intros Hf Hd i j a b. unfold update. cbn [fst]. rewrite !list_lookup_fmap. intros Ha Hb Hne.
  apply fmap_Some in Ha as (a0 & Ha & ->), Hb as (b0 & Hb & ->). destruct (Hd i j a0 b0 Ha Hb Hne) as [Hid Hc].
  assert (forall r, exists f', (if p r then f r else r) = f' r /\ keeps_names f') as Hg.
  { intros r. destruct (p r); [by exists f|]. exists (fun r => r). by split. }
  destruct (Hg a0) as (fa & -> & Hfa), (Hg b0) as (fb & -> & Hfb).
  destruct (Hfa a0) as (Ea & Eat & Eau & Eae & Eax & Eal), (Hfb b0) as (Eb & Ebt & Ebu & Ebe & Ebx & Ebl).
  split; [by rewrite Ea, Eb|]. destruct (UserRepo.clashes (fa a0) (fb b0)) eqn:E; [|done]. rewrite <- Hc. symmetry.
  unfold UserRepo.clashes in *. rewrite Eat, Ebt, Eau, Ebu, Eae, Ebe, Eax, Ebx in E.
  apply andb_prop in E as [E Hn]. apply andb_prop in E as [E Hlb]. apply andb_prop in E as [Ht Hla].
  by rewrite Ht, Hn, (Eal Hla), (Ebl Hlb).
Qed.

Lemma distinct_insert now t id input rows row rows' :
  UserRepo.insert now t id input rows = Some (row, rows') -> distinct rows -> distinct rows'.
Proof.
  unfold UserRepo.insert. destruct (existsb _ rows) eqn:E; [done|]. intros [= <- <-] Hd.
  match goal with |- distinct (rows ++ [?x]) => set (new := x) in * end.
  assert (forall a, a ∈ rows -> ur_id a <> ur_id new /\ UserRepo.clashes a new = false) as Hn.
  { intros a Ha. pose proof (existsb_none _ _ _ E Ha) as Hf. apply orb_false_elim in Hf as [Hi Hc]. split; [by apply Z.eqb_neq|done]. }
  intros i j a b Ha Hb Hne. apply lookup_app_Some in Ha as [Ha|[Hi Ha]], Hb as [Hb|[Hj Hb]].
  - by apply (Hd i j).
  - apply list_lookup_singleton_Some in Hb as [_ <-]. apply Hn. by eapply list_elem_of_lookup_2.
  - apply list_lookup_singleton_Some in Ha as [_ <-]. rewrite clashes_comm. destruct (Hn b) as [? ?]; [by eapply list_elem_of_lookup_2|].
    split; [by apply not_eq_sym|done].
  - apply list_lookup_singleton_Some in Ha as [Hi' _], Hb as [Hj' _]. lia.
Qed.

Lemma distinct_update now t id p rows o rows' :
  UserRepo.update now t id p rows = Some (o, rows') -> distinct rows -> distinct rows'.
Proof.
  unfold UserRepo.update. destruct (List.find _ rows) as [r|] eqn:Ef; [|by intros [= _ <-]].
  destruct (existsb _ rows) eqn:E; [done|]. intros [= _ <-] Hd. apply find_some in Ef as [Hr Hrow].
  apply list_elem_of_In, list_elem_of_lookup in Hr as [k Hk]. apply andb_prop in Hrow as [Hrow Hlive].
  assert (forall i a, rows !! i = Some a -> UserRepo.at_row t id a = true -> i = k /\ a = r) as Hone.
  { intros i a Ha Hat. destruct (decide (i = k)) as [->|Hne]; [split; congruence|].
    destruct (Hd i k a r Ha Hk Hne) as [Hid _]. unfold UserRepo.at_row in *. apply andb_prop in Hat as [_ Hi], Hrow as [_ Hi'].
    apply Z.eqb_eq in Hi, Hi'. congruence. }
  assert (forall i a, rows !! i = Some a -> i <> k ->
            ur_id a <> ur_id (UserRepo.patched now p r) /\ UserRepo.clashes a (UserRepo.patched now p r) = false) as Hother.
  { intros i a Ha Hne. destruct (Hd i k a r Ha Hk Hne) as [Hid _]. split; [exact Hid|].
    pose proof (existsb_none _ _ a E) as Hf. cbn beta in Hf. destruct (UserRepo.at_row t id a) eqn:Eat.
    - by destruct (Hone i a Ha Eat).
    - apply Hf. by eapply list_elem_of_lookup_2. }
  assert (forall i a, (fun o => if UserRepo.at_row t id o && ur_live o then UserRepo.patched now p o else o) <$> rows !! i = Some a ->
            (i = k /\ a = UserRepo.patched now p r) \/ (i <> k /\ rows !! i = Some a)) as Hcase.
  { intros i a Ha. apply fmap_Some in Ha as (a0 & Ha & ->). destruct (UserRepo.at_row t id a0) eqn:Eat; cbn [andb].
    - destruct (Hone i a0 Ha Eat) as [-> ->]. rewrite Hlive. by left.
    - right. split; [|done]. intros ->. rewrite Hk in Ha. injection Ha as <-. congruence. }
  intros i j a b. unfold update. cbn [fst]. rewrite !list_lookup_fmap.
  intros [(-> & ->)|(Hi & Ha)]%Hcase [(-> & ->)|(Hj & Hb)]%Hcase Hne; [done|..].
  - rewrite clashes_comm. destruct (Hother j b Hb Hj). split; [by apply not_eq_sym|done].
  - by apply (Hother i).
  - by apply (Hd i j).
Qed.

Lemma distinct_filter (P : UserRow -> Prop) `{!forall r, Decision (P r)} rows : distinct rows -> distinct (filter P rows).
Proof.
  induction rows as [|r rows IH]; intros Hd; [done|].
  assert (distinct rows) as Hd'. { intros i j a b Ha Hb Hne. apply (Hd (S i) (S j)); [done..|lia]. }
  rewrite filter_cons. case_decide; [|by apply IH]. specialize (IH Hd').
  assert (forall x i, filter P rows !! i = Some x -> ur_id r <> ur_id x /\ UserRepo.clashes r x = false) as Hr.
  { intros x i Hx%list_elem_of_lookup_2. apply list_elem_of_filter in Hx as [_ [k Hk]%list_elem_of_lookup]. by apply (Hd 0%nat (S k)). }
  intros [|i] [|j] a b Ha Hb Hne; cbn in Ha, Hb.
  - done.
  - injection Ha as <-. by apply (Hr b j).
  - injection Hb as <-. rewrite clashes_comm. destruct (Hr a i Ha). split; [by apply not_eq_sym|done].
  - apply (IH i j a b Ha Hb). lia.
Qed.

Section history.
Context `{Valkey} `{UuidDisplay} `{!Serde SsoSession} `{TextLaws}.

(** The spelling under which a name is looked up: without the blanks around it
    and in lower case. *)
Definition spelling (s : string) : string := to_lowercase (trim_str s).
(** Every account is stored under the spelling of its names. *)
Definition spelled (r : UserRow) : Prop :=
  spelling (ur_username r) = ur_username r /\ forall e, ur_email r = Some e -> spelling e = e.

Lemma normalize_username_spelled raw_ u : normalize_username raw_ = Ok u -> spelling u = u.
Proof. unfold normalize_username. repeat case_match; try done. intros [= <-]. apply lower_again. Qed.
Lemma normalize_email_spelled raw_ e : normalize_email raw_ = Ok e -> spelling e = e.
Proof. unfold normalize_email. case_match; [done|]. intros [= <-]. apply lower_again. Qed.
Lemma map_some_ok f o o' x : map_some f o = Ok o' -> o' = Some x -> exists y, f y = Ok x.
Proof. unfold map_some. destruct o as [y|]; [|congruence]. destruct (f y) as [z|] eqn:E; [|done]. intros [= <-] [= ->]. by exists y. Qed.
Lemma map_set_ok f o o' x : map_set f o = Ok o' -> o' = Some (Some x) -> exists y, f y = Ok x.
Proof.
  unfold map_set. destruct o as [[y|]|]; [|congruence..]. destruct (f y) as [z|] eqn:E; [|done]. intros [= <-] [= ->]. by exists y.
Qed.

Lemma spelled_keeps p f rows : keeps_names f -> Forall spelled rows -> Forall spelled (update p f rows).1.
Proof.
  intros Hf Hs. unfold update. cbn [fst]. apply Forall_fmap. apply (Forall_impl _ _ _ Hs). intros r Hr. cbn. destruct (p r); [|done].
  destruct (Hf r) as (_ & _ & Hu & He & _). unfold spelled. by rewrite Hu, He.
Qed.
Lemma spelled_insert now t id input rows row rows' :
  UserRepo.insert now t id input rows = Some (row, rows') ->
  spelling (nu_username input) = nu_username input -> (forall e, nu_email input = Some e -> spelling e = e) ->
  Forall spelled rows -> Forall spelled rows'.
Proof.
  unfold UserRepo.insert. destruct (existsb _ rows); [done|]. intros [= <- <-] Hu He Hs. apply Forall_app. split; [done|].
  constructor; [|done]. by split.
Qed.
Lemma spelled_update now t id p rows o rows' :
  UserRepo.update now t id p rows = Some (o, rows') ->
  (forall u, up_username p = Some u -> spelling u = u) -> (forall e, up_email p = Some (Some e) -> spelling e = e) ->
  Forall spelled rows -> Forall spelled rows'.
Proof.
  unfold UserRepo.update. destruct (List.find _ rows) as [r|]; [|by intros [= _ <-]]. destruct (existsb _ rows); [done|].
  intros [= _ <-] Hu He Hs. unfold update. cbn [fst]. apply Forall_fmap. apply (Forall_impl _ _ _ Hs). intros x [Hx1 Hx2]. cbn.
  destruct (_ && _); [|done]. unfold spelled, ur_username, ur_email. cbn. split.
  - destruct (up_username p) as [u|]; [by apply Hu|done].
  - destruct (up_email p) as [[e|]|]; [intros e' [= <-]; by apply He|done|done].
Qed.

(** What writes to the table, with the time, the draws and the answers of
    others each takes. *)
Inductive UserOp :=
| OpCreate (id tenant_id : Uuid) (actor : Actor) (editor : Editor) (input : NewUser)
| OpUpdate (acting : option Uuid) (ldap : UserRow -> UserUpdate -> result ApiError unit) (tenant_id : Uuid)
    (actor : Actor) (editor : Editor) (id : Uuid) (p : UserUpdate)
| OpDelete (acting : option Uuid) (tenant_id : Uuid) (actor : Actor) (id : Uuid)
| OpUnlock (tenant_id : Uuid) (actor : Actor) (id : Uuid)
| OpPassword (tenant_id id : Uuid) (hash algo : string) (must_change : bool) (expires_at : option Z)
| OpSuccess (tenant_id id : Uuid)
| OpFailure (tenant_id id : Uuid) (lock_after lock_for_secs : Z)
| OpTerms (tenant_id id : Uuid)
| OpPurge (tenant_id id : Uuid).

Definition run_user (now : Z) (op : UserOp) (st : Accounts) : Accounts :=
  match op with
  | OpCreate id t actor editor input => (create_as now id t actor editor input st).2
  | OpUpdate acting ldap t actor editor id p => (update_as now acting ldap t actor editor id p st).2
  | OpDelete acting t actor id => (delete_user now acting t actor id st).2
  | OpUnlock t actor id => (unlock now t actor id st).2
  | OpPassword t id hash algo must ex => ac_with_users st (UserRepo.set_password now t id hash algo must ex (ac_users st)).1
  | OpSuccess t id => ac_with_users st (UserRepo.record_login_success now t id (ac_users st))
  | OpFailure t id after secs =>
      match UserRepo.record_login_failure now t id after secs (ac_users st) with
      | Some (_, rows) => ac_with_users st rows
      | None => st
      end
  | OpTerms t id => ac_with_users st (UserRepo.set_terms_accepted now t id (ac_users st)).1
  | OpPurge t id => ac_with_users st (UserRepo.hard_delete t id (ac_users st))
  end.

Definition accounts_ok (st : Accounts) : Prop := distinct (ac_users st) /\ Forall spelled (ac_users st).

Lemma ok_publish t a k : preserves accounts_ok (ac_publish t a k).
Proof. by apply preserves_modify. Qed.
(** What a fallible computation answered is known to what follows it. *)
Lemma ok_lift {A B} (r : result ApiError A) (k : A -> M Accounts ApiError B) :
  (forall a, r = Ok a -> preserves accounts_ok (k a)) -> preserves accounts_ok (bind (lift r) k).
Proof. intros Hk st Hst. unfold bind, lift. destruct r as [a|]; [by apply Hk|done]. Qed.
Lemma ok_insert now t id input :
  spelling (nu_username input) = nu_username input -> (forall e, nu_email input = Some e -> spelling e = e) ->
  preserves accounts_ok (insert_row now t id input).
Proof.
  intros Hu He st [Hd Hs]. unfold insert_row. destruct (UserRepo.insert _ _ _ _ _) as [[row rows]|] eqn:E; [|done].
  split; [exact (distinct_insert _ _ _ _ _ _ _ E Hd)|exact (spelled_insert _ _ _ _ _ _ _ E Hu He Hs)].
Qed.
Lemma ok_update now t id p :
  (forall u, up_username p = Some u -> spelling u = u) -> (forall e, up_email p = Some (Some e) -> spelling e = e) ->
  preserves accounts_ok (update_row now t id p).
Proof.
  intros Hu He st [Hd Hs]. unfold update_row. destruct (UserRepo.update _ _ _ _ _) as [[[row|] rows]|] eqn:E; [|done..].
  split; [exact (distinct_update _ _ _ _ _ _ _ E Hd)|exact (spelled_update _ _ _ _ _ _ _ E Hu He Hs)].
Qed.
Lemma ok_rows p f st : keeps_names f -> accounts_ok st -> accounts_ok (ac_with_users st (update p f (ac_users st)).1).
Proof. intros Hf [Hd Hs]. split; [by apply distinct_keeps|by apply spelled_keeps]. Qed.
Lemma ok_change p f : keeps_names f -> preserves accounts_ok (change_rows (update p f)).
Proof.
  intros Hf st Hst. unfold change_rows. pose proof (ok_rows p f st Hf Hst) as Hst'.
  destruct (update p f (ac_users st)) as [rows n]. by destruct (n =? 0).
Qed.
Lemma ok_get t id : preserves accounts_ok (get_user t id).
Proof. intros st. unfold get_user, bind, gets. repeat case_match; by simplify_eq. Qed.
Lemma ok_sign_out now acting t id : preserves accounts_ok (sign_out_everywhere now acting t id).
Proof. unfold sign_out_everywhere. do 2 (apply preserves_bind; [eauto with effects|intros]). by apply preserves_modify. Qed.
#[local] Hint Resolve ok_publish ok_change ok_get ok_sign_out : effects.

Lemma names_kept now :
  keeps_names (UserRepo.set_deleted now) /\ keeps_names (UserRepo.set_unlocked now) /\ keeps_names (UserRepo.with_terms now)
  /\ keeps_names (fun r => UserRepo.with_attempts r (Some now) 0 None).
Proof. by split_and!; intros r; split_and!. Qed.

Lemma ok_create now id t actor editor input : preserves accounts_ok (create_as now id t actor editor input).
Proof.
  unfold create_as. apply ok_lift. intros u Hu%normalize_username_spelled. apply ok_lift. intros em Hem. apply ok_lift. intros ph _.
  repeat (apply preserves_bind; [eauto with effects|intros ?]); [|eauto with effects].
  apply ok_insert; cbn; [done|]. intros e Ee. destruct (map_some_ok _ _ _ _ Hem Ee) as [y Hy]. by eapply normalize_email_spelled.
Qed.
Lemma ok_update_as now acting ldap t actor editor id p : preserves accounts_ok (update_as now acting ldap t actor editor id p).
Proof.
  unfold update_as. destruct (update_is_empty p); [eauto with effects|]. apply ok_lift. intros u Hu. apply ok_lift. intros em Hem.
  apply ok_lift. intros ph _. do 3 (apply preserves_bind; [eauto with effects|intros ?]).
  apply preserves_bind; [case_match; eauto with effects|intros _]. apply preserves_bind.
  - apply ok_update; cbn; intros x Hx.
    + destruct (map_some_ok _ _ _ _ Hu Hx) as [y Hy]. by eapply normalize_username_spelled.
    + destruct (map_set_ok _ _ _ _ Hem Hx) as [y Hy]. by eapply normalize_email_spelled.
  - intros user. repeat (apply preserves_bind; [repeat case_match; eauto 7 with effects|intros ?]). eauto with effects.
Qed.

Lemma ok_step now op st : accounts_ok st -> accounts_ok (run_user now op st).
Proof.
  destruct (names_kept now) as (Kd & Ku & Kt & Ks). destruct op; cbn [run_user]; intros Hd.
  - by apply ok_create.
  - by apply ok_update_as.
  - revert st Hd. change (preserves accounts_ok (delete_user now acting tenant_id actor id)). unfold delete_user.
    apply preserves_bind; [by apply ok_change|intros _]. apply preserves_bind; eauto with effects.
  - revert st Hd. change (preserves accounts_ok (unlock now tenant_id actor id)). unfold unlock.
    apply preserves_bind; [by apply ok_change|eauto with effects].
  - apply ok_rows; [|done]. by intros r; split_and!.
  - by apply ok_rows.
  - unfold UserRepo.record_login_failure. destruct (UserRepo.find_by_id _ _ _); [|done].
    apply ok_rows; [|done]. by intros r; split_and!.
  - by apply ok_rows.
  - destruct Hd as [Hd Hs]. split; [by apply distinct_filter|]. rewrite Forall_forall in Hs |- *. intros x [_ Hx]%list_elem_of_filter. by apply Hs.
Qed.

Lemma ok_history (ops : list (Z * UserOp)) st : accounts_ok st -> accounts_ok (foldl (fun st op => run_user op.1 op.2 st) st ops).
Proof. revert st. induction ops as [|[now op] ops IH]; intros st Hst; [done|]. apply IH, ok_step, Hst. Qed.

(** Two accounts that nobody can take for one another. *)
Definition told_apart (a b : UserRow) : Prop :=
  ur_id a <> ur_id b
  /\ (ur_tenant_id a = ur_tenant_id b -> ur_live a = true -> ur_live b = true ->
      spelling (ur_username a) <> spelling (ur_username b)
      /\ (forall e e', ur_email a = Some e -> ur_email b = Some e' -> spelling e <> spelling e')
      /\ (forall x x', ur_external_id a = Some x -> ur_external_id b = Some x' -> x <> x')).
Lemma told_apart_rows rows i j a b :
  distinct rows -> Forall spelled rows -> rows !! i = Some a -> rows !! j = Some b -> i <> j -> told_apart a b.
Proof.
  intros Hd Hs Ha Hb Hne. destruct (Hd i j a b Ha Hb Hne) as [Hid Hc]. split; [done|]. intros Et La Lb.
  rewrite Forall_forall in Hs. destruct (Hs a) as [Ua Ea]; [by eapply list_elem_of_lookup_2|].
  destruct (Hs b) as [Ub Eb]; [by eapply list_elem_of_lookup_2|].
  unfold UserRepo.clashes in Hc. rewrite Et, Z.eqb_refl, La, Lb in Hc. cbn [andb] in Hc.
  apply orb_false_elim in Hc as [Hc Hx]. apply orb_false_elim in Hc as [Hu He]. split_and!.
  - rewrite Ua, Ub. by apply String.eqb_neq.
  - intros e e' Ee Ee'. rewrite Ee, Ee' in He. rewrite (Ea _ Ee), (Eb _ Ee'). by apply String.eqb_neq.
  - intros x x' Ex Ex'. rewrite Ex, Ex' in Hx. by apply String.eqb_neq.
Qed.

(** C26: whatever accounts are created, changed, deleted, locked and purged by
    any path, in any order, with names in any spelling, no two rows share an
    id, and no two live accounts of a tenant have usernames, or emails, that
    differ only in case or in blanks around them, or the same external id:
    every name is stored in the one spelling sign-in looks it up under. *)
Theorem accounts_distinct (ops : list (Z * UserOp)) st i j a b :
  distinct (ac_users st) -> Forall spelled (ac_users st) ->
  let rows := ac_users (foldl (fun st op => run_user op.1 op.2 st) st ops) in
  rows !! i = Some a -> rows !! j = Some b -> i <> j -> told_apart a b /\ spelled a.
Proof.
  intros Hd Hs rows Ha Hb Hne. destruct (ok_history ops st) as [Hd' Hs']; [done|].
  split; [by eapply told_apart_rows|]. rewrite Forall_forall in Hs'. apply Hs'. by eapply list_elem_of_lookup_2.
Qed.
End history.

(** ** An account that ends is signed out *)

Section signed_out.
Context `{ValkeyLaws} `{UuidDisplay} `{!Serde SsoSession} `{TextLib}.

(** A session the list finds is gone when all of the list was ended. *)
Lemma end_all_live now acting pol st t u sid :
  keyed now st -> sid ∈ s_id <$> (list_live_for_user now st t u).1 ->
  ended t sid now (end_sessions_for_user now acting pol st t u None).2.
Proof.
  intros Hk Hin. unfold end_sessions_for_user.
  assert (keyed now (list_live_for_user now st t u).2) as Hk1.
  { intros n t' sid' r s Hn. rewrite vget_list_live. by apply Hk. }
  destruct (list_live_for_user now st t u) as [live st1]. cbn [fst snd] in *. clear Hk st.
  assert (sid ∈ s_id <$> live \/ gone t sid now st1) as Hor by by left. clear Hin. generalize 0. revert st1 Hk1 Hor.
  induction live as [|s live IH]; intros st1 Hk Hor n; cbn [foldl].
  { destruct Hor as [Hor|Hor]; [by apply elem_of_nil in Hor|]. by split. }
  rewrite bool_decide_eq_false_2 by done.
  assert (ended t sid now (end_session now acting pol st1 t (s_id s)).2 \/ sid ∈ s_id <$> live) as Hnext.
  { destruct Hor as [Hor|Hor]; [|left; apply ended_end_session; [done|by right]].
    rewrite fmap_cons in Hor. apply elem_of_cons in Hor as [->|Hor]; [|by right]. left. apply ended_end_session; [done|by left]. }
  assert (keyed now (end_session now acting pol st1 t (s_id s)).2) as Hk'.
  { by destruct (ended_end_session t (s_id s) now acting pol st1 t (s_id s) Hk (or_introl eq_refl)). }
  destruct (end_session now acting pol st1 t (s_id s)) as [e st2]. cbn [snd] in *.
  destruct Hnext as [[_ Hg]|Hm]; [|by apply IH; [done|left]]. destruct (IH st2 Hk' (or_intror Hg) (if e then n + 1 else n)). by split.
Qed.

Lemma sign_out_gone now acting t id st st' sid :
  sign_out_everywhere now acting t id st = (Ok tt, st') -> keyed now (ac_app st) ->
  sid ∈ s_id <$> (list_live_for_user now (ac_app st) t id).1 -> ended t sid now (ac_app st').
Proof.
  unfold sign_out_everywhere. intros Hr Hk Hin. inv_run. injection Hr as <-. by apply end_all_live.
Qed.

(** Publishing touches neither sessions nor rows. *)
Lemma ac_publish_run t a k st x st' :
  ac_publish t a k st = (Ok x, st') -> redis (ac_app st') = redis (ac_app st) /\ ac_users st' = ac_users st.
Proof. by intros [= _ <-]. Qed.

Lemma get_user_run t id st row st' : get_user t id st = (Ok row, st') -> st' = st /\ UserRepo.find_by_id t id (ac_users st) = Some row.
Proof.
  unfold get_user. intros Hr. inv_run. destruct (UserRepo.find_by_id _ _ _) as [r|]; [|done]. destruct (ur_live r); [|done].
  by inv_run.
Qed.

Lemma if_lift_run {S E} (c : bool) (r : result E unit) (s : S) x s' : (if c then lift r else ret tt) s = (Ok x, s') -> s' = s.
Proof. destruct c; [by intros [_ ->]%lift_ok|by intros [= _ <-]]. Qed.
Lemma update_row_run now t id p st row st' : update_row now t id p st = (Ok row, st') -> redis (ac_app st') = redis (ac_app st).
Proof. unfold update_row. intros Hr. repeat case_match; by simplify_eq. Qed.
Lemma change_rows_run f st x st' : change_rows f st = (Ok x, st') -> redis (ac_app st') = redis (ac_app st).
Proof. unfold change_rows. intros Hr. repeat case_match; by simplify_eq. Qed.
Lemma changed_run (c : bool) t a k (o : Accounts -> option SessionPolicy) e st x st' :
  (if c then do! ac_publish t a k in let! policy := gets o in let! _ := lift (ok_or policy e) in ret tt else ret tt) st = (Ok x, st') ->
  redis (ac_app st') = redis (ac_app st).
Proof.
  destruct c; [|by intros [= _ <-]]. intros Hr. inv_run. rename select (ac_publish _ _ _ _ = _) into Hp.
  by apply ac_publish_run in Hp as [-> _].
Qed.

(** C27: an account that is disabled or deleted, by an administrator, a
    provisioning client or the user, is signed out at once: every live session
    of the user is gone from the cache when the operation returns, and stays
    gone. *)
Theorem account_end_signs_out now acting ldap t actor editor id p st st' before sid :
  keyed now (ac_app st) -> sid ∈ s_id <$> (list_live_for_user now (ac_app st) t id).1 ->
  UserRepo.find_by_id t id (ac_users st) = Some before ->
  (exists row, update_as now acting ldap t actor editor id p st = (Ok row, st')
     /\ ur_status row = UDisabled /\ ur_status before <> UDisabled)
  \/ delete_user now acting t actor id st = (Ok tt, st') ->
  gone t sid now (ac_app st').
Proof.
  intros Hk Hin Hb Hrun.
  assert (forall st1, redis (ac_app st1) = redis (ac_app st) -> sign_out_everywhere now acting t id st1 = (Ok tt, st') ->
            gone t sid now (ac_app st')) as Hend.
  { intros st1 E Hs. eapply (sign_out_gone now acting t id st1 st'); [exact Hs|..].
    - unfold keyed. by rewrite E.
    - by rewrite (list_live_redis now t id (ac_app st) (ac_app st1) E). }
  destruct Hrun as [(row & Hu & Hd & Hn)|Hdel].
  - unfold update_as in Hu. destruct (update_is_empty p).
    { apply get_user_run in Hu as [_ Hu]. congruence. }
    inv_run. rename select (get_user _ _ _ = _) into Hg. apply get_user_run in Hg as [-> Hg]. rewrite Hb in Hg. injection Hg as <-.
    match goal with E : (if _ then lift _ else ret tt) _ = _ |- _ => apply if_lift_run in E as -> end.
    rename select (update_row _ _ _ _ _ = _) into Hw. apply update_row_run in Hw.
    rename select (ac_publish _ _ _ _ = _) into Hp. apply ac_publish_run in Hp as [Hp _].
    match goal with E : (if _ then bind _ _ else ret tt) _ = _ |- _ => apply changed_run in E end.
    match goal with E : (if _ then sign_out_everywhere _ _ _ _ else ret tt) _ = _ |- _ => rename E into Hs end.
    rewrite Hd, bool_decide_eq_true_2, (bool_decide_eq_false_2 (ur_status before = UDisabled)) in Hs by done. cbn [negb andb] in Hs.
    match type of Hs with _ = (Ok ?u, _) => destruct u end. eapply Hend; [|exact Hs]. congruence.
  - unfold delete_user in Hdel. inv_run. rename select (change_rows _ _ = _) into Hc. apply change_rows_run in Hc.
    rename select (ac_publish _ _ _ _ = _) into Hp. apply ac_publish_run in Hp as [Hp _]. eapply Hend; [|exact Hdel]. congruence.
Qed.
End signed_out.

(** ** What account changes leave alone *)

Section frame.
Context `{ValkeyLaws} `{UuidDisplay} `{!Serde SsoSession} `{TextLib}.

(** Reached from [st0] without touching keys of other services. *)
Definition framed (app0 : AppState) (st : Accounts) : Prop := frames app0 (ac_app st).

Lemma framed_publish app0 t a k : preserves (framed app0) (ac_publish t a k).
Proof. by apply preserves_modify. Qed.
Lemma framed_update app0 now t id p : preserves (framed app0) (update_row now t id p).
Proof. intros st Hs. unfold update_row. by repeat case_match. Qed.
Lemma framed_get app0 t id : preserves (framed app0) (get_user t id).
Proof. intros st. unfold get_user, bind, gets. repeat case_match; by simplify_eq. Qed.
Lemma framed_sign_out app0 now acting t id : preserves (framed app0) (sign_out_everywhere now acting t id).
Proof.
  unfold sign_out_everywhere. do 2 (apply preserves_bind; [eauto with effects|intros]). apply preserves_modify.
  intros st Hs. eapply frames_trans; [exact Hs|]. apply frames_end_all.
Qed.
#[local] Hint Resolve framed_publish framed_update framed_get framed_sign_out : effects.

Lemma update_as_frames app0 now acting ldap t actor editor id p : preserves (framed app0) (update_as now acting ldap t actor editor id p).
Proof.
  unfold update_as. destruct (update_is_empty p); [eauto with effects|].
  repeat (apply preserves_bind; [repeat case_match; eauto 7 with effects|intros ?]). eauto with effects.
Qed.
End frame.

(** ** A sign-in name may mean two accounts *)

(** a username may be another account's email: when one live account has as
    its username the address of another, the sign-in lookup answers with
    whichever row the database comes to first, and the other account cannot be
    found by that name. *)
Theorem identifier_ambiguous t name a b rest :
  UserRepo.identified_by t name a = true -> UserRepo.identified_by t name b = true -> ur_id a <> ur_id b ->
  exists x y, UserRepo.find_by_identifier t name (a :: b :: rest) = Some x
    /\ UserRepo.find_by_identifier t name (b :: a :: rest) = Some y /\ ur_id x <> ur_id y.
Proof. intros Ha Hb Hne. exists a, b. unfold UserRepo.find_by_identifier. cbn [List.find]. by rewrite Ha, Hb. Qed.

Section example.
#[local] Existing Instances ex_valkey ex_serde toy_uuid pf_lib pf_laws.
Definition us_user (id : Uuid) (username : string) (email : option string) : UserRow :=
  mkUserRow 1 (mkUser id None username email true None false UActive (VObject []) None 0 0) (Some "hash"%string)
    (Some "argon2id"%string) false None None None None 0 None None None.
Definition us_new (username : string) (email : option string) : NewUser :=
  mkNewUser username email false None false None None None None None false.
Definition us_state : Accounts := mkAccounts ex_one [us_user 5 "bo" (Some "bo@example.com"%string)] ∅.
Definition us_ldap (_ : UserRow) (_ : UserUpdate) : result ApiError unit := Ok tt.

(** A second account takes the first one's address as its username. *)
Definition us_ops : list (Z * UserOp) :=
  [(1000, OpCreate 6 1 ActSystem EdSystem (us_new "bo@example.com" None));
   (2000, OpCreate 7 1 ActSystem EdSystem (us_new " bo" None));
   (3000, OpFailure 1 5 1 60); (4000, OpUpdate None us_ldap 1 (ActAdmin 9) EdAdmin 6
                                        (mkUserUpdate (Some "bo"%string) None None None None None None None None None None))].
Definition us_final : Accounts := foldl (fun st op => run_user op.1 op.2 st) us_state us_ops.

Example us_final_names : (fun r => (ur_id r, ur_username r)) <$> ac_users us_final = [(5, "bo"); (6, "bo@example.com")]%string.
Proof. vm_compute. reflexivity. Qed.

Lemma accounts_distinct_witness : exists a b, ac_users us_final = [a; b] /\ told_apart a b.
Proof.
  assert (exists a b, ac_users us_final = [a; b]) as (a & b & E) by (do 2 eexists; vm_compute; reflexivity).
  exists a, b. split; [exact E|].
  apply (accounts_distinct us_ops us_state 0 1 a b).
  - intros [|i] [|j] x y Hx Hy Hne; done.
  - constructor; [|constructor]. split; [vm_compute; reflexivity|]. intros e [= <-]. vm_compute. reflexivity.
  - change (ac_users us_final !! 0%nat = Some a). rewrite E. reflexivity.
  - change (ac_users us_final !! 1%nat = Some b). rewrite E. reflexivity.
  - lia.
Defined.

Definition us_deleted : result ApiError unit * Accounts := delete_user 1000 None 1 (ActAdmin 9) 5 us_state.
Lemma us_keyed : keyed 1000 ex_one.
Proof. intros n t sid r s Hn. apply (proj1 ex_tracked_one). lia. Qed.

Lemma account_end_signs_out_witness : gone 1 10 1000 (ac_app us_deleted.2).
Proof.
  apply (account_end_signs_out (H0 := map_valkey_laws) 1000 None us_ldap 1 (ActAdmin 9) EdAdmin 5 no_update us_state us_deleted.2
           (us_user 5 "bo" (Some "bo@example.com"%string)) 10).
  - exact us_keyed.
  - apply list_elem_of_In. vm_compute. by left.
  - reflexivity.
  - right. vm_compute. reflexivity.
Defined.

Lemma identifier_ambiguous_witness :
  exists x y, UserRepo.find_by_identifier 1 "bo@example.com"
                [us_user 5 "bo" (Some "bo@example.com"%string); us_user 6 "bo@example.com" None] = Some x
    /\ UserRepo.find_by_identifier 1 "bo@example.com"
         [us_user 6 "bo@example.com" None; us_user 5 "bo" (Some "bo@example.com"%string)] = Some y
    /\ ur_id x <> ur_id y.
Proof. apply (identifier_ambiguous 1 "bo@example.com"); [reflexivity..|done]. Defined.
End example.
