(* ===== verification/Server.v ===== *)
(** * What sign-ins read and write

    The tables behind a sign-in, as their repositories see them
    ([api/src/repos/login_attempts.rs], [user_login_locations.rs],
    [trusted_devices.rs], [consents.rs]), the settings of a tenant that the
    sign-in services read ([models/tenant.rs]), and the state of a deployment
    they share. *)

From stdpp Require Import gmap strings sorting.
From S2P Require Import Prelude Effects Utf8 Valkey AppState Sessions DeviceCodes KeyCustody Credentials Mfa.
From S2P Require Import ApiErrors Models Profile Users.

(** ** Rows found and updated *)

Lemma find_update {A} (p q : A -> bool) (f : A -> A) rows :
  (forall r, p (f r) = p r) -> List.find p ((fun r => if q r then f r else r) <$> rows) = (fun r => if q r then f r else r) <$> List.find p rows.
Proof.
  intros Hp. induction rows as [|r rows IH]; [done|]. rewrite fmap_cons. cbn.
  replace (p (if q r then f r else r)) with (p r) by (destruct (q r); by rewrite ?Hp). by destruct (p r).
Qed.

Lemma find_app {A} (p : A -> bool) l l' :
  List.find p (l ++ l') = match List.find p l with Some x => Some x | None => List.find p l' end.
Proof. induction l as [|x l IH]; [done|]. cbn. by destruct (p x). Qed.

(** ** Settings *)

Record AuthMethods := mkAuthMethods {
  am_password : bool; am_magic_link : bool; am_email_otp : bool; am_sms_otp : bool; am_passkey : bool
}.
Record MfaMethods := mkMfaMethods { mm_totp : bool; mm_email_otp : bool; mm_sms_otp : bool }.
Inductive MfaPolicy := MfaOff | MfaOptional | MfaRequired | MfaRequiredForAdmins | MfaRequiredForRoles (roles : list string).
Record LockoutPolicy := mkLockoutPolicy {
  max_failures : Z; lock_minutes : Z; ip_max_failures : Z; ip_window_minutes : Z
}.
Record RiskWeights := mkRiskWeights { w_new_device : Z; w_new_country : Z; w_impossible_travel : Z; w_velocity : Z }.
Record RiskPolicy := mkRiskPolicy {
  rp_enabled : bool;
  rp_weights : RiskWeights;
  step_up_at : Z;
  block_at : Z;
  impossible_travel_kmh : Z;
  velocity_window_minutes : Z;
  velocity_max_failures : Z
}.
(** [max_age_days] in days; 0 of [history] is off. *)
Record PasswordPolicy := mkPasswordPolicy {
  pp_min_length : Z; pp_max_length : Z;
  pp_require_uppercase : bool; pp_require_lowercase : bool; pp_require_digit : bool; pp_require_symbol : bool;
  pp_history : Z; pp_max_age_days : option Z; pp_check_breached : bool
}.
Record NotificationPolicy := mkNotificationPolicy { np_new_device : bool; np_password_changed : bool }.
Record CaptchaPolicy := mkCaptchaPolicy { after_failures : Z; on_registration : bool }.
Record RegistrationPolicy := mkRegistrationPolicy {
  rg_enabled : bool; require_email_verification : bool; require_terms : bool; allowed_email_domains : list string
}.
(** [TenantSettings], of what sign-ins read. *)
Record Settings := mkSettings {
  st_session : SessionPolicy;
  st_remember_device_days : Z;
  st_mfa : MfaPolicy;
  st_mfa_methods : MfaMethods;
  st_risk : RiskPolicy;
  st_registration : RegistrationPolicy;
  st_auth : AuthMethods;
  st_lockout : LockoutPolicy;
  st_captcha : CaptchaPolicy;
  st_password : PasswordPolicy;
  st_notifications : NotificationPolicy
}.

(** ** Rows *)

Record LoginAttempt := mkLoginAttempt {
  la_tenant_id : Uuid;
  la_identifier : string;
  la_ip : option string;
  la_success : bool;
  la_reason : option string;
  la_created_at : Z
}.
Module AttemptRepo.
Definition record (now : Z) (tenant_id : Uuid) (identifier : string) (ip : option string) (success : bool)
    (reason : option string) (rows : list LoginAttempt) : list LoginAttempt :=
  rows ++ [mkLoginAttempt tenant_id identifier ip success reason now].
Definition failure_from (tenant_id : Uuid) (ip : string) (since : Z) (r : LoginAttempt) : bool :=
  (la_tenant_id r =? tenant_id) && bool_decide (la_ip r = Some ip) && negb (la_success r) && (since <=? la_created_at r).
Definition failures_from_ip (tenant_id : Uuid) (ip : string) (since : Z) (rows : list LoginAttempt) : Z :=
  zlen (filter (fun r => failure_from tenant_id ip since r = true) rows).
(** [failures_from_ip_since]: two windows in one read. *)
Definition failures_from_ip_since (tenant_id : Uuid) (ip : string) (since1 since2 : Z) (rows : list LoginAttempt) : Z * Z :=
  let seen := filter (fun r => failure_from tenant_id ip (Z.min since1 since2) r = true) rows in
  (zlen (filter (fun r => since1 <= la_created_at r) seen), zlen (filter (fun r => since2 <= la_created_at r) seen)).
End AttemptRepo.

(** [f64] and the great-circle distance. *)
Class Geo := {
  f64 : Type;
  f_of : Z -> f64;                                  (* [as f64], and literals *)
  f_div : f64 -> f64 -> f64;
  f_max : f64 -> f64 -> f64;
  f_lt : f64 -> f64 -> bool;
  distance_km : f64 * f64 -> f64 * f64 -> f64
}.

Record Location `{Geo} := mkLocation { lc_country : string; lc_latitude : option f64; lc_longitude : option f64 }.
Record LoginLocation `{Geo} := mkLoginLocation {
  ll_tenant_id : Uuid;
  ll_user_id : Uuid;
  ll_country : string;
  ll_latitude : option f64;
  ll_longitude : option f64;
  ll_logins : Z;
  ll_first_seen_at : Z;
  ll_last_seen_at : Z
}.
Arguments mkLocation {_} _ _ _.
Arguments mkLoginLocation {_} _ _ _ _ _ _ _ _.
Definition coordinates `{Geo} (l : Location) : option (f64 * f64) :=
  lat ← lc_latitude l; lon ← lc_longitude l; Some (lat, lon).

Module LocationRepo.
Section repo.
Context `{Geo}.
Definition of_user (tenant_id user_id : Uuid) (l : LoginLocation) : bool :=
  (ll_tenant_id l =? tenant_id) && (ll_user_id l =? user_id).
(** Most recently seen first. *)
Definition later (a b : LoginLocation) : Prop := ll_last_seen_at b <= ll_last_seen_at a.
#[global] Instance later_dec a b : Decision (later a b).
Proof. unfold later. apply _. Defined.
Definition recent (tenant_id user_id : Uuid) (limit : nat) (rows : list LoginLocation) : list LoginLocation :=
  take limit (merge_sort later (filter (fun l => of_user tenant_id user_id l = true) rows)).

Definition seen_again (now : Z) (lat lon : option f64) (l : LoginLocation) : LoginLocation :=
  mkLoginLocation (ll_tenant_id l) (ll_user_id l) (ll_country l)
    (match lat with Some x => Some x | None => ll_latitude l end)
    (match lon with Some x => Some x | None => ll_longitude l end)
    (ll_logins l + 1) (ll_first_seen_at l) now.
Definition record (now : Z) (tenant_id user_id : Uuid) (loc : Location) (rows : list LoginLocation) : list LoginLocation :=
  let key l := of_user tenant_id user_id l && String.eqb (ll_country l) (lc_country loc) in
  if existsb key rows then (AppState.update key (seen_again now (lc_latitude loc) (lc_longitude loc)) rows).1
  else rows ++ [mkLoginLocation tenant_id user_id (lc_country loc) (lc_latitude loc) (lc_longitude loc) 1 now now].
End repo.
End LocationRepo.

Record TrustedDevice := mkTrustedDevice {
  td_id : Uuid;
  td_tenant_id : Uuid;
  td_user_id : Uuid;
  td_device_hash : list Z;
  td_name : option string;
  td_user_agent : option string;
  td_ip : option string;
  td_created_at : Z;
  td_last_seen_at : Z;
  td_expires_at : Z;
  td_revoked_at : option Z
}.
Definition device_is_live (now : Z) (d : TrustedDevice) : bool :=
  bool_decide (td_revoked_at d = None) && (now <? td_expires_at d).
Module TrustRepo.
Definition find_by_hash (tenant_id : Uuid) (hash : list Z) (rows : list TrustedDevice) : option TrustedDevice :=
  List.find (fun d => (td_tenant_id d =? tenant_id) && bool_decide (td_device_hash d = hash)) rows.
Definition set_seen (now : Z) (ip : option string) (d : TrustedDevice) : TrustedDevice :=
  mkTrustedDevice (td_id d) (td_tenant_id d) (td_user_id d) (td_device_hash d) (td_name d) (td_user_agent d)
    (match ip with Some x => Some x | None => td_ip d end) (td_created_at d) now (td_expires_at d) (td_revoked_at d).
Definition touch (now : Z) (tenant_id id : Uuid) (ip : option string) (rows : list TrustedDevice) : list TrustedDevice :=
  (update (fun d => (td_tenant_id d =? tenant_id) && (td_id d =? id)) (set_seen now ip) rows).1.
Definition set_revoked (now : Z) (d : TrustedDevice) : TrustedDevice :=
  mkTrustedDevice (td_id d) (td_tenant_id d) (td_user_id d) (td_device_hash d) (td_name d) (td_user_agent d)
    (td_ip d) (td_created_at d) (td_last_seen_at d) (td_expires_at d) (Some now).
Definition revoke (now : Z) (tenant_id user_id id : Uuid) (rows : list TrustedDevice) : list TrustedDevice * Z :=
  update (fun d => (td_tenant_id d =? tenant_id) && (td_user_id d =? user_id) && (td_id d =? id)
                   && bool_decide (td_revoked_at d = None)) (set_revoked now) rows.
Definition revoke_all (now : Z) (tenant_id user_id : Uuid) (rows : list TrustedDevice) : list TrustedDevice * Z :=
  update (fun d => (td_tenant_id d =? tenant_id) && (td_user_id d =? user_id) && bool_decide (td_revoked_at d = None))
    (set_revoked now) rows.
End TrustRepo.

Record Consent := mkConsent {
  cs_tenant_id : Uuid;
  cs_user_id : Uuid;
  cs_client_id : Uuid;
  cs_scopes : list string;
  cs_granted_at : Z;
  cs_revoked_at : option Z
}.
Module ConsentRepo.
Definition at_row (tenant_id user_id client_id : Uuid) (c : Consent) : bool :=
  (cs_tenant_id c =? tenant_id) && (cs_user_id c =? user_id) && (cs_client_id c =? client_id).
Definition find (tenant_id user_id client_id : Uuid) (rows : list Consent) : option Consent :=
  List.find (at_row tenant_id user_id client_id) rows.
(** Scopes are added to those the row has, revoked or not. The aggregate of no
    scopes at all is null, which the column refuses. *)
Definition merged (now : Z) (scopes : list string) (c : Consent) : Consent :=
  mkConsent (cs_tenant_id c) (cs_user_id c) (cs_client_id c) (remove_dups (cs_scopes c ++ scopes)) now None.
Definition upsert (now : Z) (tenant_id user_id client_id : Uuid) (scopes : list string) (rows : list Consent) : option (list Consent) :=
  match find tenant_id user_id client_id rows with
  | Some c =>
      if bool_decide (cs_scopes c ++ scopes = []) then None
      else Some (update (at_row tenant_id user_id client_id) (merged now scopes) rows).1
  | None => Some (rows ++ [mkConsent tenant_id user_id client_id scopes now None])
  end.
Definition set_revoked (now : Z) (c : Consent) : Consent :=
  mkConsent (cs_tenant_id c) (cs_user_id c) (cs_client_id c) (cs_scopes c) (cs_granted_at c) (Some now).
Definition revoke (now : Z) (tenant_id user_id client_id : Uuid) (rows : list Consent) : list Consent * Z :=
  update (fun c => at_row tenant_id user_id client_id c && bool_decide (cs_revoked_at c = None)) (set_revoked now) rows.
End ConsentRepo.

(** Previous hashes, in the order they were inserted: that of [created_at] and
    of [id]. *)
Record HistoryRow := mkHistoryRow { ph_tenant_id : Uuid; ph_user_id : Uuid; ph_hash : string }.
Module HistoryRepo.
Definition of_user (tenant_id user_id : Uuid) (r : HistoryRow) : bool := (ph_tenant_id r =? tenant_id) && (ph_user_id r =? user_id).
Definition insert (tenant_id user_id : Uuid) (hash : string) (rows : list HistoryRow) : list HistoryRow :=
  rows ++ [mkHistoryRow tenant_id user_id hash].
(** Newest first. *)
Definition recent (tenant_id user_id : Uuid) (limit : nat) (rows : list HistoryRow) : list string :=
  take limit (reverse (ph_hash <$> filter (fun r => of_user tenant_id user_id r = true) rows)).
(** Only the newest [keep] rows of the user stay. *)
Fixpoint drop_user (tenant_id user_id : Uuid) (n : nat) (rows : list HistoryRow) : list HistoryRow :=
  match n, rows with
  | O, _ => rows
  | _, [] => []
  | S m, r :: rows => if of_user tenant_id user_id r then drop_user tenant_id user_id m rows else r :: drop_user tenant_id user_id n rows
  end.
Definition trim (tenant_id user_id : Uuid) (keep : nat) (rows : list HistoryRow) : list HistoryRow :=
  drop_user tenant_id user_id (length (filter (fun r => of_user tenant_id user_id r = true) rows) - keep) rows.
End HistoryRepo.

(** Messages handed to the tenant's mail or SMS provider. *)
Inductive Channel := ChEmail | ChSms.
#[export] Instance channel_dec : EqDecision Channel.
Proof. solve_decision. Defined.
Record Message := mkMessage { ms_tenant_id : Uuid; ms_channel : Channel; ms_event : string; ms_recipient : string; ms_secret : string }.

(** ** The deployment *)

Section server.
Context `{Valkey} `{Counters} `{KeyEncryptor} `{Geo} `{TextLib}.

Record Server := mkServer {
  sv_accounts : Accounts;
  sv_creds : list CredRow;
  sv_keys : kstate;
  sv_counters : cdb;
  sv_outbox : list Message;
  sv_attempts : list LoginAttempt;
  sv_locations : list LoginLocation;
  sv_devices : list TrustedDevice;
  sv_consents : list Consent;
  sv_device_rows : list DeviceRow;
  sv_history : list HistoryRow
}.
Definition sv_app (st : Server) : AppState := ac_app (sv_accounts st).
Definition sv_redis (st : Server) : vdb := redis (sv_app st).
Definition sv_users (st : Server) : list UserRow := ac_users (sv_accounts st).

Definition sv_with_accounts (st : Server) (a : Accounts) : Server :=
  mkServer a (sv_creds st) (sv_keys st) (sv_counters st) (sv_outbox st) (sv_attempts st) (sv_locations st)
    (sv_devices st) (sv_consents st) (sv_device_rows st) (sv_history st).
Definition sv_with_app (st : Server) (app : AppState) : Server := sv_with_accounts st (ac_with_app (sv_accounts st) app).
Definition sv_with_redis (st : Server) (db : vdb) : Server := sv_with_app st (with_redis (sv_app st) db).
Definition sv_with_users (st : Server) (rows : list UserRow) : Server := sv_with_accounts st (ac_with_users (sv_accounts st) rows).
Definition sv_with_counters (st : Server) (c : cdb) : Server :=
  mkServer (sv_accounts st) (sv_creds st) (sv_keys st) c (sv_outbox st) (sv_attempts st) (sv_locations st)
    (sv_devices st) (sv_consents st) (sv_device_rows st) (sv_history st).
Definition sv_with_creds (st : Server) (rows : list CredRow) (k : kstate) : Server :=
  mkServer (sv_accounts st) rows k (sv_counters st) (sv_outbox st) (sv_attempts st) (sv_locations st)
    (sv_devices st) (sv_consents st) (sv_device_rows st) (sv_history st).
Definition sv_send (st : Server) (m : Message) : Server :=
  mkServer (sv_accounts st) (sv_creds st) (sv_keys st) (sv_counters st) (sv_outbox st ++ [m]) (sv_attempts st)
    (sv_locations st) (sv_devices st) (sv_consents st) (sv_device_rows st) (sv_history st).
Definition sv_with_attempts (st : Server) (rows : list LoginAttempt) : Server :=
  mkServer (sv_accounts st) (sv_creds st) (sv_keys st) (sv_counters st) (sv_outbox st) rows (sv_locations st)
    (sv_devices st) (sv_consents st) (sv_device_rows st) (sv_history st).
Definition sv_with_locations (st : Server) (rows : list LoginLocation) : Server :=
  mkServer (sv_accounts st) (sv_creds st) (sv_keys st) (sv_counters st) (sv_outbox st) (sv_attempts st) rows
    (sv_devices st) (sv_consents st) (sv_device_rows st) (sv_history st).
Definition sv_with_devices (st : Server) (rows : list TrustedDevice) : Server :=
  mkServer (sv_accounts st) (sv_creds st) (sv_keys st) (sv_counters st) (sv_outbox st) (sv_attempts st) (sv_locations st)
    rows (sv_consents st) (sv_device_rows st) (sv_history st).
Definition sv_with_consents (st : Server) (rows : list Consent) : Server :=
  mkServer (sv_accounts st) (sv_creds st) (sv_keys st) (sv_counters st) (sv_outbox st) (sv_attempts st) (sv_locations st)
    (sv_devices st) rows (sv_device_rows st) (sv_history st).
Definition sv_with_device_rows (st : Server) (rows : list DeviceRow) : Server :=
  mkServer (sv_accounts st) (sv_creds st) (sv_keys st) (sv_counters st) (sv_outbox st) (sv_attempts st) (sv_locations st)
    (sv_devices st) (sv_consents st) rows (sv_history st).

Definition sv_with_history (st : Server) (rows : list HistoryRow) : Server :=
  mkServer (sv_accounts st) (sv_creds st) (sv_keys st) (sv_counters st) (sv_outbox st) (sv_attempts st) (sv_locations st)
    (sv_devices st) (sv_consents st) (sv_device_rows st) rows.

(** Running the services of the earlier components on it. *)
Definition on_accounts {A} (m : M Accounts ApiError A) : M Server ApiError A := fun st =>
  let '(r, a) := m (sv_accounts st) in (r, sv_with_accounts st a).
Definition sv_publish (tenant : Uuid) (a : Actor) (k : EventKind) : M Server ApiError unit := on_accounts (ac_publish tenant a k).

(** The errors of the credential services, as [AppError]s; their texts are not
    kept. *)
Definition of_cred_error (e : CredError) : ApiError :=
  match e with
  | MInternal | MSerde => InternalError ""
  | MBadRequest => BadRequest ""
  | MUnavailable => Unavailable ""
  | MConflict => ApiConflict ""
  end.
Definition on_mfa {A} (m : MfaState -> result CredError A * MfaState) : M Server ApiError A := fun st =>
  let '(r, f) := m (mkMfaState (sv_redis st) (sv_creds st) (sv_keys st) []) in
  let st := sv_with_creds (sv_with_redis st (m_redis f)) (m_creds f) (m_keys f) in
  let publish1 app '(tenant, user, change) := AppState.publish app tenant (ActUser user) (MfaChanged user change) in
  (map_err of_cred_error r, sv_with_app st (foldl publish1 (sv_app st) (m_events f))).

(** [count_in_window]. *)
Definition count_in_window (now : Z) (key : string) (window : Z) : M Server ApiError Z := fun st =>
  let '(n, c) := vincr now key (sv_counters st) in
  let c := if n =? 1 then vpexpire now key (window * 1000) c else c in
  (Ok n, sv_with_counters st c).
End server.
