(* ===== verification/Otp.v ===== *)
(** * One-time codes and magic links

    [api/src/services/passwordless.rs] (magic links, codes by email and SMS as a
    first factor) and [services/otp_factors.rs] (the codes as a second factor,
    and the enrolment that proves an address or a number). Codes are kept
    hashed in Valkey, bound to the flow. What the mail or SMS provider answers
    is an argument; message texts and their locale are left out. *)

From stdpp Require Import gmap strings.
From S2P Require Import Prelude Effects Utf8 Valkey AppState Sessions KeyCustody Credentials Totp Mfa.
From S2P Require Import ApiErrors Models Profile Users Server.

(** ** Names of keys *)

Section keys.
Context `{UuidDisplay}.
Local Open Scope string_scope.
Definition flow_otp (tenant flow : Uuid) (channel : string) : string :=
  PREFIX ++ ":t:" ++ uuid_str tenant ++ ":flow:" ++ uuid_str flow ++ ":otp:" ++ channel.
Definition magic_link (tenant : Uuid) (token_hash : string) : string :=
  PREFIX ++ ":t:" ++ uuid_str tenant ++ ":magic:" ++ token_hash.
Definition otp_factor_enrolment (tenant flow : Uuid) (channel : string) : string :=
  PREFIX ++ ":t:" ++ uuid_str tenant ++ ":flow:" ++ uuid_str flow ++ ":mfa:" ++ channel ++ ":enrol".
Definition otp_factor_cooldown (tenant flow : Uuid) (channel purpose : string) : string :=
  PREFIX ++ ":t:" ++ uuid_str tenant ++ ":flow:" ++ uuid_str flow ++ ":mfa:" ++ channel ++ ":" ++ purpose ++ ":cooldown".
Definition passwordless_sends (tenant : Uuid) (identifier : string) : string :=
  PREFIX ++ ":t:" ++ uuid_str tenant ++ ":pwless:sends:" ++ identifier.
End keys.

(** ** Data *)

Definition OTP_TTL_SECS : Z := 10 * 60.
Definition MAGIC_LINK_TTL_SECS : Z := 15 * 60.
Definition OTP_MAX_ATTEMPTS : Z := 5.
Definition SEND_LIMIT : Z := 3.
Definition SEND_WINDOW_SECS : Z := 10 * 60.
Definition RESEND_COOLDOWN_SECS : Z := 20.

Inductive Method := MagicLink | EmailOtp | SmsOtp.
Definition method_str (m : Method) : string :=
  match m with MagicLink => "magic_link" | EmailOtp => "email_otp" | SmsOtp => "sms_otp" end.
Definition method_channel (m : Method) : string := match m with MagicLink | EmailOtp => "email" | SmsOtp => "sms" end.
Definition method_enabled (s : Settings) (m : Method) : bool :=
  match m with
  | MagicLink => am_magic_link (st_auth s) | EmailOtp => am_email_otp (st_auth s) | SmsOtp => am_sms_otp (st_auth s)
  end.

(** [expires_at] is in seconds. *)
Record OtpRecord := mkOtpRecord { or_user_id : Uuid; or_code_hash : string; or_attempts : Z; or_expires_at : Z }.
Record MagicRecord := mkMagicRecord { mr_flow_id : Uuid; mr_user_id : Uuid; mr_expires_at : Z }.
(** The enrolment waiting for its code, and what a factor's row holds. *)
Record PendingOtp := mkPendingOtp { po_destination : string }.
Record FactorData := mkFactorData { fd_destination : string }.
Record OtpVerified := mkOtpVerified { ov_user_id : Uuid; ov_method : Method }.
Record Sent := mkSent { se_sent : bool; se_destination : string }.

Definition channel_str (c : Channel) : string := match c with ChEmail => "email" | ChSms => "sms" end.
Definition channel_kind (c : Channel) : string := match c with ChEmail => KIND_EMAIL | ChSms => KIND_SMS end.
Definition channel_amr (c : Channel) : list string := match c with ChEmail => ["otp"] | ChSms => ["otp"; "sms"] end%string.
Definition channel_offered (s : Settings) (c : Channel) : bool :=
  match c with ChEmail => mm_email_otp (st_mfa_methods s) | ChSms => mm_sms_otp (st_mfa_methods s) end.
Definition channel_name (c : Channel) : string := match c with ChEmail => "email code" | ChSms => "SMS code" end.

(** ** Masks *)

(** The character U+2022. *)
Definition BULLET : Z := 0x2022.
Fixpoint split_once (sep : Z) (s : list Z) : option (list Z * list Z) :=
  match s with
  | [] => None
  | c :: s => if c =? sep then Some ([], s) else prod_map (cons c) id <$> split_once sep s
  end.
Definition of_chars (s : list Z) : string := str_of_bytes (utf8_encode s).
Definition mask_email (email : string) : string :=
  match split_once 64 (chars_of email) with
  | Some (local, domain) => of_chars (default BULLET (head local) :: [BULLET; BULLET; BULLET; 64] ++ domain)
  | None => of_chars [BULLET; BULLET; BULLET]
  end.
(** Only the last two digits show. *)
Definition mask_phone (phone : string) : string :=
  let digits := filter (fun c => is_ascii_digit c = true) (chars_of phone) in
  let keep := (length digits `min` 2)%nat in
  of_chars (replicate ((length digits - keep) `max` 3) BULLET ++ drop (length digits - keep) digits).
Definition mask (c : Channel) (destination : string) : string :=
  match c with ChEmail => mask_email destination | ChSms => mask_phone destination end.

(** The current, verified address or number of the account. *)
Definition destination_of (u : User) (c : Channel) : option string :=
  match c with
  | ChEmail => if u_email_verified u then u_email u else None
  | ChSms => if u_phone_verified u then u_phone u else None
  end.

Section otp.
Context `{Valkey} `{Counters} `{UuidDisplay} `{KeyEncryptor} `{Geo} `{TextLib}.
Context `{!Serde SsoSession} `{!Serde OtpRecord} `{!Serde MagicRecord} `{!Serde PendingOtp} `{!Serde ()} `{!JsonBytes FactorData}.
Context (sha256 : list Z -> list Z) (b64 : list Z -> string).

Definition otp_hash (s : string) : string := b64 (sha256 (ascii_bytes s)).
(** Six digits from four random bytes, little-endian. *)
Definition six_digits_of (bytes : list Z) : string := str_of_bytes (six_digits (le_val bytes mod 1000000)).

(** Valkey commands on the deployment. *)
Definition r_get {A} `{!Serde A} (now : Z) (k : string) : M Server ApiError (option A) := fun st =>
  match vget now k (sv_redis st) with
  | None => (Ok None, st)
  | Some r => match from_json r with Some a => (Ok (Some a), st) | None => (Err (InternalError ""), st) end
  end.
Definition r_set {A} `{!Serde A} (now : Z) (k : string) (a : A) (ttl_secs : Z) : M Server ApiError unit :=
  modify (fun st => sv_with_redis st (vset_px now k (to_json a) (ttl_secs * 1000) (sv_redis st))).
Definition r_del (now : Z) (k : string) : M Server ApiError unit :=
  modify (fun st => sv_with_redis st (vdel now k (sv_redis st))).

(** [GETDEL] *)
Definition r_take {A} `{!Serde A} (now : Z) (k : string) : M Server ApiError (option A) := fun st =>
  let '(r, db) := vgetdel now k (sv_redis st) in
  let st := sv_with_redis st db in
  match r with
  | None => (Ok None, st)
  | Some r => match from_json r with Some a => (Ok (Some a), st) | None => (Err (InternalError ""), st) end
  end.

(** ** Passwordless *)

Definition check_send_limit (now : Z) (tenant : Uuid) (identifier : string) : M Server ApiError unit :=
  let! n := count_in_window now (passwordless_sends tenant identifier) SEND_WINDOW_SECS in
  guard (SEND_LIMIT <? n) (ApiRateLimited SEND_WINDOW_SECS).

Definition store_code (now : Z) (bytes : list Z) (key : string) (user : Uuid) : M Server ApiError string :=
  let code := six_digits_of bytes in
  do! r_set now key (mkOtpRecord user (otp_hash code) 0 (timestamp now + OTP_TTL_SECS)) OTP_TTL_SECS in
  ret code.

(** [check_code]: the record is read and, on a wrong guess, written back with
    one attempt more. *)
Definition check_loaded (now : Z) (key : string) (rec : OtpRecord) (code : string) : M Server ApiError (option Uuid) :=
  if or_expires_at rec <=? timestamp now then do! r_del now key in ret None
  else
    let code := trim_str code in
    if (Z.of_nat (String.length code) =? 6) && String.eqb (otp_hash code) (or_code_hash rec)
    then do! r_del now key in ret (Some (or_user_id rec))
    else
      let rec := mkOtpRecord (or_user_id rec) (or_code_hash rec) (or_attempts rec + 1) (or_expires_at rec) in
      do! (if OTP_MAX_ATTEMPTS <=? or_attempts rec then r_del now key
           else r_set now key rec (Z.max (or_expires_at rec - timestamp now) 1)) in
      ret None.
Definition check_code (now : Z) (key code : string) : M Server ApiError (option Uuid) :=
  let! rec := r_get now key in
  match rec with
  | None => ret None
  | Some rec => check_loaded now key rec code
  end.

Definition eligible_user (tenant : Uuid) (identifier : string) (m : Method) : M Server ApiError (option UserRow) :=
  let! user := on_accounts (find_by_identifier tenant identifier) in
  ret (match user with
       | Some r =>
           let ok := match m with
                     | MagicLink | EmailOtp => bool_decide (is_Some (ur_email r))
                     | SmsOtp => bool_decide (is_Some (u_phone (ur_user r))) && u_phone_verified (ur_user r)
                     end in
           if (bool_decide (ur_status r = UActive) || bool_decide (ur_status r = UPending)) && ok then Some r else None
       | None => None
       end).

(** [messaging::send]: the message is handed to the provider, which answers. *)
Definition deliver (provider : result ApiError unit) (m : Message) : M Server ApiError unit :=
  do! modify (fun st => sv_send st m) in lift provider.

(** [send]; [bytes] are what the code or the link's token is drawn from. *)
Definition send (now : Z) (bytes : list Z) (provider : result ApiError unit) (tenant : Uuid) (s : Settings) (flow : Uuid)
    (m : Method) (identifier : string) : M Server ApiError unit :=
  do! guard (negb (method_enabled s m)) (BadRequest (method_str m ++ " is disabled for this tenant")) in
  let identifier := to_lowercase (trim_str identifier) in
  do! guard (String.eqb identifier "") (InvalidFields [mkFieldError "identifier" "identifier is required"]) in
  do! check_send_limit now tenant identifier in
  let! user := eligible_user tenant identifier m in
  match user with
  | None => ret tt
  | Some user =>
      do! check_send_limit now tenant ("user:" ++ uuid_str (ur_id user)) in
      do! match m with
          | MagicLink =>
              let token := b64 bytes in
              do! r_set now (magic_link tenant (otp_hash token))
                    (mkMagicRecord flow (ur_id user) (timestamp now + MAGIC_LINK_TTL_SECS)) MAGIC_LINK_TTL_SECS in
              deliver provider (mkMessage tenant ChEmail "magic_link" (default ""%string (ur_email user)) token)
          | EmailOtp =>
              let! code := store_code now bytes (flow_otp tenant flow (method_channel m)) (ur_id user) in
              deliver provider (mkMessage tenant ChEmail "otp" (default ""%string (ur_email user)) code)
          | SmsOtp =>
              let! code := store_code now bytes (flow_otp tenant flow (method_channel m)) (ur_id user) in
              deliver provider (mkMessage tenant ChSms "otp" (default ""%string (u_phone (ur_user user))) code)
          end in
      sv_publish tenant ActSystem (PasswordlessSent (ur_id user) (method_str m))
  end.

Definition verify_otp (now : Z) (tenant flow : Uuid) (m : Method) (code : string) : M Server ApiError (option OtpVerified) :=
  match m with
  | MagicLink => throw (BadRequest "not an otp method")
  | EmailOtp | SmsOtp =>
      let! user := check_code now (flow_otp tenant flow (method_channel m)) code in
      ret ((fun u => mkOtpVerified u m) <$> user)
  end.

Definition verify_magic_link (now : Z) (tenant flow : Uuid) (token : string) : M Server ApiError (option OtpVerified) :=
  if String.eqb token "" || (128 <? Z.of_nat (String.length token)) then ret None
  else
    let key := magic_link tenant (otp_hash token) in
    let! rec := r_take now key in
    match rec with
    | None => ret None
    | Some rec =>
        ret (if negb (mr_flow_id rec =? flow) || (mr_expires_at rec <=? timestamp now) then None
             else Some (mkOtpVerified (mr_user_id rec) MagicLink))
    end.

Definition contact_patch (m : Method) : UserUpdate :=
  match m with
  | MagicLink | EmailOtp => mkUserUpdate None None (Some true) None None None None None None None None
  | SmsOtp => mkUserUpdate None None None None (Some true) None None None None None None
  end.
Definition mark_contact_verified (now : Z) (acting : option Uuid) (ldap : UserRow -> UserUpdate -> result ApiError unit)
    (tenant user : Uuid) (m : Method) : M Server ApiError unit :=
  let! _ := on_accounts (update_user now acting ldap tenant (ActUser user) user (contact_patch m)) in
  ret tt.

(** ** The codes as a second factor *)

Definition ENROL : string := "enrol".
Definition VERIFY : string := "verify".
Definition code_key (tenant scope : Uuid) (c : Channel) (purpose : string) : string :=
  flow_otp tenant scope ("mfa:" ++ channel_str c ++ ":" ++ purpose).

Definition enrolled (tenant user : Uuid) (c : Channel) : M Server ApiError bool :=
  gets (fun st => 0 <? count_of_types tenant user [channel_kind c] (sv_creds st)).

(** [issue]: a code, unless one went out moments ago. *)
Definition issue_code (now : Z) (bytes : list Z) (provider : result ApiError unit) (tenant scope : Uuid) (user : UserRow)
    (c : Channel) (purpose destination : string) : M Server ApiError Sent :=
  let! claimed := (fun st =>
    let '(set, db) := vset_nx now (otp_factor_cooldown tenant scope (channel_str c) purpose) (to_json ())
                        (RESEND_COOLDOWN_SECS * 1000) (sv_redis st) in
    (Ok set, sv_with_redis st db)) in
  do! (if (claimed : bool) then
         do! check_send_limit now tenant ("mfa:" ++ uuid_str (ur_id user)) in
         let! code := store_code now bytes (code_key tenant scope c purpose) (ur_id user) in
         deliver provider (mkMessage tenant c "otp" destination code)
       else ret tt) in
  ret (mkSent true (mask c destination)).

(** Where an enrolment's code goes. *)
Definition enrolment_destination (user : UserRow) (c : Channel) (phone : option string) : result ApiError string :=
  match c with
  | ChEmail => ok_or (ur_email user) (InvalidFields [mkFieldError "email" "the account has no email address"])
  | ChSms =>
      match trim_str <$> phone with
      | Some (String _ _ as p) => normalize_phone p
      | _ => ok_or (u_phone (ur_user user)) (InvalidFields [mkFieldError "phone" "a phone number is required"])
      end
  end.

Definition set_pending (now : Z) (tenant scope : Uuid) (c : Channel) (destination : string) : M Server ApiError unit :=
  let pending_key := otp_factor_enrolment tenant scope (channel_str c) in
  let! previous := gets (fun st => load_json now pending_key (sv_redis st) : option PendingOtp) in
  do! match previous with
      | Some prev =>
          if negb (String.eqb (po_destination prev) destination) then
            do! r_del now (code_key tenant scope c ENROL) in
            r_del now (otp_factor_cooldown tenant scope (channel_str c) ENROL)
          else ret tt
      | None => ret tt
      end in
  r_set now pending_key (mkPendingOtp destination) OTP_TTL_SECS.

(** [begin_enrolment] of a channel. *)
Definition begin_otp_enrolment (now : Z) (bytes : list Z) (provider : result ApiError unit) (s : Settings)
    (tenant scope : Uuid) (user : UserRow) (c : Channel) (phone : option string) : M Server ApiError Sent :=
  do! guard (negb (channel_offered s c)) (BadRequest (channel_name c ++ "s are disabled for this tenant")) in
  let! already := enrolled tenant (ur_id user) c in
  do! guard already (BadRequest ("an " ++ channel_name c ++ " factor is already enrolled")) in
  let! destination := lift (enrolment_destination user c phone) in
  do! set_pending now tenant scope c destination in
  issue_code now bytes provider tenant scope user c ENROL destination.

(** The change an enrolment makes to the account, whose control it proved. *)
Definition enrolment_patch (user : UserRow) (c : Channel) (destination : string) : option UserUpdate :=
  match c with
  | ChEmail =>
      if bool_decide (ur_email user = Some destination) && negb (u_email_verified (ur_user user))
      then Some (mkUserUpdate None None (Some true) None None None None None None None None) else None
  | ChSms =>
      if negb (bool_decide (u_phone (ur_user user) = Some destination)) || negb (u_phone_verified (ur_user user))
      then Some (mkUserUpdate None None None (Some (Some destination)) (Some true) None None None None None None) else None
  end.

Definition confirm_otp_enrolment (now : Z) (id : Uuid) (rnd : Random) (acting : option Uuid)
    (ldap : UserRow -> UserUpdate -> result ApiError unit) (tenant scope : Uuid) (user : UserRow) (c : Channel) (code : string)
    : M Server ApiError bool :=
  let pending_key := otp_factor_enrolment tenant scope (channel_str c) in
  let! pending := r_get now pending_key in
  match pending with
  | None => throw (BadRequest ("no " ++ channel_name c ++ " enrolment is pending"))
  | Some pending =>
      let! who := check_code now (code_key tenant scope c ENROL) code in
      if negb (bool_decide (who = Some (ur_id user))) then ret false
      else
        let destination := po_destination pending in
        let! keys := gets sv_keys in
        let! blob := lift (map_err of_cred_error (seal_secret rnd keys tenant id (mkFactorData destination))) in
        let row := mkCredRow id tenant (ur_id user) (channel_kind c) (Some (chars_of (mask c destination))) blob now None None in
        do! modify (fun st => sv_with_creds st (sv_creds st ++ [row]) (sv_keys st)) in
        do! r_del now pending_key in
        do! match enrolment_patch user c destination with
            | Some p => let! _ := on_accounts (update_user now acting ldap tenant (ActUser (ur_id user)) (ur_id user) p) in ret tt
            | None => ret tt
            end in
        do! sv_publish tenant (ActUser (ur_id user))
              (MfaChanged (ur_id user) (match c with ChEmail => "email code factor enrolled"
                                                   | ChSms => "SMS code factor enrolled" end)) in
        ret true
  end.

Definition send_code (now : Z) (bytes : list Z) (provider : result ApiError unit) (tenant scope : Uuid) (user : UserRow) (c : Channel)
    : M Server ApiError Sent :=
  let! yes := enrolled tenant (ur_id user) c in
  do! guard (negb yes) (BadRequest ("no " ++ channel_name c ++ " factor is enrolled")) in
  let! destination := lift (ok_or (destination_of (ur_user user) c)
    (BadRequest ("the account has no verified " ++ match c with ChEmail => "email address" | ChSms => "phone number" end
                 ++ " for its " ++ channel_name c ++ " factor"))) in
  issue_code now bytes provider tenant scope user c VERIFY destination.

Definition verify_otp_factor (now : Z) (tenant scope : Uuid) (user : UserRow) (c : Channel) (code : string) : M Server ApiError bool :=
  let! who := check_code now (code_key tenant scope c VERIFY) code in
  if negb (bool_decide (who = Some (ur_id user))) then ret false
  else
    do! modify (fun st =>
          sv_with_creds st (foldl (fun rows row => touch_last_used now tenant (cr_id row) rows) (sv_creds st)
                              (list_secrets_of_type tenant (ur_id user) (channel_kind c) (sv_creds st))) (sv_keys st)) in
    ret true.
End otp.

(** ** Guesses at a code *)

Section guesses.
Context `{ValkeyLaws} `{Counters} `{KeyEncryptor} `{Geo} `{TextLib} `{!Serde OtpRecord}.
Context (sha256 : list Z -> list Z) (b64 : list Z -> string).
Implicit Types (st : Server).

(** The code [code] fits the stored hash [h]. *)
Definition fits (h code : string) : bool :=
  (Z.of_nat (String.length (trim_str code)) =? 6) && String.eqb (otp_hash sha256 b64 (trim_str code)) h.

Definition guess (key : string) (st : Server) (g : Z * string) : Server := (check_code sha256 b64 g.1 key g.2 st).2.

(** Nothing is at the key from [now] on. *)
Definition dead (key : string) (now : Z) (st : Server) : Prop := forall n, now <= n -> vget n key (sv_redis st) = None.
(** Dead, or a record of the hash that was guessed [a] times at least. *)
Definition held (key h : string) (a now : Z) (st : Server) : Prop :=
  dead key now st \/ exists r rec, vget now key (sv_redis st) = Some r /\ from_json r = Some rec
    /\ or_code_hash rec = h /\ a <= or_attempts rec < OTP_MAX_ATTEMPTS.

Lemma dead_at key now st : vget now key (sv_redis st) = None -> dead key now st.
Proof.
  intros Hn n Hle. destruct (vget n key (sv_redis st)) as [r|] eqn:E; [|done].
  apply (vget_earlier now) in E; [congruence|done].
Qed.

Lemma held_later key h a now n st : now <= n -> held key h a now st -> held key h a n st.
Proof.
  intros Hle [Hd|(r & rec & Hg & Hrec)]; [left; intros m Hm; apply Hd; lia|].
  destruct (vget n key (sv_redis st)) as [r'|] eqn:E; [|by left; apply dead_at].
  assert (r' = r) as -> by (apply (vget_earlier now) in E; [congruence|done]). right. by exists r, rec.
Qed.

Lemma check_dead key now st code : dead key now st -> check_code sha256 b64 now key code st = (Ok None, st).
Proof. intros Hd. unfold check_code, bind, r_get. by rewrite Hd by lia. Qed.

Lemma dead_del key now n st : dead key n (sv_with_redis st (vdel now key (sv_redis st))).
Proof. intros m _. apply vget_del. Qed.

(** One wrong guess costs one attempt. *)
Lemma held_guess key h a now code st :
  held key h a now st -> fits h code = false ->
  (check_code sha256 b64 now key code st).1 = Ok None /\ held key h (a + 1) now (guess key st (now, code)).
Proof.
  intros [Hd|(r & rec & Hg & Hrec & Hh & Ha)] Hw.
  { unfold guess. cbn [fst snd]. rewrite check_dead by done. split; [done|by left]. }
  unfold guess, check_code, bind, r_get. cbn [fst snd]. rewrite Hg, Hrec. unfold check_loaded.
  destruct (or_expires_at rec <=? timestamp now); cbn; [split; [done|left; apply dead_del]|].
  subst h. fold (fits (or_code_hash rec) code). rewrite Hw.
  destruct (Z.leb_spec OTP_MAX_ATTEMPTS (or_attempts rec + 1)); cbn; (split; [done|]); [left; apply dead_del|].
  right. eexists _, _. split; [cbn; rewrite vget_set, (proj2 (Z.ltb_lt _ _)) by lia; reflexivity|].
  split_and!; [apply from_to_json|done|cbn; lia|done].
Qed.

(** The times of a sequence of guesses, starting no earlier than [now]. *)
Fixpoint in_order (now : Z) (gs : list (Z * string)) : Prop :=
  match gs with [] => True | (n, _) :: gs => now <= n /\ in_order n gs end.
Definition last_at (now : Z) (gs : list (Z * string)) : Z := default now (fst <$> last gs).

Lemma held_guesses key h gs : forall a now st,
  held key h a now st -> in_order now gs -> Forall (fun g => fits h g.2 = false) gs ->
  held key h (a + zlen gs) (last_at now gs) (foldl (guess key) st gs).
Proof.
  induction gs as [|[n code] gs IH]; intros a now st Hh Ho Hw; cbn [foldl].
  - unfold zlen. cbn. by rewrite Z.add_0_r.
  - destruct Ho as [Hle Ho]. apply Forall_cons in Hw as [Hw Hws].
    destruct (held_guess key h a n code st (held_later _ _ _ _ _ _ Hle Hh) Hw) as [_ Hh'].
    specialize (IH _ _ _ Hh' Ho Hws). unfold zlen in *. rewrite length_cons.
    replace (a + Z.of_nat (S (length gs))) with (a + 1 + Z.of_nat (length gs)) by lia.
    replace (last_at now ((n, code) :: gs)) with (last_at n gs); [done|]. unfold last_at.
    rewrite last_cons. by destruct (last gs).
Qed.

(** C28: five wrong guesses, one after the other, end a one-time code: none of
    them is accepted, and from then on every guess is refused, the right code
    included. *)
Theorem guesses_run_out key now bytes user st gs n code :
  in_order now gs -> OTP_MAX_ATTEMPTS <= zlen gs ->
  Forall (fun g => fits (otp_hash sha256 b64 (six_digits_of bytes)) g.2 = false) gs -> last_at now gs <= n ->
  let st0 := (store_code sha256 b64 now bytes key user st).2 in
  (forall gs1 g gs2, gs = gs1 ++ g :: gs2 -> (check_code sha256 b64 g.1 key g.2 (foldl (guess key) st0 gs1)).1 = Ok None)
  /\ (check_code sha256 b64 n key code (foldl (guess key) st0 gs)).1 = Ok None.
Proof.
  intros Ho Hlen Hw Hn st0. set (h := otp_hash sha256 b64 (six_digits_of bytes)) in *.
  assert (held key h 0 now st0) as Hst.
  { right. eexists _, _. split; [cbn; rewrite vget_set, (proj2 (Z.ltb_lt _ _)) by (unfold OTP_TTL_SECS; lia); reflexivity|].
    split_and!; [apply from_to_json|done..]. }
  split.
  - intros gs1 [m c] gs2 ->. apply Forall_app in Hw as [Hw1 Hw2]. apply Forall_cons in Hw2 as [Hc _].
    assert (forall gs1 now, in_order now (gs1 ++ (m, c) :: gs2) -> in_order now gs1 /\ last_at now gs1 <= m) as Hsplit.
    { clear. induction gs1 as [|[k x] gs1 IH]; intros now Ho; cbn in *; [by destruct Ho|].
      destruct Ho as [Hle Ho]. apply IH in Ho as [Ho Hl]. split; [done|]. unfold last_at in *. rewrite last_cons. by destruct (last gs1). }
    apply Hsplit in Ho as [Ho Hm]. pose proof (held_guesses key h gs1 _ _ _ Hst Ho Hw1) as Hh.
    by apply (held_guess key h _ m c _ (held_later _ _ _ _ _ _ Hm Hh)).
  - pose proof (held_guesses key h gs _ _ _ Hst Ho Hw) as [Hd|(r & rec & _ & _ & _ & Ha)]; [|lia].
    rewrite check_dead; [done|]. intros k Hk. apply Hd. lia.
Qed.

(** What requests that all read the record before any of them wrote do. *)
Definition guess_loaded (now : Z) (key : string) (rec : OtpRecord) (st : Server) (code : string) : Server :=
  (check_loaded sha256 b64 now key rec code st).2.

(** the attempt is counted by reading the record and writing it back, so
    guesses checked at once count as one: however many requests read the record
    before the first of them writes, the record is left with one attempt more,
    and the code still to be guessed. *)
Theorem parallel_guesses_uncounted now key rec codes st :
  codes <> [] -> Forall (fun c => fits (or_code_hash rec) c = false) codes ->
  or_attempts rec + 1 < OTP_MAX_ATTEMPTS -> timestamp now < or_expires_at rec ->
  load_json now key (sv_redis (foldl (guess_loaded now key rec) st codes))
  = Some (mkOtpRecord (or_user_id rec) (or_code_hash rec) (or_attempts rec + 1) (or_expires_at rec)).
Proof.
  intros Hne Hw Ha Ht. destruct codes as [|c codes _] using rev_ind; [done|]. clear Hne.
  rewrite foldl_app. cbn [foldl]. apply Forall_app in Hw as [_ Hc]. rewrite Forall_singleton in Hc.
  unfold guess_loaded at 1, check_loaded, bind. rewrite (proj2 (Z.leb_gt _ _)) by lia.
  fold (fits (or_code_hash rec) c). rewrite Hc. cbn [or_attempts]. rewrite (proj2 (Z.leb_gt _ _)) by lia. cbn.
  rewrite load_json_set by lia. case_match; [done|lia].
Qed.
End guesses.

(** ** An enrolled factor was proved *)

Ltac otp_key_inv :=
  unfold code_key, flow_otp, magic_link, otp_factor_enrolment, otp_factor_cooldown, ENROL, VERIFY in *; key_inv;
  repeat match goal with
    | c : Channel |- _ => destruct c
    | m : Method |- _ => destruct m
    end; cbn in *; simplify_eq; try done.

Section enrolment.
Context `{ValkeyLaws} `{Counters} `{UuidDisplay} `{KeyEncryptor} `{Geo} `{TextLib}.
Context `{!Serde SsoSession} `{!Serde OtpRecord} `{!Serde MagicRecord} `{!Serde PendingOtp} `{!Serde ()} `{!JsonBytes FactorData}.
Context (sha256 : list Z -> list Z) (b64 : list Z -> string).
Implicit Types (st : Server).

Definition pending_at (now : Z) (t s : Uuid) (c : Channel) (st : Server) : option PendingOtp :=
  load_json now (otp_factor_enrolment t s (channel_str c)) (sv_redis st).
Definition record_at (now : Z) (t s : Uuid) (c : Channel) (st : Server) : option OtpRecord :=
  load_json now (code_key t s c ENROL) (sv_redis st).

(** Every code waiting to be entered was sent, and to the address the
    enrolment is for as long as the code is good. *)
Definition issued (now : Z) (st : Server) : Prop :=
  forall t s c rec, record_at now t s c st = Some rec ->
    or_expires_at rec <= timestamp now + OTP_TTL_SECS
    /\ exists d code, otp_hash sha256 b64 code = or_code_hash rec /\ mkMessage t c "otp" d code ∈ sv_outbox st
       /\ forall n, now <= n -> timestamp n < or_expires_at rec -> pending_at n t s c st = Some (mkPendingOtp d).

(** Reached from [st0] without touching codes or enrolments. *)
Definition keeps (st0 st : Server) : Prop :=
  sv_outbox st0 ⊆ sv_outbox st
  /\ forall t s c n, vget n (code_key t s c ENROL) (sv_redis st) = vget n (code_key t s c ENROL) (sv_redis st0)
       /\ vget n (otp_factor_enrolment t s (channel_str c)) (sv_redis st)
          = vget n (otp_factor_enrolment t s (channel_str c)) (sv_redis st0).

Lemma load_earlier {A} `{!Serde A} now now' k (v : A) db : now <= now' -> load_json now' k db = Some v -> load_json now k db = Some v.
Proof.
  intros Hle. unfold load_json. destruct (vget now' k db) as [r|] eqn:E; [|done]. by rewrite (vget_earlier now now' k r).
Qed.

Lemma timestamp_mono n m : n <= m -> timestamp n <= timestamp m.
Proof. intros. apply Z.div_le_mono; lia. Qed.
Lemma before_expiry now n secs : timestamp n < timestamp now + secs -> n < now + secs * 1000.
Proof.
  unfold timestamp. intros Hn. pose proof (Z.mul_div_le now 1000 ltac:(lia)).
  pose proof (Z.mul_succ_div_gt n 1000 ltac:(lia)). lia.
Qed.

Lemma issued_later now now' st : now <= now' -> issued now st -> issued now' st.
Proof.
  intros Hle Hi t s c rec Hr. apply (load_earlier now) in Hr; [|done].
  destruct (Hi t s c rec Hr) as (He & d & code & Hh & Hm & Hp). split; [pose proof (timestamp_mono now now' Hle); lia|].
  exists d, code. split_and!; [done..|]. intros n Hn. apply Hp. lia.
Qed.

Lemma issued_keeps now st st' : keeps st st' -> issued now st -> issued now st'.
Proof.
  intros [Ho Hk] Hi t s c rec Hr. unfold record_at, load_json in Hr. rewrite (proj1 (Hk t s c now)) in Hr.
  destruct (Hi t s c rec Hr) as (He & d & code & Hh & Hm & Hp). split; [done|]. exists d, code.
  split_and!; [done|by apply Ho|]. intros n Hn Ht. unfold pending_at, load_json. rewrite (proj2 (Hk t s c n)). by apply Hp.
Qed.

(** *** Steps that keep *)

Lemma sv_keeps_refl st : keeps st st.
Proof. by split. Qed.
Lemma keeps_trans st1 st2 st3 : keeps st1 st2 -> keeps st2 st3 -> keeps st1 st3.
Proof.
  intros [Ho1 Hk1] [Ho2 Hk2]. split; [by trans (sv_outbox st2)|]. intros t s c n. destruct (Hk1 t s c n), (Hk2 t s c n).
  split; congruence.
Qed.
Lemma keeps_modify st0 f : (forall st, keeps st (f st)) -> preserves (keeps st0) (modify f : M Server ApiError unit).
Proof. intros Hf. apply preserves_modify. intros st Hs. by eapply keeps_trans. Qed.

Definition otp_key (k : string) : Prop :=
  exists t s c, k = code_key t s c ENROL \/ k = otp_factor_enrolment t s (channel_str c).

Lemma keeps_redis st db :
  (forall k n, otp_key k -> vget n k db = vget n k (sv_redis st)) -> keeps st (sv_with_redis st db).
Proof. intros Hk. split; [done|]. intros t s c n. split; apply Hk; exists t, s, c; auto. Qed.
Lemma keeps_set {A} `{!Serde A} st0 now k (a : A) ttl : ~ otp_key k -> preserves (keeps st0) (r_set now k a ttl).
Proof. intros Hk. apply keeps_modify. intros st. apply keeps_redis. intros k' n Hk'. apply vget_set_ne. by intros ->. Qed.
Lemma keeps_del st0 now k : ~ otp_key k -> preserves (keeps st0) (r_del now k).
Proof. intros Hk. apply keeps_modify. intros st. apply keeps_redis. intros k' n Hk'. apply vget_del_ne. by intros ->. Qed.
Lemma keeps_get {A} `{!Serde A} st0 now k : preserves (keeps st0) (r_get (A:=A) now k).
Proof. intros st. unfold r_get. by repeat case_match. Qed.
Lemma keeps_take {A} `{!Serde A} st0 now k : ~ otp_key k -> preserves (keeps st0) (r_take (A:=A) now k).
Proof.
  intros Hk st Hs. assert (keeps st0 (sv_with_redis st (vdel now k (sv_redis st)))) as Hd by exact (keeps_del st0 now k Hk st Hs).
  unfold r_take, vgetdel. by repeat case_match.
Qed.
Lemma keeps_count st0 now k w : preserves (keeps st0) (count_in_window now k w).
Proof. intros st Hs. unfold count_in_window. by destruct (vincr _ _ _). Qed.
Lemma keeps_limit st0 now t i : preserves (keeps st0) (check_send_limit now t i).
Proof. apply preserves_bind; [apply keeps_count|eauto with effects]. Qed.
Lemma keeps_deliver st0 p m : preserves (keeps st0) (deliver p m).
Proof.
  apply preserves_bind; [|eauto with effects]. apply keeps_modify. intros st. split; [|done]. cbn. set_solver.
Qed.

Lemma otp_key_foreign k : otp_key k -> foreign k.
Proof. intros (t & s & c & [-> | ->]); split; intros t' x E; otp_key_inv. Qed.
Lemma keeps_accounts {A} st0 (m : M Accounts ApiError A) :
  (forall app0, preserves (framed app0) m) -> preserves (keeps st0) (on_accounts m).
Proof.
  intros Hm st Hs. eapply keeps_trans; [exact Hs|]. specialize (Hm (sv_app st) (sv_accounts st) (frames_refl _)).
  unfold on_accounts. destruct (m (sv_accounts st)) as [r a]. cbn [snd] in *. split; [done|].
  intros t s c n. split; apply Hm, otp_key_foreign; exists t, s, c; auto.
Qed.

(** *** Keys apart *)

Lemma code_key_inj t s c p t' s' c' p' : code_key t s c p = code_key t' s' c' p' -> t = t' /\ s = s' /\ c = c' /\ p = p'.
Proof. intros E. otp_key_inv. Qed.
Lemma enrolment_key_inj t s c t' s' c' :
  otp_factor_enrolment t s (channel_str c) = otp_factor_enrolment t' s' (channel_str c') -> t = t' /\ s = s' /\ c = c'.
Proof. intros E. otp_key_inv. Qed.
Lemma code_enrolment_ne t s c p t' s' c' : code_key t s c p <> otp_factor_enrolment t' s' (channel_str c').
Proof. intros E. otp_key_inv. Qed.
Lemma cooldown_other t s c p : p = ENROL \/ p = VERIFY -> ~ otp_key (otp_factor_cooldown t s (channel_str c) p).
Proof. intros [-> | ->] (t' & s' & c' & [E|E]); otp_key_inv. Qed.
Lemma first_factor_other t s m : ~ otp_key (flow_otp t s (method_channel m)).
Proof. intros (t' & s' & c' & [E|E]); otp_key_inv. Qed.
Lemma magic_other t h : ~ otp_key (magic_link t h).
Proof. intros (t' & s' & c' & [E|E]); otp_key_inv. Qed.
Lemma verify_other t s c : ~ otp_key (code_key t s c VERIFY).
Proof. intros (t' & s' & c' & [E|E]); otp_key_inv. Qed.

#[local] Hint Resolve keeps_set keeps_del keeps_get keeps_take keeps_count keeps_limit keeps_deliver keeps_accounts
  cooldown_other first_factor_other magic_other verify_other : effects.

Lemma keeps_store st0 now bytes k u : ~ otp_key k -> preserves (keeps st0) (store_code sha256 b64 now bytes k u).
Proof. intros Hk. unfold store_code. apply preserves_bind; eauto with effects. Qed.
Lemma keeps_check st0 now k code : ~ otp_key k -> preserves (keeps st0) (check_code sha256 b64 now k code).
Proof.
  intros Hk. unfold check_code. apply preserves_bind; [eauto with effects|]. intros [rec|]; [|eauto with effects]. unfold check_loaded.
  repeat case_match; eauto with effects.
Qed.
Lemma keeps_publish st0 t a k : preserves (keeps st0) (sv_publish t a k).
Proof. apply keeps_accounts. intros app0. apply framed_publish. Qed.
Lemma keeps_update_user st0 now acting ldap t a u p : preserves (keeps st0) (on_accounts (update_user now acting ldap t a u p)).
Proof. apply keeps_accounts. intros app0. apply update_as_frames. Qed.
#[local] Hint Resolve keeps_store keeps_check keeps_publish keeps_update_user : effects.
Lemma keeps_find st0 t i : preserves (keeps st0) (on_accounts (find_by_identifier t i)).
Proof. apply keeps_accounts. intros app0. unfold find_by_identifier. eauto with effects. Qed.
#[local] Hint Resolve keeps_find : effects.

Lemma keeps_send st0 now bytes p t s f m i : preserves (keeps st0) (send sha256 b64 now bytes p t s f m i).
Proof.
  unfold send, eligible_user. repeat (apply preserves_bind; [eauto with effects|intros ?]). case_match; [|eauto with effects].
  repeat (apply preserves_bind; [destruct m; eauto 6 with effects|intros ?]). eauto with effects.
Qed.
Lemma keeps_verify st0 now t f m code : preserves (keeps st0) (verify_otp sha256 b64 now t f m code).
Proof. unfold verify_otp. case_match; eauto with effects. Qed.
Lemma keeps_magic st0 now t f token : preserves (keeps st0) (verify_magic_link sha256 b64 now t f token).
Proof. unfold verify_magic_link. case_match; [eauto with effects|]. apply preserves_bind; [eauto with effects|]. intros [?|]; eauto with effects. Qed.
Lemma keeps_factor st0 now t s u c code : preserves (keeps st0) (verify_otp_factor sha256 b64 now t s u c code).
Proof.
  unfold verify_otp_factor. apply preserves_bind; [eauto with effects|intros who]. case_match; [eauto with effects|].
  apply preserves_bind; [|eauto with effects]. apply keeps_modify. by intros st.
Qed.

(** *** Steps of an enrolment *)

(** A change at one triple's keys only. *)
Lemma issued_at now st st' t s c :
  issued now st -> sv_outbox st ⊆ sv_outbox st' ->
  (forall t' s' c' n, (t', s', c') <> (t, s, c) ->
     vget n (code_key t' s' c' ENROL) (sv_redis st') = vget n (code_key t' s' c' ENROL) (sv_redis st)
     /\ vget n (otp_factor_enrolment t' s' (channel_str c')) (sv_redis st')
        = vget n (otp_factor_enrolment t' s' (channel_str c')) (sv_redis st)) ->
  (forall rec, record_at now t s c st' = Some rec ->
     or_expires_at rec <= timestamp now + OTP_TTL_SECS
     /\ exists d code, otp_hash sha256 b64 code = or_code_hash rec /\ mkMessage t c "otp" d code ∈ sv_outbox st'
        /\ forall n, now <= n -> timestamp n < or_expires_at rec -> pending_at n t s c st' = Some (mkPendingOtp d)) ->
  issued now st'.
Proof.
  intros Hi Ho Hk Ht t' s' c' rec Hr. destruct (decide ((t', s', c') = (t, s, c))) as [[= -> -> ->]|Hne]; [by apply Ht|].
  unfold record_at, pending_at, load_json in *. rewrite (proj1 (Hk t' s' c' now Hne)) in Hr.
  destruct (Hi t' s' c' rec Hr) as (He & d & code & Hh & Hm & Hp). split; [done|]. exists d, code.
  split_and!; [done|by apply Ho|]. intros n Hn Hlt. rewrite (proj2 (Hk t' s' c' n Hne)). by apply Hp.
Qed.

(** The keys of other triples. *)
Lemma other_code t s c t' s' c' p : (t', s', c') <> (t, s, c) -> code_key t s c p <> code_key t' s' c' p.
Proof. intros Hne E. apply code_key_inj in E as (-> & -> & -> & _). done. Qed.
Lemma other_enrolment t s c t' s' c' :
  (t', s', c') <> (t, s, c) -> otp_factor_enrolment t s (channel_str c) <> otp_factor_enrolment t' s' (channel_str c').
Proof. intros Hne E. by apply enrolment_key_inj in E as (-> & -> & ->). Qed.

Definition pending_until (now : Z) (t s : Uuid) (c : Channel) (d : string) (st : Server) : Prop :=
  forall n, now <= n -> timestamp n < timestamp now + OTP_TTL_SECS -> pending_at n t s c st = Some (mkPendingOtp d).


(** What [set_pending] leaves in the store. *)
Definition pending_db (now : Z) (t s : Uuid) (c : Channel) (d : string) (db : vdb) : vdb :=
  vset_px now (otp_factor_enrolment t s (channel_str c)) (to_json (mkPendingOtp d)) (OTP_TTL_SECS * 1000)
    (match load_json now (otp_factor_enrolment t s (channel_str c)) db with
     | Some prev => if String.eqb (po_destination prev) d then db
                    else vdel now (otp_factor_cooldown t s (channel_str c) ENROL) (vdel now (code_key t s c ENROL) db)
     | None => db
     end).
Lemma set_pending_run now t s c d st :
  set_pending now t s c d st = (Ok tt, sv_with_redis st (pending_db now t s c d (sv_redis st))).
Proof.
  unfold set_pending, pending_db, bind, gets. cbn beta iota zeta.
  destruct (load_json _ _ _) as [prev|]; [|done]. by destruct (String.eqb _ _).
Qed.

Lemma pending_db_other now t s c d t' s' c' n db :
  (t', s', c') <> (t, s, c) ->
  vget n (code_key t' s' c' ENROL) (pending_db now t s c d db) = vget n (code_key t' s' c' ENROL) db
  /\ vget n (otp_factor_enrolment t' s' (channel_str c')) (pending_db now t s c d db)
     = vget n (otp_factor_enrolment t' s' (channel_str c')) db.
Proof.
  intros Hne. unfold pending_db.
  assert (forall k, otp_key k -> otp_factor_cooldown t s (channel_str c) ENROL <> k) as Hcool.
  { intros k Hk <-. by apply (cooldown_other t s c ENROL); [left|]. }
  assert (otp_key (code_key t' s' c' ENROL) /\ otp_key (otp_factor_enrolment t' s' (channel_str c'))) as [Hc He].
  { split; exists t', s', c'; auto. }
  split; rewrite vget_set_ne by auto using other_enrolment, not_eq_sym, code_enrolment_ne;
    repeat case_match; rewrite ?vget_del_ne by auto using other_code, code_enrolment_ne; done.
Qed.

Lemma issued_set_pending now t s c d st :
  issued now st ->
  let st' := (set_pending now t s c d st).2 in issued now st' /\ pending_until now t s c d st'.
Proof.
  intros Hi. rewrite set_pending_run. cbn zeta. cbn [snd]. set (st' := sv_with_redis st _).
  assert (pending_until now t s c d st') as Hu.
  { intros n Hn Hlt%before_expiry. unfold pending_at. cbn. unfold pending_db. rewrite load_json_set by (unfold OTP_TTL_SECS; lia).
    by rewrite (proj2 (Z.ltb_lt _ _)) by lia. }
  split; [|done]. apply (issued_at now st st' t s c Hi); [done|by intros; apply pending_db_other|].
  intros rec Hr. unfold record_at, load_json in Hr. cbn in Hr. unfold pending_db in Hr.
  rewrite vget_set_ne in Hr by auto using not_eq_sym, code_enrolment_ne.
  assert (forall p, load_json now (otp_factor_enrolment t s (channel_str c)) (sv_redis st) = p ->
            (p = None \/ p = Some (mkPendingOtp d)) -> record_at now t s c st = Some rec ->
            or_expires_at rec <= timestamp now + OTP_TTL_SECS
            /\ exists d code, otp_hash sha256 b64 code = or_code_hash rec /\ mkMessage t c "otp" d code ∈ sv_outbox st'
               /\ forall n, now <= n -> timestamp n < or_expires_at rec -> pending_at n t s c st' = Some (mkPendingOtp d)) as Hkeep.
  { intros p Ep Hp Hrec. destruct (Hi t s c rec Hrec) as (He & d0 & code & Hh & Hm & Hpend). split; [done|].
    exists d0, code. split_and!; [done..|]. intros n Hn Hlt. pose proof (Hpend n Hn Hlt) as Hold.
    apply (load_earlier now) in Hold; [|done]. rewrite Ep in Hold. destruct Hp as [-> | ->]; [done|]. injection Hold as <-.
    apply Hu; lia. }
  destruct (load_json now (otp_factor_enrolment t s (channel_str c)) (sv_redis st)) as [[prev]|] eqn:Ep; [|by eapply Hkeep; eauto].
  cbn [po_destination] in *. destruct (String.eqb_spec prev d) as [-> |Hne]; [by eapply Hkeep; eauto|]. rewrite vget_del_ne, vget_del in Hr; [done|].
  intros E. apply (cooldown_other t s c ENROL); [by left|]. rewrite E. exists t, s, c. by left.
Qed.

Lemma pending_until_keeps now t s c d st st' : keeps st st' -> pending_until now t s c d st -> pending_until now t s c d st'.
Proof. intros [_ Hk] Hp n Hn Hlt. unfold pending_at, load_json. rewrite (proj2 (Hk t s c n)). by apply Hp. Qed.

Definition claim_cooldown (now : Z) (t s : Uuid) (c : Channel) (p : string) : M Server ApiError bool := fun st =>
  let '(set, db) := vset_nx now (otp_factor_cooldown t s (channel_str c) p) (to_json ()) (RESEND_COOLDOWN_SECS * 1000) (sv_redis st) in
  (Ok set, sv_with_redis st db).
Lemma keeps_claim st0 now t s c p : p = ENROL \/ p = VERIFY -> preserves (keeps st0) (claim_cooldown now t s c p).
Proof.
  intros Hp st Hs. unfold claim_cooldown, vset_nx. destruct (vget now _ _); [by eapply keeps_trans; [exact Hs|apply keeps_redis]|].
  eapply keeps_trans; [exact Hs|]. apply keeps_redis. intros k n Hk. apply vget_set_ne. intros <-. by eapply cooldown_other.
Qed.

(** The code sent. *)
Definition new_code (now : Z) (bytes : list Z) (provider : result ApiError unit) (t s : Uuid) (user : UserRow) (c : Channel) (p d : string)
    : M Server ApiError unit :=
  let! code := store_code sha256 b64 now bytes (code_key t s c p) (ur_id user) in deliver provider (mkMessage t c "otp" d code).

Lemma issued_new now bytes provider t s user c d st :
  issued now st -> pending_until now t s c d st -> issued now (new_code now bytes provider t s user c ENROL d st).2.
Proof.
  intros Hi Hp. eapply (issued_at now st _ t s c Hi).
  - cbn. set_solver.
  - intros t' s' c' n Hne. cbn. rewrite !vget_set_ne by auto using other_code, code_enrolment_ne. done.
  - intros rec. unfold record_at. cbn. rewrite load_json_set by (unfold OTP_TTL_SECS; lia). case_match; [|done].
    intros [= <-]. split; [done|]. exists d, (six_digits_of bytes). split_and!; [done|cbn; set_solver|].
    intros n Hn Hlt. unfold pending_at, load_json. cbn. rewrite vget_set_ne by apply code_enrolment_ne. by apply Hp.
Qed.

Lemma issue_code_eq now bytes provider t s user c p d :
  issue_code sha256 b64 now bytes provider t s user c p d
  = (let! claimed := claim_cooldown now t s c p in
     do! (if claimed then do! check_send_limit now t ("mfa:" ++ uuid_str (ur_id user)) in new_code now bytes provider t s user c p d
          else ret tt) in
     ret (mkSent true (mask c d))).
Proof. done. Qed.

Lemma issued_issue now bytes provider t s user c d st :
  issued now st -> pending_until now t s c d st -> issued now (issue_code sha256 b64 now bytes provider t s user c ENROL d st).2.
Proof.
  intros Hi Hp. rewrite issue_code_eq. set (I := fun st => issued now st /\ pending_until now t s c d st).
  assert (forall st st', keeps st st' -> I st -> I st') as HI.
  { intros st1 st2 Hk [??]. split; [by eapply issued_keeps|by eapply pending_until_keeps]. }
  assert (forall {A} (m : M Server ApiError A), (forall st0, preserves (keeps st0) m) -> preserves I m) as Hm.
  { intros A m Hk st1 H1'. eapply HI; [|exact H1']. apply Hk, sv_keeps_refl. }
  pose proof (Hm _ _ (fun st0 => keeps_claim st0 now t s c ENROL (or_introl eq_refl)) st (conj Hi Hp)) as Hc.
  unfold bind at 1. destruct (claim_cooldown now t s c ENROL st) as [[[]|e] st1]; cbn [snd] in Hc; [|apply Hc..].
  unfold bind at 1. unfold bind at 1.
  pose proof (Hm _ _ (fun st0 => keeps_limit st0 now t ("mfa:" ++ uuid_str (ur_id user))) st1 Hc) as Hl.
  destruct (check_send_limit _ _ _ st1) as [[[]|e] st2]; cbn [snd] in Hl; [|apply Hl].
  pose proof (issued_new now bytes provider t s user c d st2 (proj1 Hl) (proj2 Hl)) as Hn.
  by destruct (new_code _ _ _ _ _ _ _ _ _ st2) as [[[]|e] st3].
Qed.

Lemma keeps_issue st0 now bytes provider t s user c d :
  preserves (keeps st0) (issue_code sha256 b64 now bytes provider t s user c VERIFY d).
Proof.
  rewrite issue_code_eq. apply preserves_bind; [apply keeps_claim; by right|intros []; [|eauto with effects]].
  apply preserves_bind; [|eauto with effects]. apply preserves_bind; [eauto with effects|intros _].
  unfold new_code. apply preserves_bind; eauto with effects.
Qed.

Lemma issued_begin now bytes provider s0 t s user c phone st :
  issued now st -> issued now (begin_otp_enrolment sha256 b64 now bytes provider s0 t s user c phone st).2.
Proof.
  intros Hi. unfold begin_otp_enrolment, enrolled. unfold bind at 1, guard at 1. destruct (negb _); [done|]. cbn [ret].
  unfold bind at 1, gets. unfold bind at 1, guard. destruct (0 <? _); [done|]. cbn [ret]. unfold bind at 1, lift.
  destruct (enrolment_destination _ _ _) as [d|e]; [|done]. unfold bind at 1.
  destruct (issued_set_pending now t s c d st Hi) as [Hi' Hp]. rewrite set_pending_run in *. cbn [snd] in *.
  by apply issued_issue.
Qed.

(** Entering a code: what is accepted was stored, and is spent. *)
Lemma check_accepts now k code st u st' :
  check_code sha256 b64 now k code st = (Ok (Some u), st') ->
  (exists rec, load_json now k (sv_redis st) = Some rec /\ timestamp now < or_expires_at rec
     /\ fits sha256 b64 (or_code_hash rec) code = true /\ or_user_id rec = u)
  /\ st' = sv_with_redis st (vdel now k (sv_redis st)).
Proof.
  unfold check_code, bind, r_get, load_json. destruct (vget now k (sv_redis st)) as [r|]; [|done]. cbn [mbind option_bind].
  destruct (from_json r) as [rec|]; [|done]. unfold check_loaded.
  destruct (Z.leb_spec (or_expires_at rec) (timestamp now)); [done|]. fold (fits sha256 b64 (or_code_hash rec) code).
  destruct (fits sha256 b64 (or_code_hash rec) code) eqn:Ef; [|by case_match].
  intros [= <- <-]. split; [|done]. by exists rec.
Qed.

Lemma issued_check now t s c code st :
  issued now st -> issued now (check_code sha256 b64 now (code_key t s c ENROL) code st).2.
Proof.
  intros Hi. unfold check_code, bind, r_get. destruct (vget now (code_key t s c ENROL) (sv_redis st)) as [r|] eqn:Er; [|done].
  destruct (from_json r) as [rec|] eqn:Ej; [|done].
  assert (record_at now t s c st = Some rec) as Hrec by (unfold record_at, load_json; by rewrite Er).
  assert (issued now (sv_with_redis st (vdel now (code_key t s c ENROL) (sv_redis st)))) as Hdel.
  { apply (issued_at now st _ t s c Hi); [done|..].
    - intros t' s' c' n Hne. cbn. by rewrite !vget_del_ne by auto using other_code, code_enrolment_ne.
    - intros rec'. unfold record_at, load_json. cbn. by rewrite vget_del. }
  unfold check_loaded. repeat case_match; try done. cbn. apply (issued_at now st _ t s c Hi); [done|..].
  - intros t' s' c' n Hne. cbn. by rewrite !vget_set_ne by auto using other_code, code_enrolment_ne.
  - intros rec'. unfold record_at. cbn. rewrite load_json_set by lia. case_match; [|done]. intros [= <-]. cbn.
    destruct (Hi t s c rec Hrec) as (He & d & code' & Hh & Hm & Hp). split; [done|]. exists d, code'. split_and!; [done..|].
    intros n Hn Hlt. unfold pending_at, load_json. cbn. rewrite vget_set_ne by apply code_enrolment_ne. by apply Hp.
Qed.

(** What follows the code being accepted. *)
Definition enrol_proved (now : Z) (id : Uuid) (rnd : Random) (acting : option Uuid)
    (ldap : UserRow -> UserUpdate -> result ApiError unit) (t s : Uuid) (user : UserRow) (c : Channel) (destination : string)
    : M Server ApiError bool :=
  let! keys := gets sv_keys in
  let! blob := lift (map_err of_cred_error (seal_secret rnd keys t id (mkFactorData destination))) in
  let row := mkCredRow id t (ur_id user) (channel_kind c) (Some (chars_of (mask c destination))) blob now None None in
  do! modify (fun st => sv_with_creds st (sv_creds st ++ [row]) (sv_keys st)) in
  do! r_del now (otp_factor_enrolment t s (channel_str c)) in
  do! match enrolment_patch user c destination with
      | Some p => let! _ := on_accounts (update_user now acting ldap t (ActUser (ur_id user)) (ur_id user) p) in ret tt
      | None => ret tt
      end in
  do! sv_publish t (ActUser (ur_id user))
        (MfaChanged (ur_id user) (match c with ChEmail => "email code factor enrolled" | ChSms => "SMS code factor enrolled" end)) in
  ret true.
Lemma confirm_eq now id rnd acting ldap t s user c code :
  confirm_otp_enrolment sha256 b64 now id rnd acting ldap t s user c code
  = (let! pending := r_get now (otp_factor_enrolment t s (channel_str c)) in
     match pending with
     | None => throw (BadRequest ("no " ++ channel_name c ++ " enrolment is pending"))
     | Some pending =>
         let! who := check_code sha256 b64 now (code_key t s c ENROL) code in
         if negb (bool_decide (who = Some (ur_id user))) then ret false
         else enrol_proved now id rnd acting ldap t s user c (po_destination pending)
     end).
Proof. done. Qed.

(** Once no code is waiting, the enrolment may be dropped. *)
Definition spent (now : Z) (t s : Uuid) (c : Channel) (st : Server) : Prop := issued now st /\ record_at now t s c st = None.
Lemma spent_keeps now t s c st st' : keeps st st' -> spent now t s c st -> spent now t s c st'.
Proof.
  intros Hk [Hi Hr]. split; [by eapply issued_keeps|]. unfold record_at, load_json in *. by rewrite (proj1 (proj2 Hk t s c now)).
Qed.
Lemma spent_preserved {A} now t s c (m : M Server ApiError A) :
  (forall st0, preserves (keeps st0) m) -> preserves (spent now t s c) m.
Proof. intros Hm st Hs. eapply spent_keeps; [|exact Hs]. apply Hm, sv_keeps_refl. Qed.
Lemma spent_drop now t s c : preserves (spent now t s c) (r_del now (otp_factor_enrolment t s (channel_str c))).
Proof.
  intros st [Hi Hr]. cbn.
  assert (record_at now t s c (sv_with_redis st (vdel now (otp_factor_enrolment t s (channel_str c)) (sv_redis st))) = None) as Hn.
  { unfold record_at, load_json in *. cbn. by rewrite vget_del_ne by auto using not_eq_sym, code_enrolment_ne. }
  split; [|done]. apply (issued_at now st _ t s c Hi); [done|..].
  - intros t' s' c' n Hne. cbn. by rewrite !vget_del_ne by auto using other_enrolment, not_eq_sym, code_enrolment_ne.
  - intros rec. by rewrite Hn.
Qed.
Lemma spent_proved now id rnd acting ldap t s user c d :
  preserves (spent now t s c) (enrol_proved now id rnd acting ldap t s user c d).
Proof.
  unfold enrol_proved. do 2 (apply preserves_bind; [eauto with effects|intros ?]).
  apply preserves_bind; [apply spent_preserved; intros st0; apply keeps_modify; by intros st|intros _].
  apply preserves_bind; [apply spent_drop|intros _]. apply spent_preserved. intros st0. apply preserves_bind.
  - case_match; eauto with effects.
  - eauto with effects.
Qed.

Lemma issued_confirm now id rnd acting ldap t s user c code st :
  issued now st -> issued now (confirm_otp_enrolment sha256 b64 now id rnd acting ldap t s user c code st).2.
Proof.
  intros Hi. rewrite confirm_eq. unfold bind at 1. unfold r_get.
  destruct (vget now (otp_factor_enrolment _ _ _) _) as [r|]; [|done]. destruct (from_json r) as [pending|]; [|done].
  unfold bind. pose proof (issued_check now t s c code st Hi) as Hc.
  destruct (check_code sha256 b64 now (code_key t s c ENROL) code st) as [[who|e] st1] eqn:Ec; cbn [snd] in Hc; [|done].
  case_bool_decide as Ew; [|done]. subst who. apply check_accepts in Ec as [_ ->]. apply spent_proved. split; [done|].
  unfold record_at, load_json. cbn. by rewrite vget_del.
Qed.

(** *** Histories *)

Inductive OtpOp :=
| OoSend (bytes : list Z) (provider : result ApiError unit) (t : Uuid) (s : Settings) (flow : Uuid) (m : Method) (identifier : string)
| OoVerify (t flow : Uuid) (m : Method) (code : string)
| OoMagic (t flow : Uuid) (token : string)
| OoContact (acting : option Uuid) (ldap : UserRow -> UserUpdate -> result ApiError unit) (t user : Uuid) (m : Method)
| OoBegin (bytes : list Z) (provider : result ApiError unit) (s : Settings) (t scope : Uuid) (user : UserRow) (c : Channel) (phone : option string)
| OoConfirm (id : Uuid) (rnd : Random) (acting : option Uuid) (ldap : UserRow -> UserUpdate -> result ApiError unit)
    (t scope : Uuid) (user : UserRow) (c : Channel) (code : string)
| OoSendCode (bytes : list Z) (provider : result ApiError unit) (t scope : Uuid) (user : UserRow) (c : Channel)
| OoFactor (t scope : Uuid) (user : UserRow) (c : Channel) (code : string).

Definition run_otp (st : Server) (e : Z * OtpOp) : Server :=
  let now := e.1 in
  match e.2 with
  | OoSend bytes p t s f m i => (send sha256 b64 now bytes p t s f m i st).2
  | OoVerify t f m code => (verify_otp sha256 b64 now t f m code st).2
  | OoMagic t f token => (verify_magic_link sha256 b64 now t f token st).2
  | OoContact acting ldap t u m => (mark_contact_verified now acting ldap t u m st).2
  | OoBegin bytes p s t scope user c phone => (begin_otp_enrolment sha256 b64 now bytes p s t scope user c phone st).2
  | OoConfirm id rnd acting ldap t scope user c code =>
      (confirm_otp_enrolment sha256 b64 now id rnd acting ldap t scope user c code st).2
  | OoSendCode bytes p t scope user c => (send_code sha256 b64 now bytes p t scope user c st).2
  | OoFactor t scope user c code => (verify_otp_factor sha256 b64 now t scope user c code st).2
  end.
Fixpoint ordered (now : Z) (ops : list (Z * OtpOp)) (until : Z) : Prop :=
  match ops with [] => now <= until | (n, _) :: ops => now <= n /\ ordered n ops until end.

Lemma issued_preserved {A} now (m : M Server ApiError A) st : (forall st0, preserves (keeps st0) m) -> issued now st -> issued now (m st).2.
Proof. intros Hm Hi. eapply issued_keeps; [|exact Hi]. apply Hm, sv_keeps_refl. Qed.

Lemma issued_step now op st : issued now st -> issued now (run_otp st (now, op)).
Proof.
  intros Hi. destruct op; cbn; auto using issued_begin, issued_confirm; apply issued_preserved; try done; intros st0;
    auto using keeps_send, keeps_verify, keeps_magic, keeps_factor.
  - unfold mark_contact_verified. apply preserves_bind; eauto with effects.
  - unfold send_code, enrolled. do 2 (apply preserves_bind; [eauto with effects|intros ?]). apply keeps_issue.
Qed.

Lemma issued_run ops : forall now until st, ordered now ops until -> issued now st -> issued until (foldl run_otp st ops).
Proof.
  induction ops as [|[n op] ops IH]; intros now until st Ho Hi; cbn [foldl]; [by eapply issued_later|].
  destruct Ho as [Hle Ho]. apply (IH n); [done|]. apply issued_step. by eapply issued_later.
Qed.

Lemma creds_accounts {A} rows (m : M Accounts ApiError A) : preserves (fun st => sv_creds st = rows) (on_accounts m).
Proof. intros st Hs. unfold on_accounts. by destruct (m _). Qed.
Lemma proved_row now id rnd acting ldap t s user c d st st' :
  enrol_proved now id rnd acting ldap t s user c d st = (Ok true, st') ->
  exists blob, seal_secret rnd (sv_keys st) t id (mkFactorData d) = Ok blob
    /\ sv_creds st' = sv_creds st ++ [mkCredRow id t (ur_id user) (channel_kind c) (Some (chars_of (mask c d))) blob now None None].
Proof.
  unfold enrol_proved. intros Hr. apply bind_ok in Hr as (? & ? & [= <- <-] & Hr). apply bind_ok in Hr as (blob & ? & [Hb ->]%lift_ok & Hr).
  apply bind_ok in Hr as (? & ? & [= _ <-] & Hr). exists blob. split; [destruct (seal_secret _ _ _ _ _); cbn in Hb; congruence|].
  match type of Hr with ?m ?s1 = _ => assert (preserves (fun st => sv_creds st = sv_creds s1) m) as Hp end.
  { apply preserves_bind; [by apply preserves_modify|intros _]. apply preserves_bind.
    - case_match; [|eauto with effects]. apply preserves_bind; [apply creds_accounts|eauto with effects].
    - intros _. apply preserves_bind; [apply creds_accounts|eauto with effects]. }
  specialize (Hp _ eq_refl). by rewrite Hr in Hp.
Qed.

(** C25: whatever codes and links are asked for, entered and mistyped before,
    in any order, a code factor that is enrolled stands for an address the code
    was sent to: the code entered has the hash of one that was handed to the
    provider for the very address or number the new row holds. *)
Theorem enrolment_proves_destination now0 ops st0 now id rnd acting ldap t s user c code st' :
  (forall t s c, record_at now0 t s c st0 = None) -> ordered now0 ops now ->
  confirm_otp_enrolment sha256 b64 now id rnd acting ldap t s user c code (foldl run_otp st0 ops) = (Ok true, st') ->
  exists d sent blob,
    otp_hash sha256 b64 (trim_str code) = otp_hash sha256 b64 sent
    /\ mkMessage t c "otp" d sent ∈ sv_outbox (foldl run_otp st0 ops)
    /\ seal_secret rnd (sv_keys (foldl run_otp st0 ops)) t id (mkFactorData d) = Ok blob
    /\ sv_creds st' = sv_creds (foldl run_otp st0 ops)
         ++ [mkCredRow id t (ur_id user) (channel_kind c) (Some (chars_of (mask c d))) blob now None None].
Proof.
  intros Hn Ho Hr. assert (issued now (foldl run_otp st0 ops)) as Hi.
  { eapply issued_run; [exact Ho|]. intros t' s' c' rec. by rewrite Hn. }
  set (st := foldl run_otp st0 ops) in *. rewrite confirm_eq in Hr. apply bind_ok in Hr as (pending & st1 & Hp & Hr).
  unfold r_get in Hp. destruct (vget now (otp_factor_enrolment _ _ _) _) as [r|] eqn:Ev; [|by injection Hp as <- <-].
  destruct (from_json r) as [p|] eqn:Ej; [|done]. injection Hp as <- <-.
  apply bind_ok in Hr as (who & st2 & Hc & Hr). case_bool_decide as Ew; [|done]. subst who.
  apply check_accepts in Hc as [(rec & Hrec & Hlt & Hf & Hu) ->]. apply proved_row in Hr as (blob & Hb & Hrow).
  destruct (Hi t s c rec Hrec) as (_ & d & sent & Hh & Hm & Hpend). specialize (Hpend now ltac:(lia) Hlt).
  unfold pending_at, load_json in Hpend. rewrite Ev in Hpend. cbn in Hpend. rewrite Ej in Hpend. injection Hpend as ->.
  exists d, sent, blob. split_and!; try done. unfold fits in Hf. apply andb_prop in Hf as [_ Hf]. apply String.eqb_eq in Hf. congruence.
Qed.
End enrolment.

(** ** Example: codes by SMS *)

Section example.
Inductive OtRaw := RawSession (s : SsoSession) | RawCode (r : OtpRecord) | RawMagic (r : MagicRecord) | RawPending (p : PendingOtp) | RawUnit.
Definition ot_valkey : Valkey := map_valkey (R := OtRaw).
#[local] Existing Instances ot_valkey map_valkey_laws map_counters toy_uuid mf_encryptor pf_lib.
#[local] Instance ot_session : Serde SsoSession.
Proof. refine {| to_json s := RawSession s : raw; from_json r := match r with RawSession s => Some s | _ => None end |}. done. Defined.
#[local] Instance ot_code : Serde OtpRecord.
Proof. refine {| to_json s := RawCode s : raw; from_json r := match r with RawCode s => Some s | _ => None end |}. done. Defined.
#[local] Instance ot_magic : Serde MagicRecord.
Proof. refine {| to_json s := RawMagic s : raw; from_json r := match r with RawMagic s => Some s | _ => None end |}. done. Defined.
#[local] Instance ot_pending : Serde PendingOtp.
Proof. refine {| to_json s := RawPending s : raw; from_json r := match r with RawPending s => Some s | _ => None end |}. done. Defined.
#[local] Instance ot_unit : Serde ().
Proof. refine {| to_json _ := RawUnit : raw; from_json r := match r with RawUnit => Some tt | _ => None end |}. by intros []. Defined.
Definition ot_json : JsonBytes FactorData := coded fd_destination mkFactorData (fun d => match d with mkFactorData _ => eq_refl end).
#[local] Existing Instance ot_json.
Definition ot_geo : Geo := {|
  f64 := Z; f_of z := z; f_div := Z.div; f_max := Z.max; f_lt := Z.ltb; distance_km a b := Z.abs (a.1 - b.1) + Z.abs (a.2 - b.2)
|}.
#[local] Existing Instance ot_geo.

Definition ot_policy : Settings :=
  mkSettings ex_policy 30 MfaOptional (mkMfaMethods true true true)
    (mkRiskPolicy false (mkRiskWeights 0 0 0 0) 0 0 0 0 0) (mkRegistrationPolicy true true false [])
    (mkAuthMethods true true true true true) (mkLockoutPolicy 5 15 20 15) (mkCaptchaPolicy 0 false)
    (mkPasswordPolicy 8 64 false false true false 3 None false) (mkNotificationPolicy true true).
Definition ot_user : UserRow := us_user 5 "bo" (Some "bo@example.com"%string).
Definition ot_empty : Server :=
  mkServer (mkAccounts (mkAppState _ (∅ : gmap string _) [] [] {[ 1 := ex_policy ]} []) [ot_user] ∅) [] mf_node (∅ : gmap string _)
    [] [] [] [] [] [] [].
Definition ot_sha (l : list Z) : list Z := l.
Definition ot_bytes (n : Z) : list Z := [n; 0; 0; 0].
Definition ot_ldap (_ : UserRow) (_ : UserUpdate) : result ApiError unit := Ok tt.

Definition ot_wrong : list (Z * string) := [(1000, "000001"); (1500, "000002"); (2000, "12"); (2000, ""); (3000, "000003")]%string.
Lemma guesses_run_out_witness :
  (check_code ot_sha str_of_bytes 4000 "k" " 000007 " (foldl (guess ot_sha str_of_bytes "k")
     (store_code ot_sha str_of_bytes 0 (ot_bytes 7) "k" 5 ot_empty).2 ot_wrong)).1 = Ok None
  /\ (check_code ot_sha str_of_bytes 4000 "k" " 000007 " (store_code ot_sha str_of_bytes 0 (ot_bytes 7) "k" 5 ot_empty).2).1 = Ok (Some 5).
Proof.
  split; [|vm_compute; reflexivity].
  apply (guesses_run_out ot_sha str_of_bytes "k" 0 (ot_bytes 7) 5 ot_empty ot_wrong 4000 " 000007 ").
  - cbn. lia.
  - done.
  - repeat (constructor; [vm_compute; reflexivity|]). constructor.
  - cbn. lia.
Defined.

Definition ot_record : OtpRecord := mkOtpRecord 5 "000007" 0 600.
Lemma parallel_guesses_uncounted_witness :
  load_json 1000 "k" (sv_redis (foldl (guess_loaded ot_sha str_of_bytes 1000 "k" ot_record) ot_empty ["1"; "2"; "3"; "4"; "5"; "6"; "7"]%string))
  = Some (mkOtpRecord 5 "000007" 1 600).
Proof.
  apply (parallel_guesses_uncounted ot_sha str_of_bytes 1000 "k" ot_record); [done| |done..].
  repeat (constructor; [vm_compute; reflexivity|]). constructor.
Defined.

(** A number, a mistyped code, the right one. *)
Definition ot_phone : string := "+4930123456".
Definition ot_ops : list (Z * OtpOp) :=
  [(1000, OoBegin (ot_bytes 7) (Ok tt) ot_policy 1 9 ot_user ChSms (Some "+49 30 999"%string));
   (5000, OoBegin (ot_bytes 8) (Ok tt) ot_policy 1 9 ot_user ChSms (Some "+49 30 123456"%string));
   (7000, OoConfirm 70 (ex_rnd 1) None ot_ldap 1 9 ot_user ChSms "000007")].
Definition ot_ready : Server := foldl (run_otp ot_sha str_of_bytes) ot_empty ot_ops.
Definition ot_confirm := confirm_otp_enrolment ot_sha str_of_bytes 8000 71 (ex_rnd 2) None ot_ldap 1 9 ot_user ChSms "000008".

Example ot_ready_outbox :
  (fun m => (ms_recipient m, ms_secret m)) <$> sv_outbox ot_ready = [("+4930999", "000007"); (ot_phone, "000008")]%string.
Proof. vm_compute. reflexivity. Qed.

Lemma ran_of {A B} (x : A * B) a : x.1 = a -> x = (a, x.2).
Proof. by destruct x; cbn; intros ->. Qed.
Lemma enrolment_proves_destination_witness :
  exists d sent blob, otp_hash ot_sha str_of_bytes (trim_str "000008") = otp_hash ot_sha str_of_bytes sent
    /\ mkMessage 1 ChSms "otp" d sent ∈ sv_outbox ot_ready
    /\ seal_secret (ex_rnd 2) (sv_keys ot_ready) 1 71 (mkFactorData d) = Ok blob
    /\ sv_creds (ot_confirm ot_ready).2
       = sv_creds ot_ready ++ [mkCredRow 71 1 (ur_id ot_user) (channel_kind ChSms) (Some (chars_of (mask ChSms d))) blob 8000 None None].
Proof.
  unfold ot_ready. apply (enrolment_proves_destination (H0 := map_valkey_laws) ot_sha str_of_bytes 0 ot_ops ot_empty 8000 71 (ex_rnd 2) None ot_ldap 1 9
           ot_user ChSms "000008" (ot_confirm (foldl (run_otp ot_sha str_of_bytes) ot_empty ot_ops)).2).
  - done.
  - cbn. lia.
  - apply ran_of. vm_compute. reflexivity.
Defined.

(** Two requests to enrol different numbers, their writes interleaved: both set
    the pending enrolment before either sends, so the code goes to the first
    number, and entering it enrols the second. *)
Definition ot_race : Server :=
  let st := (set_pending 1000 1 9 ChSms "+4930999" ot_empty).2 in
  let st := (set_pending 1000 1 9 ChSms ot_phone st).2 in
  let st := (issue_code ot_sha str_of_bytes 1000 (ot_bytes 7) (Ok tt) 1 9 ot_user ChSms ENROL "+4930999" st).2 in
  (issue_code ot_sha str_of_bytes 1000 (ot_bytes 8) (Ok tt) 1 9 ot_user ChSms ENROL ot_phone st).2.
Example enrolment_race :
  let '(r, st) := confirm_otp_enrolment ot_sha str_of_bytes 8000 71 (ex_rnd 2) None ot_ldap 1 9 ot_user ChSms "000007" ot_race in
  r = Ok true /\ (fun m => (ms_recipient m, ms_secret m)) <$> sv_outbox st = [("+4930999", "000007")]%string
  /\ (fun r => (u_phone (ur_user r), u_phone_verified (ur_user r))) <$> sv_users st = [(Some ot_phone, true)].
Proof. vm_compute. done. Qed.
End example.
