(* ===== verification/Risk.v ===== *)
(** * Risk, trusted devices, consent

    [api/src/services/risk.rs] with [models/risk.rs]: each sign-in is scored
    against what the user did before; [services/trusted_devices.rs], the
    browsers a user asked to remember; [services/consents.rs], what a user
    granted to a client. The scores are [u32]s and their sum wraps, as the
    release build's does. Cookie headers and their parsing are left out: a
    device's secret is the argument. *)

From stdpp Require Import gmap strings sorting.
From S2P Require Import Prelude Effects Utf8 Valkey AppState Sessions DeviceCodes KeyCustody Credentials Mfa.
From S2P Require Import ApiErrors Models Profile Users Server Otp.

(** ** Risk *)

Inductive RiskSignal := NewDevice | NewCountry | ImpossibleTravel | Velocity.
#[export] Instance signal_dec : EqDecision RiskSignal.
Proof. solve_decision. Defined.
Definition signal_str (s : RiskSignal) : string :=
  match s with NewDevice => "new_device" | NewCountry => "new_country" | ImpossibleTravel => "impossible_travel" | Velocity => "velocity" end.
Inductive RiskAction := Allow | StepUp | Block.
#[export] Instance action_dec : EqDecision RiskAction.
Proof. solve_decision. Defined.

Record RiskAssessment := mkRiskAssessment { ra_score : Z; ra_signals : list RiskSignal; ra_action : RiskAction; ra_country : option string }.
Definition signal_names (a : RiskAssessment) : list string := signal_str <$> ra_signals a.
Definition is_blocked (a : RiskAssessment) : bool := bool_decide (ra_action a = Block).
Definition steps_up (a : RiskAssessment) : bool := bool_decide (ra_action a = StepUp).

Definition HISTORY_LIMIT : nat := 50.
Definition TRAVEL_MIN_KM : Z := 100.

Definition weight (w : RiskWeights) (s : RiskSignal) : Z :=
  match s with
  | NewDevice => w_new_device w | NewCountry => w_new_country w | ImpossibleTravel => w_impossible_travel w | Velocity => w_velocity w
  end.
(** A sum of [u32]s. *)
Definition sum_u32 (l : list Z) : Z := foldl (fun a b => wrap_u 32 (a + b)) 0 l.
Definition decide_action (p : RiskPolicy) (score : Z) : RiskAction :=
  if (0 <? block_at p) && (block_at p <=? score) then Block
  else if (0 <? step_up_at p) && (step_up_at p <=? score) then StepUp else Allow.
Definition velocity_since (now window_minutes : Z) : Z := now - Z.max window_minutes 1 * 60000.

Section risk.
Context `{Valkey} `{Counters} `{KeyEncryptor} `{Geo} `{TextLib}.
Implicit Types (st : Server).

Record Inputs := mkInputs {
  in_ip : option string;
  in_location : option Location;
  in_new_device : bool;
  in_ip_failures : option Z
}.

(** The most recent location that has coordinates. *)
Fixpoint last_located (history : list LoginLocation) : option (LoginLocation * (f64 * f64)) :=
  match history with
  | [] => None
  | l :: history =>
      match ll_latitude l, ll_longitude l with
      | Some lat, Some lon => Some (l, (lat, lon))
      | _, _ => last_located history
      end
  end.
Definition travelled_impossibly (now max_kmh : Z) (history : list LoginLocation) (now_at : Location) : bool :=
  if max_kmh =? 0 then false
  else match coordinates now_at with
       | None => false
       | Some here =>
           match last_located history with
           | None => false
           | Some (last, there) =>
               let km := distance_km there here in
               if f_lt km (f_of TRAVEL_MIN_KM) then false
               else
                 let hours := f_max (f_div (f_of (Z.max (num_seconds (now - ll_last_seen_at last)) 0)) (f_of 3600))
                                (f_div (f_of 1) (f_of 60)) in
                 f_lt (f_of max_kmh) (f_div km hours)
           end
       end.

Definition recent_failures (now : Z) (tenant_id : Uuid) (ip : string) (window_minutes : Z) (st : Server) : Z :=
  AttemptRepo.failures_from_ip tenant_id ip (velocity_since now window_minutes) (sv_attempts st).
Definition count_failures (now : Z) (p : RiskPolicy) (tenant_id : Uuid) (i : Inputs) (st : Server) : option Z :=
  if velocity_max_failures p =? 0 then None
  else match in_ip i, in_ip_failures i with
       | Some _, Some n => Some n
       | Some ip, None => Some (recent_failures now tenant_id ip (velocity_window_minutes p) st)
       | None, _ => None
       end.

Definition location_signals (now : Z) (p : RiskPolicy) (location : option Location) (history : list LoginLocation) : list RiskSignal :=
  match location with
  | Some l =>
      if bool_decide (history = []) then []
      else (if existsb (fun h => String.eqb (ll_country h) (lc_country l)) history then [] else [NewCountry])
           ++ (if travelled_impossibly now (impossible_travel_kmh p) history l then [ImpossibleTravel] else [])
  | None => []
  end.
Definition signals_of (now : Z) (p : RiskPolicy) (i : Inputs) (history : list LoginLocation) (failures : option Z) : list RiskSignal :=
  (if in_new_device i then [NewDevice] else [])
  ++ location_signals now p (in_location i) history
  ++ (match failures with Some n => if velocity_max_failures p <=? n then [Velocity] else [] | None => [] end).

Definition evaluate (now : Z) (tenant_id : Uuid) (p : RiskPolicy) (user_id : Uuid) (i : Inputs) (st : Server) : RiskAssessment :=
  let country := lc_country <$> in_location i in
  if negb (rp_enabled p) then mkRiskAssessment 0 [] Allow country
  else
    let history := LocationRepo.recent tenant_id user_id HISTORY_LIMIT (sv_locations st) in
    let signals := signals_of now p i history (count_failures now p tenant_id i st) in
    let score := sum_u32 (weight (rp_weights p) <$> signals) in
    mkRiskAssessment score signals (decide_action p score) country.

Definition record_location (now : Z) (tenant_id : Uuid) (p : RiskPolicy) (user_id : Uuid) (location : option Location)
    : M Server ApiError unit :=
  match location with
  | Some l =>
      if rp_enabled p
      then modify (fun st => sv_with_locations st (LocationRepo.record now tenant_id user_id l (sv_locations st)))
      else ret tt
  | None => ret tt
  end.

(** Less the counters and the request's address in the event. *)
Definition announce (tenant_id user_id : Uuid) (a : RiskAssessment) : M Server ApiError unit :=
  match ra_action a with
  | Allow => ret tt
  | StepUp => sv_publish tenant_id (ActUser user_id) (RiskStepUp user_id (ra_score a) (signal_names a) (ra_country a))
  | Block => sv_publish tenant_id (ActUser user_id) (RiskBlocked user_id (ra_score a) (signal_names a) (ra_country a))
  end.
End risk.

(** ** Trusted devices *)

Definition TOUCH_EVERY : Z := 15 * 60000.

Section trusted.
Context `{Valkey} `{Counters} `{KeyEncryptor} `{Geo} `{TextLib}.
Context (sha256 : list Z -> list Z) (b64 : list Z -> string).
Implicit Types (st : Server).

Definition device_hash (secret : string) : list Z := sha256 (ascii_bytes secret).

(** [trust]: the row and the cookie's secret, from [bytes]; an id or a hash
    the table has already is refused. *)
Definition trust (now : Z) (id : Uuid) (bytes : list Z) (tenant_id : Uuid) (s : Settings) (user_id : Uuid)
    (name user_agent ip : option string) : M Server ApiError (TrustedDevice * string) :=
  let secret := b64 bytes in
  let days := Z.max (st_remember_device_days s) 1 in
  let row := mkTrustedDevice id tenant_id user_id (device_hash secret) name user_agent ip now now (now + days * 86400000) None in
  let! rows := gets sv_devices in
  do! guard (existsb (fun d => (td_id d =? id)
        || ((td_tenant_id d =? tenant_id) && bool_decide (td_device_hash d = device_hash secret))) rows) (DatabaseError "") in
  do! modify (fun st => sv_with_devices st (sv_devices st ++ [row])) in
  do! sv_publish tenant_id (ActUser user_id) (TrustedDeviceAdded user_id id) in
  ret (row, secret).

(** [verify_secret]: the live device of the user behind a cookie, its last use
    noted now and then. *)
Definition verify_secret (now : Z) (tenant_id user_id : Uuid) (secret : string) (ip : option string)
    : M Server ApiError (option TrustedDevice) :=
  let! found := gets (fun st => TrustRepo.find_by_hash tenant_id (device_hash secret) (sv_devices st)) in
  let device := match found with
                | Some d => if (td_user_id d =? user_id) && device_is_live now d then Some d else None
                | None => None
                end in
  do! match device with
      | Some d =>
          if (TOUCH_EVERY <? now - td_last_seen_at d) || (bool_decide (is_Some ip) && negb (bool_decide (ip = td_ip d)))
          then modify (fun st => sv_with_devices st (TrustRepo.touch now tenant_id (td_id d) ip (sv_devices st)))
          else ret tt
      | None => ret tt
      end in
  ret device.
(** [is_trusted], of what the request's cookie holds. *)
Definition is_trusted (now : Z) (tenant_id user_id : Uuid) (cookie : option string) (ip : option string)
    : M Server ApiError (option TrustedDevice) :=
  match cookie with
  | Some secret => verify_secret now tenant_id user_id secret ip
  | None => ret None
  end.

Definition revoke_device (now : Z) (tenant_id : Uuid) (actor : Actor) (user_id device_id : Uuid) : M Server ApiError bool :=
  let! n := (fun st => let '(rows, n) := TrustRepo.revoke now tenant_id user_id device_id (sv_devices st) in
                       (Ok n, sv_with_devices st rows)) in
  do! (if 0 <? n then sv_publish tenant_id actor (TrustedDeviceRevoked user_id device_id) else ret tt) in
  ret (0 <? n).
Definition revoke_all_devices (now : Z) (tenant_id user_id : Uuid) : M Server ApiError Z := fun st =>
  let '(rows, n) := TrustRepo.revoke_all now tenant_id user_id (sv_devices st) in (Ok n, sv_with_devices st rows).

(** ** Consent *)

Definition missing_scopes (tenant_id user_id client_id : Uuid) (requested : list string) (st : Server) : list string :=
  let granted := match ConsentRepo.find tenant_id user_id client_id (sv_consents st) with
                 | Some c => if bool_decide (cs_revoked_at c = None) then cs_scopes c else []
                 | None => []
                 end in
  filter (fun s => s ∉ granted) requested.
Definition grant (now : Z) (tenant_id user_id client_id : Uuid) (scopes : list string) : M Server ApiError unit :=
  do! (fun st => match ConsentRepo.upsert now tenant_id user_id client_id scopes (sv_consents st) with
                 | Some rows => (Ok tt, sv_with_consents st rows)
                 | None => (Err (DatabaseError ""), st)
                 end) in
  sv_publish tenant_id (ActUser user_id) (ConsentGranted user_id client_id scopes).
Definition revoke_consent (now : Z) (tenant_id : Uuid) (actor : Actor) (user_id client_id : Uuid) : M Server ApiError bool :=
  let! n := (fun st => let '(rows, n) := ConsentRepo.revoke now tenant_id user_id client_id (sv_consents st) in
                       (Ok n, sv_with_consents st rows)) in
  do! (if 0 <? n then sv_publish tenant_id actor (ConsentRevoked user_id client_id) else ret tt) in
  ret (0 <? n).
End trusted.

(** ** Scores *)

Definition total (w : RiskWeights) (l : list RiskSignal) : Z := foldr (fun s n => weight w s + n) 0 l.
Definition all_signals : list RiskSignal := [NewDevice; NewCountry; ImpossibleTravel; Velocity].
(** The weights of all signals together are still a [u32]. *)
Definition weights_fit (w : RiskWeights) : Prop := (forall s, 0 <= weight w s) /\ total w all_signals < 2 ^ 32.

#[export] Instance total_perm w : Proper ((≡ₚ) ==> eq) (total w).
Proof. intros l l' Hp. unfold total. induction Hp; cbn; lia. Qed.
Lemma total_app w l l' : total w (l ++ l') = total w l + total w l'.
Proof. unfold total. induction l; cbn; lia. Qed.
Lemma total_nonneg w l : weights_fit w -> 0 <= total w l.
Proof. intros [Hw _]. unfold total. induction l as [|s l IH]; cbn; [lia|]. specialize (Hw s). lia. Qed.
Lemma total_mono w l l' : weights_fit w -> l ⊆+ l' -> total w l <= total w l'.
Proof.
  intros Hw (k & Hp)%submseteq_Permutation. rewrite Hp, total_app. pose proof (total_nonneg w k Hw). lia.
Qed.
Lemma total_bound w l : weights_fit w -> NoDup l -> total w l < 2 ^ 32.
Proof.
  intros Hw Hl. eapply Z.le_lt_trans; [|exact (proj2 Hw)]. apply total_mono; [done|]. apply NoDup_submseteq; [done|].
  intros s _. unfold all_signals. destruct s; set_solver.
Qed.

Lemma sum_u32_total w l : weights_fit w -> NoDup l -> sum_u32 (weight w <$> l) = total w l.
Proof.
  intros Hw Hl. pose proof (total_bound w l Hw Hl) as Hb. clear Hl. unfold sum_u32.
  assert (forall a, 0 <= a -> a + total w l < 2 ^ 32 -> foldl (fun a b => wrap_u 32 (a + b)) a (weight w <$> l) = a + total w l) as Hg.
  { clear Hb. induction l as [|s l IH]; intros a Ha Hs; [cbn; lia|].
    pose proof (proj1 Hw s). pose proof (total_nonneg w l Hw). change (total w (s :: l)) with (weight w s + total w l) in *.
    rewrite fmap_cons. cbn [foldl]. unfold wrap_u at 2. rewrite (Z.mod_small (a + weight w s)) by lia. rewrite IH by lia. lia. }
  rewrite Hg by lia. lia.
Qed.

Definition rank (a : RiskAction) : Z := match a with Allow => 0 | StepUp => 1 | Block => 2 end.
Lemma decide_action_mono p x y : x <= y -> rank (decide_action p x) <= rank (decide_action p y).
Proof.
  intros Hxy. unfold decide_action.
  destruct (Z.ltb_spec 0 (block_at p)), (Z.leb_spec (block_at p) x), (Z.leb_spec (block_at p) y),
    (Z.ltb_spec 0 (step_up_at p)), (Z.leb_spec (step_up_at p) x), (Z.leb_spec (step_up_at p) y); cbn; lia.
Qed.

Section scores.
Context `{Valkey} `{Counters} `{KeyEncryptor} `{Geo} `{TextLib}.

Lemma signals_nodup now p i h f : NoDup (signals_of now p i h f).
Proof.
  unfold signals_of, location_signals. set (v := match f with Some _ => _ | None => _ end).
  assert (v = [] \/ v = [Velocity]) as [-> | ->] by (subst v; repeat case_match; auto).
  all: destruct (in_new_device i), (in_location i); repeat case_match; cbn;
    repeat (apply NoDup_cons; split; [set_solver|]); apply NoDup_nil_2.
Qed.

(** the score decides in one direction only: with weights whose sum is a
    32-bit number, a sign-in that raises every signal another one raised, and
    perhaps more, is never treated more leniently, whatever the two users'
    histories and addresses. *)
Theorem risk_monotone p now1 t1 u1 i1 st1 now2 t2 u2 i2 st2 :
  weights_fit (rp_weights p) ->
  let a1 := evaluate now1 t1 p u1 i1 st1 in let a2 := evaluate now2 t2 p u2 i2 st2 in
  ra_signals a1 ⊆ ra_signals a2 -> ra_score a1 <= ra_score a2 /\ rank (ra_action a1) <= rank (ra_action a2).
Proof.
  intros Hw a1 a2 Hsub. subst a1 a2. unfold evaluate in *. destruct (rp_enabled p); cbn in *; [|lia].
  assert (forall x y, x <= y -> x <= y /\ rank (decide_action p x) <= rank (decide_action p y)) as Hg
    by auto using decide_action_mono.
  apply Hg. rewrite !sum_u32_total by auto using signals_nodup. apply total_mono; [done|].
  apply NoDup_submseteq; [apply signals_nodup|done].
Qed.
End scores.

(** ** Devices *)

Section devices.
Context `{Valkey} `{Counters} `{KeyEncryptor} `{Geo} `{TextLib}.
Context (sha256 : list Z -> list Z) (b64 : list Z -> string).
Implicit Types (st : Server).

(** What a browser's cookie proves, read off the table. *)
Lemma verify_secret_some now t u secret ip st d st' :
  verify_secret sha256 now t u secret ip st = (Ok (Some d), st') ->
  d ∈ sv_devices st /\ td_tenant_id d = t /\ td_user_id d = u /\ td_device_hash d = device_hash sha256 secret
  /\ td_revoked_at d = None /\ now < td_expires_at d.
Proof.
  unfold verify_secret, bind, gets. destruct (TrustRepo.find_by_hash _ _ _) as [d0|] eqn:Ef; [|done].
  destruct ((td_user_id d0 =? u) && device_is_live now d0) eqn:El; [|done].
  intros E. assert (d0 = d) as ->. { cbn in E. unfold ret, modify in E. by destruct (_ || _); injection E. }
  apply find_some in Ef as [Hin Hp]. unfold device_is_live in El. bool_hyps.
  split_and!; try done. by apply list_elem_of_In.
Qed.

Lemma touched_row now t id ip d rows : d ∈ TrustRepo.touch now t id ip rows ->
  exists d0, d0 ∈ rows /\ td_user_id d = td_user_id d0 /\ td_tenant_id d = td_tenant_id d0 /\ td_device_hash d = td_device_hash d0
    /\ td_revoked_at d = td_revoked_at d0 /\ td_expires_at d = td_expires_at d0.
Proof.
  unfold TrustRepo.touch, update. cbn [fst]. intros (d0 & -> & Hin)%list_elem_of_fmap. exists d0. split; [done|]. by case_match.
Qed.

(** What may happen to a user's devices without their asking to be remembered:
    cookies are checked, devices are revoked. *)
Inductive DeviceOp :=
| DoVerify (t u : Uuid) (secret : string) (ip : option string)
| DoTrusted (t u : Uuid) (cookie ip : option string)
| DoTrust (id : Uuid) (bytes : list Z) (t : Uuid) (s : Settings) (u : Uuid) (name user_agent ip : option string)
| DoRevoke (t : Uuid) (actor : Actor) (u id : Uuid)
| DoRevokeAll (t u : Uuid).
Definition run_device (st : Server) (e : Z * DeviceOp) : Server :=
  match e.2 with
  | DoVerify t u secret ip => (verify_secret sha256 e.1 t u secret ip st).2
  | DoTrusted t u cookie ip => (is_trusted sha256 e.1 t u cookie ip st).2
  | DoTrust id bytes t s u name ua ip => (trust sha256 b64 e.1 id bytes t s u name ua ip st).2
  | DoRevoke t actor u id => (revoke_device e.1 t actor u id st).2
  | DoRevokeAll t u => (revoke_all_devices e.1 t u st).2
  end.
Definition remembers (t u : Uuid) (op : DeviceOp) : bool :=
  match op with DoTrust _ _ t' _ u' _ _ _ => (t' =? t) && (u' =? u) | _ => false end.

Definition revoked_rows (t u : Uuid) (rows : list TrustedDevice) : Prop :=
  forall d, d ∈ rows -> td_tenant_id d = t -> td_user_id d = u -> td_revoked_at d <> None.

Lemma revoked_update (p : TrustedDevice -> bool) now t u rows :
  revoked_rows t u rows -> revoked_rows t u (update p (TrustRepo.set_revoked now) rows).1.
Proof.
  intros Hr d. unfold update. cbn [fst]. intros (d0 & -> & Hin)%list_elem_of_fmap. case_match; [done|]. by apply Hr.
Qed.
Lemma revoked_verify now t' u' secret ip st t u :
  revoked_rows t u (sv_devices st) -> revoked_rows t u (sv_devices (verify_secret sha256 now t' u' secret ip st).2).
Proof.
  intros Hr. unfold verify_secret, bind, gets. destruct (TrustRepo.find_by_hash _ _ _) as [d1|]; [|done].
  destruct (_ && device_is_live now d1); [|done]. cbn. destruct (_ || _); [|done]. cbn.
  intros d (d0 & Hin & Eu & Et & _ & Er & _)%touched_row. rewrite Er, Eu, Et. by apply Hr.
Qed.

Lemma revoked_step t u st e :
  remembers t u e.2 = false -> revoked_rows t u (sv_devices st) -> revoked_rows t u (sv_devices (run_device st e)).
Proof.
  intros Hop Hr. destruct e as [now []]; unfold run_device; cbn [fst snd remembers] in *.
  - by apply revoked_verify.
  - unfold is_trusted. destruct cookie; [by apply revoked_verify|done].
  - unfold trust, bind, gets, guard. destruct (existsb _ _); [done|]. cbn.
    intros d [Hin|Hin]%elem_of_app Et Eu; [by apply Hr|]. apply list_elem_of_singleton in Hin as ->. cbn in *. lia.
  - unfold revoke_device, bind. destruct (TrustRepo.revoke _ _ _ _ _) as [rows n] eqn:E.
    apply (f_equal fst) in E. cbn [fst] in E. destruct (0 <? n); cbn; subst rows; by apply revoked_update.
  - unfold revoke_all_devices. by apply revoked_update.
Qed.

(** C33: signing a user out of every remembered browser is final: after all
    devices of a user are revoked, no cookie is accepted as theirs, whatever
    else happens to devices, until the user asks to be remembered again. *)
Theorem revoked_devices_untrusted now t u st ops n secret ip :
  Forall (fun e => remembers t u e.2 = false) ops ->
  let st1 := foldl run_device (revoke_all_devices now t u st).2 ops in
  (verify_secret sha256 n t u secret ip st1).1 = Ok None.
Proof.
  intros Hops st1.
  assert (revoked_rows t u (sv_devices st1)) as Hr.
  { subst st1. assert (revoked_rows t u (sv_devices (revoke_all_devices now t u st).2)) as Hr0.
    { intros d. cbn. unfold TrustRepo.revoke_all, update. cbn [fst]. intros (d0 & -> & Hin)%list_elem_of_fmap Et Eu.
      case_match; [done|]. bool_hyps. intros En. rewrite En, bool_decide_eq_true_2 in * by done. lia. }
    revert Hr0. generalize (revoke_all_devices now t u st).2 as st0. induction Hops as [|e ops He Hops IH]; intros st0 Hr0; [done|].
    apply IH. by apply revoked_step. }
  destruct (verify_secret sha256 n t u secret ip st1) as [[[d|]|e] st2] eqn:E; [|done|].
  - apply verify_secret_some in E as (Hin & Et & Eu & _ & Hn & _). by destruct (Hr d Hin Et Eu).
  - unfold verify_secret, bind, gets in E. destruct (TrustRepo.find_by_hash _ _ _) as [d1|]; [|done].
    destruct (_ && device_is_live n d1); [|done]. cbn in E. by destruct (_ || _).
Qed.
End devices.

(** ** Grants *)

Section grants.
Context `{Valkey} `{Counters} `{KeyEncryptor} `{Geo} `{TextLib}.
Implicit Types (st : Server).

(** The scopes in force. *)
Definition granted (t u c : Uuid) (st : Server) : list string :=
  match ConsentRepo.find t u c (sv_consents st) with
  | Some r => if bool_decide (cs_revoked_at r = None) then cs_scopes r else []
  | None => []
  end.
Lemma missing_iff t u c req st s : s ∈ missing_scopes t u c req st <-> s ∈ req /\ s ∉ granted t u c st.
Proof. unfold missing_scopes. rewrite list_elem_of_filter. apply and_comm. Qed.

Lemma missing_none t u c req st : req ⊆ granted t u c st -> missing_scopes t u c req st = [].
Proof. intros Hr. apply elem_of_nil_inv. intros s [Hs Hn]%missing_iff. by apply Hn, Hr. Qed.
Lemma missing_all t u c req st : granted t u c st = [] -> missing_scopes t u c req st = req.
Proof.
  unfold granted, missing_scopes. intros ->. induction req as [|s req IH]; [done|]. rewrite filter_cons_True by set_solver. by rewrite IH.
Qed.

Lemma grant_run now t u c scopes st st' :
  grant now t u c scopes st = (Ok tt, st') ->
  ConsentRepo.upsert now t u c scopes (sv_consents st) = Some (sv_consents st').
Proof. unfold grant, bind. destruct (ConsentRepo.upsert _ _ _ _ _ _) as [rows|]; [|done]. by intros [= <-]. Qed.

Lemma at_row_own t u c scopes at_ x : ConsentRepo.at_row t u c (mkConsent t u c scopes at_ x) = true.
Proof. unfold ConsentRepo.at_row. cbn. by rewrite !Z.eqb_refl. Qed.

(** What a row holds after a grant: the old scopes, revoked or not, and the new. *)
Lemma grant_scopes now t u c scopes st st' :
  grant now t u c scopes st = (Ok tt, st') ->
  exists r, ConsentRepo.find t u c (sv_consents st') = Some r /\ cs_revoked_at r = None
    /\ forall s, s ∈ cs_scopes r <-> s ∈ scopes \/ exists o, ConsentRepo.find t u c (sv_consents st) = Some o /\ s ∈ cs_scopes o.
Proof.
  intros Hg%grant_run. unfold ConsentRepo.upsert in Hg. destruct (ConsentRepo.find t u c (sv_consents st)) as [o|] eqn:Eo.
  - case_bool_decide; [done|]. injection Hg as <-. unfold ConsentRepo.find in *.
    rewrite find_update by done. rewrite Eo. cbn. apply find_some in Eo as [_ Hat]. rewrite Hat. eexists. split_and!; [done..|].
    intros s. cbn. rewrite elem_of_remove_dups, elem_of_app. split; [|naive_solver]. intros [?|?]; [|by left]. right. by exists o.
  - injection Hg as <-. unfold ConsentRepo.find in *. rewrite find_app, Eo. cbn. rewrite at_row_own.
    eexists. split_and!; [done..|]. cbn. intros s. split; [by left|]. intros [?|(o & ? & _)]; done.
Qed.

(** what a user granted to a client is not asked again, and a grant gives
    nothing to another user or another client. *)
Theorem grant_remembered now t u c scopes st st' :
  grant now t u c scopes st = (Ok tt, st') ->
  missing_scopes t u c scopes st' = []
  /\ (forall u' c' req, (u', c') <> (u, c) -> missing_scopes t u' c' req st' = missing_scopes t u' c' req st).
Proof.
  intros Hg. split.
  - destruct (grant_scopes _ _ _ _ _ _ _ Hg) as (r & Hf & Hr & Hs). apply missing_none. unfold granted.
    rewrite Hf, bool_decide_eq_true_2 by done. intros s Hin. apply Hs. by left.
  - intros u' c' req Hne. unfold missing_scopes. replace (ConsentRepo.find t u' c' (sv_consents st')) with (ConsentRepo.find t u' c' (sv_consents st)); [done|].
    apply grant_run in Hg. unfold ConsentRepo.upsert in Hg.
    assert (forall r, ConsentRepo.at_row t u c r = true -> ConsentRepo.at_row t u' c' r = false) as Hx.
    { unfold ConsentRepo.at_row. intros r Hr. destruct (_ && _) eqn:E in |- *; [|done]. bool_hyps. destruct Hne. congruence. }
    destruct (ConsentRepo.find t u c (sv_consents st)) as [o|]; [case_bool_decide; [done|]|]; injection Hg as <-; unfold ConsentRepo.find.
    + rewrite find_update by done. destruct (List.find _ _) as [r|] eqn:E; [|done]. apply find_some in E as [_ E]. cbn.
      destruct (ConsentRepo.at_row t u c r) eqn:E2; [|done]. by rewrite Hx in E.
    + rewrite find_app. destruct (List.find _ _); [done|]. cbn. by rewrite Hx by apply at_row_own.
Qed.

(** revoking a client's access takes every scope away, but the scopes are
    only hidden: whatever the user grants to that client next, everything
    granted before the revocation is granted again with it. *)
Theorem revoked_consent_returns now1 actor now2 t u c old new st r st1 st2 :
  ConsentRepo.find t u c (sv_consents st) = Some old ->
  revoke_consent now1 t actor u c st = (Ok r, st1) -> grant now2 t u c new st1 = (Ok tt, st2) ->
  (forall req, missing_scopes t u c req st1 = req) /\ missing_scopes t u c (cs_scopes old ++ new) st2 = [].
Proof.
  intros Hold Hrev Hg.
  assert (exists o, ConsentRepo.find t u c (sv_consents st1) = Some o /\ cs_scopes o = cs_scopes old /\ cs_revoked_at o <> None)
    as (o & Ho & Es & Hn).
  { unfold revoke_consent, bind in Hrev. destruct (ConsentRepo.revoke _ _ _ _ _) as [rows n] eqn:E.
    assert (sv_consents st1 = rows) as -> by (destruct (0 <? n); by injection Hrev as _ <-).
    apply (f_equal fst) in E. cbn [fst] in E. subst rows. unfold ConsentRepo.revoke, update, ConsentRepo.find in *. cbn [fst]. rewrite find_update by done.
    rewrite Hold. apply find_some in Hold as [_ Hat]. cbn. rewrite Hat. cbn. case_bool_decide as Eb; eexists; by split_and!. }
  split.
  - intros req. apply missing_all. unfold granted. by rewrite Ho, bool_decide_eq_false_2.
  - destruct (grant_scopes _ _ _ _ _ _ _ Hg) as (row & Hf & Hr & Hs). apply missing_none. unfold granted.
    rewrite Hf, bool_decide_eq_true_2 by done. intros s Hin. apply Hs. apply elem_of_app in Hin as [Hin|Hin]; [|by left].
    right. exists o. by rewrite Es.
Qed.
End grants.

(** ** Example *)

Section example.
#[local] Existing Instances ot_valkey map_valkey_laws map_counters toy_uuid mf_encryptor pf_lib ot_geo.
Definition rk_policy (device country : Z) : RiskPolicy := mkRiskPolicy true (mkRiskWeights device country 40 30) 30 80 900 15 5.
Definition rk_here (country : string) : Location := mkLocation country (Some 10) (Some 20).
Definition rk_seen : Server := (record_location 0 1 (rk_policy 20 30) 5 (Some (rk_here "DE")) ot_empty).2.
Definition rk_inputs (country : string) (new_device : bool) : Inputs := mkInputs (Some "192.0.2.1"%string) (Some (rk_here country)) new_device None.

Lemma risk_monotone_witness :
  ra_score (evaluate 1000 1 (rk_policy 20 30) 5 (rk_inputs "DE" true) rk_seen)
  <= ra_score (evaluate 2000 1 (rk_policy 20 30) 5 (rk_inputs "FR" true) rk_seen)
  /\ rank (ra_action (evaluate 1000 1 (rk_policy 20 30) 5 (rk_inputs "DE" true) rk_seen))
     <= rank (ra_action (evaluate 2000 1 (rk_policy 20 30) 5 (rk_inputs "FR" true) rk_seen)).
Proof.
  apply risk_monotone.
  - split; [by intros []|done].
  - replace (ra_signals (evaluate 1000 1 (rk_policy 20 30) 5 (rk_inputs "DE" true) rk_seen)) with [NewDevice] by (vm_compute; reflexivity).
    replace (ra_signals (evaluate 2000 1 (rk_policy 20 30) 5 (rk_inputs "FR" true) rk_seen)) with [NewDevice; NewCountry]
      by (vm_compute; reflexivity).
    set_solver.
Defined.

(** the sum of the weights is a 32-bit number and wraps, and nothing bounds
    the weights: under a policy that blocks a new country alone, the same
    sign-in from a new device too scores nothing and is let in. *)
Theorem risk_score_wraps :
  let p := rk_policy (2 ^ 31) (2 ^ 31) in
  let one := evaluate 1000 1 p 5 (rk_inputs "FR" false) rk_seen in
  let both := evaluate 1000 1 p 5 (rk_inputs "FR" true) rk_seen in
  ra_signals one = [NewCountry] /\ ra_action one = Block
  /\ ra_signals both = [NewDevice; NewCountry] /\ ra_score both = 0 /\ ra_action both = Allow.
Proof. vm_compute. done. Qed.

Definition rk_trusted : Server := (trust ot_sha str_of_bytes 0 50 [65; 66] 1 ot_policy 5 None None None ot_empty).2.
Example rk_is_trusted :
  match (verify_secret ot_sha 1000 1 5 "AB" None rk_trusted).1 with Ok d => td_id <$> d | Err _ => None end = Some 50.
Proof. vm_compute. reflexivity. Qed.
Definition rk_ops : list (Z * DeviceOp) :=
  [(2000, DoTrust 51 [67] 1 ot_policy 6 None None None); (3000, DoVerify 1 5 "AB" (Some "192.0.2.1"%string)); (4000, DoRevoke 1 ActSystem 5 50)].
Lemma revoked_devices_untrusted_witness :
  (verify_secret ot_sha 5000 1 5 "AB" None (foldl (run_device ot_sha str_of_bytes) (revoke_all_devices 1000 1 5 rk_trusted).2 rk_ops)).1 = Ok None.
Proof. apply (revoked_devices_untrusted ot_sha str_of_bytes 1000 1 5 rk_trusted rk_ops 5000 "AB" None). by repeat constructor. Defined.

Definition rk_first : Server := (grant 1000 1 5 3 ["openid"; "orders:write"]%string ot_empty).2.
Lemma grant_remembered_witness :
  missing_scopes 1 5 3 ["openid"; "orders:write"]%string rk_first = []
  /\ (forall u' c' req, (u', c') <> (5, 3) -> missing_scopes 1 u' c' req rk_first = missing_scopes 1 u' c' req ot_empty).
Proof. apply (grant_remembered 1000 1 5 3 ["openid"; "orders:write"]%string ot_empty rk_first). apply ran_of. vm_compute. reflexivity. Defined.

Definition rk_revoked := revoke_consent 2000 1 (ActUser 5) 5 3 rk_first.
Definition rk_again := grant 3000 1 5 3 ["openid"%string] rk_revoked.2.
Lemma revoked_consent_returns_witness :
  (forall req, missing_scopes 1 5 3 req rk_revoked.2 = req)
  /\ missing_scopes 1 5 3 ["openid"; "orders:write"; "openid"]%string rk_again.2 = [].
Proof.
  apply (revoked_consent_returns 2000 (ActUser 5) 3000 1 5 3 (mkConsent 1 5 3 ["openid"; "orders:write"]%string 1000 None)
           ["openid"%string] rk_first true rk_revoked.2 rk_again.2).
  - vm_compute. reflexivity.
  - apply ran_of. vm_compute. reflexivity.
  - apply ran_of. vm_compute. reflexivity.
Defined.

(** A second grant of nothing to a client that holds nothing is an error of the
    database: the aggregate of no scopes is null. *)
Example empty_grant_fails :
  (grant 2000 1 5 3 [] (grant 1000 1 5 3 [] ot_empty).2).1 = Err (DatabaseError "").
Proof. vm_compute. reflexivity. Qed.
End example.
