(* ===== verification/Passwords.v ===== *)
(** * Passwords

    [api/src/services/password.rs] and the trait of
    [crates/ridm-core/src/providers/password.rs]: the formats a stored hash may
    have and how each is verified, the tenant's policy, the reuse history, and
    the change and verification of a user's password. The hash functions
    themselves (argon2, bcrypt, PBKDF2, SHA-2, MD5), Base64 and hexadecimal are
    crates: the class [HashLib]. The Unicode tables of [char] are the class
    [CharLib]. What a directory and the breach list answer are arguments. *)

From Stdlib Require Import Ascii.
From stdpp Require Import gmap strings.
From S2P Require Import Prelude Effects Utf8 Valkey AppState Sessions DeviceCodes KeyCustody Credentials Totp Mfa.
From S2P Require Import ApiErrors Models Profile Users Server Otp.

Local Open Scope string_scope.

(** ** Text *)

Class CharLib := {
  is_uppercase : Z -> bool;
  is_lowercase : Z -> bool;
  is_alphanumeric : Z -> bool
}.

(** [str::strip_prefix]. *)
Fixpoint strip_prefix (p s : string) : option string :=
  match p, s with
  | EmptyString, _ => Some s
  | String a p, String b s => if Ascii.eqb a b then strip_prefix p s else None
  | _, EmptyString => None
  end.
Definition starts_with (s p : string) : bool := bool_decide (is_Some (strip_prefix p s)).
(** [split_once] and [rsplit_once] at a character. *)
Fixpoint str_split_once (sep : ascii) (s : string) : option (string * string) :=
  match s with
  | EmptyString => None
  | String c s => if Ascii.eqb c sep then Some (EmptyString, s) else prod_map (String c) id <$> str_split_once sep s
  end.
Fixpoint str_rsplit_once (sep : ascii) (s : string) : option (string * string) :=
  match s with
  | EmptyString => None
  | String c s =>
      match str_rsplit_once sep s with
      | Some (a, b) => Some (String c a, b)
      | None => if Ascii.eqb c sep then Some (EmptyString, s) else None
      end
  end.
(** [splitn(3, '$')] when it yields three parts. *)
Definition split3 (s : string) : option (string * string * string) :=
  ab ← str_split_once "$" s; bc ← str_split_once "$" ab.2; Some (ab.1, bc.1, bc.2).
(** [str::contains]. *)
Fixpoint str_contains (needle hay : string) : bool :=
  starts_with hay needle || match hay with EmptyString => false | String _ hay => str_contains needle hay end.

(** [str::parse::<u32>]: an optional plus sign and digits, no overflow. *)
Definition digit_of (c : ascii) : option Z :=
  let n := Z.of_N (N_of_ascii c) in if (48 <=? n)%Z && (n <=? 57)%Z then Some (n - 48) else None.
Fixpoint digits_val (s : string) (acc : Z) : option Z :=
  match s with
  | EmptyString => Some acc
  | String c s =>
      d ← digit_of c;
      let acc := (acc * 10 + d)%Z in
      if (u32_max <? acc)%Z then None else digits_val s acc
  end.
Definition parse_u32 (s : string) : option Z :=
  let s := match s with String "+" s => s | _ => s end in
  match s with EmptyString => None | _ => digits_val s 0 end.

(** ** The hash functions *)

Inductive HashError := HeRejected (msg : string) | HeConfiguration (msg : string).

(** What [PasswordHash::new] parses of an argon2 hash. *)
Record Phc := mkPhc { phc_algorithm : string; phc_param : string -> option string }.
Record Argon2Params := mkArgon2Params { m_cost : Z; t_cost : Z; p_cost : Z }.
Inductive Pbkdf2Alg := Pbkdf2Sha256 | Pbkdf2Sha512.
Inductive Digest := DSha256 | DSha512 | DMd5.

Class HashLib := {
  phc_parse : string -> option Phc;
  (** [None] when the parameters are refused. *)
  argon2_verify : Argon2Params -> list Z -> string -> option bool;
  argon2_hash : Argon2Params -> list Z -> list Z -> option string;        (* parameters, salt, password *)
  argon2_params_ok : Argon2Params -> bool;
  bcrypt_verify : list Z -> string -> option bool;
  pbkdf2_derive : Pbkdf2Alg -> Z -> list Z -> list Z -> nat -> list Z;    (* rounds, salt, password, length *)
  digest : Digest -> list Z -> list Z;
  b64_standard : string -> option (list Z);
  b64_standard_no_pad : string -> option (list Z);
  b64_url_no_pad : string -> option (list Z);
  b64_standard_no_pad_encode : list Z -> string;
  hex_decode : string -> option (list Z)
}.

Record PasswordVerification := mkPasswordVerification { pv_valid : bool; pv_needs_rehash : bool }.

(** The trait: [hash] draws its salt from [rnd]. *)
Class PasswordHasher := {
  hasher_algorithm : string;
  hasher_hash : list Z -> string -> result HashError string;
  hasher_verify : string -> string -> result HashError PasswordVerification
}.
(** What its callers rely on: a fresh hash verifies and is current, and
    whether an accepted hash is current does not depend on the password. *)
Class HasherLaws `{PasswordHasher} := {
  hash_verifies rnd p h : hasher_hash rnd p = Ok h -> hasher_verify p h = Ok (mkPasswordVerification true false);
  rehash_of_stored p p' h b b' :
    hasher_verify p h = Ok (mkPasswordVerification true b) -> hasher_verify p' h = Ok (mkPasswordVerification true b') -> b = b'
}.

Definition ALGO_ARGON2ID : string := "argon2id".
Definition ALGO_PBKDF2_SHA512 : string := "pbkdf2-sha512".
Definition MAX_PBKDF2_ROUNDS : Z := 1000000.

(** ** [legacy] *)

Section legacy.
Context `{HashLib}.

Definition algorithm_of (stored : string) : string :=
  if starts_with stored "$argon2id$" then ALGO_ARGON2ID
  else if starts_with stored "$argon2i$" then "argon2i"
  else if starts_with stored "$argon2d$" then "argon2d"
  else if starts_with stored "$2a$" || starts_with stored "$2b$" || starts_with stored "$2y$" then "bcrypt"
  else if starts_with stored "$pbkdf2-sha256$" || starts_with stored "pbkdf2_sha256$" then "pbkdf2-sha256"
  else if starts_with stored "$pbkdf2-sha512$" || starts_with stored "pbkdf2_sha512$" then "pbkdf2-sha512"
  else if starts_with stored "$sha256$" then "sha256"
  else if starts_with stored "$sha512$" then "sha512"
  else if starts_with stored "$md5$" then "md5"
  else "unknown".

Definition is_approved (stored : string) : bool :=
  existsb (starts_with stored) ["$pbkdf2-sha256$"; "$pbkdf2-sha512$"; "pbkdf2_sha256$"; "pbkdf2_sha512$"].
(** The iteration count of a [$pbkdf2-sha512$] hash. *)
Definition pbkdf2_sha512_rounds (stored : string) : option Z :=
  rest ← strip_prefix "$pbkdf2-sha512$" stored;
  parse_u32 (match str_split_once "$" rest with Some (a, _) => a | None => rest end).

(** [s.replace('.', "+")]. *)
Fixpoint dots_to_plus (s : string) : string :=
  match s with
  | EmptyString => EmptyString
  | String c s => String (if Ascii.eqb c "."%char then "+"%char else c) (dots_to_plus s)
  end.
Definition or_else {A} (a b : option A) : option A := match a with Some x => Some x | None => b end.
Definition decode_b64 (s : string) : option (list Z) :=
  or_else (b64_standard s) (or_else (b64_standard_no_pad s) (or_else (b64_url_no_pad s) (b64_standard_no_pad (dots_to_plus s)))).

Definition pbkdf2_check (password salt : list Z) (rounds : Z) (expected : list Z) (alg : Pbkdf2Alg) : result HashError bool :=
  if (rounds =? 0)%Z || (MAX_PBKDF2_ROUNDS <? rounds)%Z || bool_decide (expected = []) || (512 <? zlen expected)%Z
  then Err (HeRejected "pbkdf2 parameters out of range")
  else Ok (bool_decide (pbkdf2_derive alg rounds salt password (length expected) = expected)).

Definition pbkdf2_parts (rest : string) : result HashError (Z * string * string) :=
  let? parts := ok_or (split3 rest) (HeRejected "malformed pbkdf2 hash") in
  let '(rounds, salt, hash) := parts in
  let? rounds := ok_or (parse_u32 rounds) (HeRejected "malformed pbkdf2 rounds") in
  Ok (rounds, salt, hash).
Definition pbkdf2_phc (password : list Z) (rest : string) (alg : Pbkdf2Alg) : result HashError bool :=
  let? parts := pbkdf2_parts rest in
  let '(rounds, salt, hash) := parts in
  let? salt := ok_or (decode_b64 salt) (HeRejected "malformed pbkdf2 salt") in
  let? expected := ok_or (decode_b64 hash) (HeRejected "malformed pbkdf2 hash") in
  pbkdf2_check password salt rounds expected alg.
(** Django's salt is the text itself. *)
Definition pbkdf2_django (password : list Z) (rest : string) (alg : Pbkdf2Alg) : result HashError bool :=
  let? parts := pbkdf2_parts rest in
  let '(rounds, salt, hash) := parts in
  let? expected := ok_or (decode_b64 hash) (HeRejected "malformed pbkdf2 hash") in
  pbkdf2_check password (ascii_bytes salt) rounds expected alg.
Definition salted_digest (d : Digest) (password : list Z) (rest : string) : result HashError bool :=
  let '(salt, hex_hash) := match str_rsplit_once "$" rest with Some (salt, h) => (ascii_bytes salt, h) | None => ([], rest) end in
  let? expected := ok_or (hex_decode hex_hash) (HeRejected "malformed hex digest") in
  Ok (bool_decide (digest d (salt ++ password) = expected)).

Definition legacy_verify (password : list Z) (stored : string) : result HashError bool :=
  if starts_with stored "$2a$" || starts_with stored "$2b$" || starts_with stored "$2y$" then
    ok_or (bcrypt_verify password stored) (HeRejected "bcrypt")
  else match strip_prefix "$pbkdf2-sha256$" stored with
  | Some rest => pbkdf2_phc password rest Pbkdf2Sha256
  | None => match strip_prefix "$pbkdf2-sha512$" stored with
  | Some rest => pbkdf2_phc password rest Pbkdf2Sha512
  | None => match strip_prefix "pbkdf2_sha256$" stored with
  | Some rest => pbkdf2_django password rest Pbkdf2Sha256
  | None => match strip_prefix "pbkdf2_sha512$" stored with
  | Some rest => pbkdf2_django password rest Pbkdf2Sha512
  | None => match strip_prefix "$sha256$" stored with
  | Some rest => salted_digest DSha256 password rest
  | None => match strip_prefix "$sha512$" stored with
  | Some rest => salted_digest DSha512 password rest
  | None => match strip_prefix "$md5$" stored with
  | Some rest => salted_digest DMd5 password rest
  | None => Err (HeRejected "unsupported password hash format")
  end end end end end end end.
End legacy.

(** ** The hashers *)

Section argon2.
Context `{HashLib} (params : Argon2Params).

Definition param_of (p : Phc) (name : string) : option Z := phc_param p name ≫= parse_u32.
Definition below (v : option Z) (bound : Z) : bool := match v with Some v => (v <? bound)%Z | None => true end.
Definition weaker (p : Phc) : bool :=
  negb (String.eqb (phc_algorithm p) "argon2id") || below (param_of p "m") (m_cost params)
  || below (param_of p "t") (t_cost params) || below (param_of p "p") (p_cost params).
Definition verify_argon2 (password : list Z) (stored : string) : result HashError PasswordVerification :=
  let? parsed := ok_or (phc_parse stored) (HeRejected "phc") in
  let? _ := if argon2_params_ok params then Ok tt else Err (HeConfiguration "argon2") in
  let? valid := ok_or (argon2_verify params password stored) (HeRejected "argon2") in
  Ok (mkPasswordVerification valid (valid && weaker parsed)).

(** [Argon2Hasher]. *)
Definition argon2_hasher : PasswordHasher := {|
  hasher_algorithm := ALGO_ARGON2ID;
  hasher_hash rnd password :=
    let? _ := if argon2_params_ok params then Ok tt else Err (HeConfiguration "argon2") in
    ok_or (argon2_hash params rnd (ascii_bytes password)) (HeRejected "argon2");
  hasher_verify password stored :=
    let pw := ascii_bytes password in
    if starts_with stored "$argon2" then verify_argon2 pw stored
    else let? valid := legacy_verify pw stored in Ok (mkPasswordVerification valid valid)
|}.
End argon2.

Section pbkdf2.
Context `{HashLib} (iterations : Z) (transition : bool) (argon2 : Argon2Params).

(** [Pbkdf2Hasher], of the FIPS build; [rnd] is the 16-byte salt. *)
Definition pbkdf2_hasher : PasswordHasher := {|
  hasher_algorithm := ALGO_PBKDF2_SHA512;
  hasher_hash rnd password :=
    if (iterations =? 0)%Z then Err (HeConfiguration "PBKDF2_ITERATIONS is 0")
    else
      let out := pbkdf2_derive Pbkdf2Sha512 iterations rnd (ascii_bytes password) 64 in
      Ok ("$pbkdf2-sha512$" ++ pretty iterations ++ "$" ++ b64_standard_no_pad_encode rnd ++ "$"
          ++ b64_standard_no_pad_encode out);
  hasher_verify password stored :=
    let pw := ascii_bytes password in
    if is_approved stored then
      let? valid := legacy_verify pw stored in
      let current := match pbkdf2_sha512_rounds stored with Some r => (iterations <=? r)%Z | None => false end in
      Ok (mkPasswordVerification valid (valid && negb current))
    else if negb transition then Err (HeRejected ("this password hash is " ++ algorithm_of stored))
    else
      let? valid := if starts_with stored "$argon2"
                    then let? v := verify_argon2 argon2 pw stored in Ok (pv_valid v)
                    else legacy_verify pw stored in
      Ok (mkPasswordVerification valid valid)
|}.
End pbkdf2.

(** ** Policy *)

Record SetPasswordOptions := mkSetPasswordOptions { so_must_change : bool; so_skip_policy : bool; so_by_user : bool; so_notify : bool }.
Inductive VerifyOutcome := PwValid (must_change : bool) | PwInvalid.

Section service.
Context `{Valkey} `{Counters} `{UuidDisplay} `{KeyEncryptor} `{Geo} `{TextLib} `{CharLib} `{PasswordHasher} `{!Serde SsoSession}.

Definition before_at (email : string) : string := match str_split_once "@" email with Some (a, _) => a | None => email end.
(** [check_policy]: every rule broken. *)
Definition check_password (p : PasswordPolicy) (password : string) (user : option User) : list string :=
  let chars := chars_of password in
  let len := as_u32 (zlen chars) in
  (if (len <? pp_min_length p)%Z then ["must be at least " ++ pretty (pp_min_length p) ++ " characters"] else [])
  ++ (if (pp_max_length p <? len)%Z then ["must be at most " ++ pretty (pp_max_length p) ++ " characters"] else [])
  ++ (if pp_require_uppercase p && negb (existsb is_uppercase chars) then ["must contain an uppercase letter"] else [])
  ++ (if pp_require_lowercase p && negb (existsb is_lowercase chars) then ["must contain a lowercase letter"] else [])
  ++ (if pp_require_digit p && negb (existsb is_ascii_digit chars) then ["must contain a digit"] else [])
  ++ (if pp_require_symbol p && negb (existsb (fun c => negb (is_alphanumeric c) && negb (is_whitespace c)) chars)
      then ["must contain a symbol"] else [])
  ++ match user with
     | Some u =>
         let lower := to_lowercase password in
         (if str_contains (to_lowercase (u_username u)) lower && (4 <=? Z.of_nat (String.length (u_username u)))%Z
          then ["must not contain the username"] else [])
         ++ match before_at <$> u_email u with
            | Some local =>
                if (4 <=? Z.of_nat (String.length local))%Z && str_contains (to_lowercase local) lower
                then ["must not contain the email address"] else []
            | None => []
            end
     | None => []
     end.

(** [hash_blocking] and [verify_blocking]; the errors' texts are not kept. *)
Definition hash_password (rnd : list Z) (password : string) : result ApiError string :=
  map_err (fun _ => InternalError "") (hasher_hash rnd password).
Definition verify_password (password stored : string) : result ApiError PasswordVerification :=
  map_err (fun e => match e with HeRejected _ => Unauthorized | HeConfiguration _ => InternalError "" end)
    (hasher_verify password stored).
(** [checker.count]: how often the corpus has the password; [None] when the
    deployment has no list, an error when it cannot be reached. *)
Definition check_breached (count : string -> option (result unit Z)) (password : string) : result ApiError unit :=
  match count password with
  | Some (Ok n) =>
      if (n =? 0)%Z then Ok tt
      else Err (InvalidFields [mkFieldError "password" "has appeared in a data breach; choose a different one"])
  | Some (Err _) | None => Ok tt
  end.
Definition policy_checks (breached : string -> option (result unit Z)) (p : PasswordPolicy) (password : string) (u : User)
    : result ApiError unit :=
  let problems := check_password p password (Some u) in
  if bool_decide (problems = []) then if pp_check_breached p then check_breached breached password else Ok tt
  else Err (InvalidFields (mkFieldError "password" <$> problems)).

(** What [services/ldap.rs] does for passwords, as its callers see it. *)
Record Directories := mkDirectories {
  dir_set_password : PasswordPolicy -> Actor -> Uuid -> string -> SetPasswordOptions -> M Server ApiError bool;
  dir_verify_password : UserRow -> string -> M Server ApiError (option bool);
  dir_sign_in_unknown : string -> string -> M Server ApiError (option UserRow);
  dir_of_user : Uuid -> M Server ApiError bool
}.
(** A tenant without directories. *)
Definition no_directories : Directories :=
  mkDirectories (fun _ _ _ _ _ => ret false) (fun _ _ => ret None) (fun _ _ => ret None) (fun _ => ret false).

(** ** Changing a password *)

(** [notifications::password_changed]: to the address of the account; what
    the provider answers is not waited for. *)
Definition notify_password_changed (s : Settings) (tenant user : Uuid) : M Server ApiError unit :=
  let! row := gets (fun st => UserRepo.find_by_id tenant user (sv_users st)) in
  match row with
  | Some r =>
      match ur_email r with
      | Some email =>
          if ur_live r && np_password_changed (st_notifications s)
          then modify (fun st => sv_send st (mkMessage tenant ChEmail "password_changed" email "")) else ret tt
      | None => ret tt
      end
  | None => ret tt
  end.

(** The passwords the new one must differ from, of the user as read. *)
Definition reused (p : PasswordPolicy) (history : list string) (current : option string) (password : string) : bool :=
  existsb (fun old => match verify_password password old with Ok v => pv_valid v | Err _ => false end)
    (history ++ match current with Some h => [h] | None => [] end).

(** What was read before the checks. *)
Definition read_for_change (tenant : Uuid) (p : PasswordPolicy) (user : Uuid) (o : SetPasswordOptions)
    : M Server ApiError (UserRow * list string) :=
  let! row := gets (fun st => UserRepo.find_by_id tenant user (sv_users st)) in
  match row with
  | Some r =>
      if ur_live r then
        let! history := gets (fun st =>
          if negb (so_skip_policy o) && (0 <? pp_history p)%Z
          then HistoryRepo.recent tenant user (Z.to_nat (pp_history p - 1)) (sv_history st) else []) in
        ret (r, history)
      else throw (ApiNotFound "user")
  | None => throw (ApiNotFound "user")
  end.
Definition checks_for_change (breached : string -> option (result unit Z)) (p : PasswordPolicy) (o : SetPasswordOptions)
    (row : UserRow) (history : list string) (password : string) : result ApiError unit :=
  if so_skip_policy o then Ok tt
  else
    let? _ := policy_checks breached p password (ur_user row) in
    if (0 <? pp_history p)%Z && reused p history (ur_password_hash row) password
    then Err (InvalidFields [mkFieldError "password" ("must differ from the last " ++ pretty (pp_history p) ++ " passwords")])
    else Ok tt.
(** The transaction that writes: refused when the hash is no longer the one
    that was read. *)
Definition write_change (now : Z) (tenant : Uuid) (p : PasswordPolicy) (user : Uuid) (o : SetPasswordOptions) (row : UserRow)
    (hash : string) : M Server ApiError unit :=
  let! current := gets (fun st => UserRepo.find_by_id tenant user (sv_users st)) in
  match current with
  | Some c =>
      if negb (ur_live c) then throw (ApiNotFound "user")
      else if negb (bool_decide (ur_password_hash c = ur_password_hash row))
      then throw (ApiConflict "the password was changed at the same time; try again")
      else
        do! match ur_password_hash row with
            | Some old =>
                if (1 <? pp_history p)%Z
                then modify (fun st => sv_with_history st
                       (HistoryRepo.trim tenant user (Z.to_nat (pp_history p - 1)) (HistoryRepo.insert tenant user old (sv_history st))))
                else ret tt
            | None => ret tt
            end in
        let expires := (fun days => now + days * 86400000)%Z <$> pp_max_age_days p in
        modify (fun st => sv_with_users st
          (UserRepo.set_password now tenant user hash hasher_algorithm (so_must_change o) expires (sv_users st)).1)
  | None => throw (ApiNotFound "user")
  end.

Definition set_password (now : Z) (rnd : list Z) (breached : string -> option (result unit Z)) (dir : Directories) (s : Settings)
    (tenant : Uuid) (actor : Actor) (user : Uuid) (password : string) (o : SetPasswordOptions) : M Server ApiError unit :=
  let p := st_password s in
  let! done_ := dir_set_password dir p actor user password o in
  if (done_ : bool) then ret tt
  else
    let! read := read_for_change tenant p user o in
    let '(row, history) := read in
    do! lift (checks_for_change breached p o row history password) in
    let! hash := lift (hash_password rnd password) in
    do! transaction (write_change now tenant p user o row hash) in
    do! sv_publish tenant actor (PasswordChanged user (so_by_user o)) in
    if so_notify o then notify_password_changed s tenant user else ret tt.

(** [set_temporary_password]: 24 characters in three groups, [draws] the
    [random_below] of each. *)
Definition ALPHABET : list Z := ascii_bytes "ABCDEFGHJKLMNPQRSTUVWXYZabcdefghijkmnopqrstuvwxyz23456789".
Definition temporary (draws : nat -> Z) : string :=
  let c i := nth (Z.to_nat (draws i)) ALPHABET 65%Z in
  str_of_bytes ((c <$> seq 0 8) ++ [45%Z] ++ (c <$> seq 8 8) ++ [45%Z] ++ (c <$> seq 16 8)).
Definition set_temporary_password (now : Z) (rnd : list Z) (draws : nat -> Z) (breached : string -> option (result unit Z))
    (dir : Directories) (s : Settings) (tenant : Uuid) (actor : Actor) (user : Uuid) : M Server ApiError string :=
  do! set_password now rnd breached dir s tenant actor user (temporary draws) (mkSetPasswordOptions true true false false) in
  ret (temporary draws).

(** [import_hash] of the standard or ([fips]) the FIPS build. *)
Definition import_hash (now : Z) (fips transition : bool) (dir : Directories) (tenant user : Uuid) (stored : string) : M Server ApiError unit :=
  let algo := algorithm_of stored in
  do! guard (String.eqb algo "unknown") (BadRequest "unsupported password hash format") in
  do! guard (fips && negb transition && negb (is_approved stored))
        (BadRequest ("the FIPS build imports " ++ algo ++ " password hashes only with FIPS_TRANSITION=true")) in
  let! managed := dir_of_user dir user in
  do! guard managed (BadRequest "the user's password is managed by a directory") in
  let! n := (fun st => let '(rows, n) := UserRepo.set_password now tenant user stored algo false None (sv_users st) in
                       (Ok n, sv_with_users st rows)) in
  guard (n =? 0)%Z (ApiNotFound "user").

(** ** Verifying a password *)

Definition with_hash (now : Z) (hash algo : string) (r : UserRow) : UserRow :=
  let u := ur_user r in
  mkUserRow (ur_tenant_id r)
    (mkUser (u_id u) (u_org_id u) (u_username u) (u_email u) (u_email_verified u) (u_phone u) (u_phone_verified u)
       (u_status u) (u_attributes u) (u_locale u) (u_created_at u) now)
    (Some hash) (Some algo) (ur_must_change_password r) (ur_password_expires_at r) (ur_password_changed_at r) (ur_external_id r)
    (ur_last_login_at r) (ur_failed_attempts r) (ur_locked_until r) (ur_deleted_at r) (ur_terms_accepted_at r).
(** Replace the hash of a password just verified. *)
Definition upgrade (now : Z) (rnd : list Z) (tenant : Uuid) (user : UserRow) (password : string) : M Server ApiError unit :=
  let! hash := lift (hash_password rnd password) in
  do! modify (fun st => sv_with_users st
        (AppState.update (UserRepo.at_row tenant (ur_id user)) (with_hash now hash hasher_algorithm) (sv_users st)).1) in
  sv_publish tenant ActSystem (PasswordHashUpgraded (ur_id user) (default "unknown" (ur_password_algo user))).
Definition password_expired (now : Z) (p : PasswordPolicy) (user : UserRow) : bool :=
  match ur_password_expires_at user with Some t => (t <=? now)%Z | None => false end
  || match pp_max_age_days p, ur_password_changed_at user with
     | Some days, Some changed => (changed + days * 86400000 <=? now)%Z
     | _, _ => false
     end.
Definition verify_and_upgrade (now : Z) (rnd : list Z) (dir : Directories) (p : PasswordPolicy) (tenant : Uuid) (user : UserRow)
    (password : string) : M Server ApiError VerifyOutcome :=
  match ur_password_hash user with
  | None =>
      let! bound := dir_verify_password dir user password in
      ret (match bound with Some true => PwValid (ur_must_change_password user) | _ => PwInvalid end)
  | Some stored =>
      match verify_password password stored with
      | Err Unauthorized => ret PwInvalid
      | Err e => throw e
      | Ok v =>
          if negb (pv_valid v) then ret PwInvalid
          else
            do! (if pv_needs_rehash v then upgrade now rnd tenant user password else ret tt) in
            ret (PwValid (ur_must_change_password user || password_expired now p user))
      end
  end.
End service.

(** ** The hashers keep their promise *)

(** What the crates document. *)
Class HashLibLaws `{HashLib} := {
  (** a hash of argon2 is a PHC string of its parameters, and verifies *)
  argon2_hash_ok params salt pw h :
    argon2_hash params salt pw = Some h ->
    starts_with h "$argon2" = true /\ argon2_verify params pw h = Some true
    /\ exists phc, phc_parse h = Some phc /\ phc_algorithm phc = "argon2id"
       /\ phc_param phc "m" = Some (pretty (m_cost params)) /\ phc_param phc "t" = Some (pretty (t_cost params))
       /\ phc_param phc "p" = Some (pretty (p_cost params));
  pbkdf2_length alg rounds salt pw n : length (pbkdf2_derive alg rounds salt pw n) = n;
  (** unpadded Base64 has no dollar sign and is read back *)
  b64_clean l : str_split_once "$" (b64_standard_no_pad_encode l) = None;
  b64_padded l : b64_standard (b64_standard_no_pad_encode l) = None \/ b64_standard (b64_standard_no_pad_encode l) = Some l;
  b64_round_trip l : b64_standard_no_pad (b64_standard_no_pad_encode l) = Some l
}.

(** *** Numbers *)

Lemma small_digit d : (d < 10)%N -> digit_of (pretty_N_char d) = Some (Z.of_N d) /\ Ascii.eqb (pretty_N_char d) "$" = false.
Proof.
  intros Hd. assert (d = 0 \/ d = 1 \/ d = 2 \/ d = 3 \/ d = 4 \/ d = 5 \/ d = 6 \/ d = 7 \/ d = 8 \/ d = 9)%N as Hc by lia.
  repeat destruct Hc as [->|Hc]; [done..|]. by subst d.
Qed.

Lemma digits_val_go x : forall s, (Z.of_N x <= u32_max)%Z -> digits_val (pretty_N_go x s) 0 = digits_val s (Z.of_N x).
Proof.
  induction (N.lt_wf_0 x) as [x _ IH]; intros s Hx. destruct (decide (0 < x)%N) as [Hp|Hp].
  - pose proof (N.div_mod x 10 ltac:(lia)) as Hd. pose proof (N.mod_lt x 10 ltac:(lia)) as Hm.
    assert (x / 10 < x)%N as Hl by (apply N.div_lt; lia).
    rewrite pretty_N_go_step by done. rewrite IH by lia. cbn [digits_val]. rewrite (proj1 (small_digit _ Hm)). cbn [mbind option_bind].
    replace (Z.of_N (x / 10) * 10 + Z.of_N (x mod 10))%Z with (Z.of_N x) by lia.
    by rewrite (proj2 (Z.ltb_ge _ _)) by lia.
  - assert (x = 0%N) as -> by lia. by rewrite pretty_N_go_0.
Qed.
Lemma split_go x : forall s, str_split_once "$" s = None -> str_split_once "$" (pretty_N_go x s) = None.
Proof.
  induction (N.lt_wf_0 x) as [x _ IH]; intros s Hs. destruct (decide (0 < x)%N) as [Hp|Hp].
  - rewrite pretty_N_go_step by done. apply IH; [apply N.div_lt; lia|]. cbn.
    rewrite (proj2 (small_digit _ (N.mod_lt x 10 ltac:(lia)))). by rewrite Hs.
  - assert (x = 0%N) as -> by lia. by rewrite pretty_N_go_0.
Qed.
(** The digits of a positive number: no sign, no dollar. *)
Lemma go_head x : (0 < x)%N -> forall s, exists d r, (d < 10)%N /\ pretty_N_go x s = String (pretty_N_char d) r.
Proof.
  induction (N.lt_wf_0 x) as [x _ IH]; intros Hp s. rewrite pretty_N_go_step by done. destruct (N.eq_0_gt_0_cases (x / 10)) as [->|Hq]; swap 1 2.
  - apply IH; [apply N.div_lt; lia|done].
  - rewrite pretty_N_go_0. exists (x mod 10)%N, s. split; [apply N.mod_lt; lia|done].
Qed.
Lemma pretty_pos n : (0 < n)%Z -> pretty n = pretty_N_go (Z.to_N n) "".
Proof. intros Hn. destruct n as [|p|p]; [lia| |lia]. change (pretty (Z.pos p)) with (pretty (N.pos p)). unfold pretty, pretty_N. by rewrite decide_False. Qed.
Lemma parse_pretty n : (0 < n <= u32_max)%Z -> parse_u32 (pretty n) = Some n.
Proof.
  intros Hn. rewrite pretty_pos by lia. destruct (go_head (Z.to_N n) ltac:(lia) "") as (d & r & Hd & E).
  pose proof (digits_val_go (Z.to_N n) "" ltac:(lia)) as Hv. rewrite Z2N.id in Hv by lia. unfold parse_u32. rewrite E in *.
  assert (forall (A : Type) (a b : A), match pretty_N_char d with "+"%char => a | _ => b end = b) as Hplus.
  { intros A a b. clear - Hd. assert (d = 0 \/ d = 1 \/ d = 2 \/ d = 3 \/ d = 4 \/ d = 5 \/ d = 6 \/ d = 7 \/ d = 8 \/ d = 9)%N as Hc by lia.
    repeat destruct Hc as [->|Hc]; [done..|]. by subst d. }
  by rewrite !Hplus.
Qed.
Lemma pretty_clean n : (0 < n)%Z -> str_split_once "$" (pretty n) = None.
Proof. intros Hn. rewrite pretty_pos by lia. by apply split_go. Qed.

(** *** Text *)

Lemma strip_prefix_app p s : strip_prefix p (p ++ s) = Some s.
Proof.
  induction p as [|c p IH]; [done|]. change (String c p ++ s) with (String c (p ++ s)). cbn [strip_prefix]. by rewrite Ascii.eqb_refl.
Qed.
Lemma starts_with_app p s : starts_with (p ++ s) p = true.
Proof. unfold starts_with. rewrite strip_prefix_app. by apply bool_decide_eq_true. Qed.
Lemma split_once_app sep s r : str_split_once sep s = None -> str_split_once sep (s ++ String sep r) = Some (s, r).
Proof.
  induction s as [|c s IH].
  { change ("" ++ String sep r) with (String sep r). cbn [str_split_once]. by rewrite Ascii.eqb_refl. }
  change (String c s ++ String sep r) with (String c (s ++ String sep r)). cbn [str_split_once]. destruct (Ascii.eqb c sep); [done|]. intros Hs.
  by destruct (str_split_once sep s); [done|]; rewrite IH.
Qed.
Lemma split3_parts a b c :
  str_split_once "$" a = None -> str_split_once "$" b = None -> split3 (a ++ "$" ++ b ++ "$" ++ c) = Some (a, b, c).
Proof.
  intros Ha Hb. change (a ++ "$" ++ b ++ "$" ++ c) with (a ++ String "$" (b ++ String "$" c)). unfold split3.
  rewrite split_once_app by done. cbn [mbind option_bind snd]. by rewrite split_once_app.
Qed.

Section laws.
Context `{HashLibLaws}.

Lemma decode_b64_encode l : decode_b64 (b64_standard_no_pad_encode l) = Some l.
Proof. unfold decode_b64. destruct (b64_padded l) as [-> | ->]; [|done]. cbn. by rewrite b64_round_trip. Qed.

(** The stored form of a PBKDF2 hash. *)
Definition pbkdf2_stored (iterations : Z) (salt out : list Z) : string :=
  "$pbkdf2-sha512$" ++ pretty iterations ++ "$" ++ b64_standard_no_pad_encode salt ++ "$" ++ b64_standard_no_pad_encode out.

Lemma pbkdf2_stored_verify iterations salt out pw :
  (0 < iterations <= MAX_PBKDF2_ROUNDS)%Z -> (0 < length out <= 512)%nat ->
  legacy_verify pw (pbkdf2_stored iterations salt out)
  = Ok (bool_decide (pbkdf2_derive Pbkdf2Sha512 iterations salt pw (length out) = out)).
Proof.
  intros Hi Hl. unfold legacy_verify, pbkdf2_stored. set (rest := (pretty iterations ++ _)%string).
  change (strip_prefix "$pbkdf2-sha512$" ("$pbkdf2-sha512$" ++ rest)) with (Some rest). cbn [starts_with].
  change (starts_with ("$pbkdf2-sha512$" ++ rest) "$2a$") with false.
  change (starts_with ("$pbkdf2-sha512$" ++ rest) "$2b$") with false.
  change (starts_with ("$pbkdf2-sha512$" ++ rest) "$2y$") with false.
  change (strip_prefix "$pbkdf2-sha256$" ("$pbkdf2-sha512$" ++ rest)) with (@None string). cbn [orb].
  unfold pbkdf2_phc, pbkdf2_parts. subst rest. rewrite split3_parts by auto using pretty_clean, b64_clean with lia. cbn [ok_or].
  rewrite parse_pretty by (unfold MAX_PBKDF2_ROUNDS, u32_max in *; lia). cbn. rewrite !decode_b64_encode. cbn. unfold pbkdf2_check.
  rewrite (proj2 (Z.eqb_neq iterations 0)), (proj2 (Z.ltb_ge MAX_PBKDF2_ROUNDS iterations)) by lia.
  rewrite bool_decide_eq_false_2 by (intros ->; cbn in *; lia).
  rewrite (proj2 (Z.ltb_ge 512 (zlen out))) by (unfold zlen; lia). done.
Qed.

Lemma argon2_laws params :
  (0 < m_cost params <= u32_max)%Z -> (0 < t_cost params <= u32_max)%Z -> (0 < p_cost params <= u32_max)%Z ->
  @HasherLaws (argon2_hasher params).
Proof.
  intros Hm Ht Hp. split.
  - intros rnd p h. cbn. destruct (argon2_params_ok params) eqn:Ep; [|done]. cbn.
    destruct (argon2_hash params rnd (ascii_bytes p)) as [h'|] eqn:Eh; [|done]. intros [= ->].
    destruct (argon2_hash_ok _ _ _ _ Eh) as (Hs & Hv & phc & Hphc & Ha & Em & Et & Ec).
    rewrite Hs. unfold verify_argon2. rewrite Hphc, Ep. cbn. rewrite Hv. cbn. unfold weaker, param_of. rewrite Ha, Em, Et, Ec. cbn.
    rewrite !parse_pretty by done. cbn. by rewrite !Z.ltb_irrefl.
  - intros p p' h b b'. cbn. destruct (starts_with h "$argon2").
    + unfold verify_argon2. destruct (phc_parse h) as [phc|]; [|done]. cbn. destruct (argon2_params_ok params); [|done]. cbn.
      destruct (argon2_verify params (ascii_bytes p) h) as [[]|], (argon2_verify params (ascii_bytes p') h) as [[]|]; try done.
      cbn. congruence.
    + destruct (legacy_verify (ascii_bytes p) h) as [[]|], (legacy_verify (ascii_bytes p') h) as [[]|]; try done. cbn. congruence.
Qed.

(** a password hashed by the FIPS build verifies against what was stored,
    and is not hashed again: the string of iterations, salt and hash is taken
    apart as it was put together, for every iteration count the configuration
    allows. *)
Theorem pbkdf2_round_trip iterations transition argon2 rnd p h :
  (0 < iterations <= MAX_PBKDF2_ROUNDS)%Z ->
  @hasher_hash (pbkdf2_hasher iterations transition argon2) rnd p = Ok h ->
  @hasher_verify (pbkdf2_hasher iterations transition argon2) p h = Ok (mkPasswordVerification true false).
Proof.
  intros Hi. cbn [hasher_hash pbkdf2_hasher]. rewrite (proj2 (Z.eqb_neq iterations 0)) by lia. intros [= <-].
  set (out := pbkdf2_derive _ _ _ _ 64). assert (length out = 64%nat) as Hl by apply pbkdf2_length.
  cbn [hasher_verify pbkdf2_hasher]. fold (pbkdf2_stored iterations rnd out). rewrite pbkdf2_stored_verify by lia.
  change (is_approved (pbkdf2_stored iterations rnd out)) with true.
  rewrite Hl, bool_decide_eq_true_2 by done.
  assert (pbkdf2_sha512_rounds (pbkdf2_stored iterations rnd out) = Some iterations) as ->.
  { unfold pbkdf2_sha512_rounds, pbkdf2_stored. rewrite strip_prefix_app. cbn [mbind option_bind].
    change (pretty iterations ++ "$" ++ b64_standard_no_pad_encode rnd ++ "$" ++ b64_standard_no_pad_encode out)
      with (pretty iterations ++ String "$" (b64_standard_no_pad_encode rnd ++ "$" ++ b64_standard_no_pad_encode out)).
    rewrite split_once_app by (apply pretty_clean; lia). apply parse_pretty. unfold MAX_PBKDF2_ROUNDS, u32_max in *. lia. }
  cbn. by rewrite Z.leb_refl.
Qed.
End laws.

(** ** Reuse *)

Section rows.
Local Close Scope string_scope.
Implicit Types (rows : list HistoryRow).

Definition hashes_of (t u : Uuid) rows : list string := ph_hash <$> filter (fun r => HistoryRepo.of_user t u r = true) rows.

Lemma of_user_apart t u t' u' r : (t', u') <> (t, u) -> HistoryRepo.of_user t u r = true -> HistoryRepo.of_user t' u' r = false.
Proof. unfold HistoryRepo.of_user. intros Hne Hr. destruct (_ && _) eqn:E in |- *; [|done]. bool_hyps. destruct Hne. congruence. Qed.

Lemma hashes_drop t u n : forall rows, hashes_of t u (HistoryRepo.drop_user t u n rows) = drop n (hashes_of t u rows).
Proof.
  induction n as [|n IHn]; [by intros []|]. induction rows as [|r rows IH]; [done|]. cbn [HistoryRepo.drop_user].
  unfold hashes_of in *. rewrite (filter_cons _ r rows). destruct (HistoryRepo.of_user t u r) eqn:E.
  - rewrite decide_True, fmap_cons by done. apply IHn.
  - rewrite filter_cons, !decide_False by congruence. apply IH.
Qed.
Lemma hashes_drop_other t u t' u' n : (t', u') <> (t, u) ->
  forall rows, hashes_of t' u' (HistoryRepo.drop_user t u n rows) = hashes_of t' u' rows.
Proof.
  intros Hne. induction n as [|n IHn]; [by intros []|]. induction rows as [|r rows IH]; [done|]. cbn [HistoryRepo.drop_user].
  unfold hashes_of in *. rewrite (filter_cons _ r rows). destruct (HistoryRepo.of_user t u r) eqn:E.
  - rewrite (of_user_apart _ _ _ _ _ Hne E), decide_False by done. apply IHn.
  - rewrite filter_cons. case_decide; cbn; by rewrite IH.
Qed.
Lemma hashes_insert t u h rows : hashes_of t u (HistoryRepo.insert t u h rows) = hashes_of t u rows ++ [h].
Proof.
  unfold hashes_of, HistoryRepo.insert. rewrite filter_app, fmap_app. f_equal. rewrite filter_cons_True; [done|].
  unfold HistoryRepo.of_user. cbn. by rewrite !Z.eqb_refl.
Qed.
Lemma hashes_insert_other t u t' u' h rows : (t', u') <> (t, u) -> hashes_of t' u' (HistoryRepo.insert t u h rows) = hashes_of t' u' rows.
Proof.
  intros Hne. unfold hashes_of, HistoryRepo.insert. rewrite filter_app, fmap_app. rewrite filter_cons_False; [by rewrite app_nil_r|].
  rewrite (of_user_apart t u t' u' _ Hne); [done|]. unfold HistoryRepo.of_user. cbn. by rewrite !Z.eqb_refl.
Qed.

(** What stays of the history: the newest [n]. *)
Lemma recent_change t u n h rows :
  HistoryRepo.recent t u n (HistoryRepo.trim t u n (HistoryRepo.insert t u h rows)) = take n (h :: reverse (hashes_of t u rows)).
Proof.
  unfold HistoryRepo.recent, HistoryRepo.trim. set (rows' := HistoryRepo.insert t u h rows).
  set (k := length (filter _ rows')). fold (hashes_of t u (HistoryRepo.drop_user t u (k - n) rows')). rewrite hashes_drop.
  assert (k = length (hashes_of t u rows')) as -> by (unfold hashes_of; by rewrite length_fmap).
  subst rows'. rewrite hashes_insert. rewrite <- (reverse_snoc (hashes_of t u rows) h).
  generalize (hashes_of t u rows ++ [h]) as l. intros l. rewrite <- (take_drop (length l - n) l) at 3.
  rewrite reverse_app. destruct (decide (n <= length l)%nat) as [Hn|Hn].
  - rewrite take_app_le; [done|]. rewrite length_reverse, length_drop. lia.
  - replace (length l - n)%nat with 0%nat by lia. cbn. by rewrite app_nil_r.
Qed.
End rows.

Section reuse.
Context `{Valkey} `{Counters} `{UuidDisplay} `{KeyEncryptor} `{Geo} `{TextLib} `{CharLib} `{HasherLaws} `{!Serde SsoSession}.
Local Close Scope string_scope.
Implicit Types (st : Server).

Abbreviation set_pw := (fun now rnd breached => set_password now rnd breached no_directories).

Definition fresh (p h : string) : Prop := hasher_verify p h = Ok (mkPasswordVerification true false).

Lemma notify_frame s t u st : exists st', notify_password_changed s t u st = (Ok tt, st') /\ sv_users st' = sv_users st /\ sv_history st' = sv_history st.
Proof. unfold notify_password_changed, bind, gets. repeat case_match; eexists; by split_and!. Qed.

Lemma read_ok t p u o st row hist st1 :
  read_for_change t p u o st = (Ok (row, hist), st1) ->
  st1 = st /\ UserRepo.find_by_id t u (sv_users st) = Some row /\ ur_live row = true
  /\ hist = if negb (so_skip_policy o) && (0 <? pp_history p) then HistoryRepo.recent t u (Z.to_nat (pp_history p - 1)) (sv_history st) else [].
Proof.
  unfold read_for_change, bind, gets. destruct (UserRepo.find_by_id t u (sv_users st)) as [r|]; [|done].
  destruct (ur_live r) eqn:El; [|done]. intros [= <- <- <-]. by split_and!.
Qed.

Definition kept_history (p : PasswordPolicy) (t u : Uuid) (current : option string) (rows : list HistoryRow) : list HistoryRow :=
  match current with
  | Some old => if 1 <? pp_history p then HistoryRepo.trim t u (Z.to_nat (pp_history p - 1)) (HistoryRepo.insert t u old rows) else rows
  | None => rows
  end.

Lemma write_ok now t p u o row h st st' :
  UserRepo.find_by_id t u (sv_users st) = Some row ->
  write_change now t p u o row h st = (Ok tt, st') ->
  sv_users st' = (UserRepo.set_password now t u h hasher_algorithm (so_must_change o)
                    ((fun days => now + days * 86400000) <$> pp_max_age_days p) (sv_users st)).1
  /\ sv_history st' = kept_history p t u (ur_password_hash row) (sv_history st).
Proof.
  unfold write_change, bind, gets, kept_history. intros ->. destruct (ur_live row); [|done]. cbn [negb].
  rewrite bool_decide_eq_true_2 by done. cbn [negb]. destruct (ur_password_hash row); [destruct (1 <? pp_history p)|]; by intros [= <-].
Qed.

(** The run of a change that succeeded. *)
Lemma set_password_ok now rnd breached s t actor u pw o st st' :
  set_pw now rnd breached s t actor u pw o st = (Ok tt, st') ->
  exists row h, UserRepo.find_by_id t u (sv_users st) = Some row /\ ur_live row = true
    /\ checks_for_change breached (st_password s) o row
         (if negb (so_skip_policy o) && (0 <? pp_history (st_password s))
          then HistoryRepo.recent t u (Z.to_nat (pp_history (st_password s) - 1)) (sv_history st) else []) pw = Ok tt
    /\ fresh pw h
    /\ sv_users st' = (UserRepo.set_password now t u h hasher_algorithm (so_must_change o)
                        ((fun days => now + days * 86400000) <$> pp_max_age_days (st_password s)) (sv_users st)).1
    /\ sv_history st' = kept_history (st_password s) t u (ur_password_hash row) (sv_history st).
Proof.
  unfold set_password. intros Hr. apply bind_ok in Hr as (? & ? & [= <- <-] & Hr). apply bind_ok in Hr as ([row hist] & st1 & Hread & Hr).
  apply read_ok in Hread as (-> & Ef & El & ->).
  apply bind_ok in Hr as ([] & ? & [Hc ->]%lift_ok & Hr). apply bind_ok in Hr as (h & ? & [Hh ->]%lift_ok & Hr).
  apply bind_ok in Hr as ([] & st2 & Ht & Hr). apply bind_ok in Hr as (? & st3 & [= _ <-] & Hr).
  assert (sv_users st' = sv_users st2 /\ sv_history st' = sv_history st2) as [-> ->].
  { destruct (so_notify o); [|by injection Hr as <-].
    match type of Hr with notify_password_changed _ _ _ ?x = _ => destruct (notify_frame s t u x) as (st4 & E & ? & ?) end.
    rewrite Hr in E. by injection E as ->. }
  unfold transaction in Ht. destruct (write_change _ _ _ _ _ _ _ st) as [[[]|e] st4] eqn:Ew; [|done]. injection Ht as ->.
  apply write_ok in Ew as [-> ->]; [|done]. exists row, h. split_and!; try done.
  unfold hash_password in Hh. destruct (hasher_hash rnd pw) eqn:Eh; [|done]. cbn in Hh. simplify_eq. by eapply hash_verifies.
Qed.

Lemma set_password_err now rnd breached s t actor u pw o st e st' :
  set_pw now rnd breached s t actor u pw o st = (Err e, st') -> st' = st.
Proof.
  unfold set_password, bind, lift, transaction. cbn [dir_set_password no_directories ret].
  destruct (read_for_change _ _ _ _ st) as [[[row hist]|e1] st1] eqn:Er.
  - apply read_ok in Er as (-> & _). destruct (checks_for_change _ _ _ _ _ _); [|by intros [= _ <-]].
    destruct (hash_password _ _); [|by intros [= _ <-]]. destruct (write_change _ _ _ _ _ _ _ st) as [[[]|e2] st2]; [|by intros [= _ <-]].
    cbn. destruct (so_notify o); [|done]. match goal with |- notify_password_changed _ _ _ ?x = _ -> _ => destruct (notify_frame s t u x) as (? & -> & _) end. done.
  - intros [= _ <-]. unfold read_for_change, bind, gets, throw, ret in Er. repeat case_match; by simplify_eq.
Qed.

(** *** What a history of changes leaves *)

Inductive PwOp :=
| PwSet (rnd : list Z) (breached : string -> option (result unit Z)) (t : Uuid) (actor : Actor) (u : Uuid) (password : string) (o : SetPasswordOptions)
| PwTemp (rnd : list Z) (draws : nat -> Z) (t : Uuid) (actor : Actor) (u : Uuid)
| PwVerify (rnd : list Z) (t u : Uuid) (password : string).

(** What the directories of each tenant do; *)
Context (dirs : Uuid -> Directories).
(** the user's account is not in one of them: they leave its password to the
    server, and what they do for other accounts does not touch it. *)
Definition same_password (t u : Uuid) (st st' : Server) : Prop :=
  sv_history st' = sv_history st /\ UserRepo.find_by_id t u (sv_users st') = UserRepo.find_by_id t u (sv_users st).
Record local_account (t u : Uuid) : Prop := {
  la_own p actor pw o st : dir_set_password (dirs t) p actor u pw o st = (Ok false, st);
  la_set t' u' p actor pw o st r st' : dir_set_password (dirs t') p actor u' pw o st = (r, st') -> (t', u') <> (t, u) -> same_password t u st st';
  la_verify t' row pw st r st' : dir_verify_password (dirs t') row pw st = (r, st') -> same_password t u st st'
}.

(** The state, and the passwords the user had set so far, newest first. *)
Definition run_pw (s : Settings) (t u : Uuid) (acc : Server * list string) (e : Z * PwOp) : Server * list string :=
  let '(st, pws) := acc in
  let set rnd breached t' actor u' pw o :=
    let '(r, st') := set_password e.1 rnd breached (dirs t') s t' actor u' pw o st in
    (st', match r with Ok _ => if bool_decide ((t', u') = (t, u)) then pw :: pws else pws | Err _ => pws end) in
  match e.2 with
  | PwSet rnd breached t' actor u' pw o => set rnd breached t' actor u' pw o
  | PwTemp rnd draws t' actor u' => set rnd (fun _ => None) t' actor u' (temporary draws) (mkSetPasswordOptions true true false false)
  | PwVerify rnd t' u' pw =>
      match UserRepo.find_by_id t' u' (sv_users st) with
      | Some row => ((verify_and_upgrade e.1 rnd (dirs t') (st_password s) t' row pw st).2, pws)
      | None => acc
      end
  end.

Definition past (t u : Uuid) (st : Server) : list string := reverse (hashes_of t u (sv_history st)).
(** The newest password is the account's; the ones before are in the history,
    as far back as the policy looks. *)
Definition tracks (n : nat) (t u : Uuid) (pws : list string) (st : Server) : Prop :=
  (forall p, pws !! 0%nat = Some p -> exists r h, UserRepo.find_by_id t u (sv_users st) = Some r /\ ur_password_hash r = Some h /\ fresh p h)
  /\ (forall i p, (S i < n)%nat -> pws !! S i = Some p -> exists h, past t u st !! i = Some h /\ fresh p h).

Lemma at_row_apart t u t' u' r : (t', u') <> (t, u) -> UserRepo.at_row t' u' r = true -> UserRepo.at_row t u r = false.
Proof. unfold UserRepo.at_row. intros Hne Hr. destruct (_ && _) eqn:E in |- *; [|done]. bool_hyps. destruct Hne. congruence. Qed.

(** A statement on one user's row leaves the others'. *)
Lemma find_other t u t' u' (p : UserRow -> bool) f rows :
  (t', u') <> (t, u) -> (forall r, p r = true -> UserRepo.at_row t' u' r = true) -> (forall r, UserRepo.at_row t u (f r) = UserRepo.at_row t u r) ->
  UserRepo.find_by_id t u ((fun r => if p r then f r else r) <$> rows) = UserRepo.find_by_id t u rows.
Proof.
  intros Hne Hp Hf. unfold UserRepo.find_by_id. rewrite find_update by done. destruct (List.find _ rows) as [r|] eqn:E; [|done].
  apply find_some in E as [_ E]. cbn. destruct (p r) eqn:Er; [|done]. by rewrite (at_row_apart t u t' u') in E by auto.
Qed.

Lemma kept_other p t u t' u' cur rows : (t', u') <> (t, u) -> hashes_of t u (kept_history p t' u' cur rows) = hashes_of t u rows.
Proof.
  intros Hne. unfold kept_history. destruct cur; [|done]. destruct (1 <? pp_history p); [|done]. unfold HistoryRepo.trim.
  rewrite hashes_drop_other, hashes_insert_other; auto.
Qed.

Lemma tracks_set now rnd breached s t actor u pw o st st' t0 u0 pws :
  tracks (Z.to_nat (pp_history (st_password s))) t0 u0 pws st ->
  set_pw now rnd breached s t actor u pw o st = (Ok tt, st') ->
  tracks (Z.to_nat (pp_history (st_password s))) t0 u0 (if bool_decide ((t, u) = (t0, u0)) then pw :: pws else pws) st'.
Proof.
  set (p := st_password s). intros [Hc Hp] Hs. apply set_password_ok in Hs as (row & h & Ef & El & _ & Hh & Eu & Eh).
  fold p in Eu, Eh.
  case_bool_decide as Ee; [injection Ee as -> ->|].
  - split.
    + intros p0 [= <-]. rewrite Eu. unfold UserRepo.set_password, AppState.update. cbn [fst].
      unfold UserRepo.find_by_id in *. rewrite find_update, Ef by done. cbn. apply find_some in Ef as [_ Ha]. rewrite Ha, El.
      eexists _, h. by split_and!.
    + intros i p0 Hi Hp0. cbn in Hp0. unfold past. rewrite Eh.
      assert (exists old, ur_password_hash row = Some old /\ (i = 0%nat -> fresh p0 old)) as (old & Eo & Hold).
      { destruct pws as [|p1 pws]; [by destruct i|]. destruct (Hc p1 eq_refl) as (r & h1 & Er & Eh1 & Hf1).
        rewrite Ef in Er. injection Er as <-. exists h1. split; [done|]. intros ->. cbn in Hp0. by injection Hp0 as <-. }
      rewrite Eo. unfold kept_history. rewrite (proj2 (Z.ltb_lt 1 (pp_history p))) by lia.
      pose proof (recent_change t0 u0 (Z.to_nat (pp_history p - 1)) old (sv_history st)) as Hrc. unfold HistoryRepo.recent in Hrc.
      fold (hashes_of t0 u0) in Hrc. change (ph_hash <$> filter (fun r => HistoryRepo.of_user t0 u0 r = true) ?x) with (hashes_of t0 u0 x) in Hrc.
      assert (forall l l' : list string, forall n j, take n l = take n l' -> (j < n)%nat -> l !! j = l' !! j) as Htake.
      { intros l l' n j E Hj. rewrite <- (lookup_take_lt l n j Hj), E. by apply lookup_take_lt. }
      rewrite (Htake _ _ (Z.to_nat (pp_history p - 1)) i Hrc) by lia. destruct i as [|i]; [by exists old; auto|].
      cbn. apply Hp; [lia|done].
  - split.
    + intros p0 Hp0. destruct (Hc p0 Hp0) as (r & h1 & Er & ? & ?). exists r, h1. split_and!; [|done..]. rewrite Eu.
      unfold UserRepo.set_password, AppState.update. cbn [fst]. rewrite (find_other _ _ t u); [done|done| |done].
      intros r'. by intros [? _]%andb_prop.
    + intros i p0 Hi Hp0. unfold past. rewrite Eh, kept_other by done. by apply Hp.
Qed.

(** A change of a password the directory leaves to the server. *)
Lemma set_password_split now rnd breached dir s t actor u pw o st :
  set_password now rnd breached dir s t actor u pw o st
  = match dir_set_password dir (st_password s) actor u pw o st with
    | (Ok true, st1) => (Ok tt, st1)
    | (Ok false, st1) => set_pw now rnd breached s t actor u pw o st1
    | (Err e, st1) => (Err e, st1)
    end.
Proof. unfold set_password, bind at 1. by destruct (dir_set_password dir _ _ _ _ _ st) as [[[]|e] st1]. Qed.
Lemma tracks_same n t u pws st st' : same_password t u st st' -> tracks n t u pws st -> tracks n t u pws st'.
Proof. unfold tracks, past. by intros [-> ->]. Qed.

Lemma verify_frame now rnd p t row pw st :
  sv_history (verify_and_upgrade now rnd no_directories p t row pw st).2 = sv_history st
  /\ (sv_users (verify_and_upgrade now rnd no_directories p t row pw st).2 = sv_users st
      \/ exists h stored, ur_password_hash row = Some stored /\ hasher_verify pw stored = Ok (mkPasswordVerification true true)
           /\ sv_users (verify_and_upgrade now rnd no_directories p t row pw st).2
              = (fun r => if UserRepo.at_row t (ur_id row) r then with_hash now h hasher_algorithm r else r) <$> sv_users st).
Proof.
  unfold verify_and_upgrade. destruct (ur_password_hash row) as [stored|]; [|by split; [|left]].
  unfold verify_password. destruct (hasher_verify pw stored) as [[[] []]|[]] eqn:Ev; cbn; try by split; [|left].
  unfold upgrade, bind, lift. destruct (hash_password rnd pw) as [h|]; [|by split; [|left]]. cbn. split; [done|]. right.
  by exists h, stored.
Qed.

Lemma tracks_verify n now rnd p t u row pw st t0 u0 pws :
  tracks n t0 u0 pws st -> UserRepo.find_by_id t u (sv_users st) = Some row ->
  tracks n t0 u0 pws (verify_and_upgrade now rnd no_directories p t row pw st).2.
Proof.
  intros [Hc Hp] Ef. destruct (verify_frame now rnd p t row pw st) as [Eh Eu]. split.
  - intros p0 Hp0. destruct (Hc p0 Hp0) as (r & h & Er & Ehr & Hf). destruct Eu as [-> |(h' & stored & Es & Hv & ->)]; [by exists r, h|].
    pose proof Ef as Hat. apply find_some in Hat as [_ Hat]. unfold UserRepo.at_row in Hat. apply andb_prop in Hat as [_ Hid%Z.eqb_eq].
    destruct (decide ((t, u) = (t0, u0))) as [[= -> ->]|Hne].
    + rewrite Ef in Er. injection Er as ->. rewrite Es in Ehr. injection Ehr as ->. unfold fresh in Hf.
      by pose proof (rehash_of_stored _ _ _ _ _ Hf Hv).
    + exists r, h. split_and!; [|done..]. rewrite (find_other _ _ t (ur_id row)); [done| |done|done]. rewrite Hid. done.
  - intros i p0 Hi Hp0. unfold past. rewrite Eh. by apply Hp.
Qed.

(** One more change of a password, of this user or another. *)
Lemma tracks_step now rnd breached s t' actor u' pw o st t u pws :
  local_account t u -> tracks (Z.to_nat (pp_history (st_password s))) t u pws st ->
  let '(r, st') := set_password now rnd breached (dirs t') s t' actor u' pw o st in
  tracks (Z.to_nat (pp_history (st_password s))) t u
    (match r with Ok _ => if bool_decide ((t', u') = (t, u)) then pw :: pws else pws | Err _ => pws end) st'.
Proof.
  intros Hl Ht. rewrite set_password_split.
  assert (exists r1 st1, dir_set_password (dirs t') (st_password s) actor u' pw o st = (r1, st1)
    /\ tracks (Z.to_nat (pp_history (st_password s))) t u pws st1 /\ ((t', u') = (t, u) -> r1 = Ok false)) as (r1 & st1 & E1 & Ht1 & Hown).
  { destruct (decide ((t', u') = (t, u))) as [[= -> ->]|Hne]; [exists (Ok false), st; by rewrite la_own|].
    destruct (dir_set_password _ _ _ _ _ _ st) as [r1 st1] eqn:E1. exists r1, st1. split; [done|]. split; [|done].
    eapply tracks_same; [|done]. by eapply la_set. }
  rewrite E1. destruct r1 as [[]|e]; [case_bool_decide as Hb; [by specialize (Hown Hb)|done]| |done].
  cbv beta. destruct (set_password now rnd breached no_directories s t' actor u' pw o st1) as [[[]|e] st'] eqn:E.
  - by eapply tracks_set.
  - by apply set_password_err in E as ->.
Qed.
Lemma tracks_verify_any n now rnd p t' u' row pw st t u pws :
  local_account t u -> tracks n t u pws st -> UserRepo.find_by_id t' u' (sv_users st) = Some row ->
  tracks n t u pws (verify_and_upgrade now rnd (dirs t') p t' row pw st).2.
Proof.
  intros Hl Ht Hf. destruct (ur_password_hash row) as [h|] eqn:Eh.
  - assert (verify_and_upgrade now rnd (dirs t') p t' row pw st = verify_and_upgrade now rnd no_directories p t' row pw st) as ->
      by (unfold verify_and_upgrade; by rewrite Eh). by eapply tracks_verify.
  - unfold verify_and_upgrade, bind. rewrite Eh. destruct (dir_verify_password _ _ _ st) as [r st1] eqn:E.
    eapply tracks_same in Ht; [|by eapply la_verify]. by destruct r.
Qed.

Lemma tracks_run s t u ops : local_account t u -> forall st pws,
  tracks (Z.to_nat (pp_history (st_password s))) t u pws st ->
  let '(st', pws') := foldl (run_pw s t u) (st, pws) ops in tracks (Z.to_nat (pp_history (st_password s))) t u pws' st'.
Proof.
  intros Hl. induction ops as [|[now op] ops IH]; intros st pws Ht; [done|]. cbn [foldl].
  destruct op as [rnd breached t' actor u' pw o|rnd draws t' actor u'|rnd t' u' pw]; cbn [run_pw fst snd].
  - pose proof (tracks_step now rnd breached s t' actor u' pw o st t u pws Hl Ht) as Hs.
    destruct (set_password _ _ _ _ _ _ _ _ _ _ st) as [r st']. by apply IH.
  - pose proof (tracks_step now rnd (fun _ => None) s t' actor u' (temporary draws) (mkSetPasswordOptions true true false false) st t u pws Hl Ht) as Hs.
    destruct (set_password _ _ _ _ _ _ _ _ _ _ st) as [r st']. by apply IH.
  - destruct (UserRepo.find_by_id t' u' (sv_users st)) as [row|] eqn:Ef; [|by apply IH]. apply IH. by eapply tracks_verify_any.
Qed.

(** C17: the reuse rule holds over any history, for an account whose password
    the server keeps (one that is not in a user directory: a writable
    directory's passwords are not held against the history): after any changes
    of passwords by users and administrators, temporary ones included, and any
    sign-ins, a user who must satisfy the policy cannot set any of the last
    [history] passwords the account had, the current one included. *)
Theorem reuse_refused s t u st0 ops now rnd breached actor pw o :
  local_account t u ->
  so_skip_policy o = false ->
  pw ∈ take (Z.to_nat (pp_history (st_password s))) (foldl (run_pw s t u) (st0, []) ops).2 ->
  exists e, set_password now rnd breached (dirs t) s t actor u pw o (foldl (run_pw s t u) (st0, []) ops).1
            = (Err e, (foldl (run_pw s t u) (st0, []) ops).1).
Proof.
  intros Hl Ho. pose proof (tracks_run s t u ops Hl st0 [] ltac:(by split)) as Ht. destruct (foldl _ _ _) as [st pws].
  cbn [fst snd]. intros (i & Hi)%list_elem_of_lookup. apply lookup_take_Some in Hi as [Hi Hlt]. rewrite set_password_split, la_own by done.
  destruct (set_password now rnd breached no_directories s t actor u pw o st) as [[[]|e] st'] eqn:E; swap 1 2.
  { exists e. pose proof (set_password_err _ _ _ _ _ _ _ _ _ _ _ _ E) as ->. done. }
  exfalso. apply set_password_ok in E as (row & h & Ef & El & Hc & _). set (p := st_password s) in *.
  assert (0 < pp_history p) as Hpos by lia. unfold checks_for_change in Hc. rewrite Ho in Hc. cbn [negb andb] in Hc.
  rewrite (proj2 (Z.ltb_lt _ _) Hpos) in Hc. destruct (policy_checks _ _ _ _); [|done]. cbn in Hc.
  assert (reused p (HistoryRepo.recent t u (Z.to_nat (pp_history p - 1)) (sv_history st)) (ur_password_hash row) pw = true) as Hre;
    [|by rewrite Hre in Hc].
  unfold reused. apply existsb_exists. destruct Ht as [Hcur Hpast]. destruct i as [|i].
  - destruct (Hcur pw Hi) as (r & h1 & Er & Eh1 & Hf). rewrite Ef in Er. injection Er as ->. exists h1. rewrite Eh1. split.
    + apply in_app_iff. right. by left.
    + unfold verify_password. rewrite Hf. done.
  - destruct (Hpast i pw Hlt Hi) as (h1 & Hlook & Hf). exists h1. split.
    + apply in_app_iff. left. apply list_elem_of_In. unfold HistoryRepo.recent. fold (hashes_of t u (sv_history st)).
      fold (past t u st). eapply list_elem_of_lookup_2. apply lookup_take_Some. split; [exact Hlook|lia].
    + unfold verify_password. rewrite Hf. done.
Qed.
End reuse.

(** ** A sign-in may undo a change *)

Section stale.
Context `{Valkey} `{Counters} `{UuidDisplay} `{KeyEncryptor} `{Geo} `{TextLib} `{CharLib} `{HasherLaws} `{!Serde SsoSession}.

(** the upgrade of an old hash is written without looking at the hash the
    account has by then: a sign-in that read the account before its password
    was changed, and verified the old password, puts the old password back,
    whatever the account's password is when it writes. *)
Theorem stale_upgrade_restores now rnd dir p t old pw stored h st cur :
  ur_password_hash old = Some stored -> hasher_verify pw stored = Ok (mkPasswordVerification true true) ->
  hasher_hash rnd pw = Ok h -> UserRepo.find_by_id t (ur_id old) (sv_users st) = Some cur ->
  exists must st' row, verify_and_upgrade now rnd dir p t old pw st = (Ok (PwValid must), st')
    /\ UserRepo.find_by_id t (ur_id old) (sv_users st') = Some row /\ ur_password_hash row = Some h
    /\ hasher_verify pw h = Ok (mkPasswordVerification true false).
Proof.
  intros Hs Hv Hh Hc. unfold verify_and_upgrade, verify_password. rewrite Hs, Hv. cbn [map_err pv_valid negb pv_needs_rehash].
  unfold upgrade, hash_password, bind, lift. rewrite Hh. cbn.
  eexists _, _, (with_hash now h hasher_algorithm cur). split; [done|]. cbn. unfold AppState.update, UserRepo.find_by_id in *. cbn [fst].
  rewrite find_update, Hc by done. apply find_some in Hc as [_ Hat]. cbn. rewrite Hat. split_and!; [done..|]. by eapply hash_verifies.
Qed.
End stale.

(** ** Example *)

Section example.
Local Open Scope string_scope.
(** Hashes are written out: [h] for a current one, [x] for an imported one. *)
Definition pw_hasher : PasswordHasher := {|
  hasher_algorithm := "plain";
  hasher_hash _ p := Ok ("h" ++ p);
  hasher_verify p h :=
    if String.eqb h ("h" ++ p) then Ok (mkPasswordVerification true false)
    else if String.eqb h ("x" ++ p) then Ok (mkPasswordVerification true true) else Ok (mkPasswordVerification false false)
|}.
Lemma pw_laws : @HasherLaws pw_hasher.
Proof.
  split.
  - intros rnd p h [= <-]. cbn. by rewrite String.eqb_refl.
  - intros p p' h b b'. cbn.
    destruct (String.eqb_spec h ("h" ++ p)) as [E1|], (String.eqb_spec h ("x" ++ p)) as [E2|], (String.eqb_spec h ("h" ++ p')) as [E3|],
      (String.eqb_spec h ("x" ++ p')) as [E4|]; intros [= <-] [= <-]; try done; subst h; discriminate.
Qed.
Definition pw_chars : CharLib := {| is_uppercase _ := true; is_lowercase _ := true; is_alphanumeric _ := true |}.
#[local] Existing Instances ot_valkey map_valkey_laws map_counters toy_uuid mf_encryptor pf_lib ot_geo ot_session pw_hasher pw_laws pw_chars.

Definition pw_own : SetPasswordOptions := mkSetPasswordOptions false false true false.
Definition pw_none (_ : string) : option (result unit Z) := None.
Definition pw_ops : list (Z * PwOp) :=
  [(1000%Z, PwSet [] pw_none 1 (ActUser 5) 5 "correct-1" pw_own); (2000%Z, PwVerify [] 1 5 "correct-1");
   (3000%Z, PwTemp [] (fun _ => 0%Z) 1 (ActAdmin 9) 5); (4000%Z, PwSet [] pw_none 1 (ActUser 5) 5 "correct-2" pw_own)].
(** A directory that has other accounts, and answers for them. *)
Definition pw_directories (_ : Uuid) : Directories :=
  mkDirectories (fun _ _ u _ _ => ret (negb (u =? 5)%Z)) (fun _ _ => ret None) (fun _ _ => ret None) (fun u => ret (negb (u =? 5)%Z)).
Abbreviation pw_run := (foldl (run_pw pw_directories ot_policy 1 5) (ot_empty, []) pw_ops).
Example pw_run_passwords : pw_run.2 = ["correct-2"; "AAAAAAAA-AAAAAAAA-AAAAAAAA"; "correct-1"].
Proof. vm_compute. reflexivity. Qed.
Example pw_fourth_allowed :
  (set_password 5000 [] pw_none no_directories ot_policy 1 (ActUser 5) 5 "correct-3" pw_own pw_run.1).1 = Ok tt.
Proof. vm_compute. reflexivity. Qed.

Lemma reuse_refused_witness :
  exists e, set_password 5000 [] pw_none (pw_directories 1) ot_policy 1 (ActUser 5) 5 "correct-1" pw_own pw_run.1 = (Err e, pw_run.1).
Proof.
  apply (reuse_refused pw_directories ot_policy 1 5 ot_empty pw_ops 5000 [] pw_none (ActUser 5) "correct-1" pw_own); [|reflexivity|].
  - split; [done|by intros t' u' p actor pw o st r st' [= <- <-]|by intros t' row pw st r st' [= <- <-]].
  - rewrite pw_run_passwords. cbn. set_solver.
Defined.

(** Bo's hash came from an import; the account is read, the password changed,
    and then the sign-in goes on. *)
Definition pw_old : UserRow := us_user 5 "bo" (Some "bo@example.com").
Definition pw_read : UserRow := with_hash 0 "xold-1" "sha256" pw_old.
Definition pw_changed : Server := (set_password 1000 [] pw_none no_directories ot_policy 1 (ActUser 5) 5 "correct-2" pw_own ot_empty).2.
Lemma stale_upgrade_restores_witness :
  exists must st' row, verify_and_upgrade 2000 [] no_directories (st_password ot_policy) 1 pw_read "old-1" pw_changed = (Ok (PwValid must), st')
    /\ UserRepo.find_by_id 1 5 (sv_users st') = Some row /\ ur_password_hash row = Some "hold-1"
    /\ hasher_verify "old-1" "hold-1" = Ok (mkPasswordVerification true false).
Proof.
  apply (stale_upgrade_restores 2000 [] no_directories (st_password ot_policy) 1 pw_read "old-1" "xold-1" "hold-1" pw_changed
           (match UserRepo.find_by_id 1 5 (sv_users pw_changed) with Some r => r | None => pw_old end)).
  - reflexivity.
  - reflexivity.
  - reflexivity.
  - vm_compute. reflexivity.
Defined.

(** Base64 stood for by a run of letters. *)
Definition pw_text (l : list Z) : string := String.concat "" (replicate (Pos.to_nat (encode l)) "A").
Definition pw_bytes (s : string) : option (list Z) := decode (Pos.of_nat (String.length s)).
Definition pw_lib : HashLib := {|
  phc_parse _ := None; argon2_verify _ _ _ := None; argon2_hash _ _ _ := None; argon2_params_ok _ := true;
  bcrypt_verify _ _ := None; pbkdf2_derive _ rounds salt pw n := take n (pw ++ replicate n rounds); digest _ l := l;
  b64_standard _ := None; b64_standard_no_pad := pw_bytes; b64_url_no_pad _ := None; b64_standard_no_pad_encode := pw_text;
  hex_decode _ := None
|}.
Lemma pw_run_of_letters n : String.length (String.concat "" (replicate n "A")) = n
  /\ str_split_once "$" (String.concat "" (replicate n "A")) = None.
Proof.
  induction n as [|n [IH1 IH2]]; [done|]. cbn [replicate].
  assert (String.concat "" ("A" :: replicate n "A") = String "A" (String.concat "" (replicate n "A"))) as -> by (by destruct n).
  cbn [String.length str_split_once]. rewrite IH1, IH2. done.
Qed.
Lemma pw_lib_laws : @HashLibLaws pw_lib.
Proof.
  split.
  - done.
  - intros alg rounds salt pw n. cbn. rewrite length_take, length_app, length_replicate. lia.
  - intros l. apply pw_run_of_letters.
  - by left.
  - intros l. cbn. unfold pw_bytes, pw_text. rewrite (proj1 (pw_run_of_letters _)), Pos2Nat.id. apply decode_encode.
Qed.
Lemma pbkdf2_round_trip_witness :
  match @hasher_hash (@pbkdf2_hasher pw_lib 600000 false (mkArgon2Params 1 1 1)) [1%Z] "correct-1" with
  | Ok h => @hasher_verify (@pbkdf2_hasher pw_lib 600000 false (mkArgon2Params 1 1 1)) "correct-1" h = Ok (mkPasswordVerification true false)
  | Err _ => False
  end.
Proof.
  destruct (@hasher_hash _ [1%Z] "correct-1") as [h|e] eqn:E; [|discriminate E].
  apply (@pbkdf2_round_trip pw_lib pw_lib_laws 600000 false (mkArgon2Params 1 1 1) [1%Z] "correct-1" h); [done|exact E].
Defined.
End example.
