(* ===== verification/SelfService.v ===== *)
(** * Registration, recovery, contact changes

    [api/src/services/registration.rs] (self-registration and the link that
    verifies the address), [services/recovery.rs] (password reset by link) and
    [services/contact_changes.rs] (the address or number of one's own account,
    changed with a code). The negotiated locale of a new account is an
    argument, and messages carry their secret instead of their text. *)

From Stdlib Require Import Ascii.
From stdpp Require Import gmap strings.
From S2P Require Import Prelude Effects Utf8 Valkey AppState Sessions RefreshTokens DeviceCodes KeyCustody Credentials Totp Mfa.
From S2P Require Import ApiErrors Models Profile Users Server Otp Passwords.

(** ** Names of keys *)

Section keys.
Context `{UuidDisplay}.
Local Open Scope string_scope.
Definition email_verification (tenant : Uuid) (token_hash : string) : string :=
  PREFIX ++ ":t:" ++ uuid_str tenant ++ ":verify:" ++ token_hash.
Definition password_reset (tenant : Uuid) (token_hash : string) : string :=
  PREFIX ++ ":t:" ++ uuid_str tenant ++ ":reset:" ++ token_hash.
Definition contact_change (tenant user : Uuid) (channel : string) : string :=
  PREFIX ++ ":t:" ++ uuid_str tenant ++ ":user:" ++ uuid_str user ++ ":contact:" ++ channel ++ ":pending".
Definition contact_change_code (tenant user : Uuid) (channel : string) : string :=
  PREFIX ++ ":t:" ++ uuid_str tenant ++ ":user:" ++ uuid_str user ++ ":contact:" ++ channel ++ ":code".
Definition contact_change_cooldown (tenant user : Uuid) (channel : string) : string :=
  PREFIX ++ ":t:" ++ uuid_str tenant ++ ":user:" ++ uuid_str user ++ ":contact:" ++ channel ++ ":cooldown".
End keys.

(** ** Data *)

Definition VERIFICATION_TTL_SECS : Z := 24 * 60 * 60.
Definition RESET_TTL_SECS : Z := 60 * 60.

Record RegistrationInput := mkRegistrationInput {
  ri_username : option string;
  ri_email : string;
  ri_password : option string;
  ri_attributes : option Value;
  ri_terms_accepted : bool
}.
Record VerificationRecord := mkVerificationRecord { vr_user_id : Uuid; vr_flow_id : option Uuid }.
Record Confirmed := mkConfirmed { cf_user : UserRow; cf_flow_id : option Uuid }.

Section self_service.
Context `{Valkey} `{Counters} `{UuidDisplay} `{KeyEncryptor} `{Geo} `{TextLib} `{CharLib} `{PasswordHasher}.
Context `{!Serde SsoSession} `{!Serde OtpRecord} `{!Serde PendingOtp} `{!Serde VerificationRecord} `{!Serde Uuid} `{!Serde ()}.
Context (sha256 : list Z -> list Z) (b64 : list Z -> string).
Local Open Scope string_scope.

(** ** Registration *)

(** [email.rsplit('@').next()]. *)
Definition domain_of (email : string) : string := match str_rsplit_once "@" email with Some (_, d) => d | None => email end.
(** [str::eq_ignore_ascii_case]. *)
Definition lower_ascii (c : ascii) : ascii :=
  let n := Z.of_N (N_of_ascii c) in if (65 <=? n)%Z && (n <=? 90)%Z then ascii_of_N (Z.to_N (n + 32)) else c.
Fixpoint eq_ignore_ascii_case (a b : string) : bool :=
  match a, b with
  | EmptyString, EmptyString => true
  | String x a, String y b => Ascii.eqb (lower_ascii x) (lower_ascii y) && eq_ignore_ascii_case a b
  | _, _ => false
  end.

(** [check_policy]. *)
Definition check_registration (s : Settings) (i : RegistrationInput) : result ApiError unit :=
  let p := st_registration s in
  if negb (rg_enabled p) then Err (Forbidden "self-registration is disabled for this tenant")
  else
    let email := to_lowercase (trim_str (ri_email i)) in
    if negb (bool_decide (allowed_email_domains p = []))
       && negb (existsb (fun d => eq_ignore_ascii_case d (domain_of email)) (allowed_email_domains p))
    then Err (InvalidFields [mkFieldError "email" "email domain is not allowed to register"])
    else if require_terms p && negb (ri_terms_accepted i)
    then Err (InvalidFields [mkFieldError "terms_accepted" "the terms must be accepted"])
    else if am_password (st_auth s) && String.eqb (default "" (ri_password i)) ""
    then Err (InvalidFields [mkFieldError "password" "password is required"])
    else Ok tt.

(** [send_verification]; [bytes] are the token's. *)
Definition send_verification (now : Z) (bytes : list Z) (provider : result ApiError unit) (tenant : Uuid) (user : UserRow)
    (flow : option Uuid) : M Server ApiError unit :=
  match ur_email user with
  | None => throw (BadRequest "user has no email address")
  | Some email =>
      let token := b64 bytes in
      do! r_set now (email_verification tenant (otp_hash sha256 b64 token)) (mkVerificationRecord (ur_id user) flow)
            VERIFICATION_TTL_SECS in
      deliver provider (mkMessage tenant ChEmail "verify_email" email token)
  end.

(** Where the username comes from. *)
Definition chosen_username (i : RegistrationInput) (email : string) : result ApiError string :=
  match trim_str <$> ri_username i with
  | Some (String _ _ as u) => normalize_username u
  | _ => Ok email
  end.
Definition in_use_email (e : ApiError) : ApiError :=
  match e with ApiConflict _ => ApiConflict "an account with this email or username already exists" | e => e end.
Definition run_mapped {A} (f : ApiError -> ApiError) (m : M Server ApiError A) : M Server ApiError A := fun st =>
  let '(r, st) := m st in (map_err f r, st).

(** A password that cannot be set takes the new account with it. *)
Definition set_first_password (now : Z) (rnd : list Z) (breached : string -> option (result unit Z)) (dir : Directories)
    (s : Settings) (tenant user : Uuid) (password : string) : M Server ApiError unit := fun st =>
  match set_password now rnd breached dir s tenant (ActUser user) user password (mkSetPasswordOptions false false true false) st with
  | (Ok _, st) => (Ok tt, st)
  | (Err e, st) => (Err e, sv_with_users st (UserRepo.hard_delete tenant user (sv_users st)))
  end.

Definition register (now : Z) (id : Uuid) (bytes rnd : list Z) (provider : result ApiError unit)
    (breached : string -> option (result unit Z)) (dir : Directories) (locale : string) (s : Settings) (tenant : Uuid)
    (i : RegistrationInput) (flow : option Uuid) : M Server ApiError (UserRow * bool) :=
  do! lift (check_registration s i) in
  let! email := lift (normalize_email (ri_email i)) in
  let! username := lift (chosen_username i email) in
  let needs_verification := require_email_verification (st_registration s) in
  let! user := run_mapped in_use_email (on_accounts (create now id tenant ActSystem
    (mkNewUser username (Some email) false None false (Some (if needs_verification then UPending else UActive)) (ri_attributes i)
       (Some locale) None None false))) in
  do! match ri_password i with
      | Some (String _ _ as pw) => set_first_password now rnd breached dir s tenant id pw
      | _ => ret tt
      end in
  do! (if ri_terms_accepted i
       then modify (fun st => sv_with_users st (UserRepo.set_terms_accepted now tenant id (sv_users st)).1) else ret tt) in
  do! (if needs_verification then send_verification now bytes provider tenant user flow else ret tt) in
  do! sv_publish tenant (ActUser id) (UserRegistered id (negb needs_verification)) in
  let! user := on_accounts (get_user tenant id) in
  ret (user, needs_verification).

(** [confirm]: the link was opened. *)
Definition verified_patch (r : UserRow) : UserUpdate :=
  mkUserUpdate None None (Some true) None None (Some (if bool_decide (ur_status r = UPending) then UActive else ur_status r)) None
    None None None None.
Definition update_or_db (now : Z) (tenant id : Uuid) (p : UserUpdate) : M Server ApiError (option UserRow) := fun st =>
  match UserRepo.update now tenant id p (sv_users st) with
  | Some (row, rows) => (Ok row, sv_with_users st rows)
  | None => (Err (DatabaseError ""), st)
  end.
Definition confirm (now : Z) (tenant : Uuid) (token : string) : M Server ApiError Confirmed :=
  do! guard (String.eqb token "" || (128 <? Z.of_nat (String.length token))%Z) (ApiNotFound "verification token") in
  let! rec := (fun st =>
    let '(r, db) := vgetdel now (email_verification tenant (otp_hash sha256 b64 token)) (sv_redis st) in
    (ok_or (r ≫= from_json) (ApiNotFound "verification token"), sv_with_redis st db)) in
  let rec := rec : VerificationRecord in
  let! row := gets (fun st => UserRepo.find_by_id tenant (vr_user_id rec) (sv_users st)) in
  match row with
  | Some r =>
      if negb (ur_live r) then throw (ApiNotFound "user")
      else
        let! user := update_or_db now tenant (ur_id r) (verified_patch r) in
        let! user := lift (ok_or user (ApiNotFound "user")) in
        do! sv_publish tenant (ActUser (ur_id user)) (EmailVerified (ur_id user)) in
        ret (mkConfirmed user (vr_flow_id rec))
  | None => throw (ApiNotFound "user")
  end.

(** ** Recovery *)

Definition request_password_reset (now : Z) (bytes : list Z) (provider : result ApiError unit) (tenant : Uuid) (identifier : string)
    : M Server ApiError unit :=
  let identifier := to_lowercase (trim_str identifier) in
  do! guard (String.eqb identifier "") (BadRequest "identifier is required") in
  do! check_send_limit now tenant ("reset:" ++ identifier) in
  let! user := on_accounts (find_by_identifier tenant identifier) in
  match user with
  | None => ret tt
  | Some user =>
      match ur_email user with
      | None => ret tt
      | Some email =>
          if bool_decide (ur_status user = UDisabled) then ret tt
          else
            do! check_send_limit now tenant ("reset:user:" ++ uuid_str (ur_id user)) in
            let token := b64 bytes in
            do! r_set now (password_reset tenant (otp_hash sha256 b64 token)) (ur_id user) RESET_TTL_SECS in
            do! deliver provider (mkMessage tenant ChEmail "password_reset" email token) in
            sv_publish tenant ActSystem (PasswordResetRequested (ur_id user))
      end
  end.

Definition reset_patch : UserUpdate := mkUserUpdate None None (Some true) None None None None None None None None.
(** Unlock, and the address counts as proved. *)
Definition after_reset (now : Z) (tenant user : Uuid) : M Server ApiError unit :=
  do! modify (fun st => sv_with_users st (UserRepo.unlock now tenant user (sv_users st)).1) in
  let! _ := update_or_db now tenant user reset_patch in
  ret tt.
Definition complete_password_reset (now : Z) (rnd : list Z) (breached : string -> option (result unit Z)) (dir : Directories)
    (acting : option Uuid) (s : Settings) (tenant : Uuid) (token password : string) : M Server ApiError UserRow :=
  do! guard (String.eqb token "" || (128 <? Z.of_nat (String.length token))%Z) (ApiNotFound "reset token") in
  let key := password_reset tenant (otp_hash sha256 b64 token) in
  let! raw_ := gets (fun st => load_json now key (sv_redis st) : option Uuid) in
  let! user := lift (ok_or raw_ (ApiNotFound "reset token")) in
  do! set_password now rnd breached dir s tenant (ActUser user) user password (mkSetPasswordOptions false false true true) in
  do! r_del now key in
  do! transaction (after_reset now tenant user) in
  do! modify (fun st => sv_with_app st (end_sessions_for_user now acting (st_session s) (sv_app st) tenant user None).2) in
  do! modify (fun st => sv_with_app st (revoke_for_user now (sv_app st) tenant (ActUser user) user None).2) in
  do! sv_publish tenant (ActUser user) (PasswordResetCompleted user) in
  on_accounts (get_user tenant user).

Definition resend_verification (now : Z) (bytes : list Z) (provider : result ApiError unit) (tenant : Uuid) (identifier : string)
    : M Server ApiError unit :=
  let identifier := to_lowercase (trim_str identifier) in
  do! guard (String.eqb identifier "") (BadRequest "identifier is required") in
  do! check_send_limit now tenant ("verify:" ++ identifier) in
  let! user := on_accounts (find_by_identifier tenant identifier) in
  match user with
  | None => ret tt
  | Some user =>
      if u_email_verified (ur_user user) || bool_decide (ur_email user = None) || bool_decide (ur_status user = UDisabled) then ret tt
      else send_verification now bytes provider tenant user None
  end.

(** ** Contact changes *)

Inductive Contact := CEmail | CPhone.
Definition contact_str (c : Contact) : string := match c with CEmail => "email" | CPhone => "phone" end.
Definition contact_channel (c : Contact) : Channel := match c with CEmail => ChEmail | CPhone => ChSms end.
Definition normalize_contact (c : Contact) (raw_ : string) : result ApiError string :=
  let value := trim_str raw_ in
  map_err (fun e => match e with BadRequest m => InvalidFields [mkFieldError (contact_str c) m] | e => e end)
    (match c with CEmail => normalize_email value | CPhone => normalize_phone value end).
Definition load_pending (now : Z) (tenant user : Uuid) (c : Contact) (st : Server) : option string :=
  po_destination <$> load_json now (contact_change tenant user (contact_str c)) (sv_redis st).
Definition cancel_contact (now : Z) (tenant user : Uuid) (c : Contact) : M Server ApiError unit :=
  do! r_del now (contact_change tenant user (contact_str c)) in
  do! r_del now (contact_change_code tenant user (contact_str c)) in
  r_del now (contact_change_cooldown tenant user (contact_str c)).

(** [directory]: what [ldap::check_profile_change] answers for the address. *)
Definition begin_contact (now : Z) (bytes : list Z) (provider : result ApiError unit) (directory : string -> result ApiError unit)
    (tenant : Uuid) (user : UserRow) (c : Contact) (raw_ : string) : M Server ApiError Sent :=
  let! destination := lift (normalize_contact c raw_) in
  do! guard (match c with
             | CEmail => bool_decide (ur_email user = Some destination) && u_email_verified (ur_user user)
             | CPhone => bool_decide (u_phone (ur_user user) = Some destination) && u_phone_verified (ur_user user)
             end) (InvalidFields [mkFieldError (contact_str c) "is already the verified one on the account"]) in
  do! match c with
      | CEmail =>
          do! lift (directory destination) in
          let! other := gets (fun st => List.find (fun r => (ur_tenant_id r =? tenant)%Z && bool_decide (ur_email r = Some destination)
                                                            && ur_live r) (sv_users st)) in
          guard (match other with Some r => negb (ur_id r =? ur_id user)%Z | None => false end) (ApiConflict "email address already in use")
      | CPhone => ret tt
      end in
  let pending_key := contact_change tenant (ur_id user) (contact_str c) in
  let code_key := contact_change_code tenant (ur_id user) (contact_str c) in
  let cooldown_key := contact_change_cooldown tenant (ur_id user) (contact_str c) in
  let! previous := gets (fun st => load_json now pending_key (sv_redis st) : option PendingOtp) in
  do! match previous with
      | Some prev =>
          if negb (String.eqb (po_destination prev) destination) then do! r_del now code_key in r_del now cooldown_key else ret tt
      | None => ret tt
      end in
  do! r_set now pending_key (mkPendingOtp destination) OTP_TTL_SECS in
  let! claimed := (fun st =>
    let '(set, db) := vset_nx now cooldown_key (to_json ()) (RESEND_COOLDOWN_SECS * 1000) (sv_redis st) in
    (Ok set, sv_with_redis st db)) in
  do! (if (claimed : bool) then
         do! check_send_limit now tenant ("contact:" ++ uuid_str (ur_id user)) in
         let! code := store_code sha256 b64 now bytes code_key (ur_id user) in
         deliver provider (mkMessage tenant (contact_channel c) "otp" destination code)
       else ret tt) in
  ret (mkSent true (mask (contact_channel c) destination)).

Definition contact_update (c : Contact) (destination : string) : UserUpdate :=
  match c with
  | CEmail => mkUserUpdate None (Some (Some destination)) (Some true) None None None None None None None None
  | CPhone => mkUserUpdate None None None (Some (Some destination)) (Some true) None None None None None None
  end.
Definition confirm_contact (now : Z) (acting : option Uuid) (ldap : UserRow -> UserUpdate -> result ApiError unit) (tenant : Uuid)
    (user : UserRow) (c : Contact) (code : string) : M Server ApiError (option UserRow) :=
  let! pending := gets (load_pending now tenant (ur_id user) c) in
  let! destination := lift (ok_or pending (BadRequest ("no " ++ contact_str c ++ " change is pending; request a code first"))) in
  let code_key := contact_change_code tenant (ur_id user) (contact_str c) in
  let! who := check_code sha256 b64 now code_key code in
  if negb (bool_decide (who = Some (ur_id user))) then
    let! alive := gets (fun st => bool_decide (is_Some (vget now code_key (sv_redis st)))) in
    do! (if alive then ret tt else cancel_contact now tenant (ur_id user) c) in
    ret None
  else
    let! updated := run_mapped (fun e => match e with ApiConflict _ => ApiConflict "email address already in use" | e => e end)
      (on_accounts (update_user now acting ldap tenant (ActUser (ur_id user)) (ur_id user) (contact_update c destination))) in
    do! cancel_contact now tenant (ur_id user) c in
    ret (Some updated).

Definition no_phone : UserUpdate := mkUserUpdate None None None (Some None) None None None None None None None.
Definition remove_phone (now : Z) (acting : option Uuid) (ldap : UserRow -> UserUpdate -> result ApiError unit) (tenant : Uuid)
    (user : UserRow) : M Server ApiError UserRow :=
  do! guard (bool_decide (u_phone (ur_user user) = None)) (ApiNotFound "phone number") in
  let! used := enrolled tenant (ur_id user) ChSms in
  do! guard used (BadRequest "the number is used for codes by text message; remove that second step first") in
  do! cancel_contact now tenant (ur_id user) CPhone in
  on_accounts (update_user now acting ldap tenant (ActUser (ur_id user)) (ur_id user) no_phone).
End self_service.

(** ** A registration makes one account or none *)

Section registration.
Context `{ValkeyLaws} `{Counters} `{UuidDisplay} `{KeyEncryptor} `{Geo} `{TextLaws} `{CharLib} `{HasherLaws}.
Context `{!Serde SsoSession} `{!Serde OtpRecord} `{!Serde PendingOtp} `{!Serde VerificationRecord} `{!Serde Uuid} `{!Serde ()}.
Context (sha256 : list Z -> list Z) (b64 : list Z -> string).
Implicit Types (st : Server).

(** No row has the id. *)
Definition unused (t id : Uuid) (rows : list UserRow) : Prop := forall r, r ∈ rows -> UserRepo.at_row t id r = false.

Lemma unused_find t id rows row : unused t id rows -> UserRepo.at_row t id row = true -> UserRepo.find_by_id t id (rows ++ [row]) = Some row.
Proof.
  intros Hu Hr. unfold UserRepo.find_by_id. rewrite find_app. destruct (List.find _ rows) as [r|] eqn:E.
  - apply find_some in E as [Hin Ha]. apply list_elem_of_In in Hin. by rewrite Hu in Ha.
  - cbn. by rewrite Hr.
Qed.
Lemma unused_update t id (p : UserRow -> bool) f rows row :
  unused t id rows -> (forall r, p r = true -> UserRepo.at_row t id r = true) ->
  (AppState.update p f (rows ++ [row])).1 = rows ++ [if p row then f row else row].
Proof.
  intros Hu Hp. unfold AppState.update. cbn [fst]. rewrite fmap_app. f_equal. induction rows as [|r rows IH]; [done|].
  rewrite fmap_cons. destruct (p r) eqn:E; [|f_equal; apply IH; intros r' Hr'; apply Hu; by right].
  apply Hp in E. rewrite Hu in E; [done|by left].
Qed.
Lemma unused_delete t id rows row : unused t id rows -> UserRepo.at_row t id row = true -> UserRepo.hard_delete t id (rows ++ [row]) = rows.
Proof.
  intros Hu Hr. unfold UserRepo.hard_delete. rewrite filter_app, (filter_cons_False _ row) by congruence. rewrite filter_nil, app_nil_r.
  induction rows as [|r rows IH]; [done|]. rewrite filter_cons_True; [f_equal; apply IH; intros r' Hr'; apply Hu; by right|].
  apply Hu. by left.
Qed.

Lemma create_ok now id t actor input a row a' :
  create now id t actor input a = (Ok row, a') ->
  unused t id (ac_users a) /\ ac_users a' = ac_users a ++ [row] /\ UserRepo.at_row t id row = true
  /\ ur_live row = true /\ ur_status row = default UActive (nu_status input) /\ u_email_verified (ur_user row) = nu_email_verified input
  /\ ur_terms_accepted_at row = None /\ map_some normalize_email (nu_email input) = Ok (ur_email row).
Proof.
  unfold create, create_as. intros Hr. inv_run. rename select (ac_publish _ _ _ _ = _) into Hp. injection Hp as _ <-.
  rename select (insert_row _ _ _ _ _ = _) into Hi. unfold insert_row in Hi. destruct (UserRepo.insert _ _ _ _ _) as [[row' rows]|] eqn:E; [|done].
  injection Hi as -> <-. unfold UserRepo.insert in E. destruct (existsb _ _) eqn:Ex; [done|]. injection E as <- <-. cbn.
  split_and!; try done.
  - intros r Hr. pose proof (existsb_none _ _ _ Ex Hr) as Hn. cbn beta in Hn. apply orb_false_elim in Hn as [Hn _].
    unfold UserRepo.at_row. rewrite Hn. apply andb_false_r.
  - unfold UserRepo.at_row. cbn. by rewrite !Z.eqb_refl.
Qed.

Lemma create_err now id t actor input a e a' : create now id t actor input a = (Err e, a') -> a' = a.
Proof.
  unfold create, create_as, bind, lift, gets, insert_row. destruct (normalize_username _); [|by intros [= _ <-]].
  destruct (map_some normalize_email _); [|by intros [= _ <-]]. destruct (map_some normalize_phone _); [|by intros [= _ <-]].
  destruct (validate_attributes_with _ _ _ _ _); [|by intros [= _ <-]].
  destruct (UserRepo.insert _ _ _ _ _) as [[row rows]|]; [done|by intros [= _ <-]].
Qed.

(** The account a registration asked for. *)
Definition registered (now : Z) (s : Settings) (t id : Uuid) (i : RegistrationInput) (row : UserRow) : Prop :=
  UserRepo.at_row t id row = true /\ ur_live row = true
  /\ ur_status row = (if require_email_verification (st_registration s) then UPending else UActive)
  /\ u_email_verified (ur_user row) = false
  /\ (exists email, normalize_email (ri_email i) = Ok email /\ ur_email row = Some email)
  /\ (require_terms (st_registration s) = true -> ur_terms_accepted_at row = Some now)
  /\ (am_password (st_auth s) = true -> exists pw h, ri_password i = Some pw /\ ur_password_hash row = Some h
        /\ hasher_verify pw h = Ok (mkPasswordVerification true false)).

(** The directories know nothing of the account: its id was drawn for this
    registration. *)
Definition not_in_directory (dir : Directories) (id : Uuid) : Prop :=
  forall p actor pw o st, dir_set_password dir p actor id pw o st = (Ok false, st).
Lemma set_first_password_here now rnd breached dir s t id pw st :
  not_in_directory dir id ->
  set_first_password now rnd breached dir s t id pw st = set_first_password now rnd breached no_directories s t id pw st.
Proof. intros Hd. unfold set_first_password. by rewrite (set_password_split _ _ _ dir), Hd. Qed.

Lemma set_first_password_run now rnd breached s t id pw st rows row :
  sv_users st = rows ++ [row] -> unused t id rows -> UserRepo.at_row t id row = true -> ur_live row = true ->
  match set_first_password now rnd breached no_directories s t id pw st with
  | (Ok _, st') => exists h, sv_users st' = rows ++ [UserRepo.with_password now h hasher_algorithm false
                               ((fun days => now + days * 86400000) <$> pp_max_age_days (st_password s)) row]
                    /\ hasher_verify pw h = Ok (mkPasswordVerification true false)
  | (Err _, st') => sv_users st' = rows
  end.
Proof.
  intros Er Hu Hat Hl. unfold set_first_password. destruct (set_password _ _ _ _ _ _ _ _ _ _ st) as [[[]|e] st'] eqn:E.
  - apply set_password_ok in E as (r & h & Ef & _ & _ & Hf & Eu & _). exists h. split; [|done]. rewrite Eu, Er.
    unfold UserRepo.set_password. rewrite (unused_update t id); [|done|by intros x [? _]%andb_prop]. by rewrite Hat, Hl.
  - apply set_password_err in E as ->. cbn. rewrite Er. by apply unused_delete.
Qed.

(** What follows the password: it fails only when the mail cannot be sent. *)
Definition finish_registration (now : Z) (id : Uuid) (bytes : list Z) (provider : result ApiError unit) (s : Settings) (t : Uuid)
    (i : RegistrationInput) (flow : option Uuid) (user : UserRow) : M Server ApiError (UserRow * bool) :=
  do! (if ri_terms_accepted i
       then modify (fun st => sv_with_users st (UserRepo.set_terms_accepted now t id (sv_users st)).1) else ret tt) in
  do! (if require_email_verification (st_registration s) then send_verification sha256 b64 now bytes provider t user flow else ret tt) in
  do! sv_publish t (ActUser id) (UserRegistered id (negb (require_email_verification (st_registration s)))) in
  let! user := on_accounts (get_user t id) in
  ret (user, require_email_verification (st_registration s)).

Lemma send_verification_run now bytes provider t user flow st :
  ur_email user <> None -> exists st', send_verification sha256 b64 now bytes provider t user flow st = (provider, st') /\ sv_users st' = sv_users st.
Proof. intros He. unfold send_verification. destruct (ur_email user); [|done]. eexists. by split. Qed.

(** What the provider answers, when it is asked. *)
Definition mailed (s : Settings) (provider : result ApiError unit) : result ApiError unit :=
  if require_email_verification (st_registration s) then provider else Ok tt.

Lemma on_get t id st row :
  UserRepo.find_by_id t id (sv_users st) = Some row -> ur_live row = true -> on_accounts (get_user t id) st = (Ok row, st).
Proof. intros Hf Hl. destruct st as [a]. unfold on_accounts, get_user, bind, gets. cbn [sv_accounts]. unfold sv_users in Hf. cbn in Hf. by rewrite Hf, Hl. Qed.

Lemma finish_run now id bytes provider s t i flow user st rows row :
  sv_users st = rows ++ [row] -> unused t id rows -> UserRepo.at_row t id row = true -> ur_live row = true -> ur_email user <> None ->
  let row' := if ri_terms_accepted i then UserRepo.with_terms now row else row in
  exists st', finish_registration now id bytes provider s t i flow user st
              = (match mailed s provider with Ok _ => Ok (row', require_email_verification (st_registration s)) | Err e => Err e end, st')
    /\ sv_users st' = rows ++ [row'].
Proof.
  intros Er Hu Hat Hl He row'. unfold finish_registration.
  assert (exists st1, (if ri_terms_accepted i
       then modify (fun st => sv_with_users st (UserRepo.set_terms_accepted now t id (sv_users st)).1) else ret tt) st
     = (Ok tt : result ApiError unit, st1) /\ sv_users st1 = rows ++ [row']) as (st1 & E1 & Eu1).
  { subst row'. destruct (ri_terms_accepted i); eexists; (split; [done|]); [|done].
    trans (UserRepo.set_terms_accepted now t id (sv_users st)).1; [done|]. rewrite Er. unfold UserRepo.set_terms_accepted.
    rewrite (unused_update t id); [|done|by intros x [? _]%andb_prop]. by rewrite Hat, Hl. }
  unfold bind at 1. rewrite E1.
  assert (exists st2, (if require_email_verification (st_registration s) then send_verification sha256 b64 now bytes provider t user flow
     else ret tt) st1 = (mailed s provider, st2) /\ sv_users st2 = rows ++ [row']) as (st2 & E2 & Eu2).
  { unfold mailed. destruct (require_email_verification _); [|by exists st1].
    destruct (send_verification_run now bytes provider t user flow st1 He) as (st2 & ? & Eu). exists st2. by rewrite Eu. }
  unfold bind at 1. rewrite E2. destruct (mailed s provider) as [[]|e]; [|by exists st2].
  unfold bind at 1. destruct (sv_publish t _ _ st2) as [[[]|e] st3] eqn:E3; [|done].
  assert (sv_users st3 = rows ++ [row']) as Eu3 by (injection E3 as <-; exact Eu2).
  assert (UserRepo.at_row t id row' = true /\ ur_live row' = true) as [Hat' Hl'] by (subst row'; by case_match).
  unfold bind. rewrite (on_get t id st3 row'); [|by rewrite Eu3; apply unused_find|done]. by eexists.
Qed.

Lemma register_eq now id bytes rnd provider breached dir locale s t i flow :
  register sha256 b64 now id bytes rnd provider breached dir locale s t i flow
  = (do! lift (check_registration s i) in
     let! email := lift (normalize_email (ri_email i)) in
     let! username := lift (chosen_username i email) in
     let! user := run_mapped in_use_email (on_accounts (create now id t ActSystem
       (mkNewUser username (Some email) false None false
          (Some (if require_email_verification (st_registration s) then UPending else UActive)) (ri_attributes i) (Some locale) None None false))) in
     do! match ri_password i with
         | Some (String _ _ as pw) => set_first_password now rnd breached dir s t id pw
         | _ => ret tt
         end in
     finish_registration now id bytes provider s t i flow user).
Proof. done. Qed.

Lemma normalize_again raw_ email : normalize_email raw_ = Ok email -> normalize_email email = Ok email.
Proof.
  unfold normalize_email. destruct (_ || _) eqn:E; [done|]. intros [= <-]. rewrite lower_again. by rewrite E.
Qed.

Lemma checked s i :
  check_registration s i = Ok tt ->
  (require_terms (st_registration s) = true -> ri_terms_accepted i = true)
  /\ (am_password (st_auth s) = true -> exists c pw, ri_password i = Some (String c pw)).
Proof.
  unfold check_registration. destruct (rg_enabled _); [|done]. cbn [negb]. destruct (_ && negb (existsb _ _)); [done|].
  destruct (require_terms _), (ri_terms_accepted i); try done; cbn; destruct (am_password _); try done; cbn;
    destruct (ri_password i) as [[]|]; cbn; try done; intros _; (split; [done|]); intros _; by eexists _, _.
Qed.

(** What a registration leaves: the account that was asked for, or none; the
    account without the answer only where the verification mail could not be
    sent. *)
Definition registration_outcome (now : Z) (s : Settings) (t id : Uuid) (i : RegistrationInput) (provider : result ApiError unit)
    (users : list UserRow) (r : result ApiError (UserRow * bool)) (users' : list UserRow) : Prop :=
  match r with
  | Ok (row, pending) => users' = users ++ [row] /\ registered now s t id i row
                         /\ pending = require_email_verification (st_registration s)
  | Err e => users' = users
             \/ (require_email_verification (st_registration s) = true /\ provider = Err e
                 /\ exists row, users' = users ++ [row] /\ registered now s t id i row)
  end.

(** C18: a registration adds one account or none. A refused one, for its
    policy, its names, its attributes or its password, leaves the accounts as
    they were; an accepted one adds exactly the account that was asked for,
    with an unverified address, waiting for it where the tenant asks for that,
    with the terms accepted and the password set where they are required. The
    one error that keeps the account is that of the mail provider, after the
    account is complete, when the verification link cannot be sent. *)
Theorem registration_one_or_none now id bytes rnd provider breached dir locale s t i flow st r st' :
  not_in_directory dir id ->
  register sha256 b64 now id bytes rnd provider breached dir locale s t i flow st = (r, st') ->
  registration_outcome now s t id i provider (sv_users st) r (sv_users st').
Proof.
  intros Hdir. rewrite register_eq. unfold bind at 1, lift at 1. destruct (check_registration s i) as [[]|e] eqn:Ec; [|by intros [= <- <-]; left].
  apply checked in Ec as [Hterms Hpw]. unfold bind at 1, lift at 1. destruct (normalize_email (ri_email i)) as [email|e] eqn:Ee; [|by intros [= <- <-]; left].
  unfold bind at 1, lift at 1. destruct (chosen_username i email) as [username|e]; [|by intros [= <- <-]; left].
  unfold bind at 1, run_mapped, on_accounts.
  destruct (create _ _ _ _ _ (sv_accounts st)) as [[row0|e] a] eqn:Ea; cbn [map_err]; cycle 1.
  { apply create_err in Ea as ->. by intros [= <- <-]; left. }
  apply create_ok in Ea as (Hu & Eu & Hat & Hl & Hstat & Hver & Hterm & Hem). cbn [map_some nu_email] in Hem.
  rewrite (normalize_again _ _ Ee) in Hem. cbn in Hem. injection Hem as Hem.
  set (st1 := sv_with_accounts st a). assert (sv_users st1 = sv_users st ++ [row0]) as Eu1 by exact Eu. clearbody st1. clear Eu.
  assert (ur_email row0 <> None) as Hne by congruence.
  assert (forall st2 row, sv_users st2 = sv_users st ++ [row] -> UserRepo.at_row t id row = true -> ur_live row = true ->
    ur_status row = ur_status row0 -> u_email_verified (ur_user row) = false -> ur_email row = Some email ->
    (am_password (st_auth s) = true -> exists pw h, ri_password i = Some pw /\ ur_password_hash row = Some h
        /\ hasher_verify pw h = Ok (mkPasswordVerification true false)) ->
    finish_registration now id bytes provider s t i flow row0 st2 = (r, st') ->
    registration_outcome now s t id i provider (sv_users st) r (sv_users st')) as Hfin.
  { intros st2 row E2 Hat2 Hl2 Hs2 Hv2 He2 Hp2 Hr.
    destruct (finish_run now id bytes provider s t i flow row0 st2 (sv_users st) row E2 Hu Hat2 Hl2 Hne) as (st3 & E3 & Eu3).
    rewrite Hr in E3. injection E3 as -> ->.
    assert (registered now s t id i (if ri_terms_accepted i then UserRepo.with_terms now row else row)) as Hreg.
    { unfold registered. destruct (ri_terms_accepted i) eqn:Et; cbn; split_and!; try done; try (by exists email); try (by etrans; [exact Hs2|]).
      intros Hq. by specialize (Hterms Hq). }
    unfold mailed. destruct (require_email_verification _) eqn:Ev; [destruct provider as [[]|e]|]; cbn; rewrite ?Ev; eauto 6. }
  destruct (ri_password i) as [[|c pw]|] eqn:Epw.
  - unfold bind at 1, ret at 1. apply (Hfin st1 row0); try done. intros Hq. by destruct (Hpw Hq) as (? & ? & ?).
  - unfold bind at 1. rewrite set_first_password_here by done.
    pose proof (set_first_password_run now rnd breached s t id (String c pw) st1 (sv_users st) row0 Eu1 Hu Hat Hl) as Hrun.
    destruct (set_first_password _ _ _ _ _ _ _ _ st1) as [[[]|e] st2]; [|by intros [= <- <-]; left].
    destruct Hrun as (h & E2 & Hf). eapply Hfin; [exact E2|..]; try done. intros _. exists (String c pw), h. by split_and!.
  - unfold bind at 1, ret at 1. apply (Hfin st1 row0); try done. intros Hq. by destruct (Hpw Hq) as (? & ? & ?).
Qed.
End registration.

(** ** A reset ends everything *)

Section reset.
Context `{ValkeyLaws} `{Counters} `{UuidDisplay} `{KeyEncryptor} `{Geo} `{TextLib} `{CharLib} `{HasherLaws}.
Context `{!Serde SsoSession} `{!Serde Uuid} `{!Serde ()}.
Context (sha256 : list Z -> list Z) (b64 : list Z -> string).
Implicit Types (st : Server).

Lemma reset_foreign t h : foreign (password_reset t h).
Proof. split; intros t' x E; unfold password_reset in E; key_inv. Qed.

(** The sessions listed are those at the keys of sessions. *)
Lemma list_live_ext now app app' t u :
  vsmembers now (user_sessions t u) (redis app') = vsmembers now (user_sessions t u) (redis app) ->
  (forall s, vget now (sso_session t s) (redis app') = vget now (sso_session t s) (redis app)) ->
  (list_live_for_user now app' t u).1 = (list_live_for_user now app t u).1.
Proof.
  intros Hm Hg. unfold list_live_for_user. rewrite Hm. case_bool_decide; [done|]. cbn [fst]. f_equal. f_equal. f_equal.
  apply list_fmap_ext. intros i k Hk. apply list_elem_of_lookup_2 in Hk. apply list_elem_of_fmap in Hk as (s & -> & _). apply Hg.
Qed.

Lemma revoke_for_user_run now app t a u c :
  redis (revoke_for_user now app t a u c).2 = redis app
  /\ refresh_rows (revoke_for_user now app t a u c).2 = (RefreshRepo.revoke_for_user now t u c (refresh_rows app)).1.
Proof. unfold revoke_for_user. destruct (RefreshRepo.revoke_for_user _ _ _ _ _) as [rows count]. cbn [snd fst]. by destruct (0 <? count). Qed.

(** *** The run *)

Definition same_store (st0 st : Server) : Prop := redis (sv_app st) = redis (sv_app st0).
Lemma same_publish st0 t a k : preserves (same_store st0) (sv_publish t a k).
Proof. by intros st. Qed.
Lemma same_set_password st0 now rnd breached s t actor u pw o :
  preserves (same_store st0) (set_password now rnd breached no_directories s t actor u pw o).
Proof.
  unfold set_password. apply preserves_bind; [apply preserves_ret|intros []; [apply preserves_ret|]].
  apply preserves_bind.
  { intros st Hs. unfold read_for_change, bind, gets. repeat case_match; by simplify_eq. }
  intros [row hist]. do 2 (apply preserves_bind; [apply preserves_lift|intros ?]). apply preserves_bind.
  { apply preserves_transaction. unfold write_change. apply preserves_bind; [apply preserves_gets|]. intros [c|]; [|apply preserves_throw].
    do 2 (case_match; [apply preserves_throw|]). apply preserves_bind; [|intros _; by apply preserves_modify].
    repeat case_match; auto using preserves_ret; by apply preserves_modify. }
  intros _. apply preserves_bind; [apply same_publish|intros _]. case_match; [|apply preserves_ret].
  intros st Hs. unfold notify_password_changed, bind, gets. repeat case_match; simplify_eq; done.
Qed.

(** What the account has after the password was set: the hash stays. *)
Definition has_hash (t u : Uuid) (h : string) (st : Server) : Prop :=
  exists r, UserRepo.find_by_id t u (sv_users st) = Some r /\ ur_password_hash r = Some h.
Lemma has_hash_update t u h (p : UserRow -> bool) f rows :
  (forall r, UserRepo.at_row t u (f r) = UserRepo.at_row t u r) -> (forall r, ur_password_hash (f r) = ur_password_hash r) ->
  (exists r, UserRepo.find_by_id t u rows = Some r /\ ur_password_hash r = Some h) ->
  exists r, UserRepo.find_by_id t u (AppState.update p f rows).1 = Some r /\ ur_password_hash r = Some h.
Proof.
  intros Ha Hf (r & Er & Hr). unfold UserRepo.find_by_id, AppState.update in *. cbn [fst]. rewrite find_update, Er by done. cbn.
  eexists. split; [done|]. destruct (p r); by rewrite ?Hf.
Qed.
Lemma has_hash_after_reset now t u t' u' h : preserves (has_hash t u h) (after_reset now t' u').
Proof.
  unfold after_reset. apply preserves_bind.
  - apply preserves_modify. intros st Hs. by apply has_hash_update.
  - intros _. apply preserves_bind; [|intros ?; apply preserves_ret]. intros st Hs. unfold update_or_db.
    destruct (UserRepo.update _ _ _ _ _) as [[row rows]|] eqn:E; [|done]. unfold UserRepo.update in E.
    destruct (List.find _ (sv_users st)); [|by injection E as <- <-]. destruct (existsb _ _); [done|]. injection E as <- <-.
    by apply (has_hash_update t u h).
Qed.
Lemma same_after_reset st0 now t u : preserves (same_store st0) (after_reset now t u).
Proof.
  unfold after_reset. apply preserves_bind; [by apply preserves_modify|intros _]. apply preserves_bind; [|intros ?; apply preserves_ret].
  intros st Hs. unfold update_or_db. by destruct (UserRepo.update _ _ _ _ _) as [[row rows]|].
Qed.

Lemma set_password_has_hash now rnd breached s t actor u pw opts st st' :
  set_password now rnd breached no_directories s t actor u pw opts st = (Ok tt, st') ->
  exists h, hasher_verify pw h = Ok (mkPasswordVerification true false) /\ has_hash t u h st'.
Proof.
  intros (r0 & h & Ef & El & _ & Hf & Eusers & _)%set_password_ok. exists h. split; [done|].
  unfold has_hash. rewrite Eusers. unfold UserRepo.set_password, AppState.update, UserRepo.find_by_id in *. cbn [fst].
  rewrite find_update, Ef by done. apply find_some in Ef as [_ Ha]. cbn. rewrite Ha, El. by eexists.
Qed.
Lemma revoke_for_user_all now app t actor u r : r ∈ refresh_rows (revoke_for_user now app t actor u None).2 ->
  rt_tenant_id r = t -> rt_user_id r = Some u -> rt_revoked_at r <> None.
Proof.
  rewrite (proj2 (revoke_for_user_run now app t actor u None)). unfold RefreshRepo.revoke_for_user, RefreshRepo.revoke_where, AppState.update.
  cbn [fst]. intros (r0 & -> & _)%list_elem_of_fmap Et Euser. case_match; [done|]. intros En.
  rewrite En, (bool_decide_eq_true_2 (None = None)), (bool_decide_eq_true_2 _ Euser), Et, Z.eqb_refl in * by done. done.
Qed.

(** C16: a password reset ends what the old password may have opened: when it
    returns, the account has the new password, every session of the user that
    was alive is gone, every refresh token of the user is revoked, and the link
    that was used is refused from then on. *)
Theorem reset_ends_everything now rnd breached acting s t token pw st u row st' :
  keyed now (sv_app st) -> load_json now (password_reset t (otp_hash sha256 b64 token)) (sv_redis st) = Some u ->
  complete_password_reset sha256 b64 now rnd breached no_directories acting s t token pw st = (Ok row, st') ->
  (exists h, ur_password_hash row = Some h /\ hasher_verify pw h = Ok (mkPasswordVerification true false))
  /\ (forall sid, sid ∈ s_id <$> (list_live_for_user now (sv_app st) t u).1 -> gone t sid now (sv_app st'))
  /\ (forall r, r ∈ refresh_rows (sv_app st') -> rt_tenant_id r = t -> rt_user_id r = Some u -> rt_revoked_at r <> None)
  /\ (forall n rnd' breached' pw', (complete_password_reset sha256 b64 n rnd' breached' no_directories acting s t token pw' st').1
       = Err (ApiNotFound "reset token")).
Proof.
  intros Hk Hl Hr. unfold complete_password_reset in Hr. set (key := password_reset t (otp_hash sha256 b64 token)) in *.
  apply bind_ok in Hr as (? & st0 & [Htok ->]%guard_ok & Hr). apply bind_ok in Hr as (o & ? & [= <- <-] & Hr).
  apply bind_ok in Hr as (u' & ? & [Eu ->]%lift_ok & Hr). apply ok_or_ok in Eu. rewrite Hl in Eu. injection Eu as <-.
  apply bind_ok in Hr as ([] & st1 & Hset & Hr). apply bind_ok in Hr as (? & st2 & Hd & Hr). injection Hd as _ <-.
  apply bind_ok in Hr as (? & st3 & Hafter & Hr). apply bind_ok in Hr as (? & st4 & Hend & Hr). injection Hend as _ <-.
  apply bind_ok in Hr as (? & st5 & Hrev & Hr). injection Hrev as _ <-. apply bind_ok in Hr as (? & st6 & Hpub & Hr). injection Hpub as _ <-.
  set (app3 := sv_app st3). set (app4 := (end_sessions_for_user now acting (st_session s) app3 t u None).2).
  set (app5 := (revoke_for_user now app4 t (ActUser u) u None).2).
  (* the stores along the way *)
  assert (redis (sv_app st1) = redis (sv_app st)) as E1.
  { pose proof (same_set_password st now rnd breached s t (ActUser u) u pw (mkSetPasswordOptions false false true true) st eq_refl) as E.
    by rewrite Hset in E. }
  assert (redis app3 = vdel now key (redis (sv_app st))) as E3.
  { pose proof (preserves_transaction _ _ (same_after_reset (sv_with_redis st1 (vdel now key (sv_redis st1))) now t u)
                  (sv_with_redis st1 (vdel now key (sv_redis st1))) eq_refl) as E. rewrite Hafter in E. cbn [snd] in E.
    subst app3. unfold same_store in E. rewrite E. cbn. unfold sv_redis. by rewrite E1. }
  assert (redis (sv_app st') = redis app5 /\ refresh_rows (sv_app st') = refresh_rows app5
          /\ UserRepo.find_by_id t u (sv_users st3) = Some row) as (E6 & R6 & Hrow).
  { unfold on_accounts in Hr. destruct (get_user t u _) as [r' a'] eqn:Eg. injection Hr as -> <-.
    apply get_user_run in Eg as [-> Eg]. by split_and!. }
  assert (redis app5 = redis app4) as E5 by apply revoke_for_user_run.
  split_and!.
  - apply set_password_has_hash in Hset as (h & Hf & Hh). exists h.
    pose proof (preserves_transaction _ _ (has_hash_after_reset now t u t u h) (sv_with_redis st1 (vdel now key (sv_redis st1))) Hh) as Hh3.
    rewrite Hafter in Hh3. destruct Hh3 as (r3 & Er3 & Eh3). cbn [snd] in Er3. rewrite Hrow in Er3. by injection Er3 as <-.
  - intros sid Hin. assert (ended t sid now app4) as [_ Hg].
    { apply end_all_live.
      - intros n t' sid' r ss Hn. rewrite E3. rewrite vget_del_ne; [by apply Hk|]. apply not_eq_sym, (proj1 (reset_foreign t _)).
      - rewrite (list_live_ext now (sv_app st)); [done|..].
        + rewrite E3. apply vsmembers_del. apply not_eq_sym, (proj2 (reset_foreign t _)).
        + intros ss. rewrite E3. apply vget_del_ne. apply not_eq_sym, (proj1 (reset_foreign t _)). }
    intros n Hn. rewrite E6, E5. by apply Hg.
  - intros r. rewrite R6. apply revoke_for_user_all.
  - intros n rnd' breached' pw'. unfold complete_password_reset, bind at 1, guard. rewrite Htok. cbn [ret]. fold key. unfold bind at 1, gets.
    assert (vget n key (sv_redis st') = None) as Hn.
    { unfold sv_redis. rewrite E6, E5. subst app4. rewrite (frames_end_all now acting (st_session s) app3 t u None key (reset_foreign t _)).
      rewrite E3. apply vget_del. }
    unfold load_json. rewrite Hn. done.
Qed.
End reset.

(** ** A changed address *)

Section changed.
Context `{Valkey} `{UuidDisplay} `{TextLib} `{!Serde SsoSession}.

Lemma updated_patched now t id p rows before row rows' :
  UserRepo.find_by_id t id rows = Some before -> ur_live before = true ->
  UserRepo.update now t id p rows = Some (Some row, rows') -> row = UserRepo.patched now p before.
Proof.
  unfold UserRepo.update, UserRepo.find_by_id. intros Hf Hl.
  assert (List.find (fun r => UserRepo.at_row t id r && ur_live r) rows = Some before) as ->.
  { induction rows as [|r rows IH]; [done|]. cbn in *. destruct (UserRepo.at_row t id r) eqn:E; cbn; [|by apply IH].
    injection Hf as ->. by rewrite Hl. }
  destruct (existsb _ _); [done|]. by intros [= <- _].
Qed.
Lemma update_row_patched now t id p a before row a' :
  UserRepo.find_by_id t id (ac_users a) = Some before -> ur_live before = true ->
  update_row now t id p a = (Ok row, a') -> row = UserRepo.patched now p before.
Proof.
  unfold update_row. intros Hf Hl. destruct (UserRepo.update _ _ _ _ _) as [[[row'|] rows]|] eqn:E; [|done..].
  intros [= <- _]. by eapply updated_patched.
Qed.

(** a new address counts as verified when the old one did: an update that
    sets an account's email and says nothing of its verification, as a
    provisioning client's always does, keeps the flag, though nobody proved the
    new address. *)
Theorem changed_address_keeps_verified now acting ldap t actor editor id p a before row a' new :
  UserRepo.find_by_id t id (ac_users a) = Some before -> up_email p = Some (Some new) -> up_email_verified p = None ->
  update_as now acting ldap t actor editor id p a = (Ok row, a') ->
  normalize_email new = match ur_email row with Some e => Ok e | None => Err (BadRequest "invalid email address") end
  /\ u_email_verified (ur_user row) = u_email_verified (ur_user before).
Proof.
  intros Hf He Hv Hu. unfold update_as in Hu.
  assert (update_is_empty p = false) as Hne.
  { unfold update_is_empty. rewrite He. rewrite (bool_decide_eq_false_2 (Some (Some new) = None)) by done. by rewrite andb_false_r. }
  rewrite Hne in Hu. inv_run. rename select (get_user _ _ _ = _) into Hg. pose proof Hg as Hlive. apply get_user_run in Hg as [-> Hg].
  rewrite Hf in Hg. injection Hg as <-.
  assert (ur_live before = true) as Hl.
  { unfold get_user, bind, gets in Hlive. rewrite Hf in Hlive. by destruct (ur_live before). }
  match goal with E : (if _ then lift _ else ret tt) _ = _ |- _ => apply if_lift_run in E as -> end.
  rename select (update_row _ _ _ _ _ = _) into Hw. apply (update_row_patched _ _ _ _ _ before) in Hw as ->; [|done..].
  rename select (map_set normalize_email _ = _) into Hm. rewrite He in Hm. cbn in Hm. cbn. rewrite Hv.
  destruct (normalize_email new) as [e|]; [|done]. cbn in Hm. injection Hm as <-. done.
Qed.

Context `{Counters} `{KeyEncryptor} `{Geo} `{!Serde VerificationRecord}.
Context (sha256 : list Z -> list Z) (b64 : list Z -> string).

(** the link that verifies an address names the account, not the address:
    whatever address the account has when the link is opened is marked
    verified, also one nothing was ever sent to. *)
Theorem verification_follows_account now t token st rec before b c st' :
  load_json now (email_verification t (otp_hash sha256 b64 token)) (sv_redis st) = Some rec ->
  UserRepo.find_by_id t (vr_user_id rec) (sv_users st) = Some before -> ur_email before = Some b ->
  Forall (fun m => ms_recipient m <> b) (sv_outbox st) ->
  confirm sha256 b64 now t token st = (Ok c, st') ->
  ur_email (cf_user c) = Some b /\ u_email_verified (ur_user (cf_user c)) = true
  /\ Forall (fun m => ms_recipient m <> b) (sv_outbox st').
Proof.
  intros Hl Hf Hb Ho Hr. unfold confirm in Hr. apply bind_ok in Hr as (? & ? & [_ ->]%guard_ok & Hr).
  apply bind_ok in Hr as (rec' & st1 & Ht & Hr). unfold vgetdel in Ht. injection Ht as Ht <-. fold (load_json (A:=VerificationRecord) now
    (email_verification t (otp_hash sha256 b64 token)) (sv_redis st)) in Ht. rewrite Hl in Ht. injection Ht as <-.
  apply bind_ok in Hr as (row & ? & [= <- <-] & Hr). change (sv_users (sv_with_redis st ?x)) with (sv_users st) in Hr. rewrite Hf in Hr.
  destruct (ur_live before) eqn:El; [|done]. cbn [negb] in Hr. apply bind_ok in Hr as (user & st2 & Hu & Hr).
  apply bind_ok in Hr as (user' & ? & [Eo ->]%lift_ok & Hr). apply ok_or_ok in Eo. subst user. unfold update_or_db in Hu.
  change (sv_users (sv_with_redis st ?x)) with (sv_users st) in Hu.
  destruct (UserRepo.update _ _ _ _ _) as [[row rows]|] eqn:E; [|done]. injection Hu as -> <-.
  assert (ur_id before = vr_user_id rec) as Hid.
  { apply find_some in Hf as [_ Ha]. unfold UserRepo.at_row in Ha. apply andb_prop in Ha as [_ Ha]. by apply Z.eqb_eq. }
  rewrite Hid in E. apply (updated_patched _ _ _ _ _ before) in E as ->; [|done..].
  apply bind_ok in Hr as (? & st3 & [= _ <-] & Hr). injection Hr as <- <-. by split_and!.
Qed.
End changed.

(** ** Example *)

Section example.
Inductive SsRaw := SrSession (s : SsoSession) | SrCode (r : OtpRecord) | SrPending (p : PendingOtp) | SrVerify (r : VerificationRecord) | SrId (u : Uuid) | SrUnit.
Definition ss_valkey : Valkey := map_valkey (R := SsRaw).
#[local] Existing Instances ss_valkey map_valkey_laws map_counters toy_uuid mf_encryptor pf_lib pf_laws ot_geo pw_hasher pw_laws pw_chars.
#[local] Instance ss_session : Serde SsoSession.
Proof. refine {| to_json s := SrSession s : raw; from_json r := match r with SrSession s => Some s | _ => None end |}. done. Defined.
#[local] Instance ss_code : Serde OtpRecord.
Proof. refine {| to_json s := SrCode s : raw; from_json r := match r with SrCode s => Some s | _ => None end |}. done. Defined.
#[local] Instance ss_pending : Serde PendingOtp.
Proof. refine {| to_json s := SrPending s : raw; from_json r := match r with SrPending s => Some s | _ => None end |}. done. Defined.
#[local] Instance ss_verify : Serde VerificationRecord.
Proof. refine {| to_json s := SrVerify s : raw; from_json r := match r with SrVerify s => Some s | _ => None end |}. done. Defined.
#[local] Instance ss_uuid : Serde Uuid.
Proof. refine {| to_json s := SrId s : raw; from_json r := match r with SrId s => Some s | _ => None end |}. done. Defined.
#[local] Instance ss_unit : Serde ().
Proof. refine {| to_json _ := SrUnit : raw; from_json r := match r with SrUnit => Some tt | _ => None end |}. by intros []. Defined.

(** A tenant whose schema has an attribute only administrators write. *)
Definition ss_empty : Server :=
  mkServer (mkAccounts (mkAppState _ (∅ : gmap string _) [] [] {[ 1 := ex_policy ]} []) [] {[ 1 := pf_schema ]}) [] mf_node (∅ : gmap string _)
    [] [] [] [] [] [] [].
Definition ss_input (attributes : Object) : RegistrationInput :=
  mkRegistrationInput (Some "bo"%string) "bo@example.com" (Some "correct-1"%string) (Some (VObject attributes)) false.
Definition ss_register (attributes : Object) :=
  register ot_sha str_of_bytes 1000 5 [65; 66] [] (Ok tt) pw_none no_directories "en" ot_policy 1 (ss_input attributes) None.
Definition ss_sales : Object := [("department", VString "sales")]%string.
Definition ss_bo : Server := (ss_register ss_sales ss_empty).2.

(** The same registration where the provider takes the mail and where it does
    not: the second one's account is there all the same. *)
Definition ss_down := register ot_sha str_of_bytes 1000 5 [65; 66] [] (Err (InternalError "mail")) pw_none no_directories "en" ot_policy 1
  (ss_input ss_sales) None ss_empty.
Lemma registration_one_or_none_witness :
  (exists row, sv_users ss_bo = sv_users ss_empty ++ [row] /\ registered 1000 ot_policy 1 5 (ss_input ss_sales) row)
  /\ ss_down.1 = Err (InternalError "mail")
  /\ exists row, sv_users ss_down.2 = sv_users ss_empty ++ [row] /\ registered 1000 ot_policy 1 5 (ss_input ss_sales) row.
Proof.
  assert (not_in_directory no_directories 5) as Hd by done. split.
  - pose proof (registration_one_or_none ot_sha str_of_bytes 1000 5 [65; 66] [] (Ok tt) pw_none no_directories "en" ot_policy 1 (ss_input ss_sales) None
                  ss_empty (ss_register ss_sales ss_empty).1 ss_bo Hd (surjective_pairing _)) as W.
    assert (match (ss_register ss_sales ss_empty).1 with Ok _ => true | Err _ => false end = true) as Hok by (vm_compute; reflexivity).
    destruct (ss_register ss_sales ss_empty).1 as [[row pending]|e] eqn:E; [|discriminate Hok]. exists row. by destruct W as (? & ? & _).
  - assert (ss_down.1 = Err (InternalError "mail")) as E by (vm_compute; reflexivity). split; [exact E|].
    pose proof (registration_one_or_none ot_sha str_of_bytes 1000 5 [65; 66] [] (Err (InternalError "mail")) pw_none no_directories "en" ot_policy 1
                  (ss_input ss_sales) None ss_empty ss_down.1 ss_down.2 Hd (surjective_pairing _)) as W.
    rewrite E in W. destruct W as [W|(_ & _ & W)]; [|exact W].
    assert (length (sv_users ss_down.2) = 1%nat) as Hlen by (vm_compute; reflexivity). rewrite W in Hlen. discriminate Hlen.
Defined.

(** registration writes the attributes as the system does, not as the user:
    a visitor who registers may set an attribute only administrators write,
    which the user may not change once signed in. *)
Theorem registration_sets_admin_attributes :
  let mine := [("department", VString "eng"); ("employee_id", VString "E1")]%string in
  let patch := mkUserUpdate None None None None None None (Some (VObject mine)) None None None None in
  match (ss_register mine ss_empty).1 with
  | Ok (row, _) => match u_attributes (ur_user row) with VObject o => obj_get "employee_id" o | _ => None end
  | Err _ => None
  end = Some (VString "E1")
  /\ match (update_user 2000 None us_ldap 1 (ActUser 5) 5 patch (sv_accounts ss_bo)).1 with Ok _ => None | Err e => Some e end
     = Some (InvalidFields [mkFieldError "attributes.employee_id" "not editable"]).
Proof. vm_compute. done. Qed.

(** Bo is signed in and asks for a reset. *)
Definition ss_no_app : AppState := mkAppState _ (∅ : gmap string _) [] [] {[ 1 := ex_policy ]} [].
Definition ss_app : AppState := match Sessions.create 0 10 None ss_no_app 1 ex_login with Ok (_, app) => app | Err _ => ss_no_app end.
Definition ss_signed_in : Server :=
  mkServer (mkAccounts ss_app [us_user 5 "bo" (Some "bo@example.com"%string)] ∅) [] mf_node (∅ : gmap string _) [] [] [] [] [] [] [].
Definition ss_asked : Server := (request_password_reset ot_sha str_of_bytes 4000 [67; 68] (Ok tt) 1 "bo" ss_signed_in).2.
Definition ss_reset := complete_password_reset ot_sha str_of_bytes 5000 [] pw_none no_directories None ot_policy 1 "CD" "correct-2" ss_asked.
Lemma ss_app_keyed : keyed 0 ss_app.
Proof.
  assert (tracked 0 1 5 ss_no_app) as Ht.
  { split; [by intros n t sid r s _ Hv|]. split; [done|]. intros m Hm. change (m ∈ @nil string) in Hm. by apply not_elem_of_nil in Hm. }
  assert (is_ok (Sessions.create 0 10 None ss_no_app 1 ex_login) = true) as Hok by (vm_compute; reflexivity).
  unfold ss_app. destruct (Sessions.create 0 10 None ss_no_app 1 ex_login) as [[s app]|] eqn:E; [|done].
  eapply (create_live 0 10 None ss_no_app 1 ex_login); [exact Ht|done|exact E].
Qed.
Lemma ss_keyed : keyed 5000 (sv_app ss_asked).
Proof.
  intros n t sid r s Hn Hg. apply (ss_app_keyed n t sid r s); [lia|].
  change (redis (sv_app ss_asked)) with (vset_px 4000 (password_reset 1 (otp_hash ot_sha str_of_bytes (str_of_bytes [67; 68]))) (to_json (5 : Uuid))
    (RESET_TTL_SECS * 1000) (redis ss_app)) in Hg.
  rewrite vget_set_ne in Hg; [done|]. apply not_eq_sym, (proj1 (reset_foreign 1 _)).
Qed.

Lemma reset_ends_everything_witness :
  (forall sid, sid ∈ s_id <$> (list_live_for_user 5000 (sv_app ss_asked) 1 5).1 -> gone 1 sid 5000 (sv_app ss_reset.2))
  /\ 10 ∈ s_id <$> (list_live_for_user 5000 (sv_app ss_asked) 1 5).1.
Proof.
  split; [|apply list_elem_of_In; vm_compute; by left].
  assert (match ss_reset.1 with Ok _ => true | Err _ => false end = true) as Hok by (vm_compute; reflexivity).
  destruct (ss_reset.1) as [row|e] eqn:E; [|done].
  refine (proj1 (proj2 (reset_ends_everything ot_sha str_of_bytes 5000 [] pw_none None ot_policy 1 "CD" "correct-2" ss_asked 5 row ss_reset.2 ss_keyed _ _))).
  - vm_compute. reflexivity.
  - apply ran_of. exact E.
Defined.

(** A provisioning client renames Bo's verified address. *)
Definition ss_patch : UserUpdate := mkUserUpdate None (Some (Some "bo@example.com"%string)) None None None None None None None None None.
Definition ss_before : UserRow := us_user 5 "bo" (Some "old@example.com"%string).
Definition ss_scim := update_as 1000 None us_ldap 1 (ActClient 3) EdSystem 5 ss_patch (mkAccounts ss_app [ss_before] ∅).
Lemma changed_address_keeps_verified_witness :
  match ss_scim.1 with
  | Ok row => ur_email row = Some "bo@example.com"%string /\ u_email_verified (ur_user row) = u_email_verified (ur_user ss_before)
              /\ u_email_verified (ur_user row) = true
  | Err _ => False
  end.
Proof.
  destruct (ss_scim.1) as [row|e] eqn:E.
  - pose proof (changed_address_keeps_verified 1000 None us_ldap 1 (ActClient 3) EdSystem 5 ss_patch (mkAccounts ss_app [ss_before] ∅) ss_before row
                  ss_scim.2 "bo@example.com" eq_refl eq_refl eq_refl (ran_of _ _ E)) as [We Wv].
    change (normalize_email "bo@example.com") with (Ok "bo@example.com"%string : result ApiError string) in We.
    rewrite Wv. split_and!; [|done..]. destruct (ur_email row); [by injection We as ->|done].
  - assert (match ss_scim.1 with Ok _ => true | Err _ => false end = true) as Hok by (vm_compute; reflexivity). by rewrite E in Hok.
Defined.

(** Bo registered with one address; an administrator has since set another. *)
Definition ss_moved : Server :=
  sv_with_users ss_bo ((fun r => UserRepo.with_user r (let u := ur_user r in
    mkUser (u_id u) (u_org_id u) (u_username u) (Some "ceo@example.com"%string) false (u_phone u) (u_phone_verified u) (u_status u)
      (u_attributes u) (u_locale u) (u_created_at u) 1500)) <$> sv_users ss_bo).
Definition ss_opened := confirm ot_sha str_of_bytes 2000 1 "AB" ss_moved.
Lemma verification_follows_account_witness :
  match ss_opened.1 with
  | Ok c => ur_email (cf_user c) = Some "ceo@example.com"%string /\ u_email_verified (ur_user (cf_user c)) = true
            /\ Forall (fun m => ms_recipient m <> "ceo@example.com"%string) (sv_outbox ss_opened.2)
  | Err _ => False
  end.
Proof.
  assert (match ss_opened.1 with Ok _ => true | Err _ => false end = true) as Hok by (vm_compute; reflexivity).
  destruct (ss_opened.1) as [c|e] eqn:E; [|done].
  apply (verification_follows_account ot_sha str_of_bytes 2000 1 "AB" ss_moved (mkVerificationRecord 5 None)
           (match sv_users ss_moved with r :: _ => r | [] => ss_before end) "ceo@example.com" c ss_opened.2).
  - vm_compute. reflexivity.
  - vm_compute. reflexivity.
  - vm_compute. reflexivity.
  - vm_compute. repeat constructor. done.
  - apply ran_of. exact E.
Defined.
End example.
