(* ===== verification/Claims.v ===== *)
(** * Claims

    Models [api/src/services/claims.rs]: the claims that scopes and the
    profile schema release from a user, and the tenant's claim mappers on top
    of them. The claims the token service owns ([PROTECTED_CLAIMS],
    [BUILDER_CLAIMS]) are out of their reach. *)

From stdpp Require Import gmap strings sorting.
From S2P Require Import Prelude Valkey Models.

(** [DateTime::timestamp]: whole seconds. *)
Definition unix_seconds (t : Z) : Z := t / 1000.

(** [str::strip_prefix]. *)
Fixpoint strip_prefix (p s : string) : option string :=
  match p, s with
  | EmptyString, s => Some s
  | String a p, String b s => if Ascii.eqb a b then strip_prefix p s else None
  | String _ _, EmptyString => None
  end.

(** The strings of a [BTreeSet], in its order. *)
Definition string_le (a b : string) : Prop := String.leb a b = true.
#[export] Instance string_le_dec a b : Decision (string_le a b).
Proof. unfold string_le. apply _. Defined.
Definition btree_set (l : list string) : list string := merge_sort string_le (remove_dups l).

Record ClaimContext := mkClaimContext {
  cx_tenant : Tenant;
  cx_user : option User;
  cx_client_id : string;
  cx_scopes : list string;
  cx_roles : list Role;
  cx_groups : list Group
}.

Definition standard_scope_claims (scope : string) : list string :=
  (if scope =? "profile" then
     ["name"; "family_name"; "given_name"; "middle_name"; "nickname"; "preferred_username"; "profile";
      "picture"; "website"; "gender"; "birthdate"; "zoneinfo"; "locale"; "updated_at"]
   else if scope =? "email" then ["email"; "email_verified"]
   else if scope =? "phone" then ["phone_number"; "phone_number_verified"]
   else if scope =? "address" then ["address"]
   else [])%string.

Definition BUILDER_CLAIMS : list string := ["roles"; "groups"; "permissions"]%string.

Definition releasable (name : string) : bool :=
  negb (bool_decide (name ∈ PROTECTED_CLAIMS)) && negb (bool_decide (name ∈ BUILDER_CLAIMS)).

Section claims.
Context `{UuidDisplay}.
(** [serde_json]'s text of a value, the JSON value of the [f64] a string
    spells, the derived JSON of a user, and the template engine. *)
Context (print_value : Value -> string) (parse_f64 : string -> option Value) (user_json : User -> Value).
Context (render : string -> Value -> option string).

Definition user_field (user : User) (field : string) : option Value :=
  (if field =? "id" then Some (VString (uuid_str (u_id user)))
   else if field =? "username" then Some (VString (u_username user))
   else if field =? "email" then VString <$> u_email user
   else if field =? "email_verified" then Some (VBool (u_email_verified user))
   else if field =? "phone" then VString <$> u_phone user
   else if field =? "phone_verified" then Some (VBool (u_phone_verified user))
   else if field =? "locale" then VString <$> u_locale user
   else if field =? "org_id" then (fun o => VString (uuid_str o)) <$> u_org_id user
   else if field =? "created_at" then Some (json_int (unix_seconds (u_created_at user)))
   else if field =? "updated_at" then Some (json_int (unix_seconds (u_updated_at user)))
   else None)%string.

(** A profile attribute that is not null. *)
Definition attr (user : User) (name : string) : option Value :=
  match get_key (u_attributes user) name with
  | Some v => if is_null v then None else Some v
  | None => None
  end.

Definition user_attribute (user : User) (attribute : string) : option Value :=
  match strip_prefix "attributes." attribute with
  | Some rest => attr user rest
  | None => match user_field user attribute with Some v => Some v | None => attr user attribute end
  end.

Definition release_claim (user : User) (name : string) : option Value :=
  if negb (releasable name) then None
  else
  (if name =? "preferred_username" then Some (VString (u_username user))
   else if name =? "email" then VString <$> u_email user
   else if name =? "email_verified" then (fun _ => VBool (u_email_verified user)) <$> u_email user
   else if name =? "phone_number" then VString <$> u_phone user
   else if name =? "phone_number_verified" then (fun _ => VBool (u_phone_verified user)) <$> u_phone user
   else if name =? "locale" then VString <$> u_locale user
   else if name =? "updated_at" then Some (json_int (unix_seconds (u_updated_at user)))
   else if name =? "address" then
     match get_key (u_attributes user) "address" with
     | Some v => if is_object v then Some v else None
     | None => None
     end
   else user_attribute user name)%string.

(** The names a granted scope releases: its row's, or the standard ones. *)
Definition scope_names (defs : list Scope) (granted : string) : list string :=
  match List.find (fun d => String.eqb (sc_name d) granted) defs with
  | Some def => sc_claims def
  | None => standard_scope_claims granted
  end.

Definition release_into (user : User) (out : Map) (name : string) : Map :=
  match out !! name with
  | Some _ => out
  | None => match release_claim user name with Some v => <[name := v]> out | None => out end
  end.
Definition scope_claims (user : User) (scopes : list string) (defs : list Scope) : Map :=
  foldl (fun out granted => foldl (release_into user) out (scope_names defs granted)) ∅ scopes.
Definition standard_claims (user : User) (scopes : list string) : Map := scope_claims user scopes [].

Definition profile_claims (user : User) (schema : ProfileSchema) (exposure : Exposure) (claims : Map)
    : Map :=
  foldl (fun claims def =>
    if negb (releasable (ad_name def)) || bool_decide (is_Some (claims !! ad_name def)) then claims
    else match attr user (ad_name def) with
         | Some v => <[ad_name def := v]> claims
         | None => claims
         end)
    claims (filter (fun a => exposure ∈ ad_visible_in a) (ps_attributes schema)).

(** [mapper_claim_refusal]: the reason, if the mapper may not write its claim. *)
Definition mapper_claim_refusal (m : ClaimMapper) : option string :=
  match claim_name m with
  | None => None
  | Some name =>
      if bool_decide (name ∈ PROTECTED_CLAIMS)
      then Some ("claim `" ++ name ++ "` is set by the token service")%string
      else
        let owned_by_kind :=
          match m_kind m with
          | MRoles _ _ => String.eqb name "roles"
          | MGroups _ _ => String.eqb name "groups"
          | _ => false
          end in
        if bool_decide (name ∈ BUILDER_CLAIMS) && negb owned_by_kind then
          Some (if String.eqb name "permissions"
                then "claim `permissions` is computed from the audience's grants"
                else "claim `" ++ name ++ "` may only be written by a `" ++ name ++ "` mapper")%string
        else None
  end.

Definition coerce (v : Value) (t : JsonType) : option Value :=
  match t with
  | JJson => Some v
  | JString =>
      match v with
      | VString s => Some (VString s)
      | VNull => None
      | other => Some (VString (print_value other))
      end
  | JNumber =>
      match v with
      | VNumber _ => Some v
      | VString s => parse_f64 s
      | _ => None
      end
  | JBoolean =>
      match v with
      | VBool _ => Some v
      | VString s =>
          if String.eqb s "true" then Some (VBool true)
          else if String.eqb s "false" then Some (VBool false) else None
      | _ => None
      end
  end.

(** The [while] loop of [group_path]: at most [fuel] parents, the parts from
    the group upwards. *)
Fixpoint climb (fuel : nat) (all : list Group) (parent : option Uuid) (parts : list string)
    : list string :=
  match parent, fuel with
  | Some pid, S fuel =>
      match List.find (fun x => g_id x =? pid) all with
      | Some p => climb fuel all (g_parent_id p) (parts ++ [g_name p])
      | None => parts
      end
  | _, _ => parts
  end.
Definition group_path (g : Group) (all : list Group) : string :=
  String.concat "/" (reverse (climb 64 all (g_parent_id g) [g_name g])).

(** What a template is rendered from. *)
Definition template_data (ctx : ClaimContext) : Value :=
  VObject
    [("user"%string, match cx_user ctx with Some u => user_json u | None => VNull end);
     ("tenant"%string, VObject [("slug"%string, VString (tn_slug (cx_tenant ctx)));
                         ("id"%string, VString (uuid_str (tn_id (cx_tenant ctx))));
                         ("display_name"%string, VString (tn_display_name (cx_tenant ctx)))]);
     ("client"%string, VObject [("client_id"%string, VString (cx_client_id ctx))]);
     ("roles"%string, json_strings (ro_name <$> cx_roles ctx));
     ("groups"%string, json_strings (g_name <$> cx_groups ctx));
     ("scopes"%string, json_strings (cx_scopes ctx))].

(** One turn of the loop of [apply_mappers] on a mapper that applies. *)
Definition apply_mapper (ctx : ClaimContext) (kind : TokenKind) (acc : Map * list string) (m : ClaimMapper)
    : Map * list string :=
  let '(claims, audiences) := acc in
  if bool_decide (is_Some (mapper_claim_refusal m)) then acc
  else match m_kind m with
  | MUserAttribute attribute claim json_type =>
      match cx_user ctx ≫= fun user => user_attribute user attribute ≫= fun v => coerce v json_type with
      | Some v => (<[claim := v]> claims, audiences)
      | None => acc
      end
  | MGroups claim full_path =>
      match cx_user ctx with
      | Some _ =>
          let names := (fun g => if full_path : bool then group_path g (cx_groups ctx) else g_name g)
                         <$> cx_groups ctx in
          (<[claim := json_strings (btree_set names)]> claims, audiences)
      | None => acc
      end
  | MRoles claim client_id =>
      let mine (r : Role) : bool :=
        match client_id with
        | None => bool_decide (ro_client_id r = None)
        | Some c => match ro_client_id r with Some id => String.eqb (uuid_str id) c | None => false end
        end in
      (<[claim := json_strings (btree_set (ro_name <$> filter (fun r => Is_true (mine r)) (cx_roles ctx)))]> claims,
       audiences)
  | MHardcoded claim value => (<[claim := value]> claims, audiences)
  | MTemplate claim template =>
      match render template (template_data ctx) with
      | Some rendered =>
          if negb (String.eqb rendered "") then (<[claim := VString rendered]> claims, audiences) else acc
      | None => acc
      end
  | MAudience audience =>
      if bool_decide (kind = Access) then (claims, audiences ++ [audience]) else acc
  end.

(** [apply_mappers]: the claims and the extra audiences; it never fails. *)
Definition apply_mappers (mappers : list ClaimMapper) (ctx : ClaimContext) (kind : TokenKind) (claims : Map)
    : Map * list string :=
  foldl (apply_mapper ctx kind) (claims, []) (filter (fun m => Is_true (applies_to m kind)) mappers).
End claims.

(** ** What scopes and the profile schema release *)

Section release.
Context `{UuidDisplay}.

(** What the inner loop over the names of one scope does to one claim. *)
Lemma release_names_lookup user names out n :
  foldl (release_into user) out names !! n
  = match out !! n with
    | Some v => Some v
    | None => if bool_decide (n ∈ names) then release_claim user n else None
    end.
Proof.
  revert out. induction names as [|a names IH]; intros out; cbn [foldl].
  - rewrite bool_decide_eq_false_2 by apply not_elem_of_nil. by case_match.
  - rewrite IH. unfold release_into. destruct (decide (a = n)) as [->|Hne].
    + rewrite (bool_decide_eq_true_2 (n ∈ n :: names)) by apply list_elem_of_here.
      destruct (out !! n) eqn:E; [by rewrite E|].
      destruct (release_claim user n) eqn:Er; [by rewrite lookup_insert_eq|].
      rewrite E. by case_match.
    + rewrite (bool_decide_ext (n ∈ a :: names) (n ∈ names)) by (rewrite elem_of_cons; intuition congruence).
      destruct (out !! a); [done|]. destruct (release_claim user a); [|done].
      by rewrite lookup_insert_ne.
Qed.

Lemma scope_claims_from user defs scopes out n :
  foldl (fun out granted => foldl (release_into user) out (scope_names defs granted)) out scopes !! n
  = match out !! n with
    | Some v => Some v
    | None => if bool_decide (Exists (fun granted => n ∈ scope_names defs granted) scopes)
              then release_claim user n else None
    end.
Proof.
  revert out. induction scopes as [|s scopes IH]; intros out; cbn [foldl].
  - rewrite bool_decide_eq_false_2 by (intros HE; by apply Exists_nil in HE). by case_match.
  - rewrite IH, release_names_lookup. destruct (out !! n); [done|].
    destruct (decide (n ∈ scope_names defs s)) as [Hs|Hs].
    + rewrite (bool_decide_eq_true_2 (n ∈ scope_names defs s)) by done.
      rewrite (bool_decide_eq_true_2 (Exists _ (s :: scopes))) by by left.
      destruct (release_claim user n); [done|]. by case_match.
    + rewrite (bool_decide_eq_false_2 (n ∈ scope_names defs s)) by done.
      by rewrite (bool_decide_ext (Exists _ (s :: scopes)) (Exists (fun granted => n ∈ scope_names defs granted) scopes))
        by (rewrite Exists_cons; tauto).
Qed.

Lemma release_claim_releasable user n v : release_claim user n = Some v -> releasable n = true.
Proof. unfold release_claim. by destruct (releasable n). Qed.

(** The profile schema adds only releasable claims that are not there yet. *)
Lemma profile_claims_keeps user schema exposure claims n :
  releasable n = false \/ is_Some (claims !! n) ->
  profile_claims user schema exposure claims !! n = claims !! n.
Proof.
  unfold profile_claims. generalize (filter (fun a => exposure ∈ ad_visible_in a) (ps_attributes schema)).
  intros defs. revert claims. induction defs as [|d defs IH]; intros claims Hn; [done|].
  cbn [foldl].
  assert (forall v, ad_name d = n -> releasable (ad_name d) = true -> claims !! n = None ->
            <[ad_name d := v]> claims !! n = claims !! n) as Hsame.
  { intros v -> Hr Hc. destruct Hn as [Hn|[x Hx]]; congruence. }
  destruct (releasable (ad_name d)) eqn:Er; cbn [negb orb]; [|by apply IH].
  case_bool_decide as Hc; [by apply IH|]. apply eq_None_not_Some in Hc.
  destruct (attr user (ad_name d)) as [v|]; [|by apply IH].
  assert (<[ad_name d := v]> claims !! n = claims !! n) as E.
  { destruct (decide (ad_name d = n)) as [<-|]; [by apply Hsame|by apply lookup_insert_ne]. }
  rewrite IH; [done|]. rewrite E. done.
Qed.
End release.

(** ** What mappers write *)

Section mappers.
Context `{UuidDisplay}.
Context (print_value : Value -> string) (parse_f64 : string -> option Value) (user_json : User -> Value).
Context (render : string -> Value -> option string).
Notation apply_mapper := (apply_mapper print_value parse_f64 user_json render).
Notation apply_mappers := (apply_mappers print_value parse_f64 user_json render).

(** A mapper of [kind] that may write the claim [n]. *)
Definition writer (kind : TokenKind) (n : string) (m : ClaimMapper) : Prop :=
  applies_to m kind = true /\ claim_name m = Some n /\ mapper_claim_refusal m = None.

Lemma apply_mapper_keeps ctx kind acc m n :
  (mapper_claim_refusal m = None -> claim_name m <> Some n) ->
  (apply_mapper ctx kind acc m).1 !! n = acc.1 !! n.
Proof.
  destruct acc as [claims auds]. unfold Claims.apply_mapper. cbn [fst].
  destruct (mapper_claim_refusal m) eqn:Er; [by rewrite bool_decide_eq_true_2 by by eexists|].
  rewrite bool_decide_eq_false_2 by by apply eq_None_not_Some.
  intros Hn. specialize (Hn eq_refl). unfold claim_name in Hn.
  destruct (m_kind m); repeat case_match; try done; cbn [fst]; apply lookup_insert_ne; congruence.
Qed.

Lemma apply_mappers_keeps mappers ctx kind claims n :
  (forall m, m ∈ mappers -> ~ writer kind n m) ->
  (apply_mappers mappers ctx kind claims).1 !! n = claims !! n.
Proof.
  intros Hn. unfold Claims.apply_mappers. change (claims !! n) with ((claims, @nil string).1 !! n).
  generalize (claims, @nil string). induction mappers as [|m mappers IH]; intros acc; [done|].
  rewrite filter_cons. destruct (decide (Is_true (applies_to m kind))) as [Ha|Ha].
  - cbn [foldl]. rewrite IH by (intros; apply Hn; by apply list_elem_of_further).
    apply apply_mapper_keeps. intros Hr Hc. apply (Hn m); [apply list_elem_of_here|].
    by repeat split; [apply Is_true_true|..].
  - apply IH. intros; apply Hn. by apply list_elem_of_further.
Qed.

(** No mapper writes what the token service owns; [roles] and [groups] are
    left to the mappers of these kinds. *)
Lemma writer_spec kind n m :
  writer kind n m ->
  (n ∉ PROTECTED_CLAIMS) /\ n <> "permissions"%string
  /\ (n = "roles"%string -> exists c, m_kind m = MRoles n c)
  /\ (n = "groups"%string -> exists p, m_kind m = MGroups n p).
Proof.
  intros (_ & Hc & Hr). unfold mapper_claim_refusal in Hr. rewrite Hc in Hr.
  case_bool_decide as Hp; [done|]. split; [done|].
  unfold claim_name in Hc. split; [|split]; intros ->;
    rewrite (bool_decide_eq_true_2 (_ ∈ BUILDER_CLAIMS)) in Hr by (unfold BUILDER_CLAIMS; set_solver);
    destruct (m_kind m); simplify_eq; try done; eauto.
Qed.
End mappers.

(** ** Group paths *)

(** The names from the root, or from a group whose parent is not listed, down
    to [g]. *)
Inductive ancestry (all : list Group) : Group -> list string -> Prop :=
| anc_root g : g_parent_id g = None -> ancestry all g [g_name g]
| anc_orphan g pid :
    g_parent_id g = Some pid -> List.find (fun x => g_id x =? pid) all = None -> ancestry all g [g_name g]
| anc_child g pid p l :
    g_parent_id g = Some pid -> List.find (fun x => g_id x =? pid) all = Some p -> ancestry all p l ->
    ancestry all g (l ++ [g_name g]).

Lemma climb_ancestry all g l :
  ancestry all g l -> forall fuel parts, (length l <= S fuel)%nat ->
  climb fuel all (g_parent_id g) (parts ++ [g_name g]) = parts ++ reverse l.
Proof.
  induction 1 as [g Hp|g pid Hp Hf|g pid p l Hp Hf _ IH]; intros fuel parts Hl; rewrite Hp.
  - by destruct fuel.
  - destruct fuel; [done|]. cbn [climb]. by rewrite Hf.
  - rewrite length_app in Hl. cbn [length] in Hl.
    destruct fuel as [|fuel].
    { destruct l as [|x l]; [|cbn [length] in Hl; lia]. exfalso. clear -IH.
      specialize (IH 0%nat [] (Nat.le_0_l _)). cbn [reverse app] in IH. by destruct (g_parent_id p). }
    cbn [climb]. rewrite Hf, IH by lia. rewrite reverse_snoc. by rewrite <- app_assoc.
Qed.

Lemma climb_length fuel all parent parts :
  (length (climb fuel all parent parts) <= fuel + length parts)%nat.
Proof.
  revert parent parts. induction fuel as [|fuel IH]; intros [pid|] parts; cbn [climb]; try lia.
  case_match; [|lia]. etrans; [apply IH|]. rewrite length_app. cbn [length]. lia.
Qed.

(** ** Theorems *)

(** whatever mappers a tenant configures, none of them changes a claim the
    token service owns ([iss], [sub], [exp], [cnf], [act], ...) or
    [permissions]; [roles] changes only where a [roles] mapper writes it and
    [groups] only where a [groups] mapper does. *)
Theorem mappers_keep_owned `{UuidDisplay} print_value parse_f64 user_json render mappers ctx kind claims :
  let claims' := (apply_mappers print_value parse_f64 user_json render mappers ctx kind claims).1 in
  (forall n, n ∈ PROTECTED_CLAIMS \/ n = "permissions"%string -> claims' !! n = claims !! n)
  /\ (claims' !! "roles"%string <> claims !! "roles"%string ->
      exists m c, m ∈ mappers /\ applies_to m kind = true /\ m_kind m = MRoles "roles" c)
  /\ (claims' !! "groups"%string <> claims !! "groups"%string ->
      exists m p, m ∈ mappers /\ applies_to m kind = true /\ m_kind m = MGroups "groups" p).
Proof.
  intros claims'. split; [|split].
  - intros n Hn. apply apply_mappers_keeps. intros m _ (Hp & Hq & _)%writer_spec. destruct Hn; tauto.
  - intros Hne. destruct (decide (Exists (writer kind "roles") mappers)) as [He|He].
    + apply Exists_exists in He as (m & Hm & Hw). pose proof Hw as (Ha & _ & _).
      apply writer_spec in Hw as (_ & _ & Hr & _). destruct (Hr eq_refl) as [c Hc]. eauto.
    + destruct Hne. apply apply_mappers_keeps. intros m Hm Hw. apply He, Exists_exists. eauto.
  - intros Hne. destruct (decide (Exists (writer kind "groups") mappers)) as [He|He].
    + apply Exists_exists in He as (m & Hm & Hw). pose proof Hw as (Ha & _ & _).
      apply writer_spec in Hw as (_ & _ & _ & Hr). destruct (Hr eq_refl) as [c Hc]. eauto.
    + destruct Hne. apply apply_mappers_keeps. intros m Hm Hw. apply He, Exists_exists. eauto.
Qed.

(** the claims that granted scopes release are exactly the values of the
    names their rows (or the standard sets) list, and never one the token
    service owns. *)
Theorem scope_claims_exact `{UuidDisplay} user scopes defs n v :
  scope_claims user scopes defs !! n = Some v
  <-> release_claim user n = Some v /\ releasable n = true
      /\ exists granted, granted ∈ scopes /\ n ∈ scope_names defs granted.
Proof.
  unfold scope_claims. rewrite scope_claims_from, lookup_empty.
  rewrite <- Exists_exists. case_bool_decide as He; split; try done; try tauto.
  intros Hr. split; [done|]. split; [by eapply release_claim_releasable|done].
Qed.

(** a group's path is the names from the topmost listed ancestor down to
    it, for hierarchies up to 64 levels above it; and it never has more than
    65 parts, even where the parents form a cycle. *)
Theorem group_path_exact all g :
  (forall l, ancestry all g l -> (length l <= 65)%nat -> group_path g all = String.concat "/" l)
  /\ exists parts, group_path g all = String.concat "/" parts /\ (length parts <= 65)%nat.
Proof.
  split.
  - intros l Ha Hl. pose proof (climb_ancestry all g l Ha 64 [] Hl) as E. cbn [app] in E.
    unfold group_path. by rewrite E, reverse_involutive.
  - eexists. split; [reflexivity|]. rewrite length_reverse.
    etrans; [apply climb_length|]. cbn [length]. lia.
Qed.

(** Two groups that are each other's parent: the path stops after 65 names. *)
Example group_path_cycle :
  let a := mkGroup 1 (Some 2) "a" in
  let b := mkGroup 2 (Some 1) "b" in
  length (climb 64 [a; b] (g_parent_id a) [g_name a]) = 65%nat.
Proof. vm_compute. reflexivity. Qed.
