(* ===== verification/SigningKeys.v ===== *)
(** * Signing keys

    Models [api/src/services/keys.rs] and [api/src/repos/signing_keys.rs]: a
    tenant signs with one active key per algorithm; rotation retires the key
    it replaces, which stays published until its overlap ends. A transaction
    is one step; the caches hang off a version that every key change moves and
    are left out, as is the lock that keeps two nodes from making the first
    key at once (the unique index decides between them). Times are in
    milliseconds. *)

From stdpp Require Import gmap strings sorting.
From S2P Require Import Prelude Effects Valkey KeyCustody Models.

Inductive KeyStatus := KPending | KActive | KRetiring | KRevoked.
#[export] Instance key_status_dec : EqDecision KeyStatus.
Proof. solve_decision. Defined.
Definition is_published (s : KeyStatus) : bool :=
  match s with KPending | KActive | KRetiring => true | KRevoked => false end.

Record SigningKey := mkSigningKey {
  sk_id : Uuid;
  sk_tenant_id : Uuid;
  sk_kid : string;
  sk_alg : SigningAlg;
  sk_public_jwk : Value;
  sk_private_key_enc : list Z;
  sk_key_version : Z;
  sk_status : KeyStatus;
  sk_not_before : Z;
  sk_expires_at : option Z;
  sk_created_at : Z
}.

Inductive KeyError := KeyInternal | KeyBadRequest | KeyNotFound | KeyConflict.
Inductive KeyEvent :=
| SigningKeyCreated (key_id : Uuid) (kid alg : string)
| SigningKeyStatusChanged (key_id : Uuid) (kid : string) (status : KeyStatus).

(** ** Generation *)

(** What aws-lc-rs generates for an algorithm: the members of the public JWK
    and the PKCS#8 private key. *)
Inductive PublicParams := PRsa (n e : string) | PEc (x y : string) | POkp (x : string).
Record KeyMaterial := mkKeyMaterial { km_public : PublicParams; km_der : list Z }.

Definition params_json (p : PublicParams) : list (string * Value) :=
  (match p with
   | PRsa n e => [("kty", VString "RSA"); ("n", VString n); ("e", VString e)]
   | PEc x y => [("kty", VString "EC"); ("crv", VString "P-256"); ("x", VString x); ("y", VString y)]
   | POkp x => [("kty", VString "OKP"); ("crv", VString "Ed25519"); ("x", VString x)]
   end)%string.

Definition quote : string := String (Ascii.ascii_of_nat 34) EmptyString.
Definition quoted (s : string) : string := (quote ++ s ++ quote)%string.

Record GeneratedKey := mkGeneratedKey {
  gk_alg : SigningAlg;
  gk_kid : string;
  gk_public_jwk : Value;
  gk_private_der : list Z
}.

Section generation.
Context (sha256 : string -> list Z) (b64 : list Z -> string).

(** RFC 7638. *)
Definition thumbprint (jwk : Value) : result KeyError string :=
  let kty := default ""%string (get_key jwk "kty" ≫= as_str) in
  let? members :=
    (if kty =? "RSA" then Ok ["e"; "kty"; "n"]
     else if kty =? "EC" then Ok ["crv"; "kty"; "x"; "y"]
     else if kty =? "OKP" then Ok ["crv"; "kty"; "x"]
     else Err KeyBadRequest)%string in
  let fix go (ms : list string) : result KeyError (list string) :=
    match ms with
    | [] => Ok []
    | m :: ms =>
        let? v := ok_or (get_key jwk m ≫= as_str) KeyBadRequest in
        let? rest := go ms in
        Ok ((quoted m ++ ":" ++ quoted v)%string :: rest)
    end in
  let? parts := go members in
  Ok (b64 (sha256 ("{" ++ String.concat "," parts ++ "}")%string)).

(** [generate], with what aws-lc-rs makes. *)
Definition generate (keygen : SigningAlg -> option KeyMaterial) (alg : SigningAlg)
    : result KeyError GeneratedKey :=
  let? km := ok_or (keygen alg) KeyInternal in
  let params := params_json (km_public km) in
  let? kid := thumbprint (VObject params) in
  Ok (mkGeneratedKey alg kid
        (VObject (params ++ [("kid", VString kid); ("alg", VString (SigningAlg_as_str alg));
                             ("use", VString "sig")]%string))
        (km_der km)).
End generation.

(** ** Rows *)

Definition key_at (tenant_id id : Uuid) (r : SigningKey) : bool :=
  (sk_tenant_id r =? tenant_id) && (sk_id r =? id).

(** Would an active row be a second one for its tenant and algorithm?
    ([signing_keys_one_active_per_alg]). *)
Definition active_twin (r o : SigningKey) : bool :=
  (sk_tenant_id o =? sk_tenant_id r) && bool_decide (sk_alg o = sk_alg r)
  && bool_decide (sk_status o = KActive) && negb (sk_id o =? sk_id r).

Module KeyRepo.
(** [insert]: [None] when a unique constraint refuses the row. *)
Definition insert (r : SigningKey) (rows : list SigningKey) : option (list SigningKey) :=
  if existsb (fun o => (sk_id o =? sk_id r)
                       || ((sk_tenant_id o =? sk_tenant_id r) && String.eqb (sk_kid o) (sk_kid r))) rows
     || (bool_decide (sk_status r = KActive) && existsb (active_twin r) rows)
  then None else Some (rows ++ [r]).

Definition find_by_id (tenant_id id : Uuid) (rows : list SigningKey) : option SigningKey :=
  List.find (key_at tenant_id id) rows.

(** [ORDER BY created_at DESC, id DESC]. *)
Definition newest (a b : SigningKey) : Prop :=
  sk_created_at b < sk_created_at a \/ (sk_created_at a = sk_created_at b /\ sk_id b <= sk_id a).
#[export] Instance newest_dec a b : Decision (newest a b).
Proof. unfold newest. apply _. Defined.
Definition of_status (status : option KeyStatus) (r : SigningKey) : Prop :=
  match status with Some s => sk_status r = s | None => True end.
#[export] Instance of_status_dec status r : Decision (of_status status r).
Proof. unfold of_status. destruct status; apply _. Defined.
Definition list_keys (tenant_id : Uuid) (status : option KeyStatus) (rows : list SigningKey)
    : list SigningKey :=
  merge_sort newest
    (filter (fun r => sk_tenant_id r = tenant_id /\ of_status status r) rows).
Definition list_published (tenant_id : Uuid) (rows : list SigningKey) : list SigningKey :=
  merge_sort newest
    (filter (fun r => sk_tenant_id r = tenant_id /\ is_published (sk_status r) = true) rows).

(** [ORDER BY not_before DESC, id DESC LIMIT 1]. *)
Definition starts_later (a b : SigningKey) : Prop :=
  sk_not_before b < sk_not_before a \/ (sk_not_before a = sk_not_before b /\ sk_id b <= sk_id a).
#[export] Instance starts_later_dec a b : Decision (starts_later a b).
Proof. unfold starts_later. apply _. Defined.
Definition find_active (now : Z) (tenant_id : Uuid) (alg : SigningAlg) (rows : list SigningKey)
    : option SigningKey :=
  head (merge_sort starts_later
    (filter (fun r => sk_tenant_id r = tenant_id /\ sk_alg r = alg /\ sk_status r = KActive
                      /\ sk_not_before r <= now) rows)).

Definition with_status (status : KeyStatus) (expires_at : option Z) (r : SigningKey) : SigningKey :=
  mkSigningKey (sk_id r) (sk_tenant_id r) (sk_kid r) (sk_alg r) (sk_public_jwk r) (sk_private_key_enc r)
    (sk_key_version r) status (sk_not_before r)
    (match expires_at with Some e => Some e | None => sk_expires_at r end) (sk_created_at r).

(** [set_status]: the row after, if there is one; an error when the unique
    index refuses a second active key. *)
Definition set_status (tenant_id id : Uuid) (status : KeyStatus) (expires_at : option Z)
    : M (list SigningKey) KeyError (option SigningKey) := fun rows =>
  match find_by_id tenant_id id rows with
  | None => (Ok None, rows)
  | Some r =>
      if bool_decide (status = KActive) && existsb (active_twin r) rows then (Err KeyInternal, rows)
      else (Ok (Some (with_status status expires_at r)),
            (fun o => if key_at tenant_id id o then with_status status expires_at o else o) <$> rows)
  end.
Definition delete (tenant_id id : Uuid) (rows : list SigningKey) : list SigningKey :=
  filter (fun r => Is_true (negb (key_at tenant_id id r))) rows.
End KeyRepo.

(** ** The service *)

Section keys.
Context `{UuidDisplay} `{KeyEncryptor}.
Context (sha256 : string -> list Z) (b64 : list Z -> string).

(** The table, this node's encryptor, and what was published. *)
Record KeyStore := mkKeyStore {
  ks_rows : list SigningKey;
  ks_enc : kstate;
  ks_events : list KeyEvent
}.
Definition ks_with_rows (st : KeyStore) (rows : list SigningKey) : KeyStore :=
  mkKeyStore rows (ks_enc st) (ks_events st).
Definition ks_publish (st : KeyStore) (e : KeyEvent) : KeyStore :=
  mkKeyStore (ks_rows st) (ks_enc st) (ks_events st ++ [e]).

(** A statement on the rows. *)
Definition on_rows {A} (m : M (list SigningKey) KeyError A) : M KeyStore KeyError A := fun st =>
  let '(r, rows) := m (ks_rows st) in (r, ks_with_rows st rows).
Definition publish_status (key : SigningKey) (status : KeyStatus) : M KeyStore KeyError unit :=
  modify (fun st => ks_publish st (SigningKeyStatusChanged (sk_id key) (sk_kid key) status)).

Definition aad_for (tenant_id key_id : Uuid) : list Z :=
  ascii_bytes ("signing_keys:" ++ uuid_str tenant_id ++ ":" ++ uuid_str key_id)%string.

(** What one generation draws: the key pair, the row's id, and the encryption's
    randomness. *)
Record KeyDraw := mkKeyDraw {
  kd_keygen : SigningAlg -> option KeyMaterial;
  kd_id : Uuid;
  kd_rnd : Random
}.

Definition create (now : Z) (d : KeyDraw) (tenant_id : Uuid) (alg : SigningAlg) (status : KeyStatus)
    (not_before : option Z) : M KeyStore KeyError SigningKey :=
  let! generated := lift (generate sha256 b64 (kd_keygen d) alg) in
  let! enc := gets ks_enc in
  let! encrypted :=
    lift (map_err (fun _ => KeyInternal)
            (ke_encrypt (kd_rnd d) enc (gk_private_der generated) (aad_for tenant_id (kd_id d)))) in
  let key :=
    mkSigningKey (kd_id d) tenant_id (gk_kid generated) alg (gk_public_jwk generated) (to_bytes encrypted)
      (as_i32 (key_version encrypted)) status (default now not_before) None now in
  let! rows := gets ks_rows in
  let! rows := lift (ok_or (KeyRepo.insert key rows) KeyConflict) in
  do! modify (fun st => ks_with_rows st rows) in
  do! modify (fun st => ks_publish st (SigningKeyCreated (sk_id key) (sk_kid key) (SigningAlg_as_str alg))) in
  ret key.

(** [private_der]. *)
Definition private_der (now : Z) (key : SigningKey) : M KeyStore KeyError (list Z) := fun st =>
  match from_bytes (sk_private_key_enc key) with
  | Err _ => (Err KeyInternal, st)
  | Ok encrypted =>
      let '(r, k) := ke_decrypt now (ks_enc st) encrypted (aad_for (sk_tenant_id key) (sk_id key)) in
      (map_err (fun _ => KeyInternal) r, mkKeyStore (ks_rows st) k (ks_events st))
  end.

Definition hours (n : Z) : Z := n * 3600 * 1000.
Definition days (n : Z) : Z := n * 86400 * 1000.

(** The transaction of [activate]: the keys retired and the key. *)
Definition activate_tx (now : Z) (policy : KeyPolicy) (tenant_id id : Uuid)
    : M (list SigningKey) KeyError (list SigningKey * SigningKey) :=
  let! rows := gets (fun rows => rows) in
  let! key := lift (ok_or (KeyRepo.find_by_id tenant_id id rows) KeyNotFound) in
  do! guard (bool_decide (sk_status key = KRevoked)) KeyBadRequest in
  let overlap := now + hours (retire_overlap_hours policy) in
  let retired :=
    filter (fun other => sk_id other <> id /\ sk_alg other = sk_alg key)
      (KeyRepo.list_keys tenant_id (Some KActive) rows) in
  do! each retired (fun other =>
        let! _ := KeyRepo.set_status tenant_id (sk_id other) KRetiring (Some overlap) in ret tt) in
  let! key := KeyRepo.set_status tenant_id id KActive None in
  let! key := lift (ok_or key KeyNotFound) in
  ret (retired, key).

Definition activate (now : Z) (policy : KeyPolicy) (tenant_id id : Uuid)
    : M KeyStore KeyError SigningKey :=
  let! r := on_rows (transaction (activate_tx now policy tenant_id id)) in
  do! each r.1 (fun o => publish_status o KRetiring) in
  do! publish_status r.2 KActive in
  ret r.2.

Definition retire (now : Z) (policy : KeyPolicy) (tenant_id id : Uuid) : M KeyStore KeyError SigningKey :=
  let! key := on_rows (transaction (
    let! rows := gets (fun rows => rows) in
    let! key := lift (ok_or (KeyRepo.find_by_id tenant_id id rows) KeyNotFound) in
    do! guard (bool_decide (sk_status key = KRevoked)) KeyBadRequest in
    let! key := KeyRepo.set_status tenant_id id KRetiring
                  (Some (now + hours (retire_overlap_hours policy))) in
    lift (ok_or key KeyNotFound))) in
  do! publish_status key KRetiring in
  ret key.

Definition revoke (now : Z) (tenant_id id : Uuid) : M KeyStore KeyError SigningKey :=
  let! key := on_rows (transaction (
    let! key := KeyRepo.set_status tenant_id id KRevoked (Some now) in
    lift (ok_or key KeyNotFound))) in
  do! publish_status key KRevoked in
  ret key.

Definition rotate_alg (now : Z) (d : KeyDraw) (policy : KeyPolicy) (tenant_id : Uuid) (alg : SigningAlg)
    : M KeyStore KeyError SigningKey :=
  let! fresh := create now d tenant_id alg KPending None in
  activate now policy tenant_id (sk_id fresh).
Definition rotate (now : Z) (d : KeyDraw) (policy : KeyPolicy) (tenant_id : Uuid)
    : M KeyStore KeyError SigningKey :=
  rotate_alg now d policy tenant_id (default_alg policy).

(** [active]: the key that signs for [alg]. *)
Definition active (now : Z) (tenant_id : Uuid) (alg : SigningAlg) : M KeyStore KeyError (option SigningKey) :=
  gets (fun st => KeyRepo.find_active now tenant_id alg (ks_rows st)).

Definition first_key (now : Z) (d : KeyDraw) (tenant_id : Uuid) (alg : SigningAlg)
    : M KeyStore KeyError SigningKey := fun st =>
  match create now d tenant_id alg KActive None st with
  | (Err KeyConflict, st) =>
      (let! k := active now tenant_id alg in lift (ok_or k KeyInternal)) st
  | r => r
  end.

(** [ensure_active_alg], where the lock for making the first key is free. *)
Definition ensure_active_alg (now : Z) (d : KeyDraw) (tenant_id : Uuid) (alg : SigningAlg)
    : M KeyStore KeyError SigningKey :=
  let! k := active now tenant_id alg in
  match k with
  | Some k => ret k
  | None => first_key now d tenant_id alg
  end.
Definition ensure_active (now : Z) (d : KeyDraw) (tenant_id : Uuid) (policy : KeyPolicy)
    : M KeyStore KeyError SigningKey :=
  ensure_active_alg now d tenant_id (default_alg policy).

(** [maintain]: [d i] is what its [i]-th rotation draws; the keys it rotates
    are those active when it lists them. *)
Definition expired_by (now : Z) (k : SigningKey) : Prop :=
  match sk_expires_at k with Some t => t <= now | None => False end.
#[export] Instance expired_by_dec now k : Decision (expired_by now k).
Proof. unfold expired_by. destruct (sk_expires_at k); apply _. Defined.
Definition due_revoked (now : Z) (tenant_id : Uuid) (rows : list SigningKey) : list SigningKey :=
  filter (expired_by now)
    (KeyRepo.list_keys tenant_id (Some KRetiring) rows).
Definition due_rotated (now : Z) (policy : KeyPolicy) (tenant_id : Uuid) (rows : list SigningKey)
    : list SigningKey :=
  if 0 <? rotation_interval_days policy then
    filter (fun k => sk_not_before k + days (rotation_interval_days policy) <= now)
      (KeyRepo.list_keys tenant_id (Some KActive) rows)
  else [].
Definition maintain (now : Z) (d : nat -> KeyDraw) (policy : KeyPolicy) (tenant_id : Uuid)
    : M KeyStore KeyError (Z * bool) :=
  let! old := gets (fun st => due_revoked now tenant_id (ks_rows st)) in
  do! each old (fun k => let! _ := revoke now tenant_id (sk_id k) in ret tt) in
  let! current := gets (fun st => due_rotated now policy tenant_id (ks_rows st)) in
  do! each (zip (seq 0 (length current)) current) (fun p =>
        let! _ := rotate_alg now (d p.1) policy tenant_id (sk_alg p.2) in ret tt) in
  ret (zlen old, negb (bool_decide (current = []))).

Definition published_jwks (tenant_id : Uuid) (st : KeyStore) : list Value :=
  sk_public_jwk <$> KeyRepo.list_published tenant_id (ks_rows st).
End keys.

(** ** Rows under the statements *)

Lemma key_at_spec t id r : key_at t id r = true <-> sk_tenant_id r = t /\ sk_id r = id.
Proof. unfold key_at. rewrite andb_true_iff, !Z.eqb_eq. done. Qed.

Lemma key_at_with_status t id s e r : key_at t id (KeyRepo.with_status s e r) = key_at t id r.
Proof. done. Qed.

Lemma active_twin_spec r o :
  active_twin r o = true
  <-> sk_tenant_id o = sk_tenant_id r /\ sk_alg o = sk_alg r /\ sk_status o = KActive /\ sk_id o <> sk_id r.
Proof.
  unfold active_twin. rewrite !andb_true_iff, negb_true_iff, !bool_decide_eq_true, Z.eqb_eq, Z.eqb_neq.
  tauto.
Qed.

(** What never changes of a key. *)
Definition key_name (r : SigningKey) : Uuid * string := (sk_tenant_id r, sk_kid r).
Record same_key (r r' : SigningKey) : Prop := {
  same_id : sk_id r' = sk_id r;
  same_tenant : sk_tenant_id r' = sk_tenant_id r;
  same_kid : sk_kid r' = sk_kid r;
  same_alg : sk_alg r' = sk_alg r;
  same_jwk : sk_public_jwk r' = sk_public_jwk r;
  same_private : sk_private_key_enc r' = sk_private_key_enc r
}.

(** The public JWK says which key it is. *)
Definition jwk_ok (r : SigningKey) : Prop :=
  get_key (sk_public_jwk r) "kid" = Some (VString (sk_kid r))
  /\ get_key (sk_public_jwk r) "alg" = Some (VString (SigningAlg_as_str (sk_alg r))).

Lemma same_key_jwk r r' : same_key r r' -> jwk_ok r -> jwk_ok r'.
Proof. intros [_ _ Hk Ha Hj _]. unfold jwk_ok. by rewrite Hk, Ha, Hj. Qed.

Lemma generate_jwk sha256 b64 keygen alg g :
  generate sha256 b64 keygen alg = Ok g ->
  gk_alg g = alg /\ get_key (gk_public_jwk g) "kid" = Some (VString (gk_kid g))
  /\ get_key (gk_public_jwk g) "alg" = Some (VString (SigningAlg_as_str alg)).
Proof.
  unfold generate. destruct (keygen alg) as [km|]; cbn [ok_or]; [|done].
  destruct (thumbprint _ _ _) as [kid|]; [|done]. intros [= <-]. by destruct (km_public km).
Qed.

(** Ids and names are unique, JWKs name their keys, and no active key has a
    twin. *)
Record keys_ok (rows : list SigningKey) : Prop := {
  ko_ids : NoDup (sk_id <$> rows);
  ko_names : NoDup (key_name <$> rows);
  ko_jwks r : r ∈ rows -> jwk_ok r;
  ko_active r o : r ∈ rows -> o ∈ rows -> sk_status r = KActive -> active_twin r o = false
}.

Lemma keys_ok_nil : keys_ok [].
Proof. split; [apply NoDup_nil_2..| |]; [intros x Hx|intros x y Hx]; by apply not_elem_of_nil in Hx. Qed.

Lemma find_by_id_elem t id rows r :
  KeyRepo.find_by_id t id rows = Some r -> r ∈ rows /\ sk_tenant_id r = t /\ sk_id r = id.
Proof. intros [Hr Hk]%List.find_some. split; [by apply list_elem_of_In|by apply key_at_spec]. Qed.

Lemma find_by_id_none t id rows o : KeyRepo.find_by_id t id rows = None -> o ∈ rows -> key_at t id o = false.
Proof. intros Hf Ho. eapply List.find_none in Hf; [done|by apply list_elem_of_In]. Qed.

Lemma find_by_id_map t id (f : SigningKey -> SigningKey) rows :
  (forall r, key_at t id (f r) = key_at t id r) ->
  KeyRepo.find_by_id t id (f <$> rows) = f <$> KeyRepo.find_by_id t id rows.
Proof.
  intros Hf. unfold KeyRepo.find_by_id. induction rows as [|r rows IH]; [done|].
  cbn [fmap list_fmap List.find]. rewrite Hf. by destruct (key_at t id r).
Qed.

(** Setting a status other than active cannot fail, and changes only its key. *)
Definition status_row (t id : Uuid) (s : KeyStatus) (e : option Z) (o : SigningKey) : SigningKey :=
  if key_at t id o then KeyRepo.with_status s e o else o.

Lemma set_status_run t id s e rows :
  s <> KActive ->
  KeyRepo.set_status t id s e rows
  = (Ok (KeyRepo.with_status s e <$> KeyRepo.find_by_id t id rows), status_row t id s e <$> rows).
Proof.
  intros Hs. unfold KeyRepo.set_status. rewrite (bool_decide_eq_false_2 (s = KActive)) by done. cbn [andb].
  destruct (KeyRepo.find_by_id t id rows) as [r|] eqn:Ef; [done|]. cbn [fmap option_fmap option_map].
  f_equal. symmetry. rewrite <- (list_fmap_id rows) at 2. apply list_fmap_ext. intros i o Ho.
  unfold status_row. rewrite (find_by_id_none _ _ _ o Ef); [done|]. by eapply list_elem_of_lookup_2.
Qed.

Lemma set_status_preserves t id s e (P : list SigningKey -> Prop) :
  (forall rows, P rows -> P (status_row t id s e <$> rows)) -> preserves P (KeyRepo.set_status t id s e).
Proof.
  intros Hp rows HP. unfold KeyRepo.set_status. destruct (KeyRepo.find_by_id t id rows); [|done].
  case_match; [done|]. by apply Hp.
Qed.

(** The retiring loop of [activate]. *)
Definition retire_row (t : Uuid) (ids : list Uuid) (ov : Z) (o : SigningKey) : SigningKey :=
  if (sk_tenant_id o =? t) && bool_decide (sk_id o ∈ ids)
  then KeyRepo.with_status KRetiring (Some ov) o else o.

Lemma retire_each t ov (l rows : list SigningKey) :
  each l (fun other => let! _ := KeyRepo.set_status t (sk_id other) KRetiring (Some ov) in ret tt) rows
  = (Ok tt, retire_row t (sk_id <$> l) ov <$> rows).
Proof.
  revert rows. induction l as [|x l IH]; intros rows.
  - cbn. f_equal. rewrite <- (list_fmap_id rows) at 1. apply list_fmap_ext. intros i o _.
    unfold retire_row. rewrite bool_decide_eq_false_2 by apply not_elem_of_nil. by rewrite andb_false_r.
  - cbn [each]. unfold bind at 1, bind at 1. rewrite set_status_run by done. cbn [ret]. rewrite IH. f_equal.
    rewrite <- list_fmap_compose. apply list_fmap_ext. intros i o _. unfold compose, retire_row, status_row.
    rewrite fmap_cons. unfold key_at.
    destruct (sk_tenant_id o =? t) eqn:Et; cbn [andb]; [|by rewrite Et].
    destruct (sk_id o =? sk_id x) eqn:Ex.
    + apply Z.eqb_eq in Ex. cbn [sk_tenant_id sk_id KeyRepo.with_status]. rewrite Et. cbn [andb].
      rewrite (bool_decide_eq_true_2 (sk_id o ∈ sk_id x :: _)) by (rewrite Ex; apply list_elem_of_here).
      by case_bool_decide.
    + rewrite Et. cbn [andb]. apply Z.eqb_neq in Ex.
      by rewrite (bool_decide_ext (sk_id o ∈ sk_id x :: (sk_id <$> l)) (sk_id o ∈ sk_id <$> l))
        by (rewrite elem_of_cons; tauto).
Qed.

(** *** Activation *)

(** What [activate] makes of a row: the key becomes active, the active key of
    its algorithm retires. *)
Definition act_row (ov : Z) (t id : Uuid) (alg : SigningAlg) (o : SigningKey) : SigningKey :=
  if key_at t id o then KeyRepo.with_status KActive None o
  else if bool_decide (sk_tenant_id o = t /\ sk_status o = KActive /\ sk_alg o = alg)
       then KeyRepo.with_status KRetiring (Some ov) o else o.

Lemma list_keys_elem t s rows r :
  r ∈ KeyRepo.list_keys t (Some s) rows <-> r ∈ rows /\ sk_tenant_id r = t /\ sk_status r = s.
Proof.
  unfold KeyRepo.list_keys. rewrite merge_sort_Permutation, list_elem_of_filter. cbn [KeyRepo.of_status]. tauto.
Qed.

(** The keys [activate] retires, by their ids. *)
Definition retired_by (t id : Uuid) (alg : SigningAlg) (rows : list SigningKey) : list SigningKey :=
  filter (fun other => sk_id other <> id /\ sk_alg other = alg) (KeyRepo.list_keys t (Some KActive) rows).

Lemma retired_by_id t id alg rows o :
  keys_ok rows -> o ∈ rows -> sk_tenant_id o = t ->
  sk_id o ∈ sk_id <$> retired_by t id alg rows <-> sk_id o <> id /\ sk_status o = KActive /\ sk_alg o = alg.
Proof.
  intros Hk Ho Ht. rewrite list_elem_of_fmap. split.
  - intros (x & E & [[Hx Ha] (Hin & _ & Hs)%list_keys_elem]%list_elem_of_filter).
    assert (o = x) as -> by (apply (nodup_key_inj sk_id rows); [apply Hk|done..]). tauto.
  - intros (? & ? & ?). exists o. split; [done|]. apply list_elem_of_filter. split; [done|].
    by apply list_keys_elem.
Qed.

Lemma activate_tx_run now pol t id rows key :
  keys_ok rows -> KeyRepo.find_by_id t id rows = Some key -> sk_status key <> KRevoked ->
  activate_tx now pol t id rows
  = (Ok (retired_by t id (sk_alg key) rows, KeyRepo.with_status KActive None key),
     act_row (now + hours (retire_overlap_hours pol)) t id (sk_alg key) <$> rows).
Proof.
  intros Hk Hf Hs. unfold activate_tx.
  set (ov := now + hours (retire_overlap_hours pol)).
  unfold gets, bind at 1, lift at 1, bind at 1. rewrite Hf. cbn [ok_or].
  rewrite (bool_decide_eq_false_2 (sk_status key = KRevoked)) by done. cbn [guard].
  unfold ret at 1, bind at 1. fold (retired_by t id (sk_alg key) rows).
  unfold bind at 1. rewrite retire_each.
  set (l := retired_by t id (sk_alg key) rows). set (rows1 := retire_row t (sk_id <$> l) ov <$> rows).
  destruct (find_by_id_elem _ _ _ _ Hf) as (Hkin & Hkt & Hkid).
  assert (retire_row t (sk_id <$> l) ov key = key) as Hsame.
  { unfold retire_row. case_bool_decide as Hin; [|by rewrite andb_false_r].
    apply retired_by_id in Hin; [|done..]. by destruct Hin. }
  assert (KeyRepo.find_by_id t id rows1 = Some key) as Hf1.
  { unfold rows1. rewrite find_by_id_map, Hf; [cbn; by rewrite Hsame|].
    intros r. unfold retire_row. by case_match. }
  assert (existsb (active_twin key) rows1 = false) as Htw.
  { apply not_true_iff_false. intros (o' & Ho' & Htw)%existsb_exists.
    apply list_elem_of_In, list_elem_of_fmap in Ho' as (o & -> & Ho).
    apply active_twin_spec in Htw as (Ht & Ha & Hst & Hid). unfold retire_row in *.
    destruct ((sk_tenant_id o =? t) && bool_decide (sk_id o ∈ sk_id <$> l)) eqn:E; [done|].
    apply andb_false_iff in E as [E|E]; [apply Z.eqb_neq in E; congruence|].
    apply bool_decide_eq_false in E. destruct E. apply retired_by_id; [done|done|congruence|].
    split; [congruence|done]. }
  unfold KeyRepo.set_status, bind at 1. rewrite Hf1, Htw, andb_false_r. cbn [ok_or].
  unfold bind, ret, lift. f_equal. unfold rows1. rewrite <- list_fmap_compose.
  apply list_fmap_ext. intros i o Ho%list_elem_of_lookup_2. unfold compose, act_row, retire_row.
  destruct (decide (sk_tenant_id o = t)) as [Ht|Ht].
  - assert (key_at t id o = (sk_id o =? id)) as Hat by (unfold key_at; by rewrite Ht, Z.eqb_refl).
    rewrite (proj2 (Z.eqb_eq _ _) Ht). cbn [andb].
    rewrite (bool_decide_ext _ _ (retired_by_id t id (sk_alg key) rows o Hk Ho Ht)).
    destruct (decide (sk_id o = id)) as [Hi|Hi].
    + rewrite bool_decide_eq_false_2 by tauto. by rewrite Hat, (proj2 (Z.eqb_eq _ _) Hi).
    + rewrite Hat, (proj2 (Z.eqb_neq _ _) Hi).
      rewrite (bool_decide_ext (sk_tenant_id o = t /\ _) (sk_id o <> id /\ sk_status o = KActive /\ sk_alg o = sk_alg key)) by tauto.
      case_bool_decide; [rewrite key_at_with_status|]; by rewrite Hat, (proj2 (Z.eqb_neq _ _) Hi).
  - rewrite (proj2 (Z.eqb_neq _ _) Ht). cbn [andb]. unfold key_at. rewrite (proj2 (Z.eqb_neq _ _) Ht). cbn [andb].
    by rewrite bool_decide_eq_false_2 by tauto.
Qed.

Lemma same_key_names (f : SigningKey -> SigningKey) (rows : list SigningKey) :
  (forall r, same_key r (f r)) ->
  sk_id <$> (f <$> rows) = sk_id <$> rows /\ key_name <$> (f <$> rows) = key_name <$> rows.
Proof.
  intros Hf. rewrite <- !list_fmap_compose.
  split; apply list_fmap_ext; intros i r _; destruct (Hf r); unfold compose, key_name; congruence.
Qed.

(** A change of status that makes no key active. *)
Lemma keys_ok_map (f : SigningKey -> SigningKey) (rows : list SigningKey) :
  (forall r, same_key r (f r)) ->
  (forall r, sk_status (f r) = KActive -> sk_status r = KActive) ->
  keys_ok rows -> keys_ok (f <$> rows).
Proof.
  intros Hf Hs [Hids Hnames Hjwk Hact]. destruct (same_key_names f rows Hf) as [E1 E2]. split.
  - by rewrite E1.
  - by rewrite E2.
  - intros ? (r & -> & Hr)%list_elem_of_fmap. by eapply same_key_jwk; [|apply Hjwk].
  - intros ? ? (r & -> & Hr)%list_elem_of_fmap (o & -> & Ho)%list_elem_of_fmap Hst.
    apply not_true_iff_false. intros (Ht & Ha & Hso & Hid)%active_twin_spec.
    specialize (Hact r o Hr Ho (Hs _ Hst)). apply not_true_iff_false in Hact. apply Hact.
    apply active_twin_spec. destruct (Hf r), (Hf o). repeat split; try congruence.
    by apply Hs.
Qed.

Lemma keys_ok_status t id s e rows : s <> KActive -> keys_ok rows -> keys_ok (status_row t id s e <$> rows).
Proof.
  intros Hs. apply keys_ok_map; [by intros r; unfold status_row; case_match|].
  intros r. unfold status_row. by case_match.
Qed.

Lemma act_row_same ov t id alg r : same_key r (act_row ov t id alg r).
Proof. unfold act_row. by repeat case_match. Qed.
Lemma status_row_same t id s e r : same_key r (status_row t id s e r).
Proof. unfold status_row. by case_match. Qed.

Lemma keys_ok_act ov t id rows key :
  keys_ok rows -> KeyRepo.find_by_id t id rows = Some key ->
  keys_ok (act_row ov t id (sk_alg key) <$> rows).
Proof.
  intros Hk Hf. destruct (find_by_id_elem _ _ _ _ Hf) as (Hkin & Hkt & Hkid).
  pose proof Hk as [Hids Hnames Hjwk Hact]. pose proof (act_row_same ov t id (sk_alg key)) as Hsame.
  destruct (same_key_names _ rows Hsame) as [E1 E2].
  assert (forall r, r ∈ rows -> sk_status (act_row ov t id (sk_alg key) r) = KActive ->
            r = key \/ (sk_status r = KActive /\ ~ (sk_tenant_id r = t /\ sk_alg r = sk_alg key))) as Hwho.
  { intros r Hr. unfold act_row. destruct (key_at t id r) eqn:E.
    - intros _. left. apply key_at_spec in E as [_ Ei]. apply (nodup_key_inj sk_id rows); congruence.
    - case_bool_decide as Hb; [done|]. intros Hst. right. tauto. }
  split.
  - by rewrite E1.
  - by rewrite E2.
  - intros ? (r & -> & Hr)%list_elem_of_fmap. by eapply same_key_jwk; [|apply Hjwk].
  - intros ? ? (r & -> & Hr)%list_elem_of_fmap (o & -> & Ho)%list_elem_of_fmap Hst.
    apply not_true_iff_false. intros (Ht & Ha & Hso & Hid)%active_twin_spec.
    destruct (Hsame r) as [Hi1 Ht1 _ Ha1 _ _], (Hsame o) as [Hi2 Ht2 _ Ha2 _ _].
    rewrite Hi1, Hi2 in Hid. rewrite Ht1, Ht2 in Ht. rewrite Ha1, Ha2 in Ha.
    destruct (Hwho r Hr Hst) as [->|[Hr1 Hr2]], (Hwho o Ho Hso) as [->|[Ho1 Ho2]]; [done|..].
    + apply Ho2. split; congruence.
    + apply Hr2. split; congruence.
    + specialize (Hact r o Hr Ho Hr1). apply not_true_iff_false in Hact. apply Hact. by apply active_twin_spec.
Qed.

Lemma keys_ok_insert r rows rows' : keys_ok rows -> jwk_ok r -> KeyRepo.insert r rows = Some rows' -> keys_ok rows'.
Proof.
  intros [Hids Hnames Hjwk Hact] Hj Hi. unfold KeyRepo.insert in Hi.
  destruct (existsb _ rows) eqn:E1; [done|].
  destruct (bool_decide (sk_status r = KActive) && existsb (active_twin r) rows) eqn:E2; [done|].
  injection Hi as <-. apply not_true_iff_false in E1.
  assert (forall o, o ∈ rows -> sk_id o <> sk_id r) as Hne.
  { intros o Ho Ho'. apply E1, existsb_exists. exists o. split; [by apply list_elem_of_In|].
    by rewrite (proj2 (Z.eqb_eq _ _) Ho'). }
  assert (forall o, o ∈ rows -> key_name o <> key_name r) as Hnn.
  { intros o Ho [= Ht Hkid]. apply E1, existsb_exists. exists o. split; [by apply list_elem_of_In|].
    rewrite (proj2 (Z.eqb_eq _ _) Ht), (proj2 (String.eqb_eq _ _) Hkid). by rewrite orb_true_r. }
  assert (forall o, o ∈ rows -> sk_status r = KActive -> active_twin r o = false) as Hr.
  { intros o Ho Hs. rewrite (bool_decide_eq_true_2 _ Hs) in E2. cbn [andb] in E2.
    apply not_true_iff_false. intros Ht. apply not_true_iff_false in E2. apply E2, existsb_exists.
    exists o. split; [by apply list_elem_of_In|done]. }
  split.
  - rewrite fmap_app. cbn [fmap list_fmap]. apply NoDup_app. split; [done|]. split; [|apply NoDup_singleton].
    intros i (o & -> & Ho)%list_elem_of_fmap. rewrite list_elem_of_singleton. by apply Hne.
  - rewrite fmap_app. cbn [fmap list_fmap]. apply NoDup_app. split; [done|]. split; [|apply NoDup_singleton].
    intros i (o & -> & Ho)%list_elem_of_fmap. rewrite list_elem_of_singleton. by apply Hnn.
  - intros x [Hx| ->%list_elem_of_singleton]%elem_of_app; [by apply Hjwk|done].
  - intros x y [Hx| ->%list_elem_of_singleton]%elem_of_app [Hy| ->%list_elem_of_singleton]%elem_of_app Hs.
    + by apply Hact.
    + apply not_true_iff_false. intros (H1 & H2 & H3 & H4)%active_twin_spec.
      specialize (Hr x Hx H3). apply not_true_iff_false in Hr. apply Hr. apply active_twin_spec. by repeat split.
    + by apply Hr.
    + apply not_true_iff_false. by intros (_ & _ & _ & ?)%active_twin_spec.
Qed.

(** ** Histories *)

Inductive KeyOp `{KeyEncryptor} :=
| OCreate (d : KeyDraw) (t : Uuid) (alg : SigningAlg) (status : KeyStatus) (not_before : option Z)
| OActivate (pol : KeyPolicy) (t id : Uuid)
| ORetire (pol : KeyPolicy) (t id : Uuid)
| ORevoke (t id : Uuid)
| ORotate (d : KeyDraw) (pol : KeyPolicy) (t : Uuid) (alg : SigningAlg)
| OEnsure (d : KeyDraw) (t : Uuid) (alg : SigningAlg)
| OMaintain (d : nat -> KeyDraw) (pol : KeyPolicy) (t : Uuid).

Section histories.
Context `{UuidDisplay} `{KeyEncryptor}.
Context (sha256 : string -> list Z) (b64 : list Z -> string).

Definition run_key (now : Z) (op : KeyOp) (st : KeyStore) : KeyStore :=
  match op with
  | OCreate d t alg status nb => (create sha256 b64 now d t alg status nb st).2
  | OActivate pol t id => (activate now pol t id st).2
  | ORetire pol t id => (retire now pol t id st).2
  | ORevoke t id => (revoke now t id st).2
  | ORotate d pol t alg => (rotate_alg sha256 b64 now d pol t alg st).2
  | OEnsure d t alg => (ensure_active_alg sha256 b64 now d t alg st).2
  | OMaintain d pol t => (maintain sha256 b64 now d pol t st).2
  end.

(** Operations at the times they run, oldest first. *)
Definition run_keys (st : KeyStore) (ops : list (Z * KeyOp)) : KeyStore :=
  foldl (fun st op => run_key op.1 op.2 st) st ops.

(** An invariant of the rows that the statements of one operation at time
    [now] keep: [may_revoke] are the keys it may revoke, [ovh] the overlap in
    hours its policy has at least. *)
Record row_invariant (now ovh : Z) (may_revoke : Uuid -> Uuid -> Prop) (P : list SigningKey -> Prop) : Prop := {
  ri_ok rows : P rows -> keys_ok rows;
  ri_insert r rows rows' : P rows -> jwk_ok r -> KeyRepo.insert r rows = Some rows' -> P rows';
  ri_retire t id rows ov : P rows -> now + hours ovh <= ov -> P (status_row t id KRetiring (Some ov) <$> rows);
  ri_act t id rows key ov :
    P rows -> KeyRepo.find_by_id t id rows = Some key -> sk_status key <> KRevoked -> now + hours ovh <= ov ->
    P (act_row ov t id (sk_alg key) <$> rows);
  ri_revoke t id rows : P rows -> may_revoke t id -> P (status_row t id KRevoked (Some now) <$> rows);
  ri_due t rows k : P rows -> k ∈ due_revoked now t rows -> may_revoke t (sk_id k)
}.

Section keep.
Context (now ovh : Z) (may_revoke : Uuid -> Uuid -> Prop) (P : list SigningKey -> Prop).
Context (HI : row_invariant now ovh may_revoke P).

Definition on (st : KeyStore) : Prop := P (ks_rows st).

Lemma on_rows_preserves {A} (m : M (list SigningKey) KeyError A) : preserves P m -> preserves on (on_rows m).
Proof.
  intros Hm st Hst. specialize (Hm (ks_rows st) Hst). unfold on_rows, on.
  destruct (m (ks_rows st)) as [r rows]. by cbn.
Qed.

Lemma publish_preserves k s : preserves on (publish_status k s).
Proof. apply preserves_modify. by intros st. Qed.

Lemma create_preserves d t alg status nb : preserves on (create sha256 b64 now d t alg status nb).
Proof.
  intros st Hst. unfold create, lift at 1, bind at 1.
  destruct (generate sha256 b64 (kd_keygen d) alg) as [g|] eqn:Eg; [|done].
  destruct (generate_jwk _ _ _ _ _ Eg) as (_ & Hj). revert st Hst.
  apply preserves_bind; [apply preserves_gets|]. intros enc.
  apply preserves_bind; [apply preserves_lift|]. intros e.
  intros st Hst. unfold gets, bind at 1, lift at 1, bind at 1.
  destruct (KeyRepo.insert _ (ks_rows st)) as [rows'|] eqn:Ei; cbn; [|done].
  refine (ri_insert _ _ _ _ HI _ _ _ Hst _ Ei). exact Hj.
Qed.

Lemma hours_mono a b : a <= b -> hours a <= hours b.
Proof. unfold hours. lia. Qed.

Lemma activate_preserves pol t id : ovh <= retire_overlap_hours pol -> preserves on (activate now pol t id).
Proof.
  intros Hp. unfold activate. apply preserves_bind.
  - apply on_rows_preserves. intros rows HP. unfold transaction.
    destruct (KeyRepo.find_by_id t id rows) as [key|] eqn:Ef.
    2:{ unfold activate_tx, gets, bind, lift. by rewrite Ef. }
    destruct (decide (sk_status key = KRevoked)) as [Hr|Hr].
    { unfold activate_tx, gets, bind at 1, lift at 1, bind at 1. rewrite Ef. cbn [ok_or].
      by rewrite (bool_decide_eq_true_2 _ Hr). }
    rewrite (activate_tx_run now pol t id rows key (ri_ok _ _ _ _ HI _ HP) Ef Hr). cbn [snd].
    eapply ri_act; [done..|]. pose proof (hours_mono _ _ Hp). lia.
  - intros r. apply preserves_bind; [apply preserves_each; intros; apply publish_preserves|].
    intros _. apply preserves_bind; [apply publish_preserves|intros; apply preserves_ret].
Qed.

Lemma retire_preserves pol t id : ovh <= retire_overlap_hours pol -> preserves on (retire now pol t id).
Proof.
  intros Hp. unfold retire. apply preserves_bind.
  - apply on_rows_preserves, preserves_transaction. apply preserves_bind; [apply preserves_gets|]. intros rows.
    apply preserves_bind; [apply preserves_lift|]. intros key.
    apply preserves_bind; [apply preserves_guard|]. intros _.
    apply preserves_bind; [|intros; apply preserves_lift].
    apply set_status_preserves. intros rows1 HP. eapply ri_retire; [done..|].
    pose proof (hours_mono _ _ Hp). lia.
  - intros key. apply preserves_bind; [apply publish_preserves|intros; apply preserves_ret].
Qed.

Lemma revoke_preserves t id : may_revoke t id -> preserves on (revoke now t id).
Proof.
  intros Hr. unfold revoke. apply preserves_bind.
  - apply on_rows_preserves, preserves_transaction. apply preserves_bind; [|intros; apply preserves_lift].
    apply set_status_preserves. intros rows HP. by eapply ri_revoke.
  - intros key. apply preserves_bind; [apply publish_preserves|intros; apply preserves_ret].
Qed.

Lemma rotate_preserves d pol t alg :
  ovh <= retire_overlap_hours pol -> preserves on (rotate_alg sha256 b64 now d pol t alg).
Proof. intros Hp. apply preserves_bind; [apply create_preserves|]. intros k. by apply activate_preserves. Qed.

Lemma ensure_preserves d t alg : preserves on (ensure_active_alg sha256 b64 now d t alg).
Proof.
  apply preserves_bind; [apply preserves_gets|]. intros [k|]; [apply preserves_ret|].
  intros st Hst. unfold first_key. pose proof (create_preserves d t alg KActive None st Hst) as Hc.
  destruct (create sha256 b64 now d t alg KActive None st) as [[k|[]] st1]; exact Hc.
Qed.

Lemma maintain_preserves d pol t : ovh <= retire_overlap_hours pol -> preserves on (maintain sha256 b64 now d pol t).
Proof.
  intros Hp st Hst. unfold maintain, gets at 1, bind at 1.
  assert (forall k, k ∈ due_revoked now t (ks_rows st) -> may_revoke t (sk_id k)) as Hdue
    by (intros k; by eapply ri_due).
  revert Hdue. generalize (due_revoked now t (ks_rows st)). intros old Hdue. revert st Hst.
  apply preserves_bind.
  - apply preserves_each. intros k Hk. apply preserves_bind; [by apply revoke_preserves, Hdue|].
    intros; apply preserves_ret.
  - intros _. apply preserves_bind; [apply preserves_gets|]. intros current.
    apply preserves_bind; [|intros; apply preserves_ret].
    apply preserves_each. intros p _. apply preserves_bind; [by apply rotate_preserves|].
    intros; apply preserves_ret.
Qed.

Definition op_allowed (op : KeyOp) : Prop :=
  match op with
  | OActivate pol _ _ | ORetire pol _ _ | ORotate _ pol _ _ | OMaintain _ pol _ => ovh <= retire_overlap_hours pol
  | ORevoke t id => may_revoke t id
  | OCreate _ _ _ _ _ | OEnsure _ _ _ => True
  end.

Lemma run_key_preserves op st : op_allowed op -> on st -> on (run_key now op st).
Proof.
  destruct op; cbn [op_allowed run_key]; intros Ha.
  - apply create_preserves.
  - by apply activate_preserves.
  - by apply retire_preserves.
  - by apply revoke_preserves.
  - by apply rotate_preserves.
  - apply ensure_preserves.
  - by apply maintain_preserves.
Qed.
End keep.
End histories.

(** The key [k] is published, and due to stay so until [until]. *)
Definition serves (k : SigningKey) (until : Z) (rows : list SigningKey) : Prop :=
  exists r, r ∈ rows /\ same_key k r /\ is_published (sk_status r) = true
    /\ (sk_status r = KRetiring -> exists e, sk_expires_at r = Some e /\ until <= e).

Lemma same_key_trans a b c : same_key a b -> same_key b c -> same_key a c.
Proof. intros [] []. split; congruence. Qed.

Lemma serves_map k until (f : SigningKey -> SigningKey) rows :
  (forall r, same_key r (f r)) ->
  (forall r, same_key k r -> is_published (sk_status r) = true ->
    (sk_status r = KRetiring -> exists e, sk_expires_at r = Some e /\ until <= e) ->
    is_published (sk_status (f r)) = true
    /\ (sk_status (f r) = KRetiring -> exists e, sk_expires_at (f r) = Some e /\ until <= e)) ->
  serves k until rows -> serves k until (f <$> rows).
Proof.
  intros Hsame Hf (r & Hr & Hk & Hp & He). exists (f r).
  split; [by apply list_elem_of_fmap_2|]. split; [by eapply same_key_trans|]. by apply Hf.
Qed.

Lemma serves_invariant now ovh k until :
  now < until -> until <= now + hours ovh ->
  row_invariant now ovh (fun t' id' => ~ (t' = sk_tenant_id k /\ id' = sk_id k))
    (fun rows => keys_ok rows /\ serves k until rows).
Proof.
  intros Hnow Huntil. split.
  - by intros rows [? _].
  - intros r rows rows' [Hk Hs] Hj Hi. split; [by eapply keys_ok_insert|].
    unfold KeyRepo.insert in Hi. case_match; [done|]. injection Hi as <-.
    destruct Hs as (k' & Hk' & ?). exists k'. split; [apply elem_of_app; by left|done].
  - intros t' id' rows ov [Hk Hs] Hov. split; [by apply keys_ok_status|]. revert Hs.
    apply serves_map; [apply status_row_same|].
    intros r _ Hp He. unfold status_row. case_match; [|done]. split; [done|]. intros _. exists ov. split; [done|lia].
  - intros t' id' rows key ov [Hk Hs] Hf Hst Hov. split; [by apply keys_ok_act|]. revert Hs.
    apply serves_map; [apply act_row_same|].
    intros r _ Hp He. unfold act_row. repeat case_match; [done| |done]. split; [done|]. intros _. exists ov.
    split; [done|lia].
  - intros t' id' rows [Hk Hs] Hne. split; [by apply keys_ok_status|]. revert Hs.
    apply serves_map; [apply status_row_same|].
    intros r [] Hp He. unfold status_row. destruct (key_at t' id' r) eqn:E; [|done].
    apply key_at_spec in E as [? ?]. destruct Hne. split; congruence.
  - intros t' rows x [Hk (r & Hr & [] & Hp & He)] [Hex (Hkin & Hkt & Hks)%list_keys_elem]%list_elem_of_filter.
    intros [-> Hid]. assert (r = x) as -> by (apply (nodup_key_inj sk_id rows); [apply Hk|done|done|congruence]).
    destruct (He Hks) as (e & Hee & Hle). unfold expired_by in Hex. rewrite Hee in Hex. lia.
Qed.

Lemma ok_invariant now ovh : row_invariant now ovh (fun _ _ => True) keys_ok.
Proof.
  split; try done.
  - intros. by eapply keys_ok_insert.
  - intros. by apply keys_ok_status.
  - intros. by apply keys_ok_act.
  - intros. by apply keys_ok_status.
Qed.

Lemma find_active_unique now rows r :
  keys_ok rows -> r ∈ rows -> sk_status r = KActive -> sk_not_before r <= now ->
  KeyRepo.find_active now (sk_tenant_id r) (sk_alg r) rows = Some r.
Proof.
  intros [Hids _ _ Hact] Hr Hs Hnb. unfold KeyRepo.find_active.
  set (Q := fun o => sk_tenant_id o = sk_tenant_id r /\ sk_alg o = sk_alg r /\ sk_status o = KActive /\ sk_not_before o <= now).
  assert (forall o, o ∈ filter Q rows -> o = r) as Hall.
  { intros o [(? & ? & ? & _) Ho]%list_elem_of_filter. specialize (Hact r o Hr Ho Hs).
    apply (nodup_key_inj sk_id rows); [done..|]. destruct (decide (sk_id o = sk_id r)) as [|Hne]; [done|].
    apply not_true_iff_false in Hact. destruct Hact. by apply active_twin_spec. }
  assert (r ∈ filter Q rows) as Hin by (apply list_elem_of_filter; by repeat split).
  fold Q. pose proof (merge_sort_Permutation KeyRepo.starts_later (filter Q rows)) as Hp.
  destruct (merge_sort KeyRepo.starts_later (filter Q rows)) as [|x l] eqn:E.
  - rewrite <- Hp in Hin. by apply not_elem_of_nil in Hin.
  - cbn. f_equal. apply Hall. rewrite <- Hp. apply list_elem_of_here.
Qed.

Definition op_overlap `{KeyEncryptor} (op : KeyOp) : Z :=
  match op with
  | OActivate pol _ _ | ORetire pol _ _ | ORotate _ pol _ _ | OMaintain _ pol _ => retire_overlap_hours pol
  | _ => 0
  end.

Lemma run_keys_ok `{UuidDisplay} `{KeyEncryptor} sha256 b64 st ops :
  keys_ok (ks_rows st) -> keys_ok (ks_rows (run_keys sha256 b64 st ops)).
Proof.
  unfold run_keys. revert st. induction ops as [|[now op] ops IH]; intros st Hst; [done|]. cbn [foldl]. apply IH.
  apply (run_key_preserves sha256 b64 now (op_overlap op) (fun _ _ => True) keys_ok (ok_invariant _ _)); [|done].
  by destruct op; cbn.
Qed.

Lemma published_elem k until rows :
  serves k until rows -> exists r', r' ∈ KeyRepo.list_published (sk_tenant_id k) rows /\ same_key k r'.
Proof.
  intros (r' & Hr' & Hk & Hp & _). exists r'. split; [|done].
  unfold KeyRepo.list_published. rewrite merge_sort_Permutation, list_elem_of_filter. by destruct Hk.
Qed.

(** The operations of a history run in a window that starts at [t0], and none
    revokes the key [r]. *)
Definition spares `{KeyEncryptor} (t0 ovh : Z) (r : SigningKey) (ops : list (Z * KeyOp)) : Prop :=
  Forall (fun op => t0 <= op.1 < t0 + hours ovh
                    /\ op_allowed ovh (fun t' id' => ~ (t' = sk_tenant_id r /\ id' = sk_id r)) op.2) ops.

Lemma run_keys_serves `{UuidDisplay} `{KeyEncryptor} sha256 b64 st t0 ovh r ops :
  keys_ok (ks_rows st) -> r ∈ ks_rows st -> sk_status r = KActive -> spares t0 ovh r ops ->
  serves r (t0 + hours ovh) (ks_rows (run_keys sha256 b64 st ops)).
Proof.
  intros Hk Hr Hs Hops.
  assert (serves r (t0 + hours ovh) (ks_rows st)) as Hstart.
  { exists r. rewrite Hs. by repeat split. }
  unfold run_keys. clear Hr Hs. revert st Hk Hstart.
  induction Hops as [|[now op] ops [Hnow Hop] _ IH]; intros st Hk Hstart; [done|]. cbn [foldl].
  cbn [fst snd] in *.
  destruct (run_key_preserves sha256 b64 now ovh _ _
              (serves_invariant now ovh r (t0 + hours ovh) ltac:(lia) ltac:(lia)) op st Hop (conj Hk Hstart))
    as [Hk1 Hs1].
  by apply IH.
Qed.

(** *** Theorems *)

(** whatever is created, activated, retired, revoked, rotated and
    maintained, in whatever order, two keys that sign for the same tenant with
    the same algorithm are the same key. *)
Theorem one_active_key `{UuidDisplay} `{KeyEncryptor} sha256 b64 k ops t alg r o :
  let rows := ks_rows (run_keys sha256 b64 (mkKeyStore [] k []) ops) in
  r ∈ rows -> o ∈ rows ->
  sk_status r = KActive -> sk_tenant_id r = t -> sk_alg r = alg ->
  sk_status o = KActive -> sk_tenant_id o = t -> sk_alg o = alg -> r = o.
Proof.
  intros rows Hr Ho Hrs Hrt Hra Hos Hot Hoa.
  assert (keys_ok rows) as [Hids _ _ Hact] by apply run_keys_ok, keys_ok_nil.
  apply (nodup_key_inj sk_id rows); [done..|]. destruct (decide (sk_id o = sk_id r)) as [|Hne]; [done|].
  specialize (Hact r o Hr Ho Hrs). apply not_true_iff_false in Hact. destruct Hact. apply active_twin_spec.
  by repeat split; congruence.
Qed.

(** a key that signs at [t0] stays published for the whole overlap the
    policy gives retired keys, whatever else is created, activated, rotated,
    retired or cleaned up meanwhile, unless it is revoked itself: tokens it
    signed verify for at least that long. *)
Theorem rotation_overlap `{UuidDisplay} `{KeyEncryptor} sha256 b64 st t0 ovh r ops :
  keys_ok (ks_rows st) -> r ∈ ks_rows st -> sk_status r = KActive -> spares t0 ovh r ops ->
  exists r', r' ∈ KeyRepo.list_published (sk_tenant_id r) (ks_rows (run_keys sha256 b64 st ops)) /\ same_key r r'.
Proof. intros Hk Hr Hs Hops. eapply published_elem. by eapply run_keys_serves. Qed.

Section rotation.
Context `{UuidDisplay} `{KeyEncryptor}.
Context (sha256 : string -> list Z) (b64 : list Z -> string).

Lemma create_run now d t alg status nb st k st' :
  create sha256 b64 now d t alg status nb st = (Ok k, st') ->
  sk_id k = kd_id d /\ sk_tenant_id k = t /\ sk_alg k = alg /\ sk_status k = status
  /\ sk_not_before k = default now nb /\ jwk_ok k /\ KeyRepo.insert k (ks_rows st) = Some (ks_rows st').
Proof.
  unfold create. intros (g & st1 & Hg & Hc)%bind_ok. unfold lift in Hg. injection Hg as Hg <-.
  destruct (generate_jwk _ _ _ _ _ Hg) as (_ & Hj).
  apply bind_ok in Hc as (enc & st2 & He & Hc). unfold gets in He. simplify_eq.
  apply bind_ok in Hc as (e & st3 & He & Hc). unfold lift in He. simplify_eq.
  apply bind_ok in Hc as (rows & st4 & Hr & Hc). unfold gets in Hr. simplify_eq.
  apply bind_ok in Hc as (rows' & st5 & Hi & Hc). unfold lift in Hi.
  destruct (KeyRepo.insert _ (ks_rows st4)) as [rows''|] eqn:Ei; cbn [ok_or] in Hi; simplify_eq.
  cbn in Hc. injection Hc as <- <-. by cbn.
Qed.

Lemma insert_elems r rows rows' : KeyRepo.insert r rows = Some rows' -> rows' = rows ++ [r].
Proof. unfold KeyRepo.insert. case_match; [done|]. by intros [= <-]. Qed.

Lemma publish_each_rows {A} (l : list A) (f : A -> M KeyStore KeyError unit) st :
  (forall x st, exists st', f x st = (Ok tt, st') /\ ks_rows st' = ks_rows st) ->
  exists st', each l f st = (Ok tt, st') /\ ks_rows st' = ks_rows st.
Proof.
  intros Hf. revert st. induction l as [|x l IH]; intros st; [by exists st|]. cbn [each]. unfold bind.
  destruct (Hf x st) as (st1 & -> & E1). destruct (IH st1) as (st2 & -> & E2). exists st2. by rewrite E2.
Qed.

(** [activate] of a key that is not revoked always succeeds. *)
Lemma activate_run now pol t id st key :
  keys_ok (ks_rows st) -> KeyRepo.find_by_id t id (ks_rows st) = Some key -> sk_status key <> KRevoked ->
  exists st', activate now pol t id st = (Ok (KeyRepo.with_status KActive None key), st')
    /\ ks_rows st' = act_row (now + hours (retire_overlap_hours pol)) t id (sk_alg key) <$> ks_rows st.
Proof.
  intros Hk Hf Hs. unfold activate, bind at 1, on_rows, transaction.
  rewrite (activate_tx_run now pol t id _ key Hk Hf Hs). cbn [fst snd].
  set (st1 := ks_with_rows st _). unfold bind at 1.
  destruct (publish_each_rows (retired_by t id (sk_alg key) (ks_rows st)) (fun o => publish_status o KRetiring) st1)
    as (st2 & -> & E2); [intros x s; by eexists|].
  eexists. split; [done|]. cbn. by rewrite E2.
Qed.
End rotation.

(** a rotation that returns a key left it as the one that signs for its
    tenant and algorithm, and every key published before is published still:
    the one it replaced keeps verifying. *)
Theorem rotation_switches `{UuidDisplay} `{KeyEncryptor} sha256 b64 now d pol t alg st k st' :
  keys_ok (ks_rows st) -> rotate_alg sha256 b64 now d pol t alg st = (Ok k, st') ->
  KeyRepo.find_active now t alg (ks_rows st') = Some k /\ sk_id k = kd_id d
  /\ forall r, r ∈ ks_rows st -> is_published (sk_status r) = true ->
     exists r', r' ∈ ks_rows st' /\ sk_id r' = sk_id r /\ sk_kid r' = sk_kid r
       /\ sk_public_jwk r' = sk_public_jwk r /\ is_published (sk_status r') = true.
Proof.
  intros Hk (fresh & st1 & Hc & Ha)%bind_ok.
  apply create_run in Hc as (Hid & Ht & Halg & Hst & Hnb & Hj & Hi). cbn [default] in Hnb.
  pose proof (keys_ok_insert _ _ _ Hk Hj Hi) as Hk1. apply insert_elems in Hi.
  assert (fresh ∈ ks_rows st1) as Hin by (rewrite Hi; apply elem_of_app; right; apply list_elem_of_here).
  destruct (KeyRepo.find_by_id t (sk_id fresh) (ks_rows st1)) as [key|] eqn:Ef.
  2:{ apply (find_by_id_none _ _ _ fresh) in Ef; [|done]. unfold key_at in Ef. by rewrite Ht, !Z.eqb_refl in Ef. }
  assert (key = fresh) as ->.
  { destruct (find_by_id_elem _ _ _ _ Ef) as (? & _ & ?). apply (nodup_key_inj sk_id (ks_rows st1)); [apply Hk1|done..]. }
  destruct (activate_run now pol t (sk_id fresh) st1 fresh Hk1 Ef ltac:(by rewrite Hst)) as (st2 & Hrun & Hrows).
  rewrite Hrun in Ha. injection Ha as <- <-. set (ov := now + hours (retire_overlap_hours pol)) in *.
  split; [|split; [done|]].
  - rewrite <- Ht, <- Halg. change (sk_tenant_id fresh) with (sk_tenant_id (KeyRepo.with_status KActive None fresh)).
    change (sk_alg fresh) with (sk_alg (KeyRepo.with_status KActive None fresh)). apply find_active_unique.
    + rewrite Hrows. by apply keys_ok_act.
    + rewrite Hrows. apply list_elem_of_fmap. exists fresh. split; [|done]. unfold act_row.
      unfold key_at. by rewrite Ht, !Z.eqb_refl.
    + done.
    + cbn. rewrite Hnb. lia.
  - intros r Hr Hp. exists (act_row ov t (sk_id fresh) (sk_alg fresh) r). rewrite Hrows. split.
    { apply list_elem_of_fmap_2. rewrite Hi. apply elem_of_app. by left. }
    unfold act_row. by repeat case_match.
Qed.

(** C31: activating a key hands the signing over, and always can. In any state
    that operations can lead to, activating a key of the tenant that is not
    revoked succeeds - no key in its way is left active for the database to
    refuse - and afterwards it is the one active key of the tenant for its
    algorithm; the key that signed before is retiring, published until the end
    of the overlap the policy gives; every other key is as it was. *)
Theorem activation_takes_over `{UuidDisplay} `{KeyEncryptor} sha256 b64 k ops now pol t id key :
  let st := run_keys sha256 b64 (mkKeyStore [] k []) ops in
  KeyRepo.find_by_id t id (ks_rows st) = Some key -> sk_status key <> KRevoked ->
  exists key' st', activate now pol t id st = (Ok key', st')
    /\ same_key key key' /\ sk_status key' = KActive /\ key' ∈ ks_rows st'
    /\ (forall o, o ∈ ks_rows st' -> sk_tenant_id o = t -> sk_alg o = sk_alg key -> sk_status o = KActive -> o = key')
    /\ (forall o, o ∈ ks_rows st -> sk_id o <> id ->
         let signed := sk_tenant_id o = t /\ sk_alg o = sk_alg key /\ sk_status o = KActive in
         (signed -> KeyRepo.with_status KRetiring (Some (now + hours (retire_overlap_hours pol))) o ∈ ks_rows st')
         /\ (~ signed -> o ∈ ks_rows st')).
Proof.
  intros st Hf Hs. assert (keys_ok (ks_rows st)) as Hk by apply run_keys_ok, keys_ok_nil.
  destruct (activate_run now pol t id st key Hk Hf Hs) as (st' & Hrun & Hrows). destruct (find_by_id_elem _ _ _ _ Hf) as (Hin & Ht & Hid).
  set (ov := now + hours (retire_overlap_hours pol)) in *.
  exists (KeyRepo.with_status KActive None key), st'. do 3 (split; [done|]). rewrite Hrows.
  assert (key_at t id key = true) as Hat by (unfold key_at; by rewrite Ht, Hid, !Z.eqb_refl).
  split; [|split].
  - apply list_elem_of_fmap. exists key. split; [|done]. unfold act_row. by rewrite Hat.
  - intros o (x & -> & Hx)%list_elem_of_fmap. unfold act_row. destruct (key_at t id x) eqn:Ex.
    + intros _ _ _. f_equal. apply (nodup_key_inj sk_id (ks_rows st)); [apply Hk|done..|]. unfold key_at in Ex.
      apply andb_prop in Ex as [_ Ex%Z.eqb_eq]. congruence.
    + case_bool_decide as Hb; [done|]. intros ? ? ?. by destruct Hb.
  - intros o Ho Hne. assert (key_at t id o = false) as Eo by (unfold key_at; rewrite (proj2 (Z.eqb_neq _ _) Hne); apply andb_false_r).
    cbn zeta. split; intros Hsg; apply list_elem_of_fmap; exists o; (split; [|done]); unfold act_row; rewrite Eo.
    + by rewrite bool_decide_eq_true_2 by tauto.
    + by rewrite bool_decide_eq_false_2 by tauto.
Qed.

(** ** A small deployment

    An encryptor that hides nothing, and one tenant whose first key is
    rotated a day later. *)

Definition sx_encryptor : KeyEncryptor :=
  {| kstate := unit;
     ke_encrypt := fun _ _ p _ => Ok (mkEncrypted Aes256GcmHkdf 1 [] p);
     ke_decrypt := fun _ s e _ => (Ok (ciphertext e), s) |}.
Definition sx_b64 (l : list Z) : string :=
  String.string_of_list_ascii ((fun b => Ascii.ascii_of_nat (Z.to_nat b)) <$> l).
Definition sx_draw (id : Z) (x : string) : KeyDraw :=
  mkKeyDraw (fun _ => Some (mkKeyMaterial (POkp x) [id])) id (mkRandom [] [] [] []).
Definition sx_policy : KeyPolicy := mkKeyPolicy EdDSA 90 24.
Definition sx_empty : @KeyStore sx_encryptor := @mkKeyStore sx_encryptor [] tt [].
Definition sx_run := @run_keys toy_uuid sx_encryptor ascii_bytes sx_b64.
Definition sx_first : @KeyStore sx_encryptor := sx_run sx_empty [(0, @OEnsure sx_encryptor (sx_draw 10 "a") 1 EdDSA)].
Definition sx_key (n : nat) (rows : list SigningKey) : SigningKey :=
  nth n rows (mkSigningKey 0 0 "" RS256 VNull [] 0 KRevoked 0 None 0).
Definition sx_rotate (now : Z) (st : @KeyStore sx_encryptor) :=
  @rotate_alg toy_uuid sx_encryptor ascii_bytes sx_b64 now (sx_draw 11 "b") sx_policy 1 EdDSA st.

Lemma sx_first_ok : keys_ok (ks_rows sx_first).
Proof. apply run_keys_ok, keys_ok_nil. Qed.

Definition sx_rotated : list SigningKey :=
  ks_rows (sx_run sx_empty [(0, @OEnsure sx_encryptor (sx_draw 10 "a") 1 EdDSA);
                            (days 1, @ORotate sx_encryptor (sx_draw 11 "b") sx_policy 1 EdDSA)]).

(** The second row is the key that signs. *)
Lemma one_active_key_witness :
  sx_key 1 sx_rotated = default (sx_key 0 sx_rotated) (KeyRepo.find_active (days 2) 1 EdDSA sx_rotated).
Proof.
  apply (@one_active_key toy_uuid sx_encryptor ascii_bytes sx_b64 tt
           [(0, @OEnsure sx_encryptor (sx_draw 10 "a") 1 EdDSA);
            (days 1, @ORotate sx_encryptor (sx_draw 11 "b") sx_policy 1 EdDSA)] 1 EdDSA);
    solve [ apply list_elem_of_lookup; exists 1%nat; vm_compute; reflexivity | vm_compute; reflexivity ].
Defined.

(** A pending key beside the first one takes over. *)
Definition sx_ops : list (Z * @KeyOp sx_encryptor) :=
  [(0, @OEnsure sx_encryptor (sx_draw 10 "a") 1 EdDSA); (hours 1, @OCreate sx_encryptor (sx_draw 11 "b") 1 EdDSA KPending None)].
Definition sx_pending : @KeyStore sx_encryptor := sx_run sx_empty sx_ops.
Lemma activation_takes_over_witness :
  sk_status (sx_key 0 (ks_rows sx_pending)) = KActive /\ sk_status (sx_key 1 (ks_rows sx_pending)) = KPending
  /\ exists key' st', @activate sx_encryptor (hours 2) sx_policy 1 11 sx_pending = (Ok key', st') /\ sk_status key' = KActive
     /\ KeyRepo.with_status KRetiring (Some (hours 26)) (sx_key 0 (ks_rows sx_pending)) ∈ ks_rows st'.
Proof.
  split; [vm_compute; reflexivity|]. split; [vm_compute; reflexivity|].
  destruct (@activation_takes_over toy_uuid sx_encryptor ascii_bytes sx_b64 tt sx_ops (hours 2) sx_policy 1 11 (sx_key 1 (ks_rows sx_pending)))
    as (key' & st' & Hrun & _ & Hst & _ & _ & Hother).
  - vm_compute. reflexivity.
  - vm_compute. discriminate.
  - exists key', st'. split; [exact Hrun|]. split; [exact Hst|]. destruct (Hother (sx_key 0 (ks_rows sx_pending))) as [Hsigned _].
    + apply list_elem_of_lookup. exists 0%nat. vm_compute. reflexivity.
    + vm_compute. discriminate.
    + apply Hsigned. vm_compute. done.
Defined.

Lemma rotation_overlap_witness :
  exists r', r' ∈ KeyRepo.list_published (sk_tenant_id (sx_key 0 (ks_rows sx_first)))
               (ks_rows (sx_run sx_first [(hours 1, @ORotate sx_encryptor (sx_draw 11 "b") sx_policy 1 EdDSA);
                                          (hours 23, @OMaintain sx_encryptor (fun _ => sx_draw 12 "c") sx_policy 1)]))
             /\ same_key (sx_key 0 (ks_rows sx_first)) r'.
Proof.
  apply (@rotation_overlap toy_uuid sx_encryptor ascii_bytes sx_b64 sx_first 0 24 (sx_key 0 (ks_rows sx_first))).
  - exact sx_first_ok.
  - apply list_elem_of_lookup. exists 0%nat. vm_compute. reflexivity.
  - vm_compute. reflexivity.
  - repeat constructor; vm_compute; try done.
Defined.

Lemma rotation_switches_witness :
  sk_id <$> KeyRepo.find_active (days 1) 1 EdDSA (ks_rows (sx_rotate (days 1) sx_first).2) = Some 11.
Proof.
  destruct (sx_rotate (days 1) sx_first) as [[k|] st'] eqn:E; [|vm_compute in E; discriminate E].
  destruct (@rotation_switches toy_uuid sx_encryptor ascii_bytes sx_b64 (days 1) (sx_draw 11 "b") sx_policy 1 EdDSA
              sx_first k st' sx_first_ok E) as (Hf & Hi & _).
  cbn [snd]. rewrite Hf. cbn. by rewrite Hi.
Defined.
