(* ===== verification/AccessTokens.v ===== *)
(** * Access and ID tokens

    Models [api/src/services/tokens.rs], [opaque_tokens.rs], [denylist.rs] and
    the part of [features.rs] that tokens carry: the claims of a token, signing
    with the tenant's keys or keeping the claims in Valkey, verification and
    revocation by [jti]. The JWT library is the class [Jwts]. Encrypted ID
    tokens (JWE) are left out. *)

From stdpp Require Import gmap strings sorting.
From S2P Require Import Prelude Effects Valkey AppState Sessions Der KeyCustody Models Claims SigningKeys.

(** ** The JWT library *)

(** [jsonwebtoken::Algorithm]. *)
Inductive Algorithm :=
| AHS256 | AHS384 | AHS512 | AES256 | AES384 | ARS256 | ARS384 | ARS512 | APS256 | APS384 | APS512 | AEdDSA.
#[export] Instance algorithm_dec : EqDecision Algorithm.
Proof. solve_decision. Defined.

Record Header := mkHeader { h_alg : Algorithm; h_kid : option string; h_typ : option string }.

Record Validation := mkValidation {
  v_alg : Algorithm;
  v_leeway : Z;
  v_validate_exp : bool;
  v_validate_nbf : bool;
  v_issuers : option (list string);               (* [None]: not validated *)
  v_audience : option (list string);              (* [None]: not validated *)
  v_required : list string
}.

(** The audiences of a claim: a string, or the strings of an array. *)
Definition aud_list (v : option Value) : list string :=
  match v with
  | Some (VString a) => [a]
  | Some (VArray l) => omap as_str l
  | _ => []
  end.

(** What the library documents of a validation, at [now] in seconds. *)
Definition validates (now : Z) (v : Validation) (c : Map) : bool :=
  forallb (fun r => bool_decide (is_Some (c !! r))) (v_required v)
  && (negb (v_validate_exp v)
      || match c !! "exp"%string ≫= as_int with Some e => now - v_leeway v <=? e | None => false end)
  && (negb (v_validate_nbf v)
      || match c !! "nbf"%string ≫= as_int with Some n => n <=? now + v_leeway v | None => true end)
  && match v_issuers v with
     | None => true
     | Some iss => match c !! "iss"%string ≫= as_str with Some i => bool_decide (i ∈ iss) | None => false end
     end
  && match v_audience v with
     | None => true
     | Some auds => existsb (fun a => bool_decide (a ∈ auds)) (aud_list (c !! "aud"%string))
     end.

Class Jwts := {
  enc_key : Type;
  dec_key : Type;
  (** [EncodingKey::from_rsa_der], [from_ec_der], [from_ed_der] *)
  from_rsa_der : list Z -> enc_key;
  from_ec_der : list Z -> enc_key;
  from_ed_der : list Z -> enc_key;
  (** [DecodingKey::from_jwk] *)
  from_jwk : Value -> option dec_key;
  jwt_encode : Header -> Map -> enc_key -> option string;
  decode_header : string -> option Header;
  jwt_decode : Z -> string -> dec_key -> Validation -> option Map
}.

(** [pair]: the two keys belong together. *)
Class JwtsLaws `{Jwts} := {
  pair : enc_key -> dec_key -> Prop;
  (** a token starts with the base64 of a brace *)
  jwt_text h c k tok : jwt_encode h c k = Some tok -> String.prefix "at_" tok = false;
  decode_header_encode h c k tok : jwt_encode h c k = Some tok -> decode_header tok = Some h;
  jwt_decode_encode h c k d tok now v :
    jwt_encode h c k = Some tok -> pair k d -> h_alg h = v_alg v ->
    jwt_decode now tok d v = if validates now v c then Some c else None;
  jwt_decode_validates now tok d v c : jwt_decode now tok d v = Some c -> validates now v c = true
}.

Definition jwt_alg (a : SigningAlg) : Algorithm :=
  match a with RS256 => ARS256 | RS384 => ARS384 | RS512 => ARS512 | ES256 => AES256 | EdDSA => AEdDSA end.

(** ** Lookups that tokens are made from *)

(** What the (cached) services answer about tenants' configuration and
    directory; none of the operations here changes it. *)
Record Directory := mkDirectory {
  d_issuer_for : string -> string;                              (* [config.issuer_for(slug)] *)
  d_schema : Uuid -> ProfileSchema;
  d_scopes : Uuid -> list Scope;
  d_org_slug : Uuid -> Uuid -> option string;
  d_mappers : Uuid -> Client -> list ClaimMapper;
  d_user : Uuid -> Uuid -> option User;
  d_roles : Uuid -> Uuid -> option Uuid -> list Role;           (* in an organization *)
  d_groups : Uuid -> Uuid -> list Group;
  d_resource_server : Uuid -> string -> option ResourceServer;  (* by identifier *)
  d_resource_server_by_id : Uuid -> Uuid -> option ResourceServer;
  d_permissions : Uuid -> Uuid -> list Uuid -> list string      (* of roles on a resource server *)
}.

(** [tokens::issuer]. *)
Definition issuer (dir : Directory) (t : Tenant) : string :=
  match tn_custom_domain t with
  | Some host => ("https://" ++ host)%string
  | None => d_issuer_for dir (tn_slug t)
  end.

(** [features::enabled] and [enabled_for]. *)
Definition FEATURES_SCOPE : string := "features".
Definition enabled (flags : list (string * FeatureFlag)) (org_slug : option string) : list string :=
  fst <$> filter (fun p => Is_true
    (default (ff_enabled p.2) (org_slug ≫= fun slug => ff_organizations p.2 !! slug))) flags.
Definition enabled_for (dir : Directory) (t : Tenant) (org_id : option Uuid) : list string :=
  let flags := tn_features t in
  if bool_decide (flags = []) then []
  else
    let slug :=
      match org_id with
      | Some id =>
          if existsb (fun p => negb (bool_decide (ff_organizations p.2 = ∅))) flags
          then d_org_slug dir (tn_id t) id else None
      | None => None
      end in
    enabled flags slug.

(** ** Requests *)

Record TokenClient := mkTokenClient {
  tc_client_id : string;
  tc_subject_type : SubjectType;
  tc_sector_identifier : option string;
  tc_access_token_ttl : Z;
  tc_id_token_ttl : Z;
  tc_mappers : list ClaimMapper;
  tc_id_token_scope_claims : bool;
  tc_access_token_format : AccessTokenFormat;
  tc_access_token_alg : option SigningAlg;
  tc_id_token_alg : option SigningAlg;
  tc_permissions : list string;
  tc_not_after : option Z
}.

Record AccessTokenRequest := mkAccessTokenRequest {
  at_tenant : Tenant;
  at_client : TokenClient;
  at_user : option User;
  at_scopes : list string;
  at_audiences : list string;
  at_roles : list Role;
  at_groups : list Group;
  at_session_id : option Uuid;
  at_auth_time : option Z;
  at_amr : list string;
  at_acr : option string;
  at_org_id : option Uuid;
  at_cnf_jkt : option string;
  at_cnf_x5t : option string;
  at_act : option Value
}.

Record IdTokenRequest := mkIdTokenRequest {
  it_tenant : Tenant;
  it_client : TokenClient;
  it_user : User;
  it_scopes : list string;
  it_roles : list Role;
  it_groups : list Group;
  it_session_id : option Uuid;
  it_auth_time : Z;
  it_org_id : option Uuid;
  it_nonce : option string;
  it_amr : list string;
  it_acr : option string;
  it_access_token : option string;
  it_code : option string;
  it_act : option Value
}.

Record IssuedToken := mkIssuedToken {
  tok_token : string;
  tok_claims : Map;
  tok_kid : string;
  tok_expires_at : Z
}.

Inductive TokError := TkUnauthorized | TkForbidden | TkInternal | TkKey (e : KeyError).

(** [chrono::Duration::from_std(secs).unwrap_or_default()]. *)
Definition from_std (secs : Z) : Z := if secs * 1000 <? 2 ^ 63 then secs * 1000 else 0.

(** [Vec::dedup]: equal neighbours are one. *)
Fixpoint dedup (l : list string) : list string :=
  match l with
  | a :: ((b :: _) as rest) => if String.eqb a b then dedup rest else a :: dedup rest
  | _ => l
  end.

(** [if let Some(v) = o { claims.insert(n, v) }]. *)
Definition insert_some (n : string) (o : option Value) (claims : Map) : Map :=
  match o with Some v => <[n := v]> claims | None => claims end.
Definition json_uuid `{UuidDisplay} (u : Uuid) : Value := VString (uuid_str u).
Definition non_empty (l : list string) : option Value := if bool_decide (l = []) then None else Some (json_strings l).

Definition CNF_X5T : string := "x5t#S256".

(** A claim that is a string, that is a UUID. *)
Definition str_claim (claims : Map) (n : string) : option string := claims !! n ≫= as_str.
Definition uuid_claim `{UuidDisplay} (claims : Map) (n : string) : option Uuid := str_claim claims n ≫= parse_str.

(** ** Claims of a token *)

Section claims.
Context `{UuidDisplay}.
Context (print_value : Value -> string) (parse_f64 : string -> option Value) (user_json : User -> Value).
Context (render : string -> Value -> option string).
Context (sha256 : list Z -> list Z) (sha384 : list Z -> list Z) (sha512 : list Z -> list Z) (b64 : list Z -> string).
Context (uuid_bytes : Uuid -> list Z) (url_host : string -> option string).

(** [TokenClient::from_client]. *)
Definition from_client (c : Client) (t : Tenant) (mappers : list ClaimMapper) : TokenClient :=
  let fapi_alg := if is_fapi2 c then Some (fapi_signing_alg t) else None in
  let sector :=
    match cl_sector_identifier_uri c ≫= url_host with
    | Some h => Some h
    | None => head (cl_redirect_uris c) ≫= url_host
    end in
  let ttl (o : option Z) (d : Z) : Z := match o with Some s => Z.max s 1 | None => d end in
  mkTokenClient (cl_client_id c) (cl_subject_type c) sector
    (ttl (cl_access_token_ttl_secs c) (tn_access_token_ttl_secs t))
    (ttl (cl_id_token_ttl_secs c) (tn_id_token_ttl_secs t)) mappers (cl_id_token_scope_claims c)
    (cl_access_token_format c) fapi_alg fapi_alg [] None.

Definition bar : list Z := ascii_bytes "|".
(** Subject identifier of a user as a client sees it. *)
Definition subject_for (t : Tenant) (c : TokenClient) (u : User) : string :=
  match tc_subject_type c with
  | Public => uuid_str (u_id u)
  | Pairwise =>
      let sector := default (tc_client_id c) (tc_sector_identifier c) in
      b64 (sha256 (ascii_bytes sector ++ bar ++ uuid_bytes (u_id u) ++ bar ++ tn_pairwise_salt t))
  end.

Definition half_hash (alg : SigningAlg) (input : string) : string :=
  let digest :=
    match alg with
    | RS256 | ES256 => sha256 (ascii_bytes input)
    | RS384 => sha384 (ascii_bytes input)
    | RS512 | EdDSA => sha512 (ascii_bytes input)
    end in
  b64 (take (Nat.div (length digest) 2) digest).

Definition access_exp (now : Z) (req : AccessTokenRequest) : Z :=
  let exp := now + from_std (tc_access_token_ttl (at_client req)) in
  match tc_not_after (at_client req) with Some limit => Z.min exp limit | None => exp end.

(** What user data and mappers put into an access token, and the audiences
    mappers add. *)
Definition mapped_access (dir : Directory) (req : AccessTokenRequest) : Map * list string :=
  let claims :=
    match at_user req with
    | Some user => profile_claims user (d_schema dir (tn_id (at_tenant req))) XAccessToken ∅
    | None => ∅
    end in
  let ctx := mkClaimContext (at_tenant req) (at_user req) (tc_client_id (at_client req)) (at_scopes req)
               (at_roles req) (at_groups req) in
  apply_mappers print_value parse_f64 user_json render (tc_mappers (at_client req)) ctx Access claims.

Definition access_aud (req : AccessTokenRequest) (extra_aud : list string) : list string :=
  let aud := at_audiences req ++ extra_aud in
  dedup (if bool_decide (aud = []) then aud ++ [tc_client_id (at_client req)] else aud).

Definition access_sub (req : AccessTokenRequest) : string :=
  match at_user req with
  | Some u => subject_for (at_tenant req) (at_client req) u
  | None => tc_client_id (at_client req)
  end.

Definition cnf_of (req : AccessTokenRequest) : list (string * Value) :=
  match at_cnf_jkt req with Some jkt => [("jkt"%string, VString jkt)] | None => [] end
  ++ match at_cnf_x5t req with Some x5t => [(CNF_X5T, VString x5t)] | None => [] end.

(** The [features] claim, when the scope asks for it. *)
Definition features_of (dir : Directory) (t : Tenant) (scopes : list string) (org_id : option Uuid) : option Value :=
  if existsb (fun s => String.eqb s FEATURES_SCOPE) scopes
  then Some (json_strings (enabled_for dir t org_id)) else None.

(** [roles] and [groups] of a user, where no mapper wrote them. *)
Definition with_roles_groups (req : AccessTokenRequest) (claims : Map) : Map :=
  match at_user req with
  | Some _ =>
      let claims :=
        if bool_decide (claims !! "roles"%string = None)
        then <["roles" := json_strings (ro_name <$> at_roles req)]> claims else claims in
      if bool_decide (claims !! "groups"%string = None)
      then <["groups" := json_strings (g_name <$> at_groups req)]> claims else claims
  | None => claims
  end.

(** The claims [issue_access_token] signs. *)
Definition access_claims (now : Z) (jti : Uuid) (dir : Directory) (req : AccessTokenRequest) : Map :=
  let '(claims, extra_aud) := mapped_access dir req in
  let t := at_tenant req in
  let client_id := VString (tc_client_id (at_client req)) in
  let aud := access_aud req extra_aud in
  let claims := <["iss" := VString (issuer dir t)]> claims in
  let claims := <["sub" := VString (access_sub req)]> claims in
  let claims := <["aud" := match aud with [a] => VString a | _ => json_strings aud end]> claims in
  let claims := <["client_id" := client_id]> claims in
  let claims := <["azp" := client_id]> claims in
  let claims := <["iat" := json_int (unix_seconds now)]> claims in
  let claims := <["nbf" := json_int (unix_seconds now)]> claims in
  let claims := <["exp" := json_int (unix_seconds (access_exp now req))]> claims in
  let claims := <["jti" := json_uuid jti]> claims in
  let claims := <["tid" := json_uuid (tn_id t)]> claims in
  let claims := <["scope" := VString (String.concat " " (at_scopes req))]> claims in
  let claims := insert_some "org_id" (json_uuid <$> at_org_id req) claims in
  let claims := insert_some "features" (features_of dir t (at_scopes req) (at_org_id req)) claims in
  let claims := with_roles_groups req claims in
  let claims := insert_some "permissions" (non_empty (tc_permissions (at_client req))) claims in
  let claims := insert_some "sid" (json_uuid <$> at_session_id req) claims in
  let claims := insert_some "auth_time" ((fun t => json_int (unix_seconds t)) <$> at_auth_time req) claims in
  let claims := insert_some "amr" (non_empty (at_amr req)) claims in
  let claims := insert_some "acr" (VString <$> at_acr req) claims in
  let claims :=
    insert_some "cnf" (match cnf_of req with [] => None | cnf => Some (VObject cnf) end) claims in
  insert_some "act" (at_act req) claims.

(** The claims [issue_id_token] signs, with a key of algorithm [alg]. *)
Definition id_claims (now : Z) (alg : SigningAlg) (dir : Directory) (req : IdTokenRequest) : Map :=
  let t := it_tenant req in
  let claims :=
    if tc_id_token_scope_claims (it_client req)
    then scope_claims (it_user req) (it_scopes req) (d_scopes dir (tn_id t)) else ∅ in
  let claims := profile_claims (it_user req) (d_schema dir (tn_id t)) XIdToken claims in
  let ctx := mkClaimContext t (Some (it_user req)) (tc_client_id (it_client req)) (it_scopes req)
               (it_roles req) (it_groups req) in
  let claims := (apply_mappers print_value parse_f64 user_json render (tc_mappers (it_client req)) ctx IdTok claims).1 in
  let client_id := VString (tc_client_id (it_client req)) in
  let claims := <["iss" := VString (issuer dir t)]> claims in
  let claims := <["sub" := VString (subject_for t (it_client req) (it_user req))]> claims in
  let claims := <["aud" := client_id]> claims in
  let claims := <["azp" := client_id]> claims in
  let claims := <["iat" := json_int (unix_seconds now)]> claims in
  let claims := <["exp" := json_int (unix_seconds (now + from_std (tc_id_token_ttl (it_client req))))]> claims in
  let claims := <["auth_time" := json_int (unix_seconds (it_auth_time req))]> claims in
  let claims := <["tid" := json_uuid (tn_id t)]> claims in
  let claims := insert_some "org_id" (json_uuid <$> it_org_id req) claims in
  let claims := insert_some "features" (features_of dir t (it_scopes req) (it_org_id req)) claims in
  let claims := insert_some "nonce" (VString <$> it_nonce req) claims in
  let claims := insert_some "sid" (json_uuid <$> it_session_id req) claims in
  let claims := insert_some "amr" (non_empty (it_amr req)) claims in
  let claims := insert_some "acr" (VString <$> it_acr req) claims in
  let claims := insert_some "at_hash" ((fun at_ => VString (half_hash alg at_)) <$> it_access_token req) claims in
  let claims := insert_some "c_hash" ((fun code => VString (half_hash alg code)) <$> it_code req) claims in
  insert_some "act" (it_act req) claims.
End claims.

(** ** Issuing *)

Definition AT_PREFIX : string := "at_".
Definition looks_like (token : string) : bool :=
  String.prefix AT_PREFIX token && (Z.of_nat (String.length token) <=? 128).

(** [VerifyOptions]; the default has no audience and no type, 30 seconds of
    leeway, and checks expiry and the denylist. *)
Record VerifyOptions := mkVerifyOptions {
  vo_audience : option string;
  vo_typ : option string;
  vo_leeway_secs : Z;
  vo_allow_expired : bool;
  vo_check_denylist : bool
}.
Definition default_options : VerifyOptions := mkVerifyOptions None None 30 false true.
Definition with_typ (o : VerifyOptions) (typ : string) : VerifyOptions :=
  mkVerifyOptions (vo_audience o) (Some typ) (vo_leeway_secs o) (vo_allow_expired o) (vo_check_denylist o).

Section tokens.
Context `{Valkey} `{UuidDisplay} `{KeyEncryptor} `{Jwts} `{!Serde SsoSession} `{!Serde Map} `{!Serde string}.
Context (print_value : Value -> string) (parse_f64 : string -> option Value) (user_json : User -> Value).
Context (render : string -> Value -> option string).
Context (sha256 : list Z -> list Z) (sha384 : list Z -> list Z) (sha512 : list Z -> list Z) (b64 : list Z -> string).
Context (uuid_bytes : Uuid -> list Z) (url_host : string -> option string).
(** aws-lc-rs accepts the RSA key; the text Valkey keeps for [1u8]. *)
Context (rsa_ok : list Z -> bool) (one_mark : raw).

(** The state the token services share: sessions, refresh tokens and Valkey,
    and the signing keys. *)
Record TokenState := mkTokenState { tk_app : AppState; tk_keys : KeyStore }.
Definition tk_redis (st : TokenState) : vdb := redis (tk_app st).
Definition tk_with_redis (st : TokenState) (db : vdb) : TokenState :=
  mkTokenState (with_redis (tk_app st) db) (tk_keys st).
Definition on_redis (f : vdb -> vdb) : M TokenState TokError unit :=
  modify (fun st => tk_with_redis st (f (tk_redis st))).

Definition on_keys {A} (m : M KeyStore KeyError A) : M TokenState TokError A := fun st =>
  let '(r, ks) := m (tk_keys st) in (map_err TkKey r, mkTokenState (tk_app st) ks).

(** What one token draws: its [jti], the 32 bytes of an opaque token, and what
    making a first signing key draws. *)
Record TokenDraw := mkTokenDraw { td_jti : Uuid; td_bytes : list Z; td_key : KeyDraw }.

(** [rsa_pkcs1_of_pkcs8]. *)
Definition rsa_pkcs1_of_pkcs8 (der : list Z) : result TokError (list Z) :=
  if negb (rsa_ok der) then Err TkInternal
  else
    map_err (fun _ => TkInternal)
      (let? info := single der SEQUENCE in
       let? (_, r) := expect INTEGER info in
       let? (_, r) := expect SEQUENCE r in
       let? (key, _) := expect OCTET_STRING r in
       Ok key).
Definition encoding_key_from_der (alg : SigningAlg) (der : list Z) : result TokError enc_key :=
  match alg with
  | RS256 | RS384 | RS512 => let? pkcs1 := rsa_pkcs1_of_pkcs8 der in Ok (from_rsa_der pkcs1)
  | ES256 => Ok (from_ec_der der)
  | EdDSA => Ok (from_ed_der der)
  end.

(** [encoding_key], of which the cache per node is left out. *)
Definition encoding_key (now : Z) (key : SigningKey) : M TokenState TokError enc_key :=
  let! der := on_keys (private_der now key) in
  lift (encoding_key_from_der (sk_alg key) der).

Definition sign (now : Z) (key : SigningKey) (typ : string) (claims : Map) : M TokenState TokError string :=
  let header := mkHeader (jwt_alg (sk_alg key)) (Some (sk_kid key)) (Some typ) in
  let! enc := encoding_key now key in
  lift (ok_or (jwt_encode header claims enc) TkInternal).

(** *** Opaque tokens *)

Definition opaque_hash (token : string) : string := b64 (sha256 (ascii_bytes token)).
Definition random_opaque (bytes : list Z) : string := (AT_PREFIX ++ b64 bytes)%string.
Definition tenant_of (claims : Map) : option Uuid := uuid_claim claims "tid".

Definition opaque_issue (now : Z) (bytes : list Z) (claims : Map) (expires_at : Z) : M TokenState TokError string :=
  let! tenant_id := lift (ok_or (tenant_of claims) TkInternal) in
  let ttl_ms := Z.max (expires_at - now) 1 in
  let token := random_opaque bytes in
  let h := opaque_hash token in
  do! on_redis (fun db => vset_px now (opaque_access_token_claims tenant_id h) (to_json claims) ttl_ms db) in
  do! on_redis (fun db => vset_px now (opaque_access_token h) (to_json (uuid_str tenant_id)) ttl_ms db) in
  ret token.

Definition opaque_lookup (now : Z) (st : TokenState) (token : string) : option (Uuid * Map) :=
  if negb (looks_like token) then None
  else
    let h := opaque_hash token in
    entry ← vget now (opaque_access_token h) (tk_redis st);
    raw_ ← match from_json entry ≫= parse_str with
           | Some tenant_id => vget now (opaque_access_token_claims tenant_id h) (tk_redis st)
           | None => Some entry
           end;
    claims ← from_json raw_;
    tenant_id ← tenant_of claims;
    Some (tenant_id, claims).

Definition opaque_revoke (now : Z) (token : string) : M TokenState TokError unit :=
  if negb (looks_like token) then ret tt
  else
    let h := opaque_hash token in
    let! entry := gets (fun st => vget now (opaque_access_token h) (tk_redis st)) in
    do! match entry ≫= fun e => from_json e ≫= parse_str with
        | Some tenant_id => on_redis (vdel now (opaque_access_token_claims tenant_id h))
        | None => ret tt
        end in
    on_redis (vdel now (opaque_access_token h)).

(** *** Tokens *)

Definition signing_key (now : Z) (d : KeyDraw) (t : Tenant) (alg : option SigningAlg)
    : M TokenState TokError SigningKey :=
  on_keys (match alg with
           | Some alg => ensure_active_alg (fun s => sha256 (ascii_bytes s)) b64 now d (tn_id t) alg
           | None => ensure_active (fun s => sha256 (ascii_bytes s)) b64 now d (tn_id t) (tn_keys t)
           end).

Definition issue_access_token (now : Z) (d : TokenDraw) (dir : Directory) (req : AccessTokenRequest)
    : M TokenState TokError IssuedToken :=
  let exp := access_exp now req in
  let claims :=
    access_claims print_value parse_f64 user_json render sha256 b64 uuid_bytes now (td_jti d) dir req in
  if bool_decide (tc_access_token_format (at_client req) = Opaque) then
    let! token := opaque_issue now (td_bytes d) claims exp in
    ret (mkIssuedToken token claims "" exp)
  else
    let! key := signing_key now (td_key d) (at_tenant req) (tc_access_token_alg (at_client req)) in
    let! token := sign now key "at+jwt" claims in
    ret (mkIssuedToken token claims (sk_kid key) exp).

Definition issue_id_token (now : Z) (d : TokenDraw) (dir : Directory) (req : IdTokenRequest)
    : M TokenState TokError IssuedToken :=
  let! key := signing_key now (td_key d) (it_tenant req) (tc_id_token_alg (it_client req)) in
  let exp := now + from_std (tc_id_token_ttl (it_client req)) in
  let claims :=
    id_claims print_value parse_f64 user_json render sha256 sha384 sha512 b64 uuid_bytes now (sk_alg key) dir req in
  let! token := sign now key "JWT" claims in
  ret (mkIssuedToken token claims (sk_kid key) exp).

(** [subject_user_id]. *)
Definition subject_user_id (now : Z) (t : Tenant) (policy : SessionPolicy) (claims : Map)
    : M TokenState TokError (option Uuid) :=
  match uuid_claim claims "sub" with
  | Some id => ret (Some id)
  | None =>
      match uuid_claim claims "sid" with
      | None => ret None
      | Some sid => fun st =>
          let '(s, app) := get now (tk_app st) (tn_id t) sid policy in
          (Ok (s_user_id <$> s), mkTokenState app (tk_keys st))
      end
  end.

(** ** Verification and revocation *)

(** [denylist::deny] and [is_denied]. *)
Definition deny (now : Z) (tenant_id : Uuid) (jti : string) (expires_at : Z) (db : vdb) : vdb :=
  let ttl := num_seconds (expires_at - now) in
  if ttl <=? 0 then db else vset_px now (jti_denied tenant_id jti) one_mark (ttl * 1000) db.
Definition is_denied (now : Z) (tenant_id : Uuid) (jti : string) (db : vdb) : bool :=
  bool_decide (is_Some (vget now (jti_denied tenant_id jti) db)).

(** [verification_keys]: the published keys by [kid], of which the cache per
    node is left out. *)
Definition verification_keys (tenant_id : Uuid) (st : TokenState) : gmap string (SigningAlg * dec_key) :=
  foldl (fun parsed jwk =>
    match get_key jwk "kid" ≫= as_str, get_key jwk "alg" ≫= fun v => as_str v ≫= parse_alg, from_jwk jwk with
    | Some kid, Some alg, Some decoding => <[kid := (alg, decoding)]> parsed
    | _, _, _ => parsed
    end) ∅ (published_jwks tenant_id (tk_keys st)).

(** Was the [jti] revoked before expiry? *)
Definition denied_claims (now : Z) (t : Tenant) (st : TokenState) (opts : VerifyOptions) (claims : Map) : bool :=
  vo_check_denylist opts
  && match str_claim claims "jti" with
     | Some jti => is_denied now (tn_id t) jti (tk_redis st)
     | None => false
     end.

Definition validation_of (dir : Directory) (t : Tenant) (alg : Algorithm) (opts : VerifyOptions) : Validation :=
  mkValidation alg (vo_leeway_secs opts) (negb (vo_allow_expired opts)) true (Some [issuer dir t])
    ((fun a => [a]) <$> vo_audience opts) ["exp"; "iss"]%string.

Definition verify (now : Z) (dir : Directory) (t : Tenant) (st : TokenState) (token : string) (opts : VerifyOptions)
    : result TokError Map :=
  let? header := ok_or (decode_header token) TkUnauthorized in
  let? kid := ok_or (h_kid header) TkUnauthorized in
  if match vo_typ opts with
     | Some expected => negb (bool_decide (h_typ header = Some expected)) | None => false end
  then Err TkUnauthorized
  else
    let? (alg, decoding) := ok_or (verification_keys (tn_id t) st !! kid) TkUnauthorized in
    if negb (bool_decide (jwt_alg alg = h_alg header)) then Err TkUnauthorized
    else
      let? claims :=
        ok_or (jwt_decode (unix_seconds now) token decoding (validation_of dir t (h_alg header) opts)) TkUnauthorized in
      if denied_claims now t st opts claims then Err TkUnauthorized else Ok claims.

(** [check_opaque]. *)
Definition check_opaque (now : Z) (t : Tenant) (st : TokenState) (claims : Map) (opts : VerifyOptions)
    : result TokError Map :=
  let exp := default 0 (claims !! "exp"%string ≫= as_int) in
  if negb (vo_allow_expired opts) && (exp + vo_leeway_secs opts <=? unix_seconds now) then Err TkUnauthorized
  else if match vo_audience opts with
          | Some expected =>
              negb match claims !! "aud"%string with
                   | Some (VString a) => String.eqb a expected
                   | Some (VArray l) =>
                       existsb (fun v => match v with VString a => String.eqb a expected | _ => false end) l
                   | _ => false
                   end
          | None => false
          end
  then Err TkUnauthorized
  else if denied_claims now t st opts claims then Err TkUnauthorized else Ok claims.

Definition verify_access (now : Z) (dir : Directory) (t : Tenant) (st : TokenState) (token : string)
    (opts : VerifyOptions) : result TokError Map :=
  if negb (looks_like token) then verify now dir t st token (with_typ opts "at+jwt")
  else
    let? (tenant_id, claims) := ok_or (opaque_lookup now st token) TkUnauthorized in
    if negb (tenant_id =? tn_id t) then Err TkUnauthorized
    else check_opaque now t st claims opts.
End tokens.

(** ** Lemmas on claims *)

Lemma insert_some_lookup n o (claims : Map) m :
  insert_some n o claims !! m
  = if String.eqb n m then (match o with Some v => Some v | None => claims !! m end) else claims !! m.
Proof.
  destruct (String.eqb n m) eqn:E.
  - apply String.eqb_eq in E as ->. destruct o; cbn; [apply lookup_insert_eq|done].
  - apply String.eqb_neq in E. destruct o; cbn; [by apply lookup_insert_ne|done].
Qed.

Lemma insert_lookup_eqb n v (claims : Map) m :
  <[n := v]> claims !! m = if String.eqb n m then Some v else claims !! m.
Proof. apply (insert_some_lookup n (Some v)). Qed.

Lemma with_roles_groups_ne req claims n :
  n <> "roles"%string -> n <> "groups"%string -> with_roles_groups req claims !! n = claims !! n.
Proof.
  intros Hr Hg. unfold with_roles_groups. destruct (at_user req); [|done].
  repeat case_bool_decide; rewrite ?lookup_insert_ne by done; done.
Qed.

(** The claims an access token must carry, by name. *)
Definition owned_access `{UuidDisplay} sha256 b64 uuid_bytes (now : Z) (jti : Uuid) (dir : Directory)
    (req : AccessTokenRequest) (extra_aud : list string) (n : string) : option Value :=
  let t := at_tenant req in
  let aud := access_aud req extra_aud in
  (if n =? "iss" then Some (VString (issuer dir t))
   else if n =? "sub" then Some (VString (access_sub sha256 b64 uuid_bytes req))
   else if n =? "aud" then Some (match aud with [a] => VString a | _ => json_strings aud end)
   else if (n =? "client_id") || (n =? "azp") then Some (VString (tc_client_id (at_client req)))
   else if (n =? "iat") || (n =? "nbf") then Some (json_int (unix_seconds now))
   else if n =? "exp" then Some (json_int (unix_seconds (access_exp now req)))
   else if n =? "jti" then Some (json_uuid jti)
   else if n =? "tid" then Some (json_uuid (tn_id t))
   else if n =? "scope" then Some (VString (String.concat " " (at_scopes req)))
   else if n =? "org_id" then json_uuid <$> at_org_id req
   else if n =? "features" then features_of dir t (at_scopes req) (at_org_id req)
   else if n =? "permissions" then non_empty (tc_permissions (at_client req))
   else if n =? "sid" then json_uuid <$> at_session_id req
   else if n =? "auth_time" then (fun t => json_int (unix_seconds t)) <$> at_auth_time req
   else if n =? "amr" then non_empty (at_amr req)
   else if n =? "acr" then VString <$> at_acr req
   else if n =? "cnf" then match cnf_of req with [] => None | cnf => Some (VObject cnf) end
   else if n =? "act" then at_act req
   else None)%string.

Section owned.
Context `{UuidDisplay}.
Context (print_value : Value -> string) (parse_f64 : string -> option Value) (user_json : User -> Value).
Context (render : string -> Value -> option string).
Context (sha256 : list Z -> list Z) (b64 : list Z -> string) (uuid_bytes : Uuid -> list Z).

(** Neither user data nor mappers put an owned claim there. *)
Lemma mapped_access_owned dir req n :
  n ∈ PROTECTED_CLAIMS \/ n = "permissions"%string ->
  (mapped_access print_value parse_f64 user_json render dir req).1 !! n = None.
Proof.
  intros Hn. unfold mapped_access. rewrite apply_mappers_keeps.
  - destruct (at_user req) as [u|]; [|done]. rewrite profile_claims_keeps; [done|]. left.
    unfold releasable. destruct Hn as [Hn| ->].
    + by rewrite (bool_decide_eq_true_2 (n ∈ PROTECTED_CLAIMS)).
    + vm_compute. reflexivity.
  - intros m _ (Hp & Hq & _)%writer_spec. destruct Hn; tauto.
Qed.

Lemma access_claims_lookup now jti dir req n :
  n ∈ PROTECTED_CLAIMS \/ n = "permissions"%string ->
  access_claims print_value parse_f64 user_json render sha256 b64 uuid_bytes now jti dir req !! n
  = owned_access sha256 b64 uuid_bytes now jti dir req
      (mapped_access print_value parse_f64 user_json render dir req).2 n.
Proof.
  intros Hn. pose proof (mapped_access_owned dir req n Hn) as Hbase. unfold access_claims.
  destruct (mapped_access _ _ _ _ dir req) as [base extra]. cbn [fst snd] in *.
  assert (n <> "roles"%string /\ n <> "groups"%string) as [Hr Hg].
  { split; intros ->; destruct Hn as [Hn|[=]]; revert Hn; unfold PROTECTED_CLAIMS; set_solver. }
  rewrite !insert_some_lookup, with_roles_groups_ne by done.
  rewrite !insert_some_lookup, !insert_lookup_eqb. unfold owned_access. rewrite Hbase. clear Hbase.
  unfold PROTECTED_CLAIMS in Hn. rewrite !elem_of_cons, elem_of_nil in Hn.
  repeat match type of Hn with _ \/ _ => destruct Hn as [Hn|Hn] end;
    try done; subst n; clear; cbn; repeat case_match; congruence.
Qed.

(** The audiences a client's mappers name for access tokens. *)
Definition mapper_audiences (mappers : list ClaimMapper) : list string :=
  omap (fun m => if applies_to m Access then match m_kind m with MAudience a => Some a | _ => None end else None) mappers.
Lemma apply_mappers_audiences ctx mappers claims :
  (apply_mappers print_value parse_f64 user_json render mappers ctx Access claims).2 = mapper_audiences mappers.
Proof.
  unfold apply_mappers.
  assert (forall acc, (foldl (apply_mapper print_value parse_f64 user_json render ctx Access) acc
    (filter (fun m => Is_true (applies_to m Access)) mappers)).2 = acc.2 ++ mapper_audiences mappers) as Hg; [|apply Hg].
  induction mappers as [|m mappers IH]; intros [c auds]; [cbn; by rewrite app_nil_r|].
  rewrite filter_cons. unfold mapper_audiences. cbn [omap list_omap]. destruct (applies_to m Access) eqn:Ea.
  - rewrite decide_True by done. cbn [foldl]. rewrite IH. unfold apply_mapper.
    destruct (mapper_claim_refusal m) as [x|] eqn:Er.
    + rewrite bool_decide_eq_true_2 by (by eexists). unfold mapper_claim_refusal, claim_name in Er. by destruct (m_kind m).
    + rewrite bool_decide_eq_false_2 by (by intros [? ?]). destruct (m_kind m); repeat case_match; try done. cbn [snd]. by rewrite <- app_assoc.
  - rewrite decide_False by (intros []). apply IH.
Qed.
Lemma mapped_access_audiences dir req :
  (mapped_access print_value parse_f64 user_json render dir req).2 = mapper_audiences (tc_mappers (at_client req)).
Proof. apply apply_mappers_audiences. Qed.

Lemma dedup_elem (l : list string) a : a ∈ dedup l -> a ∈ l.
Proof.
  induction l as [|x [|y l] IH]; [done|done|]. cbn [dedup]. destruct (String.eqb x y); [intros Ha; right; by apply IH|].
  intros [->|Ha]%elem_of_cons; [left|right; by apply IH].
Qed.
Lemma aud_list_value l : aud_list (Some (match l with [a] => VString a | _ => json_strings l end)) = l.
Proof.
  assert (forall l : list string, omap as_str (VString <$> l) = l) as Hs by (induction l0; cbn; [done|by f_equal]).
  destruct l as [|a [|b l]]; [done|done|]. cbn [aud_list]. apply Hs.
Qed.
(** Who an access token is for: the audiences of the request, those mappers
    name, or the client itself when there are none. *)
Lemma access_claims_aud now jti dir req a :
  a ∈ aud_list (access_claims print_value parse_f64 user_json render sha256 b64 uuid_bytes now jti dir req !! "aud"%string) ->
  a ∈ at_audiences req \/ a ∈ mapper_audiences (tc_mappers (at_client req))
  \/ (at_audiences req = [] /\ mapper_audiences (tc_mappers (at_client req)) = [] /\ a = tc_client_id (at_client req)).
Proof.
  rewrite access_claims_lookup by (left; unfold PROTECTED_CLAIMS; set_solver). rewrite mapped_access_audiences.
  change (owned_access _ _ _ _ _ _ _ ?ex "aud"%string) with (Some (match access_aud req ex with [a] => VString a | _ => json_strings (access_aud req ex) end)).
  rewrite aud_list_value. unfold access_aud. intros Ha%dedup_elem. case_bool_decide as Hn.
  - rewrite Hn in Ha. apply app_nil in Hn as [? ?]. apply list_elem_of_singleton in Ha. by right; right.
  - apply elem_of_app in Ha as [?|?]; [by left|by right; left].
Qed.
End owned.

(** ** Signing keys that verify what they sign *)

Section keys_good.
Context `{UuidDisplay} `{KeyEncryptorLaws} `{JwtsLaws}.
Context (rsa_ok : list Z -> bool).
Notation encoding_key_from_der := (encoding_key_from_der rsa_ok).

(** From [k] on, the key's private half opens to a key whose public half its
    JWK carries. *)
Definition good_key (k : kstate) (key : SigningKey) : Prop :=
  exists e der ek dk,
    from_bytes (sk_private_key_enc key) = Ok e /\ fits_u 32 (key_version e)
    /\ (forall now k', ke_le k k' -> ke_ok k' ->
          (ke_decrypt now k' e (aad_for (sk_tenant_id key) (sk_id key))).1 = Ok der)
    /\ encoding_key_from_der (sk_alg key) der = Ok ek
    /\ from_jwk (sk_public_jwk key) = Some dk /\ pair ek dk.

Record good_keys (ks : KeyStore) : Prop := {
  gk_enc : ke_ok (ks_enc ks);
  gk_rows : keys_ok (ks_rows ks);
  gk_good key : key ∈ ks_rows ks -> good_key (ks_enc ks) key
}.

(** What aws-lc-rs generates is a pair. *)
Definition good_draw (d : KeyDraw) : Prop :=
  random_ok (kd_rnd d)
  /\ forall alg km, kd_keygen d alg = Some km ->
     exists ek dk, encoding_key_from_der alg (km_der km) = Ok ek /\ pair ek dk
       /\ forall rest, from_jwk (VObject (params_json (km_public km) ++ rest)) = Some dk.

Lemma good_key_later k k' key : ke_le k k' -> good_key k key -> good_key k' key.
Proof.
  intros Hle (e & der & ek & dk & Hb & Hf & Hd & Hrest). exists e, der, ek, dk. repeat split; try apply Hrest; try done.
  - apply Hf.
  - apply Hf.
  - intros now k2 Hle2 Hk2. apply Hd; [by eapply ke_le_trans|done].
Qed.

Lemma good_key_same k key key' : same_key key key' -> good_key k key -> good_key k key'.
Proof.
  intros [Hi Ht _ Ha Hj Hp] (e & der & ek & dk & ?). exists e, der, ek, dk. by rewrite Hi, Ht, Ha, Hj, Hp.
Qed.

(** Opening a good key. *)
Lemma private_der_run now key ks :
  good_keys ks -> key ∈ ks_rows ks ->
  exists der k', private_der now key ks = (Ok der, mkKeyStore (ks_rows ks) k' (ks_events ks))
    /\ good_keys (mkKeyStore (ks_rows ks) k' (ks_events ks))
    /\ exists ek dk, encoding_key_from_der (sk_alg key) der = Ok ek
         /\ from_jwk (sk_public_jwk key) = Some dk /\ pair ek dk.
Proof.
  intros [Hok Hrows Hgood] Hin. destruct (Hgood key Hin) as (e & der & ek & dk & Hb & Hf & Hd & Hrest).
  pose proof (Hd now (ks_enc ks) (ke_le_refl _) Hok) as Hde.
  destruct (ke_decrypt_le now (ks_enc ks) e (aad_for (sk_tenant_id key) (sk_id key)) Hok Hf) as [Hok' Hle].
  unfold private_der. rewrite Hb. destruct (ke_decrypt now (ks_enc ks) e _) as [r k']. cbn [fst snd] in *. subst r.
  exists der, k'. split; [done|]. split; [|eauto]. split; [done|done|]. intros x Hx. by eapply good_key_later, Hgood.
Qed.

Lemma good_keys_insert ks key rows ev :
  good_keys ks -> good_key (ks_enc ks) key -> jwk_ok key -> KeyRepo.insert key (ks_rows ks) = Some rows ->
  good_keys (mkKeyStore rows (ks_enc ks) ev).
Proof.
  intros [Hok Hrows Hgood] Hk Hj Hi. split; [done|by eapply keys_ok_insert|]. cbn. intros x Hx.
  apply insert_elems in Hi as ->. apply elem_of_app in Hx as [Hx| ->%list_elem_of_singleton]; [by apply Hgood|done].
Qed.

Section made.
Context (sha256 : string -> list Z) (b64 : list Z -> string).

Lemma create_good now d t alg status nb ks r ks' :
  good_keys ks -> good_draw d -> create sha256 b64 now d t alg status nb ks = (r, ks') ->
  good_keys ks' /\ forall k, r = Ok k -> k ∈ ks_rows ks'.
Proof.
  intros Hks [Hrnd Hpair]. unfold create, lift at 1, bind at 1.
  destruct (generate sha256 b64 (kd_keygen d) alg) as [g|] eqn:Eg; [|by intros [= <- <-]].
  pose proof (generate_jwk _ _ _ _ _ Eg) as (_ & Hj).
  unfold gets at 1, bind at 1, lift at 1, bind at 1.
  destruct (ke_encrypt _ _ _ _) as [e|] eqn:Ee; cbn [map_err]; [|by intros [= <- <-]].
  unfold gets at 1, bind at 1, lift at 1, bind at 1.
  set (key := mkSigningKey _ _ _ _ _ _ _ _ _ _ _).
  destruct (KeyRepo.insert key (ks_rows ks)) as [rows|] eqn:Ei; cbn [ok_or]; [|by intros [= <- <-]].
  cbn. intros [= <- <-]. split.
  - eapply (good_keys_insert ks key); [done| |exact Hj|exact Ei].
    unfold generate in Eg. destruct (kd_keygen d alg) as [km|] eqn:Ekm; cbn [ok_or] in Eg; [|done].
    destruct (thumbprint _ _ _) as [kid|]; [|done]. injection Eg as <-.
    destruct (Hpair alg km Ekm) as (ek & dk & Henc & Hp & Hjwk). cbn in *.
    exists e, (km_der km), ek, dk. cbn.
    destruct (ke_read_back (kd_rnd d) _ _ _ _ _ 0 (gk_enc _ Hks) Hrnd Ee (ke_le_refl _) (gk_enc _ Hks)) as (Hf & Hb & _).
    split; [done|]. split; [done|]. split; [|split; [done|split; [apply Hjwk|done]]].
    intros now' k' Hle Hk'.
    by destruct (ke_read_back (kd_rnd d) _ _ _ _ _ now' (gk_enc _ Hks) Hrnd Ee Hle Hk') as (_ & _ & ?).
  - intros k [= <-]. apply insert_elems in Ei as ->. apply elem_of_app. right. apply list_elem_of_here.
Qed.

Lemma find_active_elem now t alg rows k :
  KeyRepo.find_active now t alg rows = Some k ->
  k ∈ rows /\ sk_tenant_id k = t /\ sk_alg k = alg /\ sk_status k = KActive.
Proof.
  unfold KeyRepo.find_active. intros Hh%head_Some_elem_of.
  rewrite merge_sort_Permutation, list_elem_of_filter in Hh. tauto.
Qed.

(** [ensure_active_alg] answers an active key of the table. *)
Lemma ensure_good now d t alg ks k ks' :
  good_keys ks -> good_draw d -> ensure_active_alg sha256 b64 now d t alg ks = (Ok k, ks') ->
  good_keys ks' /\ k ∈ ks_rows ks' /\ sk_tenant_id k = t /\ sk_alg k = alg /\ sk_status k = KActive.
Proof.
  intros Hks Hd. unfold ensure_active_alg, active, gets, bind.
  destruct (KeyRepo.find_active now t alg (ks_rows ks)) as [k0|] eqn:Ef.
  { intros [= <- <-]. split; [done|]. by eapply find_active_elem. }
  unfold first_key. destruct (create sha256 b64 now d t alg KActive None ks) as [r1 ks1] eqn:Ec.
  destruct (create_good now d t alg KActive None ks _ _ Hks Hd Ec) as [Hg Hin]. destruct r1 as [k1|[]]; try done.
  - intros [= <- <-]. pose proof (create_run _ _ _ _ _ _ _ _ _ _ _ Ec) as (_ & Ht & Ha & Hs & _).
    split; [done|]. split; [by apply Hin|done].
  - unfold active, gets, bind, lift.
    destruct (KeyRepo.find_active now t alg (ks_rows ks1)) as [k2|] eqn:Ef2; cbn [ok_or]; [|done].
    intros [= <- <-]. split; [done|]. by eapply find_active_elem.
Qed.
End made.

(** *** The verification keys *)

Lemma parse_alg_as_str a : parse_alg (SigningAlg_as_str a) = Some a.
Proof. by destruct a. Qed.

Lemma verification_fold (rows : list SigningKey) (acc : gmap string (SigningAlg * dec_key)) r dk :
  NoDup (sk_kid <$> rows) -> (forall x, x ∈ rows -> jwk_ok x) ->
  from_jwk (sk_public_jwk r) = Some dk -> jwk_ok r ->
  (r ∈ rows \/ ((sk_kid r ∉ sk_kid <$> rows) /\ acc !! sk_kid r = Some (sk_alg r, dk))) ->
  foldl (fun parsed jwk =>
    match get_key jwk "kid" ≫= as_str, get_key jwk "alg" ≫= fun v => as_str v ≫= parse_alg, from_jwk jwk with
    | Some kid, Some alg, Some decoding => <[kid := (alg, decoding)]> parsed
    | _, _, _ => parsed
    end) acc (sk_public_jwk <$> rows) !! sk_kid r = Some (sk_alg r, dk).
Proof.
  intros Hnd Hj Hr Hrj. revert acc. induction rows as [|x rows IH]; intros acc Hin.
  - destruct Hin as [Hin|[_ Hin]]; [by apply not_elem_of_nil in Hin|done].
  - rewrite fmap_cons in *. apply NoDup_cons in Hnd as [Hx Hnd]. cbn [foldl].
    apply IH; [done|intros; apply Hj; by apply list_elem_of_further|].
    destruct (Hj x ltac:(apply list_elem_of_here)) as [Hk Ha]. rewrite Hk, Ha. cbn [mbind option_bind as_str].
    rewrite parse_alg_as_str.
    destruct Hin as [[->|Hin]%elem_of_cons|[Hne Hacc]].
    + right. split; [done|]. rewrite Hr. by rewrite lookup_insert_eq.
    + by left.
    + right. apply not_elem_of_cons in Hne as [Hne1 Hne2]. split; [done|].
      destruct (from_jwk (sk_public_jwk x)); [|done]. by rewrite lookup_insert_ne.
Qed.

Lemma published_kids t rows : keys_ok rows -> NoDup (sk_kid <$> KeyRepo.list_published t rows).
Proof.
  intros [_ Hn _ _]. unfold KeyRepo.list_published. rewrite merge_sort_Permutation.
  induction rows as [|r rows IH]; [apply NoDup_nil_2|].
  rewrite fmap_cons in Hn. apply NoDup_cons in Hn as [Hr Hn]. rewrite filter_cons.
  case_decide as Hd; [|by apply IH]. rewrite fmap_cons. apply NoDup_cons. split; [|by apply IH].
  intros (x & E & [[Ht _] Hx]%list_elem_of_filter)%list_elem_of_fmap. apply Hr. apply list_elem_of_fmap.
  exists x. split; [|done]. unfold key_name. destruct Hd. congruence.
Qed.

(** Every verification key is a published one. *)
Lemma verification_keys_elem `{Valkey} t (st : TokenState) kid alg dk :
  verification_keys t st !! kid = Some (alg, dk) ->
  exists r, r ∈ KeyRepo.list_published t (ks_rows (tk_keys st))
    /\ get_key (sk_public_jwk r) "kid" ≫= as_str = Some kid
    /\ get_key (sk_public_jwk r) "alg" ≫= (fun v => as_str v ≫= parse_alg) = Some alg
    /\ from_jwk (sk_public_jwk r) = Some dk.
Proof.
  unfold verification_keys, published_jwks. generalize (KeyRepo.list_published t (ks_rows (tk_keys st))). intros rows.
  induction rows as [|r rows IH] using rev_ind.
  { cbn [fmap list_fmap foldl]. by rewrite lookup_empty. }
  rewrite fmap_app, foldl_app. cbn [fmap list_fmap foldl].
  set (acc := foldl _ _ _) in *. intros Hl.
  assert (acc !! kid = Some (alg, dk) -> exists r0, r0 ∈ rows ++ [r]
    /\ get_key (sk_public_jwk r0) "kid" ≫= as_str = Some kid
    /\ get_key (sk_public_jwk r0) "alg" ≫= (fun v => as_str v ≫= parse_alg) = Some alg
    /\ from_jwk (sk_public_jwk r0) = Some dk) as Hold.
  { intros (r0 & Hr0 & ?)%IH. exists r0. split; [apply elem_of_app; by left|done]. }
  destruct (get_key (sk_public_jwk r) "kid" ≫= as_str) as [kid'|] eqn:E1; [|by apply Hold].
  destruct (get_key (sk_public_jwk r) "alg" ≫= _) as [alg'|] eqn:E2; [|by apply Hold].
  destruct (from_jwk (sk_public_jwk r)) as [dk'|] eqn:E3; [|by apply Hold].
  destruct (decide (kid' = kid)) as [->|Hne].
  - rewrite lookup_insert_eq in Hl. injection Hl as -> ->. exists r. rewrite E1, E2, E3.
    split; [apply elem_of_app; right; apply list_elem_of_here|done].
  - rewrite lookup_insert_ne in Hl by done. by apply Hold.
Qed.

Lemma verification_keys_lookup `{Valkey} t (st : TokenState) r dk :
  keys_ok (ks_rows (tk_keys st)) -> r ∈ KeyRepo.list_published t (ks_rows (tk_keys st)) ->
  from_jwk (sk_public_jwk r) = Some dk ->
  verification_keys t st !! sk_kid r = Some (sk_alg r, dk).
Proof.
  intros Hk Hr Hdk. unfold verification_keys, published_jwks.
  assert (forall x, x ∈ KeyRepo.list_published t (ks_rows (tk_keys st)) -> jwk_ok x) as Hj.
  { intros x Hx. apply (ko_jwks _ Hk). unfold KeyRepo.list_published in Hx.
    rewrite merge_sort_Permutation, list_elem_of_filter in Hx. tauto. }
  apply verification_fold; [by apply published_kids|done|done|by apply Hj|by left].
Qed.
End keys_good.

(** ** Verification *)

Section verification.
Context `{ValkeyLaws} `{UuidDisplay} `{KeyEncryptorLaws} `{JwtsLaws}
  `{!Serde SsoSession} `{!Serde Map} `{!Serde string}.
Context (print_value : Value -> string) (parse_f64 : string -> option Value) (user_json : User -> Value).
Context (render : string -> Value -> option string).
Context (sha256 : list Z -> list Z) (b64 : list Z -> string) (uuid_bytes : Uuid -> list Z).
Context (rsa_ok : list Z -> bool) (one_mark : raw).
Notation access_claims := (access_claims print_value parse_f64 user_json render sha256 b64 uuid_bytes).
Notation issue_access_token :=
  (issue_access_token print_value parse_f64 user_json render sha256 b64 uuid_bytes rsa_ok).
Notation verify_access := (verify_access sha256 b64).
Notation sha256s := (fun s => sha256 (ascii_bytes s)).

(** A signed token verifies while its key is published. *)
Lemma verify_jwt now dir t st opts r dk ek claims tok :
  keys_ok (ks_rows (tk_keys st)) -> r ∈ KeyRepo.list_published (tn_id t) (ks_rows (tk_keys st)) ->
  from_jwk (sk_public_jwk r) = Some dk -> pair ek dk ->
  jwt_encode (mkHeader (jwt_alg (sk_alg r)) (Some (sk_kid r)) (Some "at+jwt"%string)) claims ek = Some tok ->
  validates (unix_seconds now) (validation_of dir t (jwt_alg (sk_alg r)) (with_typ opts "at+jwt")) claims = true ->
  denied_claims now t st opts claims = false ->
  verify_access now dir t st tok opts = Ok claims.
Proof.
  intros Hk Hr Hdk Hp He Hv Hd. unfold AccessTokens.verify_access, looks_like, AT_PREFIX.
  rewrite (jwt_text _ _ _ _ He). cbn [andb negb]. unfold verify.
  rewrite (decode_header_encode _ _ _ _ He). cbn [ok_or h_kid h_typ h_alg vo_typ with_typ].
  rewrite (bool_decide_eq_true_2 (Some "at+jwt"%string = Some "at+jwt"%string)) by done. cbn [negb].
  rewrite (verification_keys_lookup _ _ _ _ Hk Hr Hdk). cbn [ok_or].
  rewrite (bool_decide_eq_true_2 (jwt_alg _ = jwt_alg _)) by done. cbn [negb].
  rewrite (jwt_decode_encode _ _ _ _ _ _ _ He Hp) by done. rewrite Hv. cbn [ok_or].
  by change (denied_claims now t st (with_typ opts "at+jwt") claims) with (denied_claims now t st opts claims); rewrite Hd.
Qed.

(** What an options' audience asks of the claims. *)
Definition audience_met (opts : VerifyOptions) (claims : Map) : Prop :=
  match vo_audience opts with Some a => a ∈ aud_list (claims !! "aud"%string) | None => True end.

Lemma access_claims_validate now jti dir req now' alg opts :
  now <= now' -> 0 <= vo_leeway_secs opts ->
  unix_seconds now' - vo_leeway_secs opts <= unix_seconds (access_exp now req) ->
  audience_met opts (access_claims now jti dir req) ->
  validates (unix_seconds now') (validation_of dir (at_tenant req) alg (with_typ opts "at+jwt"))
    (access_claims now jti dir req) = true.
Proof.
  intros Hnow Hl Hexp Haud. unfold validates, validation_of.
  cbn [v_required v_validate_exp v_validate_nbf v_leeway v_issuers v_audience with_typ vo_allow_expired vo_leeway_secs
       vo_audience].
  assert (forall n, n ∈ PROTECTED_CLAIMS -> access_claims now jti dir req !! n
            = owned_access sha256 b64 uuid_bytes now jti dir req
                (mapped_access print_value parse_f64 user_json render dir req).2 n) as Hown.
  { intros n Hn. apply access_claims_lookup. by left. }
  cbn [forallb]. rewrite (Hown "exp"%string) by (unfold PROTECTED_CLAIMS; set_solver).
  rewrite (Hown "iss"%string) by (unfold PROTECTED_CLAIMS; set_solver).
  rewrite (Hown "nbf"%string) by (unfold PROTECTED_CLAIMS; set_solver).
  cbn -[unix_seconds access_exp existsb].
  rewrite (proj2 (Z.leb_le (unix_seconds now' - _) _)) by lia. rewrite !orb_true_r.
  assert (unix_seconds now <= unix_seconds now') by (apply Z.div_le_mono; lia).
  rewrite (proj2 (Z.leb_le (unix_seconds now) _)) by lia.
  rewrite bool_decide_eq_true_2 by apply list_elem_of_here. cbn [andb].
  unfold audience_met in Haud. destruct (vo_audience opts) as [a|]; [|done]. cbn.
  apply existsb_exists. exists a. split; [by apply list_elem_of_In|]. apply bool_decide_eq_true_2, list_elem_of_here.
Qed.

(** A JWT that was issued: signed by an active key of the table. *)
Lemma issue_jwt_run now d dir req st tok st' :
  good_keys rsa_ok (tk_keys st) -> good_draw rsa_ok (td_key d) -> tc_access_token_format (at_client req) = Jwt ->
  issue_access_token now d dir req st = (Ok tok, st') ->
  exists r ek dk,
    good_keys rsa_ok (tk_keys st') /\ r ∈ ks_rows (tk_keys st') /\ sk_tenant_id r = tn_id (at_tenant req)
    /\ sk_status r = KActive /\ sk_kid r = tok_kid tok
    /\ from_jwk (sk_public_jwk r) = Some dk /\ pair ek dk
    /\ jwt_encode (mkHeader (jwt_alg (sk_alg r)) (Some (sk_kid r)) (Some "at+jwt"%string)) (tok_claims tok) ek
       = Some (tok_token tok)
    /\ tok_claims tok = access_claims now (td_jti d) dir req /\ tok_expires_at tok = access_exp now req
    /\ tk_app st' = tk_app st.
Proof.
  intros Hks Hd Hfmt. unfold AccessTokens.issue_access_token.
  rewrite bool_decide_eq_false_2 by (by rewrite Hfmt).
  intros (key & st1 & Hkey & Hrest)%bind_ok. apply bind_ok in Hrest as (text & st2 & Hsign & Hret).
  unfold ret in Hret. injection Hret as <- <-. unfold signing_key, on_keys in Hkey.
  assert (exists alg ks1, ensure_active_alg sha256s b64 now (td_key d) (tn_id (at_tenant req)) alg (tk_keys st)
            = (Ok key, ks1) /\ st1 = mkTokenState (tk_app st) ks1) as (alg & ks1 & Hens & ->).
  { destruct (tc_access_token_alg (at_client req)) as [a|]; [exists a|exists (default_alg (tn_keys (at_tenant req)))];
      unfold ensure_active in *;
      destruct (ensure_active_alg _ _ _ _ _ _ (tk_keys st)) as [[k|] ks1]; cbn in Hkey; simplify_eq; eauto. }
  destruct (ensure_good rsa_ok _ _ _ _ _ _ _ _ _ Hks Hd Hens) as (Hks1 & Hin & Ht & Ha & Hst).
  unfold sign, encoding_key in Hsign. apply bind_ok in Hsign as (ek & st3 & Hek & Hsign).
  apply bind_ok in Hek as (der & st4 & Hder & Hek). unfold on_keys in Hder. cbn [tk_keys tk_app] in Hder.
  destruct (private_der_run rsa_ok now key ks1 Hks1 Hin) as (der' & k' & Hpd & Hks2 & ek' & dk & He' & Hj & Hp).
  rewrite Hpd in Hder. cbn in Hder. injection Hder as <- <-.
  unfold lift in Hek, Hsign. rewrite He' in Hek. injection Hek as <- <-.
  destruct (jwt_encode _ _ ek') as [tok|] eqn:Ej; cbn [ok_or] in Hsign; [|done]. injection Hsign as <- <-.
  exists key, ek', dk. by split_and!.
Qed.
End verification.

(** *** Revocation *)

Section revocation.
Context `{ValkeyLaws} `{UuidDisplay} `{KeyEncryptor} `{Jwts} `{!Serde Map} `{!Serde string}.
Context (sha256 : list Z -> list Z) (b64 : list Z -> string) (one_mark : raw).

Lemma deny_denies now t jti exp db now' :
  now <= now' -> now' < now + num_seconds (exp - now) * 1000 -> is_denied now' t jti (deny one_mark now t jti exp db) = true.
Proof.
  intros Hn Hx. unfold deny, is_denied. destruct (num_seconds (exp - now) <=? 0) eqn:E; bool_hyps; [lia|].
  apply bool_decide_eq_true_2. rewrite vget_set by lia. rewrite (proj2 (Z.ltb_lt now' _)) by done. by eexists.
Qed.

(** The entry is gone when the whole seconds that were left are over. *)
Lemma deny_lapses now t jti exp db now' :
  now <= exp -> exp <= now' -> vget now' (jti_denied t jti) db = None ->
  is_denied now' t jti (deny one_mark now t jti exp db) = false.
Proof.
  intros Hn Hx Hdb. unfold deny, is_denied, num_seconds. apply bool_decide_eq_false_2.
  destruct (Z.quot (exp - now) 1000 <=? 0) eqn:E; bool_hyps; [by rewrite Hdb; intros []|].
  assert (Z.quot (exp - now) 1000 * 1000 <= exp - now).
  { rewrite Z.quot_div_nonneg by lia. pose proof (Z.mul_div_le (exp - now) 1000 ltac:(lia)). lia. }
  rewrite vget_set by lia. rewrite (proj2 (Z.ltb_ge now' _)) by lia. by intros [].
Qed.

(** Whatever verifies is not denied. *)
Lemma verify_access_fresh now dir t st tok opts c :
  verify_access sha256 b64 now dir t st tok opts = Ok c -> denied_claims now t st opts c = false.
Proof.
  unfold verify_access. destruct (looks_like tok); cbn [negb].
  - destruct (opaque_lookup _ _ now st tok) as [[t' c']|]; cbn [ok_or]; [|done].
    destruct (negb (t' =? tn_id t)); [done|]. unfold check_opaque.
    destruct (denied_claims now t st opts c') eqn:E; repeat case_match; intros; simplify_eq; done.
  - unfold verify. destruct (decode_header tok) as [h|]; cbn [ok_or]; [|done].
    destruct (h_kid h) as [kid|]; cbn [ok_or]; [|done].
    destruct (match vo_typ _ with Some _ => _ | None => _ end); [done|].
    destruct (verification_keys (tn_id t) st !! kid) as [[alg dk]|]; cbn [ok_or]; [|done].
    destruct (negb _); [done|]. destruct (jwt_decode _ tok dk _) as [c'|]; cbn [ok_or]; [|done].
    change (denied_claims now t st (with_typ opts "at+jwt") c') with (denied_claims now t st opts c').
    destruct (denied_claims now t st opts c') eqn:E; [done|]. by intros [= <-].
Qed.
End revocation.

(** *** Opaque tokens *)

Section opaque.
Context `{ValkeyLaws} `{UuidDisplay} `{KeyEncryptor} `{Jwts} `{!Serde SsoSession} `{!Serde Map} `{!Serde string}.
Context (sha256 : list Z -> list Z) (b64 : list Z -> string).

Lemma check_opaque_ok now t st claims opts exp :
  claims !! "exp"%string = Some (json_int exp) -> unix_seconds now < exp + vo_leeway_secs opts ->
  audience_met opts claims -> denied_claims now t st opts claims = false ->
  check_opaque now t st claims opts = Ok claims.
Proof.
  intros Hexp Hnow Haud Hden. unfold check_opaque. rewrite Hexp. cbn [mbind option_bind as_int json_int default].
  rewrite (proj2 (Z.leb_gt (exp + _) _)) by lia. rewrite andb_false_r, Hden.
  unfold audience_met in Haud. destruct (vo_audience opts) as [a|]; [|done].
  destruct (claims !! "aud"%string) as [[| | |x|l|]|]; cbn in Haud; try by apply not_elem_of_nil in Haud.
  - apply list_elem_of_singleton in Haud as ->. by rewrite String.eqb_refl.
  - assert (existsb (fun v => match v with VString x => String.eqb x a | _ => false end) l = true) as ->; [|done].
    apply list_elem_of_omap in Haud as (v & Hv & E). apply existsb_exists. exists v.
    split; [by apply list_elem_of_In|]. destruct v; try done. injection E as ->. apply String.eqb_refl.
Qed.

Lemma opaque_issue_run now bytes claims exp st tok st' :
  opaque_issue sha256 b64 now bytes claims exp st = (Ok tok, st') ->
  exists t, tenant_of claims = Some t /\ tok = random_opaque b64 bytes
    /\ st' = tk_with_redis st
               (vset_px now (opaque_access_token (opaque_hash sha256 b64 tok)) (to_json (uuid_str t)) (Z.max (exp - now) 1)
                 (vset_px now (opaque_access_token_claims t (opaque_hash sha256 b64 tok)) (to_json claims)
                    (Z.max (exp - now) 1) (tk_redis st))).
Proof.
  unfold opaque_issue, lift, bind. destruct (tenant_of claims) as [t|]; cbn [ok_or]; [|done].
  cbn. intros [= <- <-]. exists t. by repeat split.
Qed.

Lemma opaque_keys_ne t h h' : opaque_access_token h <> opaque_access_token_claims t h'.
Proof. intros E. by key_inv. Qed.

(** The claims are found while the entries live. *)
Lemma opaque_lookup_issued now bytes claims exp st tok st' t now' :
  opaque_issue sha256 b64 now bytes claims exp st = (Ok tok, st') -> tenant_of claims = Some t ->
  (String.length (b64 bytes) <= 125)%nat -> now <= now' < exp ->
  opaque_lookup sha256 b64 now' st' tok = Some (t, claims).
Proof.
  intros (t' & Ht' & -> & ->)%opaque_issue_run Ht Hlen Hnow. simplify_eq.
  unfold opaque_lookup, looks_like, random_opaque, AT_PREFIX.
  assert (String.prefix "at_" ("at_" ++ b64 bytes) = true) as -> by (cbn; by destruct (b64 bytes)).
  change (String.length ("at_" ++ b64 bytes)%string) with (3 + String.length (b64 bytes))%nat.
  rewrite (proj2 (Z.leb_le _ 128)) by lia. cbn [andb negb].
  set (h := opaque_hash sha256 b64 _). unfold tk_redis. cbn [redis tk_app tk_with_redis with_redis].
  rewrite vget_set by lia. rewrite (proj2 (Z.ltb_lt now' _)) by lia. cbn [mbind option_bind].
  rewrite from_to_json. cbn [mbind option_bind]. rewrite parse_uuid_str.
  rewrite vget_set_ne by apply opaque_keys_ne. rewrite vget_set by lia. rewrite (proj2 (Z.ltb_lt now' _)) by lia.
  cbn [mbind option_bind]. rewrite from_to_json. cbn [mbind option_bind]. by rewrite Ht'.
Qed.

(** After [opaque_revoke] nothing is found. *)
Lemma opaque_lookup_revoked now now' st tok :
  opaque_lookup sha256 b64 now' (opaque_revoke sha256 b64 now tok st).2 tok = None.
Proof.
  unfold opaque_lookup. destruct (looks_like tok) eqn:El; cbn [negb]; [|done].
  unfold opaque_revoke. rewrite El. cbn [negb]. unfold gets, bind at 1, bind.
  set (h := opaque_hash sha256 b64 tok).
  set (o := vget now (opaque_access_token h) (tk_redis st) ≫= fun e => from_json e ≫= parse_str).
  assert (exists st1, (match o with
      | Some t => on_redis (vdel now (opaque_access_token_claims t h)) | None => ret tt end) st = (Ok tt, st1)) as [st1 ->]
    by (destruct o; by eexists).
  unfold on_redis, modify. cbn [snd]. unfold tk_redis. cbn [redis tk_app tk_with_redis with_redis].
  by rewrite vget_del.
Qed.
End opaque.

(** *** Theorems *)

(** C37: an access token carries, for every claim the token service owns,
    exactly what the request says, whatever profile attributes the user has and
    whatever mappers the tenant configures: nothing can add a subject, an
    actor, a key binding, a session or a permission. The one thing mappers
    reach is [aud], and only to add to it: it is the audiences of the request
    followed by those that the client's audience mappers name, or the client
    itself when there are neither. *)
Theorem access_token_owned `{UuidDisplay} print_value parse_f64 user_json render sha256 b64 uuid_bytes now jti dir req n :
  n ∈ PROTECTED_CLAIMS \/ n = "permissions"%string ->
  let claims := access_claims print_value parse_f64 user_json render sha256 b64 uuid_bytes now jti dir req in
  (n <> "aud"%string -> claims !! n = owned_access sha256 b64 uuid_bytes now jti dir req [] n)
  /\ let aud := access_aud req (mapper_audiences (tc_mappers (at_client req))) in
     claims !! "aud"%string = Some (match aud with [a] => VString a | _ => json_strings aud end)
     /\ (forall a, a ∈ aud -> a ∈ at_audiences req \/ a ∈ mapper_audiences (tc_mappers (at_client req))
           \/ (at_audiences req = [] /\ mapper_audiences (tc_mappers (at_client req)) = [] /\ a = tc_client_id (at_client req))).
Proof.
  intros Hn claims. split.
  - intros Hne. unfold claims. rewrite access_claims_lookup by done. unfold owned_access. by rewrite (proj2 (String.eqb_neq n "aud") Hne).
  - assert (claims !! "aud"%string = owned_access sha256 b64 uuid_bytes now jti dir req (mapper_audiences (tc_mappers (at_client req))) "aud") as E.
    { unfold claims. rewrite access_claims_lookup by (left; unfold PROTECTED_CLAIMS; set_solver). by rewrite mapped_access_audiences. }
    cbn zeta. split; [exact E|]. intros a Ha.
    apply (access_claims_aud print_value parse_f64 user_json render sha256 b64 uuid_bytes now jti dir req).
    change (a ∈ aud_list (claims !! "aud"%string)). rewrite E.
    change (a ∈ aud_list (Some (match access_aud req (mapper_audiences (tc_mappers (at_client req))) with [a] => VString a
      | _ => json_strings (access_aud req (mapper_audiences (tc_mappers (at_client req)))) end))). by rewrite aud_list_value.
Qed.

(** C13: a JWT access token verifies until its expiry plus the leeway, and gives
    back the claims it was issued with, through every rotation, retirement and
    clean-up of the tenant's keys during the overlap of the key policy, as long
    as its key is not revoked and its [jti] is not denied. *)
Theorem jwt_survives_rotation `{ValkeyLaws} `{UuidDisplay} `{KeyEncryptorLaws} `{JwtsLaws}
    `{!Serde SsoSession} `{!Serde Map} `{!Serde string}
    print_value parse_f64 user_json render sha256 b64 uuid_bytes rsa_ok now d dir req st tok st' :
  good_keys rsa_ok (tk_keys st) -> good_draw rsa_ok (td_key d) -> tc_access_token_format (at_client req) = Jwt ->
  issue_access_token print_value parse_f64 user_json render sha256 b64 uuid_bytes rsa_ok now d dir req st
  = (Ok tok, st') ->
  exists r, r ∈ ks_rows (tk_keys st') /\ sk_kid r = tok_kid tok
    /\ forall ovh ops now' app opts,
         spares now ovh r ops ->
         now <= now' -> 0 <= vo_leeway_secs opts ->
         unix_seconds now' - vo_leeway_secs opts <= unix_seconds (tok_expires_at tok) ->
         audience_met opts (tok_claims tok) ->
         let st2 := mkTokenState app (run_keys (fun s => sha256 (ascii_bytes s)) b64 (tk_keys st') ops) in
         denied_claims now' (at_tenant req) st2 opts (tok_claims tok) = false ->
         verify_access sha256 b64 now' dir (at_tenant req) st2 (tok_token tok) opts = Ok (tok_claims tok).
Proof.
  intros Hks Hd Hfmt Hi.
  destruct (issue_jwt_run _ _ _ _ _ _ _ _ _ _ _ _ _ _ _ Hks Hd Hfmt Hi)
    as (r & ek & dk & Hks' & Hr & Ht & Hs & Hkid & Hj & Hp & He & Hc & Hx & _).
  exists r. split; [done|]. split; [done|]. intros ovh ops now' app opts Hops Hnow Hl Hexp Haud st2 Hden.
  pose proof (run_keys_ok (fun s => sha256 (ascii_bytes s)) b64 _ ops (gk_rows _ _ Hks')) as Hok2.
  destruct (published_elem _ _ _ (run_keys_serves (fun s => sha256 (ascii_bytes s)) b64 _ _ _ _ _ (gk_rows _ _ Hks') Hr Hs Hops))
    as (r' & Hr' & [_ _ Hk' Ha' Hj' _]).
  rewrite Ht in Hr'. rewrite <- Hk', <- Ha' in He. rewrite <- Hj' in Hj.
  eapply (verify_jwt sha256 b64); [exact Hok2|exact Hr'|exact Hj|exact Hp|exact He| |exact Hden].
  rewrite Hc in *. rewrite Hx in Hexp. by apply access_claims_validate.
Qed.

(** from the moment a [jti] is denied until the whole seconds its token had
    left are over, no token that carries it verifies, in either form and with
    whatever options that check the denylist. *)
Theorem denied_refused `{ValkeyLaws} `{UuidDisplay} `{KeyEncryptor} `{Jwts} `{!Serde Map} `{!Serde string}
    sha256 b64 one_mark now jti expires_at now' dir t st tok opts c :
  now <= now' -> now' < now + num_seconds (expires_at - now) * 1000 -> vo_check_denylist opts = true ->
  verify_access sha256 b64 now' dir t
    (tk_with_redis st (deny one_mark now (tn_id t) jti expires_at (tk_redis st))) tok opts = Ok c ->
  str_claim c "jti" <> Some jti.
Proof.
  intros Hn Hx Hc Hv Hj. apply verify_access_fresh in Hv. unfold denied_claims in Hv. rewrite Hc, Hj in Hv. cbn in Hv.
  unfold tk_redis in Hv. cbn in Hv. by rewrite deny_denies in Hv.
Qed.

(** a JWT that was revoked is accepted again once its lifetime is over: the
    denylist entry lives for the seconds the token had left, while verification
    still allows the leeway (30 seconds by default) after expiry. *)
Theorem denied_jwt_accepted_again `{ValkeyLaws} `{UuidDisplay} `{KeyEncryptorLaws} `{JwtsLaws}
    `{!Serde SsoSession} `{!Serde Map} `{!Serde string}
    print_value parse_f64 user_json render sha256 b64 uuid_bytes rsa_ok one_mark now d dir req st tok st' jti now1 now2 :
  good_keys rsa_ok (tk_keys st) -> good_draw rsa_ok (td_key d) -> tc_access_token_format (at_client req) = Jwt ->
  issue_access_token print_value parse_f64 user_json render sha256 b64 uuid_bytes rsa_ok now d dir req st
  = (Ok tok, st') ->
  str_claim (tok_claims tok) "jti" = Some jti ->
  now <= now1 <= tok_expires_at tok -> tok_expires_at tok <= now2 ->
  unix_seconds now2 - vo_leeway_secs default_options <= unix_seconds (tok_expires_at tok) ->
  vget now2 (jti_denied (tn_id (at_tenant req)) jti) (tk_redis st') = None ->
  verify_access sha256 b64 now2 dir (at_tenant req)
    (tk_with_redis st' (deny one_mark now1 (tn_id (at_tenant req)) jti (tok_expires_at tok) (tk_redis st')))
    (tok_token tok) default_options = Ok (tok_claims tok).
Proof.
  intros Hks Hd Hfmt Hi Hjti Hn1 Hn2 Hl Hdb.
  destruct (issue_jwt_run _ _ _ _ _ _ _ _ _ _ _ _ _ _ _ Hks Hd Hfmt Hi)
    as (r & ek & dk & Hks' & Hr & Ht & Hs & Hkid & Hj & Hp & He & Hc & Hx & _).
  eapply (verify_jwt sha256 b64); [exact (gk_rows _ _ Hks')| |exact Hj|exact Hp|exact He| |].
  - unfold KeyRepo.list_published. cbn [tk_keys tk_with_redis]. rewrite merge_sort_Permutation, list_elem_of_filter. by rewrite Hs.
  - rewrite Hc, Hx in *. apply access_claims_validate; [lia|done|done|done].
  - unfold denied_claims. rewrite Hjti. cbn. unfold tk_redis. cbn. apply deny_lapses; [lia|done|done].
Qed.

(** C32: an opaque access token stands for the claims it was issued with until
    it expires, and verifies as nothing once it is revoked. *)
Theorem opaque_round_trip `{ValkeyLaws} `{UuidDisplay} `{KeyEncryptor} `{Jwts}
    `{!Serde SsoSession} `{!Serde Map} `{!Serde string}
    print_value parse_f64 user_json render sha256 b64 uuid_bytes rsa_ok now d dir req st tok st' now' opts :
  tc_access_token_format (at_client req) = Opaque -> (String.length (b64 (td_bytes d)) <= 125)%nat ->
  issue_access_token print_value parse_f64 user_json render sha256 b64 uuid_bytes rsa_ok now d dir req st
  = (Ok tok, st') ->
  now <= now' < tok_expires_at tok -> 0 < vo_leeway_secs opts -> audience_met opts (tok_claims tok) ->
  (denied_claims now' (at_tenant req) st' opts (tok_claims tok) = false ->
   verify_access sha256 b64 now' dir (at_tenant req) st' (tok_token tok) opts = Ok (tok_claims tok))
  /\ forall at_, verify_access sha256 b64 now' dir (at_tenant req)
                  (opaque_revoke sha256 b64 at_ (tok_token tok) st').2 (tok_token tok) opts = Err TkUnauthorized.
Proof.
  intros Hfmt Hlen Hi Hnow Hl Haud. unfold issue_access_token in Hi.
  rewrite bool_decide_eq_true_2 in Hi by done. apply bind_ok in Hi as (token & st1 & Hiss & Hret).
  unfold ret in Hret. injection Hret as <- <-. cbn [tok_token tok_claims tok_expires_at] in *.
  set (claims := access_claims _ _ _ _ _ _ _ _ _ _ _) in *.
  assert (forall n, n ∈ PROTECTED_CLAIMS -> claims !! n = owned_access sha256 b64 uuid_bytes now (td_jti d) dir req
            (mapped_access print_value parse_f64 user_json render dir req).2 n) as Hown
    by (intros n Hn; apply access_claims_lookup; by left).
  assert (tenant_of claims = Some (tn_id (at_tenant req))) as Ht.
  { unfold tenant_of, uuid_claim, str_claim. rewrite Hown by (unfold PROTECTED_CLAIMS; set_solver). cbn. apply parse_uuid_str. }
  pose proof (opaque_lookup_issued _ _ _ _ _ _ _ _ _ _ now' Hiss Ht Hlen Hnow) as Hlook.
  assert (looks_like token = true) as Hlt.
  { unfold opaque_lookup in Hlook. by destruct (looks_like token). }
  split.
  - intros Hden. unfold verify_access. rewrite Hlt, Hlook. cbn [negb ok_or]. rewrite Z.eqb_refl. cbn [negb].
    eapply check_opaque_ok; [|..|done|done].
    + rewrite Hown by (unfold PROTECTED_CLAIMS; set_solver). cbn. reflexivity.
    + assert (unix_seconds now' <= unix_seconds (access_exp now req)) by (apply Z.div_le_mono; lia). lia.
  - intros at_. unfold verify_access. rewrite Hlt, opaque_lookup_revoked. done.
Qed.

(** C29: a JWT that verifies carries this tenant's issuer, was decoded with a key
    the tenant publishes for the algorithm its header names, has the access
    token type, is not past its expiry by more than the leeway, and its [jti]
    is not on the denylist at that moment. *)
Theorem verify_access_sound `{Valkey} `{UuidDisplay} `{KeyEncryptor} `{JwtsLaws} `{!Serde Map} `{!Serde string}
    sha256 b64 now dir t st tok opts c :
  looks_like tok = false -> vo_allow_expired opts = false -> vo_check_denylist opts = true ->
  verify_access sha256 b64 now dir t st tok opts = Ok c ->
  exists h r dk,
    decode_header tok = Some h /\ h_typ h = Some "at+jwt"%string
    /\ r ∈ KeyRepo.list_published (tn_id t) (ks_rows (tk_keys st))
    /\ get_key (sk_public_jwk r) "kid" ≫= as_str = h_kid h /\ from_jwk (sk_public_jwk r) = Some dk
    /\ (exists alg, get_key (sk_public_jwk r) "alg" ≫= (fun v => as_str v ≫= parse_alg) = Some alg /\ jwt_alg alg = h_alg h)
    /\ jwt_decode (unix_seconds now) tok dk (validation_of dir t (h_alg h) (with_typ opts "at+jwt")) = Some c
    /\ str_claim c "iss" = Some (issuer dir t)
    /\ (exists e, c !! "exp"%string ≫= as_int = Some e /\ unix_seconds now - vo_leeway_secs opts <= e)
    /\ forall jti, str_claim c "jti" = Some jti -> is_denied now (tn_id t) jti (tk_redis st) = false.
Proof.
  intros Hl Hexp Hcheck Hv. pose proof Hv as Hfresh. apply verify_access_fresh in Hfresh.
  unfold verify_access in Hv. rewrite Hl in Hv. cbn [negb] in Hv. unfold verify in Hv.
  destruct (decode_header tok) as [h|]; cbn [ok_or] in Hv; [|done].
  destruct (h_kid h) as [kid|] eqn:Ekid; cbn [ok_or] in Hv; [|done].
  cbn [vo_typ with_typ] in Hv. case_bool_decide as Ht; cbn [negb] in Hv; [|done].
  destruct (verification_keys (tn_id t) st !! kid) as [[alg dk]|] eqn:Ek; cbn [ok_or] in Hv; [|done].
  case_bool_decide as Ha; cbn [negb] in Hv; [|done].
  destruct (jwt_decode _ tok dk _) as [c'|] eqn:Ed; cbn [ok_or] in Hv; [|done].
  assert (c' = c) as -> by (by destruct (denied_claims _ _ _ _ _); simplify_eq).
  apply verification_keys_elem in Ek as (r & Hr & Hrk & Hra & Hrj).
  pose proof (jwt_decode_validates _ _ _ _ _ Ed) as Hval. unfold validates in Hval. bool_hyps.
  exists h, r, dk. rewrite Ekid. split_and!; try done; [by exists alg|..].
  - unfold str_claim. cbn in *. destruct (c !! "iss"%string ≫= as_str); [|done].
    match goal with Hi : bool_decide (_ ∈ [_]) = true |- _ => apply bool_decide_eq_true, list_elem_of_singleton in Hi as -> end.
    done.
  - cbn in *. rewrite Hexp in *. cbn in *. destruct (c !! "exp"%string ≫= as_int) as [e|]; [|done]. exists e. bool_hyps.
    split; [done|lia].
  - intros jti Hj. unfold denied_claims in Hfresh. rewrite Hcheck, Hj in Hfresh. done.
Qed.

(** ** A small deployment *)

(** A JWT library that knows a table of tokens: the [i]-th is the text
    [eyJ] and [i] letters. *)
#[export] Instance header_dec : EqDecision Header.
Proof. solve_decision. Defined.

Section table.
Context (tbl : list (Header * Map * list Z)).

Definition tok_text (i : nat) : string := ("eyJ" ++ String.string_of_list_ascii (replicate i (Ascii.ascii_of_nat 97)))%string.
Definition tok_index (s : string) : nat := String.length s - 3.

Lemma string_length_replicate i c : String.length (String.string_of_list_ascii (replicate i c)) = i.
Proof. induction i as [|i IH]; [done|]. cbn. by rewrite IH. Qed.

Lemma tok_index_text i : tok_index (tok_text i) = i.
Proof.
  unfold tok_index, tok_text. generalize (Ascii.ascii_of_nat 97). intros c.
  set (x := String.string_of_list_ascii _). change (String.length ("eyJ" ++ x)) with (3 + String.length x)%nat.
  unfold x. rewrite string_length_replicate. lia.
Qed.

Definition table_entry (s : string) : option (Header * Map * list Z) :=
  if String.eqb s (tok_text (tok_index s)) then tbl !! tok_index s else None.

Definition table_jwts : Jwts :=
  {| enc_key := list Z; dec_key := list Z;
     from_rsa_der := fun der => der; from_ec_der := fun der => der; from_ed_der := fun der => der;
     from_jwk := fun jwk => ascii_bytes <$> (get_key jwk "x" ≫= as_str);
     jwt_encode := fun h c k => (fun p => tok_text p.1) <$> list_find (eq (h, c, k)) tbl;
     decode_header := fun s => (fun e => e.1.1) <$> table_entry s;
     jwt_decode := fun now s d v =>
       match table_entry s with
       | Some (h, c, k) => if bool_decide (k = d /\ h_alg h = v_alg v) && validates now v c then Some c else None
       | None => None
       end |}.

Lemma table_encode h c k tok : @jwt_encode table_jwts h c k = Some tok -> table_entry tok = Some (h, c, k).
Proof.
  intros ([i e] & E & ->)%fmap_Some.
  apply list_find_Some in E as (Hi & <- & _). unfold table_entry. rewrite tok_index_text, String.eqb_refl. done.
Qed.

Definition table_laws : @JwtsLaws table_jwts.
Proof.
  refine (@Build_JwtsLaws table_jwts (fun k d => k = d) _ _ _ _).
  - by intros h c k tok ([i e] & _ & ->)%fmap_Some.
  - intros h c k tok He%table_encode. cbn. by rewrite He.
  - intros h c k d tok now v He%table_encode -> Ha. cbn. rewrite He.
    by rewrite bool_decide_eq_true_2 by done.
  - intros now tok d v c. cbn. destruct (table_entry tok) as [[[h c'] k]|]; [|done].
    destruct (bool_decide _); cbn; [|done]. destruct (validates now v c') eqn:E; [|done]. by intros [= <-].
Defined.
End table.

(** What Valkey keeps: claims, text, sessions, and the mark of a denied token. *)
Inductive TxRaw := TxMap (m : Map) | TxText (s : string) | TxSession (s : SsoSession) | TxOne.
Definition tx_valkey : Valkey := map_valkey (R := TxRaw).
Definition tx_serde_map : @Serde tx_valkey Map :=
  {| to_json m := TxMap m : @raw tx_valkey;
     from_json r := match r with TxMap m => Some m | _ => None end;
     from_to_json _ := eq_refl |}.
Definition tx_serde_text : @Serde tx_valkey string :=
  {| to_json s := TxText s : @raw tx_valkey;
     from_json r := match r with TxText s => Some s | _ => None end;
     from_to_json _ := eq_refl |}.
Definition tx_serde_session : @Serde tx_valkey SsoSession :=
  {| to_json s := TxSession s : @raw tx_valkey;
     from_json r := match r with TxSession s => Some s | _ => None end;
     from_to_json _ := eq_refl |}.

Local Existing Instances toy_aead toy_aead_laws toy_kms toy_kms_laws.
Definition tx_encryptor : KeyEncryptor := @envelope_encryptor toy_aead toy_kms false ∅.
Definition tx_encryptor_laws : @KeyEncryptorLaws tx_encryptor :=
  @envelope_encryptor_laws toy_aead toy_aead_laws toy_kms toy_kms_laws false ∅ (proj1 (cluster_ok_empty false)).
Definition tx_node : Node := from_config false (Some (replicate 32 5)) 1 [] false.
Lemma tx_node_ok : @ke_ok tx_encryptor tx_encryptor_laws tx_node.
Proof. split; [|done]. apply from_config_ok, ex_config_ok. Qed.

(** Tenant 1, its user 5 and a client that takes EdDSA tokens. *)
Definition tx_tenant : Tenant := mkTenant 1 "acme" "Acme" 300 3600 300 (mkKeyPolicy EdDSA 90 24) None [] [7].
Definition tx_user : User :=
  mkUser 5 None "alice" (Some "alice@acme.example"%string) true None false UActive
    (VObject [("department"%string, VString "eng")]) None 0 0.
Definition tx_dir : Directory :=
  mkDirectory (fun slug => ("https://id.example/t/" ++ slug)%string) (fun _ => mkProfileSchema [] false) (fun _ => []) (fun _ _ => None)
    (fun _ _ => []) (fun _ _ => Some tx_user) (fun _ _ _ => []) (fun _ _ => []) (fun _ _ => None) (fun _ _ => None)
    (fun _ _ _ => []).
(** A mapper that tries to name another actor, and one that is allowed. *)
Definition tx_mappers : list ClaimMapper :=
  [mkClaimMapper "bad" (MHardcoded "act" (VString "root")) [Access];
   mkClaimMapper "tier" (MHardcoded "tier" (VString "gold")) [Access]].
Definition tx_client (f : AccessTokenFormat) : TokenClient :=
  mkTokenClient "app" Public None 300 300 tx_mappers false f None None [] None.
Definition tx_req (f : AccessTokenFormat) : AccessTokenRequest :=
  mkAccessTokenRequest tx_tenant (tx_client f) (Some tx_user) ["openid"%string] ["api"%string] [] [] (Some 9) (Some 0)
    ["pwd"%string] None None None None None.
Definition tx_print (v : Value) : string := "".
Definition tx_claims (f : AccessTokenFormat) : Map :=
  @access_claims toy_uuid tx_print (fun _ => None) (fun _ => VNull) (fun _ _ => None) (fun l => l) sx_b64 (fun u => [u]) 0 77
    tx_dir (tx_req f).
Definition tx_keygen (x : string) (alg : SigningAlg) : option KeyMaterial :=
  match alg with EdDSA => Some (mkKeyMaterial (POkp x) (ascii_bytes x)) | _ => None end.
Definition tx_draw : TokenDraw := mkTokenDraw 77 (replicate 32 65) (mkKeyDraw (tx_keygen "A") 10 (ex_rnd 3)).
Definition tx_kid : string := sx_b64 (ascii_bytes "{" ++ ascii_bytes (String.concat "," ((fun p => quoted p.1 ++ ":" ++ quoted p.2)%string <$>
  [("crv", "Ed25519"); ("kty", "OKP"); ("x", "A")]%string)) ++ ascii_bytes "}").
Definition tx_jwts : Jwts := table_jwts [(mkHeader AEdDSA (Some tx_kid) (Some "at+jwt"%string), tx_claims Jwt, [65])].
Definition tx_jwts_laws : @JwtsLaws tx_jwts := table_laws _.
Definition tx_state : @TokenState tx_valkey tx_encryptor :=
  @mkTokenState tx_valkey tx_encryptor (mkAppState tx_valkey (∅ : gmap string _) [] [] ∅ []) (@mkKeyStore tx_encryptor [] tx_node []).
Definition tx_issue (f : AccessTokenFormat) :=
  @issue_access_token tx_valkey toy_uuid tx_encryptor tx_jwts tx_serde_map tx_serde_text tx_print
    (fun _ => None) (fun _ => VNull) (fun _ _ => None) (fun l => l) sx_b64 (fun u => [u]) (fun _ => true) 0 tx_draw tx_dir (tx_req f) tx_state.

Example tx_issue_token :
  result_map tok_token (tx_issue Jwt).1 = Ok "eyJ"%string
  /\ result_map tok_token (tx_issue Opaque).1 = Ok ("at_" ++ sx_b64 (replicate 32 65))%string.
Proof. vm_compute. done. Qed.

Lemma tx_good_draw : @good_draw tx_jwts tx_jwts_laws (fun _ => true) (td_key tx_draw).
Proof.
  split; [apply ex_rnd_ok|]. intros alg km. destruct alg; cbn; try done. intros [= <-]. exists [65], [65].
  split; [reflexivity|]. split; [reflexivity|]. intros rest. reflexivity.
Qed.

Lemma tx_good_keys : @good_keys toy_uuid tx_encryptor tx_encryptor_laws tx_jwts tx_jwts_laws (fun _ => true) (tk_keys tx_state).
Proof. split; [exact tx_node_ok|apply keys_ok_nil|]. intros key Hk. by apply not_elem_of_nil in Hk. Qed.

Lemma access_token_owned_witness : tx_claims Jwt !! "act"%string = None.
Proof.
  refine (proj1 (@access_token_owned toy_uuid tx_print (fun _ => None) (fun _ => VNull) (fun _ _ => None) (fun l => l) sx_b64
            (fun u => [u]) 0 77 tx_dir (tx_req Jwt) "act" _) _).
  - left. decide_now.
  - discriminate.
Defined.

(** A rotation at the end of the first second. *)
Definition tx_rotation : list (Z * @KeyOp tx_encryptor) :=
  [(1000, @ORotate tx_encryptor (mkKeyDraw (tx_keygen "B") 11 (ex_rnd 4)) (tn_keys tx_tenant) 1 EdDSA)].
Definition tx_verify (now : Z) (st : @TokenState tx_valkey tx_encryptor) (token : string) :=
  @verify_access tx_valkey toy_uuid tx_encryptor tx_jwts tx_serde_map tx_serde_text (fun l => l) sx_b64 now tx_dir tx_tenant
    st token default_options.

Lemma jwt_survives_rotation_witness :
  exists tok st', tx_issue Jwt = (Ok tok, st')
    /\ tx_verify 299000
         (@mkTokenState tx_valkey tx_encryptor (mkAppState tx_valkey (∅ : gmap string _) [] [] ∅ [])
            (@run_keys toy_uuid tx_encryptor ascii_bytes sx_b64 (tk_keys st') tx_rotation)) (tok_token tok)
       = Ok (tok_claims tok).
Proof.
  destruct (tx_issue Jwt) as [[tok|] st'] eqn:E;
    [|exfalso; apply (f_equal (fun p => is_ok p.1)) in E; vm_compute in E; discriminate E].
  exists tok, st'. split; [done|].
  assert (result_map tok_expires_at (tx_issue Jwt).1 = Ok 300000) as Hx by (vm_compute; reflexivity).
  rewrite E in Hx. cbn in Hx. injection Hx as Hx.
  destruct (@jwt_survives_rotation tx_valkey map_valkey_laws toy_uuid tx_encryptor tx_encryptor_laws tx_jwts tx_jwts_laws
              tx_serde_session tx_serde_map tx_serde_text tx_print (fun _ => None) (fun _ => VNull) (fun _ _ => None)
              (fun l => l) sx_b64 (fun u => [u]) (fun _ => true) 0 tx_draw tx_dir (tx_req Jwt) tx_state tok st'
              tx_good_keys tx_good_draw eq_refl E) as (r & _ & _ & Hall).
  apply (Hall 24 tx_rotation 299000 _ default_options); [|lia|done|rewrite Hx; vm_compute; congruence|done|].
  - repeat constructor; vm_compute; congruence.
  - unfold denied_claims. by destruct (str_claim (tok_claims tok) "jti").
Defined.

(** The token is revoked after a minute; ten seconds after its expiry it is
    good again. *)
Lemma denied_jwt_accepted_again_witness :
  exists tok st', tx_issue Jwt = (Ok tok, st')
    /\ tx_verify 310000
         (tk_with_redis st' (@deny tx_valkey toy_uuid TxOne 60000 1 (@uuid_str toy_uuid 77) (tok_expires_at tok) (tk_redis st')))
         (tok_token tok)
       = Ok (tok_claims tok).
Proof.
  destruct (tx_issue Jwt) as [[tok|] st'] eqn:E;
    [|exfalso; apply (f_equal (fun p => is_ok p.1)) in E; vm_compute in E; discriminate E].
  exists tok, st'. split; [done|].
  assert (result_map (fun k => (tok_expires_at k, str_claim (tok_claims k) "jti")) (tx_issue Jwt).1
          = Ok (300000, Some (@uuid_str toy_uuid 77))) as Hx by (vm_compute; reflexivity).
  assert (match @vget tx_valkey 310000 (@jti_denied toy_uuid 1 (@uuid_str toy_uuid 77)) (tk_redis (tx_issue Jwt).2) with
          | None => true | Some _ => false end = true) as Hv by (vm_compute; reflexivity).
  rewrite E in Hx, Hv. cbn in Hx. injection Hx as Hx Hj.
  apply (@denied_jwt_accepted_again tx_valkey map_valkey_laws toy_uuid tx_encryptor tx_encryptor_laws tx_jwts tx_jwts_laws
           tx_serde_session tx_serde_map tx_serde_text tx_print (fun _ => None) (fun _ => VNull) (fun _ _ => None)
           (fun l => l) sx_b64 (fun u => [u]) (fun _ => true) TxOne 0 tx_draw tx_dir (tx_req Jwt) tx_state tok st'
           (@uuid_str toy_uuid 77) 60000 310000 tx_good_keys tx_good_draw eq_refl E Hj);
    [rewrite Hx; lia|rewrite Hx; lia|rewrite Hx; vm_compute; congruence|].
  cbn [snd] in Hv. by destruct (vget 310000 _ (tk_redis st')).
Defined.

Definition tx_after (f : AccessTokenFormat) : @TokenState tx_valkey tx_encryptor := (tx_issue f).2.

(** With another token revoked, this one is still good, and is not that one. *)
Lemma denied_refused_witness :
  exists c, tx_verify 5000
      (tk_with_redis (tx_after Opaque)
         (@deny tx_valkey toy_uuid TxOne 4000 1 (@uuid_str toy_uuid 78) 300000 (tk_redis (tx_after Opaque))))
      ("at_" ++ sx_b64 (replicate 32 65)) = Ok c
    /\ str_claim c "jti" <> Some (@uuid_str toy_uuid 78).
Proof.
  destruct (tx_verify 5000 _ ("at_" ++ sx_b64 (replicate 32 65))) as [c|] eqn:E;
    [|exfalso; apply (f_equal is_ok) in E; vm_compute in E; discriminate E].
  exists c. split; [done|].
  exact (@denied_refused tx_valkey map_valkey_laws toy_uuid tx_encryptor tx_jwts tx_serde_map tx_serde_text (fun l => l) sx_b64
           TxOne 4000 (@uuid_str toy_uuid 78) 300000 5000 tx_dir tx_tenant (tx_after Opaque) _ default_options c
           ltac:(lia) ltac:(vm_compute; reflexivity) eq_refl E).
Defined.

Lemma opaque_round_trip_witness :
  exists tok st', tx_issue Opaque = (Ok tok, st') /\ tx_verify 299000 st' (tok_token tok) = Ok (tok_claims tok).
Proof.
  destruct (tx_issue Opaque) as [[tok|] st'] eqn:E;
    [|exfalso; apply (f_equal (fun p => is_ok p.1)) in E; vm_compute in E; discriminate E].
  exists tok, st'. split; [done|].
  assert (result_map tok_expires_at (tx_issue Opaque).1 = Ok 300000) as Hx by (vm_compute; reflexivity).
  assert (match (tx_issue Opaque).1 with
          | Ok k => @denied_claims tx_valkey toy_uuid tx_encryptor 299000 tx_tenant (tx_issue Opaque).2 default_options (tok_claims k) | Err _ => true end = false)
    as Hd by (vm_compute; reflexivity).
  rewrite E in Hx, Hd. cbn in Hx. injection Hx as Hx.
  refine (proj1 (@opaque_round_trip tx_valkey map_valkey_laws toy_uuid tx_encryptor tx_jwts tx_serde_session tx_serde_map
           tx_serde_text tx_print (fun _ => None) (fun _ => VNull) (fun _ _ => None)
           (fun l => l) sx_b64 (fun u => [u]) (fun _ => true) 0 tx_draw tx_dir (tx_req Opaque) tx_state tok st' 299000
           default_options eq_refl _ E _ _ I) Hd); [|rewrite Hx; lia|reflexivity].
  apply (bool_decide_unpack _). vm_compute. exact I.
Defined.

Lemma verify_access_sound_witness :
  exists c h, tx_verify 1000 (tx_after Jwt) "eyJ" = Ok c
    /\ @decode_header tx_jwts "eyJ" = Some h /\ str_claim c "iss" = Some "https://id.example/t/acme"%string.
Proof.
  destruct (tx_verify 1000 (tx_after Jwt) "eyJ") as [c|] eqn:E;
    [|exfalso; apply (f_equal is_ok) in E; vm_compute in E; discriminate E].
  destruct (@verify_access_sound tx_valkey toy_uuid tx_encryptor tx_jwts tx_jwts_laws tx_serde_map tx_serde_text (fun l => l) sx_b64
              1000 tx_dir tx_tenant (tx_after Jwt) "eyJ" default_options c eq_refl eq_refl eq_refl E)
    as (h & r & dk & Hh & _ & _ & _ & _ & _ & _ & Hi & _).
  by exists c, h.
Defined.
