(* ===== verification/Scopes.v ===== *)
(** * Scopes and PKCE

    Models the functions of [api/src/services/scopes.rs] that token requests
    go through (the administration of scope rows is left out) and
    [api/src/oidc/pkce.rs]. *)

From stdpp Require Import gmap strings.
From S2P Require Import Prelude Valkey Utf8 AppState RefreshTokens Models AccessTokens.

(** ** Text *)

(** [str::split] at the byte [sep]. *)
Fixpoint split_bytes (sep : Z) (l : list Z) : list (list Z) :=
  match l with
  | [] => [[]]
  | b :: l =>
      let rest := split_bytes sep l in
      if b =? sep then [] :: rest
      else match rest with p :: ps => (b :: p) :: ps | [] => [[b]] end
  end.
Definition split_str (sep : Z) (s : string) : list string := str_of_bytes <$> split_bytes sep (ascii_bytes s).

(** [if !out.contains(x) { out.push(x) }]. *)
Definition push_new (out : list string) (x : string) : list string :=
  if bool_decide (x ∈ out) then out else out ++ [x].

(** ** Scopes *)

Definition scope_byte (b : Z) : bool := (0x21 <=? b) && (b <=? 0x7e) && negb (b =? 34) && negb (b =? 92).
Definition is_valid_scope_name (name : string) : bool :=
  negb (bool_decide (name = ""%string)) && (Z.of_nat (String.length name) <=? 128) && forallb scope_byte (ascii_bytes name).

Definition parse_scope_param (raw_ : string) : list string :=
  foldl push_new [] (filter (fun s => s <> ""%string) (trim_str <$> split_str 32 raw_)).

(** [resolve]: the known scopes' rows, and the unknown names. *)
Definition resolve (all : list Scope) (requested : list string) : list Scope * list string :=
  foldl (fun acc r =>
    match List.find (fun s => String.eqb (sc_name s) r) all with
    | Some s => (acc.1 ++ [s], acc.2)
    | None => (acc.1, acc.2 ++ [r])
    end) ([], []) requested.

(** May the scope be in a token for these audiences? *)
Definition scope_fits (defs : list Scope) (resource_server_ids : list Uuid) (name : string) : bool :=
  match List.find (fun d => String.eqb (sc_name d) name) defs ≫= sc_resource_server_id with
  | Some rs => bool_decide (rs ∈ resource_server_ids)
  | None => true
  end.
Definition filter_for_audience (requested : list string) (defs : list Scope) (resource_server_ids : list Uuid)
    (offline_allowed : bool) : list string :=
  filter (fun name => Is_true (scope_fits defs resource_server_ids name))
    (filter (fun name => Is_true (offline_allowed || negb (String.eqb name "offline_access"))) requested).
Definition granted_for_audience (dir : Directory) (tenant_id : Uuid) (requested : list string)
    (resource_server_ids : list Uuid) (offline_allowed : bool) : list string :=
  filter_for_audience requested (d_scopes dir tenant_id) resource_server_ids offline_allowed.

Definition defaults_for (defs : list Scope) (allowed excluded : list string) : list string :=
  sc_name <$> filter (fun d => sc_is_default d = true /\ sc_name d ∈ allowed /\ sc_name d ∉ excluded) defs.
Definition requested_or_default (dir : Directory) (tenant_id : Uuid) (requested allowed excluded : list string)
    : list string :=
  if bool_decide (requested <> []) then requested else defaults_for (d_scopes dir tenant_id) allowed excluded.

Record RequestedScopes := mkRequestedScopes { rq_scopes : list string; rq_bound_audiences : list string }.

(** The loop of [validate_request] over the known scopes. *)
Fixpoint bound_audiences (dir : Directory) (tenant_id : Uuid) (client : Client) (known : list Scope) (out : list string)
    : result OAuthError (list string) :=
  match known with
  | [] => Ok out
  | scope :: known =>
      match sc_resource_server_id scope with
      | None => bound_audiences dir tenant_id client known out
      | Some rs_id =>
          let? rs := ok_or (d_resource_server_by_id dir tenant_id rs_id)
                       (mkOAuthError InvalidRequest "resource server not found") in
          if negb (may_target client (rs_identifier rs) (rs_built_in rs)) then
            Err (mkOAuthError InvalidScope
                   ("scope `" ++ sc_name scope ++ "` belongs to resource `" ++ rs_identifier rs
                    ++ "`, which this client may not target"))
          else bound_audiences dir tenant_id client known (push_new out (rs_identifier rs))
      end
  end.

Definition validate_request (dir : Directory) (tenant_id : Uuid) (client : Client) (requested excluded : list string)
    (required : bool) : result OAuthError RequestedScopes :=
  let requested := requested_or_default dir tenant_id requested (cl_allowed_scopes client) excluded in
  if bool_decide (requested = []) && required then Err (mkOAuthError InvalidScope "scope is required")
  else
    let '(known, unknown) := resolve (d_scopes dir tenant_id) requested in
    if bool_decide (unknown <> []) then
      Err (mkOAuthError InvalidScope ("unknown scope(s): " ++ String.concat " " unknown))
    else
      let disallowed := filter (fun n => n ∉ cl_allowed_scopes client) (sc_name <$> known) in
      if bool_decide (disallowed <> []) then
        Err (mkOAuthError InvalidScope ("scope(s) not allowed for this client: " ++ String.concat " " disallowed))
      else
        let? bound := bound_audiences dir tenant_id client known [] in
        Ok (mkRequestedScopes requested bound).

Definition with_bound_audiences (explicit client_default bound : list string) : list string :=
  if bool_decide (bound = []) then explicit
  else foldl push_new (if bool_decide (explicit = []) then client_default else explicit) bound.

(** ** PKCE *)

Section pkce.
Context (sha256 : list Z -> list Z) (b64 : list Z -> string).

Definition unreserved (b : Z) : bool :=
  ((48 <=? b) && (b <=? 57)) || ((65 <=? b) && (b <=? 90)) || ((97 <=? b) && (b <=? 122))
  || (b =? 45) || (b =? 46) || (b =? 95) || (b =? 126).
Definition is_valid_challenge (challenge : string) : bool :=
  (43 <=? Z.of_nat (String.length challenge)) && (Z.of_nat (String.length challenge) <=? 128)
  && forallb unreserved (ascii_bytes challenge).
Definition is_valid_verifier (verifier : string) : bool := is_valid_challenge verifier.
Definition challenge_for (verifier : string) : string := b64 (sha256 (ascii_bytes verifier)).
Definition verify_s256 (verifier challenge : string) : bool :=
  if negb (is_valid_verifier verifier) then false else String.eqb (challenge_for verifier) challenge.
End pkce.

(** ** Lemmas *)

Lemma split_bytes_app sep x y : sep ∉ x -> split_bytes sep (x ++ sep :: y) = x :: split_bytes sep y.
Proof.
  induction x as [|b x IH]; intros Hx; cbn [split_bytes app].
  - by rewrite Z.eqb_refl.
  - apply not_elem_of_cons in Hx as [Hb Hx]. rewrite (IH Hx).
    by rewrite (proj2 (Z.eqb_neq b sep)) by congruence.
Qed.

Lemma split_bytes_plain sep x : sep ∉ x -> split_bytes sep x = [x].
Proof.
  induction x as [|b x IH]; intros Hx; [done|]. apply not_elem_of_cons in Hx as [Hb Hx]. cbn [split_bytes].
  rewrite (IH Hx). by rewrite (proj2 (Z.eqb_neq b sep)) by congruence.
Qed.

Lemma split_concat l :
  l <> [] -> Forall (fun s => 32 ∉ ascii_bytes s) l -> split_str 32 (String.concat " " l) = l.
Proof.
  intros Hne Hl. unfold split_str. induction Hl as [|s l Hs Hl IH]; [done|].
  destruct l as [|s' l].
  - change (String.concat " " [s]) with s. rewrite split_bytes_plain by done.
    change (str_of_bytes <$> [ascii_bytes s]) with [str_of_bytes (ascii_bytes s)]. by rewrite str_of_ascii_bytes.
  - change (String.concat " " (s :: s' :: l)) with (s ++ " " ++ String.concat " " (s' :: l))%string.
    rewrite !ascii_bytes_append. change (ascii_bytes " ") with [32]. cbn [app].
    rewrite split_bytes_app by done. rewrite fmap_cons, str_of_ascii_bytes. by rewrite IH.
Qed.

(** The bytes of a scope name: no blanks, all ASCII. *)
Lemma scope_name_bytes n :
  is_valid_scope_name n = true -> n <> ""%string /\ Forall (fun b => 0x21 <= b <= 0x7e) (ascii_bytes n).
Proof.
  unfold is_valid_scope_name. intros Hv. bool_hyps. split; [done|].
  match goal with Hf : forallb _ _ = true |- _ => apply forallb_Forall in Hf; eapply Forall_impl; [exact Hf|] end.
  intros b Hb. cbn in Hb. unfold scope_byte in Hb. bool_hyps. lia.
Qed.

Lemma trim_scope_name n : is_valid_scope_name n = true -> trim_str n = n.
Proof.
  intros [_ Hb]%scope_name_bytes. unfold trim_str.
  destruct (utf8_ascii_id (ascii_bytes n)) as [He ->]. { eapply Forall_impl; [exact Hb|]. cbn. lia. }
  rewrite trim_plain, He; [apply str_of_ascii_bytes|]. eapply Forall_impl; [exact Hb|]. intros b Hr. cbn in Hr.
  unfold is_whitespace, within. repeat match goal with |- context [?x <=? ?y] => destruct (Z.leb_spec x y) end;
    repeat match goal with |- context [?x =? ?y] => destruct (Z.eqb_spec x y) end; try lia; try done.
Qed.

Lemma foldl_push_new l out : NoDup (out ++ l) -> foldl push_new out l = out ++ l.
Proof.
  revert out. induction l as [|x l IH]; intros out Hn; [by rewrite app_nil_r|]. cbn [foldl].
  unfold push_new at 2. rewrite bool_decide_eq_false_2.
  - rewrite IH by by rewrite <- app_assoc. by rewrite <- app_assoc.
  - intros Hx. apply NoDup_app in Hn as (_ & Hn & _). apply (Hn x Hx). apply list_elem_of_here.
Qed.

Lemma filter_for_audience_elem requested defs ids offline n :
  n ∈ filter_for_audience requested defs ids offline
  <-> n ∈ requested /\ scope_fits defs ids n = true /\ (n = "offline_access"%string -> offline = true).
Proof.
  unfold filter_for_audience. rewrite !list_elem_of_filter, !Is_true_true, orb_true_iff, negb_true_iff, String.eqb_neq.
  destruct offline; split; intuition congruence.
Qed.

Lemma resolve_from all requested acc :
  foldl (fun acc r =>
    match List.find (fun s => String.eqb (sc_name s) r) all with
    | Some s => (acc.1 ++ [s], acc.2)
    | None => (acc.1, acc.2 ++ [r])
    end) acc requested
  = (acc.1 ++ omap (fun r => List.find (fun s => String.eqb (sc_name s) r) all) requested,
     acc.2 ++ filter (fun r => List.find (fun s => String.eqb (sc_name s) r) all = None) requested).
Proof.
  revert acc. induction requested as [|r requested IH]; intros [known unknown]; [by rewrite !app_nil_r|].
  cbn [foldl]. rewrite IH, filter_cons. cbn [omap list_omap fst snd].
  destruct (List.find (fun s => String.eqb (sc_name s) r) all) as [s|] eqn:E; cbn [fst snd].
  - rewrite decide_False by done. by rewrite <- app_assoc.
  - rewrite decide_True by done. by rewrite <- app_assoc.
Qed.

Lemma bound_audiences_spec dir t client known out out' :
  bound_audiences dir t client known out = Ok out' ->
  (forall a, a ∈ out -> a ∈ out')
  /\ forall s rs_id, s ∈ known -> sc_resource_server_id s = Some rs_id ->
     exists rs, d_resource_server_by_id dir t rs_id = Some rs /\ rs_identifier rs ∈ out'
                /\ may_target client (rs_identifier rs) (rs_built_in rs) = true.
Proof.
  revert out. induction known as [|k known IH]; intros out Hb; cbn [bound_audiences] in Hb.
  - injection Hb as <-. split; [done|]. intros s rs Hs. by apply not_elem_of_nil in Hs.
  - destruct (sc_resource_server_id k) as [rs_id|] eqn:Ek.
    + destruct (d_resource_server_by_id dir t rs_id) as [rs|] eqn:Er; cbn [ok_or] in Hb; [|done].
      destruct (may_target client _ _) eqn:Em; cbn [negb] in Hb; [|done].
      destruct (IH _ Hb) as [Hout Hall].
      assert (forall a, a ∈ out \/ a = rs_identifier rs -> a ∈ out') as Hin.
      { intros a Ha. apply Hout. unfold push_new. case_bool_decide; destruct Ha as [Ha| ->]; try done;
          apply elem_of_app; [by left|right; apply list_elem_of_here]. }
      split; [intros a Ha; apply Hin; by left|].
      intros s rs_id' [->|Hs]%elem_of_cons Hr; [|by eapply Hall].
      rewrite Ek in Hr. injection Hr as <-. exists rs. split; [done|]. split; [apply Hin; by right|done].
    + destruct (IH _ Hb) as [Hout Hall]. split; [done|].
      intros s rs_id [->|Hs]%elem_of_cons Hr; [congruence|by eapply Hall].
Qed.

Lemma find_name (all : list Scope) r s :
  List.find (fun s => String.eqb (sc_name s) r) all = Some s -> s ∈ all /\ sc_name s = r.
Proof. intros [Hs E%String.eqb_eq]%List.find_some. split; [by apply list_elem_of_In|done]. Qed.

(** ** Theorems *)

(** the [scope] claim of a token spells its scopes: names of the grammar,
    joined by blanks, are parsed back in order. *)
Theorem scope_round_trip scopes :
  Forall (fun n => is_valid_scope_name n = true) scopes -> NoDup scopes ->
  parse_scope_param (String.concat " " scopes) = scopes.
Proof.
  intros Hv Hn. destruct (decide (scopes = [])) as [->|Hne]; [done|]. unfold parse_scope_param.
  rewrite split_concat; [|done|].
  2:{ eapply Forall_impl; [exact Hv|]. intros n [_ Hb]%scope_name_bytes Hin. rewrite Forall_forall in Hb.
      specialize (Hb 32 Hin). lia. }
  assert (trim_str <$> scopes = scopes) as ->.
  { clear Hn Hne. induction Hv as [|n l Hn _ IH]; [done|]. rewrite fmap_cons, IH. by rewrite trim_scope_name. }
  rewrite filter_all; [|eapply Forall_impl; [exact Hv|]; by intros n [? _]%scope_name_bytes].
  rewrite foldl_push_new by done. done.
Qed.

(** a grant request that passes holds only scopes the tenant defines and the
    client is allowed, and every resource server one of them is bound to is
    among its audiences and one the client may target. *)
Theorem validate_request_sound dir t client requested excluded required r :
  validate_request dir t client requested excluded required = Ok r ->
  (required = true -> rq_scopes r <> [])
  /\ forall n, n ∈ rq_scopes r ->
     exists s, s ∈ d_scopes dir t /\ sc_name s = n /\ n ∈ cl_allowed_scopes client
       /\ forall rs_id, sc_resource_server_id s = Some rs_id ->
          exists rs, d_resource_server_by_id dir t rs_id = Some rs /\ rs_identifier rs ∈ rq_bound_audiences r
                     /\ may_target client (rs_identifier rs) (rs_built_in rs) = true.
Proof.
  unfold validate_request. set (req := requested_or_default _ _ _ _ _).
  destruct (bool_decide (req = []) && required) eqn:E0; [done|].
  unfold resolve. rewrite resolve_from. cbn [fst snd app].
  set (known := omap _ req).
  set (unknown := filter (fun r => List.find _ _ = None) req).
  destruct (bool_decide (unknown <> [])) eqn:Hu; [done|].
  set (disallowed := filter _ (sc_name <$> known)).
  destruct (bool_decide (disallowed <> [])) eqn:Hd; [done|]. bool_hyps.
  destruct (bound_audiences dir t client known []) as [bound|] eqn:Eb; [|done]. intros [= <-].
  cbn [rq_scopes rq_bound_audiences]. apply dec_stable in Hu, Hd. split.
  - intros -> ->. by rewrite bool_decide_eq_true_2 in E0.
  - intros n Hn.
    destruct (List.find (fun s => String.eqb (sc_name s) n) (d_scopes dir t)) as [s|] eqn:Ef.
    2:{ assert (n ∈ ([] : list string)) as Hx by (rewrite <- Hu; unfold unknown; by apply list_elem_of_filter). by apply not_elem_of_nil in Hx. }
    destruct (find_name _ _ _ Ef) as [Hs Hname].
    assert (s ∈ known) as Hk by (apply list_elem_of_omap; eauto).
    exists s. split; [done|]. split; [done|]. split.
    + destruct (decide (n ∈ cl_allowed_scopes client)) as [|Hna]; [done|].
      assert (n ∈ ([] : list string)) as Hx.
      { rewrite <- Hd. unfold disallowed. apply list_elem_of_filter. split; [done|]. rewrite <- Hname. by apply list_elem_of_fmap_2. }
      by apply not_elem_of_nil in Hx.
    + intros rs_id Hr. destruct (bound_audiences_spec _ _ _ _ _ _ Eb) as [_ Hall]. by eapply Hall.
Qed.

Definition sp_dir : Directory :=
  mkDirectory (fun s => s) (fun _ => mkProfileSchema [] false)
    (fun _ => [mkScope 1 "openid" [] None true; mkScope 2 "orders:read" [] (Some 20) false]) (fun _ _ => None)
    (fun _ _ => []) (fun _ _ => None) (fun _ _ _ => []) (fun _ _ => []) (fun _ _ => None)
    (fun _ id => if id =? 20 then Some (mkResourceServer 20 "https://orders.example" None None true false) else None)
    (fun _ _ _ => []).
Definition sp_client : Client :=
  mkClient 3 "app" AuthNone [] [] ["openid"; "orders:read"]%string [] None None None Jwt Public None false false false
    NoProfile None.

Lemma scope_round_trip_witness :
  parse_scope_param (String.concat " " ["openid"; "orders:read"]%string) = ["openid"; "orders:read"]%string.
Proof. apply scope_round_trip; [|decide_now]. repeat constructor. Defined.

Lemma validate_request_sound_witness :
  exists r, validate_request sp_dir 1 sp_client ["openid"; "orders:read"]%string [] true = Ok r /\ rq_scopes r <> [].
Proof.
  destruct (validate_request sp_dir 1 sp_client ["openid"; "orders:read"]%string [] true) as [r|] eqn:E;
    [|exfalso; vm_compute in E; discriminate E].
  exists r. split; [done|]. exact (proj1 (validate_request_sound sp_dir 1 sp_client _ _ true r E) eq_refl).
Defined.
