(* ===== verification/TokenEndpoint.v ===== *)
(** * The token endpoint

    Models [api/src/oidc/token.rs], the composition of the token services:
    [POST /token] for the authorization code, refresh token, client
    credentials, device code, CIBA and token exchange grants. What client
    authentication, the DPoP check and [ciba::poll] answer are arguments of
    [handle]; metrics and log lines are left out. *)

From stdpp Require Import gmap strings.
From S2P Require Import Prelude Effects Utf8 Valkey AppState Sessions RefreshTokens AuthCodes DeviceCodes KeyCustody.
From S2P Require Import Models Claims SigningKeys AccessTokens Scopes.

(** ** Parameters of a request *)

(** [RawParams]. *)
Abbreviation RawParams := (list (string * string)).
Definition one (params : RawParams) (name : string) : result OAuthError (option string) :=
  match filter (fun p => p.1 = name) params with
  | [] => Ok None
  | [(_, v)] => Ok (let v := trim_str v in if String.eqb v "" then None else Some v)
  | _ => Err (mkOAuthError InvalidRequest ("parameter `" ++ name ++ "` must not be repeated"))
  end.
Definition many (params : RawParams) (name : string) : list string :=
  snd <$> filter (fun p => p.1 = name) params.

Record TokenResponse := mkTokenResponse {
  r_access_token : string;
  r_token_type : string;
  r_issued_token_type : option string;
  r_expires_in : Z;
  r_refresh_token : option string;
  r_id_token : option string;
  r_scope : option string
}.

Record Subject := mkSubject { su_user : User; su_roles : list Role; su_groups : list Group }.

Record Audience := mkAudience {
  au_audiences : list string;
  au_ttl_override : option Z;
  au_permissions : list string;
  au_resource_server_ids : list Uuid;
  au_offline_allowed : bool;
  au_signing_alg : option SigningAlg
}.

(** What one authorization code produced. *)
Record CodeGrant := mkCodeGrant {
  cg_family_id : option Uuid;
  cg_access_jti : option string;
  cg_access_expires_at : Z
}.

Record Issue := mkIssue {
  i_tenant : Tenant;
  i_client : Client;
  i_subject : option Subject;
  i_scopes : list string;
  i_audience : Audience;
  i_session_id : option Uuid;
  i_auth_time : option Z;
  i_amr : list string;
  i_acr : option string;
  i_org_id : option Uuid;
  i_nonce : option string;
  i_issue_refresh : bool;
  i_code_for_hash : option string;
  i_proof : SenderProof;
  i_act : option Value;
  i_not_after : option Z
}.

Definition oerr (c : OAuthErrorCode) (d : string) : OAuthError := mkOAuthError c d.

(** [From<AppError> for OAuthError], for the errors the services return. *)
Definition of_key_error (e : KeyError) : OAuthError :=
  match e with
  | KeyInternal => oerr ServerError ""
  | KeyBadRequest => oerr InvalidRequest ""
  | KeyNotFound => oerr InvalidRequest "signing key not found"
  | KeyConflict => oerr InvalidRequest "already exists"
  end.
Definition of_tok_error (e : TokError) : OAuthError :=
  match e with
  | TkUnauthorized => oerr InvalidToken ""
  | TkForbidden => oerr AccessDenied ""
  | TkInternal => oerr ServerError ""
  | TkKey e => of_key_error e
  end.
Definition of_app_error (e : AppError) : OAuthError :=
  match e with
  | NotFound what => oerr InvalidRequest (what ++ " not found")
  | Conflict => oerr InvalidRequest "already exists"
  end.

(** ** Audiences *)

(** [agreed_signing_alg]. *)
Fixpoint agree (wanted : list (string * option string)) (agreed : option (SigningAlg * string))
    : result OAuthError (option SigningAlg) :=
  match wanted with
  | [] => Ok (fst <$> agreed)
  | (identifier, alg) :: wanted =>
      match alg with
      | None => agree wanted agreed
      | Some alg =>
          let? alg := ok_or (parse_alg alg)
                        (oerr ServerError ("resource `" ++ identifier ++ "` has an unsupported signing algorithm")) in
          match agreed with
          | Some (a, first) =>
              if negb (bool_decide (a = alg)) then
                Err (oerr InvalidTarget
                       ("resources `" ++ first ++ "` (" ++ SigningAlg_as_str a ++ ") and `" ++ identifier ++ "` ("
                        ++ SigningAlg_as_str alg
                        ++ ") need tokens signed with different algorithms; request them separately"))
              else agree wanted agreed
          | None => agree wanted (Some (alg, identifier))
          end
      end
  end.
Definition agreed_signing_alg (wanted : list (string * option string)) : result OAuthError (option SigningAlg) :=
  agree wanted None.

(** The loop of [resolve_audience], with the algorithms named so far. *)
Fixpoint collect_audience (dir : Directory) (tenant_id : Uuid) (client : Client) (role_ids : list Uuid)
    (wanted : list string) (acc : Audience) (algs : list (string * option string))
    : result OAuthError (Audience * list (string * option string)) :=
  match wanted with
  | [] => Ok (acc, algs)
  | identifier :: wanted =>
      match d_resource_server dir tenant_id identifier with
      | None => Err (oerr InvalidTarget ("unknown resource `" ++ identifier ++ "`"))
      | Some rs =>
          if negb (may_target client identifier (rs_built_in rs)) then
            Err (oerr InvalidTarget ("resource `" ++ identifier ++ "` is not allowed for this client"))
          else
            let ttl_override :=
              match rs_token_ttl_secs rs with
              | Some ttl =>
                  let ttl := Z.max ttl 1 in
                  Some (match au_ttl_override acc with Some t => Z.min t ttl | None => ttl end)
              | None => au_ttl_override acc
              end in
            let permissions :=
              if bool_decide (role_ids = []) then au_permissions acc
              else foldl push_new (au_permissions acc) (d_permissions dir tenant_id (rs_id rs) role_ids) in
            collect_audience dir tenant_id client role_ids wanted
              (mkAudience (au_audiences acc ++ [rs_identifier rs]) ttl_override permissions
                 (au_resource_server_ids acc ++ [rs_id rs])
                 (au_offline_allowed acc && rs_allow_offline_access rs) None)
              (algs ++ [(rs_identifier rs, rs_signing_alg rs)])
      end
  end.

Definition resolve_audience (dir : Directory) (tenant_id : Uuid) (client : Client) (requested : list string)
    (role_ids : list Uuid) : result OAuthError Audience :=
  let wanted := if bool_decide (requested = []) then cl_allowed_audiences client else requested in
  let empty := mkAudience [] None [] [] true None in
  if bool_decide (wanted = []) then Ok empty
  else
    let? (acc, algs) := collect_audience dir tenant_id client role_ids wanted empty [] in
    let? alg := agreed_signing_alg algs in
    Ok (mkAudience (au_audiences acc) (au_ttl_override acc) (au_permissions acc) (au_resource_server_ids acc)
          (au_offline_allowed acc) alg).

(** [parse_resources]; [url_fragment r] is [None] where [r] is no URL, else
    whether it has a fragment. *)
Fixpoint parse_resource_list (url_fragment : string -> option bool) (rs out : list string)
    : result OAuthError (list string) :=
  match rs with
  | [] => Ok out
  | r :: rs =>
      let r := trim_str r in
      if String.eqb r "" || default true (url_fragment r)
      then Err (oerr InvalidTarget ("invalid resource `" ++ r ++ "`"))
      else parse_resource_list url_fragment rs (push_new out r)
  end.
Definition parse_resources (url_fragment : string -> option bool) (params : RawParams)
    : result OAuthError (list string) :=
  parse_resource_list url_fragment (many params "resource") [].

(** [load_subject]. *)
Definition load_subject (dir : Directory) (tenant_id user_id : Uuid) (org_id : option Uuid) : result OAuthError Subject :=
  match d_user dir tenant_id user_id with
  | None => Err (oerr InvalidGrant "user no longer exists")
  | Some user =>
      match u_status user with
      | UActive => Ok (mkSubject user (d_roles dir tenant_id user_id org_id) (d_groups dir tenant_id user_id))
      | _ => Err (oerr InvalidGrant "user is not active")
      end
  end.

Definition ACCESS_TOKEN_TYPE : string := "urn:ietf:params:oauth:token-type:access_token".
Definition JWT_TYPE : string := "urn:ietf:params:oauth:token-type:jwt".
Definition is_access (t : string) : bool := String.eqb t ACCESS_TOKEN_TYPE || String.eqb t JWT_TYPE.

(** ** The grants *)

(** What [ciba::poll] answers: an approved request's audiences and scopes with
    the approval, or why there is nothing to collect. *)
Record CibaApproved := mkCibaApproved { cb_scopes : list string; cb_audiences : list string; cb_approval : Approval }.
Inductive CibaPoll := CibaApprovedP (a : CibaApproved) | CibaPending | CibaSlowDown | CibaDenied | CibaExpired.

Section endpoint.
Context `{Valkey} `{Counters} `{UuidDisplay} `{KeyEncryptor} `{Jwts}.
Context `{!Serde SsoSession} `{!Serde Map} `{!Serde string} `{!Serde AuthCode} `{!Serde CodeGrant} `{!Serde DeviceRecord}.
Context (print_value : Value -> string) (parse_f64 : string -> option Value) (user_json : User -> Value).
Context (render : string -> Value -> option string) (json_text : string -> Value).
Context (sha256 : list Z -> list Z) (sha384 : list Z -> list Z) (sha512 : list Z -> list Z) (b64 : list Z -> string).
Context (uuid_bytes : Uuid -> list Z) (url_host : string -> option string) (url_fragment : string -> option bool).
Context (rsa_ok : list Z -> bool) (one_mark : raw).
Context (dir : Directory).

Definition sha_str (s : string) : list Z := sha256 (ascii_bytes s).

(** The state the endpoint works on, and who the request acts for. *)
Record EpState := mkEpState {
  ep_tok : TokenState;
  ep_guesses : cdb;
  ep_device_rows : list DeviceRow;
  ep_acting : option Uuid
}.
Definition ep_app (st : EpState) : AppState := tk_app (ep_tok st).
Definition ep_redis (st : EpState) : vdb := redis (ep_app st).
Definition ep_with_tok (st : EpState) (t : TokenState) : EpState :=
  mkEpState t (ep_guesses st) (ep_device_rows st) (ep_acting st).
Definition ep_with_app (st : EpState) (app : AppState) : EpState :=
  ep_with_tok st (mkTokenState app (tk_keys (ep_tok st))).
Definition ep_with_redis (st : EpState) (db : vdb) : EpState := ep_with_app st (with_redis (ep_app st) db).
Definition ep_with_refresh (st : EpState) (rows : list RefreshToken) : EpState :=
  ep_with_app st (with_refresh (ep_app st) rows).

(** What one request draws. *)
Record EpDraw := mkEpDraw { ed_access : TokenDraw; ed_id : TokenDraw; ed_rt : RtRng; ed_family : Uuid }.

Definition on_tok {A} (m : M TokenState TokError A) : M EpState OAuthError A := fun st =>
  let '(r, t) := m (ep_tok st) in (map_err of_tok_error r, ep_with_tok st t).

(** [mark_acting]: the [sub] of the [act] claim, when it is an id. *)
Definition mark_acting (act : Value) : M EpState OAuthError unit :=
  match get_key act "sub" ≫= fun v => as_str v ≫= parse_str with
  | Some id => modify (fun st => mkEpState (ep_tok st) (ep_guesses st) (ep_device_rows st) (Some id))
  | None => ret tt
  end.

(** The client as the token service sees it: [TokenClient::from_client] with
    what the audience asks for. *)
Definition client_for (i : Issue) : result OAuthError TokenClient :=
  let tc := from_client url_host (i_client i) (i_tenant i) (d_mappers dir (tn_id (i_tenant i)) (i_client i)) in
  let? alg :=
    match au_signing_alg (i_audience i) with
    | Some alg =>
        if is_fapi2 (i_client i) && negb (allows_signing alg) then
          Err (oerr InvalidTarget
                 ("the resource server asks for " ++ SigningAlg_as_str alg
                  ++ " tokens, which the FAPI 2.0 profile does not allow"))
        else Ok (Some alg)
    | None => Ok (tc_access_token_alg tc)
    end in
  Ok (mkTokenClient (tc_client_id tc) (tc_subject_type tc) (tc_sector_identifier tc)
        (default (tc_access_token_ttl tc) (au_ttl_override (i_audience i))) (tc_id_token_ttl tc) (tc_mappers tc)
        (tc_id_token_scope_claims tc) (tc_access_token_format tc) alg (tc_id_token_alg tc)
        (au_permissions (i_audience i)) (i_not_after i)).

(** The scopes the audience carries. *)
Definition granted_scopes (i : Issue) : list string :=
  granted_for_audience dir (tn_id (i_tenant i)) (i_scopes i) (au_resource_server_ids (i_audience i))
    (au_offline_allowed (i_audience i)).

Definition access_request (tc : TokenClient) (i : Issue) : AccessTokenRequest :=
  mkAccessTokenRequest (i_tenant i) tc (su_user <$> i_subject i) (granted_scopes i) (au_audiences (i_audience i))
    (default [] (su_roles <$> i_subject i)) (default [] (su_groups <$> i_subject i)) (i_session_id i) (i_auth_time i)
    (i_amr i) (i_acr i) (i_org_id i) (p_jkt (i_proof i))
    (if cl_cert_bound (i_client i) then p_x5t (i_proof i) else None) (i_act i).

Definition id_request (now : Z) (tc : TokenClient) (i : Issue) (u : User) (access : string) : IdTokenRequest :=
  mkIdTokenRequest (i_tenant i) tc u (granted_scopes i) (default [] (su_roles <$> i_subject i))
    (default [] (su_groups <$> i_subject i)) (i_session_id i) (default now (i_auth_time i)) (i_org_id i) (i_nonce i)
    (i_amr i) (i_acr i) (Some access) None (i_act i).

(** The refresh token's lifetime, in milliseconds. *)
Definition refresh_ttl (now : Z) (i : Issue) : Z :=
  let ttl := 1000 * match cl_refresh_token_ttl_secs (i_client i) with
                    | Some s => Z.max s 1 | None => tn_refresh_token_ttl_secs (i_tenant i) end in
  match i_not_after i with Some until => Z.max (Z.min ttl (until - now)) 1000 | None => ttl end.

Definition refresh_request (now : Z) (i : Issue) : IssueRequest :=
  mkIssueRequest (cl_client_id (i_client i)) (u_id ∘ su_user <$> i_subject i) (i_session_id i) (granted_scopes i)
    (au_audiences (i_audience i)) (refresh_ttl now i)
    (if is_public (i_client i) then p_jkt (i_proof i) else None)
    (if is_public (i_client i) && cl_cert_bound (i_client i) then p_x5t (i_proof i) else None)
    (i_auth_time i) (i_amr i) (i_acr i) (i_org_id i) (print_value <$> i_act i).

Definition issue_refresh_token (now : Z) (d : EpDraw) (i : Issue) : M EpState OAuthError (option RtIssued) :=
  if i_issue_refresh i && allows_grant (i_client i) grants.REFRESH_TOKEN then fun st =>
    match issue sha_str b64 now (ed_rt d) (ed_family d) (ep_app st) (tn_id (i_tenant i)) (refresh_request now i) with
    | Ok (issued, app) => (Ok (Some issued), ep_with_app st app)
    | Err e => (Err (of_app_error e), st)
    end
  else ret None.

(** The record kept for ten minutes of what a code produced. *)
Definition remember_code (now : Z) (i : Issue) (at_ : IssuedToken) (refresh : option RtIssued)
    : M EpState OAuthError unit :=
  match i_code_for_hash i with
  | Some code_hash =>
      let grant := mkCodeGrant (rt_family_id ∘ is_record <$> refresh) (str_claim (tok_claims at_) "jti")
                     (tok_expires_at at_) in
      modify (fun st => ep_with_redis st
        (vset_px now (code_family (tn_id (i_tenant i)) code_hash) (to_json grant) (600 * 1000) (ep_redis st)))
  | None => ret tt
  end.

Definition issue_tokens (now : Z) (d : EpDraw) (i : Issue) : M EpState OAuthError TokenResponse :=
  let! tc := lift (client_for i) in
  let! at_ := on_tok (issue_access_token print_value parse_f64 user_json render sha256 b64 uuid_bytes rsa_ok
                        now (ed_access d) dir (access_request tc i)) in
  let! id_token :=
    match i_subject i with
    | Some s =>
        if existsb (fun s => String.eqb s "openid") (granted_scopes i) then
          let! t := on_tok (issue_id_token print_value parse_f64 user_json render sha256 sha384 sha512 b64 uuid_bytes rsa_ok
                              now (ed_id d) dir (id_request now tc i (su_user s) (tok_token at_))) in
          ret (Some (tok_token t))
        else ret None
    | None => ret None
    end in
  let! refresh := issue_refresh_token now d i in
  do! remember_code now i at_ refresh in
  ret (mkTokenResponse (tok_token at_) (if bool_decide (is_Some (p_jkt (i_proof i))) then "DPoP" else "Bearer") None
         (Z.max (num_seconds (tok_expires_at at_ - now)) 1) (is_token <$> refresh) id_token
         (Some (String.concat " " (granted_scopes i)))).

(** *** Authorization codes *)

(** The branch for a code that is unknown or was used: what it produced is
    revoked. *)
Definition revoke_replayed (now : Z) (t : Tenant) (code : string) : M EpState OAuthError unit := fun st =>
  let '(stored, db) := vgetdel now (code_family (tn_id t) (code_hash sha_str b64 code)) (ep_redis st) in
  let st := ep_with_redis st db in
  match stored ≫= from_json with
  | Some grant =>
      let st :=
        match cg_family_id grant with
        | Some f => ep_with_refresh st (RefreshRepo.revoke_family now (tn_id t) f (refresh_rows (ep_app st))).1
        | None => st
        end in
      let st :=
        match cg_access_jti grant with
        | Some jti => ep_with_redis st (deny one_mark now (tn_id t) jti (cg_access_expires_at grant) (ep_redis st))
        | None => st
        end in
      (Ok tt, st)
  | None => (Ok tt, st)
  end.

(** The checks on a code's record, in order. *)
Definition check_code (now : Z) (client : Client) (redirect_uri verifier : option string) (sessions : list SessionRow)
    (t : Tenant) (record : AuthCode) : result OAuthError unit :=
  if negb (c_client_id record =? cl_id client) then Err (oerr InvalidGrant "code was issued to another client")
  else if negb (bool_decide (redirect_uri = Some (c_redirect_uri record)))
  then Err (oerr InvalidGrant "redirect_uri does not match")
  else
    let? _ :=
      match c_code_challenge record, verifier with
      | Some challenge, Some v =>
          if negb (verify_s256 sha256 b64 v challenge) then Err (oerr InvalidGrant "code_verifier does not match") else Ok tt
      | Some _, None => Err (oerr InvalidRequest "code_verifier is required")
      | None, Some _ => Err (oerr InvalidRequest "code_verifier without a code_challenge")
      | None, None => Ok tt
      end in
    if CODE_TTL_SECS <? wrap_u 64 (num_seconds (now - c_issued_at record))
    then Err (oerr InvalidGrant "authorization code expired")
    else if SessionRepo.is_revoked (tn_id t) (c_session_id record) sessions
    then Err (oerr InvalidGrant "the session this code was issued in has ended")
    else Ok tt.

(** The audiences a request picks among those of the authorization. *)
Definition pick_audiences (granted extra : list string) : result OAuthError (list string) :=
  match (if bool_decide (granted = []) then None else List.find (fun r => negb (bool_decide (r ∈ granted))) extra) with
  | Some r => Err (oerr InvalidTarget ("resource `" ++ r ++ "` was not part of the authorization request"))
  | None => Ok (if bool_decide (extra = []) then granted else extra)
  end.

Definition act_of (a : option Acting) : option Value := (fun a => json_text (act_claim a)) <$> a.
Definition role_ids (s : Subject) : list Uuid := ro_id <$> su_roles s.
Definition mark_if (act : option Value) : M EpState OAuthError unit :=
  match act with Some a => mark_acting a | None => ret tt end.

Definition authorization_code (now : Z) (d : EpDraw) (t : Tenant) (client : Client) (params : RawParams)
    (proof : SenderProof) : M EpState OAuthError TokenResponse :=
  let! code := lift (one params "code") in
  let! code := lift (ok_or code (oerr InvalidRequest "code is required")) in
  let! redirect_uri := lift (one params "redirect_uri") in
  let! verifier := lift (one params "code_verifier") in
  let! record := (fun st => let '(r, db) := consume sha_str b64 now (ep_redis st) (tn_id t) code in
                            (Ok r, ep_with_redis st db)) in
  match record with
  | None =>
      do! revoke_replayed now t code in
      throw (oerr InvalidGrant "invalid authorization code")
  | Some record =>
      let! sessions := gets (fun st => session_rows (ep_app st)) in
      do! lift (check_code now client redirect_uri verifier sessions t record) in
      do! mark_if (act_of (c_acting record)) in
      let! subject := lift (load_subject dir (tn_id t) (c_user_id record) (c_org_id record)) in
      let! extra := lift (parse_resources url_fragment params) in
      let! requested := lift (pick_audiences (c_audiences record) extra) in
      let! audience := lift (resolve_audience dir (tn_id t) client requested (role_ids subject)) in
      issue_tokens now d
        (mkIssue t client (Some subject) (c_scopes record) audience (Some (c_session_id record))
           (Some (c_auth_time record)) (c_amr record) (c_acr record) (c_org_id record) (c_nonce record) true
           (Some (code_hash sha_str b64 code)) proof (act_of (c_acting record)) (act_until <$> c_acting record))
  end.

(** *** Device codes and CIBA *)

Definition poll_device (now : Z) (t : Tenant) (client : Client) (code : string) : M EpState OAuthError (option Poll) :=
  fun st =>
    let '(r, dv) := poll sha_str b64 now (mkDevState (ep_redis st) (ep_guesses st) (ep_device_rows st))
                      (tn_id t) (cl_id client) code in
    (Ok r, mkEpState (tk_with_redis (ep_tok st) (dv_redis dv)) (dv_guesses dv) (dv_rows dv) (ep_acting st)).

Definition device_grant (now : Z) (d : EpDraw) (t : Tenant) (client : Client) (params : RawParams) (proof : SenderProof)
    : M EpState OAuthError TokenResponse :=
  let! code := lift (one params "device_code") in
  let! code := lift (ok_or code (oerr InvalidRequest "device_code is required")) in
  let! polled := poll_device now t client code in
  let! (record, approval) :=
    lift (match polled with
          | None => Err (oerr InvalidGrant "invalid device code")
          | Some PollPending => Err (oerr AuthorizationPending "")
          | Some PollSlowDown => Err (oerr SlowDown "")
          | Some PollDenied => Err (oerr AccessDenied "")
          | Some PollExpired => Err (oerr ExpiredToken "")
          | Some (PollApproved record approval) => Ok (record, approval)
          end) in
  do! mark_if (act_of (ap_acting approval)) in
  let! subject := lift (load_subject dir (tn_id t) (ap_user_id approval) (ap_org_id approval)) in
  let! extra := lift (parse_resources url_fragment params) in
  let requested := if bool_decide (extra = []) then d_audiences record else extra in
  let! audience := lift (resolve_audience dir (tn_id t) client requested (role_ids subject)) in
  issue_tokens now d
    (mkIssue t client (Some subject) (ap_scopes approval) audience (Some (ap_session_id approval))
       (Some (ap_auth_time approval)) (ap_amr approval) (ap_acr approval) (ap_org_id approval) None true None proof
       (act_of (ap_acting approval)) (act_until <$> ap_acting approval)).

(** [backchannel], where [polled] is what [ciba::poll] answers for the id. *)
Definition backchannel (now : Z) (d : EpDraw) (polled : string -> option CibaPoll) (t : Tenant) (client : Client)
    (params : RawParams) (proof : SenderProof) : M EpState OAuthError TokenResponse :=
  let! id := lift (one params "auth_req_id") in
  let! id := lift (ok_or id (oerr InvalidRequest "auth_req_id is required")) in
  let! a :=
    lift (match polled id with
          | None => Err (oerr InvalidGrant "invalid auth_req_id")
          | Some CibaPending => Err (oerr AuthorizationPending "")
          | Some CibaSlowDown => Err (oerr SlowDown "")
          | Some CibaDenied => Err (oerr AccessDenied "")
          | Some CibaExpired => Err (oerr ExpiredToken "")
          | Some (CibaApprovedP a) => Ok a
          end) in
  let approval := cb_approval a in
  let! subject := lift (load_subject dir (tn_id t) (ap_user_id approval) (ap_org_id approval)) in
  let! audience := lift (resolve_audience dir (tn_id t) client (cb_audiences a) (role_ids subject)) in
  issue_tokens now d
    (mkIssue t client (Some subject) (cb_scopes a) audience (Some (ap_session_id approval))
       (Some (ap_auth_time approval)) (ap_amr approval) (ap_acr approval) (ap_org_id approval) None true None proof
       None None).

(** *** Refresh tokens and client credentials *)

Definition load_some (t : Tenant) (user_id : option Uuid) (org_id : option Uuid) : result OAuthError (option Subject) :=
  transpose (fun uid => load_subject dir (tn_id t) uid org_id) user_id.

Definition refresh_grant (now : Z) (d : EpDraw) (t : Tenant) (client : Client) (params : RawParams) (proof : SenderProof)
    : M EpState OAuthError TokenResponse :=
  let! presented := lift (one params "refresh_token") in
  let! presented := lift (ok_or presented (oerr InvalidRequest "refresh_token is required")) in
  let! extra := lift (parse_resources url_fragment params) in
  let! scope := lift (one params "scope") in
  let requested_scopes := parse_scope_param <$> scope in
  let! rotated := (fun st =>
    let '(r, app) := redeem sha_str b64 now (ed_rt d) (ep_app st) (tn_id t) (cl_client_id client) presented proof extra
                       requested_scopes (negb (is_fapi2 client)) in
    (r, ep_with_app st app)) in
  let record := is_record rotated in
  let act := json_text <$> rt_act record in
  do! mark_if act in
  let scopes := default (rt_scopes record) requested_scopes in
  let! subject := lift (load_some t (rt_user_id record) (rt_org_id record)) in
  let requested := if bool_decide (extra = []) then rt_audiences record else extra in
  let! audience := lift (resolve_audience dir (tn_id t) client requested (default [] (role_ids <$> subject))) in
  let! response := issue_tokens now d
    (mkIssue t client subject scopes audience (rt_session_id record) (rt_auth_time record) (rt_amr record)
       (rt_acr record) (rt_org_id record) None false None proof act
       (match rt_act record with Some _ => Some (rt_expires_at record) | None => None end)) in
  ret (mkTokenResponse (r_access_token response) (r_token_type response) (r_issued_token_type response)
         (r_expires_in response) (Some (is_token rotated)) (r_id_token response) (r_scope response)).

Definition USER_ONLY : list string := ["openid"; "offline_access"]%string.
Definition client_credentials (now : Z) (d : EpDraw) (t : Tenant) (client : Client) (params : RawParams)
    (proof : SenderProof) : M EpState OAuthError TokenResponse :=
  do! guard (is_public client) (oerr UnauthorizedClient "public clients cannot use client_credentials") in
  let! scope := lift (one params "scope") in
  let requested := parse_scope_param (default ""%string scope) in
  do! guard (existsb (fun s => bool_decide (s ∈ USER_ONLY)) requested)
        (oerr InvalidScope "openid/offline_access are not valid for client_credentials") in
  let! checked := lift (validate_request dir (tn_id t) client requested USER_ONLY false) in
  let! subject := lift (load_some t (cl_service_account_user_id client) None) in
  let! resources := lift (parse_resources url_fragment params) in
  let wanted := with_bound_audiences resources (cl_allowed_audiences client) (rq_bound_audiences checked) in
  let! audience := lift (resolve_audience dir (tn_id t) client wanted (default [] (role_ids <$> subject))) in
  issue_tokens now d
    (mkIssue t client subject (rq_scopes checked) audience None None [] None None None false None proof None None).

(** *** Token exchange *)

(** The key of the [cnf] claim. *)
Definition cnf_key (claims : Map) (n : string) : option string :=
  claims !! "cnf"%string ≫= fun cnf => get_key cnf n ≫= as_str.

(** An opaque token is not a JWT. *)
Definition typed_right (token kind : string) : bool := String.eqb kind ACCESS_TOKEN_TYPE || negb (looks_like token).

Definition verify_exchanged (now : Z) (t : Tenant) (token what : string) : M EpState OAuthError Map := fun st =>
  (map_err (fun _ => oerr InvalidGrant (what ++ " is invalid, expired or revoked"))
     (verify_access sha256 b64 now dir t (ep_tok st) token default_options), st).

Definition actor_claims (now : Z) (t : Tenant) (params : RawParams) : M EpState OAuthError (option Map) :=
  let! token := lift (one params "actor_token") in
  let! kind := lift (one params "actor_token_type") in
  match token, kind with
  | None, None => ret None
  | Some token, Some kind =>
      do! guard (negb (is_access kind)) (oerr InvalidRequest "actor_token_type must be an access token or jwt type") in
      do! guard (negb (typed_right token kind)) (oerr InvalidRequest "actor_token is not a JWT; use urn:ietf:params:oauth:token-type:access_token") in
      let! claims := verify_exchanged now t token "actor_token" in
      ret (Some claims)
  | _, _ => throw (oerr InvalidRequest "actor_token and actor_token_type go together")
  end.

(** The scopes of the exchanged token: never more than the subject token's, nor
    than the client may hold. *)
Definition exchange_scopes (client : Client) (granted : list string) (scope : option string)
    : result OAuthError (list string) :=
  match scope with
  | Some raw_ =>
      let requested := parse_scope_param raw_ in
      match List.find (fun s => negb (bool_decide (s ∈ granted))) requested with
      | Some extra => Err (oerr InvalidScope ("scope `" ++ extra ++ "` is not held by the subject token"))
      | None =>
          match List.find (fun s => negb (bool_decide (s ∈ cl_allowed_scopes client))) requested with
          | Some bad => Err (oerr InvalidScope ("scope `" ++ bad ++ "` is not allowed for this client"))
          | None => Ok requested
          end
      end
  | None => Ok (filter (fun s => s ∈ cl_allowed_scopes client) granted)
  end.

Fixpoint add_audiences (auds wanted : list string) : result OAuthError (list string) :=
  match auds with
  | [] => Ok wanted
  | a :: auds =>
      let a := trim_str a in
      if String.eqb a "" then Err (oerr InvalidRequest "audience must not be empty")
      else add_audiences auds (push_new wanted a)
  end.

Definition exchange_act (actor : option Map) (subject_claims : Map) : option Value :=
  (fun a : Map =>
     VObject ([("sub"%string, default VNull (a !! "sub"%string)); ("client_id"%string, default VNull (a !! "client_id"%string))]
              ++ match subject_claims !! "act"%string with Some previous => [("act"%string, previous)] | None => [] end))
  <$> actor.

Definition token_exchange (now : Z) (d : EpDraw) (t : Tenant) (client : Client) (params : RawParams) (proof : SenderProof)
    : M EpState OAuthError TokenResponse :=
  let! subject_token := lift (one params "subject_token") in
  let! subject_token := lift (ok_or subject_token (oerr InvalidRequest "subject_token is required")) in
  let! subject_type := lift (one params "subject_token_type") in
  let! subject_type := lift (ok_or subject_type (oerr InvalidRequest "subject_token_type is required")) in
  do! guard (negb (is_access subject_type)) (oerr InvalidRequest "subject_token_type must be an access token or jwt type") in
  let! requested_type := lift (one params "requested_token_type") in
  do! match requested_type with
      | Some requested =>
          do! guard (negb (is_access requested))
                (oerr InvalidRequest "requested_token_type must be an access token or jwt type") in
          guard (String.eqb requested JWT_TYPE && bool_decide (cl_access_token_format client = Opaque))
            (oerr InvalidRequest "this client receives opaque access tokens; request urn:ietf:params:oauth:token-type:access_token")
      | None => ret tt
      end in
  do! guard (negb (typed_right subject_token subject_type)) (oerr InvalidRequest "subject_token is not a JWT; use urn:ietf:params:oauth:token-type:access_token") in
  let! claims := verify_exchanged now t subject_token "subject_token" in
  do! guard (match cnf_key claims "jkt" with
             | Some bound => negb (bool_decide (p_jkt proof = Some bound)) | None => false end)
        (oerr InvalidGrant "subject_token is bound to a key this request did not prove") in
  do! guard (match cnf_key claims CNF_X5T with
             | Some bound => negb (bool_decide (p_x5t proof = Some bound)) || negb (cl_cert_bound client)
             | None => false end)
        (oerr InvalidGrant "subject_token is bound to a client certificate: exchange it over a connection with that certificate, as a client registered for certificate-bound tokens") in
  let! actor := actor_claims now t params in
  let granted := parse_scope_param (default ""%string (str_claim claims "scope")) in
  let! scope := lift (one params "scope") in
  let! scopes := lift (exchange_scopes client granted scope) in
  let! uid := (fun st => let policy := default default_policy (tenant_policy (ep_app st) !! tn_id t) in
                         on_tok (subject_user_id now t policy claims) st) in
  let! subject := lift (load_some t uid (uuid_claim claims "org_id")) in
  let! resources := lift (parse_resources url_fragment params) in
  let! wanted := lift (add_audiences (many params "audience") resources) in
  do! guard (bool_decide (cl_allowed_audiences client = []))
        (oerr InvalidTarget "this client has no audiences it may exchange for") in
  do! lift (match List.find (fun a => negb (bool_decide (a ∈ cl_allowed_audiences client))) wanted with
            | Some a => Err (oerr InvalidTarget ("resource `" ++ a ++ "` is not allowed for this client"))
            | None => Ok tt
            end) in
  let! audience := lift (resolve_audience dir (tn_id t) client wanted (default [] (role_ids <$> subject))) in
  let subject_exp := match claims !! "exp"%string ≫= as_int with Some e => e * 1000 | None => now end in
  let amr := match claims !! "amr"%string ≫= as_array with Some l => omap as_str l | None => [] end in
  let! response := issue_tokens now d
    (mkIssue t client subject scopes audience (uuid_claim claims "sid") None amr (str_claim claims "acr")
       (uuid_claim claims "org_id") None false None proof (exchange_act actor claims) (Some subject_exp)) in
  ret (mkTokenResponse (r_access_token response) (r_token_type response) (Some ACCESS_TOKEN_TYPE)
         (r_expires_in response) (r_refresh_token response) (r_id_token response) (r_scope response)).

(** ** The endpoint *)

(** The [DPoP] header: what [dpop::header] answers, and for a proof whether its
    algorithm is one FAPI 2.0 allows and what [dpop::verify_proof] answers. *)
Record DpopProof := mkDpopProof { dp_fapi_alg : bool; dp_verified : result string string }.

Definition dpop_jkt (client : Client) (header : result string (option DpopProof)) : result OAuthError (option string) :=
  match header with
  | Err d => Err (oerr InvalidDpopProof d)
  | Ok (Some proof) =>
      if is_fapi2 client && negb (dp_fapi_alg proof)
      then Err (oerr InvalidDpopProof "the FAPI 2.0 profile allows PS256, ES256 or EdDSA proofs only")
      else match dp_verified proof with Ok jkt => Ok (Some jkt) | Err d => Err (oerr InvalidDpopProof d) end
  | Ok None =>
      if cl_dpop_bound client || (is_fapi2 client && negb (cl_cert_bound client))
      then Err (oerr InvalidDpopProof "this client must present a DPoP proof") else Ok None
  end.

Definition sender_proof (client : Client) (header : result string (option DpopProof)) (x5t : option string)
    : result OAuthError SenderProof :=
  let? jkt := dpop_jkt client header in
  if cl_cert_bound client && bool_decide (x5t = None)
  then Err (oerr InvalidRequest "this client must present its TLS client certificate")
  else Ok (mkSenderProof jkt x5t).

(** [handle], for the client that authenticated. *)
Definition handle (now : Z) (d : EpDraw) (ciba : string -> option CibaPoll) (t : Tenant) (client : Client)
    (header : result string (option DpopProof)) (x5t : option string) (params : RawParams)
    : M EpState OAuthError TokenResponse :=
  let! proof := lift (sender_proof client header x5t) in
  let! grant := lift (one params "grant_type") in
  let! grant := lift (ok_or grant (oerr InvalidRequest "grant_type is required")) in
  do! guard (negb (allows_grant client grant))
        (if bool_decide (grant ∈ grants.ALL)
         then oerr UnauthorizedClient ("client may not use grant type `" ++ grant ++ "`")
         else oerr UnsupportedGrantType "") in
  if String.eqb grant grants.AUTHORIZATION_CODE then authorization_code now d t client params proof
  else if String.eqb grant grants.REFRESH_TOKEN then refresh_grant now d t client params proof
  else if String.eqb grant grants.CLIENT_CREDENTIALS then client_credentials now d t client params proof
  else if String.eqb grant grants.DEVICE_CODE then device_grant now d t client params proof
  else if String.eqb grant grants.CIBA then backchannel now d ciba t client params proof
  else if String.eqb grant grants.TOKEN_EXCHANGE then token_exchange now d t client params proof
  else throw (oerr UnsupportedGrantType "").
End endpoint.

(** ** Lemmas on audiences *)

Lemma agree_iff wanted agreed o :
  agree wanted agreed = Ok o
  <-> (forall id s, (id, Some s) ∈ wanted -> is_Some o /\ parse_alg s = o)
      /\ match agreed with
         | Some (a, _) => o = Some a
         | None => is_Some o -> exists id s, (id, Some s) ∈ wanted
         end.
Proof.
  revert agreed. induction wanted as [|[id alg] wanted IH]; intros agreed; cbn [agree].
  - split.
    + intros [= <-]. split; [by intros id s ?%not_elem_of_nil|]. destruct agreed as [[a f]|]; [done|by intros []].
    + intros [_ Ho]. destruct agreed as [[a f]|]; [by subst|]. destruct o as [o|]; [|done].
      destruct Ho as (? & ? & Hn); [by eexists|]. by apply not_elem_of_nil in Hn.
  - destruct alg as [s|].
    + destruct (parse_alg s) as [a|] eqn:Ea; cbn [ok_or].
      2:{ split; [done|]. intros [Hall _]. destruct (Hall id s) as [[o' ->] Ho]; [apply list_elem_of_here|congruence]. }
      destruct agreed as [[a' f]|].
      * case_bool_decide as Haa; cbn [negb].
        -- subst a'. rewrite IH. setoid_rewrite elem_of_cons. split.
           ++ intros [Hall ->]. split; [|done]. intros id' s' [[= -> ->]|Hin]; [by rewrite Ea|by eapply Hall].
           ++ intros [Hall ->]. split; [|done]. intros id' s' Hin. apply (Hall id'). by right.
        -- split; [done|]. intros [Hall ->]. destruct (Hall id s) as [_ Ho]; [apply list_elem_of_here|congruence].
      * rewrite IH. setoid_rewrite elem_of_cons. split.
        -- intros [Hall ->]. split; [|intros _; exists id, s; by left].
           intros id' s' [[= -> ->]|Hin]; [by rewrite Ea|by eapply Hall].
        -- intros [Hall _]. destruct (Hall id s) as [_ Ho]; [by left|]. rewrite Ea in Ho. subst o. split; [|done].
           intros id' s' Hin. apply (Hall id'). by right.
    + rewrite IH. setoid_rewrite elem_of_cons. destruct agreed as [[a f]|].
      * split; intros [Hall Ho]; (split; [|done]); intros id' s' Hin; [|by apply (Hall id'); right].
        destruct Hin as [?|Hin]; [congruence|]. by eapply Hall.
      * split; intros [Hall Ho].
        -- split; [|intros Hs; destruct (Ho Hs) as (i & s & Hin); exists i, s; apply elem_of_cons; by right].
           intros id' s' [?|Hin]; [congruence|]. by eapply Hall.
        -- split; [intros id' s' Hin; apply (Hall id'); by right|].
           intros Hs. destruct (Ho Hs) as (i & s & Hin). apply elem_of_cons in Hin as [?|Hin]; [congruence|]. by exists i, s.
Qed.

Lemma foldl_push_new_elem l out x : x ∈ foldl push_new out l <-> x ∈ out \/ x ∈ l.
Proof.
  revert out. induction l as [|y l IH]; intros out; cbn [foldl]; [rewrite elem_of_nil; tauto|].
  rewrite IH, elem_of_cons. unfold push_new. case_bool_decide; [split; [tauto|]; intros [?|[->|?]]; tauto|]. rewrite elem_of_app, list_elem_of_singleton. tauto.
Qed.

(** The resource servers behind an audience. *)
Definition serves_audience (dir : Directory) (tenant_id : Uuid) (client : Client) (id : string) (rs : ResourceServer) : Prop :=
  d_resource_server dir tenant_id id = Some rs /\ may_target client id (rs_built_in rs) = true.
Definition min_ttl (acc : option Z) (rs : ResourceServer) : option Z :=
  match rs_token_ttl_secs rs with
  | Some ttl => Some (match acc with Some t => Z.min t (Z.max ttl 1) | None => Z.max ttl 1 end)
  | None => acc
  end.
Definition audience_permissions (dir : Directory) (tenant_id : Uuid) (role_ids : list Uuid) (acc : list string)
    (rs : ResourceServer) : list string :=
  if bool_decide (role_ids = []) then acc else foldl push_new acc (d_permissions dir tenant_id (rs_id rs) role_ids).

Lemma collect_audience_iff dir t client roles wanted acc algs acc' algs' :
  au_signing_alg acc = None ->
  collect_audience dir t client roles wanted acc algs = Ok (acc', algs')
  <-> exists servers, Forall2 (serves_audience dir t client) wanted servers
      /\ acc' = mkAudience (au_audiences acc ++ (rs_identifier <$> servers)) (foldl min_ttl (au_ttl_override acc) servers)
                  (foldl (audience_permissions dir t roles) (au_permissions acc) servers)
                  (au_resource_server_ids acc ++ (rs_id <$> servers))
                  (au_offline_allowed acc && forallb rs_allow_offline_access servers) None
      /\ algs' = algs ++ ((fun rs => (rs_identifier rs, rs_signing_alg rs)) <$> servers).
Proof.
  revert acc algs. induction wanted as [|id wanted IH]; intros acc algs Hn; cbn [collect_audience].
  - split.
    + intros [= <- <-]. exists []. cbn. rewrite !app_nil_r, andb_true_r. split; [constructor|]. split; [|done].
      destruct acc; cbn in *; by subst.
    + intros (servers & Hf & -> & ->). apply Forall2_nil_inv_l in Hf as ->. cbn.
      rewrite !app_nil_r, andb_true_r. destruct acc; cbn in *; by subst.
  - destruct (d_resource_server dir t id) as [rs|] eqn:Er.
    2:{ split; [done|]. intros (servers & Hf & _). apply Forall2_cons_inv_l in Hf as (rs & ? & [E _] & _). congruence. }
    destruct (may_target client id (rs_built_in rs)) eqn:Em; cbn [negb].
    2:{ split; [done|]. intros (servers & Hf & _). apply Forall2_cons_inv_l in Hf as (rs' & ? & [E Em'] & _). congruence. }
    rewrite IH by done. cbn [au_audiences au_ttl_override au_permissions au_resource_server_ids au_offline_allowed].
    split.
    + intros (servers & Hf & -> & ->). exists (rs :: servers). split; [constructor; [by split|done]|].
      cbn. rewrite <- !app_assoc, <- andb_assoc. split; done.
    + intros (servers & Hf & -> & ->). apply Forall2_cons_inv_l in Hf as (rs' & servers' & [E Em'] & Hf & ->).
      simplify_eq. exists servers'. split; [done|]. cbn. rewrite <- !app_assoc, <- andb_assoc. split; done.
Qed.

Definition wanted_audiences (client : Client) (requested : list string) : list string :=
  if bool_decide (requested = []) then cl_allowed_audiences client else requested.

Lemma resolve_audience_ok dir t client requested roles a :
  resolve_audience dir t client requested roles = Ok a ->
  exists servers, Forall2 (serves_audience dir t client) (wanted_audiences client requested) servers
    /\ agreed_signing_alg ((fun rs => (rs_identifier rs, rs_signing_alg rs)) <$> servers) = Ok (au_signing_alg a)
    /\ a = mkAudience (rs_identifier <$> servers) (foldl min_ttl None servers)
             (foldl (audience_permissions dir t roles) [] servers) (rs_id <$> servers)
             (forallb rs_allow_offline_access servers) (au_signing_alg a).
Proof.
  unfold resolve_audience. fold (wanted_audiences client requested). case_bool_decide as Hw.
  - intros [= <-]. exists []. rewrite Hw. by split; [constructor|].
  - destruct (collect_audience _ _ _ _ _ _ _) as [[acc algs]|] eqn:Ec; [|done].
    apply collect_audience_iff in Ec as (servers & Hf & -> & ->); [|done]. cbn [app].
    destruct (agreed_signing_alg _) as [alg|] eqn:Ea; [|done]. intros [= <-]. by exists servers.
Qed.

Lemma resolve_audience_within dir t client requested roles a :
  resolve_audience dir t client requested roles = Ok a ->
  (forall id rs, d_resource_server dir t id = Some rs -> rs_identifier rs = id) ->
  au_audiences a = wanted_audiences client requested.
Proof.
  intros (servers & Hf & _ & ->)%resolve_audience_ok Hid. cbn [au_audiences].
  induction Hf as [|id rs ids servers [Hrs _] _ IH]; [done|]. cbn. by rewrite IH, (Hid id rs).
Qed.

Lemma resolve_audience_serves dir t client requested roles a x :
  resolve_audience dir t client requested roles = Ok a ->
  (forall id rs, d_resource_server dir t id = Some rs -> rs_identifier rs = id) ->
  x ∈ au_audiences a -> exists rs, serves_audience dir t client x rs.
Proof.
  intros Hr Hid. rewrite (resolve_audience_within _ _ _ _ _ _ Hr Hid). intros Hx.
  apply resolve_audience_ok in Hr as (servers & Hf & _).
  apply list_elem_of_lookup in Hx as [n Hn]. destruct (Forall2_lookup_l _ _ _ _ _ Hf Hn) as (rs & _ & ?). eauto.
Qed.

Lemma min_ttl_le servers acc t :
  (acc = Some t \/ exists rs ttl, rs ∈ servers /\ rs_token_ttl_secs rs = Some ttl /\ t = Z.max ttl 1) ->
  exists t', foldl min_ttl acc servers = Some t' /\ t' <= t.
Proof.
  revert acc t. induction servers as [|rs servers IH]; intros acc t Ht; cbn [foldl].
  - destruct Ht as [->|(? & ? & Hn & _)]; [by exists t|by apply not_elem_of_nil in Hn].
  - destruct Ht as [->|(rs' & ttl & [->|Hin]%elem_of_cons & Htt & ->)].
    + destruct (min_ttl (Some t) rs) as [t1|] eqn:E1; [|by unfold min_ttl in E1; case_match].
      destruct (IH (Some t1) t1) as (t' & -> & Hle); [by left|]. exists t'. split; [done|].
      unfold min_ttl in E1. case_match; simplify_eq; lia.
    + destruct (min_ttl acc rs) as [t1|] eqn:E1; unfold min_ttl in E1; rewrite Htt in E1; [|done].
      destruct (IH (Some t1) t1) as (t' & -> & Hle); [by left|]. exists t'. split; [done|]. destruct acc; simplify_eq; lia.
    + apply IH. right. by exists rs', ttl.
Qed.

Lemma audience_permissions_elem dir t roles servers acc p :
  p ∈ foldl (audience_permissions dir t roles) acc servers ->
  p ∈ acc \/ exists rs, rs ∈ servers /\ p ∈ d_permissions dir t (rs_id rs) roles.
Proof.
  revert acc. induction servers as [|rs servers IH]; intros acc; cbn [foldl]; [by left|].
  intros [Hp|(rs' & Hin & Hp)]%IH; [|right; exists rs'; split; [by apply list_elem_of_further|done]].
  unfold audience_permissions in Hp. case_bool_decide; [by left|].
  apply foldl_push_new_elem in Hp as [Hp|Hp]; [by left|]. right. exists rs. split; [apply list_elem_of_here|done].
Qed.

(** ** What an issue puts into the token *)

Section issues.
Context `{Valkey} `{Counters} `{UuidDisplay} `{KeyEncryptor} `{Jwts}.
Context `{!Serde SsoSession} `{!Serde Map} `{!Serde string} `{!Serde AuthCode} `{!Serde CodeGrant} `{!Serde DeviceRecord}.
Context (print_value : Value -> string) (parse_f64 : string -> option Value) (user_json : User -> Value).
Context (render : string -> Value -> option string) (json_text : string -> Value).
Context (sha256 : list Z -> list Z) (sha384 : list Z -> list Z) (sha512 : list Z -> list Z) (b64 : list Z -> string).
Context (uuid_bytes : Uuid -> list Z) (url_host : string -> option string) (url_fragment : string -> option bool).
Context (rsa_ok : list Z -> bool) (one_mark : raw).
Context (dir : Directory).

Abbreviation issue_access := (issue_access_token print_value parse_f64 user_json render sha256 b64 uuid_bytes rsa_ok).
Abbreviation issue_all := (issue_tokens print_value parse_f64 user_json render sha256 sha384 sha512 b64 uuid_bytes
                             url_host rsa_ok dir).
Abbreviation access_map := (access_claims print_value parse_f64 user_json render sha256 b64 uuid_bytes).
Abbreviation request := (access_request dir).

Lemma issue_access_claims now d req st tok st' :
  issue_access now d dir req st = (Ok tok, st') ->
  tok_claims tok = access_map now (td_jti d) dir req /\ tok_expires_at tok = access_exp now req.
Proof.
  unfold issue_access_token. case_bool_decide; intros E; inv_run; done.
Qed.

(** The token is the audience's, the client's and nobody's after the limit. *)
Lemma client_for_ok i tc :
  client_for url_host dir i = Ok tc ->
  tc_client_id tc = cl_client_id (i_client i) /\ tc_not_after tc = i_not_after i
  /\ tc_access_token_format tc = cl_access_token_format (i_client i)
  /\ tc_permissions tc = au_permissions (i_audience i)
  /\ (forall alg, au_signing_alg (i_audience i) = Some alg -> tc_access_token_alg tc = Some alg)
  /\ (forall ttl, au_ttl_override (i_audience i) = Some ttl -> tc_access_token_ttl tc = ttl).
Proof.
  unfold client_for.
  destruct (au_signing_alg (i_audience i)) as [alg|] eqn:Ea.
  - destruct (is_fapi2 _ && _); [done|]. intros [= <-]. cbn. split_and!; try done. intros ttl E. by rewrite E.
  - intros [= <-]. cbn. split_and!; try done. intros ttl E. by rewrite E.
Qed.

Lemma issue_tokens_ok now d i st resp st' :
  issue_all now d i st = (Ok resp, st') ->
  exists tc tok tk1,
    client_for url_host dir i = Ok tc
    /\ issue_access now (ed_access d) dir (request tc i) (ep_tok st) = (Ok tok, tk1)
    /\ tok_claims tok = access_map now (td_jti (ed_access d)) dir (request tc i)
    /\ r_access_token resp = tok_token tok
    /\ r_expires_in resp = Z.max (num_seconds (tok_expires_at tok - now)) 1
    /\ r_scope resp = Some (String.concat " " (granted_scopes dir i))
    /\ (i_issue_refresh i = false -> r_refresh_token resp = None).
Proof.
  unfold issue_tokens. intros Hi. inv_run.
  match goal with Ho : on_tok _ _ = _ |- _ => rename Ho into Hon end. unfold on_tok in Hon.
  destruct (issue_access _ _ _ _ (ep_tok st)) as [[tok|] tk1] eqn:Et; cbn in Hon; [|done]. injection Hon as <- <-.
  exists x, tok, tk1. split; [done|]. split; [done|]. split; [by eapply issue_access_claims|].
  split_and!; try done. intros Hn.
  match goal with Hr : issue_refresh_token _ _ _ _ _ _ _ _ = _ |- _ => unfold issue_refresh_token in Hr; rewrite Hn in Hr end.
  cbn [andb] in *. by inv_run.
Qed.

Lemma granted_scopes_within i s : s ∈ granted_scopes dir i -> s ∈ i_scopes i.
Proof. unfold granted_scopes, granted_for_audience. by intros (? & _)%filter_for_audience_elem. Qed.

Lemma load_subject_ok t u org s :
  load_subject dir t u org = Ok s ->
  d_user dir t u = Some (su_user s) /\ u_status (su_user s) = UActive
  /\ su_roles s = d_roles dir t u org /\ su_groups s = d_groups dir t u.
Proof.
  unfold load_subject. destruct (d_user dir t u) as [user|]; [|done].
  destruct (u_status user) eqn:Es; intros [= <-]; done.
Qed.
(** Signing works on the keys alone. *)
Lemma on_keys_app {A} (m : M KeyStore KeyError A) st r st' : on_keys m st = (r, st') -> tk_app st' = tk_app st.
Proof. unfold on_keys. destruct (m (tk_keys st)). by intros [= <- <-]. Qed.

Lemma sign_app now key typ claims st r st' : sign rsa_ok now key typ claims st = (r, st') -> tk_app st' = tk_app st.
Proof.
  unfold sign, encoding_key, bind, lift. destruct (on_keys (private_der now key) st) as [[der|] s1] eqn:E;
    apply on_keys_app in E; [|by intros [= <- <-]]. destruct (encoding_key_from_der _ _ _); by intros [= <- <-].
Qed.

Lemma issue_id_app now d req st tok st' :
  issue_id_token print_value parse_f64 user_json render sha256 sha384 sha512 b64 uuid_bytes rsa_ok now d dir req st
    = (Ok tok, st') -> tk_app st' = tk_app st.
Proof.
  unfold issue_id_token. intros E. inv_run.
  match goal with Hk : signing_key _ _ _ _ _ _ _ = _ |- _ => apply on_keys_app in Hk end.
  match goal with Hs : sign _ _ _ _ _ _ = _ |- _ => apply sign_app in Hs end. congruence.
Qed.

Lemma issue_refresh_token_ok now d i st r st' :
  issue_refresh_token print_value sha256 b64 dir now d i st = (Ok r, st') ->
  ep_redis st' = ep_redis st
  /\ match r with
     | Some issued => is_record issued ∈ refresh_rows (ep_app st')
         /\ in_family (tn_id (i_tenant i)) (ed_family d) (is_record issued)
     | None => True
     end.
Proof.
  unfold issue_refresh_token. destruct (_ && _); [|by intros [= <- <-]]. unfold issue.
  destruct (insert_in _ _ _ _ _ _ _ _ _) as [[issued rows]|] eqn:Ei; [|done]. intros [= <- <-]. split; [done|].
  apply insert_in_spec in Ei as (_ & Hrec & -> & _). split.
  - cbn. apply elem_of_app. right. apply list_elem_of_here.
  - by rewrite Hrec.
Qed.

Lemma on_tok_ok {A} (m : M TokenState TokError A) st x st' :
  on_tok m st = (Ok x, st') -> exists t, m (ep_tok st) = (Ok x, t) /\ st' = ep_with_tok st t.
Proof.
  unfold on_tok. destruct (m (ep_tok st)) as [[y|] t] eqn:E; cbn; [|done]. intros [= -> <-]. by exists t.
Qed.

(** What the answer leaves in Valkey: the store the token was issued into, but
    for the mark of the code it was issued for. *)
Lemma issue_tokens_leaves now d i st resp st' tk tok :
  issue_all now d i st = (Ok resp, st') ->
  (exists tc, client_for url_host dir i = Ok tc
     /\ issue_access now (ed_access d) dir (request tc i) (ep_tok st) = (Ok tok, tk)) ->
  ep_redis st' = tk_redis tk
  \/ exists h v ttl, ep_redis st' = vset_px now (code_family (tn_id (i_tenant i)) h) v ttl (tk_redis tk).
Proof.
  unfold issue_tokens. intros Hi (tc & Hc & Hat). inv_run.
  match goal with E : client_for _ _ _ = Ok ?x |- _ => rewrite Hc in E; injection E as <- end.
  match goal with Ho : on_tok (issue_access _ _ _ _) _ = _ |- _ => apply on_tok_ok in Ho as (tk1 & Hat' & ->) end.
  rewrite Hat in Hat'. injection Hat' as <- <-.
  match goal with Hr : issue_refresh_token _ _ _ _ _ _ _ _ = (Ok ?r, ?s) |- _ =>
    apply issue_refresh_token_ok in Hr as [Hdb _] end.
  match goal with Hid : match i_subject i with _ => _ end ?s1 = (Ok _, ?s2) |- _ =>
    assert (ep_redis s2 = ep_redis s1) as Hid2 end.
  { destruct (i_subject i); inv_run; [|done]. destruct (existsb _ _); inv_run; [|done].
    match goal with Ho : on_tok (issue_id_token _ _ _ _ _ _ _ _ _ _ _ _ _ _) _ = _ |- _ => apply on_tok_ok in Ho as (tk2 & Hid3 & ->) end.
    apply issue_id_app in Hid3. unfold ep_redis, ep_app. cbn. by rewrite Hid3. }
  match goal with Hm : remember_code _ _ _ _ _ = _ |- _ => unfold remember_code in Hm; destruct (i_code_for_hash i); injection Hm as _ <- end.
  - right. do 3 eexists. unfold ep_redis at 1. cbn. by rewrite Hdb, Hid2.
  - left. by rewrite Hdb, Hid2.
Qed.

(** Who a token is for: the audiences given, those an audience mapper of the
    client names, or the client itself where the request has none. *)
Definition token_for (t : Tenant) (client : Client) (audiences : list string) (claims : Map) : Prop :=
  forall a, a ∈ aud_list (claims !! "aud"%string) ->
  a ∈ audiences \/ a ∈ mapper_audiences (d_mappers dir (tn_id t) client)
  \/ (audiences = [] /\ a = cl_client_id client).

Lemma issued_token_for now jti i tc :
  client_for url_host dir i = Ok tc ->
  token_for (i_tenant i) (i_client i) (au_audiences (i_audience i)) (access_map now jti dir (request tc i)).
Proof.
  intros Hc a Ha%access_claims_aud. cbn [at_audiences at_client access_request] in Ha.
  assert (tc_mappers tc = d_mappers dir (tn_id (i_tenant i)) (i_client i) /\ tc_client_id tc = cl_client_id (i_client i)) as [<- <-].
  { unfold client_for in Hc. destruct (au_signing_alg (i_audience i)); [|by injection Hc as <-].
    destruct (is_fapi2 _ && _); [done|]. by injection Hc as <-. }
  destruct Ha as [?|[?|(? & _ & ?)]]; auto.
Qed.

(** The response is one of an issue for this request, with the keys it found. *)
Definition issued_by (now : Z) (d : EpDraw) (t : Tenant) (client : Client) (proof : SenderProof) (st : EpState)
    (resp : TokenResponse) (st' : EpState) (i : Issue) : Prop :=
  (exists st1 r, issue_all now d i st1 = (Ok r, st') /\ tk_keys (ep_tok st1) = tk_keys (ep_tok st)
     /\ r_access_token resp = r_access_token r /\ r_expires_in resp = r_expires_in r /\ r_scope resp = r_scope r)
  /\ i_tenant i = t /\ i_client i = client /\ i_proof i = proof
  /\ forall s, i_subject i = Some s -> exists u org, load_subject dir (tn_id t) u org = Ok s.

Lemma issued_by_here now d i st0 st resp st' :
  issue_all now d i st = (Ok resp, st') -> tk_keys (ep_tok st) = tk_keys (ep_tok st0) ->
  (forall s, i_subject i = Some s -> exists u org, load_subject dir (tn_id (i_tenant i)) u org = Ok s) ->
  issued_by now d (i_tenant i) (i_client i) (i_proof i) st0 resp st' i.
Proof. intros Hi Hk Hs. split; [by exists st, resp|done]. Qed.

(** The checks a code passed. *)
Record code_checked (now : Z) (client : Client) (redirect_uri verifier : option string) (sessions : list SessionRow)
    (t : Tenant) (c : AuthCode) : Prop := {
  cc_client : c_client_id c = cl_id client;
  cc_redirect : redirect_uri = Some (c_redirect_uri c);
  cc_pkce : match c_code_challenge c with
            | Some ch => exists v, verifier = Some v /\ verify_s256 sha256 b64 v ch = true
            | None => verifier = None
            end;
  cc_fresh : wrap_u 64 (num_seconds (now - c_issued_at c)) <= CODE_TTL_SECS;
  cc_session : SessionRepo.is_revoked (tn_id t) (c_session_id c) sessions = false
}.

Lemma check_code_iff now client redirect_uri verifier sessions t c :
  check_code sha256 b64 now client redirect_uri verifier sessions t c = Ok tt
  <-> code_checked now client redirect_uri verifier sessions t c.
Proof.
  unfold check_code. split.
  - intros E. destruct (negb (c_client_id c =? cl_id client)) eqn:E1; [done|]. bool_hyps.
    case_bool_decide as E2; cbn [negb] in E; [|done].
    destruct (c_code_challenge c) as [ch|] eqn:Ech.
    + destruct verifier as [v|]; [|done]. destruct (verify_s256 sha256 b64 v ch) eqn:Ev; [|done]. cbn [negb] in E.
      destruct (CODE_TTL_SECS <? _) eqn:Et; [done|]. destruct (SessionRepo.is_revoked _ _ _) eqn:Er; [done|]. bool_hyps.
      split; try done. rewrite Ech. eauto.
    + destruct verifier as [v|]; [done|]. destruct (CODE_TTL_SECS <? _) eqn:Et; [done|].
      destruct (SessionRepo.is_revoked _ _ _) eqn:Er; [done|]. bool_hyps. split; try done. by rewrite Ech.
  - intros [Hc Hr Hp Ht Hs]. rewrite Hc, Z.eqb_refl, bool_decide_eq_true_2 by done. cbn [negb].
    rewrite Hs, (proj2 (Z.ltb_ge _ _) Ht).
    destruct (c_code_challenge c); [destruct Hp as (v & -> & ->)|rewrite Hp]; done.
Qed.

Lemma pick_audiences_ok granted extra req :
  pick_audiences granted extra = Ok req ->
  req = (if bool_decide (extra = []) then granted else extra) /\ (granted <> [] -> forall a, a ∈ req -> a ∈ granted).
Proof.
  unfold pick_audiences. destruct (bool_decide (granted = [])) eqn:Eg.
  - intros [= <-]. split; [done|]. bool_hyps. done.
  - destruct (List.find _ extra) as [r|] eqn:Ef; intros [= <-]. split; [done|]. intros _ a.
    destruct (bool_decide (extra = [])); [done|]. intros Ha. apply (find_none_elem _ _ _ Ef) in Ha. by bool_hyps.
Qed.

(** The issue for a code. *)
Definition code_issue (t : Tenant) (client : Client) (proof : SenderProof) (code : string) (c : AuthCode) (s : Subject)
    (a : Audience) : Issue :=
  mkIssue t client (Some s) (c_scopes c) a (Some (c_session_id c)) (Some (c_auth_time c)) (c_amr c) (c_acr c) (c_org_id c)
    (c_nonce c) true (Some (code_hash (sha_str sha256) b64 code)) proof (act_of json_text (c_acting c))
    (act_until <$> c_acting c).

Lemma mark_if_tok act st r st' : mark_if act st = (r, st') -> ep_tok st' = ep_tok st /\ r = Ok tt.
Proof.
  unfold mark_if, mark_acting. destruct act as [a|]; [|by intros [= <- <-]].
  destruct (get_key a "sub" ≫= _); by intros [= <- <-].
Qed.

Abbreviation code_grant := (authorization_code print_value parse_f64 user_json render json_text sha256 sha384 sha512 b64
                              uuid_bytes url_host url_fragment rsa_ok one_mark dir).

Lemma authorization_code_ok now d t client params proof st resp st' :
  code_grant now d t client params proof st = (Ok resp, st') ->
  exists code redirect_uri verifier c extra req s a st1,
    one params "code" = Ok (Some code) /\ one params "redirect_uri" = Ok redirect_uri
    /\ one params "code_verifier" = Ok verifier
    /\ (consume (sha_str sha256) b64 now (ep_redis st) (tn_id t) code).1 = Some c
    /\ code_checked now client redirect_uri verifier (session_rows (ep_app st)) t c
    /\ load_subject dir (tn_id t) (c_user_id c) (c_org_id c) = Ok s
    /\ parse_resources url_fragment params = Ok extra /\ pick_audiences (c_audiences c) extra = Ok req
    /\ resolve_audience dir (tn_id t) client req (role_ids s) = Ok a
    /\ ep_tok st1 = tk_with_redis (ep_tok st) (consume (sha_str sha256) b64 now (ep_redis st) (tn_id t) code).2
    /\ issue_all now d (code_issue t client proof code c s a) st1 = (Ok resp, st').
Proof.
  unfold authorization_code. intros Hr. inv_run.
  destruct (consume _ _ _ _ _ _) as [o db] eqn:Ec.
  match goal with Hc : (Ok o, _) = (Ok _, _) |- _ => injection Hc as <- <- end.
  destruct o as [c|]; inv_run.
  match goal with Hm : mark_if _ _ = _ |- _ => apply mark_if_tok in Hm as [Hmark _] end.
  match goal with Hc : check_code _ _ _ _ _ _ _ _ _ = Ok ?u |- _ => destruct u; apply check_code_iff in Hc end.
  do 9 eexists. split_and!; eauto; rewrite ?Ec; done.
Qed.

Lemma load_some_ok t uid org o :
  load_some dir t uid org = Ok o ->
  (forall s, o = Some s -> exists u org, load_subject dir (tn_id t) u org = Ok s) /\ (is_Some uid <-> is_Some o).
Proof.
  unfold load_some, transpose. destruct uid as [u|].
  - destruct (load_subject _ _ _ _) as [s|] eqn:El; [|done]. intros [= <-]. split; [|by split; eexists].
    intros s' [= <-]. eauto.
  - intros [= <-]. split; [done|]. split; by intros [].
Qed.

(** The issue for a refreshed token, and for a token exchange. *)
Definition refresh_issue (t : Tenant) (client : Client) (proof : SenderProof) (record : RefreshToken)
    (scopes : list string) (s : option Subject) (a : Audience) : Issue :=
  mkIssue t client s scopes a (rt_session_id record) (rt_auth_time record) (rt_amr record) (rt_acr record)
    (rt_org_id record) None false None proof (json_text <$> rt_act record)
    (match rt_act record with Some _ => Some (rt_expires_at record) | None => None end).
Definition subject_exp (now : Z) (claims : Map) : Z :=
  match claims !! "exp"%string ≫= as_int with Some e => e * 1000 | None => now end.
Definition exchange_issue (now : Z) (t : Tenant) (client : Client) (proof : SenderProof) (claims : Map) (actor : option Map)
    (scopes : list string) (s : option Subject) (a : Audience) : Issue :=
  mkIssue t client s scopes a (uuid_claim claims "sid") None
    (match claims !! "amr"%string ≫= as_array with Some l => omap as_str l | None => [] end) (str_claim claims "acr")
    (uuid_claim claims "org_id") None false None proof (exchange_act actor claims) (Some (subject_exp now claims)).

Abbreviation refresh := (refresh_grant print_value parse_f64 user_json render json_text sha256 sha384 sha512 b64
                           uuid_bytes url_host url_fragment rsa_ok dir).
Abbreviation exchange := (token_exchange print_value parse_f64 user_json render sha256 sha384 sha512 b64
                            uuid_bytes url_host url_fragment rsa_ok dir).

Lemma refresh_grant_ok now d t client params proof st resp st' :
  refresh now d t client params proof st = (Ok resp, st') ->
  exists presented extra scope rotated app s a st1 r,
    one params "refresh_token" = Ok (Some presented) /\ parse_resources url_fragment params = Ok extra
    /\ one params "scope" = Ok scope
    /\ redeem (sha_str sha256) b64 now (ed_rt d) (ep_app st) (tn_id t) (cl_client_id client) presented proof extra
         (parse_scope_param <$> scope) (negb (is_fapi2 client)) = (Ok rotated, app)
    /\ load_some dir t (rt_user_id (is_record rotated)) (rt_org_id (is_record rotated)) = Ok s
    /\ resolve_audience dir (tn_id t) client
         (if bool_decide (extra = []) then rt_audiences (is_record rotated) else extra)
         (default [] (role_ids <$> s)) = Ok a
    /\ issue_all now d (refresh_issue t client proof (is_record rotated)
         (default (rt_scopes (is_record rotated)) (parse_scope_param <$> scope)) s a) st1 = (Ok r, st')
    /\ tk_keys (ep_tok st1) = tk_keys (ep_tok st)
    /\ resp = mkTokenResponse (r_access_token r) (r_token_type r) (r_issued_token_type r) (r_expires_in r)
                (Some (is_token rotated)) (r_id_token r) (r_scope r).
Proof.
  unfold refresh_grant. intros Hr. inv_run.
  match goal with Hc : (let '(_, _) := redeem ?a ?b ?c ?d ?e ?f ?g ?h ?i ?j ?k ?l in _) = _ |- _ =>
    destruct (redeem a b c d e f g h i j k l) as [o app] eqn:Er; injection Hc as -> <- end.
  match goal with Hm : mark_if _ _ = _ |- _ => apply mark_if_tok in Hm as [Hmark _] end.
  do 9 eexists. split_and!; eauto. by rewrite Hmark.
Qed.

Lemma verify_exchanged_ok now t tok what st c st' :
  verify_exchanged sha256 b64 dir now t tok what st = (Ok c, st') ->
  verify_access sha256 b64 now dir t (ep_tok st) tok default_options = Ok c /\ st' = st.
Proof.
  unfold verify_exchanged. destruct (verify_access _ _ _ _ _ _ _ _); [|done]. by intros [= -> ->].
Qed.

Lemma exchange_scopes_ok client granted scope scopes :
  exchange_scopes client granted scope = Ok scopes ->
  forall s, s ∈ scopes -> s ∈ granted /\ s ∈ cl_allowed_scopes client.
Proof.
  unfold exchange_scopes. destruct scope as [raw_|].
  - destruct (List.find _ _) eqn:E1; [done|]. destruct (List.find _ (parse_scope_param raw_)) eqn:E2 in |- *; [done|].
    intros [= <-] s Hs. split; [apply (find_none_elem _ _ _ E1) in Hs|apply (find_none_elem _ _ _ E2) in Hs]; by bool_hyps.
  - intros [= <-] s [Ha Hg]%list_elem_of_filter. done.
Qed.

Lemma actor_claims_same now t params st a st' :
  actor_claims sha256 b64 dir now t params st = (Ok a, st') -> st' = st.
Proof.
  unfold actor_claims. intros Hr. inv_run. repeat case_match; inv_run; try done.
  by match goal with Hv : verify_exchanged _ _ _ _ _ _ _ _ = _ |- _ => apply verify_exchanged_ok in Hv as [_ ->] end.
Qed.

Lemma subject_user_keys now t policy claims st r st' :
  on_tok (subject_user_id now t policy claims) st = (r, st') -> tk_keys (ep_tok st') = tk_keys (ep_tok st).
Proof.
  unfold on_tok, subject_user_id. destruct (uuid_claim claims "sub"); [by intros [= _ <-]|].
  destruct (uuid_claim claims "sid"); [|by intros [= _ <-]]. destruct (get _ _ _ _ _). by intros [= _ <-].
Qed.

Lemma token_exchange_ok now d t client params proof st resp st' :
  exchange now d t client params proof st = (Ok resp, st') ->
  exists token claims actor scope scopes uid s resources wanted a st1 r,
    one params "subject_token" = Ok (Some token)
    /\ verify_access sha256 b64 now dir t (ep_tok st) token default_options = Ok claims
    /\ (forall k, cnf_key claims "jkt" = Some k -> p_jkt proof = Some k)
    /\ (forall k, cnf_key claims CNF_X5T = Some k -> p_x5t proof = Some k /\ cl_cert_bound client = true)
    /\ exchange_scopes client (parse_scope_param (default ""%string (str_claim claims "scope"))) scope = Ok scopes
    /\ load_some dir t uid (uuid_claim claims "org_id") = Ok s
    /\ add_audiences (many params "audience") resources = Ok wanted
    /\ cl_allowed_audiences client <> [] /\ (forall x, x ∈ wanted -> x ∈ cl_allowed_audiences client)
    /\ resolve_audience dir (tn_id t) client wanted (default [] (role_ids <$> s)) = Ok a
    /\ (one params "actor_token" = Ok None -> one params "actor_token_type" = Ok None -> actor = None)
    /\ issue_all now d (exchange_issue now t client proof claims actor scopes s a) st1 = (Ok r, st')
    /\ tk_keys (ep_tok st1) = tk_keys (ep_tok st)
    /\ resp = mkTokenResponse (r_access_token r) (r_token_type r) (Some ACCESS_TOKEN_TYPE) (r_expires_in r)
                (r_refresh_token r) (r_id_token r) (r_scope r).
Proof.
  unfold token_exchange. intros Hr. inv_run.
  match goal with Hv : verify_exchanged _ _ _ _ _ _ _ _ = _ |- _ => apply verify_exchanged_ok in Hv as [Hv ->] end.
  match goal with Hs : match ?o with Some _ => _ | None => ret tt end _ = (Ok _, ?s2) |- _ =>
    assert (s2 = st) as -> by (destruct o; inv_run; done); clear Hs end.
  match goal with Ha : actor_claims _ _ _ _ _ _ _ = (Ok ?ac, _) |- _ =>
    pose proof (actor_claims_same _ _ _ _ _ _ Ha) as Hsame; do 2 eexists; exists ac end.
  match goal with Hu : on_tok _ _ = _ |- _ => apply subject_user_keys in Hu as Hkeys; rewrite Hsame in Hkeys end.
  do 9 eexists. split_and!; eauto.
  - intros k Hk. match goal with Hg : match cnf_key _ "jkt" with _ => _ end = false |- _ => rewrite Hk in Hg end.
    by bool_hyps.
  - intros k Hk. match goal with Hg : match cnf_key _ CNF_X5T with _ => _ end = false |- _ => rewrite Hk in Hg end.
    by bool_hyps.
  - by bool_hyps.
  - match goal with Hf : match List.find ?f ?l with _ => _ end = Ok _ |- _ => destruct (List.find f l) eqn:Ef in Hf; [done|] end.
    intros y Hy. apply (find_none_elem _ _ _ Ef) in Hy. by bool_hyps.
  - clear Hkeys Hsame. match goal with Ha : actor_claims _ _ _ _ _ _ _ = _ |- _ => unfold actor_claims in Ha end. inv_run.
    intros Hn1 Hn2.
    repeat match goal with Ha : one params ?n = Ok ?o, Hb : one params ?n = Ok None |- _ =>
      is_var o; rewrite Ha in Hb; injection Hb as -> end. by inv_run.
Qed.

Lemma device_grant_ok now d t client params proof st resp st' :
  device_grant print_value parse_f64 user_json render json_text sha256 sha384 sha512 b64 uuid_bytes url_host url_fragment
    rsa_ok dir now d t client params proof st = (Ok resp, st') ->
  exists i, issued_by now d t client proof st resp st' i.
Proof.
  unfold device_grant. intros Hr. inv_run. match goal with p : (DeviceRecord * Approval)%type |- _ => destruct p end. inv_run. eexists.
  match goal with Hp : poll_device _ _ _ _ _ _ _ = _ |- _ => unfold poll_device in Hp;
    destruct (poll _ _ _ _ _ _ _) as [r dv] in Hp; injection Hp as _ <- end.
  match goal with Hm : mark_if _ _ = _ |- _ => apply mark_if_tok in Hm as [Hmark _] end.
  apply (issued_by_here _ _ _ _ _ _ _ Hr); cbn; [by rewrite Hmark|]. intros s [= <-]. eauto.
Qed.

Lemma backchannel_ok now d polled t client params proof st resp st' :
  backchannel print_value parse_f64 user_json render sha256 sha384 sha512 b64 uuid_bytes url_host rsa_ok dir
    now d polled t client params proof st = (Ok resp, st') ->
  exists i, issued_by now d t client proof st resp st' i.
Proof.
  unfold backchannel. intros Hr. inv_run. eexists. apply (issued_by_here _ _ _ _ _ _ _ Hr); [done|]. cbn. intros s [= <-]. eauto.
Qed.

Lemma client_credentials_ok now d t client params proof st resp st' :
  client_credentials print_value parse_f64 user_json render sha256 sha384 sha512 b64 uuid_bytes url_host url_fragment
    rsa_ok dir now d t client params proof st = (Ok resp, st') ->
  exists i, issued_by now d t client proof st resp st' i.
Proof.
  unfold client_credentials. intros Hr. inv_run. eexists. apply (issued_by_here _ _ _ _ _ _ _ Hr); [done|]. cbn. by eapply load_some_ok.
Qed.

Abbreviation post_token := (handle print_value parse_f64 user_json render json_text sha256 sha384 sha512 b64
                              uuid_bytes url_host url_fragment rsa_ok one_mark dir).

(** Whatever the grant, a response is one of an issue for the client that asked
    and with the proof it made. *)
Lemma handle_issued now d ciba t client header x5t params st resp st' :
  post_token now d ciba t client header x5t params st = (Ok resp, st') ->
  exists proof grant i,
    sender_proof client header x5t = Ok proof /\ one params "grant_type" = Ok (Some grant)
    /\ allows_grant client grant = true /\ issued_by now d t client proof st resp st' i.
Proof.
  unfold handle. intros Hr. inv_run. bool_hyps.
  match goal with Ha : allows_grant _ ?g = true |- _ => rename g into grant end.
  assert (exists i, issued_by now d t client x st resp st' i) as [i Hi]; [|by exists x, grant, i].
  repeat match type of Hr with (if ?b then _ else _) _ = _ => destruct b end.
  - apply authorization_code_ok in Hr as (code & ru & v & c & extra & req & s & a & st1 & _ & _ & _ & _ & _ & Hl & _ & _ & _ & Hk & Hr).
    eexists. apply (issued_by_here _ _ _ _ _ _ _ Hr); [by rewrite Hk|]. cbn. intros s' [= <-]. eauto.
  - apply refresh_grant_ok in Hr as (pr & extra & sc & rot & app & s & a & st1 & r & Hr). destruct_and! Hr. subst resp.
    eexists. split; [by do 2 eexists|]. split_and!; try done. cbn. by eapply load_some_ok.
  - by eapply client_credentials_ok.
  - by eapply device_grant_ok.
  - by eapply backchannel_ok.
  - apply token_exchange_ok in Hr as (tok & cl & ac & sc & scs & uid & s & rs & w & a & st1 & r & Hr). destruct_and! Hr.
    subst resp. eexists. split; [by do 2 eexists|]. split_and!; try done. cbn. by eapply load_some_ok.
  - done.
Qed.

(** The claims of an issued token that its holder's proof and its client fix. *)
Lemma issued_by_claims now d t client proof st resp st' i :
  issued_by now d t client proof st resp st' i ->
  exists tc tok tk tk',
    issue_access now (ed_access d) dir (request tc i) tk = (Ok tok, tk') /\ r_access_token resp = tok_token tok
    /\ tk_keys tk = tk_keys (ep_tok st)
    /\ (ep_redis st' = tk_redis tk'
        \/ exists h v ttl, ep_redis st' = vset_px now (code_family (tn_id t) h) v ttl (tk_redis tk'))
    /\ client_for url_host dir i = Ok tc
    /\ (forall n, n ∈ PROTECTED_CLAIMS \/ n = "permissions"%string ->
         tok_claims tok !! n = owned_access sha256 b64 uuid_bytes now (td_jti (ed_access d)) dir (request tc i)
           (mapped_access print_value parse_f64 user_json render dir (request tc i)).2 n).
Proof.
  intros [(st1 & r & Hi & Hk & Ht & _) [<- _]]. pose proof Hi as (tc & tok & tk1 & Hc & Hat & Hcl & Hr & _)%issue_tokens_ok.
  exists tc, tok, (ep_tok st1), tk1. split_and!; [done|congruence|done|..|done|].
  - eapply issue_tokens_leaves; [done|]. by exists tc.
  - intros n Hn. rewrite Hcl. by apply access_claims_lookup.
Qed.

Lemma get_key_cnf req :
  get_key (VObject (cnf_of req)) "jkt" ≫= as_str = at_cnf_jkt req
  /\ get_key (VObject (cnf_of req)) CNF_X5T ≫= as_str = at_cnf_x5t req.
Proof. unfold cnf_of. by destruct (at_cnf_jkt req), (at_cnf_x5t req). Qed.

(** The keys a token is bound to are those of its request. *)
Lemma issued_cnf now jti req extra c :
  c !! "cnf"%string = owned_access sha256 b64 uuid_bytes now jti dir req extra "cnf" ->
  cnf_key c "jkt" = at_cnf_jkt req /\ cnf_key c CNF_X5T = at_cnf_x5t req.
Proof.
  intros E. pose proof (get_key_cnf req) as Hg. unfold cnf_key. rewrite E. cbn.
  destruct (cnf_of req) as [|p l] eqn:Ec; [|exact Hg]. unfold cnf_of in Ec.
  by destruct (at_cnf_jkt req), (at_cnf_x5t req).
Qed.

Lemma sender_proof_ok client header x5t proof :
  sender_proof client header x5t = Ok proof ->
  p_x5t proof = x5t /\ (cl_cert_bound client = true -> is_Some x5t)
  /\ (forall k, p_jkt proof = Some k <-> exists pr, header = Ok (Some pr) /\ dp_verified pr = Ok k)
  /\ (cl_dpop_bound client = true -> is_Some (p_jkt proof))
  /\ (is_fapi2 client = true -> cl_cert_bound client = true \/ is_Some (p_jkt proof)).
Proof.
  unfold sender_proof, dpop_jkt. destruct header as [[pr|]|]; [|..|done].
  - destruct (is_fapi2 client && _); [done|]. destruct (dp_verified pr) as [k|] eqn:Ev; [|done].
    destruct (cl_cert_bound client && _) eqn:Ec; [done|]. intros [= <-]. cbn. split_and!; try done.
    + intros Hb. rewrite Hb in Ec. cbn in Ec. bool_hyps. by apply not_eq_None_Some.
    + intros k'. split; [intros [= <-]; eauto|]. intros (pr' & [= <-] & E). congruence.
    + by right.
  - destruct (cl_dpop_bound client || _) eqn:Ed; [done|]. destruct (cl_cert_bound client && _) eqn:Ec; [done|].
    intros [= <-]. cbn. bool_hyps. split_and!; try done; try congruence.
    + intros Hb. rewrite Hb in Ec. cbn in Ec. bool_hyps. by apply not_eq_None_Some.
    + intros k. split; [done|]. by intros (? & [=] & _).
    + intros Hf. left. rewrite Hf in *. cbn in *. by bool_hyps.
Qed.

Lemma access_exp_limit now tc i limit :
  tc_not_after tc = Some limit -> access_exp now (request tc i) <= limit.
Proof. intros E. unfold access_exp. cbn [access_request at_client]. rewrite E. lia. Qed.

(** What a redemption hands to the endpoint carries the presented token's grant. *)
Lemma redeem_ok_record now rng st t client_id presented proof resources scopes rot issued st' :
  redeem (sha_str sha256) b64 now rng st t client_id presented proof resources scopes rot = (Ok issued, st') ->
  exists cur, RefreshRepo.find_by_hash t (sha_str sha256 presented) (refresh_rows st) = Some cur
    /\ passes now client_id proof resources scopes cur /\ (session_ended now st t cur).1 = false
    /\ rt_user_id (is_record issued) = rt_user_id cur /\ rt_scopes (is_record issued) = rt_scopes cur
    /\ rt_audiences (is_record issued) = rt_audiences cur /\ rt_session_id (is_record issued) = rt_session_id cur
    /\ rt_act (is_record issued) = rt_act cur /\ rt_expires_at (is_record issued) = rt_expires_at cur.
Proof.
  intros E. pose proof (redeem_redeemed (sha_str sha256) b64 now rng st t client_id presented proof resources scopes rot) as Hr.
  cbv zeta in Hr. rewrite E in Hr. cbn [fst snd] in Hr. inversion Hr; subst; by exists cur.
Qed.

(** The audiences of a refreshed token. *)
Lemma refreshed_audiences now client proof resources scopes cur x :
  passes now (cl_client_id client) proof resources scopes cur ->
  let auds := wanted_audiences client (if bool_decide (resources = []) then rt_audiences cur else resources) in
  (x ∈ auds -> x ∈ rt_audiences cur \/ (rt_audiences cur = [] /\ x ∈ cl_allowed_audiences client))
  /\ (auds = [] -> rt_audiences cur = [] /\ cl_allowed_audiences client = []).
Proof.
  intros Hpass. cbv zeta. unfold wanted_audiences. destruct (bool_decide (resources = [])) eqn:Ee; bool_hyps.
  - case_bool_decide; [|by split; [left|]]. split; [by right|done].
  - rewrite bool_decide_eq_false_2 by done. split; [|done]. left. by eapply pa_resources.
Qed.

(** ** Theorems *)

(** The directory finds a resource server by its own identifier. *)
Definition finds_by_identifier : Prop :=
  forall t id rs, d_resource_server dir t id = Some rs -> rs_identifier rs = id.

(** C1: whatever the grant, [POST /token] answers with a token only when the
    client may use the grant. The token it answers with was issued during the
    request (with the keys the request found, into the store it leaves) and is
    the tenant's and the client's, for a user (if any) of the tenant who is
    active. It carries the thumbprint of a DPoP key exactly when the request
    came with a proof that verified, and then of the key proved; and for a
    client whose tokens are certificate-bound, that of the certificate of the
    connection. A client that must bind its tokens, and any FAPI 2.0 client,
    never gets an unbound one. *)
Theorem every_token_bound now d ciba t client header x5t params st resp st' :
  post_token now d ciba t client header x5t params st = (Ok resp, st') ->
  exists grant req tok tk tk',
    one params "grant_type" = Ok (Some grant) /\ allows_grant client grant = true
    /\ issue_access now (ed_access d) dir req tk = (Ok tok, tk') /\ r_access_token resp = tok_token tok
    /\ tk_keys tk = tk_keys (ep_tok st)
    /\ (ep_redis st' = tk_redis tk'
        \/ exists h v ttl, ep_redis st' = vset_px now (code_family (tn_id t) h) v ttl (tk_redis tk'))
    /\ at_tenant req = t
    /\ str_claim (tok_claims tok) "iss" = Some (issuer dir t)
    /\ str_claim (tok_claims tok) "client_id" = Some (cl_client_id client)
    /\ (forall u, at_user req = Some u -> u_status u = UActive /\ exists id, d_user dir (tn_id t) id = Some u)
    /\ (forall k, cnf_key (tok_claims tok) "jkt" = Some k
         <-> exists pr, header = Ok (Some pr) /\ dp_verified pr = Ok k)
    /\ (cl_dpop_bound client = true -> is_Some (cnf_key (tok_claims tok) "jkt"))
    /\ (cl_cert_bound client = true -> is_Some x5t /\ cnf_key (tok_claims tok) CNF_X5T = x5t)
    /\ (is_fapi2 client = true ->
         is_Some (cnf_key (tok_claims tok) "jkt") \/ is_Some (cnf_key (tok_claims tok) CNF_X5T)).
Proof.
  intros (proof & grant & i & Hp & Hg & Ha & Hi)%handle_issued. pose proof Hi as (_ & <- & <- & <- & Hsub).
  apply issued_by_claims in Hi as (tc & tok & tk & tk' & Hi & Ht & Hk & Hleft & Hc & Hown).
  destruct (client_for_ok _ _ Hc) as (Hcid & _).
  apply sender_proof_ok in Hp as (<- & Hcert & Hjkt & Hdpop & Hfapi).
  pose proof (Hown "cnf"%string) as Hcnf. apply issued_cnf in Hcnf as [Hj Hx]; [|unfold PROTECTED_CLAIMS; left; decide_now].
  cbn [at_cnf_jkt at_cnf_x5t access_request] in Hj, Hx.
  exists grant, (request tc i), tok, tk, tk'. rewrite Hj, Hx. split_and!; try done.
  - unfold str_claim. rewrite Hown by (unfold PROTECTED_CLAIMS; left; decide_now). done.
  - unfold str_claim. rewrite Hown by (unfold PROTECTED_CLAIMS; left; decide_now). cbn. by rewrite Hcid.
  - intros u. cbn. destruct (i_subject i) as [s|]; [|done]. intros [= <-]. destruct (Hsub s eq_refl) as (u & org & Hl).
    apply load_subject_ok in Hl as (Hu & Hact & _). eauto.
  - intros Hb. rewrite Hb. split; [by apply Hcert|done].
  - intros Hf. destruct (Hfapi Hf) as [Hb|Hb]; [right|by left]. rewrite Hb. by apply Hcert.
Qed.

(** C7: an authorization code buys a token only for the client it was issued
    to, with its redirect URI and the verifier of its PKCE challenge, within a
    minute and while its session has not been revoked; the token is the code's
    user's (who is active) and session's, its scopes are within the code's,
    and under impersonation it does not outlive the impersonation. The request
    is for resource servers the client may address: those of the code, or
    where the code names none, those the request names or the client's own.
    The token's [aud] names these, what an audience mapper of the client adds,
    and nothing else (the client itself where there are none). *)
Theorem code_exchange_sound now d t client params proof st resp st' :
  finds_by_identifier ->
  code_grant now d t client params proof st = (Ok resp, st') ->
  exists code verifier extra c u req tok tk tk',
    one params "code" = Ok (Some code) /\ one params "redirect_uri" = Ok (Some (c_redirect_uri c))
    /\ one params "code_verifier" = Ok verifier /\ parse_resources url_fragment params = Ok extra
    /\ (consume (sha_str sha256) b64 now (ep_redis st) (tn_id t) code).1 = Some c
    /\ code_checked now client (Some (c_redirect_uri c)) verifier (session_rows (ep_app st)) t c
    /\ d_user dir (tn_id t) (c_user_id c) = Some u /\ u_status u = UActive
    /\ issue_access now (ed_access d) dir req tk = (Ok tok, tk') /\ r_access_token resp = tok_token tok
    /\ tk_keys tk = tk_keys (ep_tok st)
    /\ at_user req = Some u /\ str_claim (tok_claims tok) "sid" = Some (uuid_str (c_session_id c))
    /\ str_claim (tok_claims tok) "scope" = Some (String.concat " " (at_scopes req))
    /\ (forall x, x ∈ at_scopes req -> x ∈ c_scopes c)
    /\ token_for t client (at_audiences req) (tok_claims tok)
    /\ (forall x, x ∈ at_audiences req ->
         (exists rs, serves_audience dir (tn_id t) client x rs)
         /\ (x ∈ c_audiences c \/ (c_audiences c = [] /\ (x ∈ extra \/ x ∈ cl_allowed_audiences client))))
    /\ (forall a, c_acting c = Some a -> tok_expires_at tok <= act_until a).
Proof.
  intros Hdir (code & ru & v & c & extra & wanted & s & a & st1 & Hcode & Hru & Hv & Hcons & Hck & Hl & Hex & Hpick & Hres & Hst
    & Hi)%authorization_code_ok.
  pose proof Hck as [_ -> _ _ _]. apply load_subject_ok in Hl as (Hu & Hact & _).
  apply pick_audiences_ok in Hpick as [Hw Hpick].
  apply issue_tokens_ok in Hi as (tc & tok & tk1 & Hc & Hi & Hcl & Ht & _).
  destruct (client_for_ok _ _ Hc) as (_ & Hna & _). destruct (issue_access_claims _ _ _ _ _ _ Hi) as [_ Hexp].
  exists code, v, extra, c, (su_user s), (request tc (code_issue t client proof code c s a)), tok, (ep_tok st1), tk1.
  split_and!; try done.
  - by rewrite Hst.
  - unfold str_claim. rewrite Hcl, access_claims_lookup by (unfold PROTECTED_CLAIMS; left; decide_now). done.
  - unfold str_claim. rewrite Hcl, access_claims_lookup by (unfold PROTECTED_CLAIMS; left; decide_now). done.
  - intros x Hx. by apply granted_scopes_within in Hx.
  - rewrite Hcl. by apply (issued_token_for now _ (code_issue t client proof code c s a)).
  - intros x Hx. cbn in Hx. split; [by apply (resolve_audience_serves _ _ _ _ _ _ _ Hres (Hdir (tn_id t)))|].
    rewrite (resolve_audience_within _ _ _ _ _ _ Hres) in Hx by (apply Hdir).
    unfold wanted_audiences in Hx. rewrite Hw in Hx, Hpick. destruct (decide (c_audiences c = [])) as [Hn|Hn].
    + right. split; [done|]. rewrite Hn in Hx. destruct (bool_decide (extra = [])) eqn:Ee; bool_hyps; cbn in Hx; [by right|].
      rewrite bool_decide_eq_false_2 in Hx by done. by left.
    + left. apply Hpick; [done|]. destruct (bool_decide (extra = [])) eqn:Ee; bool_hyps; by rewrite bool_decide_eq_false_2 in Hx.
  - intros ac Hac. rewrite Hexp. apply access_exp_limit. by rewrite Hna; cbn; rewrite Hac.
Qed.

(** C24: a refresh never widens the grant. The presented token is the client's
    own, unspent and unexpired and its sign-in has not ended; the new access
    token is its user's (who is active) and session's, its scopes stay within
    the refresh token's, and one that was issued under impersonation does not
    outlive the refresh token. Its [aud] names audiences of the refresh token
    (of the client, for a refresh token without), besides what an audience
    mapper of the client adds; it is the client itself only where neither the
    refresh token nor the client has an audience. *)
Theorem refresh_within_grant now d t client params proof st resp st' :
  finds_by_identifier ->
  refresh now d t client params proof st = (Ok resp, st') ->
  exists presented resources scopes cur req tok tk tk',
    one params "refresh_token" = Ok (Some presented)
    /\ RefreshRepo.find_by_hash (tn_id t) (sha_str sha256 presented) (refresh_rows (ep_app st)) = Some cur
    /\ passes now (cl_client_id client) proof resources scopes cur
    /\ (session_ended now (ep_app st) (tn_id t) cur).1 = false
    /\ issue_access now (ed_access d) dir req tk = (Ok tok, tk') /\ r_access_token resp = tok_token tok
    /\ tk_keys tk = tk_keys (ep_tok st)
    /\ (forall uid, rt_user_id cur = Some uid ->
         exists u, d_user dir (tn_id t) uid = Some u /\ u_status u = UActive /\ at_user req = Some u)
    /\ at_session_id req = rt_session_id cur
    /\ str_claim (tok_claims tok) "scope" = Some (String.concat " " (at_scopes req))
    /\ (forall x, x ∈ at_scopes req -> x ∈ rt_scopes cur)
    /\ (forall x, x ∈ aud_list (tok_claims tok !! "aud"%string) ->
         x ∈ rt_audiences cur \/ (rt_audiences cur = [] /\ x ∈ cl_allowed_audiences client)
         \/ x ∈ mapper_audiences (d_mappers dir (tn_id t) client)
         \/ (rt_audiences cur = [] /\ cl_allowed_audiences client = [] /\ x = cl_client_id client))
    /\ (is_Some (rt_act cur) -> tok_expires_at tok <= rt_expires_at cur).
Proof.
  intros Hdir (presented & extra & scope & rotated & app & s & a & st1 & r & Hpr & _ & _ & Hred & Hl & Hres & Hi & Hkeys
    & ->)%refresh_grant_ok.
  apply redeem_ok_record in Hred as (cur & Hf & Hpass & Hend & Hu & Hsc & Hau & Hsid & Hact & Hx).
  rewrite Hu in Hl. rewrite Hsc in Hi. rewrite Hau in Hres.
  apply issue_tokens_ok in Hi as (tc & tok & tk1 & Hc & Hi & Hcl & Ht & _).
  destruct (client_for_ok _ _ Hc) as (_ & Hna & _). destruct (issue_access_claims _ _ _ _ _ _ Hi) as [_ Hexp].
  do 5 eexists. exists tok, (ep_tok st1), tk1. split_and!; try done.
  - intros uid Huid. rewrite Huid in Hl. cbn in Hl. destruct (load_subject _ _ _ _) as [s'|] eqn:El; [|done].
    injection Hl as <-. apply load_subject_ok in El as (Hd & Ha & _). by exists (su_user s').
  - unfold str_claim. rewrite Hcl, access_claims_lookup by (unfold PROTECTED_CLAIMS; left; decide_now). done.
  - intros x Hin. apply granted_scopes_within in Hin. cbn in Hin. destruct scope as [sc|]; [|done].
    cbn in Hin. by eapply pa_scopes.
  - intros x Hin. rewrite Hcl in Hin. apply (issued_token_for _ _ _ _ Hc) in Hin. cbn in Hin.
    rewrite (resolve_audience_within _ _ _ _ _ _ Hres) in Hin by apply Hdir.
    pose proof (refreshed_audiences _ _ _ _ _ _ x Hpass) as [? ?]. tauto.
  - intros [act Ha]. rewrite Hexp. apply access_exp_limit. rewrite Hna. cbn. rewrite Hact, Ha, Hx. done.
Qed.

(** C22: a token exchange only narrows. The subject token verifies in this
    tenant; the new token does not outlive it, holds only scopes that it held
    and the client may hold, keeps the subject token's binding to a key or
    certificate, and comes with no refresh token. Its [aud] names only
    audiences the client may target, besides what the administrator's audience
    mappers add for the client. *)
Theorem exchange_narrows now d t client params proof st resp st' :
  finds_by_identifier ->
  exchange now d t client params proof st = (Ok resp, st') ->
  exists token claims req tok tk tk',
    one params "subject_token" = Ok (Some token)
    /\ verify_access sha256 b64 now dir t (ep_tok st) token default_options = Ok claims
    /\ issue_access now (ed_access d) dir req tk = (Ok tok, tk') /\ r_access_token resp = tok_token tok
    /\ tk_keys tk = tk_keys (ep_tok st)
    /\ tok_expires_at tok <= subject_exp now claims
    /\ str_claim (tok_claims tok) "scope" = Some (String.concat " " (at_scopes req))
    /\ (forall x, x ∈ at_scopes req ->
         x ∈ parse_scope_param (default ""%string (str_claim claims "scope")) /\ x ∈ cl_allowed_scopes client)
    /\ (forall x, x ∈ aud_list (tok_claims tok !! "aud"%string) ->
         x ∈ cl_allowed_audiences client \/ x ∈ mapper_audiences (d_mappers dir (tn_id t) client))
    /\ (forall k, cnf_key claims "jkt" = Some k -> cnf_key (tok_claims tok) "jkt" = Some k)
    /\ (forall k, cnf_key claims CNF_X5T = Some k -> cnf_key (tok_claims tok) CNF_X5T = Some k)
    /\ r_refresh_token resp = None.
Proof.
  intros Hdir (token & claims & actor & scope & scopes & uid & s & res & wanted & a & st1 & r & Htok & Hv & Hj & Hx & Hsc & _
    & _ & Hne & Hall & Hres & _ & Hi & Hkeys & ->)%token_exchange_ok.
  apply issue_tokens_ok in Hi as (tc & tok & tk1 & Hc & Hi & Hcl & Ht & _ & _ & Hrt).
  destruct (client_for_ok _ _ Hc) as (_ & Hna & _). destruct (issue_access_claims _ _ _ _ _ _ Hi) as [_ Hexp].
  set (i := exchange_issue _ _ _ _ _ _ _ _ _) in *.
  assert (tok_claims tok !! "cnf"%string = owned_access sha256 b64 uuid_bytes now (td_jti (ed_access d)) dir (request tc i)
            (mapped_access print_value parse_f64 user_json render dir (request tc i)).2 "cnf") as [Hcj Hcx]%issued_cnf.
  { rewrite Hcl. apply access_claims_lookup. unfold PROTECTED_CLAIMS. left. decide_now. }
  cbn [at_cnf_jkt at_cnf_x5t access_request i exchange_issue i_proof i_client] in Hcj, Hcx.
  exists token, claims, (request tc i), tok, (ep_tok st1), tk1. rewrite Hcj, Hcx. split_and!; try done.
  - rewrite Hexp. apply access_exp_limit. by rewrite Hna.
  - unfold str_claim. rewrite Hcl, access_claims_lookup by (unfold PROTECTED_CLAIMS; left; decide_now). done.
  - intros x Hin%granted_scopes_within. by eapply exchange_scopes_ok.
  - intros x Hin. rewrite Hcl in Hin. apply (issued_token_for _ _ _ _ Hc) in Hin. cbn in Hin.
    rewrite (resolve_audience_within _ _ _ _ _ _ Hres) in Hin by apply Hdir.
    unfold wanted_audiences in Hin. case_bool_decide; destruct Hin as [Hin|[Hin|[Hin _]]]; auto; by destruct Hne.
  - intros k Hk. by destruct (Hx k Hk) as [-> ->].
  - by apply Hrt.
Qed.

(** an exchange without an actor token drops the subject token's actor.
    The token of an impersonated session names the administrator in [act];
    exchanged by a request that names no actor, the new token has no [act]
    at all, whatever the subject token carried. *)
Theorem exchange_drops_actor now d t client params proof st resp st' :
  exchange now d t client params proof st = (Ok resp, st') ->
  one params "actor_token" = Ok None -> one params "actor_token_type" = Ok None ->
  exists token claims req tok tk tk',
    one params "subject_token" = Ok (Some token)
    /\ verify_access sha256 b64 now dir t (ep_tok st) token default_options = Ok claims
    /\ issue_access now (ed_access d) dir req tk = (Ok tok, tk') /\ r_access_token resp = tok_token tok
    /\ at_session_id req = uuid_claim claims "sid" /\ tok_claims tok !! "act"%string = None.
Proof.
  intros (token & claims & actor & scope & scopes & uid & s & res & wanted & a & st1 & r & Htok & Hv & _ & _ & _ & _
    & _ & _ & _ & _ & Hact & Hi & _ & ->)%token_exchange_ok Hn1 Hn2.
  rewrite (Hact Hn1 Hn2) in Hi. apply issue_tokens_ok in Hi as (tc & tok & tk1 & Hc & Hi & Hcl & Ht & _).
  do 2 eexists. exists (request tc (exchange_issue now t client proof claims None scopes s a)), tok, (ep_tok st1), tk1.
  split_and!; try done. rewrite Hcl, access_claims_lookup by (unfold PROTECTED_CLAIMS; left; decide_now). done.
Qed.
End issues.

(** an audience is made of known resource servers the client may target.
    It allows offline access only when all of them do, its lifetime is at most
    that of each, its signing algorithm is the one each server that names one
    asks for, and its permissions are those the user's roles have on them. *)
Theorem audience_resolved dir t client requested roles a :
  resolve_audience dir t client requested roles = Ok a ->
  exists servers,
    Forall2 (serves_audience dir t client) (wanted_audiences client requested) servers
    /\ au_audiences a = rs_identifier <$> servers /\ au_resource_server_ids a = rs_id <$> servers
    /\ (au_offline_allowed a = true <-> forall rs, rs ∈ servers -> rs_allow_offline_access rs = true)
    /\ (forall rs ttl, rs ∈ servers -> rs_token_ttl_secs rs = Some ttl ->
         exists t, au_ttl_override a = Some t /\ t <= Z.max ttl 1)
    /\ (forall rs s, rs ∈ servers -> rs_signing_alg rs = Some s ->
         is_Some (au_signing_alg a) /\ parse_alg s = au_signing_alg a)
    /\ (forall p, p ∈ au_permissions a -> exists rs, rs ∈ servers /\ p ∈ d_permissions dir t (rs_id rs) roles).
Proof.
  intros (servers & Hf & Ha & Heq)%resolve_audience_ok. exists servers. rewrite Heq.
  cbn [au_audiences au_resource_server_ids au_offline_allowed au_ttl_override au_signing_alg au_permissions].
  split_and!; try done.
  - rewrite forallb_forall. by setoid_rewrite list_elem_of_In.
  - intros rs ttl Hin Ht. apply min_ttl_le. right. by exists rs, ttl.
  - intros rs s Hin Hs. unfold agreed_signing_alg in Ha. apply agree_iff in Ha as [Hall _].
    apply (Hall (rs_identifier rs)). apply list_elem_of_fmap. exists rs. by rewrite Hs.
  - intros p Hp. apply audience_permissions_elem in Hp as [Hp|Hp]; [by apply not_elem_of_nil in Hp|done].
Qed.

(** ** A code presented twice *)

Section replay.
Context `{ValkeyLaws} `{Counters} `{UuidDisplay} `{KeyEncryptor} `{Jwts}.
Context `{!Serde SsoSession} `{!Serde Map} `{!Serde string} `{!Serde AuthCode} `{!Serde CodeGrant} `{!Serde DeviceRecord}.
Context (print_value : Value -> string) (parse_f64 : string -> option Value) (user_json : User -> Value).
Context (render : string -> Value -> option string) (json_text : string -> Value).
Context (sha256 : list Z -> list Z) (sha384 : list Z -> list Z) (sha512 : list Z -> list Z) (b64 : list Z -> string).
Context (uuid_bytes : Uuid -> list Z) (url_host : string -> option string) (url_fragment : string -> option bool).
Context (rsa_ok : list Z -> bool) (one_mark : raw).
Context (dir : Directory).

Abbreviation issue_access := (issue_access_token print_value parse_f64 user_json render sha256 b64 uuid_bytes rsa_ok).
Abbreviation issue_all := (issue_tokens print_value parse_f64 user_json render sha256 sha384 sha512 b64 uuid_bytes
                             url_host rsa_ok dir).
Abbreviation code_grant := (authorization_code print_value parse_f64 user_json render json_text sha256 sha384 sha512 b64
                              uuid_bytes url_host url_fragment rsa_ok one_mark dir).

(** A key no opaque token is kept under. *)
Definition not_opaque (k : string) : Prop :=
  forall t h, opaque_access_token h <> k /\ opaque_access_token_claims t h <> k.

Lemma issue_access_app now d req st tok st' :
  issue_access now d dir req st = (Ok tok, st') ->
  refresh_rows (tk_app st') = refresh_rows (tk_app st)
  /\ forall k, not_opaque k -> forall n, vget n k (tk_redis st') = vget n k (tk_redis st).
Proof.
  unfold issue_access_token. case_bool_decide; intros E; inv_run.
  - match goal with Ho : opaque_issue _ _ _ _ _ _ _ = _ |- _ => apply opaque_issue_run in Ho as (t & _ & -> & ->) end.
    split; [done|]. intros k Hk n. unfold tk_redis. cbn. rewrite vget_set_ne by apply (Hk 0). rewrite vget_set_ne by apply Hk.
    done.
  - match goal with Hk : signing_key _ _ _ _ _ _ _ = _ |- _ => apply on_keys_app in Hk end.
    match goal with Hs : sign _ _ _ _ _ _ = _ |- _ => apply sign_app in Hs end. unfold tk_redis. split; congruence.
Qed.

(** What is remembered of a code. *)
Lemma issue_tokens_remembers now d i h st resp st' :
  i_code_for_hash i = Some h ->
  issue_all now d i st = (Ok resp, st') ->
  exists tc tok tk1 refresh,
    issue_access now (ed_access d) dir (access_request dir tc i) (ep_tok st) = (Ok tok, tk1)
    /\ r_access_token resp = tok_token tok /\ r_refresh_token resp = is_token <$> refresh
    /\ (forall k n, not_opaque k -> k <> code_family (tn_id (i_tenant i)) h -> vget n k (ep_redis st') = vget n k (ep_redis st))
    /\ (forall n, now <= n -> vget n (code_family (tn_id (i_tenant i)) h) (ep_redis st')
         = if n <? now + 600 * 1000
           then Some (to_json (mkCodeGrant (rt_family_id ∘ is_record <$> refresh) (str_claim (tok_claims tok) "jti")
                                 (tok_expires_at tok)))
           else None)
    /\ match refresh with
       | Some issued => is_record issued ∈ refresh_rows (ep_app st')
           /\ in_family (tn_id (i_tenant i)) (ed_family d) (is_record issued)
       | None => True
       end.
Proof.
  intros Hh. unfold issue_tokens. intros Hi. inv_run.
  match goal with Hm : remember_code _ _ _ _ _ = _ |- _ =>
    unfold remember_code in Hm; rewrite Hh in Hm; injection Hm as _ <- end.
  match goal with Ho : on_tok (issue_access _ _ _ _) _ = _ |- _ => apply on_tok_ok in Ho as (tk1 & Hat & ->) end.
  match goal with Hr : issue_refresh_token _ _ _ _ _ _ _ _ = (Ok ?r, ?s) |- _ =>
    apply issue_refresh_token_ok in Hr as [Hdb Hrow] end.
  destruct (issue_access_app _ _ _ _ _ _ Hat) as [_ Hkeep].
  match goal with Hid : match i_subject i with _ => _ end ?s1 = (Ok _, ?s2) |- _ =>
    assert (ep_redis s2 = ep_redis s1) as Hid2 end.
  { destruct (i_subject i); inv_run; [|done]. destruct (existsb _ _); inv_run; [|done].
    match goal with Ho : on_tok (issue_id_token _ _ _ _ _ _ _ _ _ _ _ _ _ _) _ = _ |- _ => apply on_tok_ok in Ho as (tk2 & Hid3 & ->) end.
    apply issue_id_app in Hid3. unfold ep_redis, ep_app. cbn. by rewrite Hid3. }
  do 4 eexists. split_and!; [exact Hat|done|done|..].
  - intros k n Hk Hne. unfold ep_redis at 1. cbn. rewrite vget_set_ne by done. rewrite Hdb, Hid2. by apply Hkeep.
  - intros n Hn. unfold ep_redis at 1. cbn. by rewrite vget_set by lia.
  - match goal with |- match ?r with _ => _ end => destruct r; [|done] end. done.
Qed.

Lemma code_keys_not_opaque t h : not_opaque (auth_code t h) /\ not_opaque (code_family t h).
Proof. split; intros t' h'; split; intros E; by key_inv. Qed.

Lemma consume_some_length now db t code c db' :
  consume (sha_str sha256) b64 now db t code = (Some c, db') -> code <> ""%string /\ Z.of_nat (String.length code) <= 128.
Proof.
  unfold consume. destruct (bool_decide (code = ""%string) || _) eqn:E; [done|]. bool_hyps. intros _. split; [done|lia].
Qed.

(** A code that was consumed is not found again, in a store that changed at
    other keys only. *)
Lemma consume_again now db t code c db0 now' db1 :
  let k := auth_code t (code_hash (sha_str sha256) b64 code) in
  consume (sha_str sha256) b64 now db t code = (Some c, db0) ->
  (forall n, vget n k db1 = vget n k db0) ->
  consume (sha_str sha256) b64 now' db1 t code = (None, vdel now' k db1).
Proof.
  intros k Hc Hsame. destruct (consume_some_length _ _ _ _ _ _ Hc) as [Hne Hlen].
  pose proof (consume_makes_absent (sha_str sha256) b64 now t code db Hne Hlen now') as Ha. rewrite Hc in Ha. cbn [snd] in Ha.
  unfold consume, vgetdel. rewrite bool_decide_eq_false_2 by done. rewrite (proj2 (Z.ltb_ge _ _) Hlen). cbn [orb].
  fold k. rewrite Hsame. unfold k. by rewrite Ha.
Qed.

(** The replay: nothing under the code, a grant under its family. *)
Lemma revoke_replayed_run now t code g st :
  vget now (code_family (tn_id t) (code_hash (sha_str sha256) b64 code)) (ep_redis st) = Some (to_json g) ->
  let st' := (revoke_replayed sha256 b64 one_mark now t code st).2 in
  (revoke_replayed sha256 b64 one_mark now t code st).1 = Ok tt
  /\ (forall jti, cg_access_jti g = Some jti -> exists db,
       ep_redis st' = deny one_mark now (tn_id t) jti (cg_access_expires_at g) db)
  /\ (forall f, cg_family_id g = Some f ->
       refresh_rows (ep_app st') = (RefreshRepo.revoke_family now (tn_id t) f (refresh_rows (ep_app st))).1).
Proof.
  intros Hg. cbv zeta. unfold revoke_replayed, vgetdel. rewrite Hg. cbn [mbind option_bind]. rewrite from_to_json.
  destruct (cg_family_id g) as [f|], (cg_access_jti g) as [jti|]; cbn; split_and!; try done.
  all: try (intros ? [= <-]); try done; by eexists.
Qed.

Lemma authorization_code_replayed now d t client params proof st code redirect_uri verifier db :
  one params "code" = Ok (Some code) -> one params "redirect_uri" = Ok redirect_uri ->
  one params "code_verifier" = Ok verifier ->
  consume (sha_str sha256) b64 now (ep_redis st) (tn_id t) code = (None, db) ->
  (revoke_replayed sha256 b64 one_mark now t code (ep_with_redis st db)).1 = Ok tt ->
  code_grant now d t client params proof st
  = (Err (oerr InvalidGrant "invalid authorization code"),
     (revoke_replayed sha256 b64 one_mark now t code (ep_with_redis st db)).2).
Proof.
  intros Hc Hr Hv Hcons Hok. unfold authorization_code, bind, lift. rewrite Hc. cbn [ok_or]. rewrite Hr, Hv, Hcons.
  destruct (revoke_replayed _ _ _ _ _ _ _) as [r s] eqn:E. cbn [fst] in Hok. by subst.
Qed.

(** C19: a code presented a second time, by anybody and for ten minutes, is
    refused and takes back what it bought: the access token is denied until it
    expires, and every refresh token of the family it started is revoked. *)
Theorem code_replay_revokes now d t client params proof st resp st1 code :
  code_grant now d t client params proof st = (Ok resp, st1) ->
  one params "code" = Ok (Some code) ->
  forall now' d' client' params' proof' redirect_uri verifier,
  now <= now' < now + 600 * 1000 ->
  one params' "code" = Ok (Some code) -> one params' "redirect_uri" = Ok redirect_uri ->
  one params' "code_verifier" = Ok verifier ->
  exists req tok tk tk' st2,
    issue_access now (ed_access d) dir req tk = (Ok tok, tk') /\ r_access_token resp = tok_token tok
    /\ code_grant now' d' t client' params' proof' st1 = (Err (oerr InvalidGrant "invalid authorization code"), st2)
    /\ (forall n, now' <= n < now' + num_seconds (tok_expires_at tok - now') * 1000 ->
         denied_claims n t (ep_tok st2) default_options (tok_claims tok) = true)
    /\ (is_Some (r_refresh_token resp) -> family_dead (tn_id t) (ed_family d) (refresh_rows (ep_app st2))).
Proof.
  intros (code0 & ru & v & c & extra & req & s & a & st0 & Hcode & _ & _ & Hcons & _ & _ & _ & _ & _ & Htok
    & Hi)%authorization_code_ok Hcode' now' d' client' params' proof' ru' v' Hn Hc' Hr' Hv'.
  rewrite Hcode in Hcode'. injection Hcode' as ->. set (h := code_hash (sha_str sha256) b64 code).
  destruct (consume _ _ _ _ _ code) as [o db0] eqn:Ec in Hcons, Htok. cbn [fst snd] in Hcons, Htok. subst o.
  apply issue_tokens_remembers with (h := h) in Hi as (tc & tok & tk1 & refresh & Hat & Hrt & Hrr & Hkeep & Hfam & Hrow); [|done].
  cbn [i_tenant code_issue] in Hkeep, Hfam, Hrow. destruct (code_keys_not_opaque (tn_id t) h) as [Hna _].
  assert (consume (sha_str sha256) b64 now' (ep_redis st1) (tn_id t) code = (None, vdel now' (auth_code (tn_id t) h) (ep_redis st1)))
    as Hcons2.
  { eapply consume_again; [exact Ec|]. fold h. intros n. rewrite Hkeep; [|done|intros E; by key_inv].
    unfold ep_redis, ep_app. by rewrite Htok. }
  set (st1' := ep_with_redis st1 (vdel now' (auth_code (tn_id t) h) (ep_redis st1))).
  destruct (issue_access_claims _ _ _ _ _ _ _ _ _ _ _ _ _ _ _ Hat) as [Hcl _].
  assert (str_claim (tok_claims tok) "jti" = Some (uuid_str (td_jti (ed_access d)))) as Hjti.
  { unfold str_claim. rewrite Hcl, access_claims_lookup by (unfold PROTECTED_CLAIMS; left; decide_now). done. }
  set (g := mkCodeGrant (rt_family_id ∘ is_record <$> refresh) (str_claim (tok_claims tok) "jti") (tok_expires_at tok)) in *.
  destruct (revoke_replayed_run now' t code g st1') as (Hok & Hden & Hrev).
  { unfold st1', ep_redis at 1. cbn. rewrite vget_del_ne by (intros E; by key_inv). fold h. rewrite Hfam by lia.
    by rewrite (proj2 (Z.ltb_lt now' _)) by lia. }
  exists (access_request dir tc (code_issue json_text sha256 b64 t client proof code c s a)), tok, (ep_tok st0), tk1.
  eexists. split; [done|]. split; [done|]. split.
  { eapply authorization_code_replayed; [done..|]. exact Hok. }
  split.
  - intros n Hd. unfold denied_claims. cbn [vo_check_denylist default_options andb]. rewrite Hjti.
    destruct (Hden _ Hjti) as [db E]. unfold tk_redis. change (redis (tk_app (ep_tok ?s))) with (ep_redis s).
    unfold st1' in E. rewrite E. apply deny_denies; cbn [cg_access_expires_at g]; lia.
  - intros Hs. rewrite Hrr in Hs. destruct refresh as [issued|]; [|by destruct Hs]. destruct Hrow as [Hin Hinf].
    unfold st1' in Hrev. rewrite (Hrev (ed_family d)); [|cbn; f_equal; apply Hinf].
    by eapply revoke_family_dead.
Qed.
End replay.

(** ** A deployment *)

(** What Valkey keeps for the endpoint. *)
Inductive TeRaw :=
| TeMap (m : Map) | TeText (s : string) | TeSession (s : SsoSession) | TeCode (c : AuthCode) | TeGrant (g : CodeGrant)
| TeDevice (r : DeviceRecord) | TeOne.
Definition te_valkey : Valkey := map_valkey (R := TeRaw).
Definition te_serde {A} (inj : A -> TeRaw) (proj : TeRaw -> option A) (E : forall a, proj (inj a) = Some a) : @Serde te_valkey A :=
  {| to_json a := inj a : @raw te_valkey; from_json r := proj r; from_to_json := E |}.
Definition te_map := te_serde TeMap (fun r => match r with TeMap m => Some m | _ => None end) (fun _ => eq_refl).
Definition te_text := te_serde TeText (fun r => match r with TeText m => Some m | _ => None end) (fun _ => eq_refl).
Definition te_session := te_serde TeSession (fun r => match r with TeSession m => Some m | _ => None end) (fun _ => eq_refl).
Definition te_code := te_serde TeCode (fun r => match r with TeCode m => Some m | _ => None end) (fun _ => eq_refl).
Definition te_grant := te_serde TeGrant (fun r => match r with TeGrant m => Some m | _ => None end) (fun _ => eq_refl).
Definition te_device := te_serde TeDevice (fun r => match r with TeDevice m => Some m | _ => None end) (fun _ => eq_refl).

(** One resource server, with a short lifetime; a public client that takes
    opaque tokens bound to its DPoP key. *)
Definition te_api : string := "https://api.example".
Definition te_dir : Directory :=
  mkDirectory (fun slug => ("https://id.example/t/" ++ slug)%string) (fun _ => mkProfileSchema [] false)
    (fun _ => [mkScope 2 "orders:read" [] (Some 20) false; mkScope 3 "offline_access" [] None false]) (fun _ _ => None)
    (fun _ _ => []) (fun _ u => if u =? 5 then Some tx_user else None) (fun _ _ _ => [mkRole 6 None "clerk"]) (fun _ _ => [])
    (fun _ id => if String.eqb id te_api then Some (mkResourceServer 20 te_api (Some 120) (Some "EdDSA"%string) true false) else None)
    (fun _ _ => None) (fun _ _ _ => ["orders:list"%string]).
Definition te_client : Client :=
  mkClient 3 "app" AuthNone [] [grants.AUTHORIZATION_CODE; grants.REFRESH_TOKEN; grants.TOKEN_EXCHANGE]
    ["orders:read"%string] [te_api] None None None Opaque Public None false true false NoProfile None.
Definition te_verifier : string := str_of_bytes (replicate 43 97).
Definition te_record : AuthCode :=
  mkAuthCode 1 3 "app" 5 9 "https://app.example/cb" ["orders:read"; "offline_access"]%string [te_api] None (Some te_verifier) 0 ["pwd"%string] None None
    (Some (mkActing "admin" 100000)) None 0.
Definition te_proof : SenderProof := mkSenderProof (Some "key"%string) None.
Definition te_draw (n : Z) : EpDraw :=
  mkEpDraw (mkTokenDraw n [n] (mkKeyDraw (tx_keygen "A") 10 (ex_rnd 3))) tx_draw (mkRtRng [n] n) n.
Definition te_params : RawParams :=
  [("grant_type", "authorization_code"); ("code", "C"); ("redirect_uri", "https://app.example/cb");
   ("code_verifier", te_verifier)]%string.
Definition te_state : @EpState te_valkey map_counters tx_encryptor :=
  @mkEpState te_valkey map_counters tx_encryptor
    (@mkTokenState te_valkey tx_encryptor
       (mkAppState te_valkey
          (@issue_code te_valkey toy_uuid te_code (sha_str (fun l => l)) sx_b64 0 (ascii_bytes "C") (∅ : gmap string _) te_record).2
          [] [] ∅ [])
       (@mkKeyStore tx_encryptor [] tx_node [])) (∅ : gmap string _) [] None.

Local Existing Instances te_valkey map_valkey_laws map_counters toy_uuid tx_encryptor tx_jwts te_map te_text te_session te_code
  te_grant te_device.
Definition te_json (s : string) : Value := VObject [("sub"%string, VString s)].
Abbreviation id_sha := (fun l : list Z => l).

Definition te_code_run (now n : Z) (params : RawParams) (st : EpState) :=
  authorization_code tx_print (fun _ => None) (fun _ => VNull) (fun _ _ => None) te_json id_sha id_sha id_sha sx_b64
    (fun u => [u]) (fun _ => None) (fun _ => Some false) (fun _ => true) TeOne te_dir now (te_draw n) tx_tenant te_client params
    te_proof st.

Example te_code_tokens :
  result_map (fun r => (r_access_token r, r_refresh_token r, r_expires_in r, r_scope r)) (te_code_run 1000 80 te_params te_state).1
  = Ok ("at_P", Some "rt_P", 99, Some "orders:read offline_access")%string.
Proof. vm_compute. reflexivity. Qed.

Definition te_after : EpState := (te_code_run 1000 80 te_params te_state).2.
Definition te_refresh_params : RawParams := [("refresh_token", "rt_P"); ("scope", "orders:read")]%string.
Definition te_refresh_run : result OAuthError TokenResponse * EpState :=
  refresh_grant tx_print (fun _ => None) (fun _ => VNull) (fun _ _ => None) te_json id_sha id_sha id_sha sx_b64
    (fun u => [u]) (fun _ => None) (fun _ => Some false) (fun _ => true) te_dir 2000 (te_draw 81) tx_tenant te_client
    te_refresh_params te_proof te_after.
Definition te_exchange_params : RawParams := [("subject_token", "at_P"); ("subject_token_type", ACCESS_TOKEN_TYPE)]%string.
Definition te_exchange_run : result OAuthError TokenResponse * EpState :=
  token_exchange tx_print (fun _ => None) (fun _ => VNull) (fun _ _ => None) id_sha id_sha id_sha sx_b64
    (fun u => [u]) (fun _ => None) (fun _ => Some false) (fun _ => true) te_dir 2000 (te_draw 82) tx_tenant te_client
    te_exchange_params te_proof te_after.
Definition te_handle_run : result OAuthError TokenResponse * EpState :=
  handle tx_print (fun _ => None) (fun _ => VNull) (fun _ _ => None) te_json id_sha id_sha id_sha sx_b64
    (fun u => [u]) (fun _ => None) (fun _ => Some false) (fun _ => true) TeOne te_dir 1000 (te_draw 80) (fun _ => None) tx_tenant
    te_client (Ok (Some (mkDpopProof true (Ok "key"%string)))) None te_params te_state.

Example te_other_tokens :
  result_map (fun r => (r_access_token r, r_refresh_token r, r_expires_in r, r_scope r)) te_refresh_run.1
    = Ok ("at_Q", Some "rt_Q", 98, Some "orders:read")%string
  /\ result_map (fun r => (r_access_token r, r_refresh_token r, r_expires_in r, r_scope r)) te_exchange_run.1
    = Ok ("at_R", None, 98, Some "orders:read")%string
  /\ result_map r_token_type te_handle_run.1 = Ok "DPoP"%string.
Proof. vm_compute. done. Qed.

Lemma te_finds : finds_by_identifier te_dir.
Proof. intros t id rs. cbn. destruct (String.eqb id te_api) eqn:E; [|done]. apply String.eqb_eq in E. by intros [= <-]. Qed.

(** A run of the example deployment that ends well. *)
Ltac te_ends_well E :=
  match goal with
  | |- context [exists resp st', ?run = (Ok resp, st') /\ _] =>
      let resp := fresh "resp" in let st' := fresh "st'" in
      destruct run as [[resp|] st'] eqn:E;
      [|exfalso; apply (f_equal (fun p => is_ok p.1)) in E; vm_compute in E; discriminate E];
      exists resp, st'; split; [done|]
  end.

Lemma every_token_bound_witness :
  exists resp st', te_handle_run = (Ok resp, st') /\ exists tok, r_access_token resp = tok_token tok
    /\ cnf_key (tok_claims tok) "jkt" = Some "key"%string.
Proof.
  te_ends_well E.
  destruct (every_token_bound _ _ _ _ _ _ _ _ _ _ _ _ _ _ _ _ _ _ _ _ _ _ _ _ _ _ E)
    as (g & req & tok & tk & tk' & _ & _ & _ & Ht & _ & _ & _ & _ & _ & _ & Hd & _).
  exists tok. split; [exact Ht|]. apply Hd. by eexists.
Defined.

Lemma code_exchange_sound_witness :
  exists resp st', te_code_run 1000 80 te_params te_state = (Ok resp, st') /\ exists c, c_client_id c = cl_id te_client.
Proof.
  te_ends_well E.
  destruct (code_exchange_sound _ _ _ _ _ _ _ _ _ _ _ _ _ _ _ _ _ _ _ _ _ _ _ _ te_finds E)
    as (code & v & extra & c & u & req & tok & tk & tk' & _ & _ & _ & _ & _ & Hck & _).
  exists c. exact (cc_client _ _ _ _ _ _ _ _ _ Hck).
Defined.

Lemma refresh_within_grant_witness :
  exists resp st', te_refresh_run = (Ok resp, st')
    /\ exists req : AccessTokenRequest, at_session_id req = Some 9 /\ forall x, x ∈ at_scopes req -> x ∈ c_scopes te_record.
Proof.
  te_ends_well E.
  destruct (refresh_within_grant _ _ _ _ _ _ _ _ _ _ _ _ _ _ _ _ _ _ _ _ _ _ _ te_finds E)
    as (pr & rs & scs & cur & req & tok & tk & tk' & Hpr & Hf & _ & _ & _ & _ & _ & _ & Hs & _ & Hsc & _).
  vm_compute in Hpr. injection Hpr as <-.
  assert (match RefreshRepo.find_by_hash (tn_id tx_tenant) (sha_str id_sha "rt_P") (refresh_rows (ep_app te_after)) with
          | Some cur => Some (rt_session_id cur, rt_scopes cur) | None => None end = Some (Some 9, c_scopes te_record)) as Hx
    by (vm_compute; reflexivity).
  rewrite Hf in Hx. injection Hx as Hx1 Hx2. exists req. rewrite Hx1 in Hs. rewrite Hx2 in Hsc. by split.
Defined.

Lemma exchange_narrows_witness :
  exists resp st', te_exchange_run = (Ok resp, st') /\ r_refresh_token resp = None
    /\ exists tok, r_access_token resp = tok_token tok
    /\ forall x, x ∈ aud_list (tok_claims tok !! "aud"%string) -> x = te_api.
Proof.
  te_ends_well E.
  destruct (exchange_narrows _ _ _ _ _ _ _ _ _ _ _ _ _ _ _ _ _ _ _ _ _ _ te_finds E)
    as (token & claims & req & tok & tk & tk' & _ & _ & _ & Ht & _ & _ & _ & _ & Ha & _ & _ & Hr).
  split; [exact Hr|]. exists tok. split; [exact Ht|]. intros x Hx.
  assert (mapper_audiences (d_mappers te_dir (tn_id tx_tenant) te_client) = []) as Em by reflexivity.
  assert (cl_allowed_audiences te_client = [te_api]) as Ea by reflexivity.
  destruct (Ha x Hx) as [Hy|Hy]; [rewrite Ea in Hy|rewrite Em in Hy].
  - exact (proj1 (list_elem_of_singleton _ _) Hy).
  - destruct (not_elem_of_nil _ Hy).
Defined.

(** The subject token is the administrator's, the new one nobody's. *)
Lemma exchange_drops_actor_witness :
  exists resp st', te_exchange_run = (Ok resp, st')
    /\ exists (claims : Map) tok, claims !! "act"%string = Some (te_json "admin") /\ tok_claims tok !! "act"%string = None.
Proof.
  te_ends_well E.
  destruct (exchange_drops_actor _ _ _ _ _ _ _ _ _ _ _ _ _ _ _ _ _ _ _ _ _ _ E eq_refl eq_refl)
    as (token & claims & req & tok & tk & tk' & Htok & Hv & _ & _ & _ & Ha).
  vm_compute in Htok. injection Htok as <-. exists claims, tok. split; [|exact Ha].
  assert (result_map (fun c : Map => c !! "act"%string)
            (verify_access id_sha sx_b64 2000 te_dir tx_tenant (ep_tok te_after) "at_P" default_options)
          = Ok (Some (te_json "admin"))) as Hx by (vm_compute; reflexivity).
  rewrite Hv in Hx. cbn in Hx. by injection Hx.
Defined.

Lemma audience_resolved_witness :
  exists a, resolve_audience te_dir 1 te_client [] [6] = Ok a /\ exists t, au_ttl_override a = Some t /\ t <= 120.
Proof.
  destruct (resolve_audience te_dir 1 te_client [] [6]) as [a|] eqn:E; [|exfalso; vm_compute in E; discriminate E].
  exists a. split; [done|]. destruct (audience_resolved _ _ _ _ _ _ E) as (servers & Hf & _ & _ & _ & Ht & _).
  apply Forall2_cons_inv_l in Hf as (rs & rest & [Hrs _] & _ & ->). vm_compute in Hrs. injection Hrs as <-.
  destruct (Ht _ 120 (list_elem_of_here _ _) eq_refl) as (t & Ha & Hle). exists t. split; [exact Ha|lia].
Defined.

(** The code is presented again after a minute. *)
Lemma code_replay_revokes_witness :
  exists resp st', te_code_run 1000 80 te_params te_state = (Ok resp, st')
    /\ (te_code_run 61000 81 te_params st').1 = Err (mkOAuthError InvalidGrant "invalid authorization code")
    /\ family_dead 1 80 (refresh_rows (ep_app (te_code_run 61000 81 te_params st').2)).
Proof.
  assert (result_map (fun r => bool_decide (is_Some (r_refresh_token r))) (te_code_run 1000 80 te_params te_state).1 = Ok true) as Hx
    by (vm_compute; reflexivity).
  te_ends_well E. cbn in Hx. injection Hx as Hx%bool_decide_eq_true.
  destruct (code_replay_revokes _ _ _ _ _ _ _ _ _ _ _ _ _ _ _ _ _ _ _ _ _ _ _ _ "C" E eq_refl
              61000 (te_draw 81) te_client te_params te_proof (Some (c_redirect_uri te_record)) (Some te_verifier))
    as (req & tok & tk & tk' & st2 & _ & _ & Hr & _ & Hd);
    [lia|vm_compute; reflexivity..|].
  unfold te_code_run in *. rewrite Hr. split; [reflexivity|]. by apply Hd.
Defined.
