(* ===== verification/Access.v ===== *)
(** * Roles, groups and administrators

    [api/src/services/roles.rs], [services/groups.rs] and
    [services/admin_access.rs] over their repositories, the checks of
    [middleware/admin.rs], and the handlers of [routes/admin/] that hand out
    access ([users.rs], [groups.rs], [roles.rs]). Resolved roles and
    permissions are cached under version tokens that every change replaces;
    the cache is left out. Descriptions, attributes and time stamps of rows,
    listings and pages are left out too. *)

From stdpp Require Import gmap strings sorting relations.
From Stdlib Require Import Ascii.
From S2P Require Import Prelude Effects Utf8 Valkey AppState ApiErrors Models Profile Users Claims.

(** ** Rows *)

Record RoleRow := mkRoleRow {
  rr_id : Uuid; rr_tenant_id : Uuid; rr_client_id : option Uuid; rr_name : string; rr_built_in : bool
}.
Record GroupRow := mkGroupRow { gr_id : Uuid; gr_tenant_id : Uuid; gr_parent_id : option Uuid; gr_name : string }.
Record GroupMember := mkGroupMember { gm_tenant_id : Uuid; gm_group_id : Uuid; gm_user_id : Uuid }.
(** Who a role is assigned to. *)
Inductive Principal := PUser (id : Uuid) | PGroup (id : Uuid).
Record RoleAssignment := mkRoleAssignment {
  as_tenant_id : Uuid; as_role_id : Uuid; as_principal : Principal; as_org_id : option Uuid
}.
Record Composite := mkComposite { co_tenant_id : Uuid; co_parent : Uuid; co_child : Uuid }.
Record Permission := mkPermission { pe_id : Uuid; pe_tenant_id : Uuid; pe_resource_server_id : Uuid; pe_name : string }.
Record PermissionAssignment := mkPermissionAssignment { pa_tenant_id : Uuid; pa_role_id : Uuid; pa_permission_id : Uuid }.
Record ServerRow := mkServerRow { rs_id : Uuid; rs_tenant_id : Uuid; rs_identifier : string; rs_built_in : bool }.

#[export] Instance principal_dec : EqDecision Principal.
Proof. solve_decision. Defined.
#[export] Instance group_member_dec : EqDecision GroupMember.
Proof. solve_decision. Defined.
#[export] Instance role_assignment_dec : EqDecision RoleAssignment.
Proof. solve_decision. Defined.
#[export] Instance composite_dec : EqDecision Composite.
Proof. solve_decision. Defined.
#[export] Instance permission_assignment_dec : EqDecision PermissionAssignment.
Proof. solve_decision. Defined.

Inductive AccessEvent :=
| RoleCreated (role : Uuid)
| RoleUpdated (role : Uuid)
| RoleDeleted (role : Uuid)
| RoleAssigned (role : Uuid) (p : Principal)
| RoleUnassigned (role : Uuid) (p : Principal)
| RoleCompositeAdded (parent child : Uuid)
| RoleCompositeRemoved (parent child : Uuid)
| GroupCreated (group : Uuid)
| GroupUpdated (group : Uuid)
| GroupDeleted (group : Uuid)
| GroupMemberAdded (group user : Uuid)
| GroupMemberRemoved (group user : Uuid)
| PermissionGranted (role permission : Uuid)
| PermissionRevoked (role permission : Uuid).

Record Access := mkAccess {
  ad_users : list UserRow;
  ad_roles : list RoleRow;
  ad_groups : list GroupRow;
  ad_members : list GroupMember;
  ad_assignments : list RoleAssignment;
  ad_composites : list Composite;
  ad_permissions : list Permission;
  ad_granted : list PermissionAssignment;
  ad_servers : list ServerRow;
  ad_events : list (Uuid * Actor * AccessEvent)
}.
Definition ad_with_roles (st : Access) rows : Access :=
  mkAccess (ad_users st) rows (ad_groups st) (ad_members st) (ad_assignments st) (ad_composites st) (ad_permissions st)
    (ad_granted st) (ad_servers st) (ad_events st).
Definition ad_with_groups (st : Access) rows : Access :=
  mkAccess (ad_users st) (ad_roles st) rows (ad_members st) (ad_assignments st) (ad_composites st) (ad_permissions st)
    (ad_granted st) (ad_servers st) (ad_events st).
Definition ad_with_members (st : Access) rows : Access :=
  mkAccess (ad_users st) (ad_roles st) (ad_groups st) rows (ad_assignments st) (ad_composites st) (ad_permissions st)
    (ad_granted st) (ad_servers st) (ad_events st).
Definition ad_with_assignments (st : Access) rows : Access :=
  mkAccess (ad_users st) (ad_roles st) (ad_groups st) (ad_members st) rows (ad_composites st) (ad_permissions st)
    (ad_granted st) (ad_servers st) (ad_events st).
Definition ad_with_composites (st : Access) rows : Access :=
  mkAccess (ad_users st) (ad_roles st) (ad_groups st) (ad_members st) (ad_assignments st) rows (ad_permissions st)
    (ad_granted st) (ad_servers st) (ad_events st).
Definition ad_with_granted (st : Access) rows : Access :=
  mkAccess (ad_users st) (ad_roles st) (ad_groups st) (ad_members st) (ad_assignments st) (ad_composites st)
    (ad_permissions st) rows (ad_servers st) (ad_events st).
Definition ad_publish (tenant : Uuid) (a : Actor) (e : AccessEvent) : M Access ApiError unit := modify (fun st =>
  mkAccess (ad_users st) (ad_roles st) (ad_groups st) (ad_members st) (ad_assignments st) (ad_composites st)
    (ad_permissions st) (ad_granted st) (ad_servers st) (ad_events st ++ [(tenant, a, e)])).

(** ** Recursive queries

    [WITH RECURSIVE r AS (SELECT id, 0 ... UNION SELECT next, depth + 1 ...
    WHERE depth < 64)]: the rows by depth, each level the images of the one
    before. *)
Definition MAX_DEPTH : nat := 64.
Fixpoint levels (next : Uuid -> list Uuid) (n : nat) (level : list Uuid) : list Uuid :=
  match n with
  | O => level
  | S n => level ++ levels next n (remove_dups (level ≫= next))
  end.
Definition recursive (next : Uuid -> list Uuid) (seed : list Uuid) : list Uuid := remove_dups (levels next MAX_DEPTH seed).

(** ** The statements *)

Module RoleRepo.
Definition at_row (tenant id : Uuid) (r : RoleRow) : bool := (rr_tenant_id r =? tenant) && (rr_id r =? id).
Definition find_by_id (tenant id : Uuid) (st : Access) : option RoleRow := List.find (at_row tenant id) (ad_roles st).
(** The unique index: the name among the roles of a client, or of none. *)
Definition same_name (a b : RoleRow) : bool :=
  (rr_tenant_id a =? rr_tenant_id b) && bool_decide (rr_client_id a = rr_client_id b) && String.eqb (rr_name a) (rr_name b).
Definition insert (r : RoleRow) (st : Access) : option Access :=
  if existsb (fun o => (rr_id o =? rr_id r) || same_name o r) (ad_roles st) then None
  else Some (ad_with_roles st (ad_roles st ++ [r])).
Definition renamed (name : option string) (r : RoleRow) : RoleRow :=
  mkRoleRow (rr_id r) (rr_tenant_id r) (rr_client_id r) (default (rr_name r) name) (rr_built_in r).
Definition update (tenant id : Uuid) (name : option string) (st : Access) : option (option RoleRow * Access) :=
  match find_by_id tenant id st with
  | None => Some (None, st)
  | Some r =>
      let r' := renamed name r in
      if existsb (fun o => negb (at_row tenant id o) && same_name o r') (ad_roles st) then None
      else Some (Some r', ad_with_roles st (AppState.update (at_row tenant id) (renamed name) (ad_roles st)).1)
  end.
(** The foreign keys delete what refers to the role. *)
Definition delete (tenant id : Uuid) (st : Access) : bool * Access :=
  let of_role t r := (t =? tenant) && (r =? id) in
  let st' := ad_with_roles st (filter (fun r => at_row tenant id r = false) (ad_roles st)) in
  let st' := ad_with_assignments st' (filter (fun a => of_role (as_tenant_id a) (as_role_id a) = false) (ad_assignments st)) in
  let st' := ad_with_composites st' (filter (fun c =>
               of_role (co_tenant_id c) (co_parent c) || of_role (co_tenant_id c) (co_child c) = false) (ad_composites st)) in
  let st' := ad_with_granted st' (filter (fun p => of_role (pa_tenant_id p) (pa_role_id p) = false) (ad_granted st)) in
  (bool_decide (is_Some (find_by_id tenant id st)), st').

(** [ON CONFLICT DO NOTHING]. *)
Definition assign (a : RoleAssignment) (st : Access) : bool * Access :=
  if bool_decide (a ∈ ad_assignments st) then (false, st)
  else (true, ad_with_assignments st (ad_assignments st ++ [a])).
Definition unassign (a : RoleAssignment) (st : Access) : bool * Access :=
  (bool_decide (a ∈ ad_assignments st), ad_with_assignments st (filter (fun o => o <> a) (ad_assignments st))).
Definition assignments_of (tenant : Uuid) (p : Principal) (st : Access) : list RoleAssignment :=
  filter (fun a => as_tenant_id a = tenant /\ as_principal a = p) (ad_assignments st).
Definition add_composite (c : Composite) (st : Access) : bool * Access :=
  if bool_decide (c ∈ ad_composites st) then (false, st)
  else (true, ad_with_composites st (ad_composites st ++ [c])).
Definition remove_composite (c : Composite) (st : Access) : bool * Access :=
  (bool_decide (c ∈ ad_composites st), ad_with_composites st (filter (fun o => o <> c) (ad_composites st))).

Definition children (tenant : Uuid) (st : Access) (role : Uuid) : list Uuid :=
  co_child <$> filter (fun c => co_tenant_id c = tenant /\ co_parent c = role) (ad_composites st).
Definition composite_would_cycle (tenant parent child : Uuid) (st : Access) : bool :=
  bool_decide (parent ∈ recursive (children tenant st) (children tenant st child)).
Definition expand_composites (tenant : Uuid) (ids : list Uuid) (st : Access) : list Uuid :=
  recursive (children tenant st) (rr_id <$> filter (fun r => rr_tenant_id r = tenant /\ rr_id r ∈ ids) (ad_roles st)).
End RoleRepo.

(** One of the groups; the user or one of the groups. *)
Definition is_group (groups : list Uuid) (p : Principal) : bool :=
  match p with PGroup g => bool_decide (g ∈ groups) | PUser _ => false end.
Definition is_principal (user : Uuid) (groups : list Uuid) (p : Principal) : bool :=
  match p with PUser u => u =? user | PGroup _ => is_group groups p end.

Module GroupRepo.
Definition at_row (tenant id : Uuid) (g : GroupRow) : bool := (gr_tenant_id g =? tenant) && (gr_id g =? id).
Definition find_by_id (tenant id : Uuid) (st : Access) : option GroupRow := List.find (at_row tenant id) (ad_groups st).
(** Sibling names are unique. *)
Definition siblings (a b : GroupRow) : bool :=
  (gr_tenant_id a =? gr_tenant_id b) && bool_decide (gr_parent_id a = gr_parent_id b) && String.eqb (gr_name a) (gr_name b).
Definition insert (g : GroupRow) (st : Access) : option Access :=
  if existsb (fun o => (gr_id o =? gr_id g) || siblings o g) (ad_groups st) then None
  else Some (ad_with_groups st (ad_groups st ++ [g])).
Definition moved (name : option string) (parent : option (option Uuid)) (g : GroupRow) : GroupRow :=
  mkGroupRow (gr_id g) (gr_tenant_id g) (default (gr_parent_id g) parent) (default (gr_name g) name).
Definition update (tenant id : Uuid) (name : option string) (parent : option (option Uuid)) (st : Access)
    : option (option GroupRow * Access) :=
  match find_by_id tenant id st with
  | None => Some (None, st)
  | Some g =>
      let g' := moved name parent g in
      if existsb (fun o => negb (at_row tenant id o) && siblings o g') (ad_groups st) then None
      else Some (Some g', ad_with_groups st (AppState.update (at_row tenant id) (moved name parent) (ad_groups st)).1)
  end.
(** The parent of a group that exists, itself one that exists. *)
Definition parents (tenant : Uuid) (st : Access) (id : Uuid) : list Uuid :=
  match find_by_id tenant id st ≫= gr_parent_id with
  | Some p => match find_by_id tenant p st with Some _ => [p] | None => [] end
  | None => []
  end.
Definition existing (tenant : Uuid) (st : Access) (id : Uuid) : list Uuid :=
  match find_by_id tenant id st with Some _ => [id] | None => [] end.
Definition ancestor_ids (tenant id : Uuid) (st : Access) : list Uuid :=
  levels (parents tenant st) MAX_DEPTH (existing tenant st id).

Definition add_member (m : GroupMember) (st : Access) : bool * Access :=
  if bool_decide (m ∈ ad_members st) then (false, st) else (true, ad_with_members st (ad_members st ++ [m])).
Definition remove_member (m : GroupMember) (st : Access) : bool * Access :=
  (bool_decide (m ∈ ad_members st), ad_with_members st (filter (fun o => o <> m) (ad_members st))).
Definition direct_groups (tenant user : Uuid) (st : Access) : list Uuid :=
  (gm_group_id <$> filter (fun m => gm_tenant_id m = tenant /\ gm_user_id m = user) (ad_members st)) ≫= existing tenant st.
Definition effective_groups (tenant user : Uuid) (st : Access) : list Uuid :=
  recursive (parents tenant st) (direct_groups tenant user st).
(** Subgroups go with their group ([ON DELETE CASCADE]), at any depth, and so
    do memberships and assignments. *)
Definition subgroups (tenant : Uuid) (st : Access) (id : Uuid) : list Uuid :=
  gr_id <$> filter (fun g => gr_tenant_id g = tenant /\ gr_parent_id g = Some id) (ad_groups st).
Definition delete (tenant id : Uuid) (st : Access) : bool * Access :=
  let gone := levels (subgroups tenant st) (length (ad_groups st)) [id] in
  let st' := ad_with_groups st (filter (fun g => ~ (gr_tenant_id g = tenant /\ gr_id g ∈ gone)) (ad_groups st)) in
  let st' := ad_with_members st' (filter (fun m => ~ (gm_tenant_id m = tenant /\ gm_group_id m ∈ gone)) (ad_members st)) in
  let st' := ad_with_assignments st' (filter (fun a => ~ (as_tenant_id a = tenant /\ is_group gone (as_principal a) = true))
               (ad_assignments st)) in
  (bool_decide (is_Some (find_by_id tenant id st)), st').
End GroupRepo.

(** ** Resolution *)

(** [OrgScope]: which grants count. *)
Inductive OrgScope := TenantWide | InOrg (org : Uuid) | Anywhere.
Definition in_scope (s : OrgScope) (org : option Uuid) : bool :=
  match s with
  | TenantWide => bool_decide (org = None)
  | InOrg o => bool_decide (org = None) || bool_decide (org = Some o)
  | Anywhere => true
  end.

(** Roles assigned to the user or to one of the groups. *)
Definition direct_roles (tenant user : Uuid) (s : OrgScope) (groups : list Uuid) (st : Access) : list Uuid :=
  as_role_id <$> filter (fun a => as_tenant_id a = tenant /\ in_scope s (as_org_id a) = true
    /\ is_principal user groups (as_principal a) = true) (ad_assignments st).
Definition effective_ids (tenant user : Uuid) (s : OrgScope) (st : Access) : list Uuid :=
  recursive (RoleRepo.children tenant st) (direct_roles tenant user s (GroupRepo.effective_groups tenant user st) st).
(** In the order of names, then ids. *)
Definition role_le (a b : RoleRow) : Prop :=
  string_le (rr_name a) (rr_name b) /\ (rr_name a = rr_name b -> rr_id a <= rr_id b).
#[export] Instance role_le_dec a b : Decision (role_le a b).
Proof. unfold role_le. apply _. Defined.
Definition effective_roles (tenant user : Uuid) (s : OrgScope) (st : Access) : list RoleRow :=
  merge_sort role_le (filter (fun r => rr_tenant_id r = tenant /\ rr_id r ∈ effective_ids tenant user s st) (ad_roles st)).
Definition effective_role_names (tenant user : Uuid) (org : option Uuid) (st : Access) : list string :=
  rr_name <$> effective_roles tenant user (match org with Some o => InOrg o | None => TenantWide end) st.
Definition role_ids_of_group_lineage (tenant group : Uuid) (st : Access) : list Uuid :=
  let lineage := recursive (GroupRepo.parents tenant st) (GroupRepo.existing tenant st group) in
  remove_dups (as_role_id <$> filter (fun a => as_tenant_id a = tenant
    /\ is_group lineage (as_principal a) = true) (ad_assignments st)).

(** *** Permissions of the admin API *)

Definition ADMIN_AUDIENCE : string := "urn:ridm:admin".
Definition find_server (tenant : Uuid) (identifier : string) (st : Access) : option ServerRow :=
  List.find (fun r => (rs_tenant_id r =? tenant) && String.eqb (rs_identifier r) identifier) (ad_servers st).
Definition permissions_for_roles (tenant server : Uuid) (roles : list Uuid) (st : Access) : list string :=
  btree_set (pe_name <$> filter (fun p => pe_tenant_id p = tenant /\ pe_resource_server_id p = server
    /\ Exists (fun a => pa_tenant_id a = tenant /\ pa_permission_id a = pe_id p /\ pa_role_id a ∈ roles) (ad_granted st))
    (ad_permissions st)).

(** [matches]: wildcards on the granted side only. *)
Definition has_star (s : string) : bool := existsb (Ascii.eqb "*"%char) (String.list_ascii_of_string s).
Fixpoint strip_suffix (suf s : string) : option string :=
  if String.eqb s suf then Some ""%string
  else match s with String c s => String c <$> strip_suffix suf s | EmptyString => None end.
Fixpoint strip_prefix (p s : string) : option string :=
  match p, s with
  | EmptyString, _ => Some s
  | String a p, String b s => if Ascii.eqb a b then strip_prefix p s else None
  | String _ _, EmptyString => None
  end.
Definition matches (granted required : string) : bool :=
  if has_star required then false
  else if String.eqb granted required then true
  else match strip_suffix ":*" granted with
       | Some prefix =>
           match strip_prefix prefix required with
           | Some (String c (String _ _ as rest)) => Ascii.eqb c ":"%char && negb (has_star rest)
           | _ => false
           end
       | None => false
       end.
(** [PermissionSet]. *)
Definition allows (names : list string) (required : string) : bool := existsb (fun g => matches g required) names.
Definition covers (names required : list string) : bool := forallb (allows names) required.

Section catalogue.
Local Open Scope string_scope.

(** *** The catalogue and the built-in roles *)

Definition CATALOGUE : list string := [
  "ridm:tenants:read"; "ridm:tenants:write"; "ridm:tenants:create"; "ridm:tenants:delete"; "ridm:tenants:export";
  "ridm:tenants:import"; "ridm:users:read"; "ridm:users:write"; "ridm:users:impersonate"; "ridm:invitations:read";
  "ridm:invitations:write"; "ridm:groups:read"; "ridm:groups:write"; "ridm:orgs:read"; "ridm:orgs:write";
  "ridm:roles:read"; "ridm:roles:write"; "ridm:clients:read"; "ridm:clients:write"; "ridm:scopes:read";
  "ridm:scopes:write"; "ridm:mappers:read"; "ridm:mappers:write"; "ridm:resource-servers:read";
  "ridm:resource-servers:write"; "ridm:idps:read"; "ridm:idps:write"; "ridm:keys:read"; "ridm:keys:write";
  "ridm:messaging:read"; "ridm:messaging:write"; "ridm:audit:read"; "ridm:webhooks:read"; "ridm:webhooks:write";
  "ridm:scim:read"; "ridm:scim:write"
].
Inductive Grants := GAll | GAllExcept (excluded : list string) | GOnly (included : list string) | GReadOnly.
Record BuiltInRole := mkBuiltInRole { bi_name : string; bi_grants : Grants }.
Definition ends_with (suf s : string) : bool := bool_decide (is_Some (strip_suffix suf s)).
Definition permissions (r : BuiltInRole) : list string :=
  filter (fun name => match bi_grants r with
                      | GAll => true
                      | GAllExcept excluded => bool_decide (name ∉ excluded)
                      | GOnly included => bool_decide (name ∈ included)
                      | GReadOnly => ends_with ":read" name
                      end = true) CATALOGUE.
Definition OWNER_ROLE : string := "ridm:owner".
Definition ADMIN_ROLE : string := "ridm:admin".
Definition USER_MANAGER_ROLE : string := "ridm:user-manager".
Definition CLIENT_MANAGER_ROLE : string := "ridm:client-manager".
Definition ORG_ADMIN_ROLE : string := "ridm:org-admin".
Definition VIEWER_ROLE : string := "ridm:viewer".
Definition BUILT_IN_ROLES : list BuiltInRole := [
  mkBuiltInRole OWNER_ROLE GAll;
  mkBuiltInRole ADMIN_ROLE (GAllExcept [
      "ridm:tenants:create"; "ridm:tenants:delete"; "ridm:tenants:import"; "ridm:users:impersonate"]);
  mkBuiltInRole USER_MANAGER_ROLE (GOnly [
      "ridm:tenants:read"; "ridm:users:read"; "ridm:users:write"; "ridm:invitations:read";
      "ridm:invitations:write"; "ridm:groups:read"; "ridm:groups:write"; "ridm:orgs:read"; "ridm:orgs:write";
      "ridm:roles:read"; "ridm:audit:read"; "ridm:scim:read"; "ridm:scim:write"]);
  mkBuiltInRole CLIENT_MANAGER_ROLE (GOnly [
      "ridm:tenants:read"; "ridm:clients:read"; "ridm:clients:write"; "ridm:scopes:read"; "ridm:scopes:write";
      "ridm:mappers:read"; "ridm:mappers:write"; "ridm:resource-servers:read"; "ridm:resource-servers:write";
      "ridm:roles:read"; "ridm:audit:read"]);
  mkBuiltInRole ORG_ADMIN_ROLE (GOnly [
      "ridm:orgs:read"; "ridm:orgs:write"; "ridm:invitations:read"; "ridm:invitations:write"; "ridm:roles:read"]);
  mkBuiltInRole VIEWER_ROLE GReadOnly
].
Definition built_in_role (name : string) : option BuiltInRole := List.find (fun r => String.eqb (bi_name r) name) BUILT_IN_ROLES.
Definition is_known (permission : string) : bool := existsb (String.eqb permission) CATALOGUE.

End catalogue.

(** Without the resource server nothing is resolved. *)
Definition permissions_of_user (tenant user : Uuid) (s : OrgScope) (st : Access) : result ApiError (list string) :=
  let effective := effective_roles tenant user s st in
  if bool_decide (length effective = 0%nat) then Ok []
  else match find_server tenant ADMIN_AUDIENCE st with
       | Some rs => Ok (permissions_for_roles tenant (rs_id rs) (rr_id <$> effective) st)
       | None => Err (InternalError "")
       end.
Inductive Grant := GRole (id : Uuid) | GGroup (id : Uuid).
Definition permissions_of_grant (tenant : Uuid) (g : Grant) (st : Access) : list string :=
  let direct := match g with GRole id => [id] | GGroup id => role_ids_of_group_lineage tenant id st end in
  if bool_decide (direct = []) then []
  else match find_server tenant ADMIN_AUDIENCE st with
       | Some rs => permissions_for_roles tenant (rs_id rs) (RoleRepo.expand_composites tenant direct st) st
       | None => []
       end.

(** ** The services *)

Section services.
Local Open Scope string_scope.

(** [limits::ensure_room]. *)
Definition MAX_GROUPS : Z := 10000.
Definition MAX_ROLES : Z := 5000.
Definition ensure_room (count max : Z) (what : string) : M Access ApiError unit :=
  guard (max <=? count)%Z (BadRequest ("a tenant can have at most " ++ pretty max ++ " " ++ what)).

Definition valid_name (name : string) : result ApiError string :=
  let n := trim_str name in
  if String.eqb n "" || (255 <? Z.of_nat (String.length n))%Z then Err (BadRequest "name must be 1-255 characters") else Ok n.
Definition role_exists (tenant id : Uuid) : M Access ApiError unit :=
  let! r := gets (RoleRepo.find_by_id tenant id) in
  match r with Some _ => ret tt | None => throw (ApiNotFound "role") end.
Definition group_exists (tenant id : Uuid) : M Access ApiError unit :=
  let! g := gets (GroupRepo.find_by_id tenant id) in
  match g with Some _ => ret tt | None => throw (ApiNotFound "group") end.
Definition user_exists (tenant id : Uuid) : M Access ApiError unit :=
  let! u := gets (fun st => UserRepo.find_by_id tenant id (ad_users st)) in
  match u with
  | Some u => guard (negb (ur_live u)) (ApiNotFound "user")
  | None => throw (ApiNotFound "user")
  end.
Definition ran {A} (f : Access -> A * Access) : M Access ApiError A := fun st => let '(a, st) := f st in (Ok a, st).
Definition tried {A} (f : Access -> option (A * Access)) (e : ApiError) : M Access ApiError A := fun st =>
  match f st with Some (a, st) => (Ok a, st) | None => (Err e, st) end.

(** *** Roles *)

Definition create_role (id tenant : Uuid) (actor : Actor) (name : string) (client : option Uuid) : M Access ApiError RoleRow :=
  let! name := lift (valid_name name) in
  let! n := gets (fun st => zlen (filter (fun r => rr_tenant_id r = tenant) (ad_roles st))) in
  do! ensure_room n MAX_ROLES "roles" in
  let row := mkRoleRow id tenant client name false in
  do! tried (fun st => pair tt <$> RoleRepo.insert row st) (ApiConflict "a role with this name already exists") in
  do! ad_publish tenant actor (RoleCreated id) in
  ret row.
Definition ensure_not_built_in (tenant id : Uuid) : M Access ApiError unit :=
  let! r := gets (RoleRepo.find_by_id tenant id) in
  match r with
  | Some r => guard (rr_built_in r) (Forbidden "built-in roles cannot be renamed or deleted")
  | None => throw (ApiNotFound "role")
  end.
(** [update] of the name; a patch without one (or a description) reads the row. *)
Definition update_role (tenant : Uuid) (actor : Actor) (id : Uuid) (name : option string) : M Access ApiError RoleRow :=
  match name with
  | None => let! r := gets (RoleRepo.find_by_id tenant id) in lift (ok_or r (ApiNotFound "role"))
  | Some name =>
      let! name := lift (valid_name name) in
      do! ensure_not_built_in tenant id in
      let! row := tried (RoleRepo.update tenant id (Some name)) (ApiConflict "a role with this name already exists") in
      let! row := lift (ok_or row (ApiNotFound "role")) in
      do! ad_publish tenant actor (RoleUpdated id) in
      ret row
  end.
Definition delete_role (tenant : Uuid) (actor : Actor) (id : Uuid) : M Access ApiError unit :=
  do! ensure_not_built_in tenant id in
  let! ok := ran (RoleRepo.delete tenant id) in
  do! guard (negb ok) (ApiNotFound "role") in
  ad_publish tenant actor (RoleDeleted id).

Definition assign (tenant : Uuid) (actor : Actor) (role : Uuid) (p : Principal) : M Access ApiError unit :=
  do! role_exists tenant role in
  do! match p with PUser id => user_exists tenant id | PGroup id => group_exists tenant id end in
  let! added := ran (RoleRepo.assign (mkRoleAssignment tenant role p None)) in
  if (added : bool) then ad_publish tenant actor (RoleAssigned role p) else ret tt.
Definition unassign (tenant : Uuid) (actor : Actor) (role : Uuid) (p : Principal) : M Access ApiError unit :=
  let! removed := ran (RoleRepo.unassign (mkRoleAssignment tenant role p None)) in
  if (removed : bool) then ad_publish tenant actor (RoleUnassigned role p) else ret tt.
Definition add_composite (tenant : Uuid) (actor : Actor) (parent child : Uuid) : M Access ApiError unit :=
  do! guard (parent =? child)%Z (BadRequest "a role cannot contain itself") in
  do! role_exists tenant parent in
  do! role_exists tenant child in
  let! cycle := gets (RoleRepo.composite_would_cycle tenant parent child) in
  do! guard cycle (BadRequest "adding this composite would create a cycle") in
  let! added := ran (RoleRepo.add_composite (mkComposite tenant parent child)) in
  if (added : bool) then ad_publish tenant actor (RoleCompositeAdded parent child) else ret tt.
Definition remove_composite (tenant : Uuid) (actor : Actor) (parent child : Uuid) : M Access ApiError unit :=
  let! removed := ran (RoleRepo.remove_composite (mkComposite tenant parent child)) in
  if (removed : bool) then ad_publish tenant actor (RoleCompositeRemoved parent child) else ret tt.

(** [resource_servers::grant] and [revoke]. *)
Definition find_permission (tenant id : Uuid) (st : Access) : option Permission :=
  List.find (fun p => (pe_tenant_id p =? tenant)%Z && (pe_id p =? id)%Z) (ad_permissions st).
Definition not_built_in (tenant role : Uuid) : M Access ApiError unit :=
  let! r := gets (RoleRepo.find_by_id tenant role) in
  let! r := lift (ok_or r (ApiNotFound "role")) in
  guard (rr_built_in r) (Forbidden "built-in roles cannot be changed").
Definition grant_to_role (tenant : Uuid) (actor : Actor) (role permission : Uuid) : M Access ApiError unit :=
  do! not_built_in tenant role in
  let! p := gets (find_permission tenant permission) in
  let! _ := lift (ok_or p (ApiNotFound "permission")) in
  let row := mkPermissionAssignment tenant role permission in
  let! added := ran (fun st => if bool_decide (row ∈ ad_granted st) then (false, st)
                               else (true, ad_with_granted st (ad_granted st ++ [row]))) in
  if (added : bool) then ad_publish tenant actor (PermissionGranted role permission) else ret tt.
Definition revoke_from_role (tenant : Uuid) (actor : Actor) (role permission : Uuid) : M Access ApiError unit :=
  do! not_built_in tenant role in
  let row := mkPermissionAssignment tenant role permission in
  let! removed := ran (fun st => (bool_decide (row ∈ ad_granted st), ad_with_granted st (filter (fun o => o <> row) (ad_granted st)))) in
  do! guard (negb removed) (ApiNotFound "permission grant") in
  ad_publish tenant actor (PermissionRevoked role permission).

(** *** Groups *)

Definition create_group (id tenant : Uuid) (actor : Actor) (name : string) (parent : option Uuid) : M Access ApiError GroupRow :=
  let! name := lift (valid_name name) in
  do! match parent with
      | Some p => let! g := gets (GroupRepo.find_by_id tenant p) in
                  match g with Some _ => ret tt | None => throw (BadRequest "parent group does not exist") end
      | None => ret tt
      end in
  let! n := gets (fun st => zlen (filter (fun g => gr_tenant_id g = tenant) (ad_groups st))) in
  do! ensure_room n MAX_GROUPS "groups" in
  let row := mkGroupRow id tenant parent name in
  do! tried (fun st => pair tt <$> GroupRepo.insert row st) (ApiConflict "a sibling group with this name already exists") in
  do! ad_publish tenant actor (GroupCreated id) in
  ret row.
Definition check_parent (tenant id : Uuid) (parent : option (option Uuid)) : M Access ApiError unit :=
  match parent with
  | Some (Some p) =>
      do! guard (p =? id)%Z (BadRequest "a group cannot be its own parent") in
      let! up := gets (GroupRepo.ancestor_ids tenant p) in
      do! guard (bool_decide (up = [])) (BadRequest "parent group does not exist") in
      guard (bool_decide (id ∈ up)) (BadRequest "cannot move a group under one of its descendants")
  | _ => ret tt
  end.
(** [update] of the name and the parent ([Some None]: to the top level). *)
Definition update_group (tenant : Uuid) (actor : Actor) (id : Uuid) (name : option string) (parent : option (option Uuid))
    : M Access ApiError GroupRow :=
  if bool_decide (name = None) && bool_decide (parent = None)
  then let! g := gets (GroupRepo.find_by_id tenant id) in lift (ok_or g (ApiNotFound "group"))
  else
    let! name := lift (transpose valid_name name) in
    do! check_parent tenant id parent in
    let! row := tried (GroupRepo.update tenant id name parent) (ApiConflict "a sibling group with this name already exists") in
    let! row := lift (ok_or row (ApiNotFound "group")) in
    do! ad_publish tenant actor (GroupUpdated id) in
    ret row.
Definition delete_group (tenant : Uuid) (actor : Actor) (id : Uuid) : M Access ApiError unit :=
  let! ok := ran (GroupRepo.delete tenant id) in
  do! guard (negb ok) (ApiNotFound "group") in
  ad_publish tenant actor (GroupDeleted id).
Definition add_member (tenant : Uuid) (actor : Actor) (group user : Uuid) : M Access ApiError unit :=
  do! group_exists tenant group in
  do! user_exists tenant user in
  let! added := ran (GroupRepo.add_member (mkGroupMember tenant group user)) in
  if (added : bool) then ad_publish tenant actor (GroupMemberAdded group user) else ret tt.
Definition remove_member (tenant : Uuid) (actor : Actor) (group user : Uuid) : M Access ApiError unit :=
  let! removed := ran (GroupRepo.remove_member (mkGroupMember tenant group user)) in
  if (removed : bool) then ad_publish tenant actor (GroupMemberRemoved group user) else ret tt.

(** *** Administrators *)

(** [AdminCtx]: the permissions it resolved. *)
Record AdminCtx := mkAdminCtx {
  adm_user_id : Uuid;
  adm_tenant_id : Uuid;
  adm_global : bool;
  adm_permissions : list string;
  adm_org_id : option Uuid;
  adm_org_permissions : list string
}.
Definition reaches (a : AdminCtx) (tenant : Uuid) : bool := adm_global a || (adm_tenant_id a =? tenant)%Z.
Definition require (a : AdminCtx) (tenant : Uuid) (permission : string) : result ApiError unit :=
  if negb (reaches a tenant) then Err (Forbidden "this token is scoped to another tenant")
  else if allows (adm_permissions a) permission then Ok tt
  else Err (Forbidden ("missing permission `" ++ permission ++ "`")).
Definition has_in_org (a : AdminCtx) (tenant org : Uuid) (permission : string) : bool :=
  reaches a tenant
  && (allows (adm_permissions a) permission
      || (bool_decide (adm_org_id a = Some org) && allows (adm_org_permissions a) permission)).
Definition require_org (a : AdminCtx) (tenant org : Uuid) (permission : string) : result ApiError unit :=
  if negb (reaches a tenant) then Err (Forbidden "this token is scoped to another tenant")
  else if has_in_org a tenant org permission then Ok tt
  else Err (Forbidden ("missing permission `" ++ permission ++ "`")).
Definition can_grant (a : AdminCtx) (org : option Uuid) (permissions : list string) : result ApiError unit :=
  let in_org := bool_decide (is_Some org) && bool_decide (org = adm_org_id a) in
  let missing := filter (fun p => allows (adm_permissions a) p = false
                                  /\ in_org && allows (adm_org_permissions a) p = false) permissions in
  if bool_decide (missing = []) then Ok tt
  else Err (Forbidden ("cannot grant permissions you do not hold: " ++ String.concat ", " missing)).
Definition require_can_grant (a : AdminCtx) (permissions : list string) : result ApiError unit := can_grant a None permissions.
Definition actor_of (a : AdminCtx) : Actor := ActAdmin (adm_user_id a).

(** *** Handlers *)

(** [PUT users/{user}/roles/{role}]. *)
Definition assign_user_role (a : AdminCtx) (tenant user role : Uuid) : M Access ApiError unit :=
  do! lift (require a tenant "ridm:users:write") in
  do! user_exists tenant user in
  do! role_exists tenant role in
  let! granted := gets (permissions_of_grant tenant (GRole role)) in
  do! lift (require_can_grant a granted) in
  assign tenant (actor_of a) role (PUser user).
(** [PUT users/{user}/groups/{group}]. *)
Definition join_group (a : AdminCtx) (tenant user group : Uuid) : M Access ApiError unit :=
  do! lift (require a tenant "ridm:users:write") in
  do! user_exists tenant user in
  do! group_exists tenant group in
  let! granted := gets (permissions_of_grant tenant (GGroup group)) in
  do! lift (require_can_grant a granted) in
  add_member tenant (actor_of a) group user.
(** [PUT groups/{group}/members/{user}]. *)
Definition add_group_member (a : AdminCtx) (tenant group user : Uuid) : M Access ApiError unit :=
  do! lift (require a tenant "ridm:groups:write") in
  do! user_exists tenant user in
  do! group_exists tenant group in
  let! granted := gets (permissions_of_grant tenant (GGroup group)) in
  do! lift (require_can_grant a granted) in
  add_member tenant (actor_of a) group user.
(** [PUT groups/{group}/roles/{role}]. *)
Definition assign_group_role (a : AdminCtx) (tenant group role : Uuid) : M Access ApiError unit :=
  do! lift (require a tenant "ridm:groups:write") in
  do! group_exists tenant group in
  do! role_exists tenant role in
  let! granted := gets (permissions_of_grant tenant (GRole role)) in
  do! lift (require_can_grant a granted) in
  assign tenant (actor_of a) role (PGroup group).
(** [PUT roles/{role}/composites/{child}]. *)
Definition put_composite (a : AdminCtx) (tenant role child : Uuid) : M Access ApiError unit :=
  do! lift (require a tenant "ridm:roles:write") in
  do! not_built_in tenant role in
  do! role_exists tenant child in
  let! granted := gets (permissions_of_grant tenant (GRole child)) in
  do! lift (require_can_grant a granted) in
  add_composite tenant (actor_of a) role child.
(** [PUT roles/{role}/permissions/{permission}]. *)
Definition grant_permission (a : AdminCtx) (tenant role permission : Uuid) : M Access ApiError unit :=
  do! lift (require a tenant "ridm:resource-servers:write") in
  let! p := gets (find_permission tenant permission) in
  let! p := lift (ok_or p (ApiNotFound "permission")) in
  let! rs := gets (fun st => List.find (fun r => (rs_tenant_id r =? tenant)%Z && (rs_id r =? pe_resource_server_id p)%Z) (ad_servers st)) in
  let! rs := lift (ok_or rs (ApiNotFound "resource server")) in
  do! (if rs_built_in rs then lift (require_can_grant a [pe_name p]) else ret tt) in
  grant_to_role tenant (actor_of a) role permission.
(** [POST groups], [PATCH] and [DELETE groups/{group}]. *)
Definition post_group (a : AdminCtx) (tenant id : Uuid) (name : string) (parent : option Uuid) : M Access ApiError GroupRow :=
  do! lift (require a tenant "ridm:groups:write") in
  create_group id tenant (actor_of a) name parent.
Definition patch_group (a : AdminCtx) (tenant group : Uuid) (name : option string) (parent : option (option Uuid))
    : M Access ApiError GroupRow :=
  do! lift (require a tenant "ridm:groups:write") in
  update_group tenant (actor_of a) group name parent.
Definition remove_group (a : AdminCtx) (tenant group : Uuid) : M Access ApiError unit :=
  do! lift (require a tenant "ridm:groups:write") in
  delete_group tenant (actor_of a) group.
(** [POST roles], [PATCH] and [DELETE roles/{role}]. *)
Definition post_role (a : AdminCtx) (tenant id : Uuid) (name : string) (client : option Uuid) : M Access ApiError RoleRow :=
  do! lift (require a tenant "ridm:roles:write") in
  create_role id tenant (actor_of a) name client.
Definition patch_role (a : AdminCtx) (tenant role : Uuid) (name : option string) : M Access ApiError RoleRow :=
  do! lift (require a tenant "ridm:roles:write") in
  update_role tenant (actor_of a) role name.
Definition remove_role (a : AdminCtx) (tenant role : Uuid) : M Access ApiError unit :=
  do! lift (require a tenant "ridm:roles:write") in
  delete_role tenant (actor_of a) role.
(** The [DELETE] of each [PUT] above. *)
Definition unassign_user_role (a : AdminCtx) (tenant user role : Uuid) : M Access ApiError unit :=
  do! lift (require a tenant "ridm:users:write") in
  do! user_exists tenant user in
  unassign tenant (actor_of a) role (PUser user).
Definition leave_group (a : AdminCtx) (tenant user group : Uuid) : M Access ApiError unit :=
  do! lift (require a tenant "ridm:users:write") in
  do! user_exists tenant user in
  remove_member tenant (actor_of a) group user.
Definition remove_group_member (a : AdminCtx) (tenant group user : Uuid) : M Access ApiError unit :=
  do! lift (require a tenant "ridm:groups:write") in
  remove_member tenant (actor_of a) group user.
Definition unassign_group_role (a : AdminCtx) (tenant group role : Uuid) : M Access ApiError unit :=
  do! lift (require a tenant "ridm:groups:write") in
  unassign tenant (actor_of a) role (PGroup group).
Definition delete_composite (a : AdminCtx) (tenant role child : Uuid) : M Access ApiError unit :=
  do! lift (require a tenant "ridm:roles:write") in
  do! not_built_in tenant role in
  remove_composite tenant (actor_of a) role child.
Definition revoke_permission (a : AdminCtx) (tenant role permission : Uuid) : M Access ApiError unit :=
  do! lift (require a tenant "ridm:resource-servers:write") in
  revoke_from_role tenant (actor_of a) role permission.
End services.

(** [AdminCtx::from_request_parts], from the user the token named on: the
    permissions held tenant-wide, and in the organization the token names. *)
Definition MASTER_TENANT_ID : Uuid := 0x70008000000000000001.
Definition admin_ctx (now : Z) (tenant user : Uuid) (org : option Uuid) (st : Access) : result ApiError AdminCtx :=
  match UserRepo.find_by_id tenant user (ad_users st) with
  | None => Err Unauthorized
  | Some u =>
      if negb (bool_decide (ur_status u = UActive)) || is_locked_now now u then Err (Forbidden "user account is not active")
      else
        let? permissions := permissions_of_user tenant user TenantWide st in
        let? org_permissions := match org with Some o => permissions_of_user tenant user (InOrg o) st | None => Ok [] end in
        if bool_decide (permissions = []) && bool_decide (org_permissions = []) then Err (Forbidden "no admin permissions")
        else Ok (mkAdminCtx user tenant (tenant =? MASTER_TENANT_ID) permissions org org_permissions)
  end.

(** ** What the recursive queries reach *)

Section closure.
Context (next : Uuid -> list Uuid).
Definition edge (a b : Uuid) : Prop := b ∈ next a.

Lemma elem_levels n l x : x ∈ levels next n l <-> exists y, y ∈ l /\ bsteps edge n y x.
Proof.
  revert l. induction n as [|n IH]; intros l; cbn.
  - split; [intros ?; exists x; split; [done|constructor]|].
    intros (y & Hy & Hs). by inversion Hs; subst.
  - rewrite elem_of_app, IH. split.
    + intros [Hx | (y & Hy & Hs)]; [exists x; split; [done|constructor]|].
      rewrite elem_of_remove_dups, list_elem_of_bind in Hy. destruct Hy as (z & Hyz & Hz).
      exists z. split; [done|]. by econstructor.
    + intros (y & Hy & Hs). inversion Hs as [|? ? z ? Hyz Hzx]; subst; [by left|]. right. exists z. split; [|done].
      rewrite elem_of_remove_dups, list_elem_of_bind. by exists y.
Qed.

Lemma elem_recursive l x : x ∈ recursive next l <-> exists y, y ∈ l /\ bsteps edge MAX_DEPTH y x.
Proof. unfold recursive. by rewrite elem_of_remove_dups, elem_levels. Qed.
End closure.
(** Not unfolded to its 64 levels. *)
#[local] Strategy opaque [recursive].

Lemma bsteps_sub {A} (R R' : A -> A -> Prop) n x y : (forall a b, R a b -> R' a b) -> bsteps R n x y -> bsteps R' n x y.
Proof. intros HR. induction 1; [constructor|econstructor; eauto]. Qed.

(** A walk that may use one more edge: its part after the last use does not. *)
Lemma bsteps_new_edge {A} (R R' : A -> A -> Prop) p c n x y :
  (forall a b, R' a b -> R a b \/ (a = p /\ b = c)) -> bsteps R' n x y -> bsteps R n x y \/ bsteps R n c y.
Proof.
  intros HR. induction 1 as [n x|n x z y Hxz Hzy IH]; [left; constructor|].
  destruct IH as [IH|IH]; [|right; by apply bsteps_S].
  destruct (HR _ _ Hxz) as [|[-> ->]]; [left; by econstructor|right; by apply bsteps_S].
Qed.

(** Among finitely many nodes a walk need not be longer than their number:
    from its last visit of a node on, it does not come back to it. *)
Section bounded.
Context {A : Type} `{EqDecision A} (R : A -> A -> Prop).
Definition within (dom : list A) (a b : A) : Prop := R a b /\ b ∈ dom.
Lemma last_visit dom z y : rtc (within dom) z y -> rtc (within (filter (fun n => n <> z) dom)) z y.
Proof.
  revert y. apply rtc_ind_r; [constructor|]. intros w y _ [HR Hd] IH.
  destruct (decide (y = z)) as [->|Hne]; [constructor|]. eapply rtc_r; [exact IH|]. split; [done|]. by apply list_elem_of_filter.
Qed.
Lemma rtc_bounded n dom x y : (length dom <= n)%nat -> rtc (within dom) x y -> bsteps R n x y.
Proof.
  revert dom x. induction n as [|n IH]; intros dom x Hlen; inversion 1 as [|? z ? [HR Hd] Hrest]; subst; [constructor| |constructor|].
  - destruct dom; [by apply elem_of_nil in Hd|cbn in Hlen; lia].
  - eapply bsteps_l; [exact HR|]. apply (IH (filter (fun n => n <> z) dom)); [|by apply last_visit].
    assert (length (filter (fun n => n <> z) dom) < length dom)%nat by (apply (length_filter_lt _ dom z Hd); auto). lia.
Qed.
Lemma closed_bounded dom x y : (forall a b, R a b -> b ∈ dom) -> rtc R x y -> bsteps R (length dom) x y.
Proof.
  intros Hdom Hr. apply (rtc_bounded _ dom); [done|]. induction Hr as [|x y z Hxy Hyz IH]; [constructor|].
  econstructor; [|exact IH]. split; [done|by eapply Hdom].
Qed.
End bounded.

(** ** No escalation *)

(** The role carries the admin permission [name]. *)
Definition carries (t : Uuid) (st : Access) (role : Uuid) (name : string) : Prop :=
  exists rs p, find_server t ADMIN_AUDIENCE st = Some rs /\ p ∈ ad_permissions st /\ pe_tenant_id p = t
    /\ pe_resource_server_id p = rs_id rs /\ pe_name p = name /\ mkPermissionAssignment t role (pe_id p) ∈ ad_granted st.
(** The user holds it, in the scope. *)
Definition holds (t u : Uuid) (s : OrgScope) (st : Access) (name : string) : Prop :=
  exists r, r ∈ ad_roles st /\ rr_tenant_id r = t /\ rr_id r ∈ effective_ids t u s st /\ carries t st (rr_id r) name.

Lemma elem_btree_set l x : x ∈ btree_set l <-> x ∈ l.
Proof. unfold btree_set. by rewrite (merge_sort_Permutation string_le), elem_of_remove_dups. Qed.

Lemma elem_permissions t rs roles st name :
  find_server t ADMIN_AUDIENCE st = Some rs ->
  name ∈ permissions_for_roles t (rs_id rs) roles st <-> exists r, r ∈ roles /\ carries t st r name.
Proof.
  intros Hrs. unfold permissions_for_roles. rewrite elem_btree_set, list_elem_of_fmap. split.
  - intros (p & -> & [(Ht & Hs & Hex) Hp]%list_elem_of_filter).
    apply Exists_exists in Hex as (a & Ha & Hat & Hap & Har). exists (pa_role_id a). split; [done|].
    exists rs, p. repeat (split; [done|]). destruct a; cbn in *; by subst.
  - intros (r & Hr & rs' & p & Hrs' & Hp & Ht & Hs & Hn & Ha). simplify_eq. exists p. split; [done|].
    apply list_elem_of_filter. split; [|done]. repeat (split; [done|]). apply Exists_exists. eexists. split; [exact Ha|done].
Qed.

Lemma permissions_hold t u s st names :
  permissions_of_user t u s st = Ok names -> forall n, n ∈ names <-> holds t u s st n.
Proof.
  unfold permissions_of_user, effective_roles. set (rows := filter _ (ad_roles st)).
  assert (forall r, r ∈ merge_sort role_le rows <-> r ∈ ad_roles st /\ rr_tenant_id r = t /\ rr_id r ∈ effective_ids t u s st) as Hrows.
  { intros r. rewrite (merge_sort_Permutation role_le). unfold rows. rewrite list_elem_of_filter. tauto. }
  intros Hp n. case_bool_decide as He.
  - injection Hp as <-. split; [by intros ?%elem_of_nil|]. intros (r & Hr & Ht & Hid & _).
    assert (r ∈ merge_sort role_le rows) as Hin by (apply Hrows; auto).
    apply nil_length_inv in He. rewrite He in Hin. by apply elem_of_nil in Hin.
  - destruct (find_server _ _ _) as [rs|] eqn:Hrs; [|done]. injection Hp as <-. rewrite elem_permissions by done. split.
    + intros (id & (r & -> & Hr)%list_elem_of_fmap & Hc). apply Hrows in Hr as (? & ? & ?). by exists r.
    + intros (r & Hr & Ht & Hid & Hc). exists (rr_id r). split; [|done]. apply list_elem_of_fmap. exists r. split; [done|]. apply Hrows. auto.
Qed.

(** What is handed out with a grant. *)
Definition granted_roles (t : Uuid) (g : Grant) (st : Access) : list Uuid :=
  RoleRepo.expand_composites t (match g with GRole id => [id] | GGroup id => role_ids_of_group_lineage t id st end) st.
Lemma grant_carries t g st r n : r ∈ granted_roles t g st -> carries t st r n -> n ∈ permissions_of_grant t g st.
Proof.
  unfold permissions_of_grant, granted_roles. intros Hr Hc. case_bool_decide as He.
  - rewrite He in Hr. unfold RoleRepo.expand_composites in Hr. apply elem_recursive in Hr as (y & Hy & _).
    apply list_elem_of_fmap in Hy as (row & _ & [[_ Hin] _]%list_elem_of_filter). by apply elem_of_nil in Hin.
  - pose proof Hc as (rs & _ & Hrs & _). rewrite Hrs. apply elem_permissions; [done|]. by exists r.
Qed.

(** *** Wildcards *)

Lemma strip_suffix_star s prefix : strip_suffix ":*" s = Some prefix -> has_star s = true.
Proof.
  revert prefix. induction s as [|c s IH]; intros prefix; [done|].
  change (strip_suffix ":*" (String c s)) with (if String.eqb (String c s) ":*" then Some ""%string else String c <$> strip_suffix ":*" s).
  destruct (String.eqb_spec (String c s) ":*") as [->|_]; [done|].
  destruct (strip_suffix ":*" s) as [q|]; [|done]. intros _. unfold has_star in *. cbn. rewrite (IH q eq_refl). by rewrite orb_true_r.
Qed.
Lemma matches_plain g p : has_star g = false -> matches g p = true -> g = p.
Proof.
  unfold matches. intros Hs. destruct (has_star p); [done|]. destruct (String.eqb_spec g p) as [->|_]; [done|].
  destruct (strip_suffix ":*" g) eqn:E; [|done]. apply strip_suffix_star in E. congruence.
Qed.
Lemma allows_plain names p : allows names p = true -> has_star p = false.
Proof. unfold allows, matches. intros (g & _ & Hm)%existsb_exists. by destruct (has_star p). Qed.
Lemma allows_elem names p : allows names p = true <-> exists g, g ∈ names /\ matches g p = true.
Proof. unfold allows. rewrite existsb_exists. split; intros (g & Hg & Hm); exists g; split; [by apply list_elem_of_In|done..|by apply list_elem_of_In|done]. Qed.

Lemma can_grant_covers a names : require_can_grant a names = Ok tt -> forall n, n ∈ names -> allows (adm_permissions a) n = true.
Proof.
  unfold require_can_grant, can_grant. case_bool_decide as Hm; [|done]. intros _ n Hn.
  destruct (allows (adm_permissions a) n) eqn:E; [done|]. exfalso.
  assert (n ∈ ([] : list string)) as Hin; [|by apply elem_of_nil in Hin]. rewrite <- Hm.
  apply list_elem_of_filter. split; [|done]. split; [done|]. by rewrite (bool_decide_false (is_Some None)) by (intros [? ?]; done).
Qed.

(** *** Gains of single changes *)

(** What the foreign keys, the primary keys and the seeded rows ensure. *)
Record refs_ok (st : Access) : Prop := {
  assigned_exists a : a ∈ ad_assignments st -> exists r, r ∈ ad_roles st /\ rr_tenant_id r = as_tenant_id a /\ rr_id r = as_role_id a;
  permission_once p p' : p ∈ ad_permissions st -> p' ∈ ad_permissions st -> pe_tenant_id p = pe_tenant_id p' -> pe_id p = pe_id p' -> p = p';
  admin_built_in t rs r : find_server t ADMIN_AUDIENCE st = Some rs -> r ∈ ad_servers st -> rs_tenant_id r = t ->
    rs_id r = rs_id rs -> rs_built_in r = true;
  granted_exists a : a ∈ ad_granted st -> exists r, r ∈ ad_roles st /\ rr_tenant_id r = pa_tenant_id a /\ rr_id r = pa_role_id a;
  member_exists m : m ∈ ad_members st -> exists g, g ∈ ad_groups st /\ gr_tenant_id g = gm_tenant_id m /\ gr_id g = gm_group_id m;
  parent_exists g p : g ∈ ad_groups st -> gr_parent_id g = Some p ->
    exists g', g' ∈ ad_groups st /\ gr_tenant_id g' = gr_tenant_id g /\ gr_id g' = p
}.

(** Nobody holds anything new except what [may] allows in [t]. *)
Definition gains (t : Uuid) (may : string -> Prop) (st st' : Access) : Prop :=
  forall t' u s n, holds t' u s st' n -> holds t' u s st n \/ (t' = t /\ may n).
Lemma gains_refl t may st : gains t may st st.
Proof. intros t' u s n Hh. by left. Qed.

Lemma effective_ids_elem t u s st id :
  id ∈ effective_ids t u s st <-> exists a, a ∈ ad_assignments st /\ as_tenant_id a = t /\ in_scope s (as_org_id a) = true
    /\ is_principal u (GroupRepo.effective_groups t u st) (as_principal a) = true
    /\ bsteps (edge (RoleRepo.children t st)) MAX_DEPTH (as_role_id a) id.
Proof.
  unfold effective_ids, direct_roles. rewrite elem_recursive. split.
  - intros (y & (a & -> & [(Ht & Hs & Hp) Ha]%list_elem_of_filter)%list_elem_of_fmap & Hb). by exists a.
  - intros (a & Ha & Ht & Hs & Hp & Hb). exists (as_role_id a). split; [|done]. apply list_elem_of_fmap. exists a.
    split; [done|]. by apply list_elem_of_filter.
Qed.
Lemma granted_from t g st ids y id :
  ids = match g with GRole id => [id] | GGroup id => role_ids_of_group_lineage t id st end ->
  y ∈ ids -> (exists r, r ∈ ad_roles st /\ rr_tenant_id r = t /\ rr_id r = y) ->
  bsteps (edge (RoleRepo.children t st)) MAX_DEPTH y id -> id ∈ granted_roles t g st.
Proof.
  intros -> Hy (r & Hr & Ht & <-) Hb. unfold granted_roles, RoleRepo.expand_composites. apply elem_recursive. exists (rr_id r).
  split; [|done]. apply list_elem_of_fmap. exists r. split; [done|]. by apply list_elem_of_filter.
Qed.

Section gains.
Context (t : Uuid) (may : string -> Prop) (st : Access).

Lemma assign_gains role p :
  (exists r, r ∈ ad_roles st /\ rr_tenant_id r = t /\ rr_id r = role) ->
  (forall n, n ∈ permissions_of_grant t (GRole role) st -> may n) ->
  gains t may st (RoleRepo.assign (mkRoleAssignment t role p None) st).2.
Proof.
  intros Hrole Hmay. unfold RoleRepo.assign. case_bool_decide; [apply gains_refl|]. intros t' u s n (r & Hr & Ht & Hid & Hc).
  apply effective_ids_elem in Hid as (a & [Ha | ->%list_elem_of_singleton]%elem_of_app & Hat & Hs & Hp & Hb).
  - left. exists r. repeat (split; [done|]). split; [|done]. apply effective_ids_elem. by exists a.
  - right. assert (t' = t) as -> by (symmetry; exact Hat). split; [done|]. apply Hmay. eapply grant_carries; [|exact Hc].
    eapply granted_from; [done|by apply list_elem_of_singleton|done|exact Hb].
Qed.

Lemma add_member_gains g u0 :
  refs_ok st -> (forall n, n ∈ permissions_of_grant t (GGroup g) st -> may n) ->
  gains t may st (GroupRepo.add_member (mkGroupMember t g u0) st).2.
Proof.
  intros Hwf Hmay. unfold GroupRepo.add_member. case_bool_decide; [apply gains_refl|].
  set (st' := ad_with_members st _). intros t' u s n (r & Hr & Ht & Hid & Hc).
  apply effective_ids_elem in Hid as (a & Ha & Hat & Hs & Hp & Hb).
  assert (is_principal u (GroupRepo.effective_groups t' u st) (as_principal a) = true
          \/ (t' = t /\ is_group (recursive (GroupRepo.parents t st) (GroupRepo.existing t st g)) (as_principal a) = true)) as [Ho | [-> Hl]].
  { destruct (as_principal a) as [w|h]; [by left|]. cbn in Hp |- *. apply bool_decide_eq_true in Hp.
    unfold GroupRepo.effective_groups, GroupRepo.direct_groups in Hp. apply elem_recursive in Hp as (y & Hy & Hsteps).
    apply list_elem_of_bind in Hy as (z & Hyz & (m & -> & [(Hmt & Hmu) Hm]%list_elem_of_filter)%list_elem_of_fmap).
    apply elem_of_app in Hm as [Hm | ->%list_elem_of_singleton].
    - left. apply bool_decide_eq_true. apply elem_recursive. exists y. split; [|done]. apply list_elem_of_bind. exists (gm_group_id m).
      split; [done|]. apply list_elem_of_fmap. exists m. split; [done|]. by apply list_elem_of_filter.
    - right. assert (t' = t) as -> by (symmetry; exact Hmt). split; [done|]. apply bool_decide_eq_true, elem_recursive. by exists y. }
  - left. exists r. repeat (split; [done|]). split; [|done]. apply effective_ids_elem. by exists a.
  - right. split; [done|]. apply Hmay. eapply grant_carries; [|exact Hc].
    eapply granted_from; [done| | |exact Hb].
    + unfold role_ids_of_group_lineage. rewrite elem_of_remove_dups. apply list_elem_of_fmap. exists a. split; [done|]. by apply list_elem_of_filter.
    + destruct (assigned_exists st Hwf a Ha) as (r' & Hr' & Hrt & Hri). exists r'. by rewrite Hrt.
Qed.

Lemma composite_gains parent child :
  (exists r, r ∈ ad_roles st /\ rr_tenant_id r = t /\ rr_id r = child) ->
  (forall n, n ∈ permissions_of_grant t (GRole child) st -> may n) ->
  gains t may st (RoleRepo.add_composite (mkComposite t parent child) st).2.
Proof.
  intros Hrole Hmay. unfold RoleRepo.add_composite. case_bool_decide; [apply gains_refl|].
  set (st' := ad_with_composites st _). intros t' u s n (r & Hr & Ht & Hid & Hc).
  apply effective_ids_elem in Hid as (a & Ha & Hat & Hs & Hp & Hb).
  assert (forall x y, edge (RoleRepo.children t' st') x y -> edge (RoleRepo.children t' st) x y \/ (t' = t /\ x = parent /\ y = child)) as Hedge.
  { intros x y (c & -> & [(Hct & Hcp) Hin]%list_elem_of_filter)%list_elem_of_fmap.
    apply elem_of_app in Hin as [Hin | ->%list_elem_of_singleton]; [|by right].
    left. apply list_elem_of_fmap. exists c. split; [done|]. by apply list_elem_of_filter. }
  destruct (decide (t' = t)) as [->|Hne].
  - destruct (bsteps_new_edge (edge (RoleRepo.children t st)) (edge (RoleRepo.children t st')) parent child _ _ _
                (fun x y Hxy => match Hedge x y Hxy with or_introl h => or_introl h | or_intror (conj _ h) => or_intror h end) Hb) as [Ho|Hn].
    + left. exists r. repeat (split; [done|]). split; [|done]. apply effective_ids_elem. by exists a.
    + right. split; [done|]. apply Hmay. eapply grant_carries; [|exact Hc].
      eapply granted_from; [done|by apply list_elem_of_singleton|done|exact Hn].
  - left. exists r. repeat (split; [done|]). split; [|done]. apply effective_ids_elem. exists a. repeat (split; [done|]).
    eapply bsteps_sub; [|exact Hb]. intros x y Hxy. by destruct (Hedge x y Hxy) as [|[? _]].
Qed.

Lemma grant_gains role p :
  refs_ok st -> p ∈ ad_permissions st -> pe_tenant_id p = t ->
  (forall rs, find_server t ADMIN_AUDIENCE st = Some rs -> pe_resource_server_id p = rs_id rs -> may (pe_name p)) ->
  gains t may st (ad_with_granted st (ad_granted st ++ [mkPermissionAssignment t role (pe_id p)])).
Proof.
  intros Hwf Hp Hpt Hmay t' u s n (r & Hr & Ht & Hid & rs & q & Hrs & Hq & Hqt & Hqs & Hqn & Hg).
  cbn in Hg. apply elem_of_app in Hg as [Hg | Hg]; [|apply list_elem_of_singleton in Hg].
  - left. exists r. do 2 (split; [done|]). split; [exact Hid|]. by exists rs, q.
  - right. injection Hg as -> Hrole Hpe. split; [done|]. subst n.
    assert (q = p) as -> by (eapply permission_once; eauto; congruence). by apply (Hmay rs).
Qed.

(** Fewer rows, fewer permissions. *)
Lemma fewer_gains st' :
  refs_ok st -> ad_permissions st' = ad_permissions st -> ad_servers st' = ad_servers st ->
  ad_assignments st' ⊆ ad_assignments st -> ad_composites st' ⊆ ad_composites st -> ad_granted st' ⊆ ad_granted st ->
  (forall t' u, GroupRepo.effective_groups t' u st' ⊆ GroupRepo.effective_groups t' u st) ->
  gains t may st st'.
Proof.
  intros Hwf Hp Hs Ha Hc Hg Heff t' u s n (r & Hr & Ht & Hid & rs & q & Hrs & Hq & Hqt & Hqs & Hqn & Hqg). left.
  unfold find_server in Hrs. rewrite Hs in Hrs. rewrite Hp in Hq. apply Hg in Hqg.
  destruct (granted_exists st Hwf _ Hqg) as (r0 & Hr0 & Ht0 & Hi0). cbn in Ht0, Hi0.
  exists r0. do 2 (split; [done|]). rewrite Hi0. split; [|by exists rs, q].
  apply effective_ids_elem in Hid as (a & Hin & Hat & Hsc & Hpr & Hb). apply effective_ids_elem.
  exists a. split; [by apply Ha|]. do 2 (split; [done|]). split.
  - destruct (as_principal a) as [w|h]; [done|]. cbn in Hpr |- *. apply bool_decide_eq_true in Hpr. by apply bool_decide_eq_true, Heff.
  - eapply bsteps_sub; [|exact Hb]. intros x y (c & -> & [Hcc Hcin]%list_elem_of_filter)%list_elem_of_fmap.
    apply list_elem_of_fmap. exists c. split; [done|]. apply list_elem_of_filter. split; [done|]. by apply Hc.
Qed.
End gains.

(** *** Groups and their parents *)

Lemma find_group_elem t id st : is_Some (GroupRepo.find_by_id t id st) <-> exists g, g ∈ ad_groups st /\ gr_tenant_id g = t /\ gr_id g = id.
Proof.
  unfold GroupRepo.find_by_id, GroupRepo.at_row. split.
  - intros [g [Hin Hat]%find_some]. exists g. split; [by apply list_elem_of_In|]. bool_hyps. auto.
  - intros (g & Hin & <- & <-). destruct (List.find _ _) eqn:Hf; [by eexists|].
    apply list_elem_of_In in Hin. pose proof (find_none _ _ Hf g Hin) as Hn. cbn in Hn. by rewrite !Z.eqb_refl in Hn.
Qed.
Lemma existing_elem t st id y : y ∈ GroupRepo.existing t st id <-> y = id /\ is_Some (GroupRepo.find_by_id t id st).
Proof.
  unfold GroupRepo.existing. destruct (GroupRepo.find_by_id t id st) as [g|].
  - rewrite list_elem_of_singleton. split; [intros ->; split; [done|by eexists]|by intros [-> _]].
  - rewrite elem_of_nil. split; [done|]. by intros [_ [? ?]].
Qed.
Lemma parents_elem t st id y :
  y ∈ GroupRepo.parents t st id <-> (exists g, GroupRepo.find_by_id t id st = Some g /\ gr_parent_id g = Some y) /\ is_Some (GroupRepo.find_by_id t y st).
Proof.
  unfold GroupRepo.parents. destruct (GroupRepo.find_by_id t id st) as [g|] eqn:Hg; cbn.
  - destruct (gr_parent_id g) as [p|] eqn:Hp; cbn.
    + destruct (GroupRepo.find_by_id t p st) as [q|] eqn:Hq; [rewrite list_elem_of_singleton|rewrite elem_of_nil].
      * split; [intros ->; split; [by exists g|by rewrite Hq; eexists]|]. intros [(g' & [= <-] & Hy) _]. congruence.
      * split; [done|]. intros [(g' & [= <-] & Hy) [q' Hq']]. congruence.
    + rewrite elem_of_nil. split; [done|]. intros [(g' & [= <-] & Hy) _]. congruence.
  - rewrite elem_of_nil. split; [done|]. by intros [(g' & Hg' & _) _].
Qed.

(** Memberships that were there, of groups whose parents are the same. *)
Lemma effective_shrinks st st' :
  refs_ok st -> ad_members st' ⊆ ad_members st ->
  (forall t id y, is_Some (GroupRepo.find_by_id t id st) -> y ∈ GroupRepo.parents t st' id -> y ∈ GroupRepo.parents t st id) ->
  forall t u, GroupRepo.effective_groups t u st' ⊆ GroupRepo.effective_groups t u st.
Proof.
  intros Hwf Hm Hpar t u x. unfold GroupRepo.effective_groups. rewrite !elem_recursive. intros (y & Hy & Hb).
  unfold GroupRepo.direct_groups in *. apply list_elem_of_bind in Hy as (z & [-> _]%existing_elem & (m & -> & [[Hmt Hmu] Hin]%list_elem_of_filter)%list_elem_of_fmap).
  apply Hm in Hin. assert (is_Some (GroupRepo.find_by_id t (gm_group_id m) st)) as Hex
    by (apply find_group_elem; rewrite <- Hmt; by apply (member_exists st Hwf)).
  exists (gm_group_id m). split.
  - apply list_elem_of_bind. exists (gm_group_id m). rewrite existing_elem. split; [done|].
    apply list_elem_of_fmap. exists m. split; [done|]. by apply list_elem_of_filter.
  - clear Hmu Hin. revert Hex Hb. generalize (gm_group_id m). generalize MAX_DEPTH. intros n w Hex Hb.
    induction Hb as [|n w z x Hwz Hzx IH]; [constructor|]. apply Hpar in Hwz; [|done].
    econstructor; [exact Hwz|]. apply IH. by apply parents_elem in Hwz as [_ ?].
Qed.
Lemma same_groups_effective st st' :
  refs_ok st -> ad_members st' ⊆ ad_members st -> ad_groups st' = ad_groups st ->
  forall t u, GroupRepo.effective_groups t u st' ⊆ GroupRepo.effective_groups t u st.
Proof.
  intros Hwf Hm Hg. apply effective_shrinks; [done..|]. intros t id y _. unfold GroupRepo.parents, GroupRepo.find_by_id. by rewrite Hg.
Qed.

(** *** An administrator at work *)

(** The handlers of [routes/admin/] on roles, groups and their members; a
    group is renamed, not moved. *)
Inductive AdminOp :=
| DoAssignUser (user role : Uuid)
| DoJoinGroup (user group : Uuid)
| DoAddMember (group user : Uuid)
| DoAssignGroup (group role : Uuid)
| DoComposite (role child : Uuid)
| DoGrant (role permission : Uuid)
| DoUnassignUser (user role : Uuid)
| DoLeaveGroup (user group : Uuid)
| DoRemoveMember (group user : Uuid)
| DoUnassignGroup (group role : Uuid)
| DoRemoveComposite (role child : Uuid)
| DoRevoke (role permission : Uuid)
| DoCreateRole (id : Uuid) (name : string) (client : option Uuid)
| DoRenameRole (role : Uuid) (name : option string)
| DoDeleteRole (role : Uuid)
| DoCreateGroup (id : Uuid) (name : string) (parent : option Uuid)
| DoRenameGroup (group : Uuid) (name : option string)
| DoDeleteGroup (group : Uuid).
Definition do_op (a : AdminCtx) (t : Uuid) (op : AdminOp) : M Access ApiError unit :=
  match op with
  | DoAssignUser user role => assign_user_role a t user role
  | DoJoinGroup user group => join_group a t user group
  | DoAddMember group user => add_group_member a t group user
  | DoAssignGroup group role => assign_group_role a t group role
  | DoComposite role child => put_composite a t role child
  | DoGrant role permission => grant_permission a t role permission
  | DoUnassignUser user role => unassign_user_role a t user role
  | DoLeaveGroup user group => leave_group a t user group
  | DoRemoveMember group user => remove_group_member a t group user
  | DoUnassignGroup group role => unassign_group_role a t group role
  | DoRemoveComposite role child => delete_composite a t role child
  | DoRevoke role permission => revoke_permission a t role permission
  | DoCreateRole id name client => do! post_role a t id name client in ret tt
  | DoRenameRole role name => do! patch_role a t role name in ret tt
  | DoDeleteRole role => remove_role a t role
  | DoCreateGroup id name parent => do! post_group a t id name parent in ret tt
  | DoRenameGroup group name => do! patch_group a t group name None in ret tt
  | DoDeleteGroup group => remove_group a t group
  end.
(** A request of the user [admin] of [home] to the tenant it names: the
    administrator's permissions are resolved anew. *)
Definition run_admin (home admin : Uuid) (st : Access) (e : Z * Uuid * AdminOp) : Access :=
  let '(now, t, op) := e in
  match admin_ctx now home admin None st with
  | Ok a => (do_op a t op st).2
  | Err _ => st
  end.

Definition safe (t : Uuid) (may : string -> Prop) (st st' : Access) : Prop := gains t may st st' /\ refs_ok st'.
Lemma safe_refl t may st : refs_ok st -> safe t may st st.
Proof. split; [apply gains_refl|done]. Qed.

Lemma find_role_elem t id st r : RoleRepo.find_by_id t id st = Some r -> r ∈ ad_roles st /\ rr_tenant_id r = t /\ rr_id r = id.
Proof.
  intros [Hin Hat]%find_some. unfold RoleRepo.at_row in Hat. split; [by apply list_elem_of_In|]. bool_hyps. auto.
Qed.

Section steps.
Context (t : Uuid) (may : string -> Prop) (st : Access) (Hwf : refs_ok st).

(** Reading and refusing leave the state. *)
Lemma safe_bind {A B} (m : M Access ApiError A) (k : A -> M Access ApiError B) :
  (m st).2 = st -> (forall a, (m st).1 = Ok a -> safe t may st (k a st).2) -> safe t may st (bind m k st).2.
Proof. unfold bind. destruct (m st) as [[a|e] s]; cbn; intros -> Hk; [by apply Hk|by apply safe_refl]. Qed.
(** Announcing leaves the tables. *)
Definition announces {A} (m : M Access ApiError A) : Prop := forall st', refs_ok st' -> safe t may st st' -> safe t may st (m st').2.
Lemma safe_then {A B} (m : M Access ApiError A) (k : A -> M Access ApiError B) :
  safe t may st (m st).2 -> (forall a, announces (k a)) -> safe t may st (bind m k st).2.
Proof. unfold bind. destruct (m st) as [[a|e] s]; cbn; [|done]. intros Hs Hk. apply Hk; [by destruct Hs|done]. Qed.
Lemma announces_publish tenant actor e : announces (ad_publish tenant actor e).
Proof. intros st' _ [Hg [H1 H2 H3 H4 H5 H6]]. split; [exact Hg|split; [exact H1|exact H2|exact H3|exact H4|exact H5|exact H6]]. Qed.
Lemma announces_ret {A} (a : A) : announces (ret a).
Proof. by intros st' _ Hs. Qed.
Lemma announces_bind {A B} (m : M Access ApiError A) (k : A -> M Access ApiError B) :
  announces m -> (forall a, announces (k a)) -> announces (bind m k).
Proof. intros Hm Hk st' Hr Hs. specialize (Hm st' Hr Hs). unfold bind. destruct (m st') as [[a|e] s]; cbn in *; [|done]. apply Hk; [by destruct Hm|done]. Qed.
Lemma announces_lift {A} (r : result ApiError A) : announces (lift r).
Proof. intros st' _ Hs. by destruct r. Qed.
Lemma announces_guard b e : announces (guard b e).
Proof. intros st' _ Hs. by destruct b. Qed.
End steps.

Create HintDb announces.
#[export] Hint Resolve announces_publish announces_ret announces_bind announces_lift announces_guard : announces.

Section changes.
Context (t : Uuid) (may : string -> Prop) (st : Access) (Hwf : refs_ok st).

(** A write is announced. *)
Lemma safe_write (f : Access -> bool * Access) tenant actor e :
  safe t may st (f st).2 ->
  safe t may st (bind (ran f) (fun b : bool => if b then ad_publish tenant actor e else ret tt) st).2.
Proof. intros Hf. apply safe_then; [|intros []; auto with announces]. unfold ran. by destruct (f st). Qed.
Lemma tried_safe {A} (f : Access -> option (A * Access)) e :
  (forall a st', f st = Some (a, st') -> safe t may st st') -> safe t may st (tried f e st).2.
Proof. unfold tried. intros Hf. destruct (f st) as [[a st']|] eqn:Hr; cbn; [by eapply Hf|by apply safe_refl]. Qed.

Lemma role_exists_run id : (role_exists t id st).2 = st /\ ((role_exists t id st).1 = Ok tt -> exists r, r ∈ ad_roles st /\ rr_tenant_id r = t /\ rr_id r = id).
Proof.
  unfold role_exists, bind, gets. destruct (RoleRepo.find_by_id t id st) as [r|] eqn:Hr; cbn; [|done]. split; [done|]. intros _. exists r. by apply find_role_elem.
Qed.
Lemma group_exists_run id : (group_exists t id st).2 = st /\ ((group_exists t id st).1 = Ok tt -> is_Some (GroupRepo.find_by_id t id st)).
Proof. unfold group_exists, bind, gets. by destruct (GroupRepo.find_by_id t id st). Qed.
Lemma user_exists_run id : (user_exists t id st).2 = st.
Proof. unfold user_exists, bind, gets, guard. destruct (UserRepo.find_by_id _ _ _) as [u|]; [|done]. by destruct (negb (ur_live u)). Qed.
Lemma not_built_in_run id : (not_built_in t id st).2 = st /\ ((not_built_in t id st).1 = Ok tt -> exists r, r ∈ ad_roles st /\ rr_tenant_id r = t /\ rr_id r = id).
Proof.
  unfold not_built_in, bind, gets, lift, ok_or, guard. destruct (RoleRepo.find_by_id _ _ _) as [r|] eqn:Hr; [|done]. cbn.
  destruct (rr_built_in r); [done|]. split; [done|]. intros _. exists r. by apply find_role_elem.
Qed.
Lemma ensure_run id : (ensure_not_built_in t id st).2 = st.
Proof. unfold ensure_not_built_in, bind, gets, guard. destruct (RoleRepo.find_by_id _ _ _) as [r|]; [|done]. by destruct (rr_built_in r). Qed.
Lemma guard_run b (e : ApiError) : (guard b e st).2 = st.
Proof. by destruct b. Qed.

Lemma assign_safe actor role p :
  (forall n, n ∈ permissions_of_grant t (GRole role) st -> may n) -> safe t may st (assign t actor role p st).2.
Proof.
  intros Hmay. unfold assign. apply safe_bind; [done|apply role_exists_run|]. intros [] Hex%role_exists_run.
  apply safe_bind; [done|destruct p; [apply user_exists_run|apply group_exists_run]|]. intros [] _. apply safe_write.
  split; [by apply assign_gains|]. unfold RoleRepo.assign. case_bool_decide; [done|]. destruct Hwf as [H1 H2 H3 H4 H5 H6].
  split; [|exact H2|exact H3|exact H4|exact H5|exact H6]. intros a [Ha | ->%list_elem_of_singleton]%elem_of_app; [by apply H1|exact Hex].
Qed.
Lemma add_member_safe actor g u :
  (forall n, n ∈ permissions_of_grant t (GGroup g) st -> may n) -> safe t may st (add_member t actor g u st).2.
Proof.
  intros Hmay. unfold add_member. apply safe_bind; [done|apply group_exists_run|]. intros [] Hex%group_exists_run.
  apply safe_bind; [done|apply user_exists_run|].
  intros [] _. apply safe_write. split; [by apply add_member_gains|]. unfold GroupRepo.add_member. case_bool_decide; [done|].
  destruct Hwf as [H1 H2 H3 H4 H5 H6]. split; [exact H1|exact H2|exact H3|exact H4| |exact H6].
  intros m [Hm | ->%list_elem_of_singleton]%elem_of_app; [by apply H5|]. by apply find_group_elem.
Qed.
Lemma add_composite_safe actor parent child :
  (forall n, n ∈ permissions_of_grant t (GRole child) st -> may n) -> safe t may st (add_composite t actor parent child st).2.
Proof.
  intros Hmay. unfold add_composite. apply safe_bind; [done|apply guard_run|]. intros [] _.
  apply safe_bind; [done|apply role_exists_run|]. intros [] _. apply safe_bind; [done|apply role_exists_run|]. intros [] Hex%role_exists_run.
  apply safe_bind; [done..|]. intros c _. apply safe_bind; [done|apply guard_run|]. intros [] _. apply safe_write.
  split; [by apply composite_gains|]. unfold RoleRepo.add_composite. case_bool_decide; [done|].
  destruct Hwf as [H1 H2 H3 H4 H5 H6]. split; [exact H1|exact H2|exact H3|exact H4|exact H5|exact H6].
Qed.
Lemma grant_to_role_safe actor role permission :
  (forall p rs, find_permission t permission st = Some p -> find_server t ADMIN_AUDIENCE st = Some rs ->
     pe_resource_server_id p = rs_id rs -> may (pe_name p)) ->
  safe t may st (grant_to_role t actor role permission st).2.
Proof.
  intros Hmay. unfold grant_to_role. apply safe_bind; [done|apply not_built_in_run|]. intros [] Hex%not_built_in_run.
  apply safe_bind; [done..|]. intros o [= Hp]. apply safe_bind; [done..|]. intros p Ho. cbn in Ho. apply ok_or_ok in Ho. subst o.
  apply safe_write. cbn. case_bool_decide; [by apply safe_refl|]. pose proof Ho as [Hin Hat]%find_some.
  apply list_elem_of_In in Hin. apply andb_true_iff in Hat as [Hpt%Z.eqb_eq Hpi%Z.eqb_eq]. subst permission. split.
  - apply grant_gains; [done..|]. intros rs Hrs He. by apply (Hmay p rs).
  - destruct Hwf as [H1 H2 H3 H4 H5 H6]. split; [exact H1|exact H2|exact H3| |exact H5|exact H6].
    intros a [Ha | ->%list_elem_of_singleton]%elem_of_app; [by apply H4|exact Hex].
Qed.

(** Taking rows away, the roles and groups kept. *)
Lemma fewer_safe st' :
  ad_roles st' = ad_roles st -> ad_groups st' = ad_groups st -> ad_permissions st' = ad_permissions st -> ad_servers st' = ad_servers st ->
  ad_assignments st' ⊆ ad_assignments st -> ad_members st' ⊆ ad_members st -> ad_composites st' ⊆ ad_composites st ->
  ad_granted st' ⊆ ad_granted st -> safe t may st st'.
Proof.
  intros Hr Hgr Hp Hs Ha Hm Hc Hg. split; [apply fewer_gains; try done; by apply same_groups_effective|].
  destruct Hwf as [H1 H2 H3 H4 H5 H6]. unfold find_server in H3.
  split; unfold find_server; rewrite ?Hr, ?Hgr, ?Hp, ?Hs; [|exact H2|exact H3| | |exact H6]; intros a Hin; [by apply H1, Ha|by apply H4, Hg|by apply H5, Hm].
Qed.
Lemma filter_sub {A} (P : A -> Prop) `{forall x, Decision (P x)} (l : list A) : filter P l ⊆ l.
Proof. intros x. rewrite list_elem_of_filter. tauto. Qed.
Lemma unassign_safe actor role p : safe t may st (unassign t actor role p st).2.
Proof. apply safe_write, fewer_safe; (done || apply filter_sub). Qed.
Lemma remove_member_safe actor g u : safe t may st (remove_member t actor g u st).2.
Proof. apply safe_write, fewer_safe; (done || apply filter_sub). Qed.
Lemma remove_composite_safe actor parent child : safe t may st (remove_composite t actor parent child st).2.
Proof. apply safe_write, fewer_safe; (done || apply filter_sub). Qed.
Lemma revoke_safe actor role permission : safe t may st (revoke_from_role t actor role permission st).2.
Proof.
  unfold revoke_from_role. apply safe_bind; [done|apply not_built_in_run|]. intros [] _.
  apply safe_then; [|auto with announces]. apply fewer_safe; (done || apply filter_sub).
Qed.
End changes.

(** Roles and groups that come, are renamed and go. *)
Section rows.
Context (t : Uuid) (may : string -> Prop) (st : Access) (Hwf : refs_ok st).

(** The same rows but those of the roles. *)
Lemma roles_safe rows :
  (forall r, r ∈ ad_roles st -> exists r', r' ∈ rows /\ rr_tenant_id r' = rr_tenant_id r /\ rr_id r' = rr_id r) ->
  safe t may st (ad_with_roles st rows).
Proof.
  intros Hk. split; [apply fewer_gains; try done; by apply same_groups_effective|]. destruct Hwf as [H1 H2 H3 H4 H5 H6].
  split; [|exact H2|exact H3| |exact H5|exact H6]; intros a Ha;
    [destruct (H1 a Ha) as (r & Hr & <- & <-)|destruct (H4 a Ha) as (r & Hr & <- & <-)]; destruct (Hk r Hr) as (r' & ? & ? & ?); by exists r'.
Qed.
Lemma create_role_safe actor id name client : safe t may st (create_role id t actor name client st).2.
Proof.
  unfold create_role. apply safe_bind; [done..|]. intros name' _. apply safe_bind; [done..|]. intros n _.
  apply safe_bind; [done|apply guard_run|]. intros [] _. apply safe_then; [|auto with announces].
  apply tried_safe; [done|]. intros [] st'. unfold RoleRepo.insert. destruct (existsb _ _); [done|]. intros [= <-].
  apply roles_safe. intros r Hr. exists r. split; [|done]. apply elem_of_app. by left.
Qed.
Lemma rename_role_safe actor id name : safe t may st (update_role t actor id name st).2.
Proof.
  unfold update_role. destruct name as [name|]; [|apply safe_bind; [done..|]; intros o _; destruct o; by apply safe_refl].
  apply safe_bind; [done..|]. intros name' _. apply safe_bind; [done|apply ensure_run|]. intros [] _.
  apply safe_then; [|auto with announces]. apply tried_safe; [done|]. intros o st'. unfold RoleRepo.update.
  destruct (RoleRepo.find_by_id t id st) as [row|]; [|intros [= <- <-]; by apply safe_refl].
  destruct (existsb _ _); [done|]. intros [= _ <-]. apply roles_safe. intros r Hr.
  exists (if RoleRepo.at_row t id r then RoleRepo.renamed (Some name') r else r).
  split; [apply update_elem; by exists r|by destruct (RoleRepo.at_row t id r)].
Qed.
Lemma delete_role_safe actor id : safe t may st (delete_role t actor id st).2.
Proof.
  unfold delete_role. apply safe_bind; [done|apply ensure_run|]. intros [] _. apply safe_then; [|auto with announces].
  cbn. set (of_role := fun t0 r => (t0 =? t) && (r =? id)). split.
  - apply fewer_gains; (done || apply filter_sub).
  - destruct Hwf as [H1 H2 H3 H4 H5 H6]. split; cbn; [|exact H2|exact H3| |exact H5|exact H6]; intros a [Hno Ha]%list_elem_of_filter;
      [destruct (H1 a Ha) as (r & Hr & Ht & Hi)|destruct (H4 a Ha) as (r & Hr & Ht & Hi)];
      exists r; (split; [|done]); apply list_elem_of_filter; (split; [|done]); unfold RoleRepo.at_row; by rewrite Ht, Hi.
Qed.

Lemma find_group_app g id g' : GroupRepo.find_by_id t id st = Some g ->
  GroupRepo.find_by_id t id (ad_with_groups st (ad_groups st ++ [g'])) = Some g.
Proof. unfold GroupRepo.find_by_id. cbn. induction (ad_groups st) as [|x l IH]; cbn; [done|]. by destruct (GroupRepo.at_row t id x). Qed.
End rows.

Section group_rows.
Context (t : Uuid) (may : string -> Prop) (st : Access) (Hwf : refs_ok st).

Lemma groups_safe rows :
  (forall g, g ∈ ad_groups st -> exists g', g' ∈ rows /\ gr_tenant_id g' = gr_tenant_id g /\ gr_id g' = gr_id g) ->
  (forall g p, g ∈ rows -> gr_parent_id g = Some p -> exists g', g' ∈ rows /\ gr_tenant_id g' = gr_tenant_id g /\ gr_id g' = p) ->
  (forall t' id y, is_Some (GroupRepo.find_by_id t' id st) -> y ∈ GroupRepo.parents t' (ad_with_groups st rows) id -> y ∈ GroupRepo.parents t' st id) ->
  safe t may st (ad_with_groups st rows).
Proof.
  intros Hk Hpar Hsame. split; [apply fewer_gains; try done; by apply effective_shrinks|]. destruct Hwf as [H1 H2 H3 H4 H5 H6].
  split; [exact H1|exact H2|exact H3|exact H4| |exact Hpar]. intros m Hm. destruct (H5 m Hm) as (g & Hg & <- & <-). destruct (Hk g Hg) as (g' & ? & ? & ?). by exists g'.
Qed.

Lemma check_parent_exists parent (e : ApiError) :
  let m : M Access ApiError unit := match parent with
           | Some p => let! g := gets (GroupRepo.find_by_id t p) in match g with Some _ => ret tt | None => throw e end
           | None => ret tt
           end in
  (m st).2 = st /\ ((m st).1 = Ok tt -> forall p, parent = Some p -> is_Some (GroupRepo.find_by_id t p st)).
Proof.
  destruct parent as [p|]; cbn; [|done]. unfold bind, gets. destruct (GroupRepo.find_by_id t p st) as [g|] eqn:Hg; cbn; [|done].
  split; [done|]. intros _ p' [= <-]. rewrite Hg. by eexists.
Qed.
Lemma create_group_safe actor id name parent : safe t may st (create_group id t actor name parent st).2.
Proof.
  unfold create_group. apply safe_bind; [done..|]. intros name' _. apply safe_bind; [done|apply (proj1 (check_parent_exists _ _))|].
  intros [] Hparent. pose proof (proj2 (check_parent_exists _ _) Hparent) as Hex. clear Hparent. apply safe_bind; [done..|]. intros n _.
  apply safe_bind; [done|apply guard_run|]. intros [] _. apply safe_then; [|auto with announces].
  apply tried_safe; [done|]. intros [] st'. unfold GroupRepo.insert. destruct (existsb _ _) eqn:Hno; [done|]. intros [= <-].
  apply groups_safe.
  - intros g Hg. exists g. split; [|done]. apply elem_of_app. by left.
  - intros g p [Hg | ->%list_elem_of_singleton]%elem_of_app Hp.
    + destruct (parent_exists st Hwf g p Hg Hp) as (g' & Hg' & ?). exists g'. split; [|done]. apply elem_of_app. by left.
    + destruct (proj1 (find_group_elem t p st) (Hex p Hp)) as (g' & Hg' & ?). exists g'. split; [|done]. apply elem_of_app. by left.
  - intros t' i y [g Hg] [(g' & Hg' & Hy) _]%parents_elem. rewrite (find_group_app t' st g) in Hg' by done. injection Hg' as <-.
    apply parents_elem. split; [by exists g|]. apply find_group_elem.
    pose proof Hg as [Hin Hat]%find_some. apply list_elem_of_In in Hin.
    destruct (parent_exists st Hwf g y Hin Hy) as (p & Hp & Hpt & Hpi). exists p. split; [done|].
    unfold GroupRepo.at_row in Hat. bool_hyps. split; congruence.
Qed.
End group_rows.

Lemma find_renamed t id name st t' i :
  GroupRepo.find_by_id t' i (ad_with_groups st ((fun g => if GroupRepo.at_row t id g then GroupRepo.moved name None g else g) <$> ad_groups st))
  = (fun g => if GroupRepo.at_row t id g then GroupRepo.moved name None g else g) <$> GroupRepo.find_by_id t' i st.
Proof.
  unfold GroupRepo.find_by_id. cbn. induction (ad_groups st) as [|g l IH]; [done|]. cbn.
  assert (GroupRepo.at_row t' i (if GroupRepo.at_row t id g then GroupRepo.moved name None g else g) = GroupRepo.at_row t' i g) as ->
    by (by destruct (GroupRepo.at_row t id g)). by destruct (GroupRepo.at_row t' i g).
Qed.
Lemma renamed_parent t id name g :
  gr_parent_id (if GroupRepo.at_row t id g then GroupRepo.moved name None g else g) = gr_parent_id g
  /\ gr_tenant_id (if GroupRepo.at_row t id g then GroupRepo.moved name None g else g) = gr_tenant_id g
  /\ gr_id (if GroupRepo.at_row t id g then GroupRepo.moved name None g else g) = gr_id g.
Proof. by destruct (GroupRepo.at_row t id g). Qed.

(** The subgroups at any depth. *)
Definition gone (t id : Uuid) (st : Access) : list Uuid := levels (GroupRepo.subgroups t st) (length (ad_groups st)) [id].
Lemma gone_closed t id st g p :
  g ∈ ad_groups st -> gr_tenant_id g = t -> gr_parent_id g = Some p -> p ∈ gone t id st -> gr_id g ∈ gone t id st.
Proof.
  intros Hg Ht Hp. unfold gone. rewrite !elem_levels. intros (y & ->%list_elem_of_singleton & Hb). exists id. split; [by apply list_elem_of_singleton|].
  rewrite <- (length_fmap gr_id). apply closed_bounded.
  - intros x z (g' & -> & [_ Hin]%list_elem_of_filter)%list_elem_of_fmap. apply list_elem_of_fmap. by exists g'.
  - apply rtc_bsteps_2 in Hb. eapply rtc_r; [exact Hb|]. apply list_elem_of_fmap. exists g. split; [done|]. by apply list_elem_of_filter.
Qed.
Lemma find_kept t (ids : list Uuid) st rows' t' i :
  rows' = filter (fun g => ~ (gr_tenant_id g = t /\ gr_id g ∈ ids)) (ad_groups st) ->
  GroupRepo.find_by_id t' i (ad_with_groups st rows') = if bool_decide (t' = t /\ i ∈ ids) then None else GroupRepo.find_by_id t' i st.
Proof.
  intros ->. unfold GroupRepo.find_by_id. cbn. induction (ad_groups st) as [|g l IH]; [by case_bool_decide|].
  rewrite filter_cons. cbn [List.find]. destruct (GroupRepo.at_row t' i g) eqn:Hat.
  - assert (gr_tenant_id g = t' /\ gr_id g = i) as [<- <-] by (unfold GroupRepo.at_row in Hat; bool_hyps; auto).
    destruct (decide (~ (gr_tenant_id g = t /\ gr_id g ∈ ids))) as [Hd|Hd].
    + cbn [List.find]. rewrite Hat. destruct (bool_decide _) eqn:Hb; [|done]. apply bool_decide_eq_true in Hb. destruct (Hd Hb).
    + apply dec_stable in Hd. destruct (bool_decide _) eqn:Hb; [exact IH|]. apply bool_decide_eq_false in Hb. destruct (Hb Hd).
  - destruct (decide _); cbn [List.find]; [rewrite Hat|]; exact IH.
Qed.

Section group_changes.
Context (t : Uuid) (may : string -> Prop) (st : Access) (Hwf : refs_ok st).

Lemma rename_group_safe actor id name : safe t may st (update_group t actor id name None st).2.
Proof.
  unfold update_group. destruct (_ && _); [apply safe_bind; [done..|]; intros o _; destruct o; by apply safe_refl|].
  apply safe_bind; [done..|]. intros name' _. apply safe_bind; [done..|]. intros [] _. apply safe_then; [|auto with announces].
  apply tried_safe; [done|]. intros o st'. unfold GroupRepo.update.
  destruct (GroupRepo.find_by_id t id st) as [row|]; [|intros [= <- <-]; by apply safe_refl].
  destruct (existsb _ _); [done|]. intros [= _ <-]. apply groups_safe; [done|..].
  - intros g Hg. eexists. split; [apply update_elem; by exists g|]. apply renamed_parent.
  - intros g' p (g & Hg & ->)%update_elem. destruct (renamed_parent t id name' g) as (-> & -> & _). intros Hp.
    destruct (parent_exists st Hwf g p Hg Hp) as (q & Hq & <- & <-). eexists. split; [apply update_elem; by exists q|]. apply renamed_parent.
  - intros t' i y _ [(g' & Hg' & Hy) [q Hq]]%parents_elem. rewrite find_renamed in Hg', Hq.
    apply fmap_Some in Hg' as (g & Hg & ->). rewrite (proj1 (renamed_parent t id name' g)) in Hy.
    apply fmap_Some in Hq as (q' & Hq & _). apply parents_elem. split; [by exists g|by eexists].
Qed.
Lemma delete_group_safe actor id : safe t may st (delete_group t actor id st).2.
Proof.
  unfold delete_group. apply safe_then; [|auto with announces]. cbn. fold (gone t id st). set (ids := gone t id st).
  set (st' := ad_with_assignments _ _).
  assert (forall t' i, GroupRepo.find_by_id t' i st' = if bool_decide (t' = t /\ i ∈ ids) then None else GroupRepo.find_by_id t' i st) as Hfind
    by (intros t' i; by apply (find_kept t ids st)). split.
  - apply fewer_gains; try (done || apply filter_sub). apply effective_shrinks; [done|apply filter_sub|].
    intros t' i y _ [(g & Hg & Hy) [q Hq]]%parents_elem. rewrite Hfind in Hg, Hq. do 2 case_bool_decide; try done.
    apply parents_elem. split; [by exists g|by eexists].
  - destruct Hwf as [H1 H2 H3 H4 H5 H6]. split; [|exact H2|exact H3|exact H4|..].
    + intros a [_ Ha]%list_elem_of_filter. by apply H1.
    + intros m [Hno Hm]%list_elem_of_filter. destruct (H5 m Hm) as (g & Hg & Ht & Hi). exists g. split; [|done].
      apply list_elem_of_filter. by rewrite Ht, Hi.
    + intros g p [Hno Hg]%list_elem_of_filter Hp. destruct (H6 g p Hg Hp) as (q & Hq & Ht & Hi). exists q. split; [|done].
      apply list_elem_of_filter. split; [|done]. rewrite Ht, Hi. intros [Hgt Hin]. apply Hno. split; [done|]. by eapply gone_closed.
Qed.
End group_changes.

(** *** Handlers *)

Section handlers.
Context (a : AdminCtx) (t : Uuid) (st : Access) (Hwf : refs_ok st).
Definition may_grant (n : string) : Prop := allows (adm_permissions a) n = true.

Lemma safe_require {B} p (k : unit -> M Access ApiError B) :
  safe t may_grant st (k tt st).2 -> safe t may_grant st (bind (lift (require a t p)) k st).2.
Proof. intros Hk. apply safe_bind; [done..|]. by intros [] _. Qed.
Lemma safe_user {B} u (k : unit -> M Access ApiError B) :
  safe t may_grant st (k tt st).2 -> safe t may_grant st (bind (user_exists t u) k st).2.
Proof. intros Hk. apply safe_bind; [done|apply user_exists_run|]. by intros [] _. Qed.
Lemma safe_role {B} r (k : unit -> M Access ApiError B) :
  safe t may_grant st (k tt st).2 -> safe t may_grant st (bind (role_exists t r) k st).2.
Proof. intros Hk. apply safe_bind; [done|apply role_exists_run|]. by intros [] _. Qed.
Lemma safe_group {B} g (k : unit -> M Access ApiError B) :
  safe t may_grant st (k tt st).2 -> safe t may_grant st (bind (group_exists t g) k st).2.
Proof. intros Hk. apply safe_bind; [done|apply group_exists_run|]. by intros [] _. Qed.
Lemma safe_built_in {B} r (k : unit -> M Access ApiError B) :
  safe t may_grant st (k tt st).2 -> safe t may_grant st (bind (not_built_in t r) k st).2.
Proof. intros Hk. apply safe_bind; [done|apply not_built_in_run|]. by intros [] _. Qed.
(** What is handed out is what the administrator may grant. *)
Lemma safe_granted {B} g (k : unit -> M Access ApiError B) :
  ((forall n, n ∈ permissions_of_grant t g st -> may_grant n) -> safe t may_grant st (k tt st).2) ->
  safe t may_grant st (bind (gets (permissions_of_grant t g)) (fun granted => bind (lift (require_can_grant a granted)) k) st).2.
Proof.
  intros Hk. apply safe_bind; [done..|]. intros granted [= <-]. apply safe_bind; [done..|]. intros [] Hc. apply Hk. by apply can_grant_covers.
Qed.
Lemma safe_unit {A} (m : M Access ApiError A) : safe t may_grant st (m st).2 -> safe t may_grant st (bind m (fun _ => ret tt) st).2.
Proof. intros Hm. apply safe_then; [done|auto with announces]. Qed.

Lemma grant_permission_safe role permission : safe t may_grant st (grant_permission a t role permission st).2.
Proof.
  apply safe_require, safe_bind; [done..|]. intros o [= Hp]. apply safe_bind; [done..|]. intros p Ho. cbn in Ho. apply ok_or_ok in Ho. subst o.
  apply safe_bind; [done..|]. intros o [= Hrs]. apply safe_bind; [done..|]. intros rs Ho'. cbn in Ho'. apply ok_or_ok in Ho'. subst o.
  apply find_some in Ho' as [Hin%list_elem_of_In Hat]. apply andb_true_iff in Hat as [Ht%Z.eqb_eq Hid%Z.eqb_eq].
  apply safe_bind; [done|by destruct (rs_built_in rs)|]. intros [] Hgrant. apply grant_to_role_safe; [done|].
  intros p' admin Hp' Hadmin Hserver. assert (p' = p) as -> by congruence.
  rewrite (admin_built_in st Hwf t admin rs Hadmin Hin Ht) in Hgrant by congruence.
  apply (can_grant_covers a [pe_name p]); [exact Hgrant|by apply list_elem_of_singleton].
Qed.

Lemma do_op_safe op : safe t may_grant st (do_op a t op st).2.
Proof.
  destruct op; cbn [do_op]; try apply safe_unit.
  - apply safe_require, safe_user, safe_role, safe_granted. by apply assign_safe.
  - apply safe_require, safe_user, safe_group, safe_granted. by apply add_member_safe.
  - apply safe_require, safe_user, safe_group, safe_granted. by apply add_member_safe.
  - apply safe_require, safe_group, safe_role, safe_granted. by apply assign_safe.
  - apply safe_require, safe_built_in, safe_role, safe_granted. by apply add_composite_safe.
  - apply grant_permission_safe.
  - by apply safe_require, safe_user, unassign_safe.
  - by apply safe_require, safe_user, remove_member_safe.
  - by apply safe_require, remove_member_safe.
  - by apply safe_require, unassign_safe.
  - by apply safe_require, safe_built_in, remove_composite_safe.
  - by apply safe_require, revoke_safe.
  - by apply safe_require, create_role_safe.
  - by apply safe_require, rename_role_safe.
  - by apply safe_require, delete_role_safe.
  - by apply safe_require, create_group_safe.
  - by apply safe_require, rename_group_safe.
  - by apply safe_require, delete_group_safe.
Qed.
End handlers.

(** *** Histories *)

Lemma do_op_elsewhere a t op st : reaches a t = false -> (do_op a t op st).2 = st.
Proof. intros Hr. destruct op; cbv delta [do_op] beta iota; cbv [assign_user_role join_group add_group_member assign_group_role put_composite
    grant_permission unassign_user_role leave_group remove_group_member unassign_group_role delete_composite revoke_permission post_role patch_role
    remove_role post_group patch_group remove_group bind lift require]; by rewrite Hr. Qed.
(** What [n] needs of the administrator. *)
Definition covered (home admin t' : Uuid) (st : Access) (n : string) : Prop :=
  (t' = home \/ home = MASTER_TENANT_ID) /\ exists g, holds home admin TenantWide st g /\ matches g n = true.
Lemma run_admin_gains home admin st e t' u s n :
  refs_ok st -> holds t' u s (run_admin home admin st e) n -> holds t' u s st n \/ covered home admin t' st n.
Proof.
  destruct e as [[now t] op]. unfold run_admin, admin_ctx. intros Hwf. destruct (UserRepo.find_by_id home admin (ad_users st)) as [row|]; [|by left].
  destruct (_ || _); [by left|]. destruct (permissions_of_user home admin TenantWide st) as [names|] eqn:Hnames; [|by left]. cbn.
  destruct (_ && _); [by left|]. set (a := mkAdminCtx _ _ _ _ _ _). destruct (reaches a t) eqn:Hreach; [|rewrite do_op_elsewhere by done; by left].
  intros Hh. apply (do_op_safe a t st Hwf) in Hh as [Hh|[-> Hm]]; [by left|]. right. split.
  - unfold reaches in Hreach. apply orb_true_iff in Hreach as [Hg%Z.eqb_eq|Ht%Z.eqb_eq]; [by right|by left].
  - apply allows_elem in Hm as (g & Hg & Hm). exists g. split; [|done]. by apply (permissions_hold _ _ _ _ _ Hnames).
Qed.
Lemma run_admin_refs home admin st e : refs_ok st -> refs_ok (run_admin home admin st e).
Proof.
  intros Hwf. destruct e as [[now t] op]. unfold run_admin. destruct (admin_ctx _ _ _ _ _) as [a|]; [|done]. apply (do_op_safe a t st Hwf).
Qed.

Lemma matches_trans g' g n : matches g' g = true -> matches g n = true -> matches g' n = true.
Proof.
  intros Hm' Hm. assert (has_star g = false) as Hs by (unfold matches in Hm'; by destruct (has_star g)). by rewrite <- (matches_plain g n Hs Hm).
Qed.
Lemma history_gains home admin ops st t' u s n :
  refs_ok st -> holds t' u s (foldl (run_admin home admin) st ops) n -> holds t' u s st n \/ covered home admin t' st n.
Proof.
  revert st. induction ops as [|e ops IH]; intros st Hwf Hh; [by left|]. cbn in Hh. apply IH in Hh; [|by apply run_admin_refs].
  destruct Hh as [Hh|[Hreach (g & Hg & Hm)]]; [by eapply run_admin_gains|].
  right. split; [done|]. apply run_admin_gains in Hg as [Hg|[_ (g' & Hg' & Hm')]]; [by exists g| |done].
  exists g'. split; [done|]. by apply (matches_trans g' g).
Qed.

(** C4: Administrators cannot escalate. Whatever an administrator does with
    the handlers that create, rename and delete roles and groups and that hand
    out or take away roles, memberships, composites and permissions - in any
    order, in any tenant, with the permissions resolved anew for each request -
    whoever may afterwards do something in the admin API, in any tenant and
    organization scope, either could before, or it is something the
    administrator could do before the first request; and then the tenant is
    the administrator's own unless that is the master tenant. *)
Theorem no_escalation home admin ops st t u s names names' mine p :
  refs_ok st ->
  permissions_of_user t u s st = Ok names ->
  permissions_of_user t u s (foldl (run_admin home admin) st ops) = Ok names' ->
  permissions_of_user home admin TenantWide st = Ok mine ->
  allows names' p = true ->
  allows names p = true \/ (allows mine p = true /\ (t = home \/ home = MASTER_TENANT_ID)).
Proof.
  intros Hwf Hn Hn' Hmine (g & Hg & Hm)%allows_elem. apply (permissions_hold _ _ _ _ _ Hn') in Hg.
  apply history_gains in Hg as [Hg|[Hreach (g' & Hg' & Hm')]]; [|right|done].
  - left. apply allows_elem. exists g. split; [by apply (permissions_hold _ _ _ _ _ Hn)|done].
  - split; [|done]. apply allows_elem. exists g'. split; [by apply (permissions_hold _ _ _ _ _ Hmine)|]. by apply (matches_trans g' g).
Qed.

(** *** A tenant with its built-in roles *)

#[export] Instance permission_dec : EqDecision Permission.
Proof. solve_decision. Defined.
Definition ac_permissions : list Permission := imap (fun i name => mkPermission (100 + Z.of_nat i) 1 9 name) CATALOGUE.
Definition ac_roles : list RoleRow := imap (fun i r => mkRoleRow (20 + Z.of_nat i) 1 None (bi_name r) true) BUILT_IN_ROLES.
Definition ac_granted : list PermissionAssignment :=
  mjoin (imap (fun i r => (fun p => mkPermissionAssignment 1 (20 + Z.of_nat i) (pe_id p)) <$> filter (fun p => pe_name p ∈ permissions r) ac_permissions)
    BUILT_IN_ROLES).
(** Bo is in the support team, whose members manage users; the owners are in
    a group of their own. *)
Definition ac_state : Access := mkAccess
  [us_user 5 "bo" None; us_user 6 "ann" None] ac_roles
  [mkGroupRow 30 1 None "support"; mkGroupRow 31 1 None "owners"] [mkGroupMember 1 30 5]
  [mkRoleAssignment 1 22 (PGroup 30) None; mkRoleAssignment 1 20 (PGroup 31) None] []
  ac_permissions ac_granted [mkServerRow 9 1 ADMIN_AUDIENCE true] [].
Definition may_do (u : Uuid) (p : string) (st : Access) : option bool :=
  match permissions_of_user 1 u TenantWide st with Ok names => Some (allows names p) | Err _ => None end.

Lemma ac_refs : refs_ok ac_state.
Proof.
  assert (forall a, a ∈ ad_granted ac_state -> exists r, r ∈ ad_roles ac_state /\ rr_tenant_id r = pa_tenant_id a /\ rr_id r = pa_role_id a) as Hgranted.
  { assert (Forall (fun a => Exists (fun r => rr_tenant_id r = pa_tenant_id a /\ rr_id r = pa_role_id a) ac_roles) ac_granted) as Hall
      by (apply (bool_decide_unpack _); by vm_compute).
    intros a Ha. rewrite Forall_forall in Hall. apply Hall, Exists_exists in Ha. done. }
  split; [ | | |exact Hgranted| |].
  - intros a Ha. cbn in Ha. apply list_elem_of_In in Ha. destruct Ha as [<-|[<-|[]]].
    + exists (mkRoleRow 22 1 None USER_MANAGER_ROLE true). split; [by apply (list_elem_of_lookup_2 _ 2)|done].
    + exists (mkRoleRow 20 1 None OWNER_ROLE true). split; [by apply (list_elem_of_lookup_2 _ 0)|done].
  - assert (Forall (fun p => Forall (fun p' => pe_id p = pe_id p' -> p = p') ac_permissions) ac_permissions) as Hall
      by (apply (bool_decide_unpack _); by vm_compute).
    intros p p' Hp Hp' _. rewrite Forall_forall in Hall. specialize (Hall p Hp). rewrite Forall_forall in Hall. by apply Hall.
  - intros t rs r _ Hr _ _. cbn in Hr. apply list_elem_of_singleton in Hr. by subst r.
  - intros m ->%list_elem_of_singleton. exists (mkGroupRow 30 1 None "support"). split; [by left|done].
  - intros g p Hg Hp. cbn in Hg. apply list_elem_of_In in Hg. destruct Hg as [<-|[<-|[]]]; discriminate Hp.
Qed.

(** Bo may not make Ann an owner, or add her to the owners, but may take her
    into the support team. *)
Definition ac_ops : list (Z * Uuid * AdminOp) :=
  [(1000, 1, DoAssignUser 6 20); (1000, 1, DoAddMember 31 6); (1000, 1, DoCreateGroup 32 "desk" (Some 30)); (1000, 1, DoAddMember 32 6)].
Example no_escalation_witness :
  may_do 6 "ridm:groups:write" ac_state = Some false
  /\ may_do 6 "ridm:groups:write" (foldl (run_admin 1 5) ac_state ac_ops) = Some true
  /\ forall p, may_do 6 p (foldl (run_admin 1 5) ac_state ac_ops) = Some true -> may_do 5 p ac_state = Some true.
Proof.
  split; [by vm_compute|]. split; [by vm_compute|]. intros p. unfold may_do.
  destruct (permissions_of_user 1 6 TenantWide (foldl (run_admin 1 5) ac_state ac_ops)) as [names'|] eqn:Hn'; [|discriminate]. intros [= Hp].
  destruct (permissions_of_user 1 5 TenantWide ac_state) as [mine|] eqn:Hmine; [|exfalso; revert Hmine; vm_compute; discriminate].
  destruct (no_escalation 1 5 ac_ops ac_state 1 6 TenantWide [] names' mine p ac_refs) as [Ha|[Ha _]];
    [by vm_compute|exact Hn'|exact Hmine|exact Hp|discriminate Ha|by rewrite Ha].
Defined.

(** A group is moved without asking what its members gain: a user
    manager who moves the own group under the group of the owners may delete
    the tenant from then on. *)
Theorem group_move_escalates :
  let st' := match admin_ctx 1000 1 5 None ac_state with
             | Ok a => (patch_group a 1 30 None (Some (Some 31)) ac_state).2
             | Err _ => ac_state
             end in
  may_do 5 "ridm:tenants:delete" ac_state = Some false /\ may_do 5 "ridm:tenants:delete" st' = Some true.
Proof. split; by vm_compute. Qed.
