(* ===== verification/Flows.v ===== *)
(** * Login flows

    [api/src/services/login_flows.rs] and [services/flows.rs]: the flow a
    browser carries from [/authorize] through the pages that sign a user in,
    the steps it takes and the stage it is at after each. What is shown to the
    page ([public_state]) is left out, and so are metrics, notifications of
    new devices and the addresses in events. Looked up elsewhere and passed
    as arguments: clients, memberships of organizations (as they are once a
    verified address joined its organization), the CAPTCHA provider, the
    directories, and the roles and permissions of [Access]. *)

From stdpp Require Import gmap strings.
From Stdlib Require Import Ascii.
From S2P Require Import Prelude Effects Utf8 Valkey AppState Sessions AuthCodes DeviceCodes KeyCustody Credentials Totp Mfa.
From S2P Require Import Webauthn Passkeys ApiErrors Models Profile Users Server Otp Risk Passwords SelfService Access.

(** ** The flow *)

Inductive ResponseMode := RmQuery | RmFragment | RmFormPost | RmQueryJwt | RmFragmentJwt | RmFormPostJwt.
#[export] Instance response_mode_dec : EqDecision ResponseMode.
Proof. solve_decision. Defined.
Definition mode_parse (s : string) : option ResponseMode :=
  if String.eqb s "query" then Some RmQuery
  else if String.eqb s "fragment" then Some RmFragment
  else if String.eqb s "form_post" then Some RmFormPost
  else if String.eqb s "jwt" || String.eqb s "query.jwt" then Some RmQueryJwt
  else if String.eqb s "fragment.jwt" then Some RmFragmentJwt
  else if String.eqb s "form_post.jwt" then Some RmFormPostJwt
  else None.
Definition mode_base (m : ResponseMode) : ResponseMode :=
  match m with RmQueryJwt => RmQuery | RmFragmentJwt => RmFragment | RmFormPostJwt => RmFormPost | other => other end.
Definition is_jarm (m : ResponseMode) : bool :=
  match m with RmQueryJwt | RmFragmentJwt | RmFormPostJwt => true | _ => false end.

(** [claims] and the SAML context, which is not interpreted here, as JSON text. *)
Record AuthRequest := mkAuthRequest {
  aq_client_id : Uuid;
  aq_client_public_id : string;
  aq_redirect_uri : string;
  aq_response_mode : ResponseMode;
  aq_scopes : list string;
  aq_audiences : list string;
  aq_state : option string;
  aq_nonce : option string;
  aq_code_challenge : option string;
  aq_prompt : list string;
  aq_max_age : option Z;
  aq_acr_values : list string;
  aq_login_hint : option string;
  aq_ui_locales : list string;
  aq_claims : option string;
  aq_skip_consent : bool;
  aq_device_code : option string;
  aq_organization : option string;
  aq_saml : option string
}.
Definition with_scopes (r : AuthRequest) (scopes : list string) : AuthRequest :=
  mkAuthRequest (aq_client_id r) (aq_client_public_id r) (aq_redirect_uri r) (aq_response_mode r) scopes (aq_audiences r)
    (aq_state r) (aq_nonce r) (aq_code_challenge r) (aq_prompt r) (aq_max_age r) (aq_acr_values r) (aq_login_hint r)
    (aq_ui_locales r) (aq_claims r) (aq_skip_consent r) (aq_device_code r) (aq_organization r) (aq_saml r).

Inductive FlowStage :=
  Authenticate | Register | VerifyEmail | PasswordChange | StMfa | StProfile | Terms | StOrganization | StConsent | Done.
#[export] Instance flow_stage_dec : EqDecision FlowStage.
Proof. solve_decision. Defined.

Record LoginFlow := mkLoginFlow {
  lf_id : Uuid;
  lf_tenant_id : Uuid;
  lf_request : AuthRequest;
  lf_stage : FlowStage;
  lf_session_id : option Uuid;
  lf_user_id : option Uuid;
  lf_pending_scopes : list string;
  lf_require_auth_after : option Z;
  lf_csrf : string;
  lf_attempts : Z;
  lf_amr : list string;
  lf_org_id : option Uuid;
  lf_trusted_device : bool;
  lf_risk_step_up : bool;
  lf_remember_device : bool;
  lf_created_at : Z;
  lf_expires_at : Z
}.
(** Assignments to fields. *)
Definition lf_at (f : LoginFlow) (stage : FlowStage) : LoginFlow :=
  mkLoginFlow (lf_id f) (lf_tenant_id f) (lf_request f) stage (lf_session_id f) (lf_user_id f) (lf_pending_scopes f)
    (lf_require_auth_after f) (lf_csrf f) (lf_attempts f) (lf_amr f) (lf_org_id f) (lf_trusted_device f) (lf_risk_step_up f)
    (lf_remember_device f) (lf_created_at f) (lf_expires_at f).
Definition lf_in_org (f : LoginFlow) (org : Uuid) : LoginFlow :=
  mkLoginFlow (lf_id f) (lf_tenant_id f) (lf_request f) (lf_stage f) (lf_session_id f) (lf_user_id f) (lf_pending_scopes f)
    (lf_require_auth_after f) (lf_csrf f) (lf_attempts f) (lf_amr f) (Some org) (lf_trusted_device f) (lf_risk_step_up f)
    (lf_remember_device f) (lf_created_at f) (lf_expires_at f).
Definition lf_pending (f : LoginFlow) (scopes : list string) : LoginFlow :=
  mkLoginFlow (lf_id f) (lf_tenant_id f) (lf_request f) (lf_stage f) (lf_session_id f) (lf_user_id f) scopes
    (lf_require_auth_after f) (lf_csrf f) (lf_attempts f) (lf_amr f) (lf_org_id f) (lf_trusted_device f) (lf_risk_step_up f)
    (lf_remember_device f) (lf_created_at f) (lf_expires_at f).
Definition lf_requesting (f : LoginFlow) (r : AuthRequest) : LoginFlow :=
  mkLoginFlow (lf_id f) (lf_tenant_id f) r (lf_stage f) (lf_session_id f) (lf_user_id f) (lf_pending_scopes f)
    (lf_require_auth_after f) (lf_csrf f) (lf_attempts f) (lf_amr f) (lf_org_id f) (lf_trusted_device f) (lf_risk_step_up f)
    (lf_remember_device f) (lf_created_at f) (lf_expires_at f).
Definition lf_tried (f : LoginFlow) (attempts : Z) : LoginFlow :=
  mkLoginFlow (lf_id f) (lf_tenant_id f) (lf_request f) (lf_stage f) (lf_session_id f) (lf_user_id f) (lf_pending_scopes f)
    (lf_require_auth_after f) (lf_csrf f) attempts (lf_amr f) (lf_org_id f) (lf_trusted_device f) (lf_risk_step_up f)
    (lf_remember_device f) (lf_created_at f) (lf_expires_at f).
Definition lf_waiting (f : LoginFlow) (user : Uuid) : LoginFlow :=
  mkLoginFlow (lf_id f) (lf_tenant_id f) (lf_request f) VerifyEmail (lf_session_id f) (Some user) (lf_pending_scopes f)
    (lf_require_auth_after f) (lf_csrf f) (lf_attempts f) (lf_amr f) (lf_org_id f) (lf_trusted_device f) (lf_risk_step_up f)
    (lf_remember_device f) (lf_created_at f) (lf_expires_at f).
Definition lf_opened (f : LoginFlow) (user session : Uuid) (amr : list string) (trusted step_up remember : bool) : LoginFlow :=
  mkLoginFlow (lf_id f) (lf_tenant_id f) (lf_request f) (lf_stage f) (Some session) (Some user) (lf_pending_scopes f)
    (lf_require_auth_after f) (lf_csrf f) (lf_attempts f) amr (lf_org_id f) trusted step_up remember (lf_created_at f) (lf_expires_at f).
Definition lf_passed (f : LoginFlow) (amr : list string) (remember : bool) : LoginFlow :=
  mkLoginFlow (lf_id f) (lf_tenant_id f) (lf_request f) (lf_stage f) (lf_session_id f) (lf_user_id f) (lf_pending_scopes f)
    (lf_require_auth_after f) (lf_csrf f) 0 amr (lf_org_id f) (lf_trusted_device f) (lf_risk_step_up f)
    ((lf_remember_device f || remember) && negb (lf_trusted_device f)) (lf_created_at f) (lf_expires_at f).
Definition lf_issued (f : LoginFlow) (csrf : string) (now until : Z) : LoginFlow :=
  mkLoginFlow (lf_id f) (lf_tenant_id f) (lf_request f) (lf_stage f) (lf_session_id f) (lf_user_id f) (lf_pending_scopes f)
    (lf_require_auth_after f) csrf (lf_attempts f) (lf_amr f) (lf_org_id f) (lf_trusted_device f) (lf_risk_step_up f)
    (lf_remember_device f) now until.

Definition FLOW_TTL_SECS : Z := 10 * 60.
Definition ACR_MFA : string := "urn:ridm:acr:mfa".
Definition ACR_SINGLE : string := "urn:ridm:acr:single".
Definition MFA_MAX_ATTEMPTS : Z := 5.
Definition DENIAL_TTL_SECS : Z := 10 * 60.

(** An [access_denied] waiting to be delivered. *)
Record Denial := mkDenial {
  de_client_id : Uuid; de_redirect_uri : string; de_response_mode : ResponseMode; de_description : string; de_state : option string
}.

Section keys.
Context `{UuidDisplay}.
Local Open Scope string_scope.
Definition login_flow (tenant flow : Uuid) : string := PREFIX ++ ":t:" ++ uuid_str tenant ++ ":flow:" ++ uuid_str flow.
Definition denial_ticket_key (tenant id : Uuid) : string := PREFIX ++ ":t:" ++ uuid_str tenant ++ ":authz:denial:" ++ uuid_str id.
End keys.

(** *** Authentication classes *)

Definition is_mfa_acr (acr : string) : bool := ends_with ":mfa" acr.
Definition requested_mfa_class (acr_values : list string) : option string :=
  match List.find (fun a => is_mfa_acr a || String.eqb a ACR_SINGLE) acr_values with
  | Some a => if is_mfa_acr a then Some a else None
  | None => None
  end.
Definition requested_mfa_acr (f : LoginFlow) : string := default ACR_MFA (requested_mfa_class (aq_acr_values (lf_request f))).
Definition has_mfa (amr : list string) : bool := existsb (String.eqb "mfa") amr.
Definition prompts (r : AuthRequest) (p : string) : bool := existsb (String.eqb p) (aq_prompt r).

(** [offered_factors]. *)
Definition offered_factors (s : Settings) (u : UserRow) : list string :=
  (if mm_totp (st_mfa_methods s) then [KIND_TOTP] else [])
  ++ (if am_passkey (st_auth s) then [KIND_WEBAUTHN] else [])
  ++ (if mm_email_otp (st_mfa_methods s) && bool_decide (is_Some (ur_email u)) then [KIND_EMAIL] else [])
  ++ (if mm_sms_otp (st_mfa_methods s) then [KIND_SMS] else []).
Definition check_csrf (f : LoginFlow) (presented : string) : result ApiError unit :=
  if String.eqb (lf_csrf f) "" || negb (String.eqb (lf_csrf f) presented) then Err (Forbidden "invalid csrf token") else Ok tt.

Definition value_get (k : string) (v : Value) : option Value := match v with VObject m => obj_get k m | _ => None end.
(** Attributes the schema requires of somebody and the user lacks. *)
Definition filled (v : Value) : bool :=
  match v with VNull => false | VString s => negb (String.eqb (trim_str s) "") | _ => true end.
Definition missing_required (schema : ProfileSchema) (u : UserRow) : list AttributeDef :=
  filter (fun a => ad_required a && negb (bool_decide (ad_editable_by a = ByNone))
                   && negb (match value_get (ad_name a) (u_attributes (ur_user u)) with Some v => filled v | None => false end) = true)
    (ps_attributes schema).

(** ** Steps *)

(** What a step finds elsewhere: the active client behind a public id, the
    active organizations the user is a member of (slug and id, those that
    [ensure_auto_join] adds as the session opens among them), the CAPTCHA
    provider's site key and its answer to a token ([None]: it could not be
    asked). *)
Record Org := mkOrg { og_id : Uuid; og_slug : string }.
Record Lookups := mkLookups {
  lk_client : string -> option Client;
  lk_orgs : Uuid -> list Org;
  lk_site_key : option string;
  lk_captcha : string -> option bool
}.

(** Where the browser is sent: to the client, to the one-time URL that
    delivers a denial, or to the answer for a SAML service provider. *)
Inductive Redirect :=
| ToClient (uri : string) (params : list (string * string))
| ToTicket (id : Uuid)
| ToSaml (denied : bool).

Inductive AuthStep :=
| Authenticated (session : SsoSession) (flow : LoginFlow)
| Rejected (flow : LoginFlow) (locked : bool)
| Blocked (redirect_to : Redirect).
Inductive MfaStep :=
| MfaPassed (flow : LoginFlow) (recovery_codes : option (list (list Z)))
| MfaRejected (flow : LoginFlow).
Inductive ConsentOutcome := ConsentGiven (flow : LoginFlow) | ConsentDenied (redirect_to : Redirect).
(** What a live session still owes. *)
Inductive Owed := OwesNothing | OwesStep (s : FlowStage) | OwesBlocked.
#[export] Instance owed_dec : EqDecision Owed.
Proof. solve_decision. Defined.

Section flows.
Context `{Valkey} `{Counters} `{UuidDisplay} `{KeyEncryptor} `{Geo} `{TextLib} `{CharLib} `{PasswordHasher}.
Context `{!Serde SsoSession} `{!Serde OtpRecord} `{!Serde MagicRecord} `{!Serde PendingOtp} `{!Serde VerificationRecord} `{!Serde ()}.
Context `{!Serde LoginFlow} `{!Serde Denial} `{!Serde DeviceRecord} `{!JsonBytes FactorData}.
Context (sha256 : list Z -> list Z) (b64 : list Z -> string).

(** *** The store *)

Definition save_flow (now : Z) (f : LoginFlow) : M Server ApiError unit :=
  let ttl := num_seconds (lf_expires_at f - now) in
  if ttl <=? 0 then ret tt else r_set now (login_flow (lf_tenant_id f) (lf_id f)) f ttl.
(** A value that is not a flow counts as none, and so does one that expired. *)
Definition get_flow (now : Z) (tenant id : Uuid) (st : Server) : option LoginFlow :=
  match load_json now (login_flow tenant id) (sv_redis st) with
  | Some f => if now <? lf_expires_at f then Some f else None
  | None => None
  end.
Definition delete_flow (now : Z) (tenant id : Uuid) : M Server ApiError unit := r_del now (login_flow tenant id).
Definition create_flow (now : Z) (bytes : list Z) (f : LoginFlow) : M Server ApiError LoginFlow :=
  let f := lf_issued f (b64 bytes) now (now + FLOW_TTL_SECS * 1000) in
  do! save_flow now f in
  ret f.
Definition load_flow (now : Z) (tenant id : Uuid) : M Server ApiError LoginFlow :=
  let! f := gets (get_flow now tenant id) in
  lift (ok_or f (ApiNotFound "flow")).

(** *** CAPTCHA *)

Definition captcha_required (s : Settings) (lk : Lookups) (f : LoginFlow) : option string :=
  let p := st_captcha s in
  if ((0 <? after_failures p) && (after_failures p <=? lf_attempts f)) || (on_registration p && bool_decide (lf_stage f = Register))
  then lk_site_key lk else None.
Definition enforce_captcha (s : Settings) (lk : Lookups) (f : LoginFlow) (token : option string) : result ApiError unit :=
  match captcha_required s lk f with
  | None => Ok tt
  | Some _ =>
      match token with
      | Some (String _ _ as t) =>
          match lk_captcha lk t with
          | None => Err (Unavailable "captcha verification failed")
          | Some true => Ok tt
          | Some false => Err (InvalidFields [mkFieldError "captcha_token" "captcha_failed"])
          end
      | _ => Err (InvalidFields [mkFieldError "captcha_token" "captcha_required"])
      end
  end.

(** *** Sessions *)

Definition session_get (now : Z) (tenant id : Uuid) (s : Settings) : M Server ApiError (option SsoSession) := fun st =>
  let '(r, app) := Sessions.get now (sv_app st) tenant id (st_session s) in (Ok r, sv_with_app st app).
Definition on_app {A} (f : AppState -> A * AppState) : M Server ApiError A := fun st =>
  let '(a, app) := f (sv_app st) in (Ok a, sv_with_app st app).
(** [sessions::create]; the only error is a tenant that is gone. *)
Definition session_create (now : Z) (id : Uuid) (acting : option Uuid) (tenant : Uuid) (req : NewSession) : M Server ApiError SsoSession := fun st =>
  match Sessions.create now id acting (sv_app st) tenant req with
  | Ok (s, app) => (Ok s, sv_with_app st app)
  | Err _ => (Err (ApiNotFound "tenant"), st)
  end.

(** *** Organizations *)

Definition bind_org (now : Z) (tenant : Uuid) (s : Settings) (f : LoginFlow) (org : Uuid) : M Server ApiError LoginFlow :=
  do! match lf_session_id f with
      | Some sid =>
          let! session := session_get now tenant sid s in
          match session with
          | Some ses => let! _ := on_app (fun app => Sessions.bind_organization now app ses org) in ret tt
          | None => ret tt
          end
      | None => ret tt
      end in
  ret (lf_in_org f org).
Definition session_org (now : Z) (tenant : Uuid) (s : Settings) (f : LoginFlow) : M Server ApiError (option Uuid) :=
  match lf_session_id f with
  | Some sid => let! session := session_get now tenant sid s in ret (session ≫= s_org_id)
  | None => ret None
  end.
Definition organization_pending (now : Z) (tenant : Uuid) (s : Settings) (lk : Lookups) (f : LoginFlow) (user : Uuid)
    : M Server ApiError (bool * LoginFlow) :=
  if bool_decide (is_Some (lf_org_id f)) then ret (false, f)
  else
    let! acts_in := session_org now tenant s f in
    match acts_in with
    | Some org => ret (false, lf_in_org f org)
    | None =>
        match lk_orgs lk user with
        | [] => ret (false, f)
        | [only] => let! f := bind_org now tenant s f (og_id only) in ret (false, f)
        | orgs =>
            match aq_organization (lf_request f) ≫= fun wanted =>
                    List.find (fun o => String.eqb (og_slug o) (trim_str wanted) || String.eqb (uuid_str (og_id o)) (trim_str wanted)) orgs with
            | Some o => let! f := bind_org now tenant s f (og_id o) in ret (false, f)
            | None => ret (true, f)
            end
        end
    end.

(** *** The second factor *)

Definition has_factor (tenant user : Uuid) (st : Server) : bool :=
  Mfa.has_second_factor tenant user (mkMfaState (sv_redis st) (sv_creds st) (sv_keys st) []).
(** The permissions and roles of [Access] decide whom the policy asks. *)
Definition policy_requires_mfa (acc : Access) (tenant : Uuid) (s : Settings) (user : Uuid) (st : Server) : result ApiError bool :=
  match st_mfa s with
  | MfaOff => Ok false
  | MfaRequired => Ok true
  | MfaOptional => Ok (has_factor tenant user st)
  | MfaRequiredForRoles roles =>
      let held := effective_role_names tenant user None acc in
      Ok (existsb (fun r => existsb (String.eqb r) held) roles || has_factor tenant user st)
  | MfaRequiredForAdmins =>
      let? names := permissions_of_user tenant user Anywhere acc in
      Ok (negb (bool_decide (names = [])) || has_factor tenant user st)
  end.
Definition mfa_required (acc : Access) (tenant : Uuid) (s : Settings) (f : LoginFlow) (user : Uuid) (st : Server) : result ApiError bool :=
  if has_mfa (lf_amr f) then Ok false
  else if bool_decide (is_Some (requested_mfa_class (aq_acr_values (lf_request f)))) || lf_risk_step_up f then Ok true
  else if lf_trusted_device f then Ok false
  else policy_requires_mfa acc tenant s user st.

(** *** Moving on *)

(** [advance]: the stage the flow is at now that the user did what was asked. *)
Definition pending_consent (f : LoginFlow) (client : Client) (user : Uuid) (st : Server) : list string :=
  let r := lf_request f in
  let force := prompts r "consent" in
  if aq_skip_consent r && negb force then []
  else if force && bool_decide (lf_pending_scopes f = []) && negb (bool_decide (lf_stage f = StConsent)) then aq_scopes r
  else missing_scopes (lf_tenant_id f) user (cl_id client) (aq_scopes r) st.
Definition advance_consent (lk : Lookups) (f : LoginFlow) (user : Uuid) : M Server ApiError LoginFlow :=
  let! client := lift (ok_or (lk_client lk (aq_client_public_id (lf_request f))) (ApiNotFound "client")) in
  let! pending := gets (pending_consent f client user) in
  if negb (bool_decide (pending = [])) && negb (bool_decide (lf_stage f = Done)) then ret (lf_at (lf_pending f pending) StConsent)
  else ret (lf_at (lf_pending f []) Done).
Definition advance (now : Z) (acc : Access) (lk : Lookups) (s : Settings) (f : LoginFlow) (must_change : bool) : M Server ApiError LoginFlow :=
  let tenant := lf_tenant_id f in
  match lf_user_id f, lf_session_id f with
  | Some user, Some _ =>
      let! row := on_accounts (get_user tenant user) in
      if must_change then ret (lf_at f PasswordChange)
      else
        let! mfa := (fun st => (mfa_required acc tenant s f user st, st)) in
        if (mfa : bool) then ret (lf_at f StMfa)
        else
          let! missing := gets (fun st => missing_required (get_schema (sv_accounts st) tenant) row) in
          if negb (bool_decide (length missing = 0%nat)) then ret (lf_at f StProfile)
          else if require_terms (st_registration s) && bool_decide (ur_terms_accepted_at row = None) then ret (lf_at f Terms)
          else
            let! asked := organization_pending now tenant s lk f user in
            let '(ask, f) := asked in
            if (ask : bool) then ret (lf_at f StOrganization) else advance_consent lk f user
  | _, _ => ret (lf_at f Authenticate)
  end.

(** *** Judging a sign-in *)

Record RequestContext := mkRequestContext {
  cx_ip : option string;
  cx_user_agent : option string;
  cx_existing_session : option SsoSession;
  cx_device_secret : option string;
  cx_remember_device : bool;
  cx_location : option Location
}.
(** Fresh ids and random bytes a request draws. *)
Record Draws := mkDraws { dr_session : Uuid; dr_ticket : Uuid; dr_salt : list Z }.
(** The administrator an impersonated session's request acts for. *)
Definition acting_of (cx : RequestContext) : option Uuid := imp_user_id <$> (cx_existing_session cx ≫= s_impersonator).

Record Assessment := mkAssessment { as_trusted : option TrustedDevice; as_new_browser : bool; as_risk : RiskAssessment }.
Definition browser_history (tenant user : Uuid) (ua : string) (rows : list SessionRow) : bool * bool :=
  let theirs r := (sr_tenant_id r =? tenant) && (s_user_id (sr_session r) =? user) in
  (existsb theirs rows, existsb (fun r => theirs r && bool_decide (s_user_agent (sr_session r) = Some ua)) rows).
Definition is_new_browser (tenant user : Uuid) (ua : option string) (st : Server) : bool :=
  match ua with
  | None => false
  | Some ua => let '(any_before, same) := browser_history tenant user ua (session_rows (sv_app st)) in any_before && negb same
  end.
Definition assess (now : Z) (tenant : Uuid) (s : Settings) (user : Uuid) (cx : RequestContext) (ip_failures : option Z)
    : M Server ApiError Assessment :=
  let! trusted := is_trusted sha256 now tenant user (cx_device_secret cx) (cx_ip cx) in
  let! elsewhere := gets (is_new_browser tenant user (cx_user_agent cx)) in
  let new_browser := bool_decide (trusted = None) && elsewhere in
  let! risk := gets (evaluate now tenant (st_risk s) user (mkInputs (cx_ip cx) (cx_location cx) new_browser ip_failures)) in
  ret (mkAssessment trusted new_browser risk).

(** *** Denials *)

Definition on_device_codes (f : DevState -> DevState) : M Server ApiError unit := modify (fun st =>
  let d := f (mkDevState (sv_redis st) (sv_counters st) (sv_device_rows st)) in
  sv_with_device_rows (sv_with_counters (sv_with_redis st (dv_redis d)) (dv_guesses d)) (dv_rows d)).
Definition deny_device (now : Z) (f : LoginFlow) : M Server ApiError unit :=
  match aq_device_code (lf_request f) with
  | Some hash => on_device_codes (fun d => deny now d (lf_tenant_id f) hash)
  | None => ret tt
  end.
Context (url_parses : string -> bool) (issuer : Uuid -> string).
Definition error_redirect (now : Z) (ticket : Uuid) (f : LoginFlow) (description : string) : M Server ApiError Redirect :=
  let r := lf_request f in
  if bool_decide (aq_response_mode r = RmQuery) then
    do! guard (negb (url_parses (aq_redirect_uri r))) (InternalError "stored redirect uri") in
    ret (ToClient (aq_redirect_uri r)
           ([("error", "access_denied"); ("error_description", description)]%string
            ++ (match aq_state r with Some s => [("state"%string, s)] | None => [] end)
            ++ [("iss"%string, issuer (lf_tenant_id f))]))
  else
    do! r_set now (denial_ticket_key (lf_tenant_id f) ticket)
          (mkDenial (aq_client_id r) (aq_redirect_uri r) (aq_response_mode r) description (aq_state r)) DENIAL_TTL_SECS in
    ret (ToTicket ticket).
Definition denial_redirect (now : Z) (ticket : Uuid) (f : LoginFlow) : M Server ApiError Redirect :=
  match aq_saml (lf_request f) with
  | Some _ => ret (ToSaml true)
  | None => error_redirect now ticket f "the user denied the request"
  end.
(** [GETDEL], a value that is no denial counting as none. *)
Definition take_denial (now : Z) (tenant id : Uuid) : M Server ApiError (option Denial) := fun st =>
  let '(r, db) := vgetdel now (denial_ticket_key tenant id) (sv_redis st) in
  (Ok (r ≫= from_json), sv_with_redis st db).
Definition cancel (now : Z) (ticket : Uuid) (f : LoginFlow) : M Server ApiError Redirect :=
  do! deny_device now f in
  do! delete_flow now (lf_tenant_id f) (lf_id f) in
  denial_redirect now ticket f.

(** A sign-in the risk policy refused. *)
Definition record_attempt (now : Z) (tenant : Uuid) (identifier : string) (ip : option string) (success : bool) (reason : option string)
    : M Server ApiError unit :=
  modify (fun st => sv_with_attempts st (AttemptRepo.record now tenant identifier ip success reason (sv_attempts st))).
Definition refuse (now : Z) (ticket : Uuid) (f : LoginFlow) (user : UserRow) (risk : RiskAssessment) (cx : RequestContext)
    : M Server ApiError AuthStep :=
  let tenant := lf_tenant_id f in
  do! record_attempt now tenant (ur_username user) (cx_ip cx) false (Some "risk_blocked"%string) in
  do! announce tenant (ur_id user) risk in
  do! deny_device now f in
  do! delete_flow now tenant (lf_id f) in
  let! to := match aq_saml (lf_request f) with
             | Some _ => ret (ToSaml false)
             | None => error_redirect now ticket f "the sign-in was refused"
             end in
  ret (Blocked to).

(** *** Signing in *)

Definition notify_new_device (s : Settings) (tenant : Uuid) (user : UserRow) : M Server ApiError unit :=
  match ur_email user with
  | Some email =>
      if np_new_device (st_notifications s) then modify (fun st => sv_send st (mkMessage tenant ChEmail "new_device" email "")) else ret tt
  | None => ret tt
  end.
Definition new_session (now : Z) (id : Uuid) (tenant : Uuid) (s : Settings) (user : UserRow) (amr : list string) (acr : string)
    (cx : RequestContext) (a : Assessment) : M Server ApiError SsoSession :=
  let! ses := session_create now id (acting_of cx) tenant
    (mkNewSession (ur_id user) amr (Some acr) (cx_ip cx) (cx_user_agent cx) (td_id <$> as_trusted a) (st_session s)) in
  do! (if as_new_browser a
       then do! sv_publish tenant (ActUser (ur_id user)) (NewDeviceLogin (ur_id user) (s_id ses)) in notify_new_device s tenant user
       else ret tt) in
  ret ses.
Definition open_session (now : Z) (id : Uuid) (s : Settings) (f : LoginFlow) (user : UserRow) (amr : list string)
    (cx : RequestContext) (a : Assessment) : M Server ApiError (SsoSession * LoginFlow) :=
  let tenant := lf_tenant_id f in
  let acr := if has_mfa amr then requested_mfa_acr f else ACR_SINGLE in
  let! ses := match cx_existing_session cx with
              | Some old => if s_user_id old =? ur_id user then on_app (fun app => refresh_auth now app old amr (Some acr))
                            else new_session now id tenant s user amr acr cx a
              | None => new_session now id tenant s user amr acr cx a
              end in
  let! ses := match as_trusted a with
              | Some d => if bool_decide (s_device_id ses = Some (td_id d)) then ret ses
                          else on_app (fun app => bind_device now app ses (td_id d))
              | None => ret ses
              end in
  do! record_location now tenant (st_risk s) (ur_id user) (cx_location cx) in
  do! announce tenant (ur_id user) (as_risk a) in
  ret (ses, lf_opened f (ur_id user) (s_id ses) amr (bool_decide (is_Some (as_trusted a))) (steps_up (as_risk a))
              (cx_remember_device cx && bool_decide (as_trusted a = None))).

(** From the verdict that the first factor passed on: shared by every way to
    sign in; [identifier] is what the attempt is recorded under. *)
Definition sign_in (now : Z) (dr : Draws) (acc : Access) (lk : Lookups) (s : Settings) (f : LoginFlow) (user : UserRow)
    (identifier : string) (amr : list string) (cx : RequestContext) (ip_failures : option Z) (must_change : bool) : M Server ApiError AuthStep :=
  let tenant := lf_tenant_id f in
  let! a := assess now tenant s (ur_id user) cx ip_failures in
  if is_blocked (as_risk a) then refuse now (dr_ticket dr) f user (as_risk a) cx
  else
    do! modify (fun st => sv_with_users st (UserRepo.record_login_success now tenant (ur_id user) (sv_users st))) in
    do! record_attempt now tenant identifier (cx_ip cx) true None in
    let! opened := open_session now (dr_session dr) s f user amr cx a in
    let '(ses, f) := opened in
    let! f := advance now acc lk s f must_change in
    do! save_flow now f in
    do! sv_publish tenant (ActUser (ur_id user)) (LoginSucceeded (ur_id user) (default ""%string (head amr))) in
    ret (Authenticated ses f).
Definition complete_authentication (now : Z) (dr : Draws) (acc : Access) (lk : Lookups) (s : Settings) (f : LoginFlow) (user : UserRow)
    (amr : list string) (cx : RequestContext) (must_change : bool) : M Server ApiError AuthStep :=
  sign_in now dr acc lk s f user (ur_username user) amr cx None must_change.

(** *** [POST /flows/{id}/password] *)

Definition not_at (what : string) : ApiError := BadRequest ("flow is not at the " ++ what ++ " step")%string.
Definition at_stage (f : LoginFlow) (stage : FlowStage) (what : string) : M Server ApiError unit :=
  guard (negb (bool_decide (lf_stage f = stage))) (not_at what).
(** [u32 as i32]. *)
Definition as_i32 (n : Z) : Z := if n <? 2 ^ 31 then n else n - 2 ^ 32.

(** The throttle of the address, and the failures the risk policy counts. *)
Definition throttle (now : Z) (tenant : Uuid) (s : Settings) (ip : option string) : M Server ApiError (option Z) :=
  let lockout := st_lockout s in
  let velocity := rp_enabled (st_risk s) && (0 <? velocity_max_failures (st_risk s)) in
  match ip with
  | Some ip =>
      if (0 <? ip_max_failures lockout) || velocity then
        let since := now - Z.max (ip_window_minutes lockout) 1 * 60000 in
        let! counts := gets (fun st => AttemptRepo.failures_from_ip_since tenant ip since
                                         (velocity_since now (velocity_window_minutes (st_risk s))) (sv_attempts st)) in
        do! guard ((0 <? ip_max_failures lockout) && (ip_max_failures lockout <=? counts.1))
              (ApiRateLimited (ip_window_minutes lockout * 60)) in
        ret (if velocity then Some counts.2 else None)
      else ret None
  | None => ret None
  end.
(** The account, imported from a directory when only that knows it, and
    whether the password was checked there. *)
Definition find_account (dir : Directories) (tenant : Uuid) (identifier password : string) : M Server ApiError (option UserRow * bool) :=
  let! user := on_accounts (find_by_identifier tenant identifier) in
  match user with
  | Some u => ret (Some u, false)
  | None =>
      let! imported := dir_sign_in_unknown dir identifier password in
      ret (imported, bool_decide (is_Some imported))
  end.
(** [Ok must_change], or the reason the attempt is refused for. *)
Definition verdict_on (now : Z) (salt : list Z) (dir : Directories) (tenant : Uuid) (s : Settings) (user : option UserRow) (verified : bool)
    (password : string) : M Server ApiError (result string bool) :=
  match user with
  | Some u =>
      if bool_decide (ur_status u = UDisabled) then ret (Err "disabled"%string)
      else if is_locked_now now u then ret (Err "locked"%string)
      else if verified then ret (Ok (ur_must_change_password u))
      else
        let! outcome := verify_and_upgrade now salt dir (st_password s) tenant u password in
        ret (match outcome with PwValid must_change => Ok must_change | PwInvalid => Err "invalid_credentials"%string end)
  | None => ret (Err "invalid_credentials"%string)
  end.
(** A failure is counted against the account; the attempt and the count are
    one transaction. *)
Definition count_failure (now : Z) (tenant : Uuid) (s : Settings) (identifier : string) (ip : option string) (user : option UserRow)
    (reason : string) : M Server ApiError bool :=
  let lockout := st_lockout s in
  do! record_attempt now tenant identifier ip false (Some reason) in
  match user with
  | Some u =>
      if String.eqb reason "invalid_credentials" && (0 <? max_failures lockout) then
        let! failures := (fun st =>
          match UserRepo.record_login_failure now tenant (ur_id u) (as_i32 (max_failures lockout)) (lock_minutes lockout * 60) (sv_users st) with
          | Some (n, rows) => (Ok n, sv_with_users st rows)
          | None => (Err (DatabaseError ""), st)
          end) in
        if as_i32 (max_failures lockout) <=? failures
        then do! sv_publish tenant ActSystem (UserLocked (ur_id u) (lock_minutes lockout * 60)) in ret true
        else ret false
      else ret false
  | None => ret false
  end.
Definition reject_password (now : Z) (s : Settings) (f : LoginFlow) (identifier : string) (ip : option string) (user : option UserRow)
    (reason : string) : M Server ApiError AuthStep :=
  let tenant := lf_tenant_id f in
  let! locked := transaction (count_failure now tenant s identifier ip user reason) in
  let f := lf_tried f (lf_attempts f + 1) in
  do! save_flow now f in
  do! sv_publish tenant ActSystem (LoginFailed identifier reason) in
  ret (Rejected f (locked || String.eqb reason "locked")).
Definition password_step (now : Z) (dr : Draws) (dir : Directories) (acc : Access) (lk : Lookups) (s : Settings) (f : LoginFlow)
    (identifier password : string) (cx : RequestContext) (captcha : option string) : M Server ApiError AuthStep :=
  let tenant := lf_tenant_id f in
  do! at_stage f Authenticate "authenticate" in
  do! guard (negb (am_password (st_auth s))) (BadRequest "password login is disabled for this tenant") in
  let identifier := to_lowercase (trim_str identifier) in
  do! guard (String.eqb identifier "" || String.eqb password "")
        (InvalidFields [mkFieldError "identifier" "identifier and password are required"]) in
  do! lift (enforce_captcha s lk f captcha) in
  let! failures := throttle now tenant s (cx_ip cx) in
  let! account := find_account dir tenant identifier password in
  let '(user, verified) := account in
  let! verdict := verdict_on now (dr_salt dr) dir tenant s user verified password in
  match verdict with
  | Ok must_change =>
      let! user := lift (ok_or user (InternalError "password accepted without a user")) in
      sign_in now dr acc lk s f user identifier ["pwd"%string] cx failures must_change
  | Err reason => reject_password now s f identifier (cx_ip cx) user reason
  end.

(** *** The other steps *)

Definition flow_user (f : LoginFlow) : M Server ApiError Uuid := lift (ok_or (lf_user_id f) Unauthorized).
Definition move_on (now : Z) (acc : Access) (lk : Lookups) (s : Settings) (f : LoginFlow) : M Server ApiError LoginFlow :=
  let! f := advance now acc lk s f false in
  do! save_flow now f in
  ret f.
Definition password_change_step (now : Z) (salt : list Z) (breached : string -> option (result unit Z)) (dir : Directories) (acc : Access)
    (lk : Lookups) (s : Settings) (f : LoginFlow) (password : string) : M Server ApiError LoginFlow :=
  do! at_stage f PasswordChange "password change" in
  let! user := flow_user f in
  do! set_password now salt breached dir s (lf_tenant_id f) (ActUser user) user password (mkSetPasswordOptions false false true true) in
  move_on now acc lk s f.
Definition profile_step (now : Z) (acting : option Uuid) (ldap : UserRow -> UserUpdate -> result ApiError unit) (acc : Access)
    (lk : Lookups) (s : Settings) (f : LoginFlow) (attributes : Value) : M Server ApiError LoginFlow :=
  do! at_stage f StProfile "profile" in
  let! user := flow_user f in
  let! _ := on_accounts (update_user now acting ldap (lf_tenant_id f) (ActUser user) user
              (mkUserUpdate None None None None None None (Some attributes) None None None None)) in
  move_on now acc lk s f.
Definition terms_step (now : Z) (acc : Access) (lk : Lookups) (s : Settings) (f : LoginFlow) (accepted : bool) : M Server ApiError LoginFlow :=
  let tenant := lf_tenant_id f in
  do! at_stage f Terms "terms" in
  do! guard (negb accepted) (Forbidden "terms must be accepted to continue") in
  let! user := flow_user f in
  do! modify (fun st => sv_with_users st (UserRepo.set_terms_accepted now tenant user (sv_users st)).1) in
  do! sv_publish tenant (ActUser user) (TermsAccepted user) in
  move_on now acc lk s f.
Definition organization_step (now : Z) (acc : Access) (lk : Lookups) (s : Settings) (f : LoginFlow) (org : Uuid) : M Server ApiError LoginFlow :=
  do! at_stage f StOrganization "organization" in
  let! user := flow_user f in
  do! guard (negb (existsb (fun o => og_id o =? org) (lk_orgs lk user))) (BadRequest "not a member of that organization") in
  let! f := bind_org now (lf_tenant_id f) s f org in
  move_on now acc lk s f.

(** [Vec::dedup]: neighbours that are equal. *)
Fixpoint dedup (l : list string) : list string :=
  match l with
  | a :: rest => match rest with b :: _ => if String.eqb a b then dedup rest else a :: dedup rest | [] => [a] end
  | [] => []
  end.
Definition effective_scopes (f : LoginFlow) (granted : list string) : list string :=
  dedup (filter (fun s => s = "openid"%string \/ s ∈ granted \/ s ∉ lf_pending_scopes f) (aq_scopes (lf_request f))).
Definition consent_step (now : Z) (ticket : Uuid) (acc : Access) (lk : Lookups) (s : Settings) (f : LoginFlow) (approve : bool)
    (granted : option (list string)) : M Server ApiError ConsentOutcome :=
  let tenant := lf_tenant_id f in
  do! at_stage f StConsent "consent" in
  let! user := flow_user f in
  if negb approve then
    do! deny_device now f in
    let! to := denial_redirect now ticket f in
    ret (ConsentDenied to)
  else
    do! match lf_session_id f with
        | Some sid =>
            let! ses := session_get now tenant sid s in
            guard (bool_decide (is_Some (ses ≫= s_impersonator))) ImpersonationForbidden
        | None => ret tt
        end in
    let! client := lift (ok_or (lk_client lk (aq_client_public_id (lf_request f))) (ApiNotFound "client")) in
    let effective := effective_scopes f (default (lf_pending_scopes f) granted) in
    do! grant now tenant user (cl_id client) effective in
    let f := lf_at (lf_pending (lf_requesting f (with_scopes (lf_request f) effective)) []) Done in
    let! f := move_on now acc lk s f in
    ret (ConsentGiven f).

(** *** Other first factors *)

Definition reject_first (now : Z) (f : LoginFlow) (reason : string) : M Server ApiError AuthStep :=
  let f := lf_tried f (lf_attempts f + 1) in
  do! save_flow now f in
  do! sv_publish (lf_tenant_id f) ActSystem (LoginFailed ""%string reason) in
  ret (Rejected f false).
Definition active_user (tenant user : Uuid) : M Server ApiError UserRow :=
  let! row := on_accounts (get_user tenant user) in
  do! guard (negb (bool_decide (ur_status row = UActive)) && negb (bool_decide (ur_status row = UPending)))
        (Forbidden "account is not active") in
  ret row.
Definition owes_password (s : Settings) (row : UserRow) : bool := ur_must_change_password row && am_password (st_auth s).

Definition passwordless_send_step (now : Z) (bytes : list Z) (provider : result ApiError unit) (lk : Lookups) (s : Settings) (f : LoginFlow)
    (m : Method) (identifier : string) (captcha : option string) : M Server ApiError unit :=
  do! at_stage f Authenticate "authenticate" in
  do! lift (enforce_captcha s lk f captcha) in
  send sha256 b64 now bytes provider (lf_tenant_id f) s (lf_id f) m identifier.
Definition passwordless_verify_step (now : Z) (dr : Draws) (ldap : UserRow -> UserUpdate -> result ApiError unit) (acc : Access)
    (lk : Lookups) (s : Settings) (f : LoginFlow) (m : Method) (secret : string) (cx : RequestContext) : M Server ApiError AuthStep :=
  let tenant := lf_tenant_id f in
  do! at_stage f Authenticate "authenticate" in
  let! verified := match m with
                   | MagicLink => verify_magic_link sha256 b64 now tenant (lf_id f) secret
                   | EmailOtp | SmsOtp => verify_otp sha256 b64 now tenant (lf_id f) m secret
                   end in
  match verified with
  | None => reject_first now f (method_str m ++ "_invalid")%string
  | Some v =>
      let! row := active_user tenant (ov_user_id v) in
      do! mark_contact_verified now (acting_of cx) ldap tenant (ur_id row) m in
      let amr := match m with SmsOtp => ["otp"; "sms"]%string | _ => ["otp"%string] end in
      complete_authentication now dr acc lk s f row amr cx (owes_password s row)
  end.

(** [registration::register] sends its own CAPTCHA answer first. *)
Definition register_step (now : Z) (dr : Draws) (id : Uuid) (bytes : list Z) (provider : result ApiError unit)
    (breached : string -> option (result unit Z)) (dir : Directories) (locale : string) (acc : Access) (lk : Lookups) (s : Settings)
    (f : LoginFlow) (i : RegistrationInput) (captcha : option string) (cx : RequestContext) : M Server ApiError AuthStep :=
  let tenant := lf_tenant_id f in
  do! guard (negb (bool_decide (lf_stage f = Authenticate)) && negb (bool_decide (lf_stage f = Register)))
        (BadRequest "flow does not accept registration at this step") in
  do! (if on_registration (st_captcha s) then lift (enforce_captcha s lk (lf_at f Register) captcha) else ret tt) in
  let! made := register sha256 b64 now id bytes (dr_salt dr) provider breached dir locale s tenant i (Some (lf_id f)) in
  let '(row, pending) := made in
  if (pending : bool) then
    let f := lf_waiting f (ur_id row) in
    do! save_flow now f in
    ret (Rejected f false)
  else complete_authentication now dr acc lk s f row ["pwd"%string] cx false.
Definition resume_after_verification (now : Z) (dr : Draws) (acc : Access) (lk : Lookups) (s : Settings) (tenant flow : Uuid) (row : UserRow)
    (cx : RequestContext) : M Server ApiError (option AuthStep) :=
  let! f := gets (get_flow now tenant flow) in
  match f with
  | Some f =>
      if bool_decide (lf_stage f = VerifyEmail) && bool_decide (lf_user_id f = Some (ur_id row))
      then let! r := complete_authentication now dr acc lk s f row ["otp"%string] cx false in ret (Some r)
      else ret None
  | None => ret None
  end.

(** *** Second factors *)

Definition mfa_user (f : LoginFlow) : M Server ApiError UserRow :=
  do! at_stage f StMfa "second-factor" in
  let! user := flow_user f in
  active_user (lf_tenant_id f) user.
Definition add_methods (amr methods : list string) : list string :=
  foldl (fun amr m => if existsb (String.eqb m) amr then amr else amr ++ [m]) amr (methods ++ ["mfa"%string]).
(** The second factor is recorded on the session and the flow moves on. *)
Definition pass_second_factor (now : Z) (acc : Access) (lk : Lookups) (s : Settings) (f : LoginFlow) (user : UserRow) (methods : list string)
    (remember : bool) : M Server ApiError LoginFlow :=
  let! sid := lift (ok_or (lf_session_id f) Unauthorized) in
  let! found := session_get now (lf_tenant_id f) sid s in
  let! ses := lift (match found with
                    | Some ses => if s_user_id ses =? ur_id user then Ok ses else Err Unauthorized
                    | None => Err Unauthorized
                    end) in
  let amr := add_methods (lf_amr f) methods in
  let! _ := on_app (fun app => refresh_auth now app ses amr (Some (requested_mfa_acr f))) in
  move_on now acc lk s (lf_passed f amr remember).
Definition mfa_reject (now : Z) (f : LoginFlow) (user : UserRow) : M Server ApiError MfaStep :=
  let f := lf_tried f (lf_attempts f + 1) in
  do! (if MFA_MAX_ATTEMPTS <=? lf_attempts f then delete_flow now (lf_tenant_id f) (lf_id f) else save_flow now f) in
  do! sv_publish (lf_tenant_id f) (ActUser (ur_id user)) (LoginFailed (ur_username user) "mfa_invalid") in
  ret (MfaRejected f).
(** What every second-factor handler does with the answer of its service:
    the methods that passed and the codes to show, or nothing. *)
Definition second_factor (now : Z) (acc : Access) (lk : Lookups) (s : Settings) (f : LoginFlow) (remember : bool)
    (check : UserRow -> M Server ApiError (option (list string * option (list (list Z))))) : M Server ApiError MfaStep :=
  let! user := mfa_user f in
  let! passed := check user in
  match passed with
  | Some (methods, codes) =>
      let! f := pass_second_factor now acc lk s f user methods remember in
      ret (MfaPassed f codes)
  | None => mfa_reject now f user
  end.

Context (hmac_sha1 : list Z -> list Z -> list Z) (b64b : list Z -> list Z) (client_data : list Z -> option ClientData).
Context `{!Serde PendingEnrolment} `{!JsonBytes TotpData} `{!JsonBytes RecoveryData}.
Context `{UrlLib} `{Signatures} `{!Serde RegistrationState} `{!Serde AuthenticationState} `{!JsonBytes StoredPasskey}.

(** Ids and bytes drawn for a new factor and its recovery codes. *)
Record FactorDraws := mkFactorDraws { fd_id : Uuid; fd_codes_id : Uuid; fd_codes : nat -> list Z; fd_rnd : Random; fd_codes_rnd : Random }.
Definition first_recovery_codes (now : Z) (d : FactorDraws) (tenant user : Uuid) : M Server ApiError (option (list (list Z))) :=
  let! f := on_mfa (factors_of now tenant user) in
  if f_recovery f =? 0
  then let! codes := on_mfa (regenerate_recovery_codes sha256 b64b now (fd_codes_id d) (fd_codes d) (fd_codes_rnd d) tenant user) in ret (Some codes)
  else ret None.

Definition mfa_enrol_begin (now : Z) (bytes : list Z) (names : Names) (s : Settings) (f : LoginFlow) : M Server ApiError Enrolment :=
  let! user := mfa_user f in
  do! guard (negb (mm_totp (st_mfa_methods s))) (BadRequest "authenticator apps are disabled for this tenant") in
  let! have := on_mfa (factors_of now (lf_tenant_id f) (ur_id user)) in
  do! guard (f_totp have) (BadRequest "an authenticator app is already enrolled") in
  on_mfa (begin_enrolment now bytes (lf_tenant_id f) (lf_id f) names).
Definition mfa_enrol_confirm (now : Z) (d : FactorDraws) (acc : Access) (lk : Lookups) (s : Settings) (f : LoginFlow) (code : string)
    (label : option (list Z)) (remember : bool) : M Server ApiError MfaStep :=
  second_factor now acc lk s f remember (fun user =>
    let! codes := on_mfa (confirm_enrolment hmac_sha1 sha256 b64b now (fd_id d) (fd_codes_id d) (fd_codes d) (fd_rnd d) (fd_codes_rnd d)
                            (lf_tenant_id f) (lf_id f) (ur_id user) (chars_of code) label) in
    ret ((fun codes => (["otp"%string], Some codes)) <$> codes)).
Definition mfa_verify_step (now : Z) (rnd : Random) (acc : Access) (lk : Lookups) (s : Settings) (f : LoginFlow) (code : string) (remember : bool)
    : M Server ApiError MfaStep :=
  second_factor now acc lk s f remember (fun user =>
    let! v := on_mfa (Mfa.verify hmac_sha1 sha256 b64b now rnd (lf_tenant_id f) (ur_id user) (chars_of code)) in
    ret (match v with
         | Some (VTotp _) => Some (["otp"%string], None)
         | Some (VRecoveryCode _) => Some ([], None)
         | None => None
         end)).
Definition mfa_otp_enrol_begin (now : Z) (bytes : list Z) (provider : result ApiError unit) (s : Settings) (f : LoginFlow) (c : Channel)
    (phone : option string) : M Server ApiError Sent :=
  let! user := mfa_user f in
  begin_otp_enrolment sha256 b64 now bytes provider s (lf_tenant_id f) (lf_id f) user c phone.
Definition mfa_otp_enrol_confirm (now : Z) (d : FactorDraws) (acting : option Uuid) (ldap : UserRow -> UserUpdate -> result ApiError unit)
    (acc : Access) (lk : Lookups) (s : Settings) (f : LoginFlow) (c : Channel) (code : string) (remember : bool) : M Server ApiError MfaStep :=
  second_factor now acc lk s f remember (fun user =>
    let! ok := confirm_otp_enrolment sha256 b64 now (fd_id d) (fd_rnd d) acting ldap (lf_tenant_id f) (lf_id f) user c code in
    if (ok : bool) then
      let! codes := first_recovery_codes now d (lf_tenant_id f) (ur_id user) in
      ret (Some (channel_amr c, codes))
    else ret None).
Definition mfa_otp_send (now : Z) (bytes : list Z) (provider : result ApiError unit) (f : LoginFlow) (c : Channel) : M Server ApiError Sent :=
  let! user := mfa_user f in
  send_code sha256 b64 now bytes provider (lf_tenant_id f) (lf_id f) user c.
Definition mfa_otp_verify (now : Z) (acc : Access) (lk : Lookups) (s : Settings) (f : LoginFlow) (c : Channel) (code : string) (remember : bool)
    : M Server ApiError MfaStep :=
  second_factor now acc lk s f remember (fun user =>
    let! ok := verify_otp_factor sha256 b64 now (lf_tenant_id f) (lf_id f) user c code in
    ret (if (ok : bool) then Some (channel_amr c, None) else None)).

Definition require_passkeys_enabled (s : Settings) : result ApiError unit :=
  if am_passkey (st_auth s) then Ok tt else Err (BadRequest "passkeys are disabled for this tenant").
Definition pk_user (u : UserRow) : PkUser :=
  mkPkUser (ur_id u) (chars_of (ur_username u)) (chars_of <$> ur_email u)
    (match value_get "name" (u_attributes (ur_user u)) with Some (VString n) => Some (chars_of n) | _ => None end).
Definition mfa_passkey_register_begin (now : Z) (challenge : list Z) (t : PkTenant) (s : Settings) (f : LoginFlow) : M Server ApiError CreationOptions :=
  let! user := mfa_user f in
  do! lift (require_passkeys_enabled s) in
  on_mfa (begin_registration sha256 now challenge t (lf_id f) (pk_user user)).
Definition mfa_passkey_register_finish (now : Z) (d : FactorDraws) (t : PkTenant) (acc : Access) (lk : Lookups) (s : Settings) (f : LoginFlow)
    (credential : RegisterPublicKeyCredential) (label : option (list Z)) (remember : bool) : M Server ApiError MfaStep :=
  second_factor now acc lk s f remember (fun user =>
    do! lift (require_passkeys_enabled s) in
    let! row := on_mfa (Passkeys.finish_registration sha256 b64b client_data now (fd_id d) (fd_rnd d) t (lf_id f) (pk_user user) credential label) in
    match row with
    | Some _ => let! codes := first_recovery_codes now d (lf_tenant_id f) (ur_id user) in ret (Some (["hwk"; "user"]%string, codes))
    | None => ret None
    end).
Definition mfa_passkey_begin (now : Z) (challenge : list Z) (t : PkTenant) (f : LoginFlow) : M Server ApiError RequestOptions :=
  let! user := mfa_user f in
  on_mfa (begin_authentication sha256 now challenge t (lf_id f) (pk_user user)).
Definition mfa_passkey_finish (now : Z) (rnd : Random) (t : PkTenant) (acc : Access) (lk : Lookups) (s : Settings) (f : LoginFlow)
    (credential : PublicKeyCredential) (remember : bool) : M Server ApiError MfaStep :=
  second_factor now acc lk s f remember (fun user =>
    let! v := on_mfa (Passkeys.finish_authentication sha256 client_data now rnd t (lf_id f) (pk_user user) credential) in
    ret ((fun v => (if pv_user_verified v then ["hwk"; "user"]%string else ["hwk"%string], None)) <$> v)).

Definition passkey_begin (now : Z) (challenge : list Z) (t : PkTenant) (s : Settings) (f : LoginFlow) : M Server ApiError RequestOptions :=
  do! at_stage f Authenticate "authenticate" in
  do! lift (require_passkeys_enabled s) in
  on_mfa (begin_discoverable sha256 now challenge t (lf_id f)).
Definition passkey_finish (now : Z) (dr : Draws) (rnd : Random) (t : PkTenant) (acc : Access) (lk : Lookups) (s : Settings) (f : LoginFlow)
    (credential : PublicKeyCredential) (cx : RequestContext) : M Server ApiError AuthStep :=
  do! at_stage f Authenticate "authenticate" in
  do! lift (require_passkeys_enabled s) in
  let! found := on_mfa (finish_discoverable sha256 b64b client_data now rnd t (lf_id f) credential) in
  match found with
  | None => reject_first now f "passkey_invalid"
  | Some (user, v) =>
      let! row := active_user (lf_tenant_id f) user in
      let amr := if pv_user_verified v then ["hwk"; "user"; "mfa"]%string else ["hwk"%string] in
      complete_authentication now dr acc lk s f row amr cx (owes_password s row)
  end.
End flows.
