(* ===== verification/Authorize.v ===== *)
(** * Authorization

    The decision of [/authorize] on a validated request ([decide] and
    [issue_code] of [api/src/oidc/authorize.rs]), what a live session still
    owes ([unfinished_stage] of [services/flows.rs]), and the end of a flow
    ([finish] of [routes/flows.rs]). How a request is validated is in
    [Requests]; JARM and the delivery of the parameters are left out; a SAML
    service provider's answer is only named. *)

From stdpp Require Import gmap strings.
From Stdlib Require Import Ascii.
From S2P Require Import Prelude Effects Utf8 Valkey AppState Sessions RefreshTokens AuthCodes DeviceCodes KeyCustody Credentials Totp Mfa.
From S2P Require Import Webauthn Passkeys ApiErrors Models Profile Users Server Otp Risk Passwords SelfService Access Flows.

(** What the browser gets: a page of the UI, an error for the client, the
    code (with what it stands for) and the other parameters, the page of a
    device that was approved, or a SAML response. *)
Inductive Authorized :=
| ToUi (page : string) (flow : LoginFlow)
| ToError (code : OAuthErrorCode)
| WithCode (code : string) (grant : AuthCode) (params : list (string * string))
| DeviceDone (uri : string)
| SamlResponse.

Definition page_for (stage : FlowStage) : string :=
  match stage with StMfa => "mfa" | StConsent => "consent" | Register | VerifyEmail => "register" | _ => "login" end.

Section authorize.
Context `{Valkey} `{Counters} `{UuidDisplay} `{KeyEncryptor} `{Geo} `{TextLib}.
Context `{!Serde SsoSession} `{!Serde LoginFlow} `{!Serde DeviceRecord} `{!Serde AuthCode}.
Context (sha256 : list Z -> list Z) (b64 : list Z -> string) (url_parses : string -> bool) (issuer : Uuid -> string).

(** ** What a session owes *)

Definition owed_step (o : Owed) : option FlowStage := match o with OwesStep s => Some s | _ => None end.
(** The cookie of a trusted device, the address and the location are the
    request's. *)
Definition unfinished_stage (now : Z) (acc : Access) (tenant : Uuid) (s : Settings) (ses : SsoSession) (cookie ip : option string)
    (location : option Location) : M Server ApiError Owed :=
  let! row := gets (fun st => UserRepo.find_by_id tenant (s_user_id ses) (sv_users st)) in
  match row with
  | Some u =>
      if negb (ur_live u) || negb (bool_decide (ur_status u = UActive) || bool_decide (ur_status u = UPending)) then ret (OwesStep Authenticate)
      else if bool_decide (is_Some (s_impersonator ses)) then ret OwesNothing
      else if ur_must_change_password u && am_password (st_auth s) then ret (OwesStep PasswordChange)
      else
        let! risk := gets (evaluate now tenant (st_risk s) (ur_id u) (mkInputs ip location false None)) in
        if is_blocked risk then do! announce tenant (ur_id u) risk in ret OwesBlocked
        else
          let stepped_up := has_mfa (s_amr ses) in
          if steps_up risk && negb stepped_up then do! announce tenant (ur_id u) risk in ret (OwesStep StMfa)
          else if stepped_up then ret OwesNothing
          else
            let! policy := (fun st => (policy_requires_mfa acc tenant s (ur_id u) st, st)) in
            if negb policy then ret OwesNothing
            else
              let! trusted := is_trusted sha256 now tenant (ur_id u) cookie None in
              ret (if bool_decide (trusted = None) then OwesStep StMfa else OwesNothing)
  | None => ret (OwesStep Authenticate)
  end.

(** ** Codes *)

(** [sessions::remaining], in seconds, and [sessions::add_client]. *)
Definition remaining (now : Z) (ses : SsoSession) : Z := Z.max (num_seconds (Z.min (s_expires_at ses) (s_idle_expires_at ses) - now)) 0.
Definition add_client (now : Z) (ses : SsoSession) (client_id : string) : M Server ApiError unit :=
  let key := session_clients (s_tenant_id ses) (s_id ses) in
  modify (fun st => sv_with_redis st (vexpire Always now key (Z.max (remaining now ses) 60 * 1000) (vsadd now key client_id (sv_redis st)))).
(** [acting]: what [impersonation::acting] says of the session. *)
Definition issue_authorization (now : Z) (bytes : list Z) (acting : SsoSession -> result ApiError (option Acting)) (tenant : Uuid)
    (client : Client) (r : AuthRequest) (ses : SsoSession) : M Server ApiError Authorized :=
  match aq_saml r with
  | Some _ => ret SamlResponse
  | None =>
      let! act := lift (acting ses) in
      let grant := mkAuthCode tenant (cl_id client) (cl_client_id client) (s_user_id ses) (s_id ses) (aq_redirect_uri r) (aq_scopes r)
        (aq_audiences r) (aq_nonce r) (aq_code_challenge r) (s_auth_time ses) (s_amr ses) (s_acr ses) (s_org_id ses) act (aq_claims r) now in
      let! code := (fun st => let '(code, db) := AuthCodes.issue_code (fun c => sha256 (ascii_bytes c)) b64 now bytes (sv_redis st) grant in
                              (Ok code, sv_with_redis st db)) in
      do! add_client now ses (cl_client_id client) in
      do! sv_publish tenant (ActUser (s_user_id ses)) (AuthorizationGranted (s_user_id ses) (cl_id client) (aq_scopes r)) in
      ret (WithCode code grant ([("code"%string, code); ("iss"%string, issuer tenant)]
                                ++ match aq_state r with Some s => [("state"%string, s)] | None => [] end))
  end.

(** ** [/authorize] *)

Definition new_flow (id tenant : Uuid) (r : AuthRequest) (stage : FlowStage) (now : Z) : LoginFlow :=
  mkLoginFlow id tenant r stage None None [] (Some now) "" 0 [] None false false false now now.
Definition resumed_flow (id tenant : Uuid) (r : AuthRequest) (stage : FlowStage) (ses : SsoSession) (now : Z) : LoginFlow :=
  mkLoginFlow id tenant r stage (Some (s_id ses)) (Some (s_user_id ses)) [] None "" 0 (s_amr ses) (s_org_id ses) false
    (bool_decide (stage = StMfa)) false now now.
Definition consent_flow (id tenant : Uuid) (r : AuthRequest) (pending : list string) (ses : SsoSession) (now : Z) : LoginFlow :=
  mkLoginFlow id tenant r StConsent (Some (s_id ses)) (Some (s_user_id ses)) pending None "" 0 [] (s_org_id ses) false false false now now.

(** A session recent enough for [max_age], and of a class that was asked for. *)
Definition fresh_enough (now : Z) (r : AuthRequest) (ses : SsoSession) : bool :=
  match aq_max_age r with
  | Some max => negb (max =? 0) && (Z.max (num_seconds (now - s_auth_time ses)) 0 <=? max)
  | None => true
  end.
Definition acr_ok (r : AuthRequest) (ses : SsoSession) : bool :=
  bool_decide (requested_mfa_class (aq_acr_values r) = None)
  || match s_acr ses with Some acr => existsb (String.eqb acr) (aq_acr_values r) | None => false end.
Definition asked_consent (tenant : Uuid) (client : Client) (r : AuthRequest) (user : Uuid) (st : Server) : list string :=
  let force := prompts r "consent" in
  if aq_skip_consent r && negb force then [] else if force then aq_scopes r else missing_scopes tenant user (cl_id client) (aq_scopes r) st.

Definition open_flow (now : Z) (csrf : list Z) (f : LoginFlow) (page : string) : M Server ApiError Authorized :=
  let! f := create_flow b64 now csrf f in ret (ToUi page f).
(** [cookie]: the session of the request's cookie; [csrf] and [bytes]: drawn
    for a flow and for a code. *)
Definition decide_session (now : Z) (id tenant : Uuid) (csrf bytes : list Z) (acting : SsoSession -> result ApiError (option Acting)) (client : Client)
    (r : AuthRequest) (ses : SsoSession) : M Server ApiError Authorized :=
  let! pending := gets (asked_consent tenant client r (s_user_id ses)) in
  if bool_decide (pending = []) then issue_authorization now bytes acting tenant client r ses
  else if prompts r "none" then ret (ToError ConsentRequired)
  else if bool_decide (is_Some (s_impersonator ses)) then ret (ToError AccessDenied)
  else open_flow now csrf (consent_flow id tenant r pending ses now) "consent".
Definition decide (now : Z) (id tenant : Uuid) (csrf bytes : list Z) (acting : SsoSession -> result ApiError (option Acting)) (acc : Access)
    (s : Settings) (client : Client) (r : AuthRequest) (cookie : option Uuid) (device ip : option string) (location : option Location)
    : M Server ApiError Authorized :=
  let create := prompts r "create" in
  let force_login := prompts r "login" || prompts r "select_account" in
  let! session := match cookie with Some sid => session_get now tenant sid s | None => ret None end in
  let needs_auth := create || force_login || match session with Some ses => negb (fresh_enough now r ses) | None => true end in
  let! owed := match session with
               | Some ses => if needs_auth then ret OwesNothing else unfinished_stage now acc tenant s ses device ip location
               | None => ret OwesNothing
               end in
  if bool_decide (owed = OwesBlocked) then ret (ToError AccessDenied)
  else
    let needs_auth := needs_auth || bool_decide (owed_step owed = Some Authenticate) in
    let resume := match owed_step owed with
                  | Some Authenticate | None => match session with Some ses => if acr_ok r ses then None else Some StMfa | None => None end
                  | Some stage => Some stage
                  end in
    if needs_auth then
      if prompts r "none" then ret (ToError LoginRequired)
      else open_flow now csrf (new_flow id tenant r (if create then Register else Authenticate) now) (if create then "register" else "login")
    else
      match session with
      | None => throw (InternalError "authorization decided without a session")
      | Some ses =>
          match resume with
          | Some stage =>
              if prompts r "none" then ret (ToError LoginRequired)
              else open_flow now csrf (resumed_flow id tenant r stage ses now) (page_for stage)
          | None => decide_session now id tenant csrf bytes acting client r ses
          end
      end.

(** ** [GET /flows/{id}/finish] *)

(** The device is remembered now that every step is done. *)
Definition remember_now (now : Z) (id : Uuid) (secret : list Z) (tenant : Uuid) (s : Settings) (f : LoginFlow) (ses : SsoSession)
    (ua ip : option string) : M Server ApiError SsoSession :=
  if lf_remember_device f && negb (lf_trusted_device f) then
    let! trusted := trust sha256 b64 now id secret tenant s (s_user_id ses) None ua ip in
    on_app (fun app => bind_device now app ses (td_id trusted.1))
  else ret ses.
Definition approve_device (now : Z) (acting : SsoSession -> result ApiError (option Acting)) (tenant : Uuid) (f : LoginFlow) (client : Client)
    (ses : SsoSession) (hash : string) : M Server ApiError Authorized :=
  let! act := lift (acting ses) in
  let! _ := (fun st =>
    let '(r, d) := approve now (mkDevState (sv_redis st) (sv_counters st) (sv_device_rows st)) tenant hash ses act (aq_scopes (lf_request f)) in
    (match r with Ok rec => Ok rec | Err _ => Err (ApiNotFound "device code") end,
     sv_with_device_rows (sv_with_counters (sv_with_redis st (dv_redis d)) (dv_guesses d)) (dv_rows d))) in
  do! add_client now ses (cl_client_id client) in
  do! sv_publish tenant (ActUser (s_user_id ses)) (AuthorizationGranted (s_user_id ses) (cl_id client) (aq_scopes (lf_request f))) in
  do! guard (negb (url_parses (aq_redirect_uri (lf_request f)))) (InternalError "device page url") in
  ret (DeviceDone (aq_redirect_uri (lf_request f))).
(** The flow is deleted; a failure ([deleted] false) is only logged. *)
Definition forget_flow (now : Z) (deleted : bool) (tenant id : Uuid) : M Server ApiError unit :=
  if deleted then delete_flow now tenant id else ret tt.
(** [finish] once it has read the flow, which other requests may have changed
    or ended since. [cookie]: the session of the request's cookie; [device_id]
    and [secret]: drawn for a device to remember. *)
Definition finish_loaded (now : Z) (device_id : Uuid) (secret bytes : list Z) (deleted : bool)
    (acting : SsoSession -> result ApiError (option Acting)) (lk : Lookups) (s : Settings) (tenant id : Uuid) (cookie : option Uuid)
    (ua ip : option string) (f : LoginFlow) : M Server ApiError Authorized :=
  do! guard (negb (bool_decide (lf_stage f = Done))) (BadRequest "flow is not complete") in
  let! session := match cookie with Some sid => session_get now tenant sid s | None => ret None end in
  let! ses := lift (match session with
                    | Some ses => if bool_decide (Some (s_id ses) = lf_session_id f) && bool_decide (Some (s_user_id ses) = lf_user_id f)
                                  then Ok ses else Err Unauthorized
                    | None => Err Unauthorized
                    end) in
  let! ses := remember_now now device_id secret tenant s f ses ua ip in
  let! client := lift (ok_or (lk_client lk (aq_client_public_id (lf_request f))) (ApiNotFound "client")) in
  do! forget_flow now deleted tenant id in
  match aq_device_code (lf_request f) with
  | Some hash => approve_device now acting tenant f client ses hash
  | None => issue_authorization now bytes acting tenant client (lf_request f) ses
  end.
Definition finish (now : Z) (device_id : Uuid) (secret bytes : list Z) (deleted : bool)
    (acting : SsoSession -> result ApiError (option Acting)) (lk : Lookups) (s : Settings) (tenant id : Uuid) (cookie : option Uuid)
    (ua ip : option string) : M Server ApiError Authorized :=
  let! f := load_flow now tenant id in
  finish_loaded now device_id secret bytes deleted acting lk s tenant id cookie ua ip f.
End authorize.

(** ** What runs return *)

Section returns.
Context {S E : Type}.
(** Whatever the run started from, what it returns satisfies [P]. *)
Definition returns {A} (P : A -> Prop) (m : M S E A) : Prop := forall s a s', m s = (Ok a, s') -> P a.
Lemma returns_ret {A} (P : A -> Prop) a : P a -> returns P (ret a).
Proof. by intros Ha s x s' [= <- <-]. Qed.
Lemma returns_throw {A} (P : A -> Prop) e : returns P (throw e).
Proof. by intros s x s'. Qed.
Lemma returns_bind {A B} (Q : A -> Prop) (P : B -> Prop) (m : M S E A) (k : A -> M S E B) :
  returns Q m -> (forall a, Q a -> returns P (k a)) -> returns P (bind m k).
Proof. intros Hm Hk s b s' Hb. inv_run. eapply Hk; [|done]. by eapply Hm. Qed.
(** The value of the first step does not matter. *)
Lemma returns_seq {A B} (P : B -> Prop) (m : M S E A) (k : A -> M S E B) : (forall a, returns P (k a)) -> returns P (bind m k).
Proof. intros Hk. apply (returns_bind (fun _ => True)); [by intros s a s'|]. intros a _. apply Hk. Qed.
Lemma returns_guard {B} (P : B -> Prop) b e (k : unit -> M S E B) : (b = false -> returns P (k tt)) -> returns P (bind (guard b e) k).
Proof. intros Hk. apply (returns_bind (fun _ => b = false)); [intros s a s' Hg; inv_run; done|]. by intros []. Qed.
Lemma returns_lift {A B} (P : B -> Prop) (r : result E A) (k : A -> M S E B) : (forall a, r = Ok a -> returns P (k a)) -> returns P (bind (lift r) k).
Proof. intros Hk. apply (returns_bind (fun a => r = Ok a)); [intros s a s' Hg; inv_run; done|]. done. Qed.
Lemma returns_weaken {A} (P Q : A -> Prop) m : (forall a, P a -> Q a) -> returns P m -> returns Q m.
Proof. intros Hpq Hm s a s' Hr. by eapply Hpq, Hm. Qed.
End returns.

(** ** Stages *)

(** Before anybody signed in; and after the second factor, if one was asked.
    (Consent is not such a stage: a flow that is opened only for the consent of
    a live session starts there, with none of the methods of the session.) *)
Definition initial (st : FlowStage) : bool := match st with Authenticate | Register | VerifyEmail => true | _ => false end.
Definition past_mfa (st : FlowStage) : bool := match st with StProfile | Terms | StOrganization | Done => true | _ => false end.
(** The client asked for a class of several factors, or the risk policy for a
    second one. *)
Definition asks_mfa (f : LoginFlow) : Prop := is_Some (requested_mfa_class (aq_acr_values (lf_request f))) \/ lf_risk_step_up f = true.

(** The same sign-in. *)
Definition same_sign_in (f f' : LoginFlow) : Prop :=
  lf_user_id f' = lf_user_id f /\ lf_session_id f' = lf_session_id f /\ lf_amr f' = lf_amr f /\ lf_risk_step_up f' = lf_risk_step_up f
  /\ aq_acr_values (lf_request f') = aq_acr_values (lf_request f).
Lemma same_refl f : same_sign_in f f.
Proof. done. Qed.
Lemma same_trans f g h : same_sign_in f g -> same_sign_in g h -> same_sign_in f h.
Proof. unfold same_sign_in. intros (? & ? & ? & ? & ?) (? & ? & ? & ? & ?). repeat split; congruence. Qed.
(** Where [advance] leaves a flow. *)
Definition advanced (f f' : LoginFlow) : Prop :=
  same_sign_in f f' /\ (is_Some (lf_user_id f) -> is_Some (lf_session_id f) -> initial (lf_stage f') = false)
  /\ (initial (lf_stage f') = true -> lf_user_id f = None \/ lf_session_id f = None)
  /\ (past_mfa (lf_stage f') = true \/ lf_stage f' = StConsent -> asks_mfa f -> has_mfa (lf_amr f) = true).

Section stages.
Context `{Valkey} `{Counters} `{UuidDisplay} `{KeyEncryptor} `{Geo} `{TextLib} `{!Serde SsoSession}.

Lemma mfa_required_asks acc t s f u st : mfa_required acc t s f u st = Ok false -> asks_mfa f -> has_mfa (lf_amr f) = true.
Proof.
  unfold mfa_required, asks_mfa. destruct (has_mfa (lf_amr f)); [done|]. intros Hm [Hc | Hr].
  - rewrite bool_decide_true in Hm by done. discriminate Hm.
  - rewrite Hr, orb_true_r in Hm. discriminate Hm.
Qed.
Lemma bind_org_same now t s f o : returns (same_sign_in f) (bind_org now t s f o).
Proof. apply returns_seq. intros _. by apply returns_ret. Qed.
Lemma organization_same now t s lk f u : returns (fun r => same_sign_in f r.2) (organization_pending now t s lk f u).
Proof.
  unfold organization_pending. case_bool_decide; [by apply returns_ret|]. apply returns_seq. intros [o|]; [by apply returns_ret|].
  destruct (lk_orgs lk u) as [|o [|o2 orgs]]; [by apply returns_ret|..].
  - eapply returns_bind; [apply bind_org_same|]. intros f' Hf'. by apply returns_ret.
  - destruct (_ ≫= _) as [w|]; [|by apply returns_ret]. eapply returns_bind; [apply bind_org_same|]. intros f' Hf'. by apply returns_ret.
Qed.
Lemma consent_advanced lk f u : returns (fun f' => same_sign_in f f' /\ (lf_stage f' = StConsent \/ lf_stage f' = Done)) (advance_consent lk f u).
Proof.
  apply returns_seq. intros c. apply returns_seq. intros p. destruct (_ && _); apply returns_ret; (split; [done|]); [by left|by right].
Qed.
Lemma advance_advanced now acc lk s f mc : returns (advanced f) (advance now acc lk s f mc).
Proof.
  unfold advance. destruct (lf_user_id f) as [u|] eqn:Hu; [destruct (lf_session_id f) as [sid|] eqn:Hsid|].
  2-3: apply returns_ret; repeat split; cbn; rewrite ?Hu, ?Hsid; try (intros [? ?] [? ?]; done); auto; intros [?|?]; done.
  assert (forall f', same_sign_in f f' -> initial (lf_stage f') = false ->
    (past_mfa (lf_stage f') = true \/ lf_stage f' = StConsent -> asks_mfa f -> has_mfa (lf_amr f) = true) -> advanced f f') as Hadv.
  { intros f' Hs Hi Hp. split; [done|]. split; [done|]. split; [congruence|done]. }
  apply returns_seq. intros row. destruct mc; [apply returns_ret, Hadv; by try intros [|]|].
  apply (returns_bind (fun m => m = false -> asks_mfa f -> has_mfa (lf_amr f) = true)).
  { intros st m st' [= Hm _]. intros ->. by eapply mfa_required_asks. }
  intros [] Hm; [apply returns_ret, Hadv; by try intros [|]|]. specialize (Hm eq_refl).
  apply returns_seq. intros missing. destruct (negb _); [by apply returns_ret, Hadv|]. destruct (_ && _); [by apply returns_ret, Hadv|].
  eapply returns_bind; [apply organization_same|]. intros [ask f'] Hf'. cbn in Hf'. destruct ask; [by apply returns_ret, Hadv|].
  eapply returns_weaken; [|apply consent_advanced]. intros f'' [Hs [Hst|Hst]]; apply Hadv; try (by eapply same_trans); try done; by rewrite Hst.
Qed.
Lemma move_on_advanced `{!Serde LoginFlow} now acc lk s f : returns (advanced f) (move_on now acc lk s f).
Proof. eapply returns_bind; [apply advance_advanced|]. intros f' Hf'. apply returns_seq. intros _. by apply returns_ret. Qed.
End stages.

(** ** How a flow gets where it is *)

(** What vouched for the user of a flow: the handler a first factor passed,
    with the methods; a second factor of the user's, or one enrolled on the
    spot; the live session the flow was started with. *)
Inductive Handler := HPassword | HPasswordless | HPasskey | HRegister | HVerifyEmail.
Inductive Voucher :=
| First (h : Handler) (user : Uuid) (amr : list string)
| Second (user : Uuid)
| Enrolled (user : Uuid)
| LiveSession (ses : SsoSession).
(** Several factors of the user. *)
Definition vouches (u : Uuid) (v : Voucher) : Prop :=
  match v with
  | First h user amr => h = HPasskey /\ user = u /\ has_mfa amr = true
  | Second user | Enrolled user => user = u
  | LiveSession ses => s_user_id ses = u /\ has_mfa (s_amr ses) = true
  end.

(** The same stage, with one attempt more. *)
Definition same_place (f f' : LoginFlow) : Prop := same_sign_in f f' /\ lf_stage f' = lf_stage f.
Definition signed_in (f' : LoginFlow) : Prop :=
  is_Some (lf_user_id f') /\ is_Some (lf_session_id f') /\ initial (lf_stage f') = false
  /\ (past_mfa (lf_stage f') = true -> asks_mfa f' -> has_mfa (lf_amr f') = true).
Definition auth_ok (f : LoginFlow) (h : Handler) (r : AuthStep) : Prop :=
  initial (lf_stage f) = true /\
  match r with
  | Authenticated _ f' => signed_in f' /\ (has_mfa (lf_amr f') = true -> h = HPasskey)
  | Rejected f' _ => lf_amr f' = lf_amr f /\ initial (lf_stage f') = true
  | Blocked _ => True
  end.

Section reach.
Context `{Valkey} `{Counters} `{UuidDisplay} `{KeyEncryptor} `{Geo} `{TextLib} `{CharLib} `{PasswordHasher}.
Context `{!Serde SsoSession} `{!Serde OtpRecord} `{!Serde MagicRecord} `{!Serde PendingOtp} `{!Serde VerificationRecord} `{!Serde ()}.
Context `{!Serde LoginFlow} `{!Serde Denial} `{!Serde DeviceRecord} `{!Serde AuthCode} `{!JsonBytes FactorData}.
Context `{!Serde PendingEnrolment} `{!JsonBytes TotpData} `{!JsonBytes RecoveryData}.
Context `{UrlLib} `{Signatures} `{!Serde RegistrationState} `{!Serde AuthenticationState} `{!JsonBytes StoredPasskey}.
Context (sha256 : list Z -> list Z) (b64 : list Z -> string) (url_parses : string -> bool) (issuer : Uuid -> string).
Context (hmac_sha1 : list Z -> list Z -> list Z) (b64b : list Z -> list Z) (client_data : list Z -> option ClientData).

(** *** The handlers *)

(** A request that shows a first factor for the flow [f]. *)
Inductive first_step (f : LoginFlow) : Handler -> M Server ApiError AuthStep -> Prop :=
| fs_password now dr dir acc lk s identifier password cx captcha :
    first_step f HPassword (password_step sha256 url_parses issuer now dr dir acc lk s f identifier password cx captcha)
| fs_passwordless now dr ldap acc lk s m secret cx :
    first_step f HPasswordless (passwordless_verify_step sha256 b64 url_parses issuer now dr ldap acc lk s f m secret cx)
| fs_passkey now dr rnd t acc lk s credential cx :
    first_step f HPasskey (passkey_finish sha256 url_parses issuer b64b client_data now dr rnd t acc lk s f credential cx)
| fs_register now dr id bytes provider breached dir locale acc lk s i captcha cx :
    first_step f HRegister (register_step sha256 b64 url_parses issuer now dr id bytes provider breached dir locale acc lk s f i captcha cx).
(** A request that shows a second factor, or enrols one. *)
Inductive second_step (f : LoginFlow) : (Uuid -> Voucher) -> M Server ApiError MfaStep -> Prop :=
| ss_code now rnd acc lk s code remember :
    second_step f Second (mfa_verify_step sha256 hmac_sha1 b64b now rnd acc lk s f code remember)
| ss_otp now acc lk s c code remember :
    second_step f Second (mfa_otp_verify sha256 b64 now acc lk s f c code remember)
| ss_passkey now rnd t acc lk s credential remember :
    second_step f Second (mfa_passkey_finish sha256 client_data now rnd t acc lk s f credential remember)
| ss_enrol_totp now d acc lk s code label remember :
    second_step f Enrolled (mfa_enrol_confirm sha256 hmac_sha1 b64b now d acc lk s f code label remember)
| ss_enrol_otp now d acting ldap acc lk s c code remember :
    second_step f Enrolled (mfa_otp_enrol_confirm sha256 b64 b64b now d acting ldap acc lk s f c code remember)
| ss_enrol_passkey now d t acc lk s credential label remember :
    second_step f Enrolled (mfa_passkey_register_finish sha256 b64b client_data now d t acc lk s f credential label remember).
(** A request that does something else the flow asked for. *)
Inductive other_step (f : LoginFlow) : M Server ApiError LoginFlow -> Prop :=
| os_password now salt breached dir acc lk s password : other_step f (password_change_step now salt breached dir acc lk s f password)
| os_profile now acting ldap acc lk s attributes : other_step f (profile_step now acting ldap acc lk s f attributes)
| os_terms now acc lk s accepted : other_step f (terms_step now acc lk s f accepted)
| os_organization now acc lk s org : other_step f (organization_step now acc lk s f org).

(** The flows that come to be, with what vouched for their users: started by
    [/authorize], and moved by handlers that each find the deployment and the
    lookups in whatever state they are in - other requests, of this flow too,
    run in between. *)
Inductive reach : list Voucher -> LoginFlow -> Prop :=
| reach_start now id t csrf bytes acting acc s client r cookie device ip location st page f st' :
    decide sha256 b64 issuer now id t csrf bytes acting acc s client r cookie device ip location st = (Ok (ToUi page f), st') ->
    reach (match cookie with
           | Some sid => match (session_get now t sid s st).1 with Ok (Some ses) => [LiveSession ses] | _ => [] end
           | None => []
           end) f
| reach_first vs f h m st ses f' u st' :
    reach vs f -> first_step f h m -> m st = (Ok (Authenticated ses f'), st') -> lf_user_id f' = Some u ->
    reach (vs ++ [First h u (lf_amr f')]) f'
| reach_rejected vs f h m st f' locked st' :
    reach vs f -> first_step f h m -> m st = (Ok (Rejected f' locked), st') -> reach vs f'
| reach_verified vs f now dr acc lk s t id row cx st ses f' u st' :
    reach vs f -> get_flow now t id st = Some f ->
    resume_after_verification sha256 url_parses issuer now dr acc lk s t id row cx st = (Ok (Some (Authenticated ses f')), st') ->
    lf_user_id f' = Some u -> reach (vs ++ [First HVerifyEmail u (lf_amr f')]) f'
| reach_second vs f v m st f' codes u st' :
    reach vs f -> second_step f v m -> m st = (Ok (MfaPassed f' codes), st') -> lf_user_id f' = Some u -> reach (vs ++ [v u]) f'
| reach_wrong vs f v m st f' st' :
    reach vs f -> second_step f v m -> m st = (Ok (MfaRejected f'), st') -> reach vs f'
| reach_other vs f m st f' st' : reach vs f -> other_step f m -> m st = (Ok f', st') -> reach vs f'
| reach_consent vs f now ticket acc lk s approve granted st f' st' :
    reach vs f -> consent_step url_parses issuer now ticket acc lk s f approve granted st = (Ok (ConsentGiven f'), st') -> reach vs f'.
(** *** What they keep *)

Lemma sign_in_ok now dr acc lk s f user identifier amr cx failures mc :
  returns (fun r => match r with
                    | Authenticated _ f' => signed_in f' /\ lf_amr f' = amr
                    | Rejected _ _ => False
                    | Blocked _ => True
                    end) (sign_in sha256 url_parses issuer now dr acc lk s f user identifier amr cx failures mc).
Proof.
  unfold sign_in. apply returns_seq. intros a. destruct (is_blocked _).
  { unfold refuse. do 4 (apply returns_seq; intros ?). apply returns_seq. intros to. by apply returns_ret. }
  do 2 (apply returns_seq; intros ?).
  apply (returns_bind (fun r => is_Some (lf_user_id r.2) /\ is_Some (lf_session_id r.2) /\ lf_amr r.2 = amr)).
  { unfold open_session. do 4 (apply returns_seq; intros ?). by apply returns_ret. }
  intros [ses f1] (Hu & Hs & Ha). cbn in Hu, Hs, Ha. eapply returns_bind; [apply advance_advanced|].
  intros f' ((Eu & Es & Ea & Er & Ec) & Hi & _ & Hm). do 2 (apply returns_seq; intros ?). apply returns_ret. split; [|congruence].
  split; [by rewrite Eu|]. split; [by rewrite Es|]. split; [by apply Hi|]. intros Hp Hask. rewrite Ea. apply Hm; [by left|].
  unfold asks_mfa in *. by rewrite Ec, Er in Hask.
Qed.
Lemma signed_in_auth now dr acc lk s f user identifier amr cx failures mc h :
  initial (lf_stage f) = true -> (has_mfa amr = true -> h = HPasskey) ->
  returns (auth_ok f h) (sign_in sha256 url_parses issuer now dr acc lk s f user identifier amr cx failures mc).
Proof.
  intros Hi Hh. eapply returns_weaken; [|apply sign_in_ok]. intros r Hr. split; [done|]. destruct r as [ses f'| |]; [|done..].
  destruct Hr as [Hs Ha]. split; [done|]. by rewrite Ha.
Qed.
Lemma first_rejected now f h reason : initial (lf_stage f) = true -> returns (auth_ok f h) (reject_first now f reason).
Proof. intros Hi. unfold reject_first. do 2 (apply returns_seq; intros ?). by apply returns_ret. Qed.

Lemma at_stage_initial {B} f what (P : B -> Prop) k :
  (initial (lf_stage f) = true -> returns P (k tt)) -> returns P (bind (at_stage f Authenticate what) k).
Proof. intros Hk. apply returns_guard. intros Hg%negb_false_iff%bool_decide_eq_true. apply Hk. by rewrite Hg. Qed.

Lemma first_step_ok f h m : first_step f h m -> returns (auth_ok f h) m.
Proof.
  destruct 1.
  - apply at_stage_initial. intros Hi. do 4 (apply returns_seq; intros ?). apply returns_seq. intros [user verified].
    apply returns_seq. intros [mc|reason].
    + apply returns_seq. intros row. by apply signed_in_auth.
    + unfold reject_password. do 3 (apply returns_seq; intros ?). by apply returns_ret.
  - apply at_stage_initial. intros Hi. apply returns_seq. intros [v|]; [|by apply first_rejected].
    do 2 (apply returns_seq; intros ?). apply signed_in_auth; [done|]. by destruct m.
  - apply at_stage_initial. intros Hi. do 1 (apply returns_seq; intros ?). apply returns_seq. intros [[u v]|]; [|by apply first_rejected].
    apply returns_seq. intros row. by apply signed_in_auth.
  - apply returns_guard. intros Hg.
    assert (initial (lf_stage f) = true) as Hi by (apply andb_false_iff in Hg as [Hg|Hg]; apply negb_false_iff, bool_decide_eq_true in Hg; by rewrite Hg).
    apply returns_seq. intros []. apply returns_seq. intros [row []]; [|by apply signed_in_auth].
    apply returns_seq. intros []. by apply returns_ret.
Qed.

Lemma add_methods_mfa amr methods : has_mfa (add_methods amr methods) = true.
Proof.
  unfold add_methods, has_mfa. rewrite foldl_app. cbn [foldl]. match goal with |- context [foldl ?g amr methods] => generalize (foldl g amr methods) end. intros l.
  destruct (existsb (String.eqb "mfa") l) eqn:E; [done|]. rewrite existsb_app. cbn. by rewrite orb_true_r.
Qed.
Lemma second_factor_ok now acc lk s f remember check :
  returns (fun r => lf_stage f = StMfa /\
           match r with
           | MfaPassed f' _ => lf_user_id f' = lf_user_id f /\ signed_in f' /\ has_mfa (lf_amr f') = true
           | MfaRejected f' => same_place f f'
           end) (second_factor now acc lk s f remember check).
Proof.
  unfold second_factor.
  apply (returns_bind (fun _ => lf_stage f = StMfa /\ is_Some (lf_user_id f))).
  { apply returns_guard. intros Hg%negb_false_iff%bool_decide_eq_true. apply returns_lift. intros u Hu%ok_or_ok.
    intros st row st' _. split; [done|]. by exists u. }
  intros user [Hst [u Hu]]. apply returns_seq. intros [[methods codes]|].
  - apply (returns_bind (fun f' => lf_user_id f' = lf_user_id f /\ signed_in f' /\ has_mfa (lf_amr f') = true)).
    + unfold pass_second_factor. apply returns_lift. intros sid Hsid%ok_or_ok. do 3 (apply returns_seq; intros ?).
      eapply returns_weaken; [|apply move_on_advanced]. intros f' ((Eu & Es & Ea & Er & Ec) & Hi & _ & Hm). cbn in Eu, Es, Ea, Hi.
      rewrite Hu, Hsid in Hi. split; [done|]. pose proof (add_methods_mfa (lf_amr f) methods) as Hmfa. rewrite <- Ea in Hmfa.
      split; [|done]. split; [rewrite Eu, Hu; by eexists|]. split; [rewrite Es, Hsid; by eexists|]. split; [apply Hi; by eexists|]. done.
    + intros f' Hf'. by apply returns_ret.
  - unfold mfa_reject. do 2 (apply returns_seq; intros ?). by apply returns_ret.
Qed.
Lemma second_step_ok f v m : second_step f v m ->
  (v = Second \/ v = Enrolled) /\
  returns (fun r => lf_stage f = StMfa /\
           match r with
           | MfaPassed f' _ => lf_user_id f' = lf_user_id f /\ signed_in f' /\ has_mfa (lf_amr f') = true
           | MfaRejected f' => same_place f f'
           end) m.
Proof. destruct 1; (split; [by auto|apply second_factor_ok]). Qed.

Lemma other_step_ok f m : other_step f m -> returns (fun f' => initial (lf_stage f) = false /\ advanced f f') m.
Proof.
  destruct 1; (apply returns_guard; intros Hg%negb_false_iff%bool_decide_eq_true).
  - do 2 (apply returns_seq; intros ?). eapply returns_weaken; [|apply move_on_advanced]. intros f' Hf'. split; [by rewrite Hg|done].
  - do 2 (apply returns_seq; intros ?). eapply returns_weaken; [|apply move_on_advanced]. intros f' Hf'. split; [by rewrite Hg|done].
  - do 4 (apply returns_seq; intros ?). eapply returns_weaken; [|apply move_on_advanced]. intros f' Hf'. split; [by rewrite Hg|done].
  - do 2 (apply returns_seq; intros ?). eapply returns_bind; [apply bind_org_same|]. intros f1 Hf1.
    eapply returns_weaken; [|apply move_on_advanced]. intros f' (Hs & Ha1 & Ha2 & Ha3). split; [by rewrite Hg|].
    destruct Hf1 as (Eu & Es & Ea & Er & Ec). split; [by eapply same_trans|]. unfold asks_mfa in *. by rewrite Eu, Es, Ea, Er, Ec in *.
Qed.
(** *** Starting *)

Lemma unfinished_ok now acc t s ses cookie ip location :
  returns (fun o => forall stage, o = OwesStep stage -> stage = Authenticate \/ stage = PasswordChange \/ stage = StMfa)
    (unfinished_stage sha256 now acc t s ses cookie ip location).
Proof.
  unfold unfinished_stage. apply returns_seq. intros [u|]; [|apply returns_ret; naive_solver].
  destruct (_ || _); [apply returns_ret; naive_solver|]. case_bool_decide; [apply returns_ret; naive_solver|].
  destruct (_ && _); [apply returns_ret; naive_solver|]. apply returns_seq. intros risk.
  destruct (is_blocked risk); [apply returns_seq; intros; apply returns_ret; naive_solver|].
  destruct (_ && _); [apply returns_seq; intros; apply returns_ret; naive_solver|].
  destruct (has_mfa _); [apply returns_ret; naive_solver|]. apply returns_seq. intros [].
  - apply returns_seq. intros tr. apply returns_ret. case_bool_decide; naive_solver.
  - apply returns_ret. naive_solver.
Qed.

Definition flow_inv (vs : list Voucher) (f : LoginFlow) : Prop :=
  (initial (lf_stage f) = true -> has_mfa (lf_amr f) = false)
  /\ (initial (lf_stage f) = false -> is_Some (lf_user_id f) /\ is_Some (lf_session_id f))
  /\ (past_mfa (lf_stage f) = true -> asks_mfa f -> has_mfa (lf_amr f) = true)
  /\ (has_mfa (lf_amr f) = true -> exists u v, lf_user_id f = Some u /\ v ∈ vs /\ vouches u v).

Definition read_session (now : Z) (t : Uuid) (s : Settings) (cookie : option Uuid) (st : Server) : list Voucher :=
  match cookie with
  | Some sid => match (session_get now t sid s st).1 with Ok (Some ses) => [LiveSession ses] | _ => [] end
  | None => []
  end.
Lemma resumed_inv id t r stage ses now csrf n until vs :
  initial stage = false -> past_mfa stage = false -> LiveSession ses ∈ vs ->
  flow_inv vs (lf_issued (resumed_flow id t r stage ses now) csrf n until).
Proof.
  intros Hi Hp Hv. split; [cbn; congruence|]. split; [cbn; intros _; split; by eexists|]. split; [cbn; congruence|].
  cbn. intros Hm. exists (s_user_id ses), (LiveSession ses). done.
Qed.
Lemma consent_inv id t r pending ses now csrf n until vs : flow_inv vs (lf_issued (consent_flow id t r pending ses now) csrf n until).
Proof. split; [done|]. split; [intros _; split; by eexists|]. done. Qed.
Lemma new_inv id t r stage now csrf n until vs : initial stage = true -> flow_inv vs (lf_issued (new_flow id t r stage now) csrf n until).
Proof.
  intros Hi. split; [done|]. split; [cbn; congruence|]. split; [|done]. cbn. intros Hp. by destruct stage.
Qed.
Definition ui_ok (vs : list Voucher) (a : Authorized) : Prop := match a with ToUi _ f => flow_inv vs f | _ => True end.
Lemma open_flow_ok vs now csrf f page : (forall c n until, flow_inv vs (lf_issued f c n until)) -> returns (ui_ok vs) (open_flow b64 now csrf f page).
Proof.
  intros Hf. apply (returns_bind (flow_inv vs)); [|intros f' Hf'; by apply returns_ret].
  unfold create_flow. apply returns_seq. intros []. apply returns_ret, Hf.
Qed.
Lemma issue_ui vs now bytes acting t client r ses : returns (ui_ok vs) (issue_authorization sha256 b64 issuer now bytes acting t client r ses).
Proof.
  unfold issue_authorization. destruct (aq_saml r); [by apply returns_ret|]. apply returns_lift. intros act _.
  do 3 (apply returns_seq; intros ?). by apply returns_ret.
Qed.

Lemma decide_ok now id t csrf bytes acting acc s client r cookie device ip location st a st' :
  decide sha256 b64 issuer now id t csrf bytes acting acc s client r cookie device ip location st = (Ok a, st') ->
  ui_ok (read_session now t s cookie st) a.
Proof.
  unfold decide. intros Hd. apply bind_ok in Hd as (session & st1 & Hses & Hd).
  assert (forall ses, session = Some ses -> LiveSession ses ∈ read_session now t s cookie st) as Hlive.
  { intros ses ->. unfold read_session. destruct cookie as [sid|]; [|by injection Hses]. rewrite Hses. by left. }
  revert Hd. match goal with |- ?m st1 = _ -> _ => assert (returns (ui_ok (read_session now t s cookie st)) m) as Hm; [|by apply Hm] end.
  apply (returns_bind (fun o => forall stage, o = OwesStep stage -> stage = Authenticate \/ stage = PasswordChange \/ stage = StMfa)).
  { destruct session as [ses|]; [|apply returns_ret; naive_solver]. destruct (prompts r "create" || _ || _); [apply returns_ret; naive_solver|].
    apply unfinished_ok. }
  intros owed Howed. case_bool_decide; [by apply returns_ret|].
  destruct (_ || bool_decide _).
  { destruct (prompts r "none"); [by apply returns_ret|]. apply open_flow_ok. intros c n until. apply new_inv. by destruct (prompts r "create"). }
  destruct session as [ses|]; [|apply returns_throw]. specialize (Hlive ses eq_refl).
  assert (forall stage, stage = PasswordChange \/ stage = StMfa ->
    returns (ui_ok (read_session now t s cookie st))
      (if prompts r "none" then ret (ToError LoginRequired) else open_flow b64 now csrf (resumed_flow id t r stage ses now) (page_for stage))) as Hres.
  { intros stage Hst. destruct (prompts r "none"); [by apply returns_ret|]. apply open_flow_ok. intros c n until.
    apply resumed_inv; [by destruct Hst as [-> | ->]..|done]. }
  assert (returns (ui_ok (read_session now t s cookie st)) (decide_session sha256 b64 issuer now id t csrf bytes acting client r ses)) as Hdec.
  { unfold decide_session. apply returns_seq. intros pending. case_bool_decide; [apply issue_ui|].
    destruct (prompts r "none"); [by apply returns_ret|]. case_bool_decide; [by apply returns_ret|]. apply open_flow_ok. intros. apply consent_inv. }
  assert (returns (ui_ok (read_session now t s cookie st))
    match (if acr_ok r ses then None else Some StMfa) with
    | Some stage => if prompts r "none" then ret (ToError LoginRequired) else open_flow b64 now csrf (resumed_flow id t r stage ses now) (page_for stage)
    | None => decide_session sha256 b64 issuer now id t csrf bytes acting client r ses
    end) as Hacr by (destruct (acr_ok r ses); [exact Hdec|by apply Hres; right]).
  destruct owed as [|stage|]; cbn [owed_step]; [exact Hacr| |exact Hacr].
  destruct (Howed stage eq_refl) as [-> | [-> | ->]]; [exact Hacr|by apply Hres; left|by apply Hres; right].
Qed.
(** *** The invariant of every flow *)

Lemma inv_same vs f f' : same_sign_in f f' -> flow_inv vs f -> initial (lf_stage f) = initial (lf_stage f') ->
  (past_mfa (lf_stage f') = true -> asks_mfa f' -> has_mfa (lf_amr f') = true) -> flow_inv vs f'.
Proof.
  intros (Eu & Es & Ea & Er & Ec) (H1' & H2' & _ & H4') Hi Hp. unfold flow_inv. rewrite Eu, Es, Ea in *. rewrite <- Hi. auto.
Qed.
Lemma inv_signed_in vs f' u v : signed_in f' -> lf_user_id f' = Some u -> (has_mfa (lf_amr f') = true -> vouches u v) -> flow_inv (vs ++ [v]) f'.
Proof.
  intros (Hu & Hs & Hi & Hp) Hu' Hv. split; [congruence|]. split; [done|]. split; [done|]. intros Hm. exists u, v.
  split; [done|]. split; [|by apply Hv]. apply elem_of_app. right. by apply list_elem_of_singleton.
Qed.
Lemma inv_advanced vs f f' : initial (lf_stage f) = false -> advanced f f' -> flow_inv vs f -> flow_inv vs f'.
Proof.
  intros Hi (Hs & Hni & _ & Hm) Hf. pose proof Hf as (_ & Hset & _ & _). destruct (Hset Hi) as [Hu Hses].
  eapply inv_same; [exact Hs|done|rewrite Hi; symmetry; by apply Hni|]. intros Hp Hask. destruct Hs as (_ & _ & Ea & Er & Ec). rewrite Ea.
  apply Hm; [by left|]. unfold asks_mfa in *. by rewrite Er, Ec in Hask.
Qed.
Lemma inv_waiting vs f f' : lf_amr f' = lf_amr f -> initial (lf_stage f) = true -> initial (lf_stage f') = true -> flow_inv vs f -> flow_inv vs f'.
Proof.
  intros Ea Hi Hi' (H1' & _). specialize (H1' Hi). split; [by rewrite Ea|]. split; [congruence|]. split; [by destruct (lf_stage f')|].
  rewrite Ea, H1'. done.
Qed.
Lemma consent_step_ok now ticket acc lk s f approve granted :
  returns (fun o => match o with ConsentGiven f' => lf_stage f = StConsent /\ advanced f f' | ConsentDenied _ => True end)
    (consent_step url_parses issuer now ticket acc lk s f approve granted).
Proof.
  apply returns_guard. intros Hg%negb_false_iff%bool_decide_eq_true. apply returns_seq. intros u. destruct (negb approve).
  { do 2 (apply returns_seq; intros ?). by apply returns_ret. }
  do 3 (apply returns_seq; intros ?). eapply returns_bind; [apply move_on_advanced|]. intros f' Hf'. apply returns_ret. split; [done|exact Hf'].
Qed.

Lemma reach_inv vs f : reach vs f -> flow_inv vs f.
Proof.
  induction 1 as [now id t csrf bytes acting acc s client r cookie device ip location st page f st' Hd
    | vs f h m st ses f' u st' _ IH Hm Hr Hu | vs f h m st f' locked st' _ IH Hm Hr
    | vs f now dr acc lk s t id row cx st ses f' u st' _ IH Hg Hr Hu
    | vs f v m st f' codes u st' _ IH Hm Hr Hu | vs f v m st f' st' _ IH Hm Hr | vs f m st f' st' _ IH Hm Hr
    | vs f now ticket acc lk s approve granted st f' st' _ IH Hr].
  - by apply decide_ok in Hd.
  - apply (first_step_ok _ _ _ Hm) in Hr as [_ [Hs Hh]]. apply (inv_signed_in _ _ u); [done..|]. intros Hmfa. by rewrite (Hh Hmfa).
  - apply (first_step_ok _ _ _ Hm) in Hr as [Hi [Ha Hi']]. by eapply inv_waiting.
  - unfold resume_after_verification in Hr. apply bind_ok in Hr as (fo & st1 & [= <- <-] & Hr). rewrite Hg in Hr.
    destruct (_ && _); [|by injection Hr]. apply bind_ok in Hr as (a & st2 & Hc & [= -> _]).
    apply sign_in_ok in Hc as [Hs Ha]. apply (inv_signed_in _ _ u); [done..|]. by rewrite Ha.
  - destruct (second_step_ok _ _ _ Hm) as [Hv Hok]. apply Hok in Hr as (_ & _ & Hs & _). apply (inv_signed_in _ _ u); [done..|].
    intros _. by destruct Hv as [-> | ->].
  - destruct (second_step_ok _ _ _ Hm) as [_ Hok]. apply Hok in Hr as (Hst & Hs & Hst'). eapply inv_same; [exact Hs|done|by rewrite Hst'|].
    by rewrite Hst', Hst.
  - apply (other_step_ok _ _ Hm) in Hr as [Hi Ha]. by eapply inv_advanced.
  - apply consent_step_ok in Hr as [Hst Ha]. eapply inv_advanced; [|exact Ha|done]. by rewrite Hst.
Qed.

(** C3: The second factor is not skipped. Whatever requests a flow goes
    through - with the policy, the account and the deployment in any state
    when each of them runs, and requests for the same flow running side by
    side - once it is past the second step and either the client asked for
    an authentication class of several factors or the risk policy demanded a
    second one when the sign-in was scored, then something vouched for two
    factors of the very user the flow is for: a second factor that was
    verified or enrolled in this flow, a passkey with user verification, or
    the live session, itself signed in with two factors, that the flow
    resumed. *)
Theorem second_factor_not_skipped vs f :
  reach vs f -> past_mfa (lf_stage f) = true -> asks_mfa f ->
  exists u v, lf_user_id f = Some u /\ v ∈ vs /\ vouches u v.
Proof. intros Hf Hp Ha. destruct (reach_inv _ _ Hf) as (_ & _ & Hm & Hv). by apply Hv, Hm. Qed.
End reach.

(** ** The end of a flow *)

Section finished.
Context `{ValkeyLaws} `{Counters} `{UuidDisplay} `{KeyEncryptor} `{Geo} `{TextLib}.
Context `{!Serde SsoSession} `{!Serde LoginFlow} `{!Serde DeviceRecord} `{!Serde AuthCode}.
Context (sha256 : list Z -> list Z) (b64 : list Z -> string) (url_parses : string -> bool) (issuer : Uuid -> string).

Lemma login_flow_code t id t' h : auth_code t' h <> login_flow t id.
Proof. unfold login_flow. intros E. key_inv. Qed.
Lemma login_flow_clients t id t' sid : session_clients t' sid <> login_flow t id.
Proof. unfold login_flow. intros E. key_inv. Qed.

(** No flow of that id is left, now or later. *)
Definition flow_gone (t id : Uuid) (st : Server) : Prop := forall now, vget now (login_flow t id) (sv_redis st) = None.
Lemma flow_gone_get t id st : flow_gone t id st -> forall now, get_flow now t id st = None.
Proof. intros Hg now. unfold get_flow, load_json. by rewrite Hg. Qed.

(** An operation that brings no flow back. *)
Definition keeps_gone {A} (m : M Server ApiError A) : Prop :=
  forall t id st r st', m st = (r, st') -> flow_gone t id st -> flow_gone t id st'.
Lemma gone_same {A} (m : M Server ApiError A) : (forall st r st', m st = (r, st') -> sv_redis st' = sv_redis st) -> keeps_gone m.
Proof. intros Hm t id st r st' Hr Hg now. rewrite (Hm _ _ _ Hr). apply Hg. Qed.
Lemma gone_bind {A B} (m : M Server ApiError A) (k : A -> M Server ApiError B) :
  keeps_gone m -> (forall a, keeps_gone (k a)) -> keeps_gone (bind m k).
Proof.
  intros Hm Hk t id st r st' Hb Hg. unfold bind in Hb. destruct (m st) as [[a|e] st1] eqn:E; pose proof (Hm t id _ _ _ E Hg) as Hg1.
  - by eapply Hk.
  - by injection Hb as <- <-.
Qed.
Lemma gone_ret {A} (a : A) : keeps_gone (ret a).
Proof. apply gone_same. by intros st r st' [= <- <-]. Qed.
Lemma gone_lift {A} (r : result ApiError A) : keeps_gone (lift r).
Proof. apply gone_same. by intros st x st' [= <- <-]. Qed.
Lemma gone_guard b e : keeps_gone (guard b e).
Proof. apply gone_same. unfold guard. destruct b; by intros st r st' [= <- <-]. Qed.
Lemma gone_publish t a k : keeps_gone (sv_publish t a k).
Proof. apply gone_same. by intros st r st' [= <- <-]. Qed.
Lemma gone_delete now t id : keeps_gone (delete_flow now t id).
Proof.
  intros t' id' st r st' [= <- <-] Hg now'. unfold sv_redis. cbn.
  destruct (base.decide (login_flow t id = login_flow t' id')) as [->|Hn]; [apply vget_del|]. rewrite vget_del_ne by done. apply Hg.
Qed.
Lemma login_flow_session t id t' sid : sso_session t' sid <> login_flow t id.
Proof. unfold login_flow. intros E. key_inv. Qed.
Lemma login_flow_device t id t' h : device_code t' h <> login_flow t id.
Proof. unfold login_flow. intros E. key_inv. Qed.
Lemma vget_store_flow now st ses now' t id :
  vget now' (login_flow t id) (redis (store now st ses)) = vget now' (login_flow t id) (redis st).
Proof. unfold store. destruct (_ <=? 0); [done|]. cbn. by rewrite vget_set_ne by apply login_flow_session. Qed.

Lemma gone_session_get now t sid s : keeps_gone (session_get now t sid s).
Proof.
  intros t' id st r st' Hr Hg now'. unfold session_get in Hr. destruct (Sessions.get _ _ _ _ _) as [o app] eqn:Eg. injection Hr as <- <-.
  unfold sv_redis. cbn. revert Eg. unfold Sessions.get. repeat case_match; intros [= <- <-]; try apply Hg;
    unfold mirror_touch; cbn; rewrite vget_store_flow; apply Hg.
Qed.
Lemma gone_remember now id secret t s f ses ua ip : keeps_gone (remember_now sha256 b64 now id secret t s f ses ua ip).
Proof.
  unfold remember_now. destruct (_ && _); [|apply gone_ret]. apply gone_bind.
  - apply gone_same. unfold trust, bind, gets, guard, modify. intros st r st' Hr. destruct (existsb _ _); by injection Hr as <- <-.
  - intros [d c] t' id' st r st' [= <- <-] Hg now'. unfold sv_redis. cbn. rewrite vget_store_flow. apply Hg.
Qed.
Lemma gone_add_client now ses c : keeps_gone (add_client now ses c).
Proof.
  intros t id st r st' [= <- <-] Hg now'. unfold sv_redis. cbn.
  rewrite vget_expire_ne, vget_sadd by apply login_flow_clients. apply Hg.
Qed.
Lemma gone_approve now acting t f client ses hash : keeps_gone (approve_device url_parses now acting t f client ses hash).
Proof.
  unfold approve_device. apply gone_bind; [apply gone_lift|]. intros act. apply gone_bind.
  2:{ intros _. apply gone_bind; [apply gone_add_client|]. intros _. apply gone_bind; [apply gone_publish|]. intros _.
      apply gone_bind; [apply gone_guard|]. intros _. apply gone_ret. }
  intros t' id st r st' Hr Hg now'. unfold approve in Hr. cbn in Hr. destruct (load_rec _ _ _) as [rec|]; [|injection Hr as <- <-; apply Hg].
  destruct (_ && _); [|injection Hr as <- <-; apply Hg]. injection Hr as <- <-. unfold sv_redis. cbn.
  rewrite vget_keepttl_ne by apply login_flow_device. apply Hg.
Qed.
Lemma gone_issue now bytes acting t client r ses : keeps_gone (issue_authorization sha256 b64 issuer now bytes acting t client r ses).
Proof.
  unfold issue_authorization. destruct (aq_saml r); [apply gone_ret|]. apply gone_bind; [apply gone_lift|]. intros act. apply gone_bind.
  2:{ intros c. apply gone_bind; [apply gone_add_client|]. intros _. apply gone_bind; [apply gone_publish|]. intros _. apply gone_ret. }
  intros t' id st x st' [= <- <-] Hg now'. unfold sv_redis. cbn. rewrite vget_set_ne by apply login_flow_code. apply Hg.
Qed.

Abbreviation finish_rest := (finish_loaded sha256 b64 url_parses issuer).
Lemma gone_finish now device secret bytes deleted acting lk s t id cookie ua ip f :
  keeps_gone (finish_rest now device secret bytes deleted acting lk s t id cookie ua ip f).
Proof.
  unfold finish_loaded. apply gone_bind; [apply gone_guard|]. intros _.
  apply gone_bind; [destruct cookie; [apply gone_session_get|apply gone_ret]|]. intros o.
  apply gone_bind; [apply gone_lift|]. intros ses. apply gone_bind; [apply gone_remember|]. intros ses'.
  apply gone_bind; [apply gone_lift|]. intros client. apply gone_bind; [destruct deleted; [apply gone_delete|apply gone_ret]|]. intros _.
  destruct (aq_device_code _); [apply gone_approve|apply gone_issue].
Qed.

(** What a code that is issued stands for. *)
Lemma issue_grant now bytes acting t client r ses st code g params st' :
  issue_authorization sha256 b64 issuer now bytes acting t client r ses st = (Ok (WithCode code g params), st') ->
  aq_saml r = None /\ code = b64 bytes
  /\ (exists act, acting ses = Ok act
      /\ g = mkAuthCode t (cl_id client) (cl_client_id client) (s_user_id ses) (s_id ses) (aq_redirect_uri r) (aq_scopes r) (aq_audiences r)
               (aq_nonce r) (aq_code_challenge r) (s_auth_time ses) (s_amr ses) (s_acr ses) (s_org_id ses) act (aq_claims r) now).
Proof.
  unfold issue_authorization. destruct (aq_saml r); [by intros Hi; inv_run|]. intros Hi.
  apply bind_ok in Hi as (act & st0 & [Ha ->]%lift_ok & Hi). apply bind_ok in Hi as (c & st1 & [= <- <-] & Hi).
  apply bind_ok in Hi as ([] & st2 & [= <-] & Hi). apply bind_ok in Hi as ([] & st3 & [= <-] & Hi). injection Hi as <- <- <- <-.
  do 2 (split; [done|]). by eexists.
Qed.
Lemma remember_same now id secret t s f ses ua ip st ses' st' :
  remember_now sha256 b64 now id secret t s f ses ua ip st = (Ok ses', st') -> s_id ses' = s_id ses /\ s_user_id ses' = s_user_id ses.
Proof.
  unfold remember_now. destruct (_ && _); intros Hr; inv_run; [|done].
  match goal with Hc : on_app _ _ = _ |- _ => injection Hc as <- <- end. done.
Qed.

(** Requests to finish flows, each of which may have read its flow at any time
    before: what they do one after another. *)
Inductive finishes : Server -> Server -> Prop :=
| finishes_refl st : finishes st st
| finishes_step st now device secret bytes deleted acting lk s t id cookie ua ip f st1 r st2 :
    finishes st st1 -> finish_rest now device secret bytes deleted acting lk s t id cookie ua ip f st1 = (r, st2) -> finishes st st2.
Lemma finishes_gone st st' t id : finishes st st' -> flow_gone t id st -> flow_gone t id st'.
Proof. induction 1 as [|? ? ? ? ? ? ? ? ? ? ? ? ? ? ? ? ? ? _ IH Hr]; [done|]. intros Hg. eapply gone_finish; [done|]. by apply IH. Qed.

(** C5: A code is for what its flow was for. Whatever other requests did since
    this one read the flow [f], it issues a code only when every step of [f]
    is done, to the browser whose cookie is the session the flow opened, for
    the user who signed in, the tenant, and the client, the scopes, the
    audiences, the redirect URI, the nonce and the challenge of the request
    of the flow. When the command that deletes the flow succeeds, every
    request to finish it that starts afterwards, from any browser and after
    any other finishes, fails. (Two requests that both read the flow before,
    or a delete that fails, give two codes: [finished_twice].) *)
Theorem finish_binds_code now device secret bytes deleted acting lk s t id cookie ua ip f st code g params st' :
  finish_rest now device secret bytes deleted acting lk s t id cookie ua ip f st = (Ok (WithCode code g params), st') ->
  lf_stage f = Done
  /\ Some (c_session_id g) = lf_session_id f /\ Some (c_user_id g) = lf_user_id f /\ c_tenant_id g = t
  /\ c_scopes g = aq_scopes (lf_request f) /\ c_audiences g = aq_audiences (lf_request f)
  /\ c_redirect_uri g = aq_redirect_uri (lf_request f)
  /\ c_nonce g = aq_nonce (lf_request f) /\ c_code_challenge g = aq_code_challenge (lf_request f)
  /\ (exists client, lk_client lk (aq_client_public_id (lf_request f)) = Some client /\ c_client_id g = cl_id client)
  /\ (exists sid ses, cookie = Some sid /\ (session_get now t sid s st).1 = Ok (Some ses) /\ s_id ses = c_session_id g)
  /\ (deleted = true -> forall st2, finishes st' st2 ->
       forall now' device' secret' bytes' deleted' acting' lk' s' cookie' ua' ip',
         finish sha256 b64 url_parses issuer now' device' secret' bytes' deleted' acting' lk' s' t id cookie' ua' ip' st2
         = (Err (ApiNotFound "flow"), st2)).
Proof.
  intros Hf. apply bind_ok in Hf as ([] & st2 & [Hd%negb_false_iff%bool_decide_eq_true ->]%guard_ok & Hf).
  apply bind_ok in Hf as (so & st2 & Hso & Hf).
  apply bind_ok in Hf as (ses & st3 & [Hses ->]%lift_ok & Hf). destruct so as [ses0|]; [|done].
  destruct (bool_decide _ && bool_decide _) eqn:Hb in Hses; [|done]. injection Hses as ->. bool_hyps.
  apply bind_ok in Hf as (ses' & st4 & [Ei Eu]%remember_same & Hf). apply bind_ok in Hf as (client & st5 & [Hc%ok_or_ok ->]%lift_ok & Hf).
  apply bind_ok in Hf as ([] & st6 & Hdel & Hf). destruct (aq_device_code _).
  { unfold approve_device in Hf. inv_run. discriminate Hf. }
  pose proof Hf as (_ & _ & (act & _ & ->))%issue_grant. cbn. rewrite Ei, Eu. do 9 (split; [done|]). split; [by exists client|]. split.
  { destruct cookie as [sid|]; [|by injection Hso]. exists sid, ses. by rewrite Hso. }
  intros -> st7 Hlater. assert (flow_gone t id st7) as Hnone.
  { eapply finishes_gone; [done|]. eapply gone_issue; [done|]. injection Hdel as <-. intros now0. apply vget_del. }
  intros. unfold finish, bind. cbn. by rewrite (flow_gone_get _ _ _ Hnone).
Qed.
End finished.

(** ** Example: a tenant, a user, a client *)

Section example.
Inductive AzRaw :=
| AzSession (s : SsoSession) | AzOtp (r : OtpRecord) | AzMagic (r : MagicRecord) | AzPending (p : PendingOtp) | AzVerification (v : VerificationRecord)
| AzUnit | AzFlow (f : LoginFlow) | AzDenial (d : Denial) | AzDevice (d : DeviceRecord) | AzCode (c : AuthCode) | AzEnrolment (e : PendingEnrolment)
| AzRegistration (r : RegistrationState) | AzAuthentication (a : AuthenticationState).
Definition az_valkey : Valkey := map_valkey (R := AzRaw).
#[local] Existing Instances az_valkey map_valkey_laws map_counters toy_uuid mf_encryptor pf_lib ot_geo ot_json pw_hasher pw_chars
  mf_totp_json mf_recovery_json toy_url toy_signatures pk_json.
#[local] Instance az_session : Serde SsoSession.
Proof. refine {| to_json s := AzSession s : raw; from_json r := match r with AzSession s => Some s | _ => None end |}. done. Defined.
#[local] Instance az_otp : Serde OtpRecord.
Proof. refine {| to_json s := AzOtp s : raw; from_json r := match r with AzOtp s => Some s | _ => None end |}. done. Defined.
#[local] Instance az_magic : Serde MagicRecord.
Proof. refine {| to_json s := AzMagic s : raw; from_json r := match r with AzMagic s => Some s | _ => None end |}. done. Defined.
#[local] Instance az_pending : Serde PendingOtp.
Proof. refine {| to_json s := AzPending s : raw; from_json r := match r with AzPending s => Some s | _ => None end |}. done. Defined.
#[local] Instance az_verification : Serde VerificationRecord.
Proof. refine {| to_json s := AzVerification s : raw; from_json r := match r with AzVerification s => Some s | _ => None end |}. done. Defined.
#[local] Instance az_unit : Serde ().
Proof. refine {| to_json _ := AzUnit : raw; from_json r := match r with AzUnit => Some tt | _ => None end |}. by intros []. Defined.
#[local] Instance az_flow : Serde LoginFlow.
Proof. refine {| to_json s := AzFlow s : raw; from_json r := match r with AzFlow s => Some s | _ => None end |}. done. Defined.
#[local] Instance az_denial : Serde Denial.
Proof. refine {| to_json s := AzDenial s : raw; from_json r := match r with AzDenial s => Some s | _ => None end |}. done. Defined.
#[local] Instance az_device : Serde DeviceRecord.
Proof. refine {| to_json s := AzDevice s : raw; from_json r := match r with AzDevice s => Some s | _ => None end |}. done. Defined.
#[local] Instance az_code : Serde AuthCode.
Proof. refine {| to_json s := AzCode s : raw; from_json r := match r with AzCode s => Some s | _ => None end |}. done. Defined.
#[local] Instance az_enrolment : Serde PendingEnrolment.
Proof. refine {| to_json s := AzEnrolment s : raw; from_json r := match r with AzEnrolment s => Some s | _ => None end |}. done. Defined.
#[local] Instance az_registration : Serde RegistrationState.
Proof. refine {| to_json s := AzRegistration s : raw; from_json r := match r with AzRegistration s => Some s | _ => None end |}. done. Defined.
#[local] Instance az_authentication : Serde AuthenticationState.
Proof. refine {| to_json s := AzAuthentication s : raw; from_json r := match r with AzAuthentication s => Some s | _ => None end |}. done. Defined.

(** Bo, with a code by email for a second factor, or with none. *)
Definition az_state (without : bool) : Server :=
  mkServer (mkAccounts (mkAppState _ (∅ : gmap string _) [] [] {[ 1 := ex_policy ]} []) [us_user 5 "bo" (Some "bo@example.com"%string)] ∅)
    (if without then [] else [mkCredRow 80 1 5 KIND_EMAIL None [] 0 None None]) mf_node (∅ : gmap string _) [] [] [] [] [] [] [].
Definition az_settings (terms : bool) : Settings :=
  mkSettings (mkSessionPolicy 1800 43200 0) 30 MfaOptional (mkMfaMethods true true true)
    (mkRiskPolicy false (mkRiskWeights 0 0 0 0) 0 0 0 0 0) (mkRegistrationPolicy true true terms [])
    (mkAuthMethods true true true true true) (mkLockoutPolicy 5 15 20 15) (mkCaptchaPolicy 0 false)
    (mkPasswordPolicy 8 64 false false true false 3 None false) (mkNotificationPolicy true true).
Definition az_client : Client :=
  mkClient 3 "app" AuthNone [] [] [] [] None None None Jwt Public None true false false NoProfile None.
Definition az_lookups : Lookups := mkLookups (fun _ => Some az_client) (fun _ => []) None (fun _ => None).
Definition az_access : Access := mkAccess [] [] [] [] [] [] [] [] [] [].
Definition az_request (acr : list string) : AuthRequest :=
  mkAuthRequest 3 "app" "https://app.example/cb" RmQuery ["openid"%string] [] None None None [] None acr None [] None true None None None.
Definition az_acting (_ : SsoSession) : result ApiError (option Acting) := Ok None.
Definition az_issuer (_ : Uuid) : string := "https://id.example".
Definition az_decide (now : Z) (id : Uuid) (s : Settings) (acr : list string) (cookie : option Uuid) : M Server ApiError Authorized :=
  decide ot_sha str_of_bytes az_issuer now id 1 [77] [88] az_acting az_access s az_client (az_request acr) cookie None None None.
Definition az_cx : RequestContext := mkRequestContext None None None None false None.
Definition az_password (now : Z) (s : Settings) (f : LoginFlow) : M Server ApiError AuthStep :=
  password_step ot_sha (fun _ => true) az_issuer now (mkDraws 10 60 []) no_directories az_access az_lookups s f "bo" "ash" az_cx None.
Definition az_draws : FactorDraws := mkFactorDraws 70 71 mf_draws (ex_rnd 1) (ex_rnd 2).
Definition az_confirm (now : Z) (s : Settings) (f : LoginFlow) (code : string) : M Server ApiError MfaStep :=
  mfa_otp_enrol_confirm ot_sha str_of_bytes mf_b64 now az_draws None ot_ldap az_access az_lookups s f ChSms code false.

Definition ui_flow (r : result ApiError Authorized) : option LoginFlow := match r with Ok (ToUi _ f) => Some f | _ => None end.
Definition auth_flow (r : result ApiError AuthStep) : option LoginFlow := match r with Ok (Authenticated _ f) => Some f | _ => None end.
Definition passed_flow (r : result ApiError MfaStep) : option LoginFlow := match r with Ok (MfaPassed f _) => Some f | _ => None end.
Definition the (f : option LoginFlow) : LoginFlow := default (new_flow 0 0 (az_request []) Authenticate 0) f.

(** The request asks for several factors; Bo's password is entered; an own
    number is enrolled. *)
Definition az_begin (now : Z) (s : Settings) (f : LoginFlow) : M Server ApiError Sent :=
  mfa_otp_enrol_begin ot_sha str_of_bytes now (ot_bytes 8) (Ok tt) s f ChSms (Some "+49 30 123456"%string).
#[local] Abbreviation az1 := (az_decide 0 9 (az_settings false) [ACR_MFA] None (az_state false)).
#[local] Abbreviation az2 := (az_password 1000 (az_settings false) (the (ui_flow az1.1)) az1.2).
#[local] Abbreviation az3 := (az_begin 2000 (az_settings false) (the (auth_flow az2.1)) az2.2).
#[local] Abbreviation az4 := (az_confirm 3000 (az_settings false) (the (auth_flow az2.1)) "000008" az3.2).

Lemma ran_ui (x : result ApiError Authorized * Server) : is_Some (ui_flow x.1) -> exists page, x = (Ok (ToUi page (the (ui_flow x.1))), x.2).
Proof. destruct x as [[[]|] ?]; cbn; intros [f [=]]. by eexists. Qed.
Lemma ran_auth (x : result ApiError AuthStep * Server) : is_Some (auth_flow x.1) ->
  exists ses, x = (Ok (Authenticated ses (the (auth_flow x.1))), x.2).
Proof. destruct x as [[[]|] ?]; cbn; intros [f [=]]. by eexists. Qed.
Lemma ran_passed (x : result ApiError MfaStep * Server) : is_Some (passed_flow x.1) ->
  exists codes, x = (Ok (MfaPassed (the (passed_flow x.1)) codes), x.2).
Proof. destruct x as [[[]|] ?]; cbn; intros [f [=]]. by eexists. Qed.

Lemma second_factor_not_skipped_witness :
  let f := the (passed_flow az4.1) in
  lf_stage f = Done /\ exists u v, lf_user_id f = Some u /\ v ∈ [First HPassword 5 (lf_amr (the (auth_flow az2.1))); Enrolled 5] /\ vouches u v.
Proof.
  split; [vm_compute; reflexivity|].
  destruct (ran_ui az1) as [page E1]; [vm_compute; eexists; reflexivity|].
  destruct (ran_auth az2) as [ses E2]; [vm_compute; eexists; reflexivity|].
  destruct (ran_passed az4) as [codes E4]; [vm_compute; eexists; reflexivity|].
  refine (second_factor_not_skipped ot_sha str_of_bytes (fun _ => true) az_issuer (fun _ _ => []) mf_b64 (fun _ => None)
    ([First HPassword 5 (lf_amr (the (auth_flow az2.1)))] ++ [Enrolled 5]) _ _ _ _).
  - apply (reach_second _ _ _ _ _ _ _ [First HPassword 5 (lf_amr (the (auth_flow az2.1)))] (the (auth_flow az2.1)) Enrolled
      (az_confirm 3000 (az_settings false) (the (auth_flow az2.1)) "000008") az3.2 _ codes 5 az4.2); [| |exact E4|vm_compute; reflexivity].
    + apply (reach_first _ _ _ _ _ _ _ [] (the (ui_flow az1.1)) HPassword (az_password 1000 (az_settings false) (the (ui_flow az1.1)))
        az1.2 ses _ 5 az2.2); [| |exact E2|vm_compute; reflexivity].
      * exact (reach_start _ _ _ _ _ _ _ 0 9 1 [77] [88] az_acting az_access (az_settings false) az_client (az_request [ACR_MFA]) None None None None
          (az_state false) page _ az1.2 E1).
      * apply fs_password.
    + apply ss_enrol_otp.
  - vm_compute. reflexivity.
  - left. vm_compute. eexists. reflexivity.
Defined.

Definition az_flow_read (st : Server) : LoginFlow := the (get_flow 4000 1 9 st).
#[local] Abbreviation az_finish now bytes deleted f :=
  (finish_loaded ot_sha str_of_bytes (fun _ => true) az_issuer now 90 [66] bytes deleted az_acting az_lookups (az_settings false) 1 9 (Some 10)
    None None f).
#[local] Abbreviation az5 := (az_finish 4000 [55] true (az_flow_read az4.2) az4.2).
Definition granted (r : result ApiError Authorized) : AuthCode :=
  match r with Ok (WithCode _ g _) => g | _ => mkAuthCode 0 0 "" 0 0 "" [] [] None None 0 [] None None None None 0 end.
Lemma ran_code (x : result ApiError Authorized * Server) : match x.1 with Ok (WithCode _ _ _) => true | _ => false end = true ->
  exists code params, x = (Ok (WithCode code (granted x.1) params), x.2).
Proof. destruct x as [[[]|] ?]; cbn; intros [=]. by do 2 eexists. Qed.
Lemma finish_binds_code_witness :
  c_amr (granted az5.1) = ["pwd"; "otp"; "sms"; "mfa"]%string
  /\ lf_stage (az_flow_read az4.2) = Done
  /\ Some (c_session_id (granted az5.1)) = lf_session_id (az_flow_read az4.2)
  /\ forall now, (finish ot_sha str_of_bytes (fun _ => true) az_issuer now 90 [66] [56] true az_acting az_lookups (az_settings false) 1 9
       (Some 10) None None az5.2).1 = Err (ApiNotFound "flow").
Proof.
  split; [vm_compute; reflexivity|].
  destruct (ran_code az5) as (code & params & E); [vm_compute; reflexivity|].
  destruct (finish_binds_code (H0 := map_valkey_laws) _ _ _ _ _ _ _ _ _ _ _ _ _ _ _ _ _ _ _ _ _ _ _ E)
    as (Hd & Hs & _ & _ & _ & _ & _ & _ & _ & _ & _ & Hgone).
  split; [exact Hd|]. split; [exact Hs|]. intros now.
  exact (f_equal fst (Hgone eq_refl az5.2 (finishes_refl _ _ _ _ _) now 90 [66] [56] true az_acting az_lookups (az_settings false) (Some 10) None None)).
Defined.

Definition code_at (now : Z) (bytes : list Z) (st : Server) : option AuthCode :=
  (consume (fun c => ot_sha (ascii_bytes c)) str_of_bytes now (sv_redis st) 1 (str_of_bytes bytes)).1.
#[local] Abbreviation az_again first_deleted := (
  let first := az_finish 4000 [55] first_deleted (az_flow_read az4.2) az4.2 in
  az_finish 4001 [56] true (if first_deleted then az_flow_read az4.2 else az_flow_read first.2) first.2).
(** A flow is finished twice. Reading a flow and deleting it are two commands:
    two requests that both read the finished flow before either deleted it
    both answer with a code, and both codes can be exchanged. So it is when
    the first request's delete fails, which is only logged. *)
Theorem finished_twice :
  (c_user_id <$> code_at 5000 [55] (az_again true).2, c_user_id <$> code_at 5000 [56] (az_again true).2) = (Some 5, Some 5)
  /\ (c_user_id <$> code_at 5000 [55] (az_again false).2, c_user_id <$> code_at 5000 [56] (az_again false).2) = (Some 5, Some 5).
Proof. vm_compute. done. Qed.

(** A factor can be enrolled in place of the one the account has. Bo's
    account has a second factor, a code by email, and the client asks for
    several factors; somebody who has only Bo's password enrols a number of
    their own at the second step, by the code sent to that number, and the
    flow is done - though only a user who has no factor is to enrol one
    there. *)
Theorem enrolment_bypasses_factor :
  has_factor 1 5 az1.2 = true
  /\ lf_stage (the (auth_flow az2.1)) = StMfa
  /\ (fun m => (ms_recipient m, ms_secret m)) <$> sv_outbox az3.2 = [("+4930123456", "000008")]%string
  /\ lf_stage (the (passed_flow az4.1)) = Done /\ has_mfa (lf_amr (the (passed_flow az4.1))) = true.
Proof. vm_compute. done. Qed.

(** The sign-in of a request that does not ask for a class. *)
#[local] Abbreviation az_in terms := (az_decide 0 9 (az_settings terms) [] None (az_state true)).
#[local] Abbreviation az_signed terms := (az_password 1000 (az_settings terms) (the (ui_flow (az_in terms).1)) (az_in terms).2).
Definition code_acr (r : result ApiError Authorized) : option (option string) := match r with Ok (WithCode _ g _) => Some (c_acr g) | _ => None end.

(** A session is taken to satisfy a class the client prefers less. The
    request names the multi-factor class before the single-factor one, so it
    is a request to step up, and a new sign-in would be asked for a second
    factor; yet a live session of one factor gets a code at once. *)
Theorem preferred_class_settled :
  requested_mfa_class [ACR_MFA; ACR_SINGLE] = Some ACR_MFA
  /\ code_acr (az_decide 2000 12 (az_settings false) [ACR_MFA; ACR_SINGLE] (Some 10) (az_signed false).2).1 = Some (Some ACR_SINGLE)
  /\ (lf_stage <$> auth_flow (az_password 3000 (az_settings false) (the (ui_flow (az_decide 2000 12 (az_settings false) [ACR_MFA; ACR_SINGLE] None (az_signed false).2).1))
        (az_decide 2000 12 (az_settings false) [ACR_MFA; ACR_SINGLE] None (az_signed false).2).2).1) = Some StMfa.
Proof. vm_compute. done. Qed.

(** The session of an abandoned flow is used as it is. The tenant's terms
    have to be accepted, and the flow waits there after the password; a
    second request of the same browser, with the cookie the first factor
    set, gets a code for a user who accepted nothing. *)
Theorem abandoned_terms_get_code :
  lf_stage <$> auth_flow (az_signed true).1 = Some Terms
  /\ is_Some (code_acr (az_decide 2000 12 (az_settings true) [] (Some 10) (az_signed true).2).1)
  /\ ur_terms_accepted_at <$> sv_users (az_decide 2000 12 (az_settings true) [] (Some 10) (az_signed true).2).2 = [None].
Proof. vm_compute. split; [done|]. split; [by eexists|done]. Qed.
End example.
