(* ===== verification/ClientAuth.v ===== *)
(** * Client authentication and DPoP

    Models [api/src/oidc/client_auth.rs] (who the client of a request is),
    [oidc/dpop.rs] (proofs of possession) and the binding checks of
    [oidc/mtls.rs]. What client certificates prove ([mtls::authenticate_client]),
    the client's keys, its address rules, its ceiling and its origins are
    lookups; base64, form decoding, URL normalization and the JWT library are
    parameters or the class [Jwts]. [build_assertion] (for tests) is left out. *)

From stdpp Require Import gmap strings.
From S2P Require Import Prelude Effects Utf8 Valkey AppState Sessions RefreshTokens KeyCustody Models Claims SigningKeys AccessTokens Scopes TokenEndpoint.

(** ** DPoP *)

Definition ALGS : list string :=
  ["ES256"; "ES384"; "RS256"; "RS384"; "RS512"; "PS256"; "PS384"; "PS512"; "EdDSA"]%string.
Definition MAX_AGE_SECS : Z := 300.
Definition MAX_SKEW_SECS : Z := 30.

(** [{:?}] of an [Algorithm]. *)
Definition alg_name (a : Algorithm) : string :=
  match a with
  | AHS256 => "HS256" | AHS384 => "HS384" | AHS512 => "HS512" | AES256 => "ES256" | AES384 => "ES384" | ARS256 => "RS256"
  | ARS384 => "RS384" | ARS512 => "RS512" | APS256 => "PS256" | APS384 => "PS384" | APS512 => "PS512" | AEdDSA => "EdDSA"
  end%string.
Definition algorithm (a : Algorithm) : option Algorithm := if existsb (String.eqb (alg_name a)) ALGS then Some a else None.

(** A verified proof: the thumbprint of its key. *)
Record Proof := mkProof { pr_jkt : string }.
Inductive Scheme := Bearer | Dpop.
#[export] Instance scheme_dec : EqDecision Scheme.
Proof. solve_decision. Defined.

Definition bound_jkt (claims : Map) : option string := (claims !! "cnf"%string ≫= fun v => get_key v "jkt") ≫= as_str.
Definition CNF_X5T : string := "x5t#S256".
Definition bound_x5t (claims : Map) : option string := (claims !! "cnf"%string ≫= fun v => get_key v CNF_X5T) ≫= as_str.
(** [mtls::enforce_binding]; [cert]: the thumbprint of the connection's
    certificate. *)
Definition enforce_cert_binding (claims : Map) (cert : option string) : result string unit :=
  match bound_x5t claims with
  | None => Ok tt
  | Some expected =>
      match cert with
      | None => Err "this token is bound to a client certificate, and none was presented"%string
      | Some c => if String.eqb c expected then Ok tt else Err "the client certificate does not match the token's binding"%string
      end
  end.

(** [trim_end_matches('/')]. *)
Definition trim_slashes (s : string) : string :=
  let fix go (l : list Z) : list Z := match l with 47 :: l => go l | _ => l end in
  str_of_bytes (reverse (go (reverse (ascii_bytes s)))).
(** [public_url] and [mtls_url]: the deployment's configuration. *)
Definition alias_base (mtls_url : option string) (slug : string) : option string :=
  (fun base => trim_slashes base ++ "/t/" ++ slug)%string <$> mtls_url.
Definition htu_candidates (public_url : string) (mtls_url : option string) (t : Tenant) (rest : string) : list string :=
  [(trim_slashes public_url ++ "/t/" ++ tn_slug t ++ rest)%string]
  ++ match tn_custom_domain t with Some host => [("https://" ++ host ++ rest)%string] | None => [] end
  ++ match alias_base mtls_url (tn_slug t) with Some base => [(base ++ rest)%string] | None => [] end.

Definition htu_for_path (public_url : string) (mtls_url : option string) (t : Tenant) (path : string) : list string :=
  let prefix := ("/t/" ++ tn_slug t)%string in
  let rest := String.substring (String.length prefix) (String.length path - String.length prefix) path in
  if String.prefix prefix path && (String.eqb rest "" || String.prefix "/" rest) then htu_candidates public_url mtls_url t rest
  else [(trim_slashes public_url ++ path)%string].

(** [Exactly one DPoP header, or none]: the values of the headers of that name,
    [None] for one that is not text. *)
Definition dpop_header (values : list (option string)) : result string (option string) :=
  match values with
  | [] => Ok None
  | [Some v] => Ok (Some (trim_str v))
  | [None] => Err "DPoP header is not valid text"%string
  | _ => Err "more than one DPoP header"%string
  end.

Section dpop.
Context `{Valkey} `{!Serde ()} `{UuidDisplay} `{Jwts}.
(** The [jwk] member of a JOSE header; an absolute URL without its query and
    fragment; SHA-256 and base64url. *)
Context (header_jwk : string -> option Value) (normalize_htu : string -> option string) (sha256 : string -> list Z) (b64 : list Z -> string).

Definition access_token_hash (token : string) : string := b64 (sha256 token).
Definition dpop_jti (tenant : Uuid) (jti : string) : string :=
  (PREFIX ++ ":t:" ++ uuid_str tenant ++ ":dpop:jti:" ++ b64 (sha256 jti))%string.

(** The checks of a proof that need no store: its [jti] and its key. *)
Definition proof_claims (now : Z) (proof : string) : result string (Map * Value) :=
  if String.eqb proof "" || (4096 <? Z.of_nat (String.length proof)) then Err "DPoP proof is empty or too long"%string
  else
    let? header := ok_or (decode_header proof) "DPoP proof is not a JWT"%string in
    if negb (bool_decide (h_typ header = Some "dpop+jwt"%string)) then Err "DPoP proof typ must be dpop+jwt"%string
    else
      let? alg := ok_or (algorithm (h_alg header)) "DPoP proof algorithm is not allowed"%string in
      let? jwk := ok_or (header_jwk proof) "DPoP proof carries no jwk"%string in
      if bool_decide (is_Some (get_key jwk "d")) then Err "DPoP jwk must be a public key"%string
      else
        let? decoding := ok_or (from_jwk jwk) "DPoP jwk is not usable"%string in
        let? claims := ok_or (jwt_decode (timestamp now) proof decoding (mkValidation alg 60 false false None None []))
                         "DPoP proof signature is invalid"%string in
        Ok (claims, jwk).
Definition proof_jti (claims : Map) : option string :=
  match claims !! "jti"%string ≫= as_str with
  | Some j => if negb (String.eqb j "") && (Z.of_nat (String.length j) <=? 256) then Some j else None
  | None => None
  end.
Definition check_proof (now : Z) (proof method : string) (htu : list string) (access_token : option string)
    : result string (string * Value) :=
  let? signed := proof_claims now proof in
  let '(claims, jwk) := signed in
  let? jti := ok_or (proof_jti claims) "DPoP proof needs a jti"%string in
  let? htm := ok_or (claims !! "htm"%string ≫= as_str) "DPoP proof needs htm"%string in
  if negb (String.eqb htm method) then Err "DPoP htm does not match the request method"%string
  else
    let? claimed := ok_or ((claims !! "htu"%string ≫= as_str) ≫= normalize_htu) "DPoP proof needs htu"%string in
    if negb (existsb (String.eqb claimed) (omap normalize_htu htu)) then Err "DPoP htu does not match the request URL"%string
    else
      let? iat := ok_or (claims !! "iat"%string ≫= value_i64) "DPoP proof needs iat"%string in
      if (iat <? timestamp now - MAX_AGE_SECS) || (timestamp now + MAX_SKEW_SECS <? iat)
      then Err "DPoP proof iat is too old or in the future"%string
      else
        match access_token with
        | Some token =>
            if bool_decide (claims !! "ath"%string ≫= as_str = Some (access_token_hash token)) then Ok (jti, jwk)
            else Err "DPoP ath does not match the access token"%string
        | None => Ok (jti, jwk)
        end.
Definition verify_proof (now : Z) (tenant : Uuid) (proof method : string) (htu : list string) (access_token : option string) (db : vdb)
    : result string Proof * vdb :=
  match check_proof now proof method htu access_token with
  | Err e => (Err e, db)
  | Ok (jti, jwk) =>
      let '(fresh, db) := vset_nx now (dpop_jti tenant jti) (to_json ()) ((MAX_AGE_SECS + MAX_SKEW_SECS) * 1000) db in
      if negb fresh then (Err "DPoP proof replayed"%string, db)
      else (match thumbprint sha256 b64 jwk with Ok jkt => Ok (mkProof jkt) | Err _ => Err "bad jwk"%string end, db)
  end.

(** [values]: the request's [DPoP] headers. *)
Definition enforce_binding (now : Z) (tenant : Uuid) (scheme : Scheme) (token : string) (claims : Map) (values : list (option string))
    (method : string) (htu : list string) (cert : option string) (db : vdb) : result string unit * vdb :=
  match enforce_cert_binding claims cert with
  | Err e => (Err e, db)
  | Ok _ =>
      match bound_jkt claims with
      | None => (Ok tt, db)
      | Some expected =>
          if negb (bool_decide (scheme = Dpop)) then (Err "this token is DPoP-bound and must be sent with the DPoP scheme"%string, db)
          else
            match dpop_header values with
            | Err e => (Err e, db)
            | Ok None => (Err "DPoP proof required"%string, db)
            | Ok (Some proof) =>
                let '(r, db) := verify_proof now tenant proof method htu (Some token) db in
                (let? p := r in
                 if String.eqb (pr_jkt p) expected then Ok tt else Err "DPoP proof key does not match the token's binding"%string, db)
            end
      end
  end.
End dpop.

(** ** Client authentication *)

Definition JWT_BEARER_ASSERTION : string := "urn:ietf:params:oauth:client-assertion-type:jwt-bearer".
Definition MAX_ASSERTION_LIFETIME_SECS : Z := 600.
Definition invalid_client (desc : string) : OAuthError := mkOAuthError InvalidClient desc.

Inductive ClientType := Spa | Web | Native | Machine.
#[export] Instance client_type_dec : EqDecision ClientType.
Proof. solve_decision. Defined.
(** [ClientSecretHash], and the fields of a [Client] the endpoints before the
    tokens read. *)
Record ClientSecretHash := mkClientSecretHash { sh_hash : string; sh_expires_at : option Z }.
Record Registration := mkRegistration {
  rg_client : Client;
  rg_active : bool;
  rg_type : ClientType;
  rg_secrets : list ClientSecretHash;
  rg_jwks_uri : bool;                             (* a [jwks_uri] is set *)
  rg_require_pkce : bool;
  rg_require_par : bool;
  rg_require_consent : bool
}.
Definition requires_par (c : Registration) : bool := rg_require_par c || is_fapi2 (rg_client c).
Definition secret_is_active (now : Z) (s : ClientSecretHash) : bool :=
  match sh_expires_at s with Some at_ => now <? at_ | None => true end.
Definition uses_certificate (m : AuthMethod) : bool := match m with TlsClientAuth | SelfSignedTlsClientAuth => true | _ => false end.
Definition is_hmac (a : Algorithm) : bool := match a with AHS256 | AHS384 | AHS512 => true | _ => false end.
(** [fapi::allows_jws]. *)
Definition allows_jws (a : Algorithm) : bool := match a with APS256 | AES256 | AEdDSA => true | _ => false end.

Inductive Presented :=
| PBasic (client_id secret : string)
| PPost (client_id secret : string)
| PAssertion (assertion : string)
| PNone (client_id : string).

(** What the services asked on the way answer: the client of an id, its keys
    (the flag: fetched anew), its address rules, its ceiling, its certificate,
    and whether a browser's origin is its own. *)
Record ClientLookups := mkClientLookups {
  cx_find : string -> option Registration;
  cx_keys : Uuid -> bool -> result OAuthError (list Value);
  cx_ip_rules : Uuid -> result OAuthError unit;
  cx_ceiling : Uuid -> option OAuthError;
  cx_certificate : Uuid -> result OAuthError unit;
  cx_origin_allowed : Uuid -> bool
}.

(** [str::split_once]. *)
Definition split_once_at (sep : Z) (s : string) : option (string * string) :=
  match split_bytes sep (ascii_bytes s) with
  | a :: b :: rest => Some (str_of_bytes a, str_of_bytes (foldl (fun acc p => acc ++ sep :: p) b rest))
  | _ => None
  end.
Definition key_of_kid (kid : string) (k : Value) : bool := bool_decide (get_key k "kid" = Some (VString kid)).
(** The key a header names, or the only one. *)
Definition pick_key (header : Header) (keys : list Value) : option Value :=
  match h_kid header with
  | Some kid => List.find (key_of_kid kid) keys
  | None => match keys with [k] => Some k | _ => None end
  end.

Section client_auth.
Context `{Valkey} `{!Serde ()} `{UuidDisplay} `{Jwts}.
(** Standard and URL-safe base64 read; the value of a form field; JSON read;
    SHA-256 and base64url. *)
Context (b64_std b64_url : string -> option (list Z)) (form_value : string -> string) (json : list Z -> option Value)
  (sha256 : string -> list Z) (b64 : list Z -> string).

Definition verify_client_secret (now : Z) (c : Registration) (presented : string) : bool :=
  existsb (fun s => secret_is_active now s && String.eqb (sh_hash s) (b64 (sha256 presented))) (rg_secrets c).

(** [authorization]: the header, [None] inside for one that is not text. *)
Definition parse_basic (authorization : option (option string)) : result OAuthError (option (string * string)) :=
  match authorization with
  | None => Ok None
  | Some v =>
      let? v := ok_or v (invalid_client "malformed Authorization header") in
      if negb (String.prefix "Basic " v) then Ok None
      else
        let? decoded := ok_or (b64_std (trim_str (String.substring 6 (String.length v - 6) v))) (invalid_client "malformed Basic credentials") in
        let? _ := ok_or (utf8_decode decoded) (invalid_client "malformed Basic credentials") in
        let? parts := ok_or (split_once_at 58 (str_of_bytes decoded)) (invalid_client "malformed Basic credentials") in
        Ok (Some (form_value parts.1, form_value parts.2))
  end.

(** The credentials of a request, of which there may be one kind. *)
Definition presented_of (params : RawParams) (authorization : option (option string)) : result OAuthError (Presented * option string) :=
  let? basic := parse_basic authorization in
  let? body_id := one params "client_id" in
  let? body_secret := one params "client_secret" in
  let? assertion := one params "client_assertion" in
  let? assertion_type := one params "client_assertion_type" in
  let count := (if bool_decide (is_Some basic) then 1 else 0) + (if bool_decide (is_Some body_secret) then 1 else 0)
               + (if bool_decide (is_Some assertion) then 1 else 0) in
  if 1 <? count then Err (mkOAuthError InvalidRequest "multiple client authentication methods used")
  else
    let? p :=
      match basic, body_secret, assertion with
      | Some (client_id, secret), _, _ =>
          match body_id with
          | Some b => if negb (String.eqb b client_id) then Err (invalid_client "client_id in body does not match Authorization header")
                      else Ok (PBasic client_id secret)
          | None => Ok (PBasic client_id secret)
          end
      | None, Some secret, _ => let? id := ok_or body_id (invalid_client "client_id is required") in Ok (PPost id secret)
      | None, None, Some a =>
          if negb (bool_decide (assertion_type = Some JWT_BEARER_ASSERTION))
          then Err (mkOAuthError InvalidRequest "unsupported client_assertion_type") else Ok (PAssertion a)
      | None, None, None => let? id := ok_or body_id (invalid_client "client_id is required") in Ok (PNone id)
      end in
    Ok (p, body_id).

Definition peek_claims (jwt : string) : result OAuthError Value :=
  let? payload := ok_or (split_str 46 jwt !! 1%nat) (invalid_client "malformed client_assertion") in
  let? bytes := ok_or (b64_url payload) (invalid_client "malformed client_assertion") in
  ok_or (json bytes) (invalid_client "malformed client_assertion").
Definition claimed_id (p : Presented) (body_id : option string) : result OAuthError string :=
  match p with
  | PBasic id _ | PPost id _ | PNone id => Ok id
  | PAssertion a =>
      let? claims := peek_claims a in
      let iss := default ""%string (get_key claims "iss" ≫= as_str) in
      let sub := default ""%string (get_key claims "sub" ≫= as_str) in
      if String.eqb iss "" || negb (String.eqb iss sub) then Err (invalid_client "client_assertion iss and sub must equal the client_id")
      else match body_id with
           | Some b => if negb (String.eqb b iss) then Err (invalid_client "client_id does not match client_assertion") else Ok iss
           | None => Ok iss
           end
  end.

Definition client_assertion_jti (tenant client : Uuid) (jti : string) : string :=
  (PREFIX ++ ":t:" ++ uuid_str tenant ++ ":client:" ++ uuid_str client ++ ":assertion:" ++ jti)%string.

(** The key an assertion is to be signed with: one of the client's, fetched
    anew when none fits. *)
Definition assertion_key (lk : ClientLookups) (c : Registration) (header : Header) : result OAuthError Value :=
  let? keys := cx_keys lk (cl_id (rg_client c)) false in
  let? jwk := match pick_key header keys with
              | Some k => Ok (Some k)
              | None => if rg_jwks_uri c then let? keys := cx_keys lk (cl_id (rg_client c)) true in Ok (pick_key header keys) else Ok None
              end in
  ok_or jwk (invalid_client "no matching client key").
Definition assertion_validation (alg : Algorithm) (client_id : string) (audiences : list string) : Validation :=
  mkValidation alg 30 true true (Some [client_id]) (Some audiences) ["exp"; "iss"; "sub"; "aud"; "jti"]%string.
(** The checks of [verify_assertion] that need no store: the [jti] and the
    expiry. Differences of times are [i64] and wrap in a release build. [issuer]: the tenant's; [audiences]: the names of the endpoint. *)
Definition check_assertion (now : Z) (lk : ClientLookups) (issuer : string) (audiences : list string) (c : Registration) (assertion : string)
    : result OAuthError (string * Z) :=
  let? header := ok_or (decode_header assertion) (invalid_client "malformed client_assertion") in
  if is_hmac (h_alg header) then Err (invalid_client "client_assertion must use an asymmetric algorithm")
  else if is_fapi2 (rg_client c) && negb (allows_jws (h_alg header))
  then Err (invalid_client "the FAPI 2.0 profile allows PS256, ES256 or EdDSA assertions only")
  else
    let? jwk := assertion_key lk c header in
    let? decoding := ok_or (from_jwk jwk) (invalid_client "invalid client key") in
    let? claims := ok_or (jwt_decode (timestamp now) assertion decoding
                            (assertion_validation (h_alg header) (cl_client_id (rg_client c)) audiences))
                     (invalid_client "client_assertion rejected") in
    if is_fapi2 (rg_client c) && negb (bool_decide (claims !! "aud"%string = Some (VString issuer)))
    then Err (invalid_client "client_assertion aud must be the issuer identifier (FAPI 2.0)")
    else if negb (bool_decide (claims !! "sub"%string = Some (VString (cl_client_id (rg_client c)))))
    then Err (invalid_client "client_assertion sub must be the client_id")
    else
      let exp := default 0 (claims !! "exp"%string ≫= value_i64) in
      let iat := default (as_i64 (exp - MAX_ASSERTION_LIFETIME_SECS)) (claims !! "iat"%string ≫= value_i64) in
      if MAX_ASSERTION_LIFETIME_SECS <? as_i64 (exp - iat) then Err (invalid_client "client_assertion lifetime too long")
      else
        let jti := default ""%string (claims !! "jti"%string ≫= as_str) in
        if String.eqb jti "" || (256 <? Z.of_nat (String.length jti)) then Err (invalid_client "client_assertion jti is required")
        else Ok (jti, exp).
Definition assertion_ttl (now exp : Z) : Z := Z.min (Z.max (as_i64 (exp - timestamp now)) 1) MAX_ASSERTION_LIFETIME_SECS.
Definition verify_assertion (now : Z) (lk : ClientLookups) (tenant : Uuid) (issuer : string) (audiences : list string) (c : Registration)
    (assertion : string) : M vdb OAuthError unit := fun db =>
  match check_assertion now lk issuer audiences c assertion with
  | Err e => (Err e, db)
  | Ok (jti, exp) =>
      let '(fresh, db) := vset_nx now (client_assertion_jti tenant (cl_id (rg_client c)) jti) (to_json ()) (assertion_ttl now exp * 1000) db in
      (if fresh then Ok tt else Err (invalid_client "client_assertion replayed"), db)
  end.

(** [token_endpoint], [issuer] and [alias]: the names of the endpoint;
    [browser]: the request carries an [Origin]. *)
Definition authenticate (now : Z) (lk : ClientLookups) (tenant : Uuid) (token_endpoint issuer : string) (alias : option string)
    (authorization : option (option string)) (browser : bool) (params : RawParams) : M vdb OAuthError (Registration * AuthMethod) :=
  let! shown := lift (presented_of params authorization) in
  let '(p, body_id) := shown in
  let! client_id := lift (claimed_id p body_id) in
  let! c := lift (ok_or (cx_find lk client_id) (invalid_client "unknown client")) in
  do! guard (negb (rg_active c)) (invalid_client "client is disabled") in
  do! lift (cx_ip_rules lk (cl_id (rg_client c))) in
  do! match cx_ceiling lk (cl_id (rg_client c)) with Some e => throw e | None => ret tt end in
  let registered := cl_auth_method (rg_client c) in
  do! match p, registered with
      | PBasic _ secret, ClientSecretBasic | PPost _ secret, ClientSecretPost =>
          guard (negb (verify_client_secret now c secret)) (invalid_client "invalid client credentials")
      | PAssertion a, PrivateKeyJwt =>
          verify_assertion now lk tenant issuer ([token_endpoint; issuer] ++ match alias with Some a => [a] | None => [] end) c a
      | PNone _, AuthNone => ret tt
      | PNone _, m => if uses_certificate m then lift (cx_certificate lk (cl_id (rg_client c)))
                      else throw (invalid_client "client authentication required")
      | _, _ => throw (invalid_client "client authentication method does not match the registered method")
      end in
  do! guard (browser && negb (cx_origin_allowed lk (cl_id (rg_client c))))
        (mkOAuthError InvalidRequest "origin is not registered for this client") in
  ret (c, registered).
End client_auth.

(** ** Marks that last *)

Section marks.
Context `{ValkeyLaws}.

(** The key holds something from [now] until [until]. *)
Definition taken (k : string) (now until : Z) (db : vdb) : Prop := forall n, now <= n < until -> is_Some (vget n k db).
Lemma taken_later k now now' until db : taken k now until db -> now <= now' -> taken k now' until db.
Proof. intros Ht Hle n Hn. apply Ht. lia. Qed.
(** [SET NX] on any key leaves it. *)
Lemma taken_nx k now until k' v ttl db : now < until -> taken k now until db -> taken k now until (vset_nx now k' v ttl db).2.
Proof.
  intros Hu Ht. unfold vset_nx. destruct (vget now k' db) eqn:E; [done|]. intros n Hn. cbn.
  destruct (decide (k' = k)) as [->|Hne]; [|rewrite vget_set_ne by done; by apply Ht].
  destruct (Ht now) as [? Hs]; [lia|congruence].
Qed.
(** ... and claims its own. *)
Lemma nx_claims now k v ttl db : 0 < ttl -> (vset_nx now k v ttl db).1 = true -> taken k now (now + ttl) (vset_nx now k v ttl db).2.
Proof.
  intros Ht. unfold vset_nx. destruct (vget now k db) eqn:E; [done|]. intros _ n Hn. cbn. rewrite vget_set by lia.
  destruct (Z.ltb_spec n (now + ttl)); [by eexists|lia].
Qed.
Lemma nx_taken k now until v ttl db : now < until -> taken k now until db -> vset_nx now k v ttl db = (false, db).
Proof. intros Hu Ht. unfold vset_nx. destruct (Ht now) as [? ->]; [lia|done]. Qed.
End marks.

(** What a request did: claim one of the keys [K], or nothing. *)
Definition nx_only `{Valkey} (K : string -> Prop) (now : Z) (db db' : vdb) : Prop :=
  db' = db \/ exists k v ttl, K k /\ db' = (vset_nx now k v ttl db).2.
Lemma taken_nx_only `{ValkeyLaws} K k now until db db' : now < until -> nx_only K now db db' -> taken k now until db -> taken k now until db'.
Proof. intros Hu [->|(k' & v & ttl & _ & ->)] Ht; [done|by apply taken_nx]. Qed.
Lemma nx_only_other `{ValkeyLaws} K now db db' k : nx_only K now db db' -> (~ K k) -> forall n, vget n k db' = vget n k db.
Proof.
  intros [->|(k' & v & ttl & Hk & ->)] Hn n; [done|]. unfold vset_nx. destruct (vget now k' db); [done|]. cbn. apply vget_set_ne. by intros ->.
Qed.

Section replay.
Context `{ValkeyLaws} `{!Serde ()} `{UuidDisplay} `{Jwts}.
Context (header_jwk : string -> option Value) (normalize_htu : string -> option string) (sha256 : string -> list Z) (b64 : list Z -> string).
Context (b64_std b64_url : string -> option (list Z)) (form_value : string -> string) (json : list Z -> option Value).
#[local] Abbreviation verify_proof := (verify_proof header_jwk normalize_htu sha256 b64).
#[local] Abbreviation check_proof := (check_proof header_jwk normalize_htu sha256 b64).
#[local] Abbreviation authenticate := (authenticate b64_std b64_url form_value json sha256 b64).

(** The keys that remember what was used. *)
Inductive used_key : string -> Prop :=
| uk_dpop t jti : used_key (dpop_jti sha256 b64 t jti)
| uk_assertion t c jti : used_key (client_assertion_jti t c jti).
Definition assertion_key_of (k : string) : Prop := exists t c jti, k = client_assertion_jti t c jti.
(** Requests at increasing times: proofs and clients that are checked, for any
    tenant, and whatever else that leaves those keys alone. *)
Inductive requests : Z -> vdb -> Z -> vdb -> Prop :=
| rq_none now db : requests now db now db
| rq_proof now db n t proof method htu token now' db' :
    now <= n -> requests n (verify_proof n t proof method htu token db).2 now' db' -> requests now db now' db'
| rq_client now db n lk t endpoint issuer alias authorization browser params now' db' :
    now <= n -> requests n (authenticate n lk t endpoint issuer alias authorization browser params db).2 now' db' -> requests now db now' db'
| rq_other now db n db1 now' db' :
    now <= n -> (forall k n', used_key k -> vget n' k db1 = vget n' k db) -> requests n db1 now' db' -> requests now db now' db'.

Lemma verify_proof_nx now t proof method htu token db : nx_only used_key now db (verify_proof now t proof method htu token db).2.
Proof.
  unfold ClientAuth.verify_proof. destruct (check_proof now proof method htu token) as [[jti jwk]|e]; [|by left].
  destruct (vset_nx _ _ _ _ db) as [fresh db1] eqn:E. right. do 3 eexists. split; [apply uk_dpop|]. rewrite E. by destruct fresh.
Qed.
Lemma verify_assertion_nx now lk t iss auds c a db : nx_only assertion_key_of now db (verify_assertion now lk t iss auds c a db).2.
Proof.
  unfold verify_assertion. destruct (check_assertion _ _ _ _ _ _) as [[jti exp]|e]; [|by left].
  destruct (vset_nx _ _ _ _ db) as [fresh db1] eqn:E. right. do 3 eexists. split; [by do 3 eexists|]. by rewrite E.
Qed.
(** Everything else in [authenticate] only reads. *)
Lemma nx_only_then {A B} (m : M vdb OAuthError A) (k : A -> M vdb OAuthError B) K now db :
  (m db).2 = db -> (forall a, nx_only K now db (k a db).2) -> nx_only K now db (bind m k db).2.
Proof. intros Hm Hk. unfold bind. destruct (m db) as [[a|e] db1]; cbn in Hm; subst; [apply Hk|by left]. Qed.
Lemma nx_only_last {A B} (m : M vdb OAuthError A) (k : A -> M vdb OAuthError B) K now db :
  nx_only K now db (m db).2 -> (forall a db1, (k a db1).2 = db1) -> nx_only K now db (bind m k db).2.
Proof. intros Hm Hk. unfold bind. destruct (m db) as [[a|e] db1]; cbn in Hm |- *; [by rewrite Hk|done]. Qed.
Lemma authenticate_nx now lk t endpoint iss alias authorization browser params db :
  nx_only assertion_key_of now db (authenticate now lk t endpoint iss alias authorization browser params db).2.
Proof.
  unfold ClientAuth.authenticate. apply nx_only_then; [done|]. intros [p body_id]. apply nx_only_then; [done|]. intros id.
  apply nx_only_then; [done|]. intros c. apply nx_only_then; [by destruct (negb _)|]. intros []. apply nx_only_then; [done|]. intros [].
  apply nx_only_then; [by destruct (cx_ceiling _ _)|]. intros []. apply nx_only_last.
  - destruct p, (cl_auth_method (rg_client c)); try (by left); try (by destruct (negb _); left); try apply verify_assertion_nx.
  - intros [] db1. unfold bind, guard. by destruct (_ && _).
Qed.

Lemma requests_time now db now' db' : requests now db now' db' -> now <= now'.
Proof. induction 1; lia. Qed.
Lemma taken_requests k now until db now' db' :
  used_key k -> requests now db now' db' -> now' < until -> taken k now until db -> taken k now' until db'.
Proof.
  intros Hk. induction 1 as [now db|now db n t proof method htu token now' db' Hle Hr IH
    |now db n lk t endpoint iss alias authorization browser params now' db' Hle Hr IH|now db n db1 now' db' Hle Ho Hr IH]; intros Hu Ht; [done|..];
    pose proof (requests_time _ _ _ _ Hr) as Hn; apply IH; try done; apply (taken_later _ _ _ _ _ Ht) in Hle.
  - eapply taken_nx_only; [lia|apply verify_proof_nx|done].
  - eapply taken_nx_only; [lia|apply authenticate_nx|done].
  - intros m Hm. rewrite Ho by done. by apply Hle.
Qed.
End replay.

(** ** What a proof and an assertion are good for *)

(** The payload of a token does not depend on when it is read, nor on the key
    it verifies under. *)
Class JwtsPayload `{Jwts} := jwt_payload now now' tok d d' v v' c c' :
  jwt_decode now tok d v = Some c -> jwt_decode now' tok d' v' = Some c' -> c = c'.

Section used_once.
Context `{ValkeyLaws} `{!Serde ()} `{UuidDisplay} `{JwtsPayload}.
Context (header_jwk : string -> option Value) (normalize_htu : string -> option string) (sha256 : string -> list Z) (b64 : list Z -> string).
Context (b64_std b64_url : string -> option (list Z)) (form_value : string -> string) (json : list Z -> option Value).
#[local] Abbreviation verify_proof := (verify_proof header_jwk normalize_htu sha256 b64).
#[local] Abbreviation check_proof := (check_proof header_jwk normalize_htu sha256 b64).
#[local] Abbreviation authenticate := (authenticate b64_std b64_url form_value json sha256 b64).
#[local] Abbreviation requests := (requests header_jwk normalize_htu sha256 b64 b64_std b64_url form_value json).

(** What a proof that passes the checks says. *)
Definition proof_ok (now : Z) (proof method : string) (htu : list string) (token : option string) (jti : string) (jwk : Value) (claims : Map)
    (iat : Z) : Prop :=
  proof_claims header_jwk now proof = Ok (claims, jwk) /\ claims !! "jti"%string = Some (VString jti)
  /\ claims !! "htm"%string = Some (VString method)
  /\ (exists u h, claims !! "htu"%string = Some (VString u) /\ h ∈ htu /\ is_Some (normalize_htu u) /\ normalize_htu u = normalize_htu h)
  /\ claims !! "iat"%string ≫= value_i64 = Some iat /\ timestamp now - MAX_AGE_SECS <= iat <= timestamp now + MAX_SKEW_SECS
  /\ (forall tok, token = Some tok -> claims !! "ath"%string = Some (VString (access_token_hash sha256 b64 tok))).

Lemma as_str_some (o : option Value) s : o ≫= as_str = Some s -> o = Some (VString s).
Proof. destruct o as [[]|]; try done. by intros [= ->]. Qed.
Lemma check_proof_ok now proof method htu token jti jwk :
  check_proof now proof method htu token = Ok (jti, jwk) -> exists claims iat, proof_ok now proof method htu token jti jwk claims iat.
Proof.
  unfold ClientAuth.check_proof, proof_ok. destruct (proof_claims header_jwk now proof) as [[claims jwk']|]; [|done].
  destruct (proof_jti claims) as [j|] eqn:Ej; cbn [ok_or]; [|done].
  destruct (claims !! "htm"%string ≫= as_str) as [htm|] eqn:Em; cbn [ok_or]; [apply as_str_some in Em|done].
  destruct (String.eqb_spec htm method) as [->|]; cbn [negb]; [|done].
  destruct (claims !! "htu"%string ≫= as_str) as [u|] eqn:Eu; cbn [mbind option_bind ok_or]; [apply as_str_some in Eu|done].
  destruct (normalize_htu u) as [claimed|] eqn:En; cbn [ok_or]; [|done].
  destruct (existsb _ _) eqn:Eh; cbn [negb]; [|done]. destruct (claims !! "iat"%string ≫= value_i64) as [iat|] eqn:Ei; cbn [ok_or]; [|done].
  destruct (_ || _) eqn:Ew; [done|]. bool_hyps. intros Hr. assert (jti = j /\ jwk = jwk') as [-> ->].
  { destruct token; [case_bool_decide|]; by inversion Hr. }
  exists claims, iat. split; [done|]. split.
  { unfold proof_jti in Ej. destruct (claims !! "jti"%string ≫= as_str) as [j'|] eqn:Ej'; [apply as_str_some in Ej'|done]. destruct (_ && _); [by injection Ej as <-|done]. }
  split; [done|]. split.
  { apply existsb_exists in Eh as (x & Hx & <-%String.eqb_eq). apply list_elem_of_In, list_elem_of_omap in Hx as (h & Hh & Hn).
    exists u, h. split; [done|]. split; [done|]. rewrite En. by split; [eexists|]. }
  split; [done|]. split; [lia|]. intros tok ->. case_bool_decide as Ha; [by apply as_str_some|done].
Qed.

Lemma proof_payload now now' proof c j c' j' : proof_claims header_jwk now proof = Ok (c, j) -> proof_claims header_jwk now' proof = Ok (c', j') -> c = c'.
Proof.
  unfold proof_claims. destruct (_ || _); [done|]. destruct (decode_header proof) as [h|]; cbn; [|done]. destruct (negb _); [done|].
  destruct (algorithm _) as [alg|]; cbn; [|done]. destruct (header_jwk proof) as [jwk|]; cbn; [|done]. destruct (bool_decide _); [done|].
  destruct (from_jwk jwk) as [d|]; cbn; [|done].
  destruct (jwt_decode (timestamp now) _ _ _) eqn:E1; cbn; [|done]. destruct (jwt_decode (timestamp now') _ _ _) eqn:E2; cbn; [|done].
  intros [= <- <-] [= <- <-]. by eapply jwt_payload.
Qed.

Lemma verify_proof_marks now t proof method htu token db p : (verify_proof now t proof method htu token db).1 = Ok p ->
  exists jti jwk, check_proof now proof method htu token = Ok (jti, jwk) /\ thumbprint sha256 b64 jwk = Ok (pr_jkt p)
    /\ vget now (dpop_jti sha256 b64 t jti) db = None
    /\ taken (dpop_jti sha256 b64 t jti) now (now + 330000) (verify_proof now t proof method htu token db).2.
Proof.
  unfold ClientAuth.verify_proof. destruct (check_proof now proof method htu token) as [[jti jwk]|]; [|done]. intros Hp. exists jti, jwk. revert Hp.
  set (k := dpop_jti _ _ _ _). pose proof (nx_claims now k (to_json ()) ((MAX_AGE_SECS + MAX_SKEW_SECS) * 1000) db ltac:(done)) as Hc.
  destruct (vset_nx _ _ _ _ db) as [[] db1] eqn:E; cbn [negb fst snd] in *; [|done].
  destruct (thumbprint sha256 b64 jwk) as [jkt|]; [|done]. intros [= <-]. split; [done|]. split; [done|]. split; [|by apply Hc].
  unfold vset_nx in E. by destruct (vget now k db).
Qed.

(** C10: A DPoP proof is good for one request. Whatever proofs and clients are
    checked in between, a proof that was accepted is accepted again only in
    the last instant of its window: if it was dated the whole allowed skew
    into the future, and then within one second, once its mark has expired
    and its age has not. *)
Theorem proof_used_once now1 t proof m1 h1 a1 p1 db now2 db2 m2 h2 a2 p2 :
  (verify_proof now1 t proof m1 h1 a1 db).1 = Ok p1 ->
  requests now1 (verify_proof now1 t proof m1 h1 a1 db).2 now2 db2 ->
  (verify_proof now2 t proof m2 h2 a2 db2).1 = Ok p2 ->
  now1 + 330000 <= now2 < now1 + 331000
  /\ exists claims jwk, proof_claims header_jwk now1 proof = Ok (claims, jwk)
       /\ claims !! "iat"%string ≫= value_i64 = Some (timestamp now1 + MAX_SKEW_SECS).
Proof.
  intros (jti & jwk & Hc1 & _ & _ & Ht)%verify_proof_marks Hr (jti2 & jwk2 & Hc2 & _ & Hnone & _)%verify_proof_marks.
  apply check_proof_ok in Hc1 as (c1 & iat1 & Hp1 & Hj1 & _ & _ & Hi1 & Hw1 & _).
  apply check_proof_ok in Hc2 as (c2 & iat2 & Hp2 & Hj2 & _ & _ & Hi2 & Hw2 & _).
  assert (c2 = c1) as -> by (by eapply proof_payload). assert (iat2 = iat1) as -> by congruence. assert (jti2 = jti) as -> by congruence.
  assert (now1 + 330000 <= now2) as Hle.
  { apply Z.nlt_ge. intros Hlt. pose proof (requests_time _ _ _ _ _ _ _ _ _ _ _ _ Hr) as Hn.
    apply (taken_requests _ _ _ _ _ _ _ _ (dpop_jti sha256 b64 t jti) _ (now1 + 330000)) in Hr; [|constructor|done..].
    destruct (Hr now2) as [? Hs]; [lia|]. congruence. }
  unfold MAX_AGE_SECS, MAX_SKEW_SECS, timestamp in *. assert (iat1 = now1 / 1000 + 30) as -> by (Z.to_euclidean_division_equations; lia).
  split; [Z.to_euclidean_division_equations; lia|]. by exists c1, jwk.
Qed.

(** C9: A token bound to a key is taken only with a fresh proof of that key: when
    the binding of a token that names a key is accepted, the request used the
    DPoP scheme and carried exactly one proof, signed with a public key that
    has the thumbprint the token names, made for this method, this URL and
    this very token, not long ago, and not seen before. *)
Theorem bound_token_needs_key now t scheme token claims values method htu cert db db' expected :
  bound_jkt claims = Some expected ->
  enforce_binding header_jwk normalize_htu sha256 b64 now t scheme token claims values method htu cert db = (Ok tt, db') ->
  scheme = Dpop /\ exists v jti jwk pc iat, values = [Some v] /\ proof_ok now (trim_str v) method htu (Some token) jti jwk pc iat
    /\ thumbprint sha256 b64 jwk = Ok expected /\ vget now (dpop_jti sha256 b64 t jti) db = None
    /\ (forall x, bound_x5t claims = Some x -> cert = Some x).
Proof.
  intros Hb. unfold enforce_binding. destruct (enforce_cert_binding claims cert) as [[]|] eqn:Ec; [|done]. rewrite Hb.
  case_bool_decide as Hs; cbn [negb]; [|done]. destruct (dpop_header values) as [[proof|]|] eqn:Ev; [|done..].
  destruct (verify_proof now t proof method htu (Some token) db) as [r db1] eqn:Er. destruct r as [p|]; [|done].
  destruct (String.eqb_spec (pr_jkt p) expected) as [<-|]; [|done]. intros _. split; [done|].
  assert ((verify_proof now t proof method htu (Some token) db).1 = Ok p) as (jti & jwk & Hc & Htp & Hn & _)%verify_proof_marks by (by rewrite Er).
  apply check_proof_ok in Hc as (pc & iat & Hok).
  destruct values as [|[v|] [|]]; try done. injection Ev as <-. exists v, jti, jwk, pc, iat. do 4 (split; [done|]).
  intros x Hx. unfold enforce_cert_binding in Ec. rewrite Hx in Ec. destruct cert as [c|]; [|done]. by destruct (String.eqb_spec c x) as [->|].
Qed.
End used_once.

Section authenticated.
Context `{ValkeyLaws} `{!Serde ()} `{UuidDisplay} `{JwtsPayload}.
Context (header_jwk : string -> option Value) (normalize_htu : string -> option string) (sha256 : string -> list Z) (b64 : list Z -> string).
Context (b64_std b64_url : string -> option (list Z)) (form_value : string -> string) (json : list Z -> option Value).
#[local] Abbreviation authenticate := (authenticate b64_std b64_url form_value json sha256 b64).
#[local] Abbreviation requests := (requests header_jwk normalize_htu sha256 b64 b64_std b64_url form_value json).

(** What an assertion that passes the checks is: a JWT of the client, signed with
    one of its keys by an asymmetric algorithm. *)
Definition assertion_ok (now : Z) (lk : ClientLookups) (auds : list string) (c : Registration) (a jti : string) (exp : Z) : Prop :=
  exists header refreshed keys jwk d claims,
    decode_header a = Some header /\ is_hmac (h_alg header) = false /\ (is_fapi2 (rg_client c) = true -> allows_jws (h_alg header) = true)
    /\ cx_keys lk (cl_id (rg_client c)) refreshed = Ok keys /\ pick_key header keys = Some jwk /\ from_jwk jwk = Some d
    /\ jwt_decode (timestamp now) a d (assertion_validation (h_alg header) (cl_client_id (rg_client c)) auds) = Some claims
    /\ claims !! "sub"%string = Some (VString (cl_client_id (rg_client c)))
    /\ default ""%string (claims !! "jti"%string ≫= as_str) = jti /\ jti <> ""%string /\ default 0 (claims !! "exp"%string ≫= value_i64) = exp.

Lemma assertion_key_ok lk c header jwk : assertion_key lk c header = Ok jwk ->
  exists refreshed keys, cx_keys lk (cl_id (rg_client c)) refreshed = Ok keys /\ pick_key header keys = Some jwk.
Proof.
  unfold assertion_key. destruct (cx_keys lk _ false) as [keys|] eqn:Ek; [|done]. destruct (pick_key header keys) eqn:Ep.
  { cbn. intros [= <-]. by exists false, keys. }
  destruct (rg_jwks_uri c); [|done]. destruct (cx_keys lk _ true) as [keys'|] eqn:Ek'; [|done]. intros Hj%ok_or_ok. by exists true, keys'.
Qed.
Lemma check_assertion_ok now lk iss auds c a jti exp : check_assertion now lk iss auds c a = Ok (jti, exp) -> assertion_ok now lk auds c a jti exp.
Proof.
  unfold check_assertion. destruct (decode_header a) as [header|] eqn:Eh; cbn [ok_or]; [|done]. destruct (is_hmac _) eqn:Ehm; [done|].
  destruct (is_fapi2 _ && negb (allows_jws _)) eqn:Ef; [done|]. destruct (assertion_key lk c header) as [jwk|] eqn:Ek; [|done].
  destruct (from_jwk jwk) as [d|] eqn:Ed; cbn [ok_or]; [|done]. destruct (jwt_decode _ a d _) as [claims|] eqn:Ec; cbn [ok_or]; [|done].
  destruct (is_fapi2 _ && negb (bool_decide _)); [done|]. case_bool_decide as Hsub; cbn [negb]; [|done]. destruct (_ <? _); [done|].
  destruct (_ || _) eqn:Ej; [done|]. intros [= <- <-]. apply assertion_key_ok in Ek as (r & keys & Hk & Hp).
  apply orb_false_iff in Ej as [Ej%String.eqb_neq _]. exists header, r, keys, jwk, d, claims. do 2 (split; [done|]).
  split; [intros Hf; rewrite Hf in Ef; by apply negb_false_iff|]. done.
Qed.
Lemma assertion_same now now' lk lk' auds auds' c a jti exp jti' exp' :
  assertion_ok now lk auds c a jti exp -> assertion_ok now' lk' auds' c a jti' exp' -> jti = jti' /\ exp = exp'.
Proof.
  intros (h & r & ks & k & d & cl & _ & _ & _ & _ & _ & _ & Hc & _ & Hj & _ & He) (h' & r' & ks' & k' & d' & cl' & _ & _ & _ & _ & _ & _ & Hc' & _ & Hj' & _ & He').
  assert (cl = cl') as -> by (by eapply jwt_payload). by subst.
Qed.
Lemma verify_assertion_inv now lk t iss auds c a db db' : verify_assertion now lk t iss auds c a db = (Ok tt, db') ->
  exists jti exp, check_assertion now lk iss auds c a = Ok (jti, exp)
    /\ vget now (client_assertion_jti t (cl_id (rg_client c)) jti) db = None
    /\ taken (client_assertion_jti t (cl_id (rg_client c)) jti) now (now + assertion_ttl now exp * 1000) db'.
Proof.
  unfold verify_assertion. destruct (check_assertion _ _ _ _ _ _) as [[jti exp]|]; [|done]. set (k := client_assertion_jti _ _ _).
  assert (0 < assertion_ttl now exp * 1000) as Hpos by (unfold assertion_ttl, MAX_ASSERTION_LIFETIME_SECS; lia).
  pose proof (nx_claims now k (to_json ()) _ db Hpos) as Hc. destruct (vset_nx _ _ _ _ db) as [[] db1] eqn:E; [|done]. intros [= ->].
  exists jti, exp. split; [done|]. split; [|by apply Hc]. unfold vset_nx in E. by destruct (vget now k db) eqn:Ek; [|exact Ek].
Qed.

(** A client assertion is good for one request while it is remembered:
    whatever clients and proofs are checked in between, the assertion that
    authenticated a client is refused as long as its identifier is kept, which
    is until it expires, for at least a second and at most ten minutes. *)
Theorem assertion_used_once now1 lk1 t iss1 auds1 c a db db1 now2 db2 lk2 iss2 auds2 db3 :
  verify_assertion now1 lk1 t iss1 auds1 c a db = (Ok tt, db1) ->
  requests now1 db1 now2 db2 ->
  verify_assertion now2 lk2 t iss2 auds2 c a db2 = (Ok tt, db3) ->
  exists jti exp, assertion_ok now1 lk1 auds1 c a jti exp /\ now1 + assertion_ttl now1 exp * 1000 <= now2.
Proof.
  intros (jti & exp & Hc1%check_assertion_ok & _ & Ht)%verify_assertion_inv Hr (jti2 & exp2 & Hc2%check_assertion_ok & Hnone & _)%verify_assertion_inv.
  exists jti, exp. split; [done|]. destruct (assertion_same _ _ _ _ _ _ _ _ _ _ _ _ Hc1 Hc2) as [<- <-].
  apply Z.nlt_ge. intros Hu. pose proof (requests_time _ _ _ _ _ _ _ _ _ _ _ _ Hr) as Hn.
  eapply taken_requests in Hr; [|apply uk_assertion|exact Hu|exact Ht]. destruct (Hr now2) as [? Hs]; [lia|]. congruence.
Qed.

(** What a request shows proves the client by the method [m]. *)
Definition proves (now : Z) (lk : ClientLookups) (t : Uuid) (auds : list string) (c : Registration) (m : AuthMethod) (p : Presented) (db db' : vdb) : Prop :=
  match m, p with
  | AuthNone, PNone _ => db' = db
  | ClientSecretBasic, PBasic _ secret | ClientSecretPost, PPost _ secret =>
      db' = db /\ exists s, s ∈ rg_secrets c /\ secret_is_active now s = true /\ sh_hash s = b64 (sha256 secret)
  | TlsClientAuth, PNone _ | SelfSignedTlsClientAuth, PNone _ => db' = db /\ cx_certificate lk (cl_id (rg_client c)) = Ok tt
  | PrivateKeyJwt, PAssertion a =>
      exists jti exp, assertion_ok now lk auds c a jti exp
        /\ vget now (client_assertion_jti t (cl_id (rg_client c)) jti) db = None
        /\ taken (client_assertion_jti t (cl_id (rg_client c)) jti) now (now + assertion_ttl now exp * 1000) db'
  | _, _ => False
  end.
Lemma secret_proves now c secret (e : OAuthError) (db db' : vdb) :
  guard (negb (verify_client_secret sha256 b64 now c secret)) e db = (Ok tt, db') ->
  db' = db /\ exists s, s ∈ rg_secrets c /\ secret_is_active now s = true /\ sh_hash s = b64 (sha256 secret).
Proof.
  intros [Hv%negb_false_iff ->]%guard_ok. split; [done|].
  apply existsb_exists in Hv as (s & Hs%list_elem_of_In & [Hs1 Hs2%String.eqb_eq]%andb_prop). by exists s.
Qed.

(** C8: Who authenticates is the client: the request shows credentials of one kind
    that name an active client, which the address rules and the ceiling let
    through, and they prove it by the method the client is registered with and
    by no other - nothing for a public one, one of its unexpired secrets, a
    certificate it registered, or an assertion for this endpoint, signed with
    one of its keys by an asymmetric algorithm, whose identifier is not
    remembered and is from now on remembered until the assertion expires, for
    at least a second and at most ten minutes; a browser's origin is one of
    the client's. *)
Theorem authenticate_sound now lk t endpoint iss alias authorization browser params db c m db' :
  authenticate now lk t endpoint iss alias authorization browser params db = (Ok (c, m), db') ->
  m = cl_auth_method (rg_client c) /\ rg_active c = true
  /\ cx_ip_rules lk (cl_id (rg_client c)) = Ok tt /\ cx_ceiling lk (cl_id (rg_client c)) = None
  /\ (browser = true -> cx_origin_allowed lk (cl_id (rg_client c)) = true)
  /\ exists p body id, presented_of b64_std form_value params authorization = Ok (p, body) /\ claimed_id b64_url json p body = Ok id
     /\ cx_find lk id = Some c
     /\ proves now lk t ([endpoint; iss] ++ match alias with Some a => [a] | None => [] end) c m p db db'.
Proof.
  unfold ClientAuth.authenticate. intros Ha. apply bind_ok in Ha as ([p body] & st1 & [Hp ->]%lift_ok & Ha).
  apply bind_ok in Ha as (id & st1 & [Hid ->]%lift_ok & Ha). apply bind_ok in Ha as (c0 & st1 & [Hf%ok_or_ok ->]%lift_ok & Ha).
  apply bind_ok in Ha as ([] & st1 & [Hact%negb_false_iff ->]%guard_ok & Ha). apply bind_ok in Ha as ([] & st1 & [Hip ->]%lift_ok & Ha).
  apply bind_ok in Ha as ([] & st1 & Hceil & Ha). destruct (cx_ceiling lk _) eqn:Ec in Hceil; [done|]. injection Hceil as ->.
  apply bind_ok in Ha as ([] & st2 & Hm & Ha). apply bind_ok in Ha as ([] & st3 & [Hb ->]%guard_ok & Ha). injection Ha as -> <- ->.
  do 4 (split; [done|]). split; [intros ->; by apply negb_false_iff in Hb|]. exists p, body, id. do 3 (split; [done|]). unfold proves.
  destruct (cl_auth_method (rg_client c)), p; try done; try (by apply secret_proves in Hm); try (by injection Hm as ->); try (by apply lift_ok in Hm as [? ->]).
  apply verify_assertion_inv in Hm as (jti & exp & Hc & Hn & Ht). exists jti, exp. split; [by eapply check_assertion_ok|]. done.
Qed.
End authenticated.

(** ** Example *)

Section example.
Local Open Scope string_scope.
#[local] Instance ca_valkey : Valkey := map_valkey (R := unit).
#[local] Existing Instances map_valkey_laws toy_uuid.
#[local] Instance ca_unit : Serde ().
Proof. refine {| to_json _ := tt : raw; from_json _ := Some tt |}. by intros []. Defined.

(** A proof dated thirty seconds ahead, one for a token, and an assertion that
    says no [iat] and does not expire for months. *)
Definition ca_payload (tok : string) : option Map :=
  if String.eqb tok "p" then
    Some (list_to_map [("jti", VString "j"); ("htm", VString "POST"); ("htu", VString "https://id.example/t/acme/token"); ("iat", VNumber (NInt 30))])
  else if String.eqb tok "q" then
    Some (list_to_map [("jti", VString "k"); ("htm", VString "GET"); ("htu", VString "https://api.example/"); ("iat", VNumber (NInt 0)); ("ath", VString "at_1")])
  else if String.eqb tok "a" then
    Some (list_to_map [("jti", VString "j"); ("iss", VString "app"); ("sub", VString "app"); ("aud", VString "https://id.example"); ("exp", VNumber (NInt 9999999))])
  else None.
#[local] Instance ca_jwts : Jwts := {|
  enc_key := unit; dec_key := Value; from_rsa_der _ := tt; from_ec_der _ := tt; from_ed_der _ := tt; from_jwk := Some; jwt_encode _ _ _ := None;
  decode_header _ := Some (mkHeader AEdDSA None (Some "dpop+jwt"));
  jwt_decode now tok _ v := match ca_payload tok with Some c => if validates now v c then Some c else None | None => None end
|}.
#[local] Instance ca_jwts_payload : JwtsPayload.
Proof. intros now now' tok d d' v v' c c'. cbn. destruct (ca_payload tok); [|done]. do 2 (destruct (validates _ _ _); [|done]). congruence. Qed.

Definition ca_jwk : Value := VObject [("kty", VString "OKP"); ("crv", VString "Ed25519"); ("x", VString "K")].
Definition ca_jkt : string := match thumbprint ascii_bytes str_of_bytes ca_jwk with Ok k => k | Err _ => "" end.
Definition ca_token_url : list string := ["https://id.example/t/acme/token"].
Definition ca_proof (now : Z) : vdb -> result string Proof * vdb :=
  verify_proof (fun _ => Some ca_jwk) Some ascii_bytes str_of_bytes now 1 "p" "POST" ca_token_url None.
Definition ca_client : Registration :=
  mkRegistration (mkClient 3 "app" PrivateKeyJwt [] [] [] [] None None None Jwt Public None true false false NoProfile None) true Web [] false false false false.
Definition ca_lookups : ClientLookups :=
  mkClientLookups (fun id => if String.eqb id "app" then Some ca_client else None) (fun _ _ => Ok [ca_jwk]) (fun _ => Ok tt) (fun _ => None) (fun _ => Ok tt)
    (fun _ => true).
Definition ca_assertion (now : Z) : M vdb OAuthError unit :=
  verify_assertion now ca_lookups 1 "https://id.example" ["https://id.example"] ca_client "a".
Definition ca_empty : vdb := (∅ : gmap string _).

(** A DPoP proof is accepted twice at the end of its window: its mark is kept
    for 330 seconds from its first use, while its age is counted in whole
    seconds. *)
Theorem proof_accepted_twice :
  let '(r1, db1) := ca_proof 0%Z ca_empty in
  let '(r2, db2) := ca_proof 329999%Z db1 in
  let '(r3, _) := ca_proof 330500%Z db2 in
  r1 = Ok (mkProof ca_jkt) /\ r2 = Err "DPoP proof replayed" /\ r3 = Ok (mkProof ca_jkt).
Proof. vm_compute. done. Qed.

(** A client assertion is accepted every ten minutes until it expires, however
    far off that is: the lifetime is limited only when the assertion says when
    it was issued, and the identifier is remembered for ten minutes. *)
Theorem assertion_accepted_twice :
  let '(r1, db1) := ca_assertion 0%Z ca_empty in
  let '(r2, db2) := ca_assertion 599999%Z db1 in
  let '(r3, _) := ca_assertion 600000%Z db2 in
  r1 = Ok tt /\ r2 = Err (invalid_client "client_assertion replayed") /\ r3 = Ok tt.
Proof. vm_compute. done. Qed.

Definition ca_none (_ : string) : option (list Z) := None.
Lemma ca_waits {now n db} : (now <= n)%Z ->
  requests (fun _ => Some ca_jwk) Some ascii_bytes str_of_bytes ca_none ca_none id (fun _ => None) now db n db.
Proof. intros Hle. eapply rq_other; [exact Hle|done|apply rq_none]. Qed.

Lemma proof_used_once_witness :
  (0 + 330000 <= 330500 < 0 + 331000)%Z
  /\ exists claims jwk, proof_claims (fun _ => Some ca_jwk) 0 "p" = Ok (claims, jwk)
       /\ claims !! "iat" ≫= value_i64 = Some (timestamp 0 + MAX_SKEW_SECS)%Z.
Proof.
  refine (proof_used_once (H0 := map_valkey_laws) (fun _ => Some ca_jwk) Some ascii_bytes str_of_bytes ca_none ca_none id (fun _ => None) 0 1 "p" "POST"
    ca_token_url None (mkProof ca_jkt) ca_empty 330500 _ "POST" ca_token_url None (mkProof ca_jkt) _ (ca_waits _) _).
  - vm_compute. reflexivity.
  - lia.
  - vm_compute. reflexivity.
Defined.
Lemma assertion_used_once_witness :
  exists jti exp, assertion_ok 0 ca_lookups ["https://id.example"] ca_client "a" jti exp
    /\ (0 + assertion_ttl 0 exp * 1000 <= 600000)%Z.
Proof.
  refine (assertion_used_once (H0 := map_valkey_laws) (fun _ => Some ca_jwk) Some ascii_bytes str_of_bytes ca_none ca_none id (fun _ => None) 0 ca_lookups 1
    "https://id.example" ["https://id.example"] ca_client "a" ca_empty (ca_assertion 0 ca_empty).2 600000 (ca_assertion 0 ca_empty).2 ca_lookups
    "https://id.example" ["https://id.example"] (ca_assertion 600000 (ca_assertion 0 ca_empty).2).2 _ (ca_waits _) _).
  - vm_compute. reflexivity.
  - lia.
  - vm_compute. reflexivity.
Defined.

Definition ca_bound : Map := {[ "cnf" := VObject [("jkt", VString ca_jkt)] ]}.
Lemma bound_token_needs_key_witness :
  exists v jti jwk pc iat, [Some " q"] = [Some v]
    /\ proof_ok (fun _ => Some ca_jwk) Some ascii_bytes str_of_bytes 1000 (trim_str v) "GET" ["https://api.example/"] (Some "at_1") jti jwk pc iat.
Proof.
  destruct (bound_token_needs_key (H0 := map_valkey_laws) (fun _ => Some ca_jwk) Some ascii_bytes str_of_bytes 1000 1 Dpop "at_1" ca_bound [Some " q"] "GET"
    ["https://api.example/"] None ca_empty
    (enforce_binding (fun _ => Some ca_jwk) Some ascii_bytes str_of_bytes 1000 1 Dpop "at_1" ca_bound [Some " q"] "GET" ["https://api.example/"] None
       ca_empty).2 ca_jkt) as (_ & v & jti & jwk & pc & iat & Hv & Hp & _).
  - vm_compute. reflexivity.
  - vm_compute. reflexivity.
  - exists v, jti, jwk, pc, iat. done.
Defined.

(** A client with a secret that is being rotated out. *)
Definition ca_secret_client : Registration :=
  mkRegistration (mkClient 4 "web" ClientSecretPost [] [] [] [] None None None Jwt Public None true false false NoProfile None) true Web
    [mkClientSecretHash "old" (Some 900%Z); mkClientSecretHash "new" None] false false false false.
Definition ca_secret_lookups : ClientLookups :=
  mkClientLookups (fun id => if String.eqb id "web" then Some ca_secret_client else None) (fun _ _ => Ok []) (fun _ => Ok tt) (fun _ => None) (fun _ => Ok tt)
    (fun _ => true).
Definition ca_login (secret : string) : result OAuthError (Registration * AuthMethod) * vdb :=
  authenticate ca_none ca_none id (fun _ => None) ascii_bytes str_of_bytes 1000 ca_secret_lookups 1 "https://id.example/token" "https://id.example" None None true
    [("client_id", "web"); ("client_secret", secret)] ca_empty.
Example old_secret_refused : (ca_login "old").1 = Err (invalid_client "invalid client credentials").
Proof. vm_compute. reflexivity. Qed.
Lemma authenticate_sound_witness :
  ClientSecretPost = cl_auth_method (rg_client ca_secret_client)
  /\ exists p body id, presented_of ca_none (fun s => s) [("client_id", "web"); ("client_secret", "new")] None = Ok (p, body)
     /\ claimed_id ca_none (fun _ => None) p body = Ok id /\ id = "web".
Proof.
  destruct (authenticate_sound (H0 := map_valkey_laws) ascii_bytes str_of_bytes ca_none ca_none (fun s => s) (fun _ => None) 1000 ca_secret_lookups 1
    "https://id.example/token" "https://id.example" None None true [("client_id", "web"); ("client_secret", "new")] ca_empty ca_secret_client ClientSecretPost
    (ca_login "new").2) as (Hm & _ & _ & _ & _ & p & body & name & Hp & Hn & _).
  - vm_compute. reflexivity.
  - split; [exact Hm|]. exists p, body, name. split; [exact Hp|]. split; [exact Hn|].
    injection Hp as <- <-. by injection Hn as <-.
Defined.
End example.
