(* ===== verification/Requests.v ===== *)
(** * Authorization requests

    How a request reaches the decision of [/authorize]: the parameters and
    their validation ([api/src/oidc/authorize.rs]), redirect URIs
    ([oidc/redirect_uri.rs]), request objects ([oidc/jar.rs]) and pushed
    requests ([oidc/par.rs]). Request objects are decoded by the class [Jwts];
    URLs and JSON are parameters. The client's keys are lookups whose failure
    ends the request; its text is not kept. *)

From stdpp Require Import gmap strings.
From S2P Require Import Prelude Effects Utf8 Valkey AppState Sessions RefreshTokens AuthCodes DeviceCodes KeyCustody Credentials Totp Mfa.
From S2P Require Import Models Claims SigningKeys AccessTokens Scopes TokenEndpoint ClientAuth.
From S2P Require Import ApiErrors Profile Users Server Otp Risk Passwords Access Flows Authorize.

Inductive Failure :=
| Page (code description : string)
| ToClientError (e : OAuthError)                  (* [Redirect] *)
| Internal (e : ApiError).
Definition page (d : string) : Failure := Page "invalid_request" d.
Definition invalid (d : string) : Failure := ToClientError (mkOAuthError InvalidRequest d).
Definition oauth (c : OAuthErrorCode) (d : string) : Failure := ToClientError (mkOAuthError c d).

(** ** Redirect URIs *)

(** What [Url::parse] says of a URL. *)
Record UrlParts := mkUrlParts { ul_scheme : string; ul_host : option string; ul_path : string; ul_query : option string; ul_fragment : option string }.
Definition is_loopback_host (host : option string) : bool :=
  match host with
  | Some h => existsb (String.eqb h) ["127.0.0.1"; "[::1]"; "::1"; "localhost"]%string
  | None => false
  end.

(** [u64::from_str]. *)
Definition parse_u64 (s : string) : option Z :=
  let digits := match ascii_bytes s with 43 :: l => l | l => l end in
  if bool_decide (digits = []) || negb (forallb (fun b => (48 <=? b) && (b <=? 57)) digits) then None
  else let n := foldl (fun acc b => acc * 10 + (b - 48)) 0 digits in if n <? 2 ^ 64 then Some n else None.
(** The first element a loop refuses ends it. *)
Definition none_or {A} (found : option A) (refuse : A -> Failure) : result Failure unit :=
  match found with Some a => Err (refuse a) | None => Ok tt end.
Definition quoted (before s : string) : string := (before ++ "`" ++ s ++ "`")%string.
(** [split(' ')] without empty parts. *)
Definition words (s : string) : list string := filter (fun w => w <> ""%string) (split_str 32 s).

Section requests.
Context `{Valkey} `{!Serde ()} `{UuidDisplay} `{Jwts} `{TextLib}.
Context (parse_url : string -> option UrlParts) (json_text : string -> option Value).

Definition redirect_matches (registered : list string) (requested : string) (client_type : ClientType) : bool :=
  existsb (fun r => String.eqb r requested) registered
  || (bool_decide (client_type = Native)
      && match parse_url requested with
         | None => false
         | Some req =>
             String.eqb (ul_scheme req) "http" && is_loopback_host (ul_host req)
             && existsb (fun r => match parse_url r with
                                  | Some reg => String.eqb (ul_scheme reg) "http" && is_loopback_host (ul_host reg)
                                                && bool_decide (ul_host reg = ul_host req) && String.eqb (ul_path reg) (ul_path req)
                                                && bool_decide (ul_query reg = ul_query req)
                                  | None => false
                                  end) registered
         end).

(** ** Request objects *)

Definition bad (d : string) : Failure := Page "invalid_request_object" d.
Definition object_key (lk : ClientLookups) (c : Registration) (header : Header) : result Failure Value :=
  let internal := map_err (fun e => Internal (InternalError (oe_description e))) in
  let? keys := internal (cx_keys lk (cl_id (rg_client c)) false) in
  let? jwk := match pick_key header keys with
              | Some k => Ok (Some k)
              | None => if rg_jwks_uri c
                        then let? keys := internal (cx_keys lk (cl_id (rg_client c)) true) in Ok (pick_key header keys)
                        else Ok None
              end in
  ok_or jwk (bad "no matching client key for the request object").
Definition object_validation (alg : Algorithm) (client_id issuer : string) : Validation :=
  mkValidation alg 30 true true (Some [client_id]) (Some [issuer]) ["iss"; "aud"; "exp"]%string.
(** The claims of a request object that is the client's. *)
Definition object_claims (now : Z) (lk : ClientLookups) (issuer : string) (c : Registration) (jwt : string) : result Failure Map :=
  if 16 * 1024 <? Z.of_nat (String.length jwt) then Err (bad "request object too large")
  else
    let? header := ok_or (decode_header jwt) (bad "malformed request object") in
    if is_hmac (h_alg header) then Err (bad "request objects must be signed with an asymmetric key")
    else if is_fapi2 (rg_client c) && negb (allows_jws (h_alg header))
    then Err (bad "the FAPI 2.0 profile allows PS256, ES256 or EdDSA request objects only")
    else
      let? jwk := object_key lk c header in
      let? decoding := ok_or (from_jwk jwk) (bad "invalid client key") in
      ok_or (jwt_decode (timestamp now) jwt decoding (object_validation (h_alg header) (cl_client_id (rg_client c)) issuer))
        (bad "request object rejected").
(** What is said outside and inside is the same. *)
Definition differs (params : RawParams) (obj : Map) (key : string) : bool :=
  match one params key, obj !! key ≫= as_str with
  | Ok (Some outside), Some inside => negb (String.eqb outside inside)
  | _, _ => false
  end.
Definition param_values (v : Value) : list string :=
  match v with
  | VString s => [s]
  | VNumber n => [print_value v]
  | VBool b => [if b then "true" else "false"]%string
  | VArray items => omap as_str items
  | VObject _ => [print_value v]
  | VNull => []
  end.
Definition claim_params (p : string * Value) : RawParams :=
  if existsb (String.eqb p.1) ["iss"; "aud"; "exp"; "iat"; "nbf"; "jti"]%string then []
  else (fun s => (p.1, s)) <$> param_values p.2.
Definition jar_merge (now : Z) (lk : ClientLookups) (issuer : string) (c : Registration) (params : RawParams) (jwt : string) : result Failure RawParams :=
  let? obj := object_claims now lk issuer c jwt in
  let? _ := none_or (List.find (differs params obj) ["client_id"; "response_type"]%string)
              (fun key => bad (key ++ " differs between the request and the request object")) in
  if negb (bool_decide (obj !! "client_id"%string ≫= as_str = Some (cl_client_id (rg_client c))))
  then Err (bad "request object client_id must equal the client_id")
  else if bool_decide (is_Some (obj !! "request"%string)) || bool_decide (is_Some (obj !! "request_uri"%string))
  then Err (bad "request objects cannot nest")
  else Ok (filter (fun p => p.1 <> "request"%string /\ obj !! p.1 = None) params ++ concat (claim_params <$> map_to_list obj)).

(** ** The parameters *)

Definition page_err {A} (r : result OAuthError A) : result Failure A := map_err (fun e => page (oe_description e)) r.
Definition resolve_client_and_merge (now : Z) (lk : ClientLookups) (issuer : string) (params : RawParams) : result Failure (Registration * RawParams) :=
  let? client_id := page_err (one params "client_id") in
  let? client_id := ok_or client_id (page "client_id is required") in
  let? c := ok_or (cx_find lk client_id) (Page "unauthorized_client" "unknown client") in
  if negb (rg_active c) then Err (Page "unauthorized_client" "client is disabled")
  else
    let? jwt := page_err (one params "request") in
    let? merged := match jwt with Some jwt => jar_merge now lk issuer c params jwt | None => Ok params end in
    Ok (c, merged).
Definition resolve_redirect (c : Registration) (params : RawParams) : result Failure (string * ResponseMode * option string) :=
  let? redirect := page_err (one params "redirect_uri") in
  let? redirect := ok_or redirect (page "redirect_uri is required") in
  if negb (redirect_matches (cl_redirect_uris (rg_client c)) redirect (rg_type c))
  then Err (page "redirect_uri is not registered for this client")
  else
    let? mode := page_err (one params "response_mode") in
    let? state := page_err (one params "state") in
    if match state with Some s => 1024 <? Z.of_nat (String.length s) | None => false end then Err (page "state is too long")
    else Ok (redirect, default RmQuery (mode ≫= mode_parse), state).

Definition inv {A} (r : result OAuthError A) : result Failure A := map_err ToClientError r.
Definition check_pkce (c : Registration) (challenge method : option string) : result Failure unit :=
  match challenge, method with
  | Some ch, Some m =>
      if String.eqb m "S256" then if is_valid_challenge ch then Ok tt else Err (invalid "code_challenge is malformed")
      else if String.eqb m "plain" then Err (invalid "code_challenge_method plain is not allowed; use S256")
      else Err (invalid (quoted "unsupported code_challenge_method " m))
  | Some _, None => Err (invalid "code_challenge_method S256 is required")
  | None, Some _ => Err (invalid "code_challenge is required with code_challenge_method")
  | None, None =>
      if rg_require_pkce c || is_public (rg_client c) || is_fapi2 (rg_client c) then Err (invalid "code_challenge is required (PKCE)") else Ok tt
  end.
Definition check_prompt (prompt : list string) : result Failure unit :=
  let? _ := none_or (List.find (fun p => negb (existsb (String.eqb p) ["none"; "login"; "consent"; "select_account"; "create"]%string)) prompt)
              (fun p => invalid (quoted "unsupported prompt value " p)) in
  if existsb (String.eqb "none") prompt && (1 <? zlen prompt) then Err (invalid "prompt=none cannot be combined with other values")
  else Ok tt.
Definition check_claims (is_oidc : bool) (raw_ : option string) : result Failure (option Value) :=
  match raw_ with
  | None => Ok None
  | Some raw_ =>
      if negb is_oidc then Err (invalid "claims requires the openid scope")
      else
        let? v := ok_or (json_text raw_) (invalid "claims must be a JSON object") in
        match v with
        | VObject m =>
            let? _ := none_or (List.find (fun p => negb (existsb (String.eqb p.1) ["userinfo"; "id_token"]%string)) m)
                        (fun p => invalid (quoted "claims: unknown member " p.1)) in
            Ok (Some v)
        | _ => Err (invalid "claims must be a JSON object")
        end
  end.
(** The loop over the [resource] parameters. *)
Fixpoint collect_resources (dir : Directory) (tenant : Uuid) (client : Client) (rs out : list string) : result Failure (list string) :=
  match rs with
  | [] => Ok out
  | r :: rs =>
      let r := trim_str r in
      if String.eqb r "" || match parse_url r with Some u => bool_decide (is_Some (ul_fragment u)) | None => true end
      then Err (oauth InvalidTarget (quoted "invalid resource " r))
      else if bool_decide (d_resource_server dir tenant r = None) then Err (oauth InvalidTarget (quoted "unknown resource " r))
      else if negb (bool_decide (cl_allowed_audiences client = [])) && negb (existsb (String.eqb r) (cl_allowed_audiences client))
      then Err (oauth InvalidTarget (quoted "resource " r ++ " is not allowed for this client")%string)
      else collect_resources dir tenant client rs (push_new out r)
  end.
(** What is asked before the scopes. *)
Definition check_kind (c : Registration) (params : RawParams) : result Failure unit :=
  let? request := inv (one params "request") in
  if bool_decide (is_Some request) then Err (oauth RequestNotSupported "")
  else
    let? request_uri := inv (one params "request_uri") in
    if bool_decide (is_Some request_uri) then Err (oauth RequestUriNotSupported "")
    else
      let? mode := inv (one params "response_mode") in
      let? _ := none_or (match mode with Some m => if bool_decide (mode_parse m = None) then Some m else None | None => None end)
                  (fun m => invalid (quoted "unsupported response_mode " m)) in
        let? response_type := inv (one params "response_type") in
        match response_type with
        | None => Err (invalid "response_type is required")
        | Some t =>
            if negb (String.eqb t "code") then Err (oauth UnsupportedResponseType "")
            else if negb (allows_grant (rg_client c) grants.AUTHORIZATION_CODE)
            then Err (oauth UnauthorizedClient "client may not use the authorization code grant") else Ok tt
        end.
Definition validate (dir : Directory) (tenant : Uuid) (c : Registration) (params : RawParams) (redirect : string) (mode : ResponseMode)
    (state : option string) : result Failure AuthRequest :=
  let? _ := check_kind c params in
  let? scope := inv (one params "scope") in
  let? checked := inv (validate_request dir tenant (rg_client c) (parse_scope_param (default ""%string scope)) [] true) in
  let is_oidc := existsb (String.eqb "openid") (rq_scopes checked) in
  let? challenge := inv (one params "code_challenge") in
  let? method := inv (one params "code_challenge_method") in
  let? _ := check_pkce c challenge method in
  let? nonce := inv (one params "nonce") in
  if match nonce with Some n => 512 <? Z.of_nat (String.length n) | None => false end then Err (invalid "nonce is too long")
  else
    let? prompt := inv (one params "prompt") in
    let prompt := words (default ""%string prompt) in
    let? _ := check_prompt prompt in
    let? max_age := inv (one params "max_age") in
    let? max_age := match max_age with
                    | Some v => let? n := ok_or (parse_u64 v) (invalid "max_age must be a non-negative integer") in Ok (Some n)
                    | None => Ok None
                    end in
    let? acr_values := inv (one params "acr_values") in
    let? ui_locales := inv (one params "ui_locales") in
    let? login_hint := inv (one params "login_hint") in
    let? organization := inv (one params "organization") in
    let? claims := inv (one params "claims") in
    let? claims := check_claims is_oidc claims in
    let? explicit := collect_resources dir tenant (rg_client c) (many params "resource") [] in
    let audiences := with_bound_audiences explicit (cl_allowed_audiences (rg_client c)) (rq_bound_audiences checked) in
    Ok (mkAuthRequest (cl_id (rg_client c)) (cl_client_id (rg_client c)) redirect mode (rq_scopes checked) audiences state nonce challenge prompt max_age
          (words (default ""%string acr_values)) login_hint (words (default ""%string ui_locales)) (print_value <$> claims)
          (negb (rg_require_consent c)) None organization None).

(** ** Pushed requests *)

Definition URN_PREFIX : string := "urn:ietf:params:oauth:request_uri:".
Definition PAR_TTL_SECS : Z := 60.
(** [Stored]. *)
Record PushedRequest := mkPushedRequest { pu_client_id : Uuid; pu_request : AuthRequest }.
Definition par_request (tenant : Uuid) (id : string) : string := (PREFIX ++ ":t:" ++ uuid_str tenant ++ ":par:" ++ id)%string.
Definition failure_oauth (f : Failure) : OAuthError :=
  match f with Page _ d => mkOAuthError InvalidRequest d | ToClientError e => e | Internal _ => mkOAuthError ServerError "" end.
(** [jar::as_oauth]. *)
Definition as_oauth (f : Failure) : OAuthError :=
  match f with Page _ d => mkOAuthError InvalidRequestObject d | ToClientError e => e | Internal _ => mkOAuthError ServerError "" end.

Context `{!Serde PushedRequest}.
Context (b64_std b64_url : string -> option (list Z)) (form_value : string -> string) (json : list Z -> option Value)
  (sha : list Z -> list Z) (b64 : list Z -> string).
#[local] Abbreviation sha256 := (fun s => sha (ascii_bytes s)).

(** [POST /par]; [bytes]: drawn for the [request_uri]. *)
Definition par (now : Z) (bytes : list Z) (dir : Directory) (lk : ClientLookups) (tenant : Uuid) (token_endpoint issuer : string) (alias : option string)
    (authorization : option (option string)) (browser : bool) (params : RawParams) : M vdb OAuthError string :=
  let! client := authenticate b64_std b64_url form_value json sha256 b64 now lk tenant token_endpoint issuer alias authorization browser params in
  let '(c, _) := client in
  do! guard (match one params "request_uri" with Ok (Some _) => true | _ => false end)
        (mkOAuthError InvalidRequest "request_uri is not allowed in a pushed request") in
  let! jwt := lift (one params "request") in
  let! merged := lift (match jwt with Some jwt => map_err as_oauth (jar_merge now lk issuer c params jwt) | None => Ok params end) in
  let! to := lift (map_err failure_oauth (resolve_redirect c merged)) in
  let '(redirect, mode, state) := to in
  let! request := lift (map_err failure_oauth (validate dir tenant c merged redirect mode state)) in
  let id := b64 bytes in
  do! modify (vset_px now (par_request tenant id) (to_json (mkPushedRequest (cl_id (rg_client c)) request)) (PAR_TTL_SECS * 1000)) in
  ret (URN_PREFIX ++ id)%string.

(** [take]; the id a [request_uri] stands for. *)
Definition pushed_id (request_uri : string) : string :=
  let n := String.length URN_PREFIX in
  if String.prefix URN_PREFIX request_uri then String.substring n (String.length request_uri - n) request_uri else ""%string.
Definition take_pushed (now : Z) (lk : ClientLookups) (tenant : Uuid) (params : RawParams) (request_uri : string)
    : M vdb Failure (Registration * AuthRequest) :=
  let! client_id := lift (page_err (one params "client_id")) in
  let! client_id := lift (ok_or client_id (page "client_id is required")) in
  let id := pushed_id request_uri in
  do! guard (String.eqb id "" || (64 <? Z.of_nat (String.length id))) (page "invalid request_uri") in
  let! raw_ := (fun db => let '(r, db) := vgetdel now (par_request tenant id) db in (Ok r, db)) in
  let! stored := lift (ok_or (raw_ ≫= from_json) (oauth InvalidRequestUri "request_uri is unknown, expired, or already used")) in
  let! c := lift (match cx_find lk client_id with
                  | Some c => if cl_id (rg_client c) =? pu_client_id stored then Ok c else Err (page "client_id does not match the pushed request")
                  | None => Err (page "client_id does not match the pushed request")
                  end) in
  do! guard (negb (rg_active c)) (Page "unauthorized_client" "client is disabled") in
  ret (c, pu_request stored).

(** ** [/authorize], up to the decision *)

(** What the browser gets when the request is not decided on: a page, an error
    for the client, or the error of the server. *)
Inductive Refused :=
| RPage (code description : string)
| RBack (redirect : string) (mode : ResponseMode) (e : OAuthError) (state : option string)
| RInternal (e : ApiError).
(** [OAuthErrorCode::as_str]. *)
Definition oauth_code_str (c : OAuthErrorCode) : string :=
  match c with
  | InvalidRequest => "invalid_request" | InvalidClient => "invalid_client" | InvalidGrant => "invalid_grant"
  | UnauthorizedClient => "unauthorized_client" | UnsupportedGrantType => "unsupported_grant_type" | InvalidScope => "invalid_scope"
  | AccessDenied => "access_denied" | UnsupportedResponseType => "unsupported_response_type" | ServerError => "server_error"
  | TemporarilyUnavailable => "temporarily_unavailable" | InvalidToken => "invalid_token" | InsufficientScope => "insufficient_scope"
  | InteractionRequired => "interaction_required" | LoginRequired => "login_required" | ConsentRequired => "consent_required"
  | AccountSelectionRequired => "account_selection_required" | InvalidRequestUri => "invalid_request_uri"
  | InvalidRequestObject => "invalid_request_object" | RequestNotSupported => "request_not_supported"
  | RequestUriNotSupported => "request_uri_not_supported" | RegistrationNotSupported => "registration_not_supported"
  | AuthorizationPending => "authorization_pending" | SlowDown => "slow_down" | ExpiredToken => "expired_token"
  | InvalidRedirectUri => "invalid_redirect_uri" | InvalidClientMetadata => "invalid_client_metadata"
  | InvalidDpopProof => "invalid_dpop_proof" | UseDpopNonce => "use_dpop_nonce" | InvalidTarget => "invalid_target"
  | UnknownUserId => "unknown_user_id" | InvalidBindingMessage => "invalid_binding_message"
  end%string.
(** Before the redirect URI is known, errors are shown. *)
Definition shown (f : Failure) : Refused :=
  match f with Page c d => RPage c d | Internal e => RInternal e | ToClientError e => RPage (oauth_code_str (oe_code e)) (oe_description e) end.
Definition direct_request (now : Z) (dir : Directory) (lk : ClientLookups) (tenant : Uuid) (issuer : string) (params : RawParams)
    : result Refused (Registration * AuthRequest) :=
  match resolve_client_and_merge now lk issuer params with
  | Err f => Err (shown f)
  | Ok (c, merged) =>
      match resolve_redirect c merged with
      | Err f => Err (shown f)
      | Ok (redirect, mode, state) =>
          if requires_par c then Err (RBack redirect mode (mkOAuthError InvalidRequest "this client must use pushed authorization requests") state)
          else
            match validate dir tenant c merged redirect mode state with
            | Ok r => Ok (c, r)
            | Err (ToClientError e) => Err (RBack redirect mode e state)
            | Err (Page code d) => Err (RPage code d)
            | Err (Internal _) => Err (RBack redirect mode (mkOAuthError ServerError "") state)
            end
      end
  end.
Definition request_of (now : Z) (dir : Directory) (lk : ClientLookups) (tenant : Uuid) (issuer : string) (params : RawParams)
    : M vdb Refused (Registration * AuthRequest) := fun db =>
  match one params "request_uri" with
  | Ok (Some uri) =>
      if String.prefix URN_PREFIX uri then let '(r, db) := take_pushed now lk tenant params uri db in (map_err shown r, db)
      else (direct_request now dir lk tenant issuer params, db)
  | _ => (direct_request now dir lk tenant issuer params, db)
  end.

(** ** [/authorize] *)

Context `{Counters} `{KeyEncryptor} `{Geo} `{!Serde SsoSession} `{!Serde LoginFlow} `{!Serde DeviceRecord} `{!Serde AuthCode}.
Context (issuer_of : Uuid -> string).

(** [finish_decision] on what [decide] answers. *)
Definition authorize (now : Z) (id tenant : Uuid) (csrf bytes : list Z) (acting : SsoSession -> result ApiError (option Acting)) (dir : Directory)
    (lk : ClientLookups) (acc : Access) (s : Settings) (params : RawParams) (cookie : option Uuid) (device ip : option string) (location : option Location)
    : M Server Refused Authorized := fun st =>
  let '(r, db) := request_of now dir lk tenant (issuer_of tenant) params (sv_redis st) in
  let st := sv_with_redis st db in
  match r with
  | Err e => (Err e, st)
  | Ok (c, request) =>
      match cx_ip_rules lk (cl_id (rg_client c)) with
      | Err e => (Err (RPage "access_denied" (oe_description e)), st)
      | Ok _ =>
          let back e := RBack (aq_redirect_uri request) (aq_response_mode request) e (aq_state request) in
          match decide sha b64 issuer_of now id tenant csrf bytes acting acc s (rg_client c) request cookie device ip location st with
          | (Ok (ToError code), st) => (Err (back (mkOAuthError code "")), st)
          | (Ok a, st) => (Ok a, st)
          | (Err _, st) => (Err (back (mkOAuthError ServerError "")), st)
          end
      end
  end.
End requests.

(** ** What a validated request says *)

(** Takes an equation of a chain of [let?] and guards that ends well apart. *)
Ltac ok_steps :=
  repeat match goal with
  | H : match ?x with Ok _ => _ | Err _ => _ end = Ok _ |- _ => let E := fresh "E" in destruct x eqn:E; [|discriminate H]
  | H : match ?x with Some _ => _ | None => Err _ end = Ok _ |- _ => let E := fresh "E" in destruct x eqn:E; [|discriminate H]
  | H : (if ?b then Err _ else _) = Ok _ |- _ => let E := fresh "E" in destruct b eqn:E; [discriminate H|]
  end.

Section validated.
Context `{UuidDisplay} `{TextLib}.
Context (parse_url : string -> option UrlParts) (json_text : string -> option Value).

(** A redirect URI is one the client registered; a native client's may be on
    another port of the same loopback address. *)
Definition redirect_registered (c : Registration) (uri : string) : Prop :=
  uri ∈ cl_redirect_uris (rg_client c)
  \/ (rg_type c = Native /\ exists r reg req, r ∈ cl_redirect_uris (rg_client c) /\ parse_url r = Some reg /\ parse_url uri = Some req
      /\ ul_scheme req = "http"%string /\ ul_scheme reg = "http"%string /\ is_loopback_host (ul_host req) = true /\ ul_host reg = ul_host req
      /\ ul_path reg = ul_path req /\ ul_query reg = ul_query req).
Lemma redirect_matches_ok c uri : redirect_matches parse_url (cl_redirect_uris (rg_client c)) uri (rg_type c) = true -> redirect_registered c uri.
Proof.
  unfold redirect_matches. intros [Hx|Hx]%orb_prop.
  - left. apply existsb_exists in Hx as (r & Hr%list_elem_of_In & E%String.eqb_eq). by subst.
  - right. bool_hyps. destruct (parse_url uri) as [req|]; [|done]. bool_hyps. split; [done|].
    match goal with Hx : existsb _ _ = true |- _ => apply existsb_exists in Hx as (r & Hr%list_elem_of_In & Hm) end.
    destruct (parse_url r) as [reg|] eqn:Er; [|done]. bool_hyps. exists r, reg, req.
    repeat match goal with Hx : String.eqb _ _ = true |- _ => apply String.eqb_eq in Hx end. done.
Qed.

(** The client is to prove that it started the request. *)
Definition needs_pkce (c : Registration) : bool := rg_require_pkce c || is_public (rg_client c) || is_fapi2 (rg_client c).
Record request_ok (dir : Directory) (t : Uuid) (c : Registration) (r : AuthRequest) : Prop := mkRequestOk {
  ok_client : aq_client_id r = cl_id (rg_client c) /\ aq_client_public_id r = cl_client_id (rg_client c);
  ok_redirect : redirect_registered c (aq_redirect_uri r);
  ok_grant : allows_grant (rg_client c) grants.AUTHORIZATION_CODE = true;
  ok_pkce : needs_pkce c = true -> is_Some (aq_code_challenge r);
  ok_challenge ch : aq_code_challenge r = Some ch -> is_valid_challenge ch = true;
  ok_scopes : aq_scopes r <> [] /\ (forall n, n ∈ aq_scopes r -> n ∈ cl_allowed_scopes (rg_client c) /\ exists s, s ∈ d_scopes dir t /\ sc_name s = n);
  ok_audiences a : a ∈ aq_audiences r ->
    a ∈ cl_allowed_audiences (rg_client c)
    \/ (cl_allowed_audiences (rg_client c) = [] /\ is_Some (d_resource_server dir t a))
    \/ (exists id rs, d_resource_server_by_id dir t id = Some rs /\ Models.rs_identifier rs = a
        /\ may_target (rg_client c) a (Models.rs_built_in rs) = true);
  ok_prompt : existsb (String.eqb "none") (aq_prompt r) = true -> zlen (aq_prompt r) <= 1;
  ok_plain : aq_device_code r = None /\ aq_saml r = None;
  ok_consent : aq_skip_consent r = negb (rg_require_consent c)
}.

Lemma check_pkce_ok c ch m : check_pkce c ch m = Ok tt ->
  (needs_pkce c = true -> is_Some ch) /\ forall x, ch = Some x -> is_valid_challenge x = true.
Proof.
  unfold check_pkce, needs_pkce. destruct ch as [ch|], m as [m|]; try done.
  - destruct (String.eqb m "S256"); [|by destruct (String.eqb m "plain")]. destruct (is_valid_challenge ch) eqn:E; [|done]. intros _.
    split; [by eexists|]. by intros x [= <-].
  - destruct (_ || _ || _); [done|]. by intros _.
Qed.
Lemma check_prompt_ok p : check_prompt p = Ok tt -> existsb (String.eqb "none") p = true -> zlen p <= 1.
Proof. unfold check_prompt. destruct (none_or _ _); [|done]. destruct (existsb _ p); [|done]. cbn. destruct (Z.ltb_spec 1 (zlen p)); [done|lia]. Qed.
Lemma collect_resources_ok dir t client rs out out' a :
  collect_resources parse_url dir t client rs out = Ok out' -> a ∈ out' ->
  a ∈ out \/ (is_Some (d_resource_server dir t a) /\ (cl_allowed_audiences client = [] \/ a ∈ cl_allowed_audiences client)).
Proof.
  revert out. induction rs as [|r rs IH]; intros out; cbn [collect_resources]; [intros [= ->]; by left|].
  destruct (_ || _); [done|]. case_bool_decide as Hd; [done|]. destruct (_ && _) eqn:Ea; [done|]. intros Hc Ha.
  destruct (IH _ Hc Ha) as [Hin|?]; [|by right]. unfold push_new in Hin. destruct (bool_decide (trim_str r ∈ out)); [by left|].
  apply elem_of_app in Hin as [?|E%list_elem_of_singleton]; [by left|]. subst a. right. split; [by destruct (d_resource_server _ _ _); [eexists|]|].
  apply andb_false_iff in Ea as [Ea|Ea]; apply negb_false_iff in Ea; [by left; apply bool_decide_eq_true in Ea|].
  right. apply existsb_exists in Ea as (x & Hx%list_elem_of_In & E%String.eqb_eq). by rewrite E.
Qed.
Lemma bound_audiences_sound dir t client known out out' a : bound_audiences dir t client known out = Ok out' -> a ∈ out' ->
  a ∈ out \/ exists id rs, d_resource_server_by_id dir t id = Some rs /\ Models.rs_identifier rs = a
    /\ may_target client a (Models.rs_built_in rs) = true.
Proof.
  revert out. induction known as [|k known IH]; intros out; cbn [bound_audiences]; [intros [= ->]; by left|].
  destruct (sc_resource_server_id k) as [rs_id|]; [|by apply IH]. destruct (d_resource_server_by_id _ _ _) as [rs|] eqn:Ers; cbn [ok_or]; [|done].
  destruct (may_target client _ _) eqn:Em; cbn [negb]; [|done]. intros Hb Ha. destruct (IH _ Hb Ha) as [Hin|?]; [|by right].
  unfold push_new in Hin. case_bool_decide; [by left|]. apply elem_of_app in Hin as [?|E%list_elem_of_singleton]; [by left|]. subst a. right. by exists rs_id, rs.
Qed.
Lemma validate_request_bound dir t client requested excluded required r a :
  validate_request dir t client requested excluded required = Ok r -> a ∈ rq_bound_audiences r ->
  exists id rs, d_resource_server_by_id dir t id = Some rs /\ Models.rs_identifier rs = a
    /\ may_target client a (Models.rs_built_in rs) = true.
Proof.
  unfold validate_request. destruct (_ && _); [done|]. destruct (resolve _ _) as [known unknown]. destruct (bool_decide _); [done|].
  destruct (bool_decide _); [done|]. destruct (bound_audiences _ _ _ _ _) as [bound|] eqn:Eb; [|done]. intros [= <-] Ha.
  destruct (bound_audiences_sound _ _ _ _ _ _ _ Eb Ha) as [Hn|Hn]; [by apply not_elem_of_nil in Hn|done].
Qed.
Lemma with_bound_audiences_elem explicit client_default bound a :
  a ∈ with_bound_audiences explicit client_default bound -> a ∈ explicit \/ a ∈ client_default \/ a ∈ bound.
Proof.
  unfold with_bound_audiences. case_bool_decide; [by left|]. intros [Hd|Hd]%foldl_push_new_elem; [|by right; right].
  case_bool_decide; [by right; left|by left].
Qed.

Lemma check_kind_ok c params : check_kind c params = Ok tt -> allows_grant (rg_client c) grants.AUTHORIZATION_CODE = true.
Proof.
  unfold check_kind. intros Hk. ok_steps. by match goal with Hg : negb (allows_grant _ _) = false |- _ => apply negb_false_iff in Hg end.
Qed.
Lemma inv_ok {A} (r : result OAuthError A) a : inv r = Ok a -> r = Ok a.
Proof. by destruct r; intros [= ->]. Qed.
Lemma validated_ok dir t c params redirect mode state r :
  validate parse_url json_text dir t c params redirect mode state = Ok r -> redirect_registered c redirect -> request_ok dir t c r.
Proof.
  unfold validate. intros Hv Hr. ok_steps. injection Hv as <-.
  repeat match goal with Hx : Ok _ = Ok _ |- _ => clear Hx | u : unit |- _ => destruct u end.
  match goal with Hx : check_pkce _ _ _ = _ |- _ => apply check_pkce_ok in Hx as [Hp1 Hp2] end.
  match goal with Hx : inv (validate_request _ _ _ _ _ _) = Ok ?a |- _ => apply inv_ok in Hx; rename Hx into Hs, a into checked end.
  match goal with Hx : collect_resources _ _ _ _ _ _ = Ok ?a |- _ => rename Hx into Hc, a into explicit end.
  split; cbn [aq_client_id aq_redirect_uri aq_code_challenge aq_scopes aq_audiences aq_prompt aq_device_code aq_saml aq_skip_consent]; try done.
  - by eapply check_kind_ok.
  - destruct (validate_request_sound _ _ _ _ _ _ _ Hs) as [Hne Hall]. split; [by apply Hne|]. intros n Hn.
    destruct (Hall n Hn) as (s & Hs1 & Hs2 & Hs3 & _). split; [done|]. by exists s.
  - intros a [Ha|[Ha|Ha]]%with_bound_audiences_elem; [|by left|by right; right; eapply validate_request_bound].
    destruct (collect_resources_ok _ _ _ _ _ _ _ Hc Ha) as [Hn|[Hk [He|Hin]]]; [by apply not_elem_of_nil in Hn|by right; left|by left].
  - by apply check_prompt_ok.
Qed.
Lemma resolve_redirect_ok c params uri mode state : resolve_redirect parse_url c params = Ok (uri, mode, state) -> redirect_registered c uri.
Proof. unfold resolve_redirect. intros Hr. ok_steps. injection Hr as <- <- <-. apply redirect_matches_ok. by apply negb_false_iff. Qed.
End validated.

(** ** Pushed requests and codes *)

Section pushed.
Context `{ValkeyLaws} `{!Serde ()} `{UuidDisplay} `{Jwts} `{TextLib} `{!Serde PushedRequest}.
Context (parse_url : string -> option UrlParts) (json_text : string -> option Value).
Context (b64_std b64_url : string -> option (list Z)) (form_value : string -> string) (json : list Z -> option Value)
  (sha : list Z -> list Z) (b64 : list Z -> string).
#[local] Abbreviation par := (par parse_url json_text b64_std b64_url form_value json sha b64).
#[local] Abbreviation authenticate := (authenticate b64_std b64_url form_value json (fun s => sha (ascii_bytes s)) b64).
#[local] Abbreviation request_ok := (request_ok parse_url).
#[local] Abbreviation request_of := (request_of parse_url json_text).

Lemma map_err_ok {E E' A} (f : E -> E') (r : result E A) a : map_err f r = Ok a -> r = Ok a.
Proof. by destruct r; intros [= ->]. Qed.
Lemma par_request_inj t id t' id' : par_request t id = par_request t' id' -> t = t' /\ id = id'.
Proof. unfold par_request. intros E. key_inv. done. Qed.
Lemma par_assertion_ne t id t' c jti : client_assertion_jti t' c jti <> par_request t id.
Proof. unfold par_request, client_assertion_jti. intros E. key_inv. Qed.

Lemma par_foreign t id : foreign (par_request t id).
Proof. split; intros ? ?; unfold par_request; intros E; key_inv. Qed.

(** What the database holds at a time: the directory, and the clients of each
    tenant. *)
Context (registry : Z -> Directory * (Uuid -> ClientLookups)).
Abbreviation dir_at n := (registry n).1.
Abbreviation clients_at n t := ((registry n).2 t).

(** The request passed all checks at some time [n], for the client that was
    registered then and with the directory of that time. *)
Definition checked_at (n : Z) (t : Uuid) (c : Registration) (r : AuthRequest) : Prop :=
  rg_active c = true /\ (exists name, cx_find (clients_at n t) name = Some c) /\ request_ok (dir_at n) t c r.

(** Every pushed request that can be taken from [now] on was validated when it
    was pushed, less than a minute before, for the client that pushed it. *)
Definition pushed_ok (now : Z) (db : vdb) : Prop := forall n t id p, now <= n -> load_json n (par_request t id) db = Some p ->
  exists n0 c, n - PAR_TTL_SECS * 1000 < n0 <= n /\ cl_id (rg_client c) = pu_client_id p /\ checked_at n0 t c (pu_request p).
Lemma pushed_ok_same now now' db db' : now <= now' ->
  (forall n t id, vget n (par_request t id) db' = vget n (par_request t id) db \/ vget n (par_request t id) db' = None) ->
  pushed_ok now db -> pushed_ok now' db'.
Proof.
  intros Hle Hsame Hp n t id p Hn. unfold load_json. destruct (Hsame n t id) as [->| ->]; [|done]. apply (Hp n t id p). lia.
Qed.
Lemma authenticate_par now lk t endpoint iss alias authorization browser params db n t' id :
  vget n (par_request t' id) (authenticate now lk t endpoint iss alias authorization browser params db).2 = vget n (par_request t' id) db.
Proof.
  eapply nx_only_other; [apply authenticate_nx|]. intros (t1 & c & jti & E). by apply (par_assertion_ne t' id t1 c jti).
Qed.

Lemma authenticate_client now lk t endpoint iss alias authorization browser params db c m db' :
  authenticate now lk t endpoint iss alias authorization browser params db = (Ok (c, m), db') ->
  rg_active c = true /\ exists name, cx_find lk name = Some c.
Proof.
  unfold ClientAuth.authenticate. intros Ha. apply bind_ok in Ha as ([p body] & st1 & [_ ->]%lift_ok & Ha).
  apply bind_ok in Ha as (id & st1 & [_ ->]%lift_ok & Ha). apply bind_ok in Ha as (c0 & st1 & [Hf%ok_or_ok ->]%lift_ok & Ha).
  apply bind_ok in Ha as ([] & st1 & [Hact%negb_false_iff ->]%guard_ok & Ha). inv_run. eauto.
Qed.

(** A push that is not answered with a [request_uri] stores nothing; one that is
    stores the request it validated. *)
Lemma par_stores now bytes dir lk t endpoint iss alias authorization browser params db r db' :
  par now bytes dir lk t endpoint iss alias authorization browser params db = (r, db') ->
  (forall n t' id, vget n (par_request t' id) db' = vget n (par_request t' id) db)
  \/ exists c request db1, (rg_active c = true /\ (exists name, cx_find lk name = Some c) /\ request_ok dir t c request)
     /\ (forall n t' id, vget n (par_request t' id) db1 = vget n (par_request t' id) db)
     /\ db' = vset_px now (par_request t (b64 bytes)) (to_json (mkPushedRequest (cl_id (rg_client c)) request)) (PAR_TTL_SECS * 1000) db1.
Proof.
  unfold Requests.par. unfold bind at 1. pose proof (authenticate_par now lk t endpoint iss alias authorization browser params db) as Ha.
  destruct (ClientAuth.authenticate _ _ _ _ _ _ _ _ _ _ _ _ _ _ _ db) as [[[c m]|e] db1] eqn:Eauth; cbn [snd] in Ha; [|by intros [= <- <-]; left].
  set (uri := match one params "request_uri" with Ok (Some _) => true | _ => false end).
  unfold guard, bind, lift, throw, ret, modify. intros Hr. destruct uri; [injection Hr as <- <-; by left|].
  repeat (match type of Hr with context [match ?x with _ => _ end] => destruct x eqn:? end; cbn in Hr; try (injection Hr as <- <-; by left)).
  injection Hr as <- <-. right. eexists c, _, db1. split; [|done].
  apply authenticate_client in Eauth as [Hact Hfind]. do 2 (split; [done|]). eapply validated_ok; [by eapply map_err_ok|].
  by eapply resolve_redirect_ok, map_err_ok.
Qed.
Lemma take_pushed_inv now lk t params uri db c r db' : take_pushed now lk t params uri db = (Ok (c, r), db') ->
  exists p, load_json now (par_request t (pushed_id uri)) db = Some p /\ db' = vdel now (par_request t (pushed_id uri)) db /\ r = pu_request p
    /\ cl_id (rg_client c) = pu_client_id p /\ rg_active c = true
    /\ (exists name, one params "client_id" = Ok (Some name) /\ cx_find lk name = Some c).
Proof.
  unfold take_pushed. intros Ht. apply bind_ok in Ht as (o & s1 & [Ho ->]%lift_ok & Ht).
  apply bind_ok in Ht as (name & s2 & [Hname%ok_or_ok ->]%lift_ok & Ht).
  apply bind_ok in Ht as ([] & s3 & [_ ->]%guard_ok & Ht). apply bind_ok in Ht as (raw_ & s4 & [= <- <-] & Ht).
  apply bind_ok in Ht as (p & s5 & [Hp%ok_or_ok ->]%lift_ok & Ht). apply bind_ok in Ht as (c' & s6 & [Hc ->]%lift_ok & Ht).
  apply bind_ok in Ht as ([] & s7 & [Ha%negb_false_iff ->]%guard_ok & Ht). injection Ht as -> <- <-.
  destruct (cx_find lk name) as [c1|] eqn:Ef; [|done]. destruct (Z.eqb_spec (cl_id (rg_client c1)) (pu_client_id p)) as [E|]; [|done]. injection Hc as ->.
  exists p. unfold load_json. destruct (vget now _ db) as [x|]; [|done]. cbn in Hp. split; [done|]. do 4 (split; [done|]). exists name. split; [|done].
  unfold page_err in Ho. destruct (one params "client_id"); [|done]. by injection Ho as ->; subst.
Qed.
(** Whatever the answer, taking a request deletes at most that one. *)
Lemma take_pushed_db now lk t params uri db : let db' := (take_pushed now lk t params uri db).2 in
  db' = db \/ db' = vdel now (par_request t (pushed_id uri)) db.
Proof.
  unfold take_pushed, bind, lift. destruct (page_err (one params "client_id")) as [o|]; [|by left]. destruct (ok_or o _) as [name|]; [|by left].
  unfold guard. destruct (_ || _); [by left|]. right. cbn. destruct (ok_or _ _) as [p|]; [|done].
  destruct (cx_find lk name) as [c|]; [|done]. destruct (_ =? _); [|done]. by destruct (negb _).
Qed.
Lemma take_gone now lk t params uri db x db' : (forall n, vget n (par_request t (pushed_id uri)) db = None) ->
  take_pushed now lk t params uri db = (Ok x, db') -> False.
Proof. destruct x as [c r]. intros Hn (p & Hp & _)%take_pushed_inv. unfold load_json in Hp. by rewrite Hn in Hp. Qed.

(** The store of a deployment that began without pushed requests, after requests
    to [/par] and [/authorize], of any client and tenant, at increasing times
    and with the registrations of these times, and whatever else that leaves
    the pushed requests alone. *)
Inductive served : Z -> vdb -> Prop :=
| sv_start now db : (forall n t id, vget n (par_request t id) db = None) -> served now db
| sv_push now db n bytes t endpoint iss alias authorization browser params :
    served now db -> now <= n ->
    served n (par n bytes (dir_at n) (clients_at n t) t endpoint iss alias authorization browser params db).2
| sv_take now db n lk t params uri : served now db -> now <= n -> served n (take_pushed n lk t params uri db).2
| sv_other now db n db' : served now db -> now <= n -> (forall k t id, vget k (par_request t id) db' = vget k (par_request t id) db) -> served n db'.

Lemma served_ok now db : served now db -> pushed_ok now db.
Proof.
  induction 1 as [now db Hn|now db n bytes t endpoint iss alias authorization browser params _ IH Hle|now db n lk t params uri _ IH Hle
    |now db n db' _ IH Hle Hs].
  - intros n t id p _. unfold load_json. by rewrite Hn.
  - destruct (par n bytes _ _ t endpoint iss alias authorization browser params db) as [r db'] eqn:E.
    apply par_stores in E as [Hs|(c & request & db1 & Hr & Hs & ->)]; [eapply pushed_ok_same; [exact Hle|intros; left; apply Hs|done]|].
    intros m t' id p Hm Hl. cbn [snd] in Hl. destruct (base.decide (par_request t (b64 bytes) = par_request t' id)) as [[Et Ei]%par_request_inj|Hne]; [subst t' id|].
    + rewrite load_json_set in Hl by done. destruct (Z.ltb_spec m (n + PAR_TTL_SECS * 1000)); [|done]. injection Hl as <-.
      exists n, c. cbn. split; [lia|]. by split.
    + unfold load_json in Hl. rewrite vget_set_ne, Hs in Hl by done. apply (IH m t' id p); [lia|done].
  - eapply pushed_ok_same; [exact Hle| |done]. intros m t' id. destruct (take_pushed_db n lk t params uri db) as [->| ->]; [by left|].
    destruct (base.decide (par_request t (pushed_id uri) = par_request t' id)) as [<-|Hne]; [right; apply vget_del|left; by apply vget_del_ne].
  - eapply pushed_ok_same; [exact Hle|intros; left; apply Hs|done].
Qed.

(** C35: A pushed authorization request is what it was when it was pushed, and is
    used once: whatever was pushed and taken before, by any client, a
    [request_uri] is taken only by naming the active client that pushed it,
    less than a minute after; what it stands for passed all checks when it was
    pushed, for that client as it was registered then and with the directory
    of that time; and no later request can take it again, whoever makes it. *)
Theorem pushed_request_sound now db n t params uri c r db' :
  served now db -> now <= n -> take_pushed n (clients_at n t) t params uri db = (Ok (c, r), db') ->
  rg_active c = true /\ (exists name, one params "client_id" = Ok (Some name) /\ cx_find (clients_at n t) name = Some c)
  /\ (exists n0 c0, n - PAR_TTL_SECS * 1000 < n0 <= n /\ cl_id (rg_client c0) = cl_id (rg_client c) /\ checked_at n0 t c0 r)
  /\ forall n' lk' params' x db'', take_pushed n' lk' t params' uri db' <> (Ok x, db'').
Proof.
  intros Hs%served_ok Hle (p & Hp & -> & -> & Hc & Ha & Hf)%take_pushed_inv. split; [done|]. split; [done|]. split.
  - destruct (Hs n t _ p Hle Hp) as (n0 & c0 & Hn0 & Hc0 & Hr). exists n0, c0. by rewrite Hc.
  - intros n' lk' params' x db'' Ht. eapply take_gone; [|exact Ht]. intros. apply vget_del.
Qed.

Context `{Counters} `{KeyEncryptor} `{Geo} `{!Serde SsoSession} `{!Serde LoginFlow} `{!Serde DeviceRecord} `{!Serde AuthCode}.
Context (issuer_of : Uuid -> string).

(** A code stands for the request it is the answer to. *)
Definition code_of (client : Client) (r : AuthRequest) (a : Authorized) : Prop :=
  match a with
  | WithCode _ g _ => c_client_id g = cl_id client /\ c_redirect_uri g = aq_redirect_uri r /\ c_scopes g = aq_scopes r
                      /\ c_audiences g = aq_audiences r /\ c_code_challenge g = aq_code_challenge r /\ c_nonce g = aq_nonce r
  | _ => True
  end.
Lemma issue_code_of now bytes acting t client r ses : returns (code_of client r) (issue_authorization sha b64 issuer_of now bytes acting t client r ses).
Proof.
  intros st a st' Hi. destruct a as [|c|code g params|u|]; try done. by apply issue_grant in Hi as (_ & _ & (act & _ & ->)).
Qed.
Lemma open_code_of client r now csrf f p : returns (code_of client r) (open_flow b64 now csrf f p).
Proof. apply returns_seq. intros f'. by apply returns_ret. Qed.
Lemma decide_code_of now id t csrf bytes acting acc s client r cookie device ip location :
  returns (code_of client r) (Authorize.decide sha b64 issuer_of now id t csrf bytes acting acc s client r cookie device ip location).
Proof.
  unfold Authorize.decide. apply returns_seq. intros session. apply returns_seq. intros owed. destruct (bool_decide _); [by apply returns_ret|].
  destruct (_ || bool_decide _). { destruct (prompts r "none"); [by apply returns_ret|apply open_code_of]. }
  destruct session as [ses|]; [|apply returns_throw].
  assert (returns (code_of client r) (decide_session sha b64 issuer_of now id t csrf bytes acting client r ses)) as Hd.
  { unfold decide_session. apply returns_seq. intros pending. destruct (bool_decide _); [apply issue_code_of|].
    destruct (prompts r "none"); [by apply returns_ret|]. destruct (bool_decide _); [by apply returns_ret|apply open_code_of]. }
  destruct (match owed_step owed with Some Authenticate | None => if acr_ok r ses then None else Some StMfa | Some stage => Some stage end); [|exact Hd].
  destruct (prompts r "none"); [by apply returns_ret|apply open_code_of].
Qed.

Lemma direct_request_ok now dir lk t iss params c r : direct_request parse_url json_text now dir lk t iss params = Ok (c, r) ->
  rg_active c = true /\ (exists name, cx_find lk name = Some c) /\ requires_par c = false /\ request_ok dir t c r.
Proof.
  unfold direct_request. destruct (resolve_client_and_merge _ _ _ _) as [[c' merged]|] eqn:Er; [|done].
  destruct (resolve_redirect _ _ _) as [[[redirect mode] state]|] eqn:Ed; [|done]. destruct (requires_par c') eqn:Ep; [done|].
  destruct (validate _ _ _ _ _ _ _ _ _) as [r'|[]] eqn:Ev; [|done..]. intros [= -> ->].
  apply resolve_redirect_ok in Ed. apply validated_ok in Ev; [|done]. unfold resolve_client_and_merge in Er. ok_steps. injection Er as -> <-.
  split; [by apply negb_false_iff|]. split; [|done]. match goal with Hx : ok_or (cx_find lk ?name) _ = Ok _ |- _ => exists name; by apply ok_or_ok in Hx end.
Qed.

(** A request that reaches the decision was checked: as it arrived, or when it
    was pushed. *)
Lemma request_of_ok now n t iss params db c r db' :
  served now db -> now <= n -> request_of n (dir_at n) (clients_at n t) t iss params db = (Ok (c, r), db') ->
  rg_active c = true /\ (exists name, cx_find (clients_at n t) name = Some c)
  /\ (exists n0 c0, n - PAR_TTL_SECS * 1000 < n0 <= n /\ cl_id (rg_client c0) = cl_id (rg_client c) /\ checked_at n0 t c0 r
      /\ ((n0 = n /\ c0 = c /\ requires_par c = false)
          \/ exists uri, one params "request_uri" = Ok (Some uri) /\ String.prefix URN_PREFIX uri = true)).
Proof.
  intros Hserved%served_ok Hle Er.
  assert (direct_request parse_url json_text n (dir_at n) (clients_at n t) t iss params = Ok (c, r) ->
    rg_active c = true /\ (exists name, cx_find (clients_at n t) name = Some c)
    /\ (exists n0 c0, n - PAR_TTL_SECS * 1000 < n0 <= n /\ cl_id (rg_client c0) = cl_id (rg_client c) /\ checked_at n0 t c0 r
      /\ ((n0 = n /\ c0 = c /\ requires_par c = false)
          \/ exists uri, one params "request_uri" = Ok (Some uri) /\ String.prefix URN_PREFIX uri = true))) as Hdirect.
  { intros (Ha & Hf & Hpar & Hok)%direct_request_ok. do 2 (split; [done|]). exists n, c. unfold PAR_TTL_SECS. split; [lia|]. split; [done|].
    split; [done|]. by left. }
  unfold Requests.request_of in Er. destruct (one params "request_uri") as [[uri|]|] eqn:Eu.
  2-3: injection Er as Ed _; exact (Hdirect Ed).
  destruct (String.prefix URN_PREFIX uri) eqn:Epre; [|injection Er as Ed _; exact (Hdirect Ed)].
  destruct (take_pushed n _ t params uri db) as [[[c1 r1]|f] db1] eqn:Et; [|by destruct f]. injection Er as -> -> ->.
  apply take_pushed_inv in Et as (p & Hl & _ & -> & Hcl & Hact & (name & _ & Hfind)). split; [done|]. split; [by exists name|].
  destruct (Hserved n t _ p Hle Hl) as (n0 & c0 & Hn0 & Hc0 & Hok). exists n0, c0. rewrite Hcl. do 3 (split; [done|]). right. by exists uri.
Qed.

(** C6: A code goes only where the client said. Whatever was pushed and taken
    before, a code that [/authorize] answers with is for a client that is
    registered and active, and the request behind it passed all checks for
    that client: as it is registered when the request arrives, or for a pushed
    request, as it was registered when it was pushed, less than a minute
    before. So its redirect URI is one the client registered (or, for a native
    client, one on the registered loopback address), it carries a well-formed
    challenge wherever the client must use PKCE, its scopes are the client's
    and known in the tenant, and its audiences are resources the client may
    ask for; a client that must push its requests gets a code only for a
    request that was pushed. *)
Theorem code_goes_to_registered_uri now n id t csrf bytes acting acc s params cookie device ip location st code g answer st' :
  served now (sv_redis st) -> now <= n ->
  authorize parse_url json_text sha b64 issuer_of n id t csrf bytes acting (dir_at n) (clients_at n t) acc s params cookie device ip location st
    = (Ok (WithCode code g answer), st') ->
  exists c n0 c0, rg_active c = true /\ (exists name, cx_find (clients_at n t) name = Some c) /\ cl_id (rg_client c) = c_client_id g
    /\ n - PAR_TTL_SECS * 1000 < n0 <= n
    /\ rg_active c0 = true /\ (exists name, cx_find (clients_at n0 t) name = Some c0) /\ cl_id (rg_client c0) = c_client_id g
    /\ redirect_registered parse_url c0 (c_redirect_uri g)
    /\ (needs_pkce c0 = true -> is_Some (c_code_challenge g)) /\ (forall ch, c_code_challenge g = Some ch -> is_valid_challenge ch = true)
    /\ (forall sc, sc ∈ c_scopes g -> sc ∈ cl_allowed_scopes (rg_client c0) /\ exists d, d ∈ d_scopes (dir_at n0) t /\ sc_name d = sc)
    /\ (forall a, a ∈ c_audiences g ->
         a ∈ cl_allowed_audiences (rg_client c0)
         \/ (cl_allowed_audiences (rg_client c0) = [] /\ is_Some (d_resource_server (dir_at n0) t a))
         \/ (exists id rs, d_resource_server_by_id (dir_at n0) t id = Some rs /\ Models.rs_identifier rs = a
             /\ may_target (rg_client c0) a (Models.rs_built_in rs) = true))
    /\ ((n0 = n /\ c0 = c /\ requires_par c = false)
        \/ exists uri, one params "request_uri" = Ok (Some uri) /\ String.prefix URN_PREFIX uri = true).
Proof.
  intros Hserved Hle. unfold authorize. destruct (request_of n _ _ t (issuer_of t) params (sv_redis st)) as [[[c r]|e] db] eqn:Er; [|done].
  destruct (cx_ip_rules _ _) as [[]|]; [|done]. destruct (Authorize.decide _ _ _ _ _ _ _ _ _ _ _ _ _ _ _ _ _ _) as [[a|e] st1] eqn:Ed; [|done].
  intros Hok. assert (a = WithCode code g answer) as -> by (by destruct a; inversion Hok).
  apply decide_code_of in Ed as (Hc & Hr & Hs & Hau & Hp & _).
  destruct (request_of_ok _ _ _ _ _ _ _ _ _ Hserved Hle Er) as (Ha & Hf & (n0 & c0 & Hn0 & Hc0 & (Ha0 & Hf0 & [_ Hok2 _ Hok4 Hok5 [_ Hok6] Hok7 _ _ _]) & Hpar)).
  exists c, n0, c0. rewrite Hr, Hs, Hp, Hc, Hau. done.
Qed.
End pushed.

(** ** Example: a native client *)

Section example.
Local Open Scope string_scope.
#[local] Instance rq_valkey : Valkey := map_valkey (R := AzRaw + PushedRequest).
#[local] Existing Instances map_valkey_laws map_counters toy_uuid mf_encryptor pf_lib ot_geo ca_jwts.
(** The codecs of the other records, beside that of pushed requests. *)
Definition rq_lift {A} (s : @Serde az_valkey A) : @Serde rq_valkey A.
Proof.
  refine {| to_json a := inl (@to_json az_valkey A s a) : @raw rq_valkey;
            from_json r := match r with inl r => @from_json az_valkey A s r | inr _ => None end |}. intros a. apply from_to_json.
Defined.
#[local] Instance rq_session : Serde SsoSession := rq_lift az_session.
#[local] Instance rq_flow : Serde LoginFlow := rq_lift az_flow.
#[local] Instance rq_device : Serde DeviceRecord := rq_lift az_device.
#[local] Instance rq_code : Serde AuthCode := rq_lift az_code.
#[local] Instance rq_unit : Serde () := rq_lift az_unit.
#[local] Instance rq_pushed : Serde PushedRequest.
Proof. refine {| to_json p := inr p : @raw rq_valkey; from_json r := match r with inr p => Some p | inl _ => None end |}. done. Defined.

Definition rq_url (s : string) : option UrlParts :=
  if String.prefix "http://127.0.0.1" s then Some (mkUrlParts "http" (Some "127.0.0.1") "/cb" None None) else None.
Definition rq_client : Registration :=
  mkRegistration (mkClient 3 "app" AuthNone ["http://127.0.0.1/cb"] ["authorization_code"] ["openid"] [] None None None Jwt Public None true false false NoProfile
    None) true Native [] false false false false.
Definition rq_lookups : ClientLookups :=
  mkClientLookups (fun id => if String.eqb id "app" then Some rq_client else None) (fun _ _ => Ok []) (fun _ => Ok tt) (fun _ => None) (fun _ => Ok tt)
    (fun _ => true).
Definition rq_params : RawParams :=
  [("client_id", "app"); ("redirect_uri", "http://127.0.0.1:8080/cb"); ("response_type", "code"); ("scope", "openid");
   ("code_challenge", "E9Melhoa2OwvFrEMTJguCHaoeK1t8URWbuGJSstw-cM"); ("code_challenge_method", "S256")].

(** Bo is signed in. *)
Definition rq_app : AppState := mkAppState _ (∅ : gmap string _) [] [] {[ 1%Z := ex_policy ]} [].
Definition rq_signed_in : AppState :=
  match Sessions.create 0 10 None rq_app 1 (mkNewSession 5 ["pwd"] (Some ACR_SINGLE) None None None ex_policy) with Ok (_, app) => app | Err _ => rq_app end.
Definition rq_state : Server :=
  mkServer (mkAccounts rq_signed_in [us_user 5 "bo" (Some "bo@example.com")] ∅) [] mf_node (∅ : gmap string _) [] [] [] [] [] [] [].
Definition rq_run (params : RawParams) : result Refused Authorized * Server :=
  authorize rq_url (fun _ => None) ot_sha str_of_bytes az_issuer 1000 12 1 [77%Z] [55%Z] az_acting sp_dir rq_lookups az_access (az_settings false) params
    (Some 10%Z) None None None rq_state.
Example rq_answers :
  (rq_run (filter (fun p => p.1 <> "code_challenge" /\ p.1 <> "code_challenge_method") rq_params)).1
    = Err (RBack "http://127.0.0.1:8080/cb" RmQuery (mkOAuthError InvalidRequest "code_challenge is required (PKCE)") None)
  /\ (rq_run (("redirect_uri", "https://evil.example/cb") :: filter (fun p => p.1 <> "redirect_uri") rq_params)).1
    = Err (RPage "invalid_request" "redirect_uri is not registered for this client").
Proof. vm_compute. done. Qed.

Definition rq_registry (_ : Z) : Directory * (Uuid -> ClientLookups) := (sp_dir, fun _ => rq_lookups).
Lemma rq_served : served rq_url (fun _ => None) ca_none ca_none id (fun _ => None) ot_sha str_of_bytes rq_registry 0 (sv_redis rq_state).
Proof.
  apply sv_start. intros n t id. pose proof (par_foreign t id) as Hk.
  unfold sv_redis, rq_state, rq_signed_in. cbn [sv_app ac_app sv_accounts].
  destruct (Sessions.create 0 10 None rq_app 1 _) as [[ses app]|] eqn:E; [|done]. by rewrite (frames_create _ _ _ _ _ _ _ _ E _ Hk).
Qed.
Lemma code_goes_to_registered_uri_witness :
  exists g, c_redirect_uri g = "http://127.0.0.1:8080/cb" /\ redirect_registered rq_url rq_client (c_redirect_uri g) /\ is_Some (c_code_challenge g).
Proof.
  assert (exists code g answer, rq_run rq_params = (Ok (WithCode code g answer), (rq_run rq_params).2)
    /\ c_redirect_uri g = "http://127.0.0.1:8080/cb" /\ is_Some (c_code_challenge g)) as (code & g & answer & E & Eg & Ec).
  { do 3 eexists. split; [apply ran_of; vm_compute; reflexivity|]. split; [reflexivity|]. eexists. reflexivity. }
  destruct (code_goes_to_registered_uri (H0 := map_valkey_laws) rq_url (fun _ => None) ca_none ca_none id (fun _ => None) ot_sha str_of_bytes rq_registry az_issuer
    0 1000 12 1 [77%Z] [55%Z] az_acting az_access (az_settings false) rq_params (Some 10%Z) None None None rq_state code g answer _ rq_served
    ltac:(lia) E) as (c & n0 & c0 & _ & _ & _ & _ & _ & [name Hf] & _ & Hr & _).
  cbn in Hf. destruct (String.eqb name "app"); [|discriminate Hf]. injection Hf as <-.
  exists g. exact (conj Eg (conj Hr Ec)).
Defined.

(** A web client that pushes its requests, and one that takes them. *)
Definition rq_push : result OAuthError string * vdb :=
  par rq_url (fun _ => None) ca_none ca_none id (fun _ => None) ot_sha str_of_bytes 1000 [55%Z] sp_dir rq_lookups 1 "https://id.example/token" "https://id.example"
    None None false rq_params (∅ : gmap string _).
Definition rq_taken : result Failure (Registration * AuthRequest) * vdb :=
  take_pushed 2000 rq_lookups 1 [("client_id", "app")] (URN_PREFIX ++ "7") rq_push.2.
Lemma pushed_request_sound_witness :
  rq_push.1 = Ok (URN_PREFIX ++ "7")
  /\ exists c r, rq_taken.1 = Ok (c, r) /\ rg_active c = true /\ aq_redirect_uri r = "http://127.0.0.1:8080/cb"
     /\ forall n' lk' params' x db'', take_pushed n' lk' 1 params' (URN_PREFIX ++ "7") rq_taken.2 <> (Ok x, db'').
Proof.
  split; [vm_compute; reflexivity|].
  assert (exists r, rq_taken = (Ok (rq_client, r), rq_taken.2) /\ aq_redirect_uri r = "http://127.0.0.1:8080/cb") as (r & E & Er).
  { eexists. split; [apply ran_of; vm_compute; reflexivity|]. reflexivity. }
  destruct (pushed_request_sound (H0 := map_valkey_laws) rq_url (fun _ => None) ca_none ca_none id (fun _ => None) ot_sha str_of_bytes rq_registry 1000 rq_push.2 2000 1
    [("client_id", "app")] (URN_PREFIX ++ "7") rq_client r rq_taken.2) as (Ha & _ & _ & Hn).
  - apply (sv_push _ _ _ _ _ _ _ _ rq_registry 0); [by apply sv_start|lia].
  - lia.
  - exact E.
  - exists rq_client, r. rewrite E. exact (conj eq_refl (conj Ha (conj Er Hn))).
Defined.
End example.
